(* ===== verification/_CoqProject ===== *)
-Q . S2P
Prelude.v
State.v
Addr.v
Buffers.v
Utime.v
Histogram.v
PerfCounters.v
Machine.v
Memory.v
Wire.v
QueuePair.v
Net.v
Infiniband.v
Dispatcher.v
Socket.v
SocketRead.v
Handshake.v
Polling.v
Connection.v
Server.v
Multicast.v
Event.v
EventSelect.v
Posix.v
Lifecycle.v
Text.v
Escape.v
Formatter.v
FormatterXml.v
FormatterTable.v
Config.v
Clock.v
Statistic.v
Calendar.v
AddrText.v
Spinlock.v
Submit.v
Double.v
Cycles.v
Locked.v
Collection.v
Handles.v
Startup.v
Callbacks.v
Progress.v
Threads.v
Chain.v
Contexts.v
