(* ===== verification/Prelude.v ===== *)
(** * RDMACapsule: a verification of its core

    RDMACapsule is a library that gives applications message connections over
    RDMA queue pairs, with TCP for setting them up, and a daemon that turns a
    connection into a multicast group with the help of a programmable switch.
    This development translates its C++ sources into definitions and proves
    what they do. This file is the root: it documents the whole and holds the
    machine integers, the type of outcomes, the lists and the tactics that the
    other files share.

    ** The program and the files that model it

    The program's layers, from the bottom, with the sources under src/src:

    - _Values_. Addr.v: [entity_addr_t] (common/types.h) as the 28 bytes of
      its union; AddrText.v: its text (types.cc). Buffers.v: [Buffer] and
      [BufferList] (common/buffer.h). Utime.v: [utime_t]; Clock.v: the clocks
      and spans; Calendar.v: their text and rounding; Cycles.v: the processor's
      counter and the conversions through [double], over Double.v, the
      arithmetic of [double] (common/common_time.h, common_time.cc). Text.v and Escape.v: decimal text and the escapes of
      common/escape.cc. Spinlock.v: the lock of common/common.h.
    - _Statistics and output_. Histogram.v (common/perf_histogram.h, .cc),
      PerfCounters.v (common/perf_counters.h, .cc), Collection.v (the objects
      registered in common/perf_counters_collection.cc), Statistic.v and, for
      its locked terms, Locked.v (common/statistic.h), Formatter.v, FormatterXml.v and FormatterTable.v
      (the three formatters of common/formatter.cc). Config.v: the
      configuration file; Contexts.v: [Context] and who deletes it
      (common/context.h), and [cpp_strerror] (common/common.h).
    - _The RDMA core_ (core/Infiniband.cc, core/RDMAStack.cc,
      core/RDMAConnectedSocketImpl.cc, core/RDMAServerSocketImpl.cc).
      Machine.v declares the objects as records, kept in maps by address, and
      the state they make up; Memory.v is [MemoryManager], Wire.v the text of
      the handshake message, QueuePair.v the queue pair, Infiniband.v devices,
      completion queues and start-up, Dispatcher.v the tables of
      [RDMADispatcher], Socket.v and SocketRead.v the connected socket and its
      worker, Handshake.v two sockets talking to each other, Polling.v the
      polling thread, the server socket and the worker's entry points,
      Startup.v the construction and destruction of the whole stack,
      Callbacks.v the sockets over the event centre, Threads.v the polling
      thread beside the threads that use and destroy the sockets.
    - _The network layer_ (network/). Net.v: [NetHandler]. Event.v and
      EventSelect.v: [EventCenter] with its epoll and select drivers; Submit.v:
      functions that one centre runs for another. Handles.v: the handles of
      sockets (Stack.h). Posix.v:
      the sockets of the operating system. Lifecycle.v: [NetworkStack] and the
      threads of its workers.
    - _The applications_. Connection.v and Server.v: connections, the server
      and its processors (core/connection.cc, core/server.cc,
      network/processer.cc). Multicast.v: the daemon (multicast/) and the
      control plane of the switch (controller/mc_control_plane.cc); Progress.v:
      that the daemon finishes. Chain.v: chain replication over three nodes
      (test/cr_daemon.cc).

    State.v holds the monad the operations are written in, a state with an
    [outcome], and its weakest preconditions. A member function is a
    definition of the same name; its early returns and assertions are branches
    of the definition. An assertion that fails, an access through a null
    pointer, a store outside an array, a division by zero and signed overflow
    are crashes of the outcome, so that a theorem that an operation returns
    excludes them. Integers are in [Z] with the reductions of their C++ types
    written where the code makes them.

    ** What the code calls

    Code outside the sources is a parameter. The calls of the RDMA core to
    libc, libibverbs, the event centre and the application are the values of
    [Machine.call], answered by a [World]; the boost pool is a [BoostPool].
    The connection layer uses a [Transport], the event centre a [Kernel];
    Callbacks.v answers the calls to a centre with the centre of Event.v. The
    documented behaviour that a theorem relies on is a further class, with an
    instance that witnesses it: [Adapter] (the queue pair state machine),
    [PoolLaws] and [PoolFrame] (the pool), [PrereqOk] (preparing for fork),
    [CenterOk] (the descriptors of an event centre), [Endpoint] (a TCP
    connection that delivers in order), [DestroyOk], [NotifyOk], [Traced] (descriptors), [Recorded] and
    [Listener] (what a transport was asked), [Interpreter] (the Python
    interpreter, which is not running when the daemon starts), [Epoll] (the interest list),
    [NotifyPipe] (a pipe keeps its bytes) and [Sink] (sendmsg takes a prefix).
    [Container] is what a logger asks of its container. The text of a floating
    point number, the local time zone, [inet_pton], [inet_ntop] for IPv6,
    the bytes of a new object that nobody has written and the order of a hash
    table are arguments of the definitions that use them.

    ** What is proved

    - _Connecting_. [Handshake.handshake_completes]: two sockets that exchange
      their messages both end connected with queue pairs that send to each
      other. [QueuePair.bring_up_legal]: the transitions carry what the state
      machine of the adapter requires. [QueuePair.handshake_delivers],
      [Wire.cm_message_round_trip]: the message is read as it was written.
    - _Queue pairs and buffers_. [Polling.queue_pair_lifecycle] and
      [Dispatcher.table_invariant]: the tables of the dispatcher agree in every
      run, a queue pair is destroyed once, after its requests have completed.
      [Memory.tx_pool_conserved], [Polling.handle_rx_event_replaces],
      [Polling.handle_tx_event_returns_chunks]: no buffer is lost or given out
      twice. [Socket.send_spec], [SocketRead.read_spec],
      [Infiniband.post_chunks_posts]: what sending, reading and posting do.
    - _Events and threads_. [Event.no_lost_wakeup]: a sleeping centre with work
      has a byte in its pipe. [Event.file_events_follow_epoll],
      [Event.due_timers_run], [Event.wait_never_overshoots].
      [Lifecycle.stop_completes] and [Lifecycle.workers_ready_between_calls]
      for the worker threads under every interleaving, and
      [Lifecycle.restart_never_stops] for a second start.
      [Spinlock.spinlock_refines_lock]: the flag is a lock.
      [PerfCounters.read_avg_consistent]: the lock-free average.
      [Submit.submits_complete], [Submit.submit_event_waits]: functions given
      to other centres run once and their callers go on.
      [Locked.locked_term_atomic]: threads that share a locked logger do what
      its sequential form does.
      [Threads.receive_never_dangles] and [Threads.completions_conserved]: in
      every interleaving of the polling thread with the threads of the sockets
      it never touches a freed socket while it handles receive completions,
      and each completion is read, waiting or given back, once and in order;
      [Threads.send_callback_dangles]: its handling of send completions, which
      takes no lock, can call a freed socket.
    - _Objects_. [Callbacks.callbacks_live]: the event centre never keeps a
      callback that its socket has deleted. [Startup.stack_starts] and
      [Startup.stack_ends]: what [NetworkStack::create] establishes for the
      theorems above, event centres included, and what the destructors leave. [Collection.collection_never_dangles], [Handles.handles_own],
      [Infiniband.only_bound_device_closed]. [Contexts.context_owns_config],
      [Contexts.app_deletes_twice]: who deletes the configuration.
    - _Time_. [Cycles.init_calibrates], [Cycles.nanoseconds_round_trip],
      [Cycles.soft_timestamp_us_exact]: what is computed in double.
    - _Applications_. [Multicast.client_answered_late]: a client is answered
      after its members, and after the switch has the entry of its group;
      [Progress.group_answered]: and it is answered, when the members answer,
      in every order of their events; [Multicast.early_ack_aborts]: the branch
      that takes the client's acknowledgement holds no lock, and may come too
      early. [Connection.write_callback_once],
      [Server.accept_drains], [Server.server_sends_to_peer],
      [Connection.get_worker_least]. [Chain.chain_safe] and
      [Chain.chain_drains]: a chain of three nodes keeps its window, fails only
      when the head runs out of send chunks or a completion precedes its
      callback, and can go on until everything is acknowledged as long as no
      request was lost in a full queue of sends; [Chain.lost_for_ever],
      [Chain.chain_stalls] and [Chain.oversized_never_acknowledged]: where it
      cannot, when one was lost, a node becomes ready too late or a request has
      more chunks than the queue.
    - _Text_. Round trips of JSON documents, of dates, of time spans, of
      addresses and of escapes; the balance of XML tags; the agreement of
      the three forms of each escape ([Escape.escape_buffer_matches_stream]);
      the meaning of a configuration file ([Config.config_file_semantics]).

    A theorem about what the program gets wrong names the conditions and the
    outcome; these are the properties of kind error.

    ** Fuel and bounds

    Loops whose end is not structural have a fuel argument, and running out of
    it is the crash [NoFuel], which no theorem that an operation returns
    admits. [Socket.read_loop] has one more than the buffers, the loops over
    pending sockets the length of their list, [Multicast] and [Server.accept]
    one more than what is queued, [write_retry] the three retries of the
    source, [grow] of the event table 16 doublings (past the limit of
    descriptors), the timers of [Event.time_loop] as many as there are,
    [Posix.do_sendmsg] more than the bytes and signals left,
    [Config.load_loop] one more than the characters of the file (each pass
    takes one or meets the end, [Config.config_load_returns]), the loop that
    fills a large request of the chain one more than its chunks, the JSON reader
    the size of the document. [Calendar] checks the 400 years of an era and
    the 366 days of a year by computation and covers all days with them.

    ** Concurrency

    A function that holds one lock for all it does is one step. Where threads
    meet otherwise the accesses are the steps: the flags and queues of the
    worker threads (Lifecycle.v), the wake-up of an event centre (Event.v), the
    counters of an average (PerfCounters.v), the spinlock (Spinlock.v), the
    messages of two sockets (Handshake.v), the events of the daemon
    (Multicast.v, where what runs under [data_lock] is a step and the branch
    that takes no lock is split), the threads that submit functions to each other (Submit.v)
    and that share a logger (Locked.v), the polling thread and the threads of
    the sockets (Threads.v), the threads of the three nodes of a chain with
    their completions (Chain.v). Atomic accesses are sequentially consistent: no weaker order of
    the language is modelled.

    ** Not modelled

    Printing to the console; CPU affinity; accessors of one member; the test
    programs other than the flow control of the chain and the construction and
    destruction of their objects: they print, measure and repeat calls of the
    library. The callbacks of a connected socket have a flag that turns them
    off, which is only cleared when they are deleted. Accesses to a member
    without a lock from two threads, such as [post_backlog], are steps of the
    functions that make them and do not tear. Double.v is the arithmetic of
    IEEE 754 in the order the source writes it: a compiler that contracts a
    product and a sum into one operation rounds once less. *)

From Stdlib Require Export ZArith Lia Ascii.
From stdpp Require Export strings gmap sets numbers fin_maps prelude.

#[global] Set Default Proof Using "Type".

Open Scope Z_scope.

(** ** Machine integers *)

Definition u8 (z : Z) : Z := z mod 256.
Definition u16 (z : Z) : Z := z mod 65536.
Definition u32 (z : Z) : Z := z mod 4294967296.
Definition u64 (z : Z) : Z := z mod 18446744073709551616.

(** Two's complement reading of a 32-bit word: a conversion to [int]. *)
Definition s32 (z : Z) : Z :=
  let r := u32 z in if r <? 2147483648 then r else r - 4294967296.

Definition is_u8 (z : Z) : Prop := 0 ≤ z < 256.
Definition is_u16 (z : Z) : Prop := 0 ≤ z < 65536.
Definition is_u32 (z : Z) : Prop := 0 ≤ z < 4294967296.
Definition is_u64 (z : Z) : Prop := 0 ≤ z < 18446744073709551616.

Ltac unfold_ints :=
  unfold u8, u16, u32, u64, s32, is_u8, is_u16, is_u32, is_u64 in *.

(** Arithmetic on machine words: unfold the widths, turn [mod] into
    equations, and call [lia]. *)
Ltac word_lia := unfold_ints; Z.to_euclidean_division_equations; lia.

Lemma u8_range z : is_u8 (u8 z).
Proof. word_lia. Qed.
Lemma u16_range z : is_u16 (u16 z).
Proof. word_lia. Qed.
Lemma u32_range z : is_u32 (u32 z).
Proof. word_lia. Qed.
Lemma u64_range z : is_u64 (u64 z).
Proof. word_lia. Qed.

Lemma u8_small z : is_u8 z → u8 z = z.
Proof. apply Z.mod_small. Qed.
Lemma u16_small z : is_u16 z → u16 z = z.
Proof. apply Z.mod_small. Qed.
Lemma u32_small z : is_u32 z → u32 z = z.
Proof. apply Z.mod_small. Qed.
Lemma u64_small z : is_u64 z → u64 z = z.
Proof. apply Z.mod_small. Qed.

Lemma u32_add_l a b : u32 (u32 a + b) = u32 (a + b).
Proof. apply Zplus_mod_idemp_l. Qed.
Lemma u32_add_r a b : u32 (a + u32 b) = u32 (a + b).
Proof. apply Zplus_mod_idemp_r. Qed.
Lemma u32_sub_l a b : u32 (u32 a - b) = u32 (a - b).
Proof. apply Zminus_mod_idemp_l. Qed.
Lemma u32_sub_r a b : u32 (a - u32 b) = u32 (a - b).
Proof. apply Zminus_mod_idemp_r. Qed.
Lemma u64_add_l a b : u64 (u64 a + b) = u64 (a + b).
Proof. apply Zplus_mod_idemp_l. Qed.

Create HintDb words.
Create Rewrite HintDb words.
#[export] Hint Resolve u8_range u16_range u32_range u64_range : words.
#[export] Hint Rewrite u32_add_l u32_add_r u32_sub_l u32_sub_r u64_add_l : words.

(** ** Outcomes and the state monad

    A C++ operation returns, or stops the process through [kassert] or
    [abort()] ([KAbort]), or leaves the language (a null pointer
    dereferenced, [back()] of an empty vector, an index past the end):
    [Undefined]. A loop that is given too little fuel reports [NoFuel]; a
    wait for a lock that an earlier operation left locked is [Blocked]. *)

Inductive crash := KAbort | Undefined | NoFuel | Blocked.

Inductive outcome (A : Type) :=
| Ret (a : A)
| Crash (c : crash).
Arguments Ret {A} a.
Arguments Crash {A} c.

#[global] Instance crash_eq_dec : EqDecision crash.
Proof. solve_decision. Defined.

#[global] Instance outcome_ret : MRet outcome := λ A a, Ret a.
#[global] Instance outcome_bind : MBind outcome := λ A B k m,
  match m with Ret a => k a | Crash c => Crash c end.

(** [kassert(b)] of common/common.h (NDEBUG is not defined). *)
Definition kassert (b : bool) : outcome unit :=
  if b then Ret tt else Crash KAbort.

(** A read through a pointer or an index that may be invalid. *)
Definition deref {A} (o : option A) : outcome A :=
  match o with Some a => Ret a | None => Crash Undefined end.

Lemma bind_Ret {A B} (m : outcome A) (k : A → outcome B) b :
  (m ≫= k) = Ret b ↔ ∃ a, m = Ret a ∧ k a = Ret b.
Proof. destruct m; [naive_solver|]. split; [done|]. by intros (?&?&?). Qed.

Lemma bind_assoc {A B C} (m : outcome A) (f : A → outcome B) (g : B → outcome C) :
  ((m ≫= f) ≫= g) = (m ≫= (λ a, f a ≫= g)).
Proof. by destruct m. Qed.

Lemma kassert_Ret b u : kassert b = Ret u ↔ b = true.
Proof. destruct u, b; naive_solver. Qed.

Lemma deref_Ret {A} (o : option A) a : deref o = Ret a ↔ o = Some a.
Proof. destruct o; naive_solver. Qed.

(** Run the monad one step without touching the operations. *)
Ltac mstep := cbn [mbind outcome_bind mret outcome_ret kassert deref].
Ltac mstep_in H := cbn [mbind outcome_bind mret outcome_ret kassert deref] in H.

(** Turn a successful run into the successful runs of its parts. *)
Ltac inv_ret :=
  repeat match goal with
  | H : _ ≫= _ = Ret _ |- _ => apply bind_Ret in H as (?&?&H)
  | H : kassert _ = Ret _ |- _ => apply kassert_Ret in H
  | H : deref _ = Ret _ |- _ => apply deref_Ret in H
  | H : Ret _ = Ret _ |- _ => injection H as H
  | H : Crash _ = Ret _ |- _ => discriminate H
  | H : (let '(_, _) := ?p in _) = _ |- _ => destruct p eqn:?
  end; simplify_eq/=.

(** ** Sequences of steps *)

Section star.
Context {S : Type} (R : S → S → Prop).

(** An invariant of every step is an invariant of every run. *)
Lemma rtc_invariant (I : S → Prop) s s' :
  (∀ a b, I a → R a b → I b) → I s → rtc R s s' → I s'.
Proof. intros Hstep Hs Hrun. induction Hrun; eauto. Qed.
End star.

(** ** Lists *)

Fixpoint Zsum (l : list Z) : Z :=
  match l with [] => 0 | z :: l => z + Zsum l end.

Lemma Zsum_app l1 l2 : Zsum (l1 ++ l2) = Zsum l1 + Zsum l2.
Proof. induction l1; simpl; lia. Qed.

#[global] Instance Zsum_perm : Proper ((≡ₚ) ==> (=)) Zsum.
Proof. intros l l' Hl. induction Hl; simpl; lia. Qed.

Lemma Zsum_nonneg l : Forall (λ z, 0 ≤ z) l → 0 ≤ Zsum l.
Proof. induction 1; simpl; lia. Qed.

(** [std::vector::back] followed by [pop_back]. *)
Definition pop_back {A} (l : list A) : option (A * list A) :=
  match last l with
  | Some x => Some (x, take (length l - 1) l)
  | None => None
  end.

Lemma pop_back_snoc {A} (l : list A) x : pop_back (l ++ [x]) = Some (x, l).
Proof.
  unfold pop_back. rewrite last_snoc, length_app; simpl.
  replace (length l + 1 - 1)%nat with (length l) by lia.
  by rewrite take_app_length.
Qed.

Lemma pop_back_Some {A} (l : list A) x l' : pop_back l = Some (x, l') → l = l' ++ [x].
Proof.
  destruct l as [|y l0] using rev_ind; [done|].
  rewrite pop_back_snoc. naive_solver.
Qed.

Lemma pop_back_nonempty {A} (l : list A) : l ≠ [] → is_Some (pop_back l).
Proof.
  destruct l as [|y l0] using rev_ind; [done|]. rewrite pop_back_snoc; eauto.
Qed.

(** Filtering *)
Lemma Forall_filter_keep {A} (P Q : A → Prop) `{∀ x, Decision (P x)} (l : list A) : Forall Q l → Forall Q (filter P l).
Proof. rewrite !Forall_forall. intros H1 x [_ ?]%list_elem_of_filter. auto. Qed.

Lemma filter_all {A} (P : A → Prop) `{∀ x, Decision (P x)} (l : list A) : (∀ x, x ∈ l → P x) → filter P l = l.
Proof.
  induction l as [|x l IH]; intros Hl; [done|]. rewrite filter_cons_True by (apply Hl; set_solver).
  f_equal. apply IH. intros y Hy. apply Hl. set_solver.
Qed.
