(* ===== verification/State.v ===== *)
(** * State and failure

    The monad the operations of the program are written in: a state, and an
    outcome that is a result or a crash. Weakest preconditions for runs that
    must return ([wp]) and for runs that may crash ([wlp]), and what an
    operation leaves alone ([frame]). *)

From S2P Require Import Prelude.

Section state.
Context {S : Type}.

Definition ST (A : Type) : Type := S → outcome (A * S).

#[global] Instance ST_ret : MRet ST := λ A a m, Ret (a, m).
#[global] Instance ST_bind : MBind ST := λ A B k x m,
  match x m with Ret (a, m') => k a m' | Crash c => Crash c end.

Definition gets {A} (f : S → A) : ST A := λ m, Ret (f m, m).
Definition modify (f : S → S) : ST unit := λ m, Ret (tt, f m).
Definition fail {A} (c : crash) : ST A := λ _, Crash c.
Definition assert (b : bool) : ST unit := if b then mret tt else fail KAbort.
Definition the {A} (o : option A) : ST A :=
  match o with Some a => mret a | None => fail Undefined end.
Definition lift {A} (o : outcome A) : ST A :=
  λ m, match o with Ret a => Ret (a, m) | Crash c => Crash c end.

Definition when (b : bool) (x : ST unit) : ST unit := if b then x else mret tt.

Fixpoint for_each {A} (l : list A) (f : A → ST unit) : ST unit :=
  match l with [] => mret tt | a :: l => f a ;; for_each l f end.

Lemma bind_run {A B} (x : ST A) (k : A → ST B) m a m' : x m = Ret (a, m') → (x ≫= k) m = k a m'.
Proof. intros H. unfold mbind, ST_bind. by rewrite H. Qed.

(** ** Weakest preconditions

    [wp x Q m]: from [m], [x] returns without a crash and [Q] holds of the
    result. [wlp x Q m]: if it returns, [Q] holds. *)

Definition wp {A} (x : ST A) (Q : A → S → Prop) (m : S) : Prop :=
  match x m with Ret (a, m') => Q a m' | Crash _ => False end.
Definition wlp {A} (x : ST A) (Q : A → S → Prop) (m : S) : Prop :=
  match x m with Ret (a, m') => Q a m' | Crash _ => True end.

Lemma wp_ret {A} (a : A) Q m : Q a m → wp (mret a) Q m.
Proof. done. Qed.
Lemma wlp_ret {A} (a : A) Q m : Q a m → wlp (mret a) Q m.
Proof. done. Qed.
Lemma wp_bind {A B} (x : ST A) (k : A → ST B) Q m :
  wp x (λ a, wp (k a) Q) m → wp (x ≫= k) Q m.
Proof. unfold wp. simpl. unfold mbind, ST_bind. by destruct (x m) as [[]|]. Qed.
Lemma wlp_bind {A B} (x : ST A) (k : A → ST B) Q m :
  wlp x (λ a, wlp (k a) Q) m → wlp (x ≫= k) Q m.
Proof. unfold wlp. simpl. unfold mbind, ST_bind. by destruct (x m) as [[]|]. Qed.
Lemma wp_mono {A} (x : ST A) (Q Q' : A → S → Prop) m :
  wp x Q m → (∀ a m', Q a m' → Q' a m') → wp x Q' m.
Proof. unfold wp. destruct (x m) as [[]|]; eauto. Qed.
Lemma wlp_mono {A} (x : ST A) (Q Q' : A → S → Prop) m :
  wlp x Q m → (∀ a m', Q a m' → Q' a m') → wlp x Q' m.
Proof. unfold wlp. destruct (x m) as [[]|]; eauto. Qed.
Lemma wp_Ret {A} (x : ST A) Q m : wp x Q m ↔ ∃ a m', x m = Ret (a, m') ∧ Q a m'.
Proof. unfold wp. destruct (x m) as [[a m']|]; [|naive_solver]. split; [eauto|]. by intros (?&?&[= -> ->]&?). Qed.
Lemma wlp_elim {A} (x : ST A) (Q : A → S → Prop) m a m' : wlp x Q m → x m = Ret (a, m') → Q a m'.
Proof. unfold wlp. intros H E. by rewrite E in H. Qed.
Lemma wlp_and {A} (x : ST A) (Q Q' : A → S → Prop) m :
  wlp x Q m → wlp x Q' m → wlp x (λ a m', Q a m' ∧ Q' a m') m.
Proof. unfold wlp. by destruct (x m) as [[]|]. Qed.
Lemma wp_gets {A} (f : S → A) Q m : Q (f m) m → wp (gets f) Q m.
Proof. done. Qed.
Lemma wlp_gets {A} (f : S → A) Q m : Q (f m) m → wlp (gets f) Q m.
Proof. done. Qed.
Lemma wp_modify f Q m : Q tt (f m) → wp (modify f) Q m.
Proof. done. Qed.
Lemma wlp_modify f Q m : Q tt (f m) → wlp (modify f) Q m.
Proof. done. Qed.
Lemma wlp_fail {A} c (Q : A → S → Prop) m : wlp (fail c) Q m.
Proof. done. Qed.
Lemma wp_assert b Q m : b = true → Q tt m → wp (assert b) Q m.
Proof. by intros ->. Qed.
Lemma wlp_assert b Q m : (b = true → Q tt m) → wlp (assert b) Q m.
Proof. destruct b; [|done]. intros H. by apply H. Qed.
Lemma wp_the {A} (o : option A) a Q m : o = Some a → Q a m → wp (the o) Q m.
Proof. by intros ->. Qed.
Lemma wlp_the {A} (o : option A) Q m : (∀ a, o = Some a → Q a m) → wlp (the o) Q m.
Proof. destruct o; [|done]. intros H. by apply H. Qed.
Lemma wlp_lift {A} (o : outcome A) Q m : (∀ a, o = Ret a → Q a m) → wlp (lift o) Q m.
Proof. unfold wlp, lift. destruct o; naive_solver. Qed.
Lemma wp_lift {A} (o : outcome A) a (Q : A → S → Prop) m : o = Ret a → Q a m → wp (lift o) Q m.
Proof. by intros ->. Qed.

(** A loop keeps what its body keeps. *)
Lemma wlp_for_each {A} (l : list A) f (I : S → Prop) m :
  (∀ a m, a ∈ l → I m → wlp (f a) (λ _, I) m) → I m → wlp (for_each l f) (λ _, I) m.
Proof.
  revert m. induction l as [|a l IH]; intros m Hf Hm; simpl; [done|].
  apply wlp_bind. eapply wlp_mono; [apply Hf; [set_solver|done]|]. simpl. intros _ m' Hm'.
  apply IH; [|done]. intros b m1 Hb. apply Hf. set_solver.
Qed.
Lemma wp_for_each {A} (l : list A) f (I : S → Prop) m :
  (∀ a m, a ∈ l → I m → wp (f a) (λ _, I) m) → I m → wp (for_each l f) (λ _, I) m.
Proof.
  revert m. induction l as [|a l IH]; intros m Hf Hm; simpl; [done|].
  apply wp_bind. eapply wp_mono; [apply Hf; [set_solver|done]|]. simpl. intros _ m' Hm'.
  apply IH; [|done]. intros b m1 Hb. apply Hf. set_solver.
Qed.

(** [frame f x]: the operation [x] leaves the part [f] of the state alone. *)
Definition frame {A T} (f : S → T) (x : ST A) : Prop :=
  ∀ m a m', x m = Ret (a, m') → f m' = f m.

Lemma frame_wlp {A T} (f : S → T) (x : ST A) : frame f x ↔ ∀ m, wlp x (λ _ m', f m' = f m) m.
Proof.
  split; intros H m.
  - unfold wlp. destruct (x m) as [[a m']|] eqn:E; [|done]. by eapply H.
  - intros a m' E. by apply (wlp_elim _ _ _ _ _ (H m) E).
Qed.
Lemma frame_ret {A T} (f : S → T) (a : A) : frame f (mret a).
Proof. by intros m a' m' [= _ ->]. Qed.
Lemma frame_bind {A B T} (f : S → T) (x : ST A) (k : A → ST B) :
  frame f x → (∀ a, frame f (k a)) → frame f (x ≫= k).
Proof.
  intros Hx Hk m b m'. unfold mbind, ST_bind. destruct (x m) as [[a m1]|] eqn:E; [|done].
  intros H. etrans; [by eapply Hk|by eapply Hx].
Qed.
Lemma frame_gets {A T} (f : S → T) (g : S → A) : frame f (gets g).
Proof. by intros m a m' [= _ ->]. Qed.
Lemma frame_modify {T} (f : S → T) g : (∀ m, f (g m) = f m) → frame f (modify g).
Proof. intros H m a m' [= _ <-]. apply H. Qed.
Lemma frame_fail {A T} (f : S → T) c : frame f (fail (A := A) c).
Proof. by intros ???. Qed.
Lemma frame_assert {T} (f : S → T) b : frame f (assert b).
Proof. destruct b; [apply frame_ret|apply frame_fail]. Qed.
Lemma frame_the {A T} (f : S → T) (o : option A) : frame f (the o).
Proof. destruct o; [apply frame_ret|apply frame_fail]. Qed.
Lemma frame_lift {A T} (f : S → T) (o : outcome A) : frame f (lift o).
Proof. intros m a m'. unfold lift. by destruct o; intros [= _ ->]. Qed.
Lemma frame_when {T} (f : S → T) b x : frame f x → frame f (when b x).
Proof. destruct b; [done|intros _; apply frame_ret]. Qed.
Lemma frame_for_each {A T} (f : S → T) (l : list A) g :
  (∀ a, frame f (g a)) → frame f (for_each l g).
Proof. intros Hg. induction l as [|a l IH]; simpl; [apply frame_ret|apply frame_bind; auto]. Qed.

End state.

Arguments ST : clear implicits.

(** Decompose a frame goal down to the primitive steps. *)
Create HintDb frames.
#[export] Hint Resolve frame_ret frame_gets frame_fail frame_assert frame_the frame_lift
  frame_when frame_for_each : frames.
Ltac head_of t := lazymatch t with ?f _ => head_of f | _ => t end.
(** The steps of the calls to an environment are added by the files that
    define one. *)
Ltac frame_env_step := fail.
Ltac wlp_env_step := fail.
Ltac frame_step :=
  first
  [ apply frame_bind; [|intros]
  | apply frame_modify; intros; reflexivity
  | frame_env_step
  | solve [auto with frames]
  | match goal with
    | |- frame _ (if ?b then _ else _) => destruct b
    | |- frame _ (match ?x with _ => _ end) => destruct x
    | |- frame _ (when _ _) => apply frame_when
    | |- frame _ (for_each _ _) => apply frame_for_each; intros
    | |- frame _ ?x => let h := head_of x in progress unfold h
    end ].
Ltac solve_frame := intros; repeat frame_step.

(** Run a [wlp] goal forward through the primitive steps. *)
Ltac wlp_step :=
  match goal with
  | |- wlp (mret _) _ _ => apply wlp_ret
  | |- wlp (_ ≫= _) _ _ => apply wlp_bind
  | |- wlp (gets _) _ _ => apply wlp_gets
  | |- wlp (modify _) _ _ => apply wlp_modify
  | |- wlp (fail _) _ _ => apply wlp_fail
  | |- wlp (assert _) _ _ => apply wlp_assert; intros
  | |- wlp (the _) _ _ => apply wlp_the; intros
  | |- wlp (lift _) _ _ => apply wlp_lift; intros
  | |- _ => wlp_env_step
  end.
Ltac wlp_unfold := match goal with |- wlp ?x _ _ => let h := head_of x in progress unfold h end.
Ltac wlp_auto := repeat first [wlp_step | progress cbn beta iota | case_match | wlp_unfold].
