(* ===== verification/Addr.v ===== *)
(** * Entity addresses (src/common/types.h and types.cc)

    [entity_addr_t] holds a union of [sockaddr], [sockaddr_in] and
    [sockaddr_in6]; its operations write one member and read another, so the
    union is kept as its 28 bytes, laid out as on x86-64: the family in bytes
    0-1 (little endian), the port in bytes 2-3 (network order), the IPv4
    address in bytes 4-7, [sin_zero] in 8-15, the IPv6 address in 8-23. *)

From S2P Require Import Prelude.

Definition AF_UNSPEC : Z := 0.
Definition AF_INET : Z := 2.
Definition AF_INET6 : Z := 10.
Definition sizeof_sin : nat := 16.
Definition sizeof_sin6 : nat := 28.
Definition sizeof_u : nat := 28.

Inductive type_t := TYPE_SERVER | TYPE_CLIENT | TYPE_SWITCH | TYPE_ANY.

Definition type_code (t : type_t) : Z :=
  match t with TYPE_SERVER => 0 | TYPE_CLIENT => 1 | TYPE_SWITCH => 2 | TYPE_ANY => 3 end.

Definition get_type_name (t : type_t) : string :=
  match t with
  | TYPE_SERVER => "Server" | TYPE_CLIENT => "Client" | TYPE_SWITCH => "Switch" | TYPE_ANY => "any"
  end.

Record entity_addr_t := mkAddr {
  a_type : type_t;
  a_nonce : Z;
  a_u : list Z;  (* 28 bytes *)
  ip_char : list Z;  (* 20 bytes, written by no member function *)
}.

(** Bytes [i, i+n) of the union *)
Definition slice (i n : nat) (l : list Z) : list Z := take n (drop i l).

(** [memcpy] into the union at offset [i] *)
Definition splice (i : nat) (bytes l : list Z) : list Z :=
  take i l ++ bytes ++ drop (i + length bytes) l.

Definition byte_at (i : nat) (l : list Z) : Z := default 0 (l !! i).

Definition le16 (v : Z) : list Z := [u8 v; u8 (v / 256)].
Definition be16 (v : Z) : list Z := [u8 (v / 256); u8 v].
Definition of_be16 (i : nat) (l : list Z) : Z := 256 * byte_at i l + byte_at (S i) l.
Definition of_le16 (i : nat) (l : list Z) : Z := byte_at i l + 256 * byte_at (S i) l.
Definition le32 (v : Z) : list Z := le16 v ++ le16 (v / 65536).
Definition of_le32 (i : nat) (l : list Z) : Z := of_le16 i l + 65536 * of_le16 (S (S i)) l.

Definition zero_u : list Z := replicate sizeof_u 0.

(** [sa_family] of a sockaddr given as bytes *)
Definition sa_family (sa : list Z) : Z := of_le16 0 sa.

Definition with_u (u : list Z) (a : entity_addr_t) : entity_addr_t :=
  mkAddr (a_type a) (a_nonce a) u (ip_char a).

Module Addr.

(** The constructors. [junk] is what the object's memory held in the members
    a constructor does not write. *)
Definition create (junk : entity_addr_t) : entity_addr_t :=
  mkAddr TYPE_SERVER 0 zero_u (ip_char junk).
Definition create_type (t : type_t) (nonce : Z) (junk : entity_addr_t) : entity_addr_t :=
  mkAddr t (u32 nonce) zero_u (ip_char junk).

Definition get_type (a : entity_addr_t) : type_t := a_type a.
Definition set_type (t : type_t) (a : entity_addr_t) : entity_addr_t :=
  mkAddr t (a_nonce a) (a_u a) (ip_char a).
Definition is_any (a : entity_addr_t) : bool := match a_type a with TYPE_ANY => true | _ => false end.
Definition get_nonce (a : entity_addr_t) : Z := a_nonce a.
Definition set_nonce (n : Z) (a : entity_addr_t) : entity_addr_t :=
  mkAddr (a_type a) (u32 n) (a_u a) (ip_char a).

Definition get_family (a : entity_addr_t) : Z := sa_family (a_u a).
Definition set_family (f : Z) (a : entity_addr_t) : entity_addr_t := with_u (splice 0 (le16 f) (a_u a)) a.
Definition is_ipv4 (a : entity_addr_t) : bool := get_family a =? AF_INET.
Definition is_ipv6 (a : entity_addr_t) : bool := get_family a =? AF_INET6.

Definition get_sockaddr_len (a : entity_addr_t) : nat :=
  if get_family a =? AF_INET then sizeof_sin else
  if get_family a =? AF_INET6 then sizeof_sin6 else sizeof_u.

(** [get_sockaddr] with the length the callers pass beside it *)
Definition get_sockaddr (a : entity_addr_t) : list Z := take (get_sockaddr_len a) (a_u a).

Definition set_sockaddr (sa : list Z) (a : entity_addr_t) : bool * entity_addr_t :=
  if sa_family sa =? AF_INET then
    (true, with_u (splice 0 (take sizeof_sin sa) zero_u) a) else
  if sa_family sa =? AF_INET6 then
    (true, with_u (splice 0 (take sizeof_sin6 sa) zero_u) a) else
  if sa_family sa =? AF_UNSPEC then (true, with_u zero_u a) else (false, a).

(** A [sockaddr_in] on the stack: [inet_pton] stores the address (or, when
    the text is not an address, leaves the [junk] bytes), [sin_zero] is never
    written. *)
Definition sin_of (pton : option (list Z)) (port : Z) (junk : list Z) : list Z :=
  le16 AF_INET ++ be16 (u16 port) ++ default (slice 4 4 junk) pton ++ slice 8 8 junk.

Definition set_addr (pton : option (list Z)) (port : Z) (junk : list Z) (a : entity_addr_t) : entity_addr_t :=
  (set_sockaddr (sin_of pton port junk) (set_family AF_INET a)).2.

(** [entity_addr_t(const char* ip, uint16_t port)] initialises the union only. *)
Definition create_ip (pton : option (list Z)) (port : Z) (junk : list Z) (raw : entity_addr_t) : entity_addr_t :=
  set_addr pton port junk raw.

Definition set_in4_quad (pos : nat) (val : Z) (a : entity_addr_t) : entity_addr_t :=
  with_u (splice (4 + pos) [u8 val] (splice 0 (le16 AF_INET) (a_u a))) a.

Definition set_port (port : Z) (a : entity_addr_t) : outcome entity_addr_t :=
  if (get_family a =? AF_INET) || (get_family a =? AF_INET6)
  then Ret (with_u (splice 2 (be16 (u16 port)) (a_u a)) a) else Crash KAbort.

Definition get_port (a : entity_addr_t) : Z :=
  if (get_family a =? AF_INET) || (get_family a =? AF_INET6) then of_be16 2 (a_u a) else 0.

Definition is_blank_ip (a : entity_addr_t) : bool :=
  if get_family a =? AF_INET then of_le32 4 (a_u a) =? 0 else
  if get_family a =? AF_INET6 then bool_decide (slice 8 16 (a_u a) = replicate 16 0) else true.

Definition is_ip (a : entity_addr_t) : bool := (get_family a =? AF_INET) || (get_family a =? AF_INET6).

Definition probably_equals (a o : entity_addr_t) : bool :=
  if negb (get_port a =? get_port o) then false else
  if negb (get_nonce a =? get_nonce o) then false else
  if is_blank_ip a || is_blank_ip o then true else bool_decide (a_u a = a_u o).

Definition is_same_host (a o : entity_addr_t) : bool :=
  if negb (get_family a =? get_family o) then false else
  if get_family a =? AF_INET then of_le32 4 (a_u a) =? of_le32 4 (a_u o) else
  if get_family a =? AF_INET6 then bool_decide (slice 8 16 (a_u a) = slice 8 16 (a_u o)) else false.

(** The object's 56 bytes, and [memcmp] over them *)
Definition raw (a : entity_addr_t) : list Z :=
  le32 (type_code (a_type a)) ++ le32 (a_nonce a) ++ a_u a ++ ip_char a.

Fixpoint memcmp (l r : list Z) : comparison :=
  match l, r with
  | x :: l, y :: r => match x ?= y with Eq => memcmp l r | c => c end
  | _, _ => Eq
  end.

Definition eqb (a b : entity_addr_t) : bool := match memcmp (raw a) (raw b) with Eq => true | _ => false end.
Definition ltb (a b : entity_addr_t) : bool := match memcmp (raw a) (raw b) with Lt => true | _ => false end.
Definition leb (a b : entity_addr_t) : bool := match memcmp (raw a) (raw b) with Gt => false | _ => true end.

(** [std::hash<entity_addr_t>] *)
Definition hash (a : entity_addr_t) : Z := u64 (Z.shiftl (of_le32 4 (a_u a)) 16 + get_port a).

End Addr.

(** ** Facts *)

Definition wf_addr (a : entity_addr_t) : Prop :=
  length (a_u a) = sizeof_u ∧ length (ip_char a) = 20%nat ∧ is_u32 (a_nonce a) ∧ Forall is_u8 (a_u a).

Section byte_facts.
Implicit Types l bytes : list Z.

Lemma splice_length i bytes l : (i + length bytes ≤ length l)%nat → length (splice i bytes l) = length l.
Proof. intros H. unfold splice. rewrite !length_app, length_take, length_drop. lia. Qed.

Lemma splice_lookup i bytes l j : (i + length bytes ≤ length l)%nat →
  splice i bytes l !! j =
    if decide (i ≤ j < i + length bytes)%nat then bytes !! (j - i)%nat else l !! j.
Proof.
  intros H. unfold splice. destruct (decide (j < i)%nat).
  - rewrite decide_False by lia. rewrite lookup_app_l by (rewrite length_take; lia).
    by rewrite lookup_take_lt.
  - rewrite lookup_app_r by (rewrite length_take; lia). rewrite length_take, Nat.min_l by lia.
    destruct (decide (j < i + length bytes)%nat).
    + rewrite decide_True by lia. by rewrite lookup_app_l by lia.
    + rewrite decide_False by lia. rewrite lookup_app_r, lookup_drop by lia. f_equal. lia.
Qed.

Lemma splice_slice i bytes l j n : (i + length bytes ≤ length l)%nat →
  (j + n ≤ i ∨ i + length bytes ≤ j)%nat → slice j n (splice i bytes l) = slice j n l.
Proof.
  intros H Hd. apply list_eq. intros k. unfold slice. destruct (decide (k < n)%nat).
  - rewrite !lookup_take_lt, !lookup_drop, splice_lookup by lia. by rewrite decide_False by lia.
  - by rewrite !lookup_take_ge by lia.
Qed.

Lemma splice_byte i bytes l j : (i + length bytes ≤ length l)%nat →
  byte_at j (splice i bytes l) =
    if decide (i ≤ j < i + length bytes)%nat then byte_at (j - i) bytes else byte_at j l.
Proof. intros H. unfold byte_at. rewrite splice_lookup by done. by case_decide. Qed.

Lemma splice_Forall (Q : Z → Prop) i bytes l : Forall Q bytes → Forall Q l → Forall Q (splice i bytes l).
Proof. intros Hb Hl. unfold splice. auto using Forall_app_2, Forall_take, Forall_drop. Qed.

Lemma be16_u8 v : Forall is_u8 (be16 v).
Proof. repeat constructor; apply u8_range. Qed.

Lemma be16_value v : is_u16 v → of_be16 0 (be16 v) = v.
Proof. intros. unfold of_be16, be16, byte_at. simpl. word_lia. Qed.

Lemma memcmp_refl l : Addr.memcmp l l = Eq.
Proof. induction l; simpl; [done|]. by rewrite Z.compare_refl. Qed.

Lemma memcmp_eq l : ∀ r, length l = length r → Addr.memcmp l r = Eq → l = r.
Proof.
  induction l as [|x l IH]; intros [|y r]; simpl; intros Hl; try done.
  destruct (Z.compare_spec x y); [|done|done]. intros E. f_equal; [done|apply IH; [lia|done]].
Qed.

Lemma memcmp_antisym l : ∀ r, Addr.memcmp r l = CompOpp (Addr.memcmp l r).
Proof.
  induction l as [|x l IH]; intros [|y r]; simpl; try done.
  rewrite (Z.compare_antisym x y). destruct (x ?= y); simpl; [apply IH|done|done].
Qed.

Lemma memcmp_trans l : ∀ r s, length l = length r → length r = length s →
  Addr.memcmp l r = Lt → Addr.memcmp r s = Lt → Addr.memcmp l s = Lt.
Proof.
  induction l as [|x l IH]; intros [|y r] [|z s]; simpl; intros Hl Hr; try done.
  destruct (Z.compare_spec x y), (Z.compare_spec y z); try done; subst; intros E1 E2.
  - rewrite Z.compare_refl. eapply IH; [| |done|done]; lia.
  - by rewrite (proj2 (Z.compare_lt_iff _ _)).
  - by rewrite (proj2 (Z.compare_lt_iff _ _)).
  - by rewrite (proj2 (Z.compare_lt_iff _ _)) by lia.
Qed.

Lemma le32_inj v w : is_u32 v → is_u32 w → le32 v = le32 w → v = w.
Proof. intros Hv Hw. unfold le32, le16. simpl. intros [= H1 H2 H3 H4]. word_lia. Qed.
End byte_facts.

#[global] Arguments Addr.memcmp : simpl never.

Lemma raw_length a : wf_addr a → length (Addr.raw a) = 56%nat.
Proof. intros (Hu&Hi&_). unfold Addr.raw. rewrite !length_app, Hu, Hi. done. Qed.

Lemma raw_inj a b : wf_addr a → wf_addr b → Addr.raw a = Addr.raw b → a = b.
Proof.
  intros (Hu&Hi&Hn&_) (Hu'&Hi'&Hn'&_). unfold Addr.raw. intros E.
  apply app_inj_1 in E as [Et E]; [|done]. apply app_inj_1 in E as [En E]; [|done].
  apply app_inj_1 in E as [Eu Ei]; [|by rewrite Hu, Hu'].
  apply le32_inj in En; [|done|done]. destruct a as [ta ???], b as [tb ???]. simpl in *. subst.
  f_equal. by destruct ta, tb.
Qed.

(** [set_port] on an IP address stores the port modulo 2^16 where [get_port]
    finds it, and touches neither the host nor the family nor the nonce; on
    any other family it aborts. *)
Theorem set_port_spec (a : entity_addr_t) (port : Z) :
  wf_addr a →
  if Addr.is_ip a then
    ∃ a', Addr.set_port port a = Ret a' ∧ wf_addr a' ∧ Addr.get_port a' = u16 port ∧
      Addr.is_same_host a' a = true ∧ Addr.get_nonce a' = Addr.get_nonce a
  else Addr.set_port port a = Crash KAbort.
Proof.
  intros (Hu&Hi&Hn&Hb). unfold Addr.set_port, Addr.is_ip.
  destruct ((Addr.get_family a =? AF_INET) || (Addr.get_family a =? AF_INET6)) eqn:Hf; [|done].
  eexists; split; [done|]. set (b := splice 2 (be16 (u16 port)) (a_u a)).
  assert (2 + length (be16 (u16 port)) ≤ length (a_u a))%nat as Hlen by (rewrite Hu; simpl; unfold sizeof_u; lia).
  assert (∀ j, byte_at j b = if decide (2 ≤ j < 4)%nat then byte_at (j - 2) (be16 (u16 port)) else byte_at j (a_u a))
    as Hby by (intros j; by apply splice_byte).
  assert (Addr.get_family (with_u b a) = Addr.get_family a) as Hfam.
  { unfold Addr.get_family, sa_family, of_le16. simpl. by rewrite !Hby. }
  split_and!.
  - split_and!; simpl; [|done|done|by apply splice_Forall; [apply be16_u8|]]. unfold b. by rewrite splice_length.
  - unfold Addr.get_port. rewrite Hfam, Hf. simpl. unfold of_be16. rewrite !Hby.
    exact (be16_value (u16 port) (u16_range port)).
  - unfold Addr.is_same_host. rewrite Hfam, Z.eqb_refl. simpl.
    assert (slice 8 16 b = slice 8 16 (a_u a)) as -> by (apply splice_slice; [done|right; vm_compute; lia]).
    unfold of_le32, of_le16. rewrite !Hby. simpl. rewrite Z.eqb_refl, bool_decide_true by done.
    apply orb_true_iff in Hf as [->| ->]; [done|by destruct (_ =? AF_INET)].
  - done.
Qed.

Definition demo_addr : entity_addr_t :=
  Addr.set_addr (Some [192; 168; 1; 7]) 9000 (replicate 16 0) (Addr.create (mkAddr TYPE_ANY 0 [] (replicate 20 0))).

Lemma set_port_spec_witness : ∃ a', Addr.set_port 70000 demo_addr = Ret a' ∧ Addr.get_port a' = 4464.
Proof.
  destruct (set_port_spec demo_addr 70000) as (a'&Heq&_&Hp&_).
  - split_and!; [by vm_compute..|]. by repeat constructor.
  - exists a'. split; [exact Heq|]. rewrite Hp. by vm_compute.
Defined.

(** The comparison operators order well-formed addresses totally, with [==]
    being equality of all members, and equal addresses have equal hashes. *)
Theorem addr_order (a b c : entity_addr_t) :
  wf_addr a → wf_addr b → wf_addr c →
  (Addr.eqb a b = true ↔ a = b) ∧
  (Addr.ltb a b = true ∨ a = b ∨ Addr.ltb b a = true) ∧
  (Addr.ltb a b = true → Addr.ltb b a = false ∧ a ≠ b) ∧
  (Addr.ltb a b = true → Addr.ltb b c = true → Addr.ltb a c = true) ∧
  (Addr.leb a b = true ↔ Addr.ltb a b = true ∨ a = b) ∧
  (Addr.eqb a b = true → Addr.hash a = Addr.hash b).
Proof.
  intros Ha Hb Hc. unfold Addr.eqb, Addr.ltb, Addr.leb.
  rewrite (memcmp_antisym (Addr.raw a) (Addr.raw b)).
  pose proof (raw_length a Ha). pose proof (raw_length b Hb). pose proof (raw_length c Hc).
  assert (Addr.memcmp (Addr.raw a) (Addr.raw b) = Eq ↔ a = b) as Heq.
  { split; [|intros ->; apply memcmp_refl]. intros E. apply raw_inj; [done..|].
    apply memcmp_eq; [congruence|done]. }
  destruct (Addr.memcmp (Addr.raw a) (Addr.raw b)) eqn:E; cbn [CompOpp]; split_and!; try naive_solver.
  intros _. destruct (Addr.memcmp (Addr.raw b) (Addr.raw c)) eqn:E2; try done.
  intros _. rewrite (memcmp_trans _ (Addr.raw b)); [done|congruence|congruence|exact E|exact E2].
Qed.

Lemma addr_order_witness :
  Addr.ltb (Addr.set_nonce 5 demo_addr) demo_addr = false ∧ demo_addr ≠ Addr.set_nonce 5 demo_addr.
Proof.
  apply (addr_order demo_addr (Addr.set_nonce 5 demo_addr) demo_addr); [| | |by vm_compute].
  all: split_and!; [by vm_compute..|]; by repeat constructor.
Defined.

(** Two addresses built from the same text and port are the same host and
    port, but unless the stack happened to hold the same eight bytes at
    [sin_zero] they compare as different, also with [probably_equals]. *)
Theorem same_endpoint_may_differ (ip : list Z) (port : Z) (j1 j2 : list Z) (raw1 raw2 : entity_addr_t) :
  length ip = 4%nat → Forall is_u8 ip → ip ≠ replicate 4 0 →
  length j1 = sizeof_sin → length j2 = sizeof_sin → slice 8 8 j1 ≠ slice 8 8 j2 →
  a_nonce raw1 = a_nonce raw2 → length (ip_char raw1) = length (ip_char raw2) →
  let a := Addr.create_ip (Some ip) port j1 raw1 in
  let b := Addr.create_ip (Some ip) port j2 raw2 in
  Addr.is_same_host a b = true ∧ Addr.get_port a = Addr.get_port b ∧
  Addr.probably_equals a b = false ∧ Addr.eqb a b = false.
Proof.
  intros Hip Hb Hnz Hj1 Hj2 Hj Hn Hi.
  do 5 (destruct ip as [|? ip]; try done). do 17 (destruct j1 as [|? j1]; try done).
  do 17 (destruct j2 as [|? j2]; try done). unfold slice in Hj. simpl in Hj.
  rewrite !Forall_cons in Hb. destruct Hb as (B1&B2&B3&B4&_).
  unfold Addr.create_ip, Addr.set_addr, Addr.sin_of, slice. simpl.
  unfold Addr.set_sockaddr, sa_family, of_le16, byte_at. simpl.
  unfold Addr.is_same_host, Addr.get_port, Addr.probably_equals, Addr.eqb, Addr.get_family, sa_family, of_le16,
    byte_at, Addr.is_blank_ip, Addr.get_family, sa_family, of_le16, of_le32, of_be16, of_le16, byte_at. simpl.
  rewrite !Z.eqb_refl. unfold Addr.get_nonce. simpl. rewrite Hn, !Z.eqb_refl. simpl.
  split_and!; [done|done| |].
  - destruct (Z.eqb_spec (z + 256 * z0 + 65536 * (z1 + 256 * z2)) 0).
    + exfalso. assert (z = 0 ∧ z0 = 0 ∧ z1 = 0 ∧ z2 = 0) as (->&->&->&->) by (unfold_ints; lia). by apply Hnz.
    + simpl. apply bool_decide_eq_false. intros E. apply Hj. unfold splice in E. simpl in E. congruence.
  - case_match eqn:E; [|done|done]. exfalso. apply memcmp_eq in E.
    + apply Hj. unfold Addr.raw, splice in E. simpl in E. congruence.
    + unfold Addr.raw. simpl. by rewrite Hi.
Qed.

Lemma same_endpoint_may_differ_witness :
  let r := Addr.create (mkAddr TYPE_ANY 0 [] (replicate 20 0)) in
  let a := Addr.create_ip (Some [10; 0; 0; 1]) 80 (replicate 16 0) r in
  let b := Addr.create_ip (Some [10; 0; 0; 1]) 80 (replicate 16 1) r in
  Addr.is_same_host a b = true ∧ Addr.eqb a b = false.
Proof.
  destruct (same_endpoint_may_differ [10; 0; 0; 1] 80 (replicate 16 0) (replicate 16 1)
    (Addr.create (mkAddr TYPE_ANY 0 [] (replicate 20 0)))
    (Addr.create (mkAddr TYPE_ANY 0 [] (replicate 20 0)))) as (H1&_&_&H2);
    [reflexivity|by repeat constructor|done|reflexivity|reflexivity|done|reflexivity|reflexivity|].
  split; [exact H1|exact H2].
Defined.
