(* ===== verification/Buffers.v ===== *)
(** * Buffers and buffer lists (src/common/buffer.h)

    [Buffer] is a window over memory that it usually does not own; a
    [BufferList] is the [std::list<Buffer>] with a cached byte count that the
    senders consume. Pointers are addresses in [Z]; [len] is a [uint32_t]. *)

From S2P Require Import Prelude.

Module Buffer.

Record t := mk {
  start : Z;
  cur : Z;
  len : Z;
  is_malloc : bool;
}.

(** [Buffer()] *)
Definition empty : t := mk 0 0 0 false.

(** [Buffer(uint32_t size)]: the block comes from [malloc(sizeof(size))], so
    the pair is the buffer and the number of bytes that were allocated. *)
Definition sizeof_uint32_t : Z := 4.
Definition alloc (malloc : Z → Z) (size : Z) : t * Z :=
  (mk (malloc sizeof_uint32_t) (malloc sizeof_uint32_t) (u32 size) true, sizeof_uint32_t).

(** [Buffer(char*, uint32_t)] *)
Definition of_raw (buffer_start buffer_len : Z) : t :=
  mk buffer_start buffer_start (u32 buffer_len) false.

(** [Buffer(const Buffer&)]: [is_malloc] keeps its default, false. *)
Definition copy (b : t) : t := mk (start b) (cur b) (len b) false.

(** [operator=]: the target keeps its own [is_malloc]. *)
Definition assign (this b : t) : t := mk (start b) (cur b) (len b) (is_malloc this).

Definition get_len (b : t) : Z := len b.
Definition GetRemainingLen (b : t) : Z := u32 (len b - (cur b - start b)).
Definition get_buffer (b : t) : Z := cur b.
Definition get_raw_buffer (b : t) : Z := start b.

(** [uint32_t Move(uint32_t size)] *)
Definition Move (b : t) (size : Z) : Z * t :=
  let prev := cur b in
  let cur' := if start b + len b >? cur b + size then cur b + size else start b + len b in
  (if cur' =? start b + len b then 0 else u32 (size - u32 (cur' - prev)),
   mk (start b) cur' (len b) (is_malloc b)).

(** The cursor stays inside the window. *)
Definition wf (b : t) : Prop := is_u32 (len b) ∧ start b ≤ cur b ≤ start b + len b.

(** The number of bytes past the cursor that a [Move] consumes. *)
Definition remaining (b : t) : Z := start b + len b - cur b.

Lemma GetRemainingLen_wf b : wf b → GetRemainingLen b = remaining b.
Proof. unfold wf, GetRemainingLen, remaining. intros. rewrite u32_small; word_lia. Qed.

Lemma copy_wf b : wf b → wf (copy b).
Proof. done. Qed.

Lemma of_raw_wf s n : is_u32 n → wf (of_raw s n).
Proof. intros ?. unfold wf, of_raw; simpl. rewrite u32_small by done. word_lia. Qed.

Lemma Move_wf b size : wf b → is_u32 size → wf (Move b size).2.
Proof. unfold wf, Move; simpl. intros. destruct (Z.gtb_spec (start b + len b) (cur b + size)); word_lia. Qed.

Lemma Move_remaining b size :
  wf b → is_u32 size →
  remaining (Move b size).2 = remaining b - Z.min size (remaining b).
Proof.
  unfold wf, Move, remaining; simpl. intros.
  destruct (Z.gtb_spec (start b + len b) (cur b + size)); word_lia.
Qed.

(** The value [Move] returns is meant to be the part of [size] that did not
    fit; on every well-formed buffer it is 0. *)
Lemma Move_returns_0 b size : is_u32 size → (Move b size).1 = 0.
Proof.
  unfold Move; simpl. intros.
  destruct (Z.gtb_spec (start b + len b) (cur b + size)).
  - case_match; [done|].
    replace (cur b + size - cur b) with size by lia.
    rewrite (u32_small size) by done. by rewrite Z.sub_diag.
  - by rewrite Z.eqb_refl.
Qed.

End Buffer.

#[global] Arguments Buffer.Move : simpl never.
#[global] Arguments Buffer.GetRemainingLen : simpl never.

Module BufferList.

Record t := mk { buffer_list : list Buffer.t; len : Z }.

(** [BufferList()] and [BufferList(Buffer&)] *)
Definition empty : t := mk [] 0.
Definition of_buffer (b : Buffer.t) : t := mk [Buffer.copy b] (Buffer.GetRemainingLen b).

(** [Append(const Buffer&)] *)
Definition Append (bl : t) (b : Buffer.t) : t :=
  mk (buffer_list bl ++ [Buffer.copy b]) (u32 (len bl + Buffer.GetRemainingLen b)).

(** [Append(BufferList&)] for a list other than [*this]. *)
Definition AppendList (bl other : t) : t := foldl Append bl (buffer_list other).

(** [uint32_t Move(uint32_t size)]; [fuel] bounds the iterations. *)
Fixpoint Move_loop (fuel : nat) (bl : t) (size : Z) : outcome (Z * t) :=
  if size =? 0 then Ret (size, bl) else
  match buffer_list bl with
  | [] => Ret (size, bl)
  | b :: rest =>
    match fuel with
    | O => Crash NoFuel
    | S fuel =>
      let '(size', b') := Buffer.Move b size in
      kassert (len bl >? u32 (size - size')) ;;
      let bl' := mk (if Buffer.GetRemainingLen b' =? 0 then rest else b' :: rest)
                    (u32 (len bl - u32 (size - size'))) in
      Move_loop fuel bl' size'
    end
  end.

Definition Move (bl : t) (size : Z) : outcome (Z * t) := Move_loop 1 bl size.

Definition GetSize (bl : t) : Z := u32 (Z.of_nat (length (buffer_list bl))).
Definition get_len (bl : t) : Z := len bl.

(** [GetNBuffer(uint8_t n)] *)
Definition GetNBuffer (bl : t) (n : Z) : outcome Buffer.t :=
  match buffer_list bl with
  | [] => Crash Undefined
  | l => deref (l !! Z.to_nat (n mod Z.of_nat (length l)))
  end.

(** [DeleteNBuffer(uint8_t n)]: the cached length is not updated. *)
Definition DeleteNBuffer (bl : t) (n : Z) : outcome t :=
  match buffer_list bl with
  | [] => Crash Undefined
  | l => Ret (mk (delete (Z.to_nat (n mod Z.of_nat (length l))) l) (len bl))
  end.

(** [Clear()]: the cached length is not reset. *)
Definition Clear (bl : t) : t := mk [] (len bl).

(** What the cache is for: the bytes left in the buffers. *)
Definition bytes (bl : t) : Z := Zsum (Buffer.remaining <$> buffer_list bl).

Definition wf (bl : t) : Prop :=
  Forall Buffer.wf (buffer_list bl) ∧ len bl = bytes bl ∧ is_u32 (bytes bl).

Lemma remaining_nonneg bl :
  Forall Buffer.wf (buffer_list bl) →
  Forall (λ z, 0 ≤ z) (Buffer.remaining <$> buffer_list bl).
Proof.
  intros H. apply Forall_fmap. eapply Forall_impl; [done|].
  intros b [? ?]. unfold Buffer.remaining; simpl. lia.
Qed.

Lemma Append_bytes bl b : bytes (Append bl b) = bytes bl + Buffer.remaining b.
Proof.
  unfold bytes, Append; simpl. rewrite fmap_app, Zsum_app; simpl.
  unfold Buffer.remaining; simpl. lia.
Qed.

Lemma Append_wf bl b :
  wf bl → Buffer.wf b → bytes bl + Buffer.remaining b < 4294967296 → wf (Append bl b).
Proof.
  intros (Hl&He&Hb) Hwf Hlt. unfold wf. rewrite Append_bytes.
  assert (0 ≤ Buffer.remaining b) by (destruct Hwf; unfold Buffer.remaining; lia).
  split_and!; [apply Forall_app; auto using Buffer.copy_wf| |word_lia].
  unfold Append; simpl. rewrite Buffer.GetRemainingLen_wf, He by done.
  apply u32_small. word_lia.
Qed.

Lemma AppendList_bytes l : ∀ bl,
  wf bl → Forall Buffer.wf l →
  bytes bl + Zsum (Buffer.remaining <$> l) < 4294967296 →
  wf (foldl Append bl l) ∧
  bytes (foldl Append bl l) = bytes bl + Zsum (Buffer.remaining <$> l).
Proof.
  induction l as [|b l IH]; intros bl Hbl Hl Hlt; csimpl in *; [split; [done|lia]|].
  apply Forall_cons in Hl as [Hb Hl].
  assert (0 ≤ Zsum (Buffer.remaining <$> l)).
  { apply Zsum_nonneg, (remaining_nonneg (mk l 0)). done. }
  pose proof (Append_bytes bl b) as E.
  destruct (IH (Append bl b)) as [Hw Hs]; [apply Append_wf; auto; lia|done|lia|].
  split; [done|lia].
Qed.

(** One iteration is always enough: [Buffer.Move] returns 0. *)
Lemma Move_loop_fuel bl size n :
  is_u32 size → Move_loop (S n) bl size = Move bl size.
Proof.
  intros Hs. unfold Move. cbn [Move_loop]. case_match; [done|]. case_match; [done|].
  match goal with |- context [Buffer.Move ?b size] =>
    pose proof (Buffer.Move_returns_0 b size Hs) as E; destruct (Buffer.Move b size) as [r b'] end.
  simpl in E; subst r. destruct (kassert _); [|done]. simpl. by destruct n.
Qed.

(** The two ways [Move] goes through one front buffer. *)
Lemma Move_cons bl b rest size :
  buffer_list bl = b :: rest → 0 < size < 4294967296 →
  Move bl size =
    (kassert (len bl >? size) ;;
     Ret (0, mk (if Buffer.GetRemainingLen (Buffer.Move b size).2 =? 0 then rest
                 else (Buffer.Move b size).2 :: rest)
                (u32 (len bl - size)))).
Proof.
  intros Hl Hs. unfold Move. cbn [Move_loop]. rewrite Hl.
  destruct (Z.eqb_spec size 0); [lia|].
  pose proof (Buffer.Move_returns_0 b size ltac:(word_lia)) as E.
  destruct (Buffer.Move b size) as [r b']; simpl in E; subst r; simpl.
  by rewrite Z.sub_0_r, (u32_small size) by word_lia.
Qed.

End BufferList.

Section properties.
Import BufferList.

(** Appending keeps the cached length exact: after [Append(BufferList&)]
    the list is well formed and holds the bytes of both lists, as long as the
    total fits a [uint32_t]. *)
Theorem AppendList_exact bl other :
  wf bl → wf other → bytes bl + bytes other < 4294967296 →
  wf (AppendList bl other) ∧ bytes (AppendList bl other) = bytes bl + bytes other ∧
  buffer_list (AppendList bl other) = buffer_list bl ++ (Buffer.copy <$> buffer_list other).
Proof.
  intros Hb (Hl&_&_) Hlt.
  destruct (AppendList_bytes (buffer_list other) bl Hb Hl Hlt) as [Hw Hs].
  split; [done|]. split; [done|]. unfold AppendList. clear.
  generalize (buffer_list other) as l; intros l. revert bl.
  induction l as [|b l IH]; intros bl; simpl; [by rewrite app_nil_r|].
  rewrite IH. simpl. by rewrite <-app_assoc.
Qed.

Definition two_buffers : t :=
  mk [Buffer.of_raw 1000 10; Buffer.of_raw 2000 20] 30.

Lemma two_buffers_wf : wf two_buffers.
Proof.
  split_and!; [|done|by vm_compute].
  repeat constructor; apply Buffer.of_raw_wf; by vm_compute.
Defined.

Lemma AppendList_exact_witness :
  wf (AppendList two_buffers two_buffers) ∧ bytes (AppendList two_buffers two_buffers) = 60.
Proof.
  destruct (AppendList_exact two_buffers two_buffers) as (H1&H2&_);
    [apply two_buffers_wf|apply two_buffers_wf|by vm_compute|]. done.
Defined.

(** A [Move] that stays inside the front buffer advances only that
    buffer, returns 0 and keeps the cached length exact. *)
Theorem Move_within_front bl b rest size :
  wf bl → buffer_list bl = b :: rest → 0 < size → size < Buffer.remaining b →
  ∃ bl', Move bl size = Ret (0, bl') ∧ wf bl' ∧ bytes bl' = bytes bl - size ∧
    buffer_list bl' = Buffer.mk (Buffer.start b) (Buffer.cur b + size) (Buffer.len b)
                        (Buffer.is_malloc b) :: rest.
Proof.
  intros (Hl&He&Hb) Hcons Hs Hlt.
  assert (bytes bl = Buffer.remaining b + Zsum (Buffer.remaining <$> rest)) as Hby
    by (unfold bytes; by rewrite Hcons).
  rewrite Hcons in Hl. apply Forall_cons in Hl as [Hbw Hrw].
  pose proof (Zsum_nonneg _ (remaining_nonneg (mk rest 0) Hrw)) as Hnn; simpl in Hnn.
  assert (is_u32 size) as Hsu by word_lia.
  pose proof (Buffer.Move_wf b size Hbw Hsu) as Hw'.
  pose proof (Buffer.Move_remaining b size Hbw Hsu) as Hr'.
  rewrite (Move_cons _ _ _ _ Hcons) by word_lia.
  rewrite Buffer.GetRemainingLen_wf by done. rewrite Hr', Z.min_l by lia.
  destruct (Z.gtb_spec (len bl) size); [|lia]. mstep.
  destruct (Z.eqb_spec (Buffer.remaining b - size) 0); [lia|].
  assert ((Buffer.Move b size).2 = Buffer.mk (Buffer.start b) (Buffer.cur b + size)
            (Buffer.len b) (Buffer.is_malloc b)) as Hmv.
  { unfold Buffer.Move; simpl. unfold Buffer.remaining in Hlt.
    by destruct (Z.gtb_spec (Buffer.start b + Buffer.len b) (Buffer.cur b + size)); [|lia]. }
  rewrite Hmv in *. rewrite u32_small, He by word_lia.
  eexists; split; [done|].
  assert (∀ n, bytes (mk (Buffer.mk (Buffer.start b) (Buffer.cur b + size) (Buffer.len b)
            (Buffer.is_malloc b) :: rest) n) = bytes bl - size) as Hby'.
  { intros n0. unfold bytes at 1; csimpl. lia. }
  unfold wf. rewrite Hby'; simpl. split_and!; [by constructor|done|word_lia|done|done].
Qed.

Lemma Move_within_front_witness :
  ∃ bl', Move two_buffers 4 = Ret (0, bl') ∧ wf bl' ∧ bytes bl' = 26.
Proof.
  destruct (Move_within_front two_buffers (Buffer.of_raw 1000 10) [Buffer.of_raw 2000 20] 4)
    as (bl'&?&?&?&_); [apply two_buffers_wf|done|done|done|]. by exists bl'.
Defined.

(** [Buffer::Move] never reports a remainder, so a [Move] past the end of
    the front buffer drops that buffer only, tells the caller that all of
    [size] was consumed (it returns 0), and subtracts [size] from the cached
    length, which then no longer is the number of bytes left. *)
Theorem Move_past_front_desync bl b rest size :
  wf bl → buffer_list bl = b :: rest → Buffer.remaining b < size → size < bytes bl →
  ∃ bl', Move bl size = Ret (0, bl') ∧ buffer_list bl' = rest ∧
    len bl' = bytes bl' - (size - Buffer.remaining b) ∧ len bl' ≠ bytes bl'.
Proof.
  intros (Hl&He&Hb) Hcons Hs Hlt.
  assert (bytes bl = Buffer.remaining b + Zsum (Buffer.remaining <$> rest)) as Hby
    by (unfold bytes; by rewrite Hcons).
  rewrite Hcons in Hl. apply Forall_cons in Hl as [Hbw Hrw].
  assert (0 ≤ Buffer.remaining b) by (destruct Hbw; unfold Buffer.remaining; lia).
  assert (is_u32 size) as Hsu by word_lia.
  rewrite (Move_cons _ _ _ _ Hcons) by word_lia.
  rewrite Buffer.GetRemainingLen_wf by (by apply Buffer.Move_wf).
  rewrite Buffer.Move_remaining, Z.min_r by (done || lia). rewrite Z.sub_diag, He.
  destruct (Z.gtb_spec (bytes bl) size); [|lia]. mstep.
  eexists; split; [done|]. simpl. rewrite u32_small by word_lia.
  assert (∀ k, bytes (mk rest k) = Zsum (Buffer.remaining <$> rest)) as -> by done.
  simpl. split_and!; [done|lia|lia].
Qed.

Lemma Move_past_front_desync_witness :
  ∃ bl', Move two_buffers 15 = Ret (0, bl') ∧ len bl' = 15 ∧ bytes bl' = 20.
Proof.
  destruct (Move_past_front_desync two_buffers (Buffer.of_raw 1000 10) [Buffer.of_raw 2000 20] 15)
    as (bl'&E&_&_&_); [apply two_buffers_wf|done|done|done|].
  exists bl'. split; [done|]. vm_compute in E. injection E as <-. done.
Defined.

End properties.
