(* ===== verification/Utime.v ===== *)
(** * Time values: [utime_t] and the nanosecond spans (src/common/common_time.h)

    Seconds and nanoseconds as two [uint32_t]; the arithmetic that saturates
    the seconds and renormalises the nanoseconds. The constructors and
    operators over [double] are in Cycles.v; the text is in Calendar.v. *)

From S2P Require Import Prelude.

Module utime.

Definition billion : Z := 1000000000.

Record t := mk { tv_sec : Z; tv_nsec : Z }.

#[global] Instance utime_eq_dec : EqDecision t.
Proof. solve_decision. Defined.

Definition cap_to_u32_max (x : Z) : Z := Z.min x 4294967295.

Definition is_zero (u : t) : bool := (tv_sec u =? 0) && (tv_nsec u =? 0).

Definition normalize (u : t) : t :=
  if tv_nsec u >? billion
  then mk (cap_to_u32_max (tv_sec u + tv_nsec u / billion)) (tv_nsec u mod billion)
  else u.

(** [utime_t()] and [utime_t(time_t s, int n)] *)
Definition zero : t := mk 0 0.
Definition make (s n : Z) : t := normalize (mk (u32 s) (u32 n)).

(** [utime_t(timespec)] / [decode_timeval] / [encode_timeval] *)
Definition of_timespec (sec nsec : Z) : t := mk (u32 sec) (u32 nsec).
Definition to_timespec (u : t) : Z * Z := (tv_sec u, tv_nsec u).

(** [utime_t(std::chrono::duration)] for a count of nanoseconds *)
Definition of_duration (ns : Z) : t :=
  mk (u32 (Z.max (Z.quot ns billion) 0)) (u32 (Z.max (Z.rem ns billion) 0)).

(** accessors *)
Definition sec (u : t) : Z := tv_sec u.
Definition usec (u : t) : Z := tv_nsec u / 1000.
Definition nsec (u : t) : Z := s32 (tv_nsec u).
Definition to_nsec (u : t) : Z := u64 (tv_nsec u + u64 (tv_sec u * billion)).
Definition to_msec (u : t) : Z := u64 (tv_nsec u / 1000000 + u64 (tv_sec u * 1000)).

(** [copy_to_timeval] and [set_from_timeval] *)
Definition copy_to_timeval (u : t) : Z * Z := (tv_sec u, tv_nsec u / 1000).
Definition set_from_timeval (v_sec v_usec : Z) : t := mk (u32 v_sec) (u32 (v_usec * 1000)).

(** [encode_timeval], [decode_timeval] and [operator timespec] *)
Definition encode_timeval (u : t) : Z * Z := (tv_sec u, tv_nsec u).
Definition decode_timeval (ts : Z * Z) : t := mk (u32 ts.1) (u32 ts.2).
Definition timespec_of (u : t) : Z * Z := (sec u, nsec u).

(** [operator+], [operator+=], [operator-], [operator-=] *)
Definition add (l r : t) : t := make (cap_to_u32_max (u64 (sec l + sec r))) (nsec l + nsec r).

Definition add_assign (l r : t) : t :=
  normalize (mk (cap_to_u32_max (u64 (sec l + sec r))) (u32 (tv_nsec l + nsec r))).

Definition sub (l r : t) : t :=
  make (sec l - sec r - (if nsec l <? nsec r then 1 else 0))
       (nsec l - nsec r + (if nsec l <? nsec r then billion else 0)).

Definition sub_assign (l r : t) : t :=
  let s := u32 (tv_sec l - sec r) in
  if nsec l >=? nsec r then mk s (u32 (tv_nsec l - nsec r))
  else mk (u32 (s - 1)) (u32 (tv_nsec l + (billion - nsec r))).

(** The representation the class means to keep. *)
Definition wf (u : t) : Prop := is_u32 (tv_sec u) ∧ 0 ≤ tv_nsec u < billion.

(** What a value denotes, in nanoseconds. *)
Definition ns (u : t) : Z := tv_sec u * billion + tv_nsec u.

Ltac utime_unfold :=
  unfold wf, ns, add, add_assign, sub, sub_assign, make, normalize, to_nsec, sec, nsec,
    cap_to_u32_max, billion in *; simpl in *.

Lemma nsec_small u : wf u → nsec u = tv_nsec u.
Proof.
  intros [_ ?]. utime_unfold. unfold s32, u32. rewrite Z.mod_small by lia.
  destruct (Z.ltb_spec (tv_nsec u) 2147483648); lia.
Qed.

Lemma timeval_round_trip u : is_u32 (tv_sec u) → is_u32 (tv_nsec u) → decode_timeval (encode_timeval u) = u.
Proof. intros H1 H2. unfold decode_timeval, encode_timeval. cbn. rewrite !u32_small by done. by destruct u. Qed.
(** The conversion goes through [nsec], an [int]: it is the same below 2^31. *)
Lemma timespec_of_encode u : wf u → timespec_of u = encode_timeval u.
Proof. intros Hu. unfold timespec_of, encode_timeval, sec. by rewrite nsec_small. Qed.
Lemma to_nsec_ns u : wf u → to_nsec u = ns u.
Proof. intros [? ?]. utime_unfold. rewrite (u64_small (_ * _)), u64_small; word_lia. Qed.

Lemma wf_ns_inj u v : wf u → wf v → ns u = ns v → u = v.
Proof. destruct u, v. utime_unfold. intros. f_equal; lia. Qed.

Lemma make_wf_id s n : is_u32 s → 0 ≤ n < billion → make s n = mk s n.
Proof.
  intros. utime_unfold. rewrite !u32_small by word_lia.
  by destruct (Z.gtb_spec n 1000000000); [lia|].
Qed.

(** The two additions are the same function on well-formed arguments. *)
Lemma add_assign_add l r : wf l → wf r → add_assign l r = add l r.
Proof.
  intros Hl Hr. unfold add_assign, add, make.
  rewrite !nsec_small by done. f_equal. f_equal.
  symmetry. apply u32_small. destruct Hl, Hr. utime_unfold. word_lia.
Qed.

Lemma add_unfold l r :
  wf l → wf r → tv_sec l + tv_sec r < 4294967295 →
  add l r = normalize (mk (tv_sec l + tv_sec r) (tv_nsec l + tv_nsec r)).
Proof.
  intros Hl Hr Hs. unfold add, make. rewrite !nsec_small by done.
  destruct Hl, Hr. utime_unfold.
  rewrite (u64_small (_ + _)), (Z.min_l (tv_sec l + tv_sec r)), !u32_small by word_lia. done.
Qed.

Lemma sub_unfold l r :
  wf l → wf r → ns r ≤ ns l →
  sub l r = if tv_nsec l <? tv_nsec r
            then mk (tv_sec l - tv_sec r - 1) (tv_nsec l - tv_nsec r + billion)
            else mk (tv_sec l - tv_sec r) (tv_nsec l - tv_nsec r).
Proof.
  intros Hl Hr Hle. unfold sub. rewrite !nsec_small by done.
  destruct Hl, Hr. utime_unfold.
  destruct (Z.ltb_spec (tv_nsec l) (tv_nsec r)); rewrite !u32_small by word_lia;
    match goal with |- context [?a >? ?b] => destruct (Z.gtb_spec a b) end;
    (lia || (f_equal; lia)).
Qed.

End utime.

Section utime_properties.
Import utime.

(** Adding two time values adds the nanoseconds they denote, as long as
    the seconds do not reach the saturation point, and [+=] computes the same
    value as [+]. *)
Theorem utime_add_exact l r :
  wf l → wf r → tv_sec l + tv_sec r < 4294967295 →
  to_nsec (add l r) = ns l + ns r ∧ add_assign l r = add l r.
Proof.
  intros Hl Hr Hs. split; [|by apply add_assign_add].
  rewrite add_unfold by done. destruct Hl, Hr. utime_unfold.
  destruct (Z.gtb_spec (tv_nsec l + tv_nsec r) 1000000000); simpl.
  - rewrite Z.min_l, (u64_small (_ * _)), u64_small by word_lia. word_lia.
  - rewrite (u64_small (_ * _)), u64_small by word_lia. lia.
Qed.

Lemma utime_add_exact_witness :
  to_nsec (add (mk 1 600000000) (mk 2 700000000)) = 4300000000.
Proof.
  destruct (utime_add_exact (mk 1 600000000) (mk 2 700000000)) as [-> _];
    [by vm_compute|by vm_compute|done|done].
Defined.

(** Subtraction of a smaller time value is exact and gives a normalised
    value (the borrow is taken from the seconds). *)
Theorem utime_sub_exact l r :
  wf l → wf r → ns r ≤ ns l → wf (sub l r) ∧ to_nsec (sub l r) = ns l - ns r.
Proof.
  intros Hl Hr Hle.
  assert (wf (sub l r) ∧ ns (sub l r) = ns l - ns r) as [Hw He].
  { rewrite sub_unfold by done. destruct Hl, Hr. utime_unfold.
    destruct (Z.ltb_spec (tv_nsec l) (tv_nsec r)); simpl; word_lia. }
  split; [done|]. by rewrite to_nsec_ns.
Qed.

Lemma utime_sub_exact_witness :
  wf (sub (mk 5 100) (mk 2 300)) ∧ to_nsec (sub (mk 5 100) (mk 2 300)) = 2999999800.
Proof.
  apply (utime_sub_exact (mk 5 100) (mk 2 300)); by vm_compute.
Defined.

(** The guard of [normalize] is [>] where the invariant needs [>=]: two
    well-formed values whose nanoseconds add up to exactly one second give a
    result with [tv_nsec] = 1000000000, which is not normalised and differs
    from the normalised value of the same duration. *)
Theorem utime_add_full_second l r :
  wf l → wf r → tv_sec l + tv_sec r < 4294967295 → tv_nsec l + tv_nsec r = billion →
  add l r = mk (tv_sec l + tv_sec r) billion ∧ ¬ wf (add l r) ∧
  add l r ≠ mk (tv_sec l + tv_sec r + 1) 0 ∧
  to_nsec (add l r) = to_nsec (mk (tv_sec l + tv_sec r + 1) 0).
Proof.
  intros Hl Hr Hs Hn. rewrite add_unfold by done. destruct Hl, Hr.
  unfold normalize; simpl. rewrite Hn. simpl. split_and!; [done| |intros [=]; lia|].
  - intros [_ ?]. simpl in *. lia.
  - utime_unfold. rewrite !(u64_small (_ * _)), !u64_small by word_lia. lia.
Qed.

Lemma utime_add_full_second_witness :
  add (mk 1 400000000) (mk 2 600000000) = mk 3 1000000000.
Proof.
  destruct (utime_add_full_second (mk 1 400000000) (mk 2 600000000)) as (E&_);
    [by vm_compute|by vm_compute|done|done|]. exact E.
Defined.

End utime_properties.
