(* ===== verification/Histogram.v ===== *)
(** * Performance histograms (src/common/perf_histogram.h, perf_histogram.cc)

    [get_bucket_for_axis] quantises a value, [get_axis_bucket_ranges] lists
    the inclusive range of every bucket, and [PerfHistogram] keeps one counter
    per tuple of buckets in a flat array. [int64_t] overflow and shifts past
    the width are [Undefined]. *)

From S2P Require Import Prelude.

Inductive scale_type_d := SCALE_LINEAR | SCALE_LOG2.

Record axis := mkAxis {
  m_name : string;
  m_scale_type : scale_type_d;
  m_min : Z;
  m_quant_size : Z;
  m_buckets : Z;
}.

Definition INT64_MIN : Z := -9223372036854775808.
Definition INT64_MAX : Z := 9223372036854775807.
Definition is_i64 (z : Z) : Prop := INT64_MIN ≤ z ≤ INT64_MAX.

(** A signed 64-bit result: overflow is undefined. *)
Definition i64 (z : Z) : outcome Z :=
  if (INT64_MIN <=? z) && (z <=? INT64_MAX) then Ret z else Crash Undefined.

Definition get_quants (i : Z) (st : scale_type_d) : outcome Z :=
  match st with
  | SCALE_LINEAR => Ret i
  | SCALE_LOG2 => if (0 <=? i - 1) && (i - 1 <? 63) then Ret (2 ^ (i - 1)) else Crash Undefined
  end.

(** The SCALE_LOG2 loop of [get_bucket_for_axis]: [n] iterations are left. *)
Fixpoint log2_bucket (n : nat) (i value buckets : Z) : outcome Z :=
  match n with
  | O => Ret (buckets - 1)
  | S n =>
    q ← get_quants i SCALE_LOG2;
    if value <? q then Ret i else log2_bucket n (i + 1) value buckets
  end.

Definition get_bucket_for_axis (value : Z) (ac : axis) : outcome Z :=
  if value <? m_min ac then Ret 0 else
  value ← i64 (value - m_min ac);
  if m_quant_size ac =? 0 then Crash Undefined else
  let value := Z.quot value (m_quant_size ac) in
  match m_scale_type ac with
  | SCALE_LINEAR => v ← i64 (value + 1); Ret (Z.min v (m_buckets ac - 1))
  | SCALE_LOG2 => log2_bucket (Z.to_nat (m_buckets ac - 1)) 1 value (m_buckets ac)
  end.

(** The loop of [get_axis_bucket_ranges]: bucket [i] gets [min, max_exclusive). *)
Fixpoint ranges_loop (n : nat) (i min : Z) (ac : axis) (ret : list (Z * Z)) :
    outcome (Z * list (Z * Z)) :=
  match n with
  | O => Ret (min, ret)
  | S n =>
    q ← get_quants i (m_scale_type ac);
    w ← i64 (q * m_quant_size ac);
    max_exclusive ← i64 (m_min ac + w);
    last ← i64 (max_exclusive - 1);
    ranges_loop n (i + 1) max_exclusive ac (<[Z.to_nat i := (min, last)]> ret)
  end.

(** [ret.front()] and [ret.back()] updates, in the order of the source. *)
Definition set_front_second (v : Z) (l : list (Z * Z)) : list (Z * Z) :=
  alter (λ p, (p.1, v)) 0%nat l.
Definition set_front_first (v : Z) (l : list (Z * Z)) : list (Z * Z) :=
  alter (λ p, (v, p.2)) 0%nat l.
Definition set_back_first (v : Z) (l : list (Z * Z)) : list (Z * Z) :=
  alter (λ p, (v, p.2)) (length l - 1)%nat l.
Definition set_back_second (v : Z) (l : list (Z * Z)) : list (Z * Z) :=
  alter (λ p, (p.1, v)) (length l - 1)%nat l.

Definition get_axis_bucket_ranges (ac : axis) : outcome (list (Z * Z)) :=
  let ret := replicate (Z.to_nat (m_buckets ac)) (0, 0) in
  '(min, ret) ← ranges_loop (Z.to_nat (m_buckets ac - 2)) 1 (m_min ac) ac ret;
  lo ← i64 (m_min ac - 1);
  Ret (set_back_second INT64_MAX
        (set_front_first INT64_MIN
          (set_back_first min
            (set_front_second lo ret)))).

Module PerfHistogram.

Record t := mk { m_rawData : list Z; m_axes : list axis }.

(** [get_raw_size] *)
Definition get_raw_size (axes : list axis) : Z :=
  foldl (λ ret ac, ret * m_buckets ac) 1 axes.

(** The constructor: [DIM] axes, each with positive buckets and quantum. *)
Definition create (DIM : nat) (axes : list axis) : outcome t :=
  kassert (length axes =? DIM)%nat ;;
  kassert (forallb (λ ac, (m_buckets ac >? 0) && (m_quant_size ac >? 0)) axes) ;;
  Ret (mk (replicate (Z.to_nat (get_raw_size axes)) 0) axes).

(** The copy constructor *)
Definition copy (h : t) : t :=
  let size := Z.to_nat (get_raw_size (m_axes h)) in
  mk (take size (m_rawData h)) (m_axes h).

(** [reset] *)
Definition reset (h : t) : t :=
  mk (foldr (λ i r, <[i := 0]> r) (m_rawData h)
       (seq 0 (Z.to_nat (get_raw_size (m_axes h)))))
     (m_axes h).

(** [get_raw_index_internal] with the bucket evaluator as an argument *)
Fixpoint get_raw_index_internal (eval : Z → axis → outcome Z) (axes : list axis)
    (startIndex : Z) (values : list Z) : outcome Z :=
  match axes, values with
  | [], [] => Ret startIndex
  | ac :: axes, v :: values =>
    bucket ← eval v ac;
    get_raw_index_internal eval axes (m_buckets ac * startIndex + bucket) values
  | _, _ => Crash Undefined
  end.

Definition get_raw_index_for_value (h : t) (values : list Z) : outcome Z :=
  get_raw_index_internal get_bucket_for_axis (m_axes h) 0 values.

Definition check_bucket (bucket : Z) (ac : axis) : outcome Z :=
  kassert (bucket >=? 0) ;; kassert (bucket <? m_buckets ac) ;; Ret bucket.

Definition get_raw_index_for_bucket (h : t) (buckets : list Z) : outcome Z :=
  get_raw_index_internal check_bucket (m_axes h) 0 buckets.

Definition bump (h : t) (index : Z) : outcome t :=
  v ← deref (m_rawData h !! Z.to_nat index);
  Ret (mk (<[Z.to_nat index := u64 (v + 1)]> (m_rawData h)) (m_axes h)).

(** [inc], [inc_bucket], [read_bucket] *)
Definition inc (h : t) (values : list Z) : outcome t :=
  index ← get_raw_index_for_value h values; bump h index.

Definition inc_bucket (h : t) (buckets : list Z) : outcome t :=
  index ← get_raw_index_for_bucket h buckets; bump h index.

Definition read_bucket (h : t) (buckets : list Z) : outcome Z :=
  index ← get_raw_index_for_bucket h buckets;
  deref (m_rawData h !! Z.to_nat index).

(** [visit_values]: the calls of onDimensionEnter, onValue and
    onDimensionLeave, in order. *)
Inductive visit := DimensionEnter (level : nat) | Value (v : Z) | DimensionLeave (level : nat).

Fixpoint visit_values (raw : list Z) (axes : list axis) (level : nat) (startIndex : Z) :
    outcome (list visit) :=
  match axes with
  | [] => v ← deref (raw !! Z.to_nat startIndex); Ret [Value v]
  | ac :: axes =>
    body ← foldr (λ i rest,
             here ← visit_values raw axes (S level) (startIndex * m_buckets ac + Z.of_nat i);
             tl ← rest; Ret (here ++ tl))
           (Ret []) (seq 0 (Z.to_nat (m_buckets ac)));
    Ret (DimensionEnter level :: body ++ [DimensionLeave level])
  end.

Definition values_of (vs : list visit) : list Z :=
  omap (λ v, match v with Value z => Some z | _ => None end) vs.

End PerfHistogram.

(** ** Buckets and their ranges *)

Section axis_facts.
Context (ac : axis).

(** What the constructor of [PerfHistogram] requires of an axis, within the
    types of the fields; a logarithmic axis has at most 64 buckets, beyond
    which the shift of [get_quants] leaves the width. *)
Definition axis_ok : Prop :=
  0 < m_buckets ac ∧ 0 < m_quant_size ac ∧ is_i64 (m_min ac) ∧
  (m_scale_type ac = SCALE_LOG2 → m_buckets ac ≤ 64).

Definition quants (i : Z) : Z :=
  match m_scale_type ac with SCALE_LINEAR => i | SCALE_LOG2 => 2 ^ (i - 1) end.

(** The least value of bucket [i], for [1 <= i]. *)
Definition bucket_lo (i : Z) : Z :=
  if i =? 1 then m_min ac else m_min ac + quants (i - 1) * m_quant_size ac.

Lemma i64_Ret z r : i64 z = Ret r → r = z ∧ is_i64 z.
Proof.
  unfold i64, is_i64. destruct (Z.leb_spec INT64_MIN z), (Z.leb_spec z INT64_MAX);
    simpl; naive_solver.
Qed.

Lemma i64_ok z : is_i64 z → i64 z = Ret z.
Proof.
  unfold i64, is_i64. intros [? ?]. rewrite (proj2 (Z.leb_le _ _)), (proj2 (Z.leb_le _ _)); done.
Qed.

Lemma get_quants_Ret i q : get_quants i (m_scale_type ac) = Ret q → q = quants i.
Proof. unfold get_quants, quants. repeat case_match; naive_solver. Qed.

Lemma log2_bucket_spec n : ∀ i value b,
  1 ≤ i → (i = 1 ∨ 2 ^ (i - 2) ≤ value) → 0 ≤ value →
  log2_bucket n i value (i + Z.of_nat n) = Ret b →
  i - 1 ≤ b ≤ i + Z.of_nat n - 1 ∧ (b ≤ 1 ∨ 2 ^ (b - 2) ≤ value) ∧
  (0 < b ∨ n = 0%nat) ∧
  (b < i + Z.of_nat n - 1 → value < 2 ^ (b - 1)).
Proof.
  induction n as [|n IH]; intros i value b Hi Hlo Hv H; simpl in H.
  - injection H as <-. split_and!; [lia..| |tauto|lia].
    destruct Hlo as [->|Hlo]; [left; lia|].
    destruct (decide (i ≤ 2)); [left; lia|right].
    etransitivity; [|apply Hlo]. apply Z.pow_le_mono_r; lia.
  - apply bind_Ret in H as (q&Hq&H). unfold get_quants in Hq.
    destruct ((0 <=? i - 1) && (i - 1 <? 63)); [|done]. injection Hq as <-.
    destruct (Z.ltb_spec value (2 ^ (i - 1))).
    + injection H as <-. split_and!; [lia..| | |done]; [|lia].
      destruct Hlo as [->|]; [left; lia|by right].
    + replace (i + Z.of_nat (S n)) with ((i + 1) + Z.of_nat n) in * by lia.
      destruct (IH (i + 1) value b) as (?&?&?&?); [lia| |done|done|].
      { right. by replace (i + 1 - 2) with (i - 1) by lia. }
      split_and!; [lia..|done|left; lia|done].
Qed.

Lemma ranges_loop_spec n : ∀ i min ret min' ret',
  1 ≤ i → min = bucket_lo i → (Z.to_nat i + n ≤ length ret)%nat →
  ranges_loop n i min ac ret = Ret (min', ret') →
  min' = bucket_lo (i + Z.of_nat n) ∧ length ret' = length ret ∧
  ∀ j, i ≤ j < i + Z.of_nat n → ret' !! Z.to_nat j = Some (bucket_lo j, bucket_lo (j + 1) - 1).
Proof.
  assert (∀ n i min ret min' ret' j, ranges_loop n i min ac ret = Ret (min', ret') →
    1 ≤ i → 0 ≤ j < i → ret' !! Z.to_nat j = ret !! Z.to_nat j) as Hframe.
  { clear n. induction n as [|n IH]; simpl; intros i min ret min' ret' j H Hi Hj; [naive_solver|].
    inv_ret. erewrite IH; [|done|lia..]. apply list_lookup_insert_ne. lia. }
  induction n as [|n IH]; simpl; intros i min ret min' ret' Hi Hmin Hlen H.
  - injection H as <- <-. rewrite Z.add_0_r. split_and!; [done..|]. intros; lia.
  - inv_ret.
    match goal with H : get_quants _ _ = _ |- _ => apply get_quants_Ret in H as -> end.
    repeat match goal with H : i64 _ = _ |- _ => apply i64_Ret in H as [-> _] end.
    assert (m_min ac + quants i * m_quant_size ac = bucket_lo (i + 1)) as Hnext.
    { unfold bucket_lo. destruct (Z.eqb_spec (i + 1) 1); [lia|]. do 3 f_equal. lia. }
    rewrite Hnext in *.
    pose proof H as H'.
    apply IH in H as (->&Hl&Hj); [|lia|done|rewrite length_insert; lia].
    rewrite length_insert in Hl.
    split_and!; [f_equal; lia|done|]. intros j ?.
    destruct (decide (j = i)) as [->|]; [|apply Hj; lia].
    rewrite (Hframe _ _ _ _ _ _ i H') by lia.
    rewrite list_lookup_insert_eq by lia. done.
Qed.

(** The four updates after the loop. *)
Lemma ranges_ends rs lo min ret :
  rs = set_back_second INT64_MAX (set_front_first INT64_MIN
         (set_back_first min (set_front_second lo ret))) →
  (1 < length ret)%nat →
  rs !! 0%nat = Some (INT64_MIN, lo) ∧ rs !! (length ret - 1)%nat = Some (min, INT64_MAX) ∧
  ∀ j, (0 < j < length ret - 1)%nat → rs !! j = ret !! j.
Proof.
  intros -> Hlen.
  unfold set_back_second, set_front_first, set_back_first, set_front_second.
  rewrite !length_alter.
  destruct (lookup_lt_is_Some_2 ret 0) as [[a b] Ha]; [lia|].
  destruct (lookup_lt_is_Some_2 ret (length ret - 1)) as [[c d] Hc]; [lia|].
  split_and!.
  - rewrite list_lookup_alter_ne by lia. rewrite list_lookup_alter_eq.
    rewrite list_lookup_alter_ne by lia. rewrite list_lookup_alter_eq, Ha. done.
  - rewrite list_lookup_alter_eq, list_lookup_alter_ne by lia.
    rewrite list_lookup_alter_eq, list_lookup_alter_ne, Hc by lia. done.
  - intros j Hj. rewrite !list_lookup_alter_ne by lia. done.
Qed.

(** The bucket of a value at least [m_min], and the bounds it puts on it. *)
Lemma bucket_bounds value b :
  axis_ok → is_i64 value → m_min ac ≤ value → get_bucket_for_axis value ac = Ret b →
  0 ≤ b < m_buckets ac ∧ (1 < m_buckets ac → 1 ≤ b) ∧
  (1 ≤ b → bucket_lo b ≤ value) ∧ (b < m_buckets ac - 1 → value < bucket_lo (b + 1)).
Proof.
  intros (HB&Hq&Hm&H64) Hv Hge H. unfold get_bucket_for_axis in H.
  destruct (Z.ltb_spec value (m_min ac)); [lia|].
  apply bind_Ret in H as (d&Hd&H). apply i64_Ret in Hd as [-> _].
  destruct (Z.eqb_spec (m_quant_size ac) 0); [lia|].
  rewrite Z.quot_div_nonneg in H by lia.
  set (v := (value - m_min ac) / m_quant_size ac) in *.
  assert (v * m_quant_size ac ≤ value - m_min ac < (v + 1) * m_quant_size ac) as Hdiv.
  { unfold v. pose proof (Z.div_mod (value - m_min ac) (m_quant_size ac)).
    pose proof (Z.mod_pos_bound (value - m_min ac) (m_quant_size ac)). nia. }
  assert (0 ≤ v) by (unfold v; apply Z.div_pos; lia).
  unfold bucket_lo, quants. destruct (m_scale_type ac) eqn:Est.
  - inv_ret. match goal with H : i64 _ = _ |- _ => apply i64_Ret in H as [-> _] end.
    split_and!; [lia..| |]; intros.
    + destruct (Z.eqb_spec (v + 1 `min` (m_buckets ac - 1)) 1);
        destruct (Z.eqb_spec ((v + 1) `min` (m_buckets ac - 1)) 1); nia.
    + destruct (Z.eqb_spec ((v + 1) `min` (m_buckets ac - 1) + 1) 1); nia.
  - specialize (H64 eq_refl).
    replace (m_buckets ac) with (1 + Z.of_nat (Z.to_nat (m_buckets ac - 1))) in H at 2 by lia.
    apply log2_bucket_spec in H as ([? ?]&Hlo&?&Hhi); [|lia..].
    replace (1 + Z.of_nat (Z.to_nat (m_buckets ac - 1))) with (m_buckets ac) in * by lia.
    split_and!; [lia..| |]; intros.
    + destruct (Z.eqb_spec b 1); [lia|]. destruct Hlo as [|Hlo]; [lia|].
      replace (b - 1 - 1) with (b - 2) by lia. nia.
    + destruct (Z.eqb_spec (b + 1) 1) as [E|]; [lia|].
      replace (b + 1 - 1 - 1) with (b - 1) by lia.
      assert (value - m_min ac < (v + 1) * m_quant_size ac) by lia.
      assert (v + 1 ≤ 2 ^ (b - 1)) by (specialize (Hhi ltac:(lia)); lia). nia.
Qed.

End axis_facts.

(** C34: Every value falls in a bucket of the axis, and the range that
    [get_axis_bucket_ranges] reports for that bucket contains the value: the
    quantisation and the reported ranges agree, on linear and logarithmic
    axes. *)
Theorem bucket_matches_range ac value b rs :
  axis_ok ac → is_i64 value →
  get_bucket_for_axis value ac = Ret b → get_axis_bucket_ranges ac = Ret rs →
  0 ≤ b < m_buckets ac ∧
  ∃ lo hi, rs !! Z.to_nat b = Some (lo, hi) ∧ lo ≤ value ≤ hi.
Proof.
  intros Hok Hv Hb Hrs. pose proof Hok as (HB&Hq&Hm&_).
  unfold get_axis_bucket_ranges in Hrs. apply bind_Ret in Hrs as ([min ret]&Hloop&Hrs).
  apply bind_Ret in Hrs as (lo&Hlo&Hrs). apply i64_Ret in Hlo as [-> _].
  injection Hrs as Hrs. symmetry in Hrs.
  apply (ranges_loop_spec ac) in Hloop as (->&Hlen&Hin);
    [|lia|done|rewrite length_replicate; lia].
  rewrite length_replicate in Hlen.
  destruct (decide (m_buckets ac = 1)) as [E1|].
  { (* one bucket: both ends are the same element *)
    rewrite E1 in Hlen. destruct ret as [|[x y] [|? ?]]; try done.
    assert (b = 0) as ->.
    { destruct (Z.ltb_spec value (m_min ac)).
      - unfold get_bucket_for_axis in Hb. destruct (Z.ltb_spec value (m_min ac)); [|lia].
        by injection Hb.
      - destruct (bucket_bounds ac value b) as (?&_); [done..|]. lia. }
    split; [lia|]. rewrite Hrs. exists INT64_MIN, INT64_MAX. done. }
  apply ranges_ends in Hrs as (H0&Hlast&Hmid); [|lia].
  replace (length ret - 1)%nat with (Z.to_nat (m_buckets ac - 1)) in Hlast by lia.
  replace (1 + Z.of_nat (Z.to_nat (m_buckets ac - 2))) with (m_buckets ac - 1) in * by lia.
  destruct (Z.ltb_spec value (m_min ac)) as [Hlt|Hge].
  { unfold get_bucket_for_axis in Hb. destruct (Z.ltb_spec value (m_min ac)); [|lia].
    injection Hb as <-. split; [lia|]. eexists _, _; split; [done|].
    destruct Hv; lia. }
  destruct (bucket_bounds ac value b) as (Hr&H1&Hl&Hh); [done..|].
  split; [done|]. specialize (H1 ltac:(lia)). specialize (Hl H1).
  destruct (decide (b = m_buckets ac - 1)) as [->|].
  - eexists _, _; split; [done|]. destruct Hv; lia.
  - rewrite Hmid, Hin by lia. eexists _, _; split; [done|].
    specialize (Hh ltac:(lia)). lia.
Qed.

Definition latency_axis : axis := mkAxis "latency" SCALE_LOG2 100 50 8.

Lemma bucket_matches_range_witness :
  get_bucket_for_axis 1000 latency_axis = Ret 6 ∧
  ∃ rs, get_axis_bucket_ranges latency_axis = Ret rs ∧
  ∃ lo hi, rs !! 6%nat = Some (lo, hi) ∧ lo ≤ 1000 ≤ hi.
Proof.
  split; [by vm_compute|]. eexists; split; [by vm_compute|].
  eapply (bucket_matches_range latency_axis 1000 6); [|by vm_compute..].
  unfold axis_ok, is_i64, INT64_MIN, INT64_MAX; simpl; lia.
Defined.

(** ** The flat array *)

Section histogram_facts.
Import PerfHistogram.

Definition axes_ok (axes : list axis) : Prop := Forall (λ ac, 0 < m_buckets ac) axes.

(** One counter per tuple of buckets. *)
Definition hist_wf (h : t) : Prop :=
  axes_ok (m_axes h) ∧ Z.of_nat (length (m_rawData h)) = get_raw_size (m_axes h).

Fixpoint cells (axes : list axis) : Z :=
  match axes with [] => 1 | ac :: axes => m_buckets ac * cells axes end.

Lemma raw_size_cells axes : get_raw_size axes = cells axes.
Proof.
  unfold get_raw_size. rewrite <-(Z.mul_1_l (cells axes)). generalize 1 as k.
  induction axes as [|ac axes IH]; intros k; simpl; [lia|]. rewrite IH. lia.
Qed.

Lemma cells_pos axes : axes_ok axes → 0 < cells axes.
Proof. induction 1; simpl; lia. Qed.

(** The index of a tuple: a mixed-radix number, so bounded and injective. *)
Lemma raw_index_bounds axes : ∀ start bs idx,
  get_raw_index_internal check_bucket axes start bs = Ret idx →
  start * cells axes ≤ idx < (start + 1) * cells axes.
Proof.
  induction axes as [|ac axes IH]; intros start [|b bs] idx H; simpl in *; try done.
  - injection H as <-. lia.
  - apply bind_Ret in H as (b'&Hb&H). unfold check_bucket in Hb. inv_ret. apply IH in H.
    repeat match goal with H : (_ >=? _) = true |- _ => apply Z.geb_le in H
           | H : (_ <? _) = true |- _ => apply Z.ltb_lt in H end.
    destruct (decide (0 < cells axes)); nia.
Qed.

Lemma raw_index_inj axes : axes_ok axes → ∀ s1 s2 bs cs idx,
  get_raw_index_internal check_bucket axes s1 bs = Ret idx →
  get_raw_index_internal check_bucket axes s2 cs = Ret idx → s1 = s2 ∧ bs = cs.
Proof.
  induction 1 as [|ac axes Hac Haxes IH]; intros s1 s2 [|b bs] [|c cs] idx H1 H2;
    simpl in *; try done.
  - naive_solver.
  - apply bind_Ret in H1 as (b'&Hb&H1). apply bind_Ret in H2 as (c'&Hc&H2).
    unfold check_bucket in *. inv_ret.
    destruct (IH _ _ _ _ _ H1 H2) as [E ->].
    repeat match goal with H : (_ >=? _) = true |- _ => apply Z.geb_le in H
           | H : (_ <? _) = true |- _ => apply Z.ltb_lt in H end.
    assert (s1 = s2) by nia. subst. split; [done|]. f_equal. lia.
Qed.

Lemma visit_row raw axes lvl (P : nat) :
  (∀ start, 0 ≤ start → (Z.to_nat (start + 1) * P ≤ length raw)%nat →
    ∃ vs, visit_values raw axes lvl start = Ret vs ∧
      values_of vs = take P (drop (Z.to_nat start * P) raw)) →
  ∀ n k start, 0 ≤ start → (Z.to_nat (start + Z.of_nat k + Z.of_nat n) * P ≤ length raw)%nat →
  ∃ body, foldr (λ i rest,
             here ← visit_values raw axes lvl (start + Z.of_nat i);
             tl ← rest; Ret (here ++ tl)) (Ret []) (seq k n) = Ret body ∧
    values_of body = take (n * P) (drop (Z.to_nat (start + Z.of_nat k) * P) raw).
Proof.
  intros Hv n. induction n as [|n IH]; intros k start Hs Hlen; simpl.
  { by exists []. }
  destruct (Hv (start + Z.of_nat k)) as (vs&Hvs&Evs); [lia| |].
  { etransitivity; [|apply Hlen]. apply Nat.mul_le_mono_r. lia. }
  destruct (IH (S k) start) as (body&Hb&Eb); [lia| |].
  { etransitivity; [|apply Hlen]. apply Nat.mul_le_mono_r. lia. }
  rewrite Hvs. simpl. rewrite Hb. simpl. eexists; split; [done|].
  unfold values_of in *. rewrite omap_app, Evs, Eb.
  replace (Z.to_nat (start + Z.of_nat (S k)) * P)%nat
    with (Z.to_nat (start + Z.of_nat k) * P + P)%nat by nia.
  rewrite <-drop_drop, take_take_drop. done.
Qed.

Lemma visit_values_slice raw axes : axes_ok axes → ∀ lvl start,
  0 ≤ start → (Z.to_nat (start + 1) * Z.to_nat (cells axes) ≤ length raw)%nat →
  ∃ vs, visit_values raw axes lvl start = Ret vs ∧
    values_of vs = take (Z.to_nat (cells axes)) (drop (Z.to_nat start * Z.to_nat (cells axes)) raw).
Proof.
  induction 1 as [|ac axes Hac Haxes IH]; intros lvl start Hs Hlen; simpl in *.
  - rewrite Nat.mul_1_r in *.
    destruct (lookup_lt_is_Some_2 raw (Z.to_nat start)) as [v Hv]; [lia|].
    rewrite Hv. simpl. eexists; split; [done|]. simpl.
    rewrite (drop_S _ v) by done. simpl. by rewrite take_0.
  - pose proof (cells_pos axes Haxes).
    destruct (visit_row raw axes (S lvl) (Z.to_nat (cells axes)) (IH (S lvl))
                (Z.to_nat (m_buckets ac)) 0 (start * m_buckets ac)) as (body&Hb&Eb); [nia| |].
    { etransitivity; [|apply Hlen]. nia. }
    rewrite Hb. simpl. eexists; split; [done|].
    unfold values_of in *; simpl. rewrite omap_app, Eb; simpl. rewrite app_nil_r.
    f_equal; [nia|]. f_equal. nia.
Qed.

(** Bucket counters do not interfere: incrementing the counter of one
    tuple of buckets changes what [read_bucket] returns for that tuple (by one,
    modulo 2^64) and for no other valid tuple. *)
Theorem inc_bucket_read h h' bs cs old :
  hist_wf h → inc_bucket h bs = Ret h' → read_bucket h cs = Ret old →
  hist_wf h' ∧ read_bucket h' cs = Ret (if decide (cs = bs) then u64 (old + 1) else old).
Proof.
  intros [Hax Hlen] Hinc Hread. unfold inc_bucket, read_bucket, bump in *.
  inv_ret. unfold get_raw_index_for_bucket in *; simpl in *.
  match goal with
  | H1 : get_raw_index_internal _ _ _ bs = Ret ?i, H2 : get_raw_index_internal _ _ _ cs = Ret ?j |- _ =>
      pose proof (raw_index_bounds _ _ _ _ H1); pose proof (raw_index_bounds _ _ _ _ H2);
      rename H1 into Hi, H2 into Hj; set (bi := i) in *; set (bj := j) in *
  end.
  split; [split; simpl; [done|by rewrite length_insert]|]. simpl.
  case_decide as E.
  - subst cs. assert (bi = bj) as Eij by congruence. rewrite Hi; simpl.
    rewrite list_lookup_insert_eq by (eapply lookup_lt_Some; eauto).
    rewrite Eij in *. simpl. congruence.
  - rewrite Hj. simpl. rewrite list_lookup_insert_ne; [by rewrite Hread|].
    intros En. apply E. assert (bi = bj) as Eij by lia. rewrite <-Eij in Hj.
    by destruct (raw_index_inj _ Hax _ _ _ _ _ Hi Hj) as [_ ->].
Qed.

Definition demo_axes : list axis :=
  [mkAxis "size" SCALE_LINEAR 0 512 4; latency_axis].
Definition demo_hist : t := mk (replicate 32 0) demo_axes.

Lemma demo_hist_wf : hist_wf demo_hist.
Proof. split; [|done]. unfold axes_ok, demo_hist, demo_axes; simpl. repeat constructor. Defined.

Lemma inc_bucket_read_witness :
  ∃ h', inc_bucket demo_hist [2; 6] = Ret h' ∧
    read_bucket h' [2; 6] = Ret 1 ∧ read_bucket h' [2; 5] = Ret 0.
Proof.
  eexists; split; [by vm_compute|]. split.
  - eapply (inc_bucket_read demo_hist _ [2; 6] [2; 6] 0); [apply demo_hist_wf|by vm_compute..].
  - eapply (inc_bucket_read demo_hist _ [2; 6] [2; 5] 0); [apply demo_hist_wf|by vm_compute..].
Defined.

(** [visit_values] returns and hands the counters to [onValue] one by one
    in the order of the flat array, whatever the number of dimensions. *)
Theorem visit_values_in_order h :
  hist_wf h →
  ∃ vs, visit_values (m_rawData h) (m_axes h) 0 0 = Ret vs ∧ values_of vs = m_rawData h.
Proof.
  intros [Hax Hlen]. rewrite raw_size_cells in Hlen.
  destruct (visit_values_slice (m_rawData h) (m_axes h) Hax 0 0) as (vs&Hv&E); [lia| |].
  { simpl. lia. }
  exists vs. split; [done|]. rewrite E.
  change (Z.to_nat 0) with 0%nat. rewrite Nat.mul_0_l, drop_0, take_ge by lia. done.
Qed.

Lemma visit_values_in_order_witness :
  ∃ vs, visit_values (m_rawData demo_hist) demo_axes 0 0 = Ret vs ∧ length (values_of vs) = 32%nat.
Proof.
  destruct (visit_values_in_order demo_hist demo_hist_wf) as (vs&H&E).
  exists vs. split; [exact H|]. by rewrite E.
Defined.

End histogram_facts.
