(* ===== verification/PerfCounters.v ===== *)
(** * Performance counters (src/common/perf_counters.h, perf_counters.cc,
      perf_counters_collection.cc)

    A [PerfCounters] object is a vector of counters addressed by an enum index
    strictly between two bounds; a builder fills it; a collection keeps the
    objects by name and their counters by path. [read_avg] is also modelled at
    the level of the single atomic accesses it makes against concurrent
    writers. *)

From S2P Require Import Prelude Utime Histogram.

(** [perfcounter_type_d] is a bit set *)
Definition PERFCOUNTER_NONE : Z := 0.
Definition PERFCOUNTER_TIME : Z := 1.
Definition PERFCOUNTER_U64 : Z := 2.
Definition PERFCOUNTER_LONGRUNAVG : Z := 4.
Definition PERFCOUNTER_COUNTER : Z := 8.
Definition PERFCOUNTER_HISTOGRAM : Z := 16.

Definition has (ty bit : Z) : bool := negb (Z.land ty bit =? 0).

Inductive unit_t := UNIT_BYTES | UNIT_NONE.

(** [perf_counter_data_any_d] *)
Record counter := mkCounter {
  c_name : option string;
  c_description : option string;
  c_nick : option string;
  c_prio : Z;
  c_type : Z;
  c_unit : unit_t;
  c_u64 : Z;
  c_avgcount : Z;
  c_avgcount2 : Z;
  c_histogram : option PerfHistogram.t;
}.

Definition counter_default : counter :=
  mkCounter None None None 0 PERFCOUNTER_NONE UNIT_NONE 0 0 0 None.

Definition set_values (d : counter) (v a a2 : Z) : counter :=
  mkCounter (c_name d) (c_description d) (c_nick d) (c_prio d) (c_type d) (c_unit d)
    v a a2 (c_histogram d).

Definition set_histogram (d : counter) (h : option PerfHistogram.t) : counter :=
  mkCounter (c_name d) (c_description d) (c_nick d) (c_prio d) (c_type d) (c_unit d)
    (c_u64 d) (c_avgcount d) (c_avgcount2 d) h.

(** [perf_counter_data_any_d::reset] *)
Definition counter_reset (d : counter) : counter :=
  let d := if negb (c_type d =? PERFCOUNTER_U64) then set_values d 0 0 0 else d in
  set_histogram d (PerfHistogram.reset <$> c_histogram d).

(** [read_avg] with no writer running: one pass of the loop when the two
    counts agree; otherwise it spins. *)
Definition read_avg (d : counter) : outcome (Z * Z) :=
  if c_avgcount d =? c_avgcount2 d then Ret (c_u64 d, c_avgcount2 d) else Crash NoFuel.

Module PerfCounters.

Record t := mk {
  m_lower_bound : Z;
  m_upper_bound : Z;
  m_name : string;
  prio_adjust : Z;
  m_data : list counter;
}.

(** The private constructor *)
Definition create (name : string) (lower upper : Z) : t :=
  mk lower upper name 0 (replicate (Z.to_nat (upper - lower - 1)) counter_default).

Definition set_name (s : string) (p : t) : t :=
  mk (m_lower_bound p) (m_upper_bound p) s (prio_adjust p) (m_data p).
Definition set_data (l : list counter) (p : t) : t :=
  mk (m_lower_bound p) (m_upper_bound p) (m_name p) (prio_adjust p) l.

Definition slot (p : t) (idx : Z) : nat := Z.to_nat (idx - m_lower_bound p - 1).

(** The two [kassert]s every accessor starts with, and the element. *)
Definition data_at (p : t) (idx : Z) : outcome counter :=
  kassert (idx >? m_lower_bound p) ;;
  kassert (idx <? m_upper_bound p) ;;
  deref (m_data p !! slot p idx).

Definition put (p : t) (idx : Z) (d : counter) : t :=
  set_data (<[slot p idx := d]> (m_data p)) p.

Definition inc (p : t) (idx amt : Z) : outcome t :=
  d ← data_at p idx;
  if negb (has (c_type d) PERFCOUNTER_U64) then Ret p else
  if has (c_type d) PERFCOUNTER_LONGRUNAVG
  then Ret (put p idx (set_values d (u64 (c_u64 d + amt)) (u64 (c_avgcount d + 1))
                        (u64 (c_avgcount2 d + 1))))
  else Ret (put p idx (set_values d (u64 (c_u64 d + amt)) (c_avgcount d) (c_avgcount2 d))).

Definition dec (p : t) (idx amt : Z) : outcome t :=
  d ← data_at p idx;
  kassert (negb (has (c_type d) PERFCOUNTER_LONGRUNAVG)) ;;
  if negb (has (c_type d) PERFCOUNTER_U64) then Ret p else
  Ret (put p idx (set_values d (u64 (c_u64 d - amt)) (c_avgcount d) (c_avgcount2 d))).

Definition set (p : t) (idx amt : Z) : outcome t :=
  d ← data_at p idx;
  if negb (has (c_type d) PERFCOUNTER_U64) then Ret p else
  if has (c_type d) PERFCOUNTER_LONGRUNAVG
  then Ret (put p idx (set_values d (u64 amt) (u64 (c_avgcount d + 1)) (u64 (c_avgcount2 d + 1))))
  else Ret (put p idx (set_values d (u64 amt) (c_avgcount d) (c_avgcount2 d))).

Definition get (p : t) (idx : Z) : outcome Z :=
  d ← data_at p idx;
  if negb (has (c_type d) PERFCOUNTER_U64) then Ret 0 else Ret (c_u64 d).

(** [tinc(int, utime_t)] and [tinc(int, timespan)]: the amount in nanoseconds. *)
Definition tinc_ns (p : t) (idx ns : Z) : outcome t :=
  d ← data_at p idx;
  if negb (has (c_type d) PERFCOUNTER_TIME) then Ret p else
  if has (c_type d) PERFCOUNTER_LONGRUNAVG
  then Ret (put p idx (set_values d (u64 (c_u64 d + ns)) (u64 (c_avgcount d + 1))
                        (u64 (c_avgcount2 d + 1))))
  else Ret (put p idx (set_values d (u64 (c_u64 d + ns)) (c_avgcount d) (c_avgcount2 d))).

Definition tinc (p : t) (idx : Z) (amt : utime.t) : outcome t := tinc_ns p idx (utime.to_nsec amt).

Definition tset (p : t) (idx : Z) (amt : utime.t) : outcome t :=
  d ← data_at p idx;
  if negb (has (c_type d) PERFCOUNTER_TIME) then Ret p else
  if has (c_type d) PERFCOUNTER_LONGRUNAVG then Crash KAbort else
  Ret (put p idx (set_values d (utime.to_nsec amt) (c_avgcount d) (c_avgcount2 d))).

Definition tget (p : t) (idx : Z) : outcome utime.t :=
  d ← data_at p idx;
  if negb (has (c_type d) PERFCOUNTER_TIME) then Ret utime.zero else
  Ret (utime.make (c_u64 d / 1000000000) (c_u64 d mod 1000000000)).

Definition hinc (p : t) (idx x y : Z) : outcome t :=
  d ← data_at p idx;
  kassert (c_type d =? Z.lor PERFCOUNTER_HISTOGRAM (Z.lor PERFCOUNTER_COUNTER PERFCOUNTER_U64)) ;;
  match c_histogram d with
  | None => Crash KAbort
  | Some h => h' ← PerfHistogram.inc h [x; y]; Ret (put p idx (set_histogram d (Some h')))
  end.

Definition get_tavg_ns (p : t) (idx : Z) : outcome (Z * Z) :=
  d ← data_at p idx;
  if negb (has (c_type d) PERFCOUNTER_TIME) then Ret (0, 0) else
  if negb (has (c_type d) PERFCOUNTER_LONGRUNAVG) then Ret (0, 0) else
  a ← read_avg d; Ret (a.2, a.1).

Definition reset (p : t) : t := set_data (counter_reset <$> m_data p) p.

(** [get_adjusted_priority], with PRIO_CRITICAL = 10 *)
Definition get_adjusted_priority (p : t) (prio : Z) : Z :=
  Z.max (Z.min (prio + prio_adjust p) 10) 0.

End PerfCounters.

(** ** The builder *)

Module PerfCountersBuilder.
Import PerfCounters.

(** The builder under construction, and [prio_default]. *)
Record t := mk { m_perf_counters : option PerfCounters.t; prio_default : Z }.

Definition create (name : string) (first last : Z) : t :=
  mk (Some (PerfCounters.create name first last)) 0.

Definition add_impl (b : t) (idx : Z) (name description nick : option string) (prio ty : Z)
    (unit : unit_t) (histogram : option PerfHistogram.t) : outcome t :=
  p ← deref (m_perf_counters b);
  d ← data_at p idx;
  kassert (c_type d =? PERFCOUNTER_NONE) ;;
  kassert (match nick with None => true | Some n => (String.length n <=? 4)%nat end) ;;
  let d' := mkCounter name description nick (u8 (if prio =? 0 then prio_default b else prio))
              ty unit (c_u64 d) (c_avgcount d) (c_avgcount2 d) histogram in
  Ret (mk (Some (put p idx d')) (prio_default b)).

Definition add_u64_counter (b : t) (idx : Z) (name description : string) (unit : unit_t) : outcome t :=
  add_impl b idx (Some name) (Some description) None 0
    (Z.lor PERFCOUNTER_U64 PERFCOUNTER_COUNTER) unit None.

Definition add_u64 (b : t) (idx : Z) (name description : string) (unit : unit_t) : outcome t :=
  add_impl b idx (Some name) (Some description) None 0 PERFCOUNTER_U64 unit None.

Definition add_u64_avg (b : t) (idx : Z) (name description : string) (unit : unit_t) : outcome t :=
  add_impl b idx (Some name) (Some description) None 0
    (Z.lor PERFCOUNTER_U64 PERFCOUNTER_LONGRUNAVG) unit None.

Definition add_time (b : t) (idx : Z) (name description : string) : outcome t :=
  add_impl b idx (Some name) (Some description) None 0 PERFCOUNTER_TIME UNIT_NONE None.

Definition add_time_avg (b : t) (idx : Z) (name description : string) : outcome t :=
  add_impl b idx (Some name) (Some description) None 0
    (Z.lor PERFCOUNTER_TIME PERFCOUNTER_LONGRUNAVG) UNIT_NONE None.

Definition add_u64_counter_histogram (b : t) (idx : Z) (name : string) (x y : axis)
    (description : string) : outcome t :=
  h ← PerfHistogram.create 2 [x; y];
  add_impl b idx (Some name) (Some description) None 0
    (Z.lor PERFCOUNTER_U64 (Z.lor PERFCOUNTER_HISTOGRAM PERFCOUNTER_COUNTER)) UNIT_NONE (Some h).

(** [create_perf_counters]: every slot has been given a valid type. *)
Definition slot_valid (d : counter) : bool :=
  negb (c_type d =? PERFCOUNTER_NONE) &&
  has (c_type d) (Z.lor PERFCOUNTER_U64 PERFCOUNTER_TIME).

Definition create_perf_counters (b : t) : outcome (PerfCounters.t * t) :=
  p ← deref (m_perf_counters b);
  kassert (forallb slot_valid (m_data p)) ;;
  Ret (p, mk None (prio_default b)).

End PerfCountersBuilder.

(** ** The collection *)

Section collection.
(** How a stream prints a pointer. *)
Context (show_ptr : Z → string).

(** [m_loggers] is a [std::set] ordered by name, so at most one object per
    name; the objects themselves live in [objects]. [by_path] maps
    "logger.counter" to the object and the position of the counter. *)
Record collection := mkCollection {
  objects : gmap Z PerfCounters.t;
  m_loggers : gmap string Z;
  by_path : gmap string (Z * nat);
}.

Definition name_of (p : PerfCounters.t) : string := PerfCounters.m_name p.

(** One round of the renaming loop of [add]: name := name-ptr *)
Definition rename (name : string) (l : Z) : string := (name +:+ "-" +:+ show_ptr l)%string.

(** The loop that makes the name unique; [fuel] bounds the rounds. *)
Fixpoint unique_name (fuel : nat) (loggers : gmap string Z) (name : string) (l : Z) :
    outcome string :=
  match loggers !! name with
  | None => Ret name
  | Some _ => match fuel with O => Crash NoFuel | S fuel => unique_name fuel loggers (rename name l) l end
  end.

Definition path_of (name : string) (d : counter) : outcome string :=
  match c_name d with
  | Some n => Ret (name +:+ "." +:+ n)%string
  | None => Crash Undefined
  end.

Fixpoint add_paths (name : string) (l : Z) (i : nat) (ds : list counter)
    (m : gmap string (Z * nat)) : outcome (gmap string (Z * nat)) :=
  match ds with
  | [] => Ret m
  | d :: ds => path ← path_of name d; add_paths name l (S i) ds (<[path := (l, i)]> m)
  end.

Fixpoint remove_paths (name : string) (ds : list counter) (m : gmap string (Z * nat)) :
    outcome (gmap string (Z * nat)) :=
  match ds with
  | [] => Ret m
  | d :: ds => path ← path_of name d; remove_paths name ds (delete path m)
  end.

Definition collection_add (c : collection) (l : Z) : outcome collection :=
  p ← deref (objects c !! l);
  name ← unique_name (size (m_loggers c)) (m_loggers c) (name_of p) l;
  bp ← add_paths name l 0 (PerfCounters.m_data p) (by_path c);
  Ret (mkCollection (<[l := PerfCounters.set_name name p]> (objects c))
         (<[name := l]> (m_loggers c)) bp).

Definition collection_remove (c : collection) (l : Z) : outcome collection :=
  p ← deref (objects c !! l);
  bp ← remove_paths (name_of p) (PerfCounters.m_data p) (by_path c);
  kassert (bool_decide (is_Some (m_loggers c !! name_of p))) ;;
  Ret (mkCollection (objects c) (delete (name_of p) (m_loggers c)) bp).

(** [clear]: every registered object is deleted. *)
Definition collection_clear (c : collection) : collection :=
  mkCollection (filter (λ '(l, _), l ∉ (map_to_list (m_loggers c)).*2) (objects c)) ∅ ∅.

Definition collection_reset (c : collection) (name : string) : bool * collection :=
  if decide (name = "all"%string) then
    (true, mkCollection
       (map_imap (λ l p, Some (if decide (l ∈ (map_to_list (m_loggers c)).*2)
                               then PerfCounters.reset p else p)) (objects c))
       (m_loggers c) (by_path c))
  else match m_loggers c !! name with
  | Some l => (true, mkCollection (alter PerfCounters.reset l (objects c)) (m_loggers c) (by_path c))
  | None => (false, c)
  end.

End collection.

(** ** Registration under a unique name *)

Section collection_facts.
Context (show_ptr : Z → string).

Definition all_named (p : PerfCounters.t) : Prop :=
  Forall (λ d, is_Some (c_name d)) (PerfCounters.m_data p).

(** Names at least as long as [n]: the ones the renaming can still meet. *)
Definition longer (n : nat) (loggers : gmap string Z) : gset string :=
  filter (λ s, (n ≤ String.length s)%nat) (dom loggers).

Lemma string_length_app s1 s2 :
  String.length (s1 +:+ s2) = (String.length s1 + String.length s2)%nat.
Proof. induction s1; simpl; auto. Qed.

Lemma rename_longer name l : (String.length name < String.length (rename show_ptr name l))%nat.
Proof. unfold rename. rewrite string_length_app. simpl. lia. Qed.

Lemma unique_name_total loggers l : ∀ fuel name,
  (size (longer (String.length name) loggers) ≤ fuel)%nat →
  ∃ name', unique_name show_ptr fuel loggers name l = Ret name' ∧ loggers !! name' = None.
Proof.
  induction fuel as [|fuel IH]; intros name Hsz; simpl;
    destruct (loggers !! name) as [l'|] eqn:E; eauto.
  - exfalso. apply Nat.le_0_r, size_empty_inv in Hsz.
    assert (name ∈ longer (String.length name) loggers) as Hin; [|set_solver].
    apply elem_of_filter. split; [lia|]. by eapply elem_of_dom_2.
  - apply IH. pose proof (rename_longer name l) as Hlt.
    assert (longer (String.length (rename show_ptr name l)) loggers ⊆
            longer (String.length name) loggers ∖ {[name]}) as Hsub.
    { unfold longer. intros x. rewrite elem_of_difference, !elem_of_filter, elem_of_singleton.
      intros [Hx ?]. split; [split; [lia|done]|]. intros ->. lia. }
    apply subseteq_size in Hsub. rewrite size_difference in Hsub.
    + rewrite size_singleton in Hsub. lia.
    + apply singleton_subseteq_l, elem_of_filter. split; [lia|]. by eapply elem_of_dom_2.
Qed.

Lemma longer_size n loggers : (size (longer n loggers) ≤ size loggers)%nat.
Proof.
  rewrite <-(size_dom (D := gset string) loggers). apply subseteq_size.
  unfold longer. set_solver.
Qed.

Lemma add_paths_total name l ds : ∀ i m,
  Forall (λ d, is_Some (c_name d)) ds → ∃ m', add_paths name l i ds m = Ret m'.
Proof.
  induction ds as [|d ds IH]; intros i m Hds; simpl; [eauto|].
  apply Forall_cons in Hds as [[n Hn] Hds]. unfold path_of. rewrite Hn. simpl. eauto.
Qed.
End collection_facts.

(** [PerfCountersCollectionImpl::add] terminates: the renaming loop stops
    within as many rounds as there are registered loggers, whatever pointers
    print as. The object is registered under a name that was free, and every
    logger registered before keeps its name. *)
Theorem collection_add_total show_ptr c l p :
  objects c !! l = Some p → all_named p →
  ∃ c' name, collection_add show_ptr c l = Ret c' ∧
    m_loggers c !! name = None ∧ m_loggers c' = <[name := l]> (m_loggers c) ∧
    objects c' !! l = Some (PerfCounters.set_name name p).
Proof.
  intros Hl Hn. unfold collection_add. rewrite Hl. simpl.
  destruct (unique_name_total show_ptr (m_loggers c) l (size (m_loggers c)) (name_of p))
    as (name&->&Hnone); [apply longer_size|]. simpl.
  destruct (add_paths_total name l (PerfCounters.m_data p) 0 (by_path c) Hn) as [bp ->].
  simpl. eexists _, name. split_and!; [done..|]. simpl. apply lookup_insert_eq.
Qed.

Definition demo_counters : PerfCounters.t :=
  PerfCounters.mk 0 2 "worker" 0
    [mkCounter (Some "polls"%string) None None 0 PERFCOUNTER_U64 UNIT_NONE 0 0 0 None].
Definition demo_collection : collection :=
  mkCollection {[ 1 := demo_counters; 2 := demo_counters ]} {[ "worker"%string := 1 ]} ∅.

Lemma collection_add_total_witness :
  ∃ c' name, collection_add (λ _, "0x2"%string) demo_collection 2 = Ret c' ∧
    m_loggers c' = <[name := 2]> {[ "worker"%string := 1 ]}.
Proof.
  destruct (collection_add_total (λ _, "0x2"%string) demo_collection 2 demo_counters)
    as (c'&name&?&_&?&_); [done|by repeat constructor|]. eauto.
Defined.

(** ** [read_avg] against concurrent writers

    [inc], [set] and [tinc] on a LONGRUNAVG counter make three atomic accesses
    in order: [avgcount++], the update of [u64], [avgcount2++]; [read_avg]
    loads [avgcount2], [u64] and [avgcount] in that order. The state holds the
    three cells; [begun] lists the amounts of all the increments begun,
    [before_sum] those between their first and second access, and
    [before_end] counts those between their second and third. *)

Record avg_cell := mkAvg {
  av_u64 : Z;
  av_count : Z;
  av_count2 : Z;
  begun : list Z;
  before_sum : list Z;
  before_end : nat;
}.

Inductive avg_step : avg_cell → avg_cell → Prop :=
| avg_begin u a a2 bg bs be amt :
    avg_step (mkAvg u a a2 bg bs be) (mkAvg u (u64 (a + 1)) a2 (amt :: bg) (amt :: bs) be)
| avg_sum u a a2 bg l1 amt l2 be :
    avg_step (mkAvg u a a2 bg (l1 ++ amt :: l2) be)
             (mkAvg (u64 (u + amt)) a a2 bg (l1 ++ l2) (S be))
| avg_end u a a2 bg bs be :
    avg_step (mkAvg u a a2 bg bs (S be)) (mkAvg u a (u64 (a2 + 1)) bg bs be).

Definition avg_init : avg_cell := mkAvg 0 0 0 [] [] 0.

Definition ended (s : avg_cell) : Z :=
  Z.of_nat (length (begun s)) - Z.of_nat (length (before_sum s)) - Z.of_nat (before_end s).

Definition avg_inv (s : avg_cell) : Prop :=
  av_count s = u64 (Z.of_nat (length (begun s))) ∧ av_count2 s = u64 (ended s) ∧ 0 ≤ ended s ∧
  av_u64 s = u64 (Zsum (begun s) - Zsum (before_sum s)).

Lemma avg_inv_step s s' : avg_inv s → avg_step s s' → avg_inv s'.
Proof.
  unfold avg_inv, ended. intros (Ha&H2&H0&Hu) Hstep.
  destruct Hstep; simpl in *; subst.
  - split_and!; [rewrite u64_add_l; f_equal; lia|f_equal; lia|lia|f_equal; lia].
  - rewrite !length_app in *; simpl in *. rewrite !Zsum_app in *; simpl in *.
    split_and!; [done|f_equal; lia|lia|rewrite u64_add_l; f_equal; lia].
  - split_and!; [done|rewrite u64_add_l; f_equal; lia|lia|done].
Qed.

Lemma avg_monotone s s' : rtc avg_step s s' →
  ended s ≤ ended s' ∧ (length (begun s) ≤ length (begun s'))%nat.
Proof.
  induction 1 as [|s s1 s2 Hstep _ [IH1 IH2]]; [lia|].
  assert (ended s ≤ ended s1 ∧ (length (begun s) ≤ length (begun s1))%nat); [|lia].
  unfold ended in *. destruct Hstep; simpl; rewrite ?length_app; simpl; lia.
Qed.

Lemma avg_reachable_inv s : rtc avg_step avg_init s → avg_inv s.
Proof. apply rtc_invariant; [apply avg_inv_step|]. by vm_compute. Qed.

(** When the loop of [read_avg] exits, the pair it returns is a consistent
    snapshot: whatever writers ran between the three loads, [count] is the
    number of increments begun and [sum] is the sum of exactly those, none of
    them half done (fewer than 2^64 increments in all). *)
Theorem read_avg_consistent s1 s2 s3 :
  rtc avg_step avg_init s1 → rtc avg_step s1 s2 → rtc avg_step s2 s3 →
  Z.of_nat (length (begun s3)) < 18446744073709551616 →
  av_count s3 = av_count2 s1 →
  av_count2 s1 = Z.of_nat (length (begun s2)) ∧ av_u64 s2 = u64 (Zsum (begun s2)) ∧
  before_sum s2 = [] ∧ before_end s2 = 0%nat.
Proof.
  intros H1 H12 H23 Hlt Heq.
  pose proof (avg_reachable_inv s1 H1) as (Ha1&Hc1&H01&_).
  assert (rtc avg_step avg_init s2) as H2 by by etrans.
  assert (rtc avg_step avg_init s3) as H3 by by etrans.
  pose proof (avg_reachable_inv s2 H2) as (_&_&_&Hu2).
  pose proof (avg_reachable_inv s3 H3) as (Ha3&_&_&_).
  destruct (avg_monotone _ _ H12) as [He12 Hl12], (avg_monotone _ _ H23) as [He23 Hl23].
  assert (ended s1 ≤ Z.of_nat (length (begun s1))) by (unfold ended; lia).
  rewrite Ha3, Hc1, !u64_small in Heq by (unfold is_u64; lia).
  assert (before_sum s2 = [] ∧ before_end s2 = 0%nat) as [Hbs Hbe].
  { assert (length (before_sum s2) = 0%nat ∧ before_end s2 = 0%nat) as [Hz ?];
      [unfold ended in *; lia|]. by apply nil_length_inv in Hz. }
  rewrite Hc1, u64_small by (unfold is_u64; lia).
  split_and!; [lia| |done..]. rewrite Hu2, Hbs. f_equal. simpl. lia.
Qed.

(** One increment of 7 begun and finished, a second one begun after the load
    of [av_count]: the reader sees (7, 1). *)
Lemma read_avg_consistent_witness :
  let s := mkAvg 7 1 1 [7] [] 0 in
  av_count2 s = 1 ∧ av_u64 s = u64 (Zsum (begun s)).
Proof.
  intros s. destruct (read_avg_consistent s s s) as (?&?&_);
    [|apply rtc_refl..|by vm_compute|done|done].
  unfold avg_init, s.
  apply (rtc_l _ _ (mkAvg 0 1 0 [7] [7] 0)); [apply (avg_begin 0 0 0 [] [] 0 7)|].
  apply (rtc_l _ _ (mkAvg 7 1 0 [7] [] 1)); [apply (avg_sum 0 1 0 [7] [] 7 [] 0)|].
  apply (rtc_l _ _ (mkAvg 7 1 1 [7] [] 0)); [apply (avg_end 7 1 0 [7] [] 0)|apply rtc_refl].
Defined.

(** ** Time counters: tset then tget *)

Lemma data_at_put p idx d d' :
  PerfCounters.data_at p idx = Ret d →
  PerfCounters.data_at (PerfCounters.put p idx d') idx = Ret d'.
Proof.
  unfold PerfCounters.data_at, PerfCounters.put, PerfCounters.slot. intros H.
  cbn [PerfCounters.set_data PerfCounters.m_lower_bound PerfCounters.m_upper_bound
       PerfCounters.m_data].
  destruct (_ >? _); [|done]. destruct (_ <? _); [|done]. mstep. mstep_in H.
  apply deref_Ret, lookup_lt_Some in H. by rewrite list_lookup_insert_eq.
Qed.

(** On a plain time counter, [tget] after [tset] returns the time that was
    set, to the nanosecond. *)
Theorem tset_tget p idx d amt :
  PerfCounters.data_at p idx = Ret d → c_type d = PERFCOUNTER_TIME →
  0 ≤ utime.tv_sec amt < 4294967296 → 0 ≤ utime.tv_nsec amt < 1000000000 →
  ∃ p', PerfCounters.tset p idx amt = Ret p' ∧ PerfCounters.tget p' idx = Ret amt.
Proof.
  intros Hd Hty Hs Hn. unfold PerfCounters.tset. rewrite Hd. mstep. rewrite Hty. simpl.
  eexists; split; [done|]. unfold PerfCounters.tget.
  erewrite data_at_put by exact Hd. mstep. unfold set_values. simpl. rewrite Hty. simpl.
  f_equal. unfold utime.to_nsec, utime.billion.
  rewrite (u64_small (_ * _)), (u64_small (_ + _)) by word_lia.
  rewrite Z.div_add, Z.div_small, Z_mod_plus_full, Z.mod_small by lia.
  unfold utime.make, utime.normalize, utime.billion. simpl. rewrite !u32_small by word_lia.
  destruct (Z.gtb_spec (utime.tv_nsec amt) 1000000000); [lia|]. by destruct amt.
Qed.

Lemma tset_tget_witness :
  ∃ p', PerfCounters.tset (PerfCounters.mk 0 2 "w" 0
      [mkCounter (Some "t"%string) None None 0 PERFCOUNTER_TIME UNIT_NONE 0 0 0 None]) 1
      (utime.mk 5 999999999) = Ret p' ∧ PerfCounters.tget p' 1 = Ret (utime.mk 5 999999999).
Proof. eapply tset_tget; simpl; [done|done|lia|lia]. Defined.

(** ** The loggers the program registers

    The constructors of [Worker] (network/Stack.h), [RDMADispatcher] and
    [RDMAWorker] (core/RDMAStack.cc) each run the builder over a fixed list of
    counters whose indices come from an enum. *)

Inductive plb_add :=
| plb_u64_counter (idx : Z) (name description : string) (unit : unit_t)
| plb_time (idx : Z) (name description : string)
| plb_time_avg (idx : Z) (name description : string).

Definition plb_apply (b : PerfCountersBuilder.t) (a : plb_add) : outcome PerfCountersBuilder.t :=
  match a with
  | plb_u64_counter i n d u => PerfCountersBuilder.add_u64_counter b i n d u
  | plb_time i n d => PerfCountersBuilder.add_time b i n d
  | plb_time_avg i n d => PerfCountersBuilder.add_time_avg b i n d
  end.

Fixpoint plb_run (b : PerfCountersBuilder.t) (l : list plb_add) : outcome PerfCountersBuilder.t :=
  match l with [] => Ret b | a :: l => b' ← plb_apply b a; plb_run b' l end.

Definition build_logger (name : string) (first last : Z) (l : list plb_add) : outcome PerfCounters.t :=
  b ← plb_run (PerfCountersBuilder.create name first last) l;
  '(p, _) ← PerfCountersBuilder.create_perf_counters b;
  Ret p.

(** The enum of network/Stack.h *)
Definition l_msgr_first := 94000.
Definition l_msgr_recv_messages := 94001.
Definition l_msgr_send_messages := 94002.
Definition l_msgr_recv_bytes := 94003.
Definition l_msgr_send_bytes := 94004.
Definition l_msgr_created_connections := 94005.
Definition l_msgr_active_connections := 94006.
Definition l_msgr_running_total_time := 94007.
Definition l_msgr_running_send_time := 94008.
Definition l_msgr_running_recv_time := 94009.
Definition l_msgr_running_fast_dispatch_time := 94010.
Definition l_msgr_send_messages_queue_lat := 94011.
Definition l_msgr_handle_ack_lat := 94012.
Definition l_msgr_last := 94013.

Open Scope string_scope.

(** [Worker::Worker] *)
Definition worker_counters : list plb_add :=
  [ plb_u64_counter l_msgr_recv_messages "msgr_recv_messages" "Network received messages" UNIT_NONE;
    plb_u64_counter l_msgr_send_messages "msgr_send_messages" "Network sent messages" UNIT_NONE;
    plb_u64_counter l_msgr_recv_bytes "msgr_recv_bytes" "Network received bytes" UNIT_BYTES;
    plb_u64_counter l_msgr_send_bytes "msgr_send_bytes" "Network sent bytes" UNIT_BYTES;
    plb_u64_counter l_msgr_active_connections "msgr_active_connections"
      "Active connection number" UNIT_NONE;
    plb_u64_counter l_msgr_created_connections "msgr_created_connections"
      "Created connection number" UNIT_NONE;
    plb_time l_msgr_running_total_time "msgr_running_total_time" "The total time of thread running";
    plb_time l_msgr_running_send_time "msgr_running_send_time" "The total time of message sending";
    plb_time l_msgr_running_recv_time "msgr_running_recv_time" "The total time of message receiving";
    plb_time l_msgr_running_fast_dispatch_time "msgr_running_fast_dispatch_time"
      "The total time of fast dispatch";
    plb_time_avg l_msgr_send_messages_queue_lat "msgr_send_messages_queue_lat"
      "Network sent messages lat";
    plb_time_avg l_msgr_handle_ack_lat "msgr_handle_ack_lat" "Connection handle ack lat" ].

Definition Worker_logger (name : string) : outcome PerfCounters.t :=
  build_logger name l_msgr_first l_msgr_last worker_counters.

(** The two enums of core/Infiniband.h *)
Definition l_msgr_rdma_dispatcher_first := 94000.
Definition l_msgr_rdma_polling := 94001.
Definition l_msgr_rdma_inflight_tx_chunks := 94002.
Definition l_msgr_rdma_rx_bufs_in_use := 94003.
Definition l_msgr_rdma_rx_bufs_total := 94004.
Definition l_msgr_rdma_tx_total_wc := 94005.
Definition l_msgr_rdma_tx_total_wc_errors := 94006.
Definition l_msgr_rdma_tx_wc_retry_errors := 94007.
Definition l_msgr_rdma_tx_wc_wr_flush_errors := 94008.
Definition l_msgr_rdma_rx_total_wc := 94009.
Definition l_msgr_rdma_rx_total_wc_errors := 94010.
Definition l_msgr_rdma_rx_fin := 94011.
Definition l_msgr_rdma_handshake_errors := 94012.
Definition l_msgr_rdma_total_async_events := 94013.
Definition l_msgr_rdma_async_last_wqe_events := 94014.
Definition l_msgr_rdma_created_queue_pair := 94015.
Definition l_msgr_rdma_active_queue_pair := 94016.
Definition l_msgr_rdma_dispatcher_last := 94017.

Definition l_msgr_rdma_first := 95000.
Definition l_msgr_rdma_tx_no_mem := 95001.
Definition l_msgr_rdma_tx_parital_mem := 95002.
Definition l_msgr_rdma_tx_failed := 95003.
Definition l_msgr_rdma_tx_chunks := 95004.
Definition l_msgr_rdma_tx_bytes := 95005.
Definition l_msgr_rdma_rx_chunks := 95006.
Definition l_msgr_rdma_rx_bytes := 95007.
Definition l_msgr_rdma_pending_sent_conns := 95008.
Definition l_msgr_rdma_last := 95009.

(** [RDMADispatcher::RDMADispatcher] *)
Definition dispatcher_counters : list plb_add :=
  [ plb_u64_counter l_msgr_rdma_polling "polling" "Whether dispatcher thread is polling" UNIT_NONE;
    plb_u64_counter l_msgr_rdma_inflight_tx_chunks "inflight_tx_chunks"
      "The number of inflight tx chunks" UNIT_NONE;
    plb_u64_counter l_msgr_rdma_rx_bufs_in_use "rx_bufs_in_use"
      "The number of rx buffers that are holding data and being processed" UNIT_NONE;
    plb_u64_counter l_msgr_rdma_rx_bufs_total "rx_bufs_total" "The total number of rx buffers" UNIT_NONE;
    plb_u64_counter l_msgr_rdma_tx_total_wc "tx_total_wc" "The number of tx work comletions" UNIT_NONE;
    plb_u64_counter l_msgr_rdma_tx_total_wc_errors "tx_total_wc_errors" "The number of tx errors" UNIT_NONE;
    plb_u64_counter l_msgr_rdma_tx_wc_retry_errors "tx_retry_errors"
      "The number of tx retry errors" UNIT_NONE;
    plb_u64_counter l_msgr_rdma_tx_wc_wr_flush_errors "tx_wr_flush_errors"
      "The number of tx work request flush errors" UNIT_NONE;
    plb_u64_counter l_msgr_rdma_rx_total_wc "rx_total_wc"
      "The number of total rx work completion" UNIT_NONE;
    plb_u64_counter l_msgr_rdma_rx_total_wc_errors "rx_total_wc_errors"
      "The number of total rx error work completion" UNIT_NONE;
    plb_u64_counter l_msgr_rdma_rx_fin "rx_fin" "The number of rx finish work request" UNIT_NONE;
    plb_u64_counter l_msgr_rdma_total_async_events "total_async_events"
      "The number of async events" UNIT_NONE;
    plb_u64_counter l_msgr_rdma_async_last_wqe_events "async_last_wqe_events"
      "The number of last wqe events" UNIT_NONE;
    plb_u64_counter l_msgr_rdma_handshake_errors "handshake_errors"
      "The number of handshake errors" UNIT_NONE;
    plb_u64_counter l_msgr_rdma_created_queue_pair "created_queue_pair"
      "Active queue pair number" UNIT_NONE;
    plb_u64_counter l_msgr_rdma_active_queue_pair "active_queue_pair"
      "Created queue pair number" UNIT_NONE ].

Definition RDMADispatcher_logger : outcome PerfCounters.t :=
  build_logger "AsyncMessenger::RDMADispatcher" l_msgr_rdma_dispatcher_first
    l_msgr_rdma_dispatcher_last dispatcher_counters.

(** [RDMAWorker::RDMAWorker] *)
Definition rdma_worker_counters : list plb_add :=
  [ plb_u64_counter l_msgr_rdma_tx_no_mem "tx_no_mem" "The count of no tx buffer" UNIT_NONE;
    plb_u64_counter l_msgr_rdma_tx_parital_mem "tx_parital_mem" "The count of parital tx buffer" UNIT_NONE;
    plb_u64_counter l_msgr_rdma_tx_failed "tx_failed_post" "The number of tx failed posted" UNIT_NONE;
    plb_u64_counter l_msgr_rdma_tx_chunks "tx_chunks" "The number of tx chunks transmitted" UNIT_NONE;
    plb_u64_counter l_msgr_rdma_tx_bytes "tx_bytes" "The bytes of tx chunks transmitted" UNIT_BYTES;
    plb_u64_counter l_msgr_rdma_rx_chunks "rx_chunks" "The number of rx chunks transmitted" UNIT_NONE;
    plb_u64_counter l_msgr_rdma_rx_bytes "rx_bytes" "The bytes of rx chunks transmitted" UNIT_BYTES;
    plb_u64_counter l_msgr_rdma_pending_sent_conns "pending_sent_conns"
      "The count of pending sent conns" UNIT_NONE ].

Definition RDMAWorker_logger (name : string) : outcome PerfCounters.t :=
  build_logger name l_msgr_rdma_first l_msgr_rdma_last rdma_worker_counters.

(** A logger all of whose counters are plain 64-bit counters, as those of the
    dispatcher and of the RDMA workers are: its accessors never fail on an
    index between the bounds. *)
Definition u64_logger (first last : Z) (p : PerfCounters.t) : Prop :=
  PerfCounters.m_lower_bound p = first ∧ PerfCounters.m_upper_bound p = last ∧
  Z.of_nat (length (PerfCounters.m_data p)) = last - first - 1 ∧
  Forall (λ d, c_type d = Z.lor PERFCOUNTER_U64 PERFCOUNTER_COUNTER) (PerfCounters.m_data p).

Lemma u64_logger_at first last p idx : u64_logger first last p → first < idx < last →
  ∃ d, PerfCounters.data_at p idx = Ret d ∧ c_type d = Z.lor PERFCOUNTER_U64 PERFCOUNTER_COUNTER.
Proof.
  intros (Hl&Hu&Hlen&Hty) Hidx. unfold PerfCounters.data_at, PerfCounters.slot. rewrite Hl, Hu.
  destruct (Z.gtb_spec idx first); [|lia]. destruct (Z.ltb_spec idx last); [|lia]. mstep.
  destruct (lookup_lt_is_Some_2 (PerfCounters.m_data p) (Z.to_nat (idx - first - 1))) as [d Hd];
    [lia|].
  rewrite Hd. exists d. split; [done|]. by eapply (Forall_lookup_1 _ _ _ _ Hty).
Qed.

Lemma u64_logger_put first last p idx d : u64_logger first last p →
  c_type d = Z.lor PERFCOUNTER_U64 PERFCOUNTER_COUNTER → u64_logger first last (PerfCounters.put p idx d).
Proof.
  intros (?&?&?&?) ?. split_and!; simpl; [done..| |by apply Forall_insert].
  by rewrite length_insert.
Qed.

Lemma u64_logger_inc first last p idx amt : u64_logger first last p → first < idx < last →
  ∃ p', PerfCounters.inc p idx amt = Ret p' ∧ u64_logger first last p'.
Proof.
  intros Hp Hidx. destruct (u64_logger_at _ _ _ _ Hp Hidx) as (d&Hd&Hty).
  unfold PerfCounters.inc. rewrite Hd. mstep. rewrite Hty. simpl.
  eexists; split; [done|]. by apply u64_logger_put.
Qed.

Lemma u64_logger_dec first last p idx amt : u64_logger first last p → first < idx < last →
  ∃ p', PerfCounters.dec p idx amt = Ret p' ∧ u64_logger first last p'.
Proof.
  intros Hp Hidx. destruct (u64_logger_at _ _ _ _ Hp Hidx) as (d&Hd&Hty).
  unfold PerfCounters.dec. rewrite Hd. mstep. rewrite Hty. simpl.
  eexists; split; [done|]. by apply u64_logger_put.
Qed.

Lemma u64_logger_set first last p idx amt : u64_logger first last p → first < idx < last →
  ∃ p', PerfCounters.set p idx amt = Ret p' ∧ u64_logger first last p'.
Proof.
  intros Hp Hidx. destruct (u64_logger_at _ _ _ _ Hp Hidx) as (d&Hd&Hty).
  unfold PerfCounters.set. rewrite Hd. mstep. rewrite Hty. simpl.
  eexists; split; [done|]. by apply u64_logger_put.
Qed.

Lemma RDMADispatcher_logger_ok :
  ∃ p, RDMADispatcher_logger = Ret p ∧
    u64_logger l_msgr_rdma_dispatcher_first l_msgr_rdma_dispatcher_last p.
Proof.
  eexists. split; [vm_compute; reflexivity|]. split_and!; [done..|].
  cbn [PerfCounters.m_data]. repeat (constructor; [done|]). constructor.
Qed.

Lemma RDMAWorker_logger_ok name :
  ∃ p, RDMAWorker_logger name = Ret p ∧ u64_logger l_msgr_rdma_first l_msgr_rdma_last p.
Proof.
  eexists. split; [vm_compute; reflexivity|]. split_and!; [done..|].
  cbn [PerfCounters.m_data]. repeat (constructor; [done|]). constructor.
Qed.

Lemma Worker_logger_ok name : ∃ p, Worker_logger name = Ret p.
Proof. eexists. vm_compute. reflexivity. Qed.

Close Scope string_scope.
