(* ===== verification/Machine.v ===== *)
(** * The state of the RDMA core and its environment

    The objects of src/core (chunks, clusters, queue pairs, completion queues,
    devices, the dispatcher, the sockets, the workers) as records, kept in maps
    by address; the calls the code makes to libc, libibverbs, the event centre
    and the application as values of [call], answered by a [World]; the boost
    pool the receive buffers come from as a [BoostPool]; and the monad the
    operations of the following files are written in, with its weakest
    preconditions. *)

From S2P Require Import Prelude State Buffers PerfCounters.

(** ** Configuration: the fields of [Config] (common/context.h) the core reads *)

Record config := mkConfig {
  m_use_rdma_cm_ : bool;
  m_rdma_enable_hugepage_ : bool;
  m_rdma_support_srq_ : bool;
  m_rdma_device_name_ : list Z;
  m_gid_index_ : Z;
  m_rdma_dscp_ : Z;
  m_rdma_sl_ : Z;
  m_rdma_port_num_ : Z;
  m_rdma_buffer_size_bytes_ : Z;
  m_rdma_send_queue_len_ : Z;
  m_rdma_receive_buffers_bytes_ : Z;
  m_rdma_receive_queue_len_ : Z;
  m_tcp_listen_backlog_ : Z;
  m_tcp_nodelay_ : bool;
  m_tcp_rcvbuf_bytes_ : Z;
  m_bind_before_connect_ : bool;
  ip_addr_member_1 : Z;
  port_member_1 : Z;
  ip_addr_member_2 : Z;
  port_member_2 : Z;
}.

(** ** Records of the core *)

(** [Infiniband::MemoryManager::Chunk] *)
Record chunk := mkChunk {
  ck_mr : Z;
  ck_qp : Z;  (* 0 is nullptr *)
  ck_lkey : Z;
  ck_bytes : Z;
  ck_offset : Z;
  ck_bound : Z;
  ck_buffer : Z;
  ck_my_log_id : Z;
  ck_request_id : Z;
}.

Definition set_ck_qp (v : Z) (r : chunk) : chunk :=
  mkChunk (ck_mr r) v (ck_lkey r) (ck_bytes r) (ck_offset r) (ck_bound r) (ck_buffer r) (ck_my_log_id
    r) (ck_request_id r).
Definition set_ck_offset (v : Z) (r : chunk) : chunk :=
  mkChunk (ck_mr r) (ck_qp r) (ck_lkey r) (ck_bytes r) v (ck_bound r) (ck_buffer r) (ck_my_log_id r)
    (ck_request_id r).
Definition set_ck_bound (v : Z) (r : chunk) : chunk :=
  mkChunk (ck_mr r) (ck_qp r) (ck_lkey r) (ck_bytes r) (ck_offset r) v (ck_buffer r) (ck_my_log_id r)
    (ck_request_id r).
Definition set_ck_my_log_id (v : Z) (r : chunk) : chunk :=
  mkChunk (ck_mr r) (ck_qp r) (ck_lkey r) (ck_bytes r) (ck_offset r) (ck_bound r) (ck_buffer r) v
    (ck_request_id r).

(** [Infiniband::MemoryManager::Cluster] *)
Record cluster := mkCluster {
  buffer_size : Z;
  num_chunk : Z;
  free_chunks : list Z;
  base : Z;
  end_ : Z;
  chunk_base : Z;
}.

Definition set_free_chunks (v : list Z) (r : cluster) : cluster :=
  mkCluster (buffer_size r) (num_chunk r) v (base r) (end_ r) (chunk_base r).

(** [ib_cm_meta_t] *)
Record ib_cm_meta_t := mkMeta {
  cm_lid : Z;
  cm_local_qpn : Z;
  cm_psn : Z;
  cm_peer_qpn : Z;
  cm_gid : list Z;  (* 16 bytes *)
}.

Definition set_cm_peer_qpn (v : Z) (r : ib_cm_meta_t) : ib_cm_meta_t :=
  mkMeta (cm_lid r) (cm_local_qpn r) (cm_psn r) v (cm_gid r).

(** [Infiniband::QueuePair] *)
Record queue_pair := mkQP {
  qp_type : Z;
  qp_port : Z;  (* ib_physical_port *)
  qp_srq : Z;
  qp_qp : Z;  (* the verbs handle, 0 before init *)
  qp_num : Z;  (* qp->qp_num *)
  qp_cm_id : Z;
  peer_cm_meta : ib_cm_meta_t;
  local_cm_meta : ib_cm_meta_t;
  qp_txcq : Z;
  qp_rxcq : Z;
  initial_psn : Z;
  max_send_wr : Z;
  max_recv_wr : Z;
  q_key : Z;
  qp_dead : bool;
  recv_queue : list Z;
}.

Definition set_qp_qp (v : Z) (r : queue_pair) : queue_pair :=
  mkQP (qp_type r) (qp_port r) (qp_srq r) v (qp_num r) (qp_cm_id r) (peer_cm_meta r) (local_cm_meta r)
    (qp_txcq r) (qp_rxcq r) (initial_psn r) (max_send_wr r) (max_recv_wr r) (q_key r) (qp_dead r)
    (recv_queue r).
Definition set_qp_num (v : Z) (r : queue_pair) : queue_pair :=
  mkQP (qp_type r) (qp_port r) (qp_srq r) (qp_qp r) v (qp_cm_id r) (peer_cm_meta r) (local_cm_meta r)
    (qp_txcq r) (qp_rxcq r) (initial_psn r) (max_send_wr r) (max_recv_wr r) (q_key r) (qp_dead r)
    (recv_queue r).
Definition set_peer_cm_meta (v : ib_cm_meta_t) (r : queue_pair) : queue_pair :=
  mkQP (qp_type r) (qp_port r) (qp_srq r) (qp_qp r) (qp_num r) (qp_cm_id r) v (local_cm_meta r)
    (qp_txcq r) (qp_rxcq r) (initial_psn r) (max_send_wr r) (max_recv_wr r) (q_key r) (qp_dead r)
    (recv_queue r).
Definition set_local_cm_meta (v : ib_cm_meta_t) (r : queue_pair) : queue_pair :=
  mkQP (qp_type r) (qp_port r) (qp_srq r) (qp_qp r) (qp_num r) (qp_cm_id r) (peer_cm_meta r) v
    (qp_txcq r) (qp_rxcq r) (initial_psn r) (max_send_wr r) (max_recv_wr r) (q_key r) (qp_dead r)
    (recv_queue r).
Definition set_qp_dead (v : bool) (r : queue_pair) : queue_pair :=
  mkQP (qp_type r) (qp_port r) (qp_srq r) (qp_qp r) (qp_num r) (qp_cm_id r) (peer_cm_meta r)
    (local_cm_meta r) (qp_txcq r) (qp_rxcq r) (initial_psn r) (max_send_wr r) (max_recv_wr r) (q_key
    r) v (recv_queue r).
Definition set_recv_queue (v : list Z) (r : queue_pair) : queue_pair :=
  mkQP (qp_type r) (qp_port r) (qp_srq r) (qp_qp r) (qp_num r) (qp_cm_id r) (peer_cm_meta r)
    (local_cm_meta r) (qp_txcq r) (qp_rxcq r) (initial_psn r) (max_send_wr r) (max_recv_wr r) (q_key
    r) (qp_dead r) v.

(** [Infiniband::CompletionChannel] *)
Record comp_channel := mkCC {
  cc_channel : Z;
  cc_fd : Z;
  cc_cq : Z;
  cq_events_that_need_ack : Z;
}.

Definition set_cc_cq (v : Z) (r : comp_channel) : comp_channel :=
  mkCC (cc_channel r) (cc_fd r) v (cq_events_that_need_ack r).
Definition set_cq_events_that_need_ack (v : Z) (r : comp_channel) : comp_channel :=
  mkCC (cc_channel r) (cc_fd r) (cc_cq r) v.

(** [Infiniband::CompletionQueue] *)
Record comp_queue := mkCQ {
  cq_channel : Z;
  cq_cq : Z;
  queue_depth : Z;
}.

(** [Port], with the fields of [ibv_port_attr] the code reads *)
Record port := mkPort {
  port_ctxt : Z;
  port_num : Z;
  port_lid : Z;
  port_state : Z;
  gid_tbl_len : Z;
  gid_idx : Z;
  port_gid : list Z;
}.

(** [Device], with the fields of [ibv_device_attr] the code reads *)
Record device := mkDevice {
  dev_device : Z;
  dev_name : list Z;
  dev_ctxt : Z;
  dev_async_fd : Z;
  phys_port_cnt : Z;
  max_srq : Z;
  max_srq_wr : Z;
  max_qp_wr : Z;
  max_mr_size : Z;
  active_port : option port;
}.

Definition set_active_port (v : option port) (r : device) : device :=
  mkDevice (dev_device r) (dev_name r) (dev_ctxt r) (dev_async_fd r) (phys_port_cnt r) (max_srq r)
    (max_srq_wr r) (max_qp_wr r) (max_mr_size r) v.

(** [Infiniband] *)
Record infiniband := mkIB {
  tx_queue_len : Z;
  rx_queue_len : Z;
  ib_physical_port : Z;
  ib_srq : Z;
  ib_device : option device;
  ib_pd : Z;
  initialized : bool;
  support_srq : bool;
  ib_device_list : list device;
}.

Definition set_tx_queue_len (v : Z) (r : infiniband) : infiniband :=
  mkIB v (rx_queue_len r) (ib_physical_port r) (ib_srq r) (ib_device r) (ib_pd r) (initialized r) (support_srq r) (ib_device_list r).
Definition set_rx_queue_len (v : Z) (r : infiniband) : infiniband :=
  mkIB (tx_queue_len r) v (ib_physical_port r) (ib_srq r) (ib_device r) (ib_pd r) (initialized r) (support_srq r) (ib_device_list r).
Definition set_ib_physical_port (v : Z) (r : infiniband) : infiniband :=
  mkIB (tx_queue_len r) (rx_queue_len r) v (ib_srq r) (ib_device r) (ib_pd r) (initialized r) (support_srq r) (ib_device_list r).
Definition set_ib_srq (v : Z) (r : infiniband) : infiniband :=
  mkIB (tx_queue_len r) (rx_queue_len r) (ib_physical_port r) v (ib_device r) (ib_pd r) (initialized r) (support_srq r) (ib_device_list r).
Definition set_ib_device (v : option device) (r : infiniband) : infiniband :=
  mkIB (tx_queue_len r) (rx_queue_len r) (ib_physical_port r) (ib_srq r) v (ib_pd r) (initialized r) (support_srq r) (ib_device_list r).
Definition set_ib_pd (v : Z) (r : infiniband) : infiniband :=
  mkIB (tx_queue_len r) (rx_queue_len r) (ib_physical_port r) (ib_srq r) (ib_device r) v (initialized r) (support_srq r) (ib_device_list r).
Definition set_initialized (v : bool) (r : infiniband) : infiniband :=
  mkIB (tx_queue_len r) (rx_queue_len r) (ib_physical_port r) (ib_srq r) (ib_device r) (ib_pd r) v (support_srq r) (ib_device_list r).
Definition set_support_srq (v : bool) (r : infiniband) : infiniband :=
  mkIB (tx_queue_len r) (rx_queue_len r) (ib_physical_port r) (ib_srq r) (ib_device r) (ib_pd r) (initialized r) v (ib_device_list r).
Definition set_ib_device_list (v : list device) (r : infiniband) : infiniband :=
  mkIB (tx_queue_len r) (rx_queue_len r) (ib_physical_port r) (ib_srq r) (ib_device r) (ib_pd r) (initialized r) (support_srq r) v.

(** [ibv_wc] *)
Record wc := mkWC {
  wr_id : Z;
  wc_status : Z;
  wc_opcode : Z;
  byte_len : Z;
  wc_qp_num : Z;
}.

(** [RDMADispatcher] *)
Record dispatcher := mkDisp {
  joinable : bool;  (* the polling thread *)
  tx_cq : Z;
  rx_cq : Z;
  tx_cc : Z;
  rx_cc : Z;
  d_done : bool;
  num_qp_conn : Z;
  qp_conns : gmap Z (Z * Z);  (* qp_num to (QueuePair, socket) *)
  dead_queue_pairs : list Z;
  num_pending_workers : Z;
  pending_workers : list Z;
  inflight : Z;
}.

Definition set_joinable (v : bool) (r : dispatcher) : dispatcher :=
  mkDisp v (tx_cq r) (rx_cq r) (tx_cc r) (rx_cc r) (d_done r) (num_qp_conn r) (qp_conns r)
    (dead_queue_pairs r) (num_pending_workers r) (pending_workers r) (inflight r).
Definition set_d_done (v : bool) (r : dispatcher) : dispatcher :=
  mkDisp (joinable r) (tx_cq r) (rx_cq r) (tx_cc r) (rx_cc r) v (num_qp_conn r) (qp_conns r)
    (dead_queue_pairs r) (num_pending_workers r) (pending_workers r) (inflight r).
Definition set_num_qp_conn (v : Z) (r : dispatcher) : dispatcher :=
  mkDisp (joinable r) (tx_cq r) (rx_cq r) (tx_cc r) (rx_cc r) (d_done r) v (qp_conns r)
    (dead_queue_pairs r) (num_pending_workers r) (pending_workers r) (inflight r).
Definition set_qp_conns (v : gmap Z (Z * Z)) (r : dispatcher) : dispatcher :=
  mkDisp (joinable r) (tx_cq r) (rx_cq r) (tx_cc r) (rx_cc r) (d_done r) (num_qp_conn r) v
    (dead_queue_pairs r) (num_pending_workers r) (pending_workers r) (inflight r).
Definition set_dead_queue_pairs (v : list Z) (r : dispatcher) : dispatcher :=
  mkDisp (joinable r) (tx_cq r) (rx_cq r) (tx_cc r) (rx_cc r) (d_done r) (num_qp_conn r) (qp_conns r)
    v (num_pending_workers r) (pending_workers r) (inflight r).
Definition set_num_pending_workers (v : Z) (r : dispatcher) : dispatcher :=
  mkDisp (joinable r) (tx_cq r) (rx_cq r) (tx_cc r) (rx_cc r) (d_done r) (num_qp_conn r) (qp_conns r)
    (dead_queue_pairs r) v (pending_workers r) (inflight r).
Definition set_pending_workers (v : list Z) (r : dispatcher) : dispatcher :=
  mkDisp (joinable r) (tx_cq r) (rx_cq r) (tx_cc r) (rx_cc r) (d_done r) (num_qp_conn r) (qp_conns r)
    (dead_queue_pairs r) (num_pending_workers r) v (inflight r).
Definition set_inflight (v : Z) (r : dispatcher) : dispatcher :=
  mkDisp (joinable r) (tx_cq r) (rx_cq r) (tx_cc r) (rx_cc r) (d_done r) (num_qp_conn r) (qp_conns r)
    (dead_queue_pairs r) (num_pending_workers r) (pending_workers r) v.

(** [RDMAConnectedSocketImpl] *)
Record socket := mkSocket {
  s_qp : Z;
  has_txc_callback : bool;
  peer_qpn : Z;
  local_qpn : Z;
  connected : Z;
  s_error : Z;
  s_worker : Z;
  buffers : list Z;
  notify_fd : Z;
  pending_bl : BufferList.t;
  s_wc : list wc;
  is_server : bool;
  read_handler : Z;
  established_handler : Z;
  tcp_fd : Z;
  active : bool;
  pending : bool;
  post_backlog : Z;
}.

Definition set_s_qp (v : Z) (r : socket) : socket :=
  mkSocket v (has_txc_callback r) (peer_qpn r) (local_qpn r) (connected r) (s_error r) (s_worker r)
    (buffers r) (notify_fd r) (pending_bl r) (s_wc r) (is_server r) (read_handler r)
    (established_handler r) (tcp_fd r) (active r) (pending r) (post_backlog r).
Definition set_has_txc_callback (v : bool) (r : socket) : socket :=
  mkSocket (s_qp r) v (peer_qpn r) (local_qpn r) (connected r) (s_error r) (s_worker r) (buffers r)
    (notify_fd r) (pending_bl r) (s_wc r) (is_server r) (read_handler r) (established_handler r)
    (tcp_fd r) (active r) (pending r) (post_backlog r).
Definition set_peer_qpn (v : Z) (r : socket) : socket :=
  mkSocket (s_qp r) (has_txc_callback r) v (local_qpn r) (connected r) (s_error r) (s_worker r)
    (buffers r) (notify_fd r) (pending_bl r) (s_wc r) (is_server r) (read_handler r)
    (established_handler r) (tcp_fd r) (active r) (pending r) (post_backlog r).
Definition set_local_qpn (v : Z) (r : socket) : socket :=
  mkSocket (s_qp r) (has_txc_callback r) (peer_qpn r) v (connected r) (s_error r) (s_worker r)
    (buffers r) (notify_fd r) (pending_bl r) (s_wc r) (is_server r) (read_handler r)
    (established_handler r) (tcp_fd r) (active r) (pending r) (post_backlog r).
Definition set_connected (v : Z) (r : socket) : socket :=
  mkSocket (s_qp r) (has_txc_callback r) (peer_qpn r) (local_qpn r) v (s_error r) (s_worker r)
    (buffers r) (notify_fd r) (pending_bl r) (s_wc r) (is_server r) (read_handler r)
    (established_handler r) (tcp_fd r) (active r) (pending r) (post_backlog r).
Definition set_s_error (v : Z) (r : socket) : socket :=
  mkSocket (s_qp r) (has_txc_callback r) (peer_qpn r) (local_qpn r) (connected r) v (s_worker r)
    (buffers r) (notify_fd r) (pending_bl r) (s_wc r) (is_server r) (read_handler r)
    (established_handler r) (tcp_fd r) (active r) (pending r) (post_backlog r).
Definition set_buffers (v : list Z) (r : socket) : socket :=
  mkSocket (s_qp r) (has_txc_callback r) (peer_qpn r) (local_qpn r) (connected r) (s_error r)
    (s_worker r) v (notify_fd r) (pending_bl r) (s_wc r) (is_server r) (read_handler r)
    (established_handler r) (tcp_fd r) (active r) (pending r) (post_backlog r).
Definition set_notify_fd (v : Z) (r : socket) : socket :=
  mkSocket (s_qp r) (has_txc_callback r) (peer_qpn r) (local_qpn r) (connected r) (s_error r)
    (s_worker r) (buffers r) v (pending_bl r) (s_wc r) (is_server r) (read_handler r)
    (established_handler r) (tcp_fd r) (active r) (pending r) (post_backlog r).
Definition set_pending_bl (v : BufferList.t) (r : socket) : socket :=
  mkSocket (s_qp r) (has_txc_callback r) (peer_qpn r) (local_qpn r) (connected r) (s_error r)
    (s_worker r) (buffers r) (notify_fd r) v (s_wc r) (is_server r) (read_handler r)
    (established_handler r) (tcp_fd r) (active r) (pending r) (post_backlog r).
Definition set_s_wc (v : list wc) (r : socket) : socket :=
  mkSocket (s_qp r) (has_txc_callback r) (peer_qpn r) (local_qpn r) (connected r) (s_error r)
    (s_worker r) (buffers r) (notify_fd r) (pending_bl r) v (is_server r) (read_handler r)
    (established_handler r) (tcp_fd r) (active r) (pending r) (post_backlog r).
Definition set_is_server (v : bool) (r : socket) : socket :=
  mkSocket (s_qp r) (has_txc_callback r) (peer_qpn r) (local_qpn r) (connected r) (s_error r)
    (s_worker r) (buffers r) (notify_fd r) (pending_bl r) (s_wc r) v (read_handler r)
    (established_handler r) (tcp_fd r) (active r) (pending r) (post_backlog r).
Definition set_read_handler (v : Z) (r : socket) : socket :=
  mkSocket (s_qp r) (has_txc_callback r) (peer_qpn r) (local_qpn r) (connected r) (s_error r)
    (s_worker r) (buffers r) (notify_fd r) (pending_bl r) (s_wc r) (is_server r) v
    (established_handler r) (tcp_fd r) (active r) (pending r) (post_backlog r).
Definition set_established_handler (v : Z) (r : socket) : socket :=
  mkSocket (s_qp r) (has_txc_callback r) (peer_qpn r) (local_qpn r) (connected r) (s_error r)
    (s_worker r) (buffers r) (notify_fd r) (pending_bl r) (s_wc r) (is_server r) (read_handler r) v
    (tcp_fd r) (active r) (pending r) (post_backlog r).
Definition set_tcp_fd (v : Z) (r : socket) : socket :=
  mkSocket (s_qp r) (has_txc_callback r) (peer_qpn r) (local_qpn r) (connected r) (s_error r)
    (s_worker r) (buffers r) (notify_fd r) (pending_bl r) (s_wc r) (is_server r) (read_handler r)
    (established_handler r) v (active r) (pending r) (post_backlog r).
Definition set_active (v : bool) (r : socket) : socket :=
  mkSocket (s_qp r) (has_txc_callback r) (peer_qpn r) (local_qpn r) (connected r) (s_error r)
    (s_worker r) (buffers r) (notify_fd r) (pending_bl r) (s_wc r) (is_server r) (read_handler r)
    (established_handler r) (tcp_fd r) v (pending r) (post_backlog r).
Definition set_pending (v : bool) (r : socket) : socket :=
  mkSocket (s_qp r) (has_txc_callback r) (peer_qpn r) (local_qpn r) (connected r) (s_error r)
    (s_worker r) (buffers r) (notify_fd r) (pending_bl r) (s_wc r) (is_server r) (read_handler r)
    (established_handler r) (tcp_fd r) (active r) v (post_backlog r).
Definition set_post_backlog (v : Z) (r : socket) : socket :=
  mkSocket (s_qp r) (has_txc_callback r) (peer_qpn r) (local_qpn r) (connected r) (s_error r)
    (s_worker r) (buffers r) (notify_fd r) (pending_bl r) (s_wc r) (is_server r) (read_handler r)
    (established_handler r) (tcp_fd r) (active r) (pending r) v.

(** [RDMAWorker] *)
Record worker := mkWorker {
  pending_sent_conns : list Z;
  worker_perf : PerfCounters.t;
}.

Definition set_pending_sent_conns (v : list Z) (r : worker) : worker :=
  mkWorker v (worker_perf r).
Definition set_worker_perf (v : PerfCounters.t) (r : worker) : worker :=
  mkWorker (pending_sent_conns r) v.

(** ** Calls to the environment *)

(** The fields of [ibv_qp_attr] the code sets; the rest stays zero. *)
Record qp_attr := mkAttr {
  a_qp_state : Z;
  a_pkey_index : Z;
  a_port_num : Z;
  a_access_flags : Z;
  a_qkey : Z;
  a_path_mtu : Z;
  a_dest_qp_num : Z;
  a_rq_psn : Z;
  a_max_dest_rd_atomic : Z;
  a_min_rnr_timer : Z;
  a_is_global : Z;
  a_hop_limit : Z;
  a_dgid : list Z;
  a_sgid_index : Z;
  a_traffic_class : Z;
  a_dlid : Z;
  a_sl : Z;
  a_av_port_num : Z;
  a_timeout : Z;
  a_retry_cnt : Z;
  a_rnr_retry : Z;
  a_sq_psn : Z;
  a_max_rd_atomic : Z;
}.

(** A send or receive work request with at most one scatter entry: its id and
    (address, length, lkey). *)
Record work_request := mkWR { w_id : Z; w_sge : option (Z * Z * Z) }.

Inductive call :=
| c_malloc (size : Z)
| c_free (ptr : Z)
| c_mmap (size : Z)
| c_munmap (ptr size : Z)
| c_new (size : Z)
| ibv_reg_mr (pd addr len access : Z)
| ibv_dereg_mr (mr : Z)
| ibv_alloc_pd (ctxt : Z)
| ibv_dealloc_pd (pd : Z)
| ibv_create_qp (pd send_cq recv_cq srq max_send_wr max_recv_wr qp_type : Z)
| rdma_create_qp (cm_id pd send_cq recv_cq srq max_send_wr max_recv_wr qp_type : Z)
| rdma_cm_verbs_match (cm_id pd : Z)
| ibv_destroy_qp (qp : Z)
| ibv_modify_qp (qp : Z) (attr : qp_attr) (mask : Z)
| ibv_query_qp (qp mask : Z)
| ibv_post_send (qp : Z) (wrs : list work_request)
| ibv_post_recv (qp : Z) (wrs : list work_request)
| ibv_post_srq_recv (srq : Z) (wrs : list work_request)
| ibv_create_srq (pd max_wr max_sge : Z)
| ibv_destroy_srq (srq : Z)
| ibv_create_comp_channel (ctxt : Z)
| ibv_destroy_comp_channel (channel : Z)
| ibv_get_cq_event (channel : Z)
| ibv_ack_cq_events (cq n : Z)
| ibv_create_cq (ctxt depth cq_context channel : Z)
| ibv_destroy_cq (cq : Z)
| ibv_req_notify_cq (cq solicited : Z)
| ibv_poll_cq (cq n : Z)
| ibv_get_async_event (ctxt : Z)
| ibv_ack_async_event
| ibv_get_device_list
| rdma_get_devices
| ibv_open_device (dev : Z)
| ibv_context_device (ctxt : Z)
| ibv_context_async_fd (ctxt : Z)
| ibv_get_device_name (dev : Z)
| ibv_query_device (ctxt : Z)
| ibv_query_port (ctxt port : Z)
| ibv_query_gid (ctxt port idx : Z)
| ibv_close_device (ctxt : Z)
| ibv_free_device_list
| rdma_free_devices
| c_unsetenv_hugepages
| ibv_fork_init
| c_setenv_hugepages
| c_getrlimit
| c_socket (domain type protocol : Z)
| c_fcntl_getfl (fd : Z)
| c_fcntl_setfl (fd flags : Z)
| c_setsockopt (fd level opt val : Z)
| c_connect (fd : Z) (addr : list Z)
| c_bind (fd : Z) (addr : list Z)
| c_listen (fd backlog : Z)
| c_accept (fd : Z)
| c_read (fd size : Z)
| c_write (fd : Z) (bytes : list Z)
| c_sendmsg (fd : Z) (iov : list (Z * Z)) (more : bool)
| c_shutdown (fd : Z)
| c_close (fd : Z)
| c_eventfd
| c_eventfd_write (fd val : Z)
| center_create_file_event (worker fd mask handler : Z)
| center_delete_file_event (worker fd mask : Z)
| center_dispatch_external (worker handler : Z)
| center_in_thread (worker : Z)
| c_txc_callback (sock chunk : Z).

(** A world answers a call with a return value and what the call stored
    through its pointer arguments; [errno] is sticky. *)
Class World (W : Type) := {
  sys_call : call → W → Z * list Z * W;
  get_errno : W → Z;
}.

(** A world that replays a list of (return value, output, errno) and keeps the
    calls made so far; past the end every call succeeds with 0. *)
Record script := mkScript {
  sc_replies : list (Z * list Z * Z);
  sc_errno : Z;
  sc_log : list call;
}.

Definition script_call (c : call) (s : script) : Z * list Z * script :=
  match sc_replies s with
  | [] => (0, [], mkScript [] (sc_errno s) (sc_log s ++ [c]))
  | (r, out, e) :: l => (r, out, mkScript l e (sc_log s ++ [c]))
  end.

#[global] Instance script_world : World script :=
  {| sys_call := script_call; get_errno := sc_errno |}.

(** [boost::pool<PoolAllocator>]: the free list [store()], and [pool::malloc]
    and [pool::free]. [pool::malloc] on an empty store asks the user allocator
    for a block, on any state [S] that allocator works on; 0 is NULL. *)
Class BoostPool (P : Type) := {
  store_empty : P → bool;
  store_malloc : P → Z * P;
  pool_malloc : ∀ S : Type, (Z → S → outcome (Z * S)) → P → S → outcome (Z * P * S);
  pool_free : Z → P → P;
}.

(** ** The machine *)

Section machine.
Context {W P : Type}.

(** [Infiniband::MemoryManager] with its [MemPoolContext], its receive pool and the
    static [PoolAllocator::g_ctx] *)
Record memory_manager := mkMM {
  send_buffers : option cluster;
  n_bufs_allocated : Z;
  stat_logger : bool;  (* rxbuf_pool_ctx.perf_logger is set *)
  g_ctx : bool;
  rxbuf_pool : P;
}.

Definition set_send_buffers (v : option cluster) (r : memory_manager) : memory_manager :=
  mkMM v (n_bufs_allocated r) (stat_logger r) (g_ctx r) (rxbuf_pool r).
Definition set_n_bufs_allocated (v : Z) (r : memory_manager) : memory_manager :=
  mkMM (send_buffers r) v (stat_logger r) (g_ctx r) (rxbuf_pool r).
Definition set_stat_logger (v : bool) (r : memory_manager) : memory_manager :=
  mkMM (send_buffers r) (n_bufs_allocated r) v (g_ctx r) (rxbuf_pool r).
Definition set_g_ctx (v : bool) (r : memory_manager) : memory_manager :=
  mkMM (send_buffers r) (n_bufs_allocated r) (stat_logger r) v (rxbuf_pool r).
Definition set_rxbuf_pool (v : P) (r : memory_manager) : memory_manager :=
  mkMM (send_buffers r) (n_bufs_allocated r) (stat_logger r) (g_ctx r) v.

(** Everything the RDMA core reads and writes *)
Record mach := mkMach {
  world : W;
  heap : gmap Z chunk;
  ram : gmap Z Z;  (* bytes by address *)
  mrs : gmap Z Z;  (* ibv_mr handle to lkey *)
  log_id : Z;  (* the static Chunk::log_id *)
  mm : memory_manager;
  ib : infiniband;
  qps : gmap Z queue_pair;
  ccs : gmap Z comp_channel;
  cqs : gmap Z comp_queue;
  disp : dispatcher;
  perf : PerfCounters.t;  (* the dispatcher's perf_logger *)
  socks : gmap Z socket;
  workers : gmap Z worker;
}.

Definition set_world (v : W) (r : mach) : mach :=
  mkMach v (heap r) (ram r) (mrs r) (log_id r) (mm r) (ib r) (qps r) (ccs r) (cqs r) (disp r) (perf r)
    (socks r) (workers r).
Definition set_heap (v : gmap Z chunk) (r : mach) : mach :=
  mkMach (world r) v (ram r) (mrs r) (log_id r) (mm r) (ib r) (qps r) (ccs r) (cqs r) (disp r) (perf
    r) (socks r) (workers r).
Definition set_ram (v : gmap Z Z) (r : mach) : mach :=
  mkMach (world r) (heap r) v (mrs r) (log_id r) (mm r) (ib r) (qps r) (ccs r) (cqs r) (disp r) (perf
    r) (socks r) (workers r).
Definition set_mrs (v : gmap Z Z) (r : mach) : mach :=
  mkMach (world r) (heap r) (ram r) v (log_id r) (mm r) (ib r) (qps r) (ccs r) (cqs r) (disp r) (perf
    r) (socks r) (workers r).
Definition set_log_id (v : Z) (r : mach) : mach :=
  mkMach (world r) (heap r) (ram r) (mrs r) v (mm r) (ib r) (qps r) (ccs r) (cqs r) (disp r) (perf r)
    (socks r) (workers r).
Definition set_mm (v : memory_manager) (r : mach) : mach :=
  mkMach (world r) (heap r) (ram r) (mrs r) (log_id r) v (ib r) (qps r) (ccs r) (cqs r) (disp r) (perf
    r) (socks r) (workers r).
Definition set_ib (v : infiniband) (r : mach) : mach :=
  mkMach (world r) (heap r) (ram r) (mrs r) (log_id r) (mm r) v (qps r) (ccs r) (cqs r) (disp r) (perf
    r) (socks r) (workers r).
Definition set_qps (v : gmap Z queue_pair) (r : mach) : mach :=
  mkMach (world r) (heap r) (ram r) (mrs r) (log_id r) (mm r) (ib r) v (ccs r) (cqs r) (disp r) (perf
    r) (socks r) (workers r).
Definition set_ccs (v : gmap Z comp_channel) (r : mach) : mach :=
  mkMach (world r) (heap r) (ram r) (mrs r) (log_id r) (mm r) (ib r) (qps r) v (cqs r) (disp r) (perf
    r) (socks r) (workers r).
Definition set_cqs (v : gmap Z comp_queue) (r : mach) : mach :=
  mkMach (world r) (heap r) (ram r) (mrs r) (log_id r) (mm r) (ib r) (qps r) (ccs r) v (disp r) (perf
    r) (socks r) (workers r).
Definition set_disp (v : dispatcher) (r : mach) : mach :=
  mkMach (world r) (heap r) (ram r) (mrs r) (log_id r) (mm r) (ib r) (qps r) (ccs r) (cqs r) v (perf
    r) (socks r) (workers r).
Definition set_perf (v : PerfCounters.t) (r : mach) : mach :=
  mkMach (world r) (heap r) (ram r) (mrs r) (log_id r) (mm r) (ib r) (qps r) (ccs r) (cqs r) (disp r)
    v (socks r) (workers r).
Definition set_socks (v : gmap Z socket) (r : mach) : mach :=
  mkMach (world r) (heap r) (ram r) (mrs r) (log_id r) (mm r) (ib r) (qps r) (ccs r) (cqs r) (disp r)
    (perf r) v (workers r).
Definition set_workers (v : gmap Z worker) (r : mach) : mach :=
  mkMach (world r) (heap r) (ram r) (mrs r) (log_id r) (mm r) (ib r) (qps r) (ccs r) (cqs r) (disp r)
    (perf r) (socks r) v.

(** ** Operations on the machine *)

Abbreviation M := (ST mach).

(** *** Access to the objects *)

Definition get_chunk (c : Z) : M chunk := h ← gets heap; the (h !! c).
Definition put_chunk (c : Z) (k : chunk) : M unit := modify (λ m, set_heap (<[c := k]> (heap m)) m).
Definition on_chunk (c : Z) (f : chunk → chunk) : M unit := k ← get_chunk c; put_chunk c (f k).

Definition get_qp (q : Z) : M queue_pair := t ← gets qps; the (t !! q).
Definition put_qp (q : Z) (k : queue_pair) : M unit := modify (λ m, set_qps (<[q := k]> (qps m)) m).
Definition on_qp (q : Z) (f : queue_pair → queue_pair) : M unit := k ← get_qp q; put_qp q (f k).

Definition get_sock (s : Z) : M socket := t ← gets socks; the (t !! s).
Definition put_sock (s : Z) (k : socket) : M unit := modify (λ m, set_socks (<[s := k]> (socks m)) m).
Definition on_sock (s : Z) (f : socket → socket) : M unit := k ← get_sock s; put_sock s (f k).

Definition get_worker (w : Z) : M worker := t ← gets workers; the (t !! w).
Definition put_worker (w : Z) (k : worker) : M unit :=
  modify (λ m, set_workers (<[w := k]> (workers m)) m).
Definition on_worker (w : Z) (f : worker → worker) : M unit := k ← get_worker w; put_worker w (f k).

Definition on_disp (f : dispatcher → dispatcher) : M unit := modify (λ m, set_disp (f (disp m)) m).
Definition on_ib (f : infiniband → infiniband) : M unit := modify (λ m, set_ib (f (ib m)) m).
Definition on_mm (f : memory_manager → memory_manager) : M unit := modify (λ m, set_mm (f (mm m)) m).

(** [perf_logger->inc(i, amt)] and the like, on the dispatcher's logger *)
Definition perf_inc (i amt : Z) : M unit :=
  p ← gets perf; p' ← lift (PerfCounters.inc p i amt); modify (set_perf p').
Definition perf_dec (i amt : Z) : M unit :=
  p ← gets perf; p' ← lift (PerfCounters.dec p i amt); modify (set_perf p').
Definition perf_set (i amt : Z) : M unit :=
  p ← gets perf; p' ← lift (PerfCounters.set p i amt); modify (set_perf p').

(** [worker->perf_logger->inc] and [dec] *)
Definition wperf_inc (w i amt : Z) : M unit :=
  k ← get_worker w; p' ← lift (PerfCounters.inc (worker_perf k) i amt);
  put_worker w (set_worker_perf p' k).
Definition wperf_dec (w i amt : Z) : M unit :=
  k ← get_worker w; p' ← lift (PerfCounters.dec (worker_perf k) i amt);
  put_worker w (set_worker_perf p' k).

Definition sys `{World W} (c : call) : M (Z * list Z) := λ m,
  let '(r, out, w') := sys_call c (world m) in Ret (r, out, set_world w' m).
Definition sysret `{World W} (c : call) : M Z := r ← sys c; mret r.1.
Definition errno `{World W} : M Z := w ← gets world; mret (get_errno w).

Lemma wlp_sys `{World W} c Q m :
  (∀ r out w', sys_call c (world m) = (r, out, w') → Q (r, out) (set_world w' m)) → wlp (sys c) Q m.
Proof. unfold wlp, sys. destruct (sys_call c (world m)) as [[r out] w'] eqn:E. naive_solver. Qed.
Lemma wp_sys `{World W} c Q m :
  (∀ r out w', sys_call c (world m) = (r, out, w') → Q (r, out) (set_world w' m)) → wp (sys c) Q m.
Proof. unfold wp, sys. destruct (sys_call c (world m)) as [[r out] w'] eqn:E. naive_solver. Qed.
Lemma frame_sys `{World W} {T} (f : mach → T) c : (∀ w m, f (set_world w m) = f m) → frame f (sys c).
Proof. intros Hw m [r out] m'. unfold sys. destruct (sys_call _ _) as [[??]?]. intros [= _ _ <-]. apply Hw. Qed.

End machine.

Arguments mach : clear implicits.
Arguments memory_manager : clear implicits.
Abbreviation M W P := (ST (mach W P)).

Ltac frame_env_step ::= apply frame_sys; intros; reflexivity.
Ltac wlp_env_step ::= match goal with |- wlp (sys _) _ _ => apply wlp_sys; intros end.

(** ** A concrete instance: a scripted world and a pool kept as a list *)

Record list_pool := mkPool { lp_free : list Z; lp_stride : Z; lp_count : nat }.

Definition list_pool_malloc (S : Type) (user : Z → S → outcome (Z * S)) (p : list_pool) (s : S) :
    outcome (Z * list_pool * S) :=
  match lp_free p with
  | c :: l => Ret (c, mkPool l (lp_stride p) (lp_count p), s)
  | [] =>
    match user (lp_stride p * Z.of_nat (lp_count p)) s with
    | Crash e => Crash e
    | Ret (b, s') =>
      if b =? 0 then Ret (0, p, s') else
      match (λ i, b + lp_stride p * Z.of_nat i) <$> seq 0 (lp_count p) with
      | [] => Ret (0, p, s')
      | c :: l => Ret (c, mkPool l (lp_stride p) (lp_count p), s')
      end
    end
  end.

#[global] Instance list_boost_pool : BoostPool list_pool := {|
  store_empty p := bool_decide (lp_free p = []);
  store_malloc p :=
    match lp_free p with
    | [] => (0, p)
    | c :: l => (c, mkPool l (lp_stride p) (lp_count p))
    end;
  pool_malloc := list_pool_malloc;
  pool_free c p := mkPool (c :: lp_free p) (lp_stride p) (lp_count p);
|}.

Definition logger_of (o : outcome PerfCounters.t) : PerfCounters.t :=
  match o with Ret p => p | Crash _ => PerfCounters.create "" 0 1 end.

(** The machine after an operation *)
Definition run {W P A} (x : M W P A) (m : mach W P) : mach W P :=
  match x m with Ret (_, m') => m' | Crash _ => m end.

Definition disp0 : dispatcher := mkDisp false 0 0 0 0 false 0 ∅ [] 0 [] 0.
Definition ib0 : infiniband := mkIB 0 0 0 0 None 0 false false [].

(** The machine before anything was created *)
Definition mach0 (replies : list (Z * list Z * Z)) : mach script list_pool :=
  mkMach (mkScript replies 0 []) ∅ ∅ ∅ 0 (mkMM None 0 false false (mkPool [] 184 4)) ib0 ∅ ∅ ∅ disp0
    (logger_of RDMADispatcher_logger) ∅ ∅.

Definition config0 : config :=
  mkConfig false false false [] 0 0 0 1 128 4 1024 8 128 true 0 false 0 0 0 0.
