(* ===== verification/Memory.v ===== *)
(** * Registered memory (src/core/Infiniband.h and .cc, [MemoryManager])

    Chunks, the cluster of send buffers, the allocator behind the receive
    pool, and huge pages. A chunk is a header of 56 bytes; [data] is a
    zero-length array at offset 40, before [my_log_id] and [request_id]. *)

From S2P Require Import Prelude State Buffers PerfCounters Machine.

(** ** Bytes *)

Fixpoint load_bytes (mem : gmap Z Z) (a : Z) (n : nat) : option (list Z) :=
  match n with
  | O => Some []
  | S n => x ← mem !! a; l ← load_bytes mem (a + 1) n; Some (x :: l)
  end.

Fixpoint store_bytes (a : Z) (l : list Z) (mem : gmap Z Z) : gmap Z Z :=
  match l with [] => mem | x :: l => <[a := x]> (store_bytes (a + 1) l mem) end.

(** A little-endian 8-byte word *)
Definition le64 (v : Z) : list Z := (λ i, v / 256 ^ Z.of_nat i mod 256) <$> seq 0 8.
Fixpoint of_le (l : list Z) : Z := match l with [] => 0 | x :: l => x + 256 * of_le l end.

Definition sizeof_Chunk : Z := 56.
Definition offsetof_data : Z := 40.
Definition sizeof_mem_info : Z := 24.
Definition HUGE_PAGE_SIZE_2MB : Z := 2097152.
Definition ALIGN_TO_PAGE_2MB (x : Z) : Z :=
  Z.land (u64 (x + (HUGE_PAGE_SIZE_2MB - 1))) (u64 (- HUGE_PAGE_SIZE_2MB)).
Definition IBV_ACCESS_LOCAL_WRITE : Z := 1.
Definition IBV_ACCESS_REMOTE_WRITE : Z := 2.
Definition MAP_FAILED : Z := -1.

(** ** Cluster queries: no state is touched *)

Module Cluster.

Definition get_chunk_by_buffer (k : cluster) (c : Z) : outcome Z :=
  if buffer_size k =? 0 then Crash Undefined else
  Ret (chunk_base k + sizeof_Chunk * u32 (Z.quot (c - base k) (buffer_size k))).

Definition is_my_buffer (k : cluster) (c : Z) : bool := (c >=? base k) && (c <? end_ k).

Definition is_valid_chunk (k : cluster) (c : Z) : bool :=
  (c >=? chunk_base k) && (c <? chunk_base k + sizeof_Chunk * num_chunk k).

End Cluster.

Section memory.
Context {W P : Type} `{!World W, !BoostPool P} (cfg : config).
Abbreviation M := (M W P).

(** [memcpy(dst, src, n)] *)
Definition memcpy (dst src n : Z) : M unit :=
  mem ← gets ram;
  l ← the (load_bytes mem src (Z.to_nat n));
  modify (set_ram (store_bytes dst l mem)).

(** ** Chunk *)

(** The constructor; the two trailing fields are not initialised by it and are
    zero here. *)
Definition Chunk_new (mr bytes buffer offset bound lkey : Z) : chunk :=
  mkChunk mr 0 lkey bytes offset bound buffer 0 0.

Definition Chunk_get_size (k : chunk) : Z := u32 (ck_bound k - ck_offset k).

Definition Chunk_prepare_read (c b : Z) : M unit :=
  on_chunk c (λ k, set_ck_bound b (set_ck_offset 0 k)).

Definition Chunk_read (c buf len : Z) : M Z :=
  k ← get_chunk c;
  let left := Chunk_get_size k in
  let read_len := if left <=? len then left else len in
  memcpy buf (ck_buffer k + ck_offset k) read_len ;;
  on_chunk c (λ k, set_ck_offset (u32 (ck_offset k + read_len)) k) ;;
  mret read_len.

Definition Chunk_zero_read (c buf len : Z) : M Z :=
  k ← get_chunk c;
  let left := Chunk_get_size k in
  let read_len := if left <=? len then left else len in
  on_chunk c (λ k, set_ck_offset (u32 (ck_offset k + read_len)) k) ;;
  mret read_len.

Definition Chunk_write (c buf len : Z) : M Z :=
  k ← get_chunk c;
  let room := u32 (ck_bytes k - ck_offset k) in
  let write_len := if room <=? len then room else len in
  memcpy (ck_buffer k + ck_offset k) buf write_len ;;
  on_chunk c (λ k, set_ck_offset (u32 (ck_offset k + write_len)) k) ;;
  mret write_len.

Definition Chunk_zero_fill (c len : Z) : M Z :=
  k ← get_chunk c;
  let room := u32 (ck_bytes k - ck_offset k) in
  let write_len := if room <=? len then room else len in
  on_chunk c (λ k, set_ck_offset (u32 (ck_offset k + write_len)) k) ;;
  mret write_len.

Definition Chunk_full (k : chunk) : bool := ck_offset k =? ck_bytes k.

Definition Chunk_reset_read_chunk (c : Z) : M unit :=
  on_chunk c (λ k, set_ck_bound 0 (set_ck_offset 0 k)).

Definition Chunk_reset_write_chunk (c : Z) : M unit :=
  on_chunk c (λ k, set_ck_bound (ck_bytes k) (set_ck_offset 0 k)).

Definition Chunk_set_qp (c q : Z) : M unit := on_chunk c (set_ck_qp q).
Definition Chunk_clear_qp (c : Z) : M unit := Chunk_set_qp c 0.

(** ** Huge pages *)

Definition huge_pages_malloc (size : Z) : M Z :=
  let real_size := u64 (ALIGN_TO_PAGE_2MB size + HUGE_PAGE_SIZE_2MB) in
  ptr ← sysret (c_mmap real_size);
  if ptr =? MAP_FAILED then
    ptr ← sysret (c_malloc real_size);
    if ptr =? 0 then mret 0 else
    modify (λ m, set_ram (store_bytes ptr (le64 0) (ram m)) m) ;;
    mret (ptr + HUGE_PAGE_SIZE_2MB)
  else
    modify (λ m, set_ram (store_bytes ptr (le64 real_size) (ram m)) m) ;;
    mret (ptr + HUGE_PAGE_SIZE_2MB).

Definition huge_pages_free (ptr : Z) : M unit :=
  if ptr =? 0 then mret tt else
  let real_ptr := ptr - HUGE_PAGE_SIZE_2MB in
  mem ← gets ram;
  l ← the (load_bytes mem real_ptr 8);
  let real_size := of_le l in
  assert (real_size mod HUGE_PAGE_SIZE_2MB =? 0) ;;
  if negb (real_size =? 0) then sysret (c_munmap real_ptr real_size) ;; mret tt
  else sysret (c_free real_ptr) ;; mret tt.

Definition MemoryManager_malloc (size : Z) : M Z :=
  if m_rdma_enable_hugepage_ cfg then huge_pages_malloc size else sysret (c_malloc size).

Definition MemoryManager_free (ptr : Z) : M unit :=
  if m_rdma_enable_hugepage_ cfg then huge_pages_free ptr else sysret (c_free ptr) ;; mret tt.

(** [ibv_reg_mr]: the handle, 0 on failure, and its lkey *)
Definition reg_mr (addr len : Z) : M Z :=
  pd ← gets (λ m, ib_pd (ib m));
  '(mr, out) ← sys (ibv_reg_mr pd addr len (Z.lor IBV_ACCESS_REMOTE_WRITE IBV_ACCESS_LOCAL_WRITE));
  (if mr =? 0 then mret tt
   else modify (λ m, set_mrs (<[mr := default 0 (out !! 0%nat)]> (mrs m)) m)) ;;
  mret mr.

(** A read of [mr->lkey] *)
Definition mr_lkey (mr : Z) : M Z := t ← gets mrs; the (t !! mr).

(** ** Cluster *)

(** The loop of [Cluster::fill]; [fuel] bounds the rounds. *)
Fixpoint fill_loop (fuel : nat) (mr lkey bs bse bytes offset chunk : Z) (acc : list Z) : M (list Z) :=
  if offset <? bytes then
    match fuel with
    | O => fail NoFuel
    | S fuel =>
      put_chunk chunk (Chunk_new mr bs (bse + offset) 0 bs lkey) ;;
      fill_loop fuel mr lkey bs bse bytes (u32 (offset + bs)) (chunk + sizeof_Chunk) (acc ++ [chunk])
    end
  else mret acc.

Definition Cluster_new (s : Z) : cluster := mkCluster s 0 [] 0 0 0.

Definition Cluster_fill (k : cluster) (num : Z) : M cluster :=
  assert (base k =? 0) ;;
  let bytes := u32 (buffer_size k * num) in
  bse ← MemoryManager_malloc bytes;
  assert (negb (bse =? 0)) ;;
  cb ← sysret (c_malloc (sizeof_Chunk * num));
  (if (cb =? 0) && (0 <? num) then fail Undefined else mret tt) ;;
  mr ← reg_mr bse bytes;
  assert (negb (mr =? 0)) ;;
  lkey ← mr_lkey mr;
  free ← fill_loop (Z.to_nat num) mr lkey (buffer_size k) bse bytes 0 cb (free_chunks k);
  mret (mkCluster (buffer_size k) num free bse (bse + bytes) cb).

(** The destructor *)
Definition Cluster_delete (k : cluster) : M unit :=
  c ← get_chunk (chunk_base k);
  r ← sysret (ibv_dereg_mr (ck_mr c));
  assert (r =? 0) ;;
  modify (λ m, set_mrs (delete (ck_mr c) (mrs m)) m) ;;
  sysret (c_free (chunk_base k)) ;;
  MemoryManager_free (base k).

Definition get_cluster : M cluster := o ← gets (λ m, send_buffers (mm m)); the o.
Definition put_cluster (k : cluster) : M unit := on_mm (set_send_buffers (Some k)).

Definition Cluster_take_back (ck : list Z) : M unit :=
  for_each ck (λ c,
    Chunk_reset_write_chunk c ;;
    k ← get_cluster;
    put_cluster (set_free_chunks (free_chunks k ++ [c]) k)).

(** The inner loop of [get_chunks]: every chunk of the output vector is given
    the next log id. *)
Definition relabel (chunks : list Z) : M unit :=
  for_each chunks (λ c,
    id ← gets log_id;
    on_chunk c (set_ck_my_log_id id) ;;
    modify (set_log_id (u64 (id + 1)))).

(** The outer loop *)
Fixpoint get_loop (r : nat) (chunks : list Z) : M (list Z) :=
  match r with
  | O => mret chunks
  | S r =>
    k ← get_cluster;
    '(c, rest) ← the (pop_back (free_chunks k));
    let chunks := chunks ++ [c] in
    relabel chunks ;;
    put_cluster (set_free_chunks rest k) ;;
    get_loop r chunks
  end.

Definition Cluster_get_chunks (chunks : list Z) (num : Z) : M (Z * list Z) :=
  k ← get_cluster;
  if num >? Z.of_nat (length (free_chunks k)) then fail KAbort else
  chunks ← get_loop (Z.to_nat num) chunks;
  mret (s32 num, chunks).

Definition Cluster_get_buffers (chunks : list Z) (block_size : Z) : M (Z * list Z) :=
  k ← get_cluster;
  (if buffer_size k =? 0 then fail Undefined else mret tt) ;;
  let chunk_buffer_number := u32 (u64 (u64 (block_size + buffer_size k) - 1) / buffer_size k) in
  if chunk_buffer_number >? Z.of_nat (length (free_chunks k)) then fail KAbort else
  let chunk_buffer_number :=
    if Z.of_nat (length (free_chunks k)) <? chunk_buffer_number
    then u32 (Z.of_nat (length (free_chunks k))) else chunk_buffer_number in
  chunks ← get_loop (Z.to_nat chunk_buffer_number) chunks;
  mret (s32 chunk_buffer_number, chunks).

(** ** Receive pool *)

Definition MemPoolContext_can_alloc (nbufs : Z) : M bool :=
  if m_rdma_receive_buffers_bytes_ cfg <=? 0 then mret true else
  n ← gets (λ m, n_bufs_allocated (mm m));
  mret (negb (u32 (n + u32 nbufs) >? m_rdma_receive_buffers_bytes_ cfg)).

(** [perf_logger->set(l_msgr_rdma_rx_bufs_total, ...)] *)
Definition MemPoolContext_set_stat_logger : M unit :=
  on_mm (set_stat_logger true) ;;
  n ← gets (λ m, n_bufs_allocated (mm m));
  perf_set l_msgr_rdma_rx_bufs_total n.

Definition MemPoolContext_update_stats (nbufs : Z) : M unit :=
  on_mm (λ x, set_n_bufs_allocated (u32 (n_bufs_allocated x + nbufs)) x) ;;
  b ← gets (λ m, stat_logger (mm m));
  if negb b then mret tt else
  if nbufs >? 0 then perf_inc l_msgr_rdma_rx_bufs_total nbufs
  else perf_dec l_msgr_rdma_rx_bufs_total (- nbufs).

Fixpoint init_chunks (n : nat) (mr lkey bytes stride chunk : Z) : M unit :=
  match n with
  | O => mret tt
  | S n =>
    put_chunk chunk (Chunk_new mr bytes (chunk + offsetof_data) 0 0 lkey) ;;
    init_chunks n mr lkey bytes stride (chunk + stride)
  end.

(** The header [mem_info] of a block: [mr], [ctx] and the 4 bytes of [nbufs]
    before [chunks]; there is one [MemPoolContext], written 1. *)
Definition put_mem_info (minfo mr nbufs : Z) : M unit :=
  modify (λ m, set_ram (store_bytes minfo (le64 mr ++ le64 1 ++ take 4 (le64 nbufs)) (ram m)) m).

Definition PoolAllocator_malloc (block_size : Z) : M Z :=
  g ← gets (λ m, g_ctx (mm m));
  assert g ;;
  let chunk_buffer_size := sizeof_Chunk + m_rdma_buffer_size_bytes_ cfg in
  let chunk_buffer_number := block_size / chunk_buffer_size in
  ok ← MemPoolContext_can_alloc chunk_buffer_number;
  if negb ok then mret 0 else
  minfo ← MemoryManager_malloc (block_size + sizeof_mem_info);
  if minfo =? 0 then mret 0 else
  mr ← reg_mr (minfo + sizeof_mem_info) block_size;
  if mr =? 0 then MemoryManager_free minfo ;; mret 0 else
  put_mem_info minfo mr (u32 chunk_buffer_number) ;;
  MemPoolContext_update_stats (s32 chunk_buffer_number) ;;
  lkey ← mr_lkey mr;
  init_chunks (Z.to_nat chunk_buffer_number) mr lkey (m_rdma_buffer_size_bytes_ cfg)
    chunk_buffer_size (minfo + sizeof_mem_info) ;;
  mret (minfo + sizeof_mem_info).

Definition PoolAllocator_free (block : Z) : M unit :=
  let minfo := block - sizeof_mem_info in
  mem ← gets ram;
  l ← the (load_bytes mem minfo 20);
  let mr := of_le (take 8 l) in
  let nbufs := of_le (drop 16 l) in
  MemPoolContext_update_stats (s32 (- nbufs)) ;;
  sysret (ibv_dereg_mr mr) ;;
  modify (λ m, set_mrs (delete mr (mrs m)) m) ;;
  MemoryManager_free minfo.

(** [scope_guard]: [f] runs when the scope of [body] is left. *)
Definition scope_guard {A} (f : M unit) (body : M A) : M A := a ← body; f ;; mret a.

(** [g_ctx] is set while [func] runs; there is one context, so it is a flag. *)
Definition with_context {A} (func : M A) : M A :=
  on_mm (set_g_ctx true) ;; scope_guard (on_mm (set_g_ctx false)) func.

(** [boost::pool<PoolAllocator>::malloc] on the receive pool *)
Definition slow_malloc : M Z :=
  with_context
    (p ← gets (λ m, rxbuf_pool (mm m));
     '(c, p') ← (λ m, match pool_malloc _ PoolAllocator_malloc p m with
                      | Ret (c, p', m') => Ret ((c, p'), m')
                      | Crash e => Crash e
                      end);
     on_mm (set_rxbuf_pool p') ;; mret c).

Definition mem_pool_malloc : M Z :=
  p ← gets (λ m, rxbuf_pool (mm m));
  if negb (store_empty p) then
    let '(c, p') := store_malloc p in
    on_mm (set_rxbuf_pool p') ;; mret c
  else slow_malloc.

(** ** MemoryManager *)

(** The initial number of chunks of the receive pool *)
Definition rx_pool_next_size : Z :=
  if 0 <? m_rdma_receive_buffers_bytes_ cfg then
    if m_rdma_receive_buffers_bytes_ cfg <? u32 (2 * m_rdma_receive_queue_len_ cfg)
    then m_rdma_receive_buffers_bytes_ cfg else u32 (2 * m_rdma_receive_queue_len_ cfg)
  else u32 (2 * m_rdma_receive_queue_len_ cfg).

Definition create_tx_pool (size tx_num : Z) : M unit :=
  k ← Cluster_fill (Cluster_new size) tx_num; put_cluster k.

Definition return_tx (chunks : list Z) : M unit := Cluster_take_back chunks.
Definition get_send_buffers_by_size (c : list Z) (bytes : Z) : M (Z * list Z) :=
  Cluster_get_buffers c bytes.
Definition get_send_buffers_by_num (c : list Z) (num : Z) : M (Z * list Z) :=
  Cluster_get_chunks c num.

Definition is_tx_buffer (c : Z) : M bool := k ← get_cluster; mret (Cluster.is_my_buffer k c).
Definition is_valid_chunk (c : Z) : M bool := k ← get_cluster; mret (Cluster.is_valid_chunk k c).
Definition get_tx_chunk_by_buffer (c : Z) : M Z :=
  k ← get_cluster; lift (Cluster.get_chunk_by_buffer k c).
Definition get_tx_buffer_size : M Z := k ← get_cluster; mret (buffer_size k).

Definition get_rx_buffer : M Z := mem_pool_malloc.
Definition release_rx_buffer (c : Z) : M unit :=
  Chunk_clear_qp c ;;
  on_mm (λ x, set_rxbuf_pool (pool_free c (rxbuf_pool x)) x).

Definition MemoryManager_delete : M unit :=
  o ← gets (λ m, send_buffers (mm m));
  match o with Some k => Cluster_delete k | None => mret tt end.

End memory.

(** ** Bytes: lemmas *)

Lemma store_bytes_out l : ∀ a mem x, x < a ∨ a + Z.of_nat (length l) ≤ x →
  store_bytes a l mem !! x = mem !! x.
Proof.
  induction l as [|y l IH]; intros a mem x Hx; simpl in *; [done|].
  rewrite lookup_insert_ne by lia. apply IH. lia.
Qed.

Lemma load_bytes_ext mem mem' n : ∀ a,
  (∀ x, a ≤ x < a + Z.of_nat n → mem' !! x = mem !! x) → load_bytes mem' a n = load_bytes mem a n.
Proof.
  induction n as [|n IH]; intros a Hx; simpl; [done|].
  rewrite Hx by lia. rewrite IH; [done|]. intros x ?. apply Hx. lia.
Qed.

Lemma load_store l : ∀ a mem, load_bytes (store_bytes a l mem) a (length l) = Some l.
Proof.
  induction l as [|x l IH]; intros a mem; simpl; [done|].
  rewrite lookup_insert_eq. simpl.
  erewrite load_bytes_ext; [by rewrite IH|].
  intros y Hy. rewrite lookup_insert_ne by lia. done.
Qed.

Lemma load_bytes_length mem n : ∀ a l, load_bytes mem a n = Some l → length l = n.
Proof.
  induction n as [|n IH]; intros a l; simpl; [by intros [= <-]|].
  destruct (mem !! a); [|done]. simpl. destruct (load_bytes mem (a + 1) n) eqn:E; [|done].
  simpl. intros [= <-]. simpl. f_equal. by eapply IH.
Qed.

(** A prefix of what can be read can be read. *)
Lemma load_bytes_take mem k : ∀ n a l, load_bytes mem a n = Some l → (k ≤ n)%nat →
  load_bytes mem a k = Some (take k l).
Proof.
  induction k as [|k IH]; intros n a l Hl Hk; simpl; [done|].
  destruct n as [|n]; [lia|]. simpl in Hl. destruct (mem !! a); [|done]. simpl in *.
  destruct (load_bytes mem (a + 1) n) as [l'|] eqn:E; [|done]. simpl in *. injection Hl as <-.
  simpl. rewrite (IH n (a + 1) l'); [done|done|lia].
Qed.

Lemma load_store_disjoint mem a b l n :
  a + Z.of_nat n ≤ b ∨ b + Z.of_nat (length l) ≤ a →
  load_bytes (store_bytes b l mem) a n = load_bytes mem a n.
Proof. intros H. apply load_bytes_ext. intros x Hx. apply store_bytes_out. lia. Qed.

(** ** Chunks: lemmas *)

Section memory_facts.
Context {W P : Type} `{!World W, !BoostPool P} (cfg : config).
Implicit Types m : mach W P.

Lemma get_chunk_eq m c k : heap m !! c = Some k → get_chunk c m = Ret (k, m).
Proof. intros H. unfold get_chunk, mbind, ST_bind, gets. by rewrite H. Qed.

Lemma on_chunk_eq m c k f : heap m !! c = Some k →
  on_chunk c f m = Ret (tt, set_heap (<[c := f k]> (heap m)) m).
Proof. intros H. unfold on_chunk. unfold mbind, ST_bind. by rewrite (get_chunk_eq _ _ _ H). Qed.

Lemma memcpy_eq m dst src n l : load_bytes (ram m) src (Z.to_nat n) = Some l →
  memcpy dst src n m = Ret (tt, set_ram (store_bytes dst l (ram m)) m).
Proof. intros H. unfold memcpy, mbind, ST_bind, gets. by rewrite H. Qed.

(** [Chunk::write] on a chunk with room for the data *)
Lemma Chunk_write_eq m c k src l :
  heap m !! c = Some k → load_bytes (ram m) src (length l) = Some l →
  0 ≤ ck_offset k → ck_offset k + Z.of_nat (length l) ≤ ck_bytes k → is_u32 (ck_bytes k) →
  Chunk_write c src (Z.of_nat (length l)) m =
    Ret (Z.of_nat (length l),
         set_heap (<[c := set_ck_offset (ck_offset k + Z.of_nat (length l)) k]> (heap m))
           (set_ram (store_bytes (ck_buffer k + ck_offset k) l (ram m)) m)).
Proof.
  intros Hk Hl H0 Hroom Hb. unfold Chunk_write, mbind, ST_bind. rewrite (get_chunk_eq _ _ _ Hk).
  rewrite (u32_small (ck_bytes k - _)) by word_lia.
  assert ((if ck_bytes k - ck_offset k <=? Z.of_nat (length l)
           then ck_bytes k - ck_offset k else Z.of_nat (length l)) = Z.of_nat (length l)) as ->
    by (destruct (Z.leb_spec (ck_bytes k - ck_offset k) (Z.of_nat (length l))); lia).
  rewrite (memcpy_eq _ _ _ _ l) by (by rewrite Nat2Z.id).
  rewrite (on_chunk_eq _ _ k) by done. rewrite u32_small by word_lia. done.
Qed.

Lemma Chunk_read_eq m c k dst n l :
  heap m !! c = Some k → 0 ≤ ck_offset k → ck_offset k ≤ ck_bound k → is_u32 (ck_bound k) →
  n = Z.min (ck_bound k - ck_offset k) n →
  load_bytes (ram m) (ck_buffer k + ck_offset k) (Z.to_nat n) = Some l →
  Chunk_read c dst n m =
    Ret (n, set_heap (<[c := set_ck_offset (u32 (ck_offset k + n)) k]> (heap m))
              (set_ram (store_bytes dst l (ram m)) m)).
Proof.
  intros Hk H0 Hle Hb Hn Hl. unfold Chunk_read, mbind, ST_bind. rewrite (get_chunk_eq _ _ _ Hk).
  unfold Chunk_get_size. rewrite (u32_small (ck_bound k - _)) by word_lia.
  assert ((if ck_bound k - ck_offset k <=? n then ck_bound k - ck_offset k else n) = n) as ->
    by (destruct (Z.leb_spec (ck_bound k - ck_offset k) n); lia).
  rewrite (memcpy_eq _ _ _ _ l) by done. by rewrite (on_chunk_eq _ _ k) by done.
Qed.

End memory_facts.

(** What [Chunk::write] puts in a chunk, [Chunk::prepare_read] and
    [Chunk::read] give back: writing [l] into an empty chunk that has room for
    it, preparing the chunk for [length l] bytes and reading up to [n] of them
    stores the first [n] bytes of [l] at the destination and returns [n]. *)
Theorem chunk_write_read {W P} (m : mach W P) c k src dst l (n : nat) :
  heap m !! c = Some k → ck_offset k = 0 → is_u32 (ck_bytes k) →
  Z.of_nat (length l) ≤ ck_bytes k → load_bytes (ram m) src (length l) = Some l →
  (n ≤ length l)%nat →
  ∃ m', (Chunk_write c src (Z.of_nat (length l)) ;;
         Chunk_prepare_read c (Z.of_nat (length l)) ;;
         Chunk_read c dst (Z.of_nat n)) m = Ret (Z.of_nat n, m') ∧
        load_bytes (ram m') dst n = Some (take n l) ∧
        heap m' !! c = Some (set_ck_bound (Z.of_nat (length l)) (set_ck_offset (Z.of_nat n) k)).
Proof.
  intros Hk Hoff Hb Hlen Hl Hn. unfold mbind, ST_bind.
  erewrite Chunk_write_eq by (eauto; lia). rewrite Hoff, !Z.add_0_l, !Z.add_0_r.
  unfold Chunk_prepare_read. erewrite on_chunk_eq by apply lookup_insert_eq. simpl.
  erewrite (Chunk_read_eq _ c); simpl.
  2: apply lookup_insert_eq. 2-5: simpl; word_lia.
  2: { simpl. rewrite Z.add_0_r, Nat2Z.id. eapply load_bytes_take; [apply load_store|done]. }
  eexists; split; [done|]. simpl. split.
  - rewrite <-(length_take_le l n) at 2 by done. apply load_store.
  - rewrite lookup_insert_eq. unfold set_ck_offset, set_ck_bound. simpl. rewrite u32_small by word_lia.
    done.
Qed.

(** A chunk at 1000 whose buffer starts at 5000, and three bytes at 7000 *)
Definition demo_chunk : chunk := Chunk_new 1 16 5000 0 16 77.
Definition demo_mem : mach script list_pool :=
  set_ram (store_bytes 7000 [10; 20; 30] ∅) (set_heap {[ 1000 := demo_chunk ]} (mach0 [])).

Lemma chunk_write_read_witness :
  ∃ m', (Chunk_write 1000 7000 3 ;; Chunk_prepare_read 1000 3 ;; Chunk_read 1000 8000 2) demo_mem
          = Ret (2, m') ∧ load_bytes (ram m') 8000 2 = Some [10; 20].
Proof.
  destruct (chunk_write_read demo_mem 1000 demo_chunk 7000 8000 [10; 20; 30] 2) as (m'&?&?&_);
    [done|done|by vm_compute|by vm_compute|done|simpl; lia|eauto].
Defined.

(** ** Cluster: layout *)

Section fill_facts.
Context {W P : Type} `{!World W, !BoostPool P} (cfg : config).
Implicit Types m : mach W P.

Lemma fill_loop_spec mr lkey bs bse bytes : 0 < bs → is_u32 bytes → ∀ n m i chunk acc,
  0 ≤ i → bytes = bs * (i + Z.of_nat n) →
  ∃ m', fill_loop n mr lkey bs bse bytes (bs * i) chunk acc m =
      Ret (acc ++ ((λ j, chunk + sizeof_Chunk * Z.of_nat j) <$> seq 0 n), m') ∧
    (∀ j, 0 ≤ j < Z.of_nat n →
      heap m' !! (chunk + sizeof_Chunk * j) = Some (Chunk_new mr bs (bse + bs * (i + j)) 0 bs lkey)) ∧
    (∀ x, x < chunk → heap m' !! x = heap m !! x) ∧
    m' = set_heap (heap m') m.
Proof.
  intros Hbs Hu. induction n as [|n IH]; intros m i chunk acc Hi Hbytes.
  - simpl. destruct (Z.ltb_spec (bs * i) bytes); [lia|]. exists m. rewrite app_nil_r.
    split_and!; [done|lia|done|by destruct m].
  - cbn [fill_loop]. destruct (Z.ltb_spec (bs * i) bytes); [|nia].
    unfold mbind, ST_bind, put_chunk at 1, modify at 1.
    replace (u32 (bs * i + bs)) with (bs * (i + 1)) by (rewrite u32_small; unfold is_u32 in *; nia).
    destruct (IH (set_heap (<[chunk := Chunk_new mr bs (bse + bs * i) 0 bs lkey]> (heap m)) m)
                (i + 1) (chunk + sizeof_Chunk) (acc ++ [chunk])) as (m'&Heq&Hin&Hout&Hfr); [lia..|].
    exists m'. unfold sizeof_Chunk in *. split_and!.
    + rewrite Heq. f_equal. f_equal. rewrite <-app_assoc. f_equal. simpl. f_equal; [lia|].
      rewrite <-fmap_S_seq, <-list_fmap_compose. apply list_fmap_ext. intros ? j _. simpl. lia.
    + intros j Hj. destruct (decide (j = 0)) as [->|].
      * rewrite Z.mul_0_r, !Z.add_0_r, Hout by lia. apply lookup_insert_eq.
      * replace (chunk + 56 * j) with (chunk + 56 + 56 * (j - 1)) by lia.
        rewrite Hin by lia. do 2 f_equal. lia.
    + intros x Hx. rewrite Hout by lia. simpl. rewrite lookup_insert_ne by lia. done.
    + rewrite Hfr at 1. by destruct m.
Qed.

Lemma reg_mr_eq m addr len mr out w' :
  sys_call (ibv_reg_mr (ib_pd (ib m)) addr len 3) (world m) = (mr, out, w') → mr ≠ 0 →
  reg_mr addr len m =
    Ret (mr, set_mrs (<[mr := default 0 (out !! 0%nat)]> (mrs m)) (set_world w' m)).
Proof.
  intros Hsys Hne. unfold reg_mr, mbind, ST_bind, gets, sys.
  change (Z.lor IBV_ACCESS_REMOTE_WRITE IBV_ACCESS_LOCAL_WRITE) with 3. rewrite Hsys.
  destruct (Z.eqb_spec mr 0); done.
Qed.

End fill_facts.

(** [Cluster::fill] carves the registered region into [num] chunks: when
    the product [buffer_size * num] fits 32 bits and the allocations and the
    registration succeed, the call returns, chunk [j] is the header at
    [chunk_base + 56 j], its buffer is the [j]-th piece of [buffer_size] bytes
    of the region, it is empty, carries the region's lkey, and the free list
    holds exactly these chunks in order. *)
Theorem fill_layout {W P} `{!World W} (cfg : config) (m : mach W P) k num b cb mr lkey
    o1 o2 o3 w1 w2 w3 :
  m_rdma_enable_hugepage_ cfg = false →
  base k = 0 → free_chunks k = [] → 0 < buffer_size k → 0 ≤ num →
  buffer_size k * num < 4294967296 →
  sys_call (c_malloc (buffer_size k * num)) (world m) = (b, o1, w1) → b ≠ 0 →
  sys_call (c_malloc (sizeof_Chunk * num)) w1 = (cb, o2, w2) → cb ≠ 0 →
  sys_call (ibv_reg_mr (ib_pd (ib m)) b (buffer_size k * num) 3) w2 = (mr, lkey :: o3, w3) → mr ≠ 0 →
  ∃ m', Cluster_fill cfg k num m =
      Ret (mkCluster (buffer_size k) num
             ((λ j, cb + sizeof_Chunk * Z.of_nat j) <$> seq 0 (Z.to_nat num))
             b (b + buffer_size k * num) cb, m') ∧
    mrs m' !! mr = Some lkey ∧
    ∀ j, 0 ≤ j < num →
      heap m' !! (cb + sizeof_Chunk * j) =
        Some (Chunk_new mr (buffer_size k) (b + buffer_size k * j) 0 (buffer_size k) lkey).
Proof.
  intros Hhp Hbase Hfree Hbs Hnum Hlt H1 Hb H2 Hcb H3 Hmr.
  unfold Cluster_fill. rewrite Hbase, Z.eqb_refl. rewrite (u32_small (_ * _)) by (unfold is_u32; nia).
  unfold MemoryManager_malloc. rewrite Hhp.
  unfold sysret, assert, sys, mbind, ST_bind, mret, ST_ret. rewrite H1. simpl.
  destruct (Z.eqb_spec b 0); [done|]. simpl. rewrite H2. simpl.
  destruct (Z.eqb_spec cb 0); [done|]. simpl.
  erewrite reg_mr_eq by done. simpl. destruct (Z.eqb_spec mr 0); [done|]. simpl.
  unfold mr_lkey, mbind, ST_bind, gets. simpl. rewrite lookup_insert_eq. simpl. rewrite Hfree.
  match goal with |- context [fill_loop _ _ _ _ _ _ _ _ _ ?m1] =>
    destruct (fill_loop_spec mr lkey (buffer_size k) b (buffer_size k * num) Hbs
      ltac:(unfold is_u32; nia) (Z.to_nat num) m1 0 cb []) as (m'&Heq&Hin&_&Hfr); [lia|nia|] end.
  rewrite Z.mul_0_r in Heq. rewrite Heq. exists m'. split_and!; [done| |].
  - rewrite Hfr. simpl. apply lookup_insert_eq.
  - intros j Hj. rewrite Hin by lia. done.
Qed.

Lemma fill_layout_witness :
  ∃ m', Cluster_fill config0 (Cluster_new 16) 2 (mach0 [(4096, [], 0); (8192, [], 0); (7, [77], 0)])
    = Ret (mkCluster 16 2 [8192; 8248] 4096 4128 8192, m') ∧
    heap m' !! 8248 = Some (Chunk_new 7 16 4112 0 16 77).
Proof.
  destruct (fill_layout config0 (mach0 [(4096, [], 0); (8192, [], 0); (7, [77], 0)])
    (Cluster_new 16) 2 4096 8192 7 77 [] [] []
    (mkScript [(8192, [], 0); (7, [77], 0)] 0 [c_malloc 32])
    (mkScript [(7, [77], 0)] 0 [c_malloc 32; c_malloc 112])
    (mkScript [] 0 [c_malloc 32; c_malloc 112; ibv_reg_mr 0 4096 32 3])) as (m'&Heq&_&Hj);
    [done|done|done|simpl; lia|lia|simpl; lia|done|done|done|done|done|done|].
  exists m'. split; [exact Heq|]. apply (Hj 1). lia.
Defined.

(** On a cluster laid out as [fill] lays it out, an address inside a
    buffer is recognised as a transmit buffer, and [get_chunk_by_buffer] maps
    it to the chunk whose buffer contains it; that chunk is a valid chunk. An
    address outside the region is not recognised. *)
Theorem get_chunk_by_buffer_inverse k j d :
  0 < buffer_size k → end_ k = base k + buffer_size k * num_chunk k →
  num_chunk k < 4294967296 → 0 ≤ j < num_chunk k → 0 ≤ d < buffer_size k →
  let c := base k + buffer_size k * j + d in
  Cluster.is_my_buffer k c = true ∧
  Cluster.get_chunk_by_buffer k c = Ret (chunk_base k + sizeof_Chunk * j) ∧
  Cluster.is_valid_chunk k (chunk_base k + sizeof_Chunk * j) = true ∧
  Cluster.is_my_buffer k (base k - 1) = false ∧ Cluster.is_my_buffer k (end_ k) = false.
Proof.
  intros Hbs Hend Hn Hj Hd c.
  unfold Cluster.is_my_buffer, Cluster.get_chunk_by_buffer, Cluster.is_valid_chunk, sizeof_Chunk.
  rewrite !andb_true_iff, !andb_false_iff, !Z.geb_le, !Z.ltb_lt, !Z.ltb_ge.
  destruct (Z.eqb_spec (buffer_size k) 0); [lia|].
  replace (c - base k) with (buffer_size k * j + d) by lia.
  rewrite Z.quot_div_nonneg by nia.
  rewrite (Z.mul_comm (buffer_size k)), Z.div_add_l, Z.div_small, Z.add_0_r, u32_small
    by (unfold is_u32; lia).
  split_and!; try done; nia.
Qed.

Lemma get_chunk_by_buffer_inverse_witness :
  Cluster.get_chunk_by_buffer (mkCluster 16 2 [] 4096 4128 8192) 4117 = Ret 8248.
Proof.
  destruct (get_chunk_by_buffer_inverse (mkCluster 16 2 [] 4096 4128 8192) 1 5)
    as (_&H&_); simpl; [lia..|]. exact H.
Defined.

(** ** Cluster: handing out and taking back *)

Section pool_facts.
Context {W P : Type}.
Implicit Types m : mach W P.

Lemma get_cluster_eq m k : send_buffers (mm m) = Some k → get_cluster m = Ret (k, m).
Proof. intros H. unfold get_cluster, mbind, ST_bind, gets. by rewrite H. Qed.

Lemma relabel_spec l : ∀ m, is_u64 (log_id m) → NoDup l → Forall (λ c, is_Some (heap m !! c)) l →
  ∃ m', relabel l m = Ret (tt, m') ∧
    log_id m' = u64 (log_id m + Z.of_nat (length l)) ∧
    (∀ j c, l !! j = Some c → ∃ k, heap m !! c = Some k ∧
       heap m' !! c = Some (set_ck_my_log_id (u64 (log_id m + Z.of_nat j)) k)) ∧
    (∀ c, c ∉ l → heap m' !! c = heap m !! c) ∧
    m' = set_log_id (log_id m') (set_heap (heap m') m).
Proof.
  induction l as [|c l IH]; intros m Hu Hnd Hall.
  - exists m. simpl. rewrite Z.add_0_r, u64_small by done.
    split_and!; [done|done|done|done|by destruct m].
  - apply NoDup_cons in Hnd as [Hc Hnd]. apply Forall_cons in Hall as [[k Hk] Hall].
    set (m1 := set_log_id (u64 (log_id m + 1))
                 (set_heap (<[c := set_ck_my_log_id (log_id m) k]> (heap m)) m)).
    destruct (IH m1) as (m'&Heq&Hlog&Hin&Hout&Hfr); [apply u64_range|done| |].
    { eapply Forall_impl; [exact Hall|]. intros x Hx. simpl.
      destruct (decide (x = c)) as [->|]; [rewrite lookup_insert_eq; eauto|].
      by rewrite lookup_insert_ne. }
    exists m'. split_and!.
    + unfold relabel in *. cbn [for_each]. unfold mbind, ST_bind at 1, gets at 1.
      unfold mbind, ST_bind. rewrite (on_chunk_eq _ _ _ _ Hk). unfold modify at 1. exact Heq.
    + rewrite Hlog. simpl. rewrite u64_add_l. f_equal. lia.
    + intros [|j] c' Hj; simpl in Hj.
      * injection Hj as <-. exists k. split; [done|]. rewrite Hout by done. simpl.
        rewrite lookup_insert_eq, Z.add_0_r, u64_small by done. done.
      * destruct (Hin j c' Hj) as (k'&Hk'&Hres). assert (c' ≠ c).
        { intros ->. apply Hc. by eapply list_elem_of_lookup_2. }
        simpl in Hk'. rewrite lookup_insert_ne in Hk' by done. exists k'. split; [done|].
        rewrite Hres. do 2 f_equal. simpl. rewrite u64_add_l. f_equal. lia.
    + intros x Hx. rewrite Hout by set_solver. simpl. rewrite lookup_insert_ne by set_solver. done.
    + rewrite Hfr at 1. by destruct m.
Qed.

Lemma take_back_spec ck : ∀ m k, send_buffers (mm m) = Some k →
  Forall (λ c, is_Some (heap m !! c)) ck →
  ∃ m', Cluster_take_back ck m = Ret (tt, m') ∧
    send_buffers (mm m') = Some (set_free_chunks (free_chunks k ++ ck) k) ∧
    (∀ c x, heap m !! c = Some x → heap m' !! c =
       Some (if decide (c ∈ ck) then set_ck_bound (ck_bytes x) (set_ck_offset 0 x) else x)) ∧
    (∀ c, heap m !! c = None → heap m' !! c = None).
Proof.
  induction ck as [|c ck IH]; intros m k Hk Hall.
  - exists m. simpl. split_and!; [done|rewrite Hk, app_nil_r; by destruct k|done|done].
  - apply Forall_cons in Hall as [[x Hx] Hall].
    set (k1 := set_free_chunks (free_chunks k ++ [c]) k).
    set (h1 := <[c := set_ck_bound (ck_bytes x) (set_ck_offset 0 x)]> (heap m)).
    set (m1 := set_mm (set_send_buffers (Some k1) (mm m)) (set_heap h1 m)).
    destruct (IH m1 k1) as (m'&Heq&Hsb&Hin&Hnone); [done| |].
    { eapply Forall_impl; [exact Hall|]. intros y Hy. simpl. unfold h1.
      destruct (decide (y = c)) as [->|]; [rewrite lookup_insert_eq; eauto|].
      by rewrite lookup_insert_ne. }
    exists m'. split_and!.
    + unfold Cluster_take_back in *. cbn [for_each]. unfold mbind, ST_bind.
      unfold Chunk_reset_write_chunk. rewrite (on_chunk_eq _ _ _ _ Hx).
      rewrite (get_cluster_eq _ k) by done. exact Heq.
    + rewrite Hsb. simpl. by rewrite <-app_assoc.
    + intros c' y Hy. destruct (decide (c' = c)) as [->|Hne].
      * assert (y = x) as -> by congruence. rewrite (Hin c _ (lookup_insert_eq _ _ _)).
        destruct (decide (c ∈ ck)); rewrite decide_True by set_solver; done.
      * rewrite (Hin c' y) by (simpl; unfold h1; by rewrite lookup_insert_ne).
        destruct (decide (c' ∈ ck)); [rewrite decide_True by set_solver|rewrite decide_False by set_solver];
          done.
    + intros c' Hc'. apply Hnone. simpl. unfold h1. rewrite lookup_insert_ne; [done|congruence].
Qed.

(** How many log ids [get_loop r] uses when [c] chunks are there already *)
Fixpoint labels (c r : nat) : nat :=
  match r with O => 0 | S r => S c + labels (S c) r end%nat.

Lemma labels_closed r : ∀ c, (2 * labels c r = r * (2 * c + r + 1))%nat.
Proof. induction r as [|r IH]; intros c; cbn [labels]; [lia|]. specialize (IH (S c)). lia. Qed.

Lemma get_loop_spec r : ∀ chunks m k keep got,
  send_buffers (mm m) = Some k → free_chunks k = keep ++ reverse got → length got = r →
  NoDup (chunks ++ got) → Forall (λ c, is_Some (heap m !! c)) (chunks ++ got) → is_u64 (log_id m) →
  ∃ m', get_loop r chunks m = Ret (chunks ++ got, m') ∧
    send_buffers (mm m') = Some (set_free_chunks keep k) ∧
    log_id m' = u64 (log_id m + Z.of_nat (labels (length chunks) r)) ∧
    (∀ j c, (chunks ++ got) !! j = Some c → ∃ x, heap m !! c = Some x ∧
       heap m' !! c = Some (set_ck_my_log_id
         (if decide (r = 0%nat) then ck_my_log_id x
          else u64 (log_id m' - Z.of_nat (length (chunks ++ got)) + Z.of_nat j)) x)) ∧
    (∀ c, c ∉ chunks ++ got → heap m' !! c = heap m !! c).
Proof.
  induction r as [|r IH]; intros chunks m k keep got Hk Hfree Hlen Hnd Hall Hu.
  - destruct got; [|done]. exists m. rewrite app_nil_r in *. simpl in *.
    rewrite Z.add_0_r, u64_small by done.
    split_and!; [done|rewrite Hk, <-Hfree; by destruct k|done| |done].
    intros j c Hj. pose proof (Forall_lookup_1 _ _ _ _ Hall Hj) as [x Hx].
    exists x. split; [done|]. by destruct x.
  - destruct got as [|c got]; [done|]. simpl in Hlen. injection Hlen as Hlen.
    rewrite reverse_cons, app_assoc in Hfree.
    assert (chunks ++ c :: got = (chunks ++ [c]) ++ got) as Happ by by rewrite <-app_assoc.
    rewrite Happ in *. pose proof Hall as Hall0. apply Forall_app in Hall as [Hall1 Hall2].
    apply NoDup_app in Hnd as Hnd'. destruct Hnd' as (Hnd1&_&_).
    destruct (relabel_spec (chunks ++ [c]) m Hu Hnd1 Hall1) as (m1&Heq1&Hlog1&Hin1&Hout1&Hfr1).
    set (k1 := set_free_chunks (keep ++ reverse got) k).
    set (m2 := set_mm (set_send_buffers (Some k1) (mm m1)) m1).
    destruct (IH (chunks ++ [c]) m2 k1 keep got) as (m'&Heq&Hsb&Hlog&Hin&Hout); try done.
    { eapply Forall_impl; [exact Hall0|]. intros x Hx. simpl.
      destruct (decide (x ∈ chunks ++ [c])) as [[j Hj]%list_elem_of_lookup|Hnin];
        [destruct (Hin1 j x Hj) as (?&?&->); eauto|]. by rewrite Hout1. }
    { simpl. rewrite Hlog1. apply u64_range. }
    exists m'. split_and!.
    + cbn [get_loop]. unfold mbind, ST_bind. rewrite (get_cluster_eq _ _ Hk), Hfree, pop_back_snoc.
      simpl. rewrite Heq1. unfold put_cluster, on_mm, modify. exact Heq.
    + by rewrite Hsb.
    + rewrite Hlog. simpl. rewrite Hlog1, u64_add_l, length_app. simpl. f_equal.
      replace (length chunks + 1)%nat with (S (length chunks)) by lia. lia.
    + intros j x Hj. destruct (Hin j x Hj) as (y&Hy&Hid). simpl in Hy.
      destruct (decide (x ∈ chunks ++ [c])) as [[j' Hj']%list_elem_of_lookup|Hnin].
      * destruct (Hin1 j' x Hj') as (z&Hz&Hz'). rewrite Hz' in Hy. injection Hy as <-.
        exists z. split; [done|]. rewrite Hid.
        destruct (decide (r = 0%nat)) as [->|Hr]; [|done].
        destruct got; [|done]. rewrite app_nil_r in *.
        assert (j' = j) as -> by by eapply NoDup_lookup.
        simpl. unfold set_ck_my_log_id. simpl. do 2 f_equal.
        rewrite Hlog. simpl. rewrite Hlog1, length_app. simpl. word_lia.
      * rewrite Hout1 in Hy by done. exists y. split; [done|]. rewrite Hid.
        destruct (decide (r = 0%nat)) as [->|Hr]; [|done].
        destruct got; [|done]. exfalso. apply Hnin. rewrite app_nil_r in Hj.
        by eapply list_elem_of_lookup_2.
    + intros x Hx. rewrite Hout by done. simpl. apply Hout1. set_solver.
Qed.
End pool_facts.

(** [Cluster::get_chunks] on every branch. More chunks than are free:
    abort. Otherwise the call returns, hands out the last [num] chunks of the
    free list, last first, keeps the rest free, gives the chunks of the output
    vector consecutive log ids in their order, and advances the global log id
    by [num (2 c + num + 1) / 2] where [c] chunks were in the vector before. *)
Theorem get_chunks_spec {W P} (m : mach W P) k chunks num :
  send_buffers (mm m) = Some k → 0 ≤ num → is_u64 (log_id m) →
  NoDup (chunks ++ free_chunks k) → Forall (λ c, is_Some (heap m !! c)) (chunks ++ free_chunks k) →
  let free := free_chunks k in
  let n := Z.to_nat num in
  if num >? Z.of_nat (length free) then Cluster_get_chunks chunks num m = Crash KAbort else
  ∃ m', Cluster_get_chunks chunks num m =
      Ret ((s32 num, chunks ++ reverse (drop (length free - n) free)), m') ∧
    send_buffers (mm m') = Some (set_free_chunks (take (length free - n) free) k) ∧
    (∃ used, log_id m' = u64 (log_id m + used) ∧ 2 * used = num * (2 * Z.of_nat (length chunks) + num + 1)) ∧
    (0 < num → ∀ j c, (chunks ++ reverse (drop (length free - n) free)) !! j = Some c →
       ∃ x, heap m' !! c = Some x ∧
         ck_my_log_id x = u64 (log_id m' - (Z.of_nat (length chunks) + num) + Z.of_nat j)).
Proof.
  intros Hk Hnum Hu Hnd Hall free n. unfold Cluster_get_chunks, mbind, ST_bind.
  rewrite (get_cluster_eq _ _ Hk). fold free.
  destruct (Z.gtb_spec num (Z.of_nat (length free))) as [|Hle]; [done|].
  set (got := reverse (drop (length free - n) free)).
  assert (free ≡ₚ take (length free - n) free ++ got) as Hperm.
  { unfold got. rewrite reverse_Permutation. by rewrite take_drop. }
  assert (length got = n) as Hlen by (unfold got; rewrite length_reverse, length_drop; lia).
  assert (chunks ++ free ≡ₚ (chunks ++ got) ++ take (length free - n) free) as Hp2.
  { rewrite Hperm at 1. rewrite <-app_assoc. f_equiv. apply Permutation_app_comm. }
  fold free in Hnd, Hall. rewrite Hp2 in Hnd, Hall.
  apply NoDup_app in Hnd as (Hnd&_&_). apply Forall_app in Hall as [Hall _].
  destruct (get_loop_spec n chunks m k (take (length free - n) free) got)
    as (m'&Heq&Hsb&Hlog&Hin&_); try done.
  { unfold got. rewrite reverse_involutive. symmetry. apply take_drop. }
  change (Z.to_nat num) with n. rewrite Heq. exists m'. split_and!; [done|done| |].
  - eexists; split; [exact Hlog|]. pose proof (labels_closed n (length chunks)). lia.
  - intros Hpos j c Hj. destruct (Hin j c Hj) as (x&_&Hx). eexists; split; [exact Hx|].
    simpl. rewrite decide_False by lia. f_equal. rewrite length_app. lia.
Qed.

(** A pool of two chunks, both free *)
Definition demo_pool : mach script list_pool :=
  set_mm (mkMM (Some (mkCluster 16 2 [8192; 8248] 4096 4128 8192)) 0 false false (mkPool [] 0 0))
    (set_heap {[ 8192 := Chunk_new 7 16 4096 0 16 77; 8248 := Chunk_new 7 16 4112 0 16 77 ]} (mach0 [])).

Lemma get_chunks_spec_witness :
  ∃ m', Cluster_get_chunks [] 2 demo_pool = Ret ((2, [8248; 8192]), m') ∧
    send_buffers (mm m') = Some (mkCluster 16 2 [] 4096 4128 8192).
Proof.
  destruct (get_chunks_spec demo_pool (mkCluster 16 2 [8192; 8248] 4096 4128 8192) [] 2)
    as (m'&Heq&Hsb&_); [done|lia|by vm_compute| | |].
  - refine (bool_decide_unpack _ _). by vm_compute.
  - repeat constructor; vm_compute; eauto.
  - exists m'. split; [exact Heq|exact Hsb].
Defined.

(** *** The pool under any sequence of operations

    Chunks leave the pool with [get_chunks] or [get_buffers] into a fresh
    vector, are written by their holder, and come back with [take_back]. The
    second component lists the chunks in the hands of clients. *)

Inductive pool_step {W P} : mach W P * list Z → mach W P * list Z → Prop :=
| pool_get_chunks m out num r got m' :
    0 ≤ num → Cluster_get_chunks [] num m = Ret ((r, got), m') →
    pool_step (m, out) (m', got ++ out)
| pool_get_buffers m out bytes r got m' :
    0 ≤ bytes → Cluster_get_buffers [] bytes m = Ret ((r, got), m') →
    pool_step (m, out) (m', got ++ out)
| pool_use m out c x off bound :
    c ∈ out → heap m !! c = Some x →
    pool_step (m, out) (set_heap (<[c := set_ck_bound bound (set_ck_offset off x)]> (heap m)) m, out)
| pool_take_back m out ck rest m' :
    out ≡ₚ ck ++ rest → Cluster_take_back ck m = Ret (tt, m') →
    pool_step (m, out) (m', rest).

(** [all] are the chunks of the pool; the free ones are empty and bounded by
    their size. *)
Definition pool_inv {W P} (all : list Z) (s : mach W P * list Z) : Prop :=
  let '(m, out) := s in
  is_u64 (log_id m) ∧ NoDup all ∧ Forall (λ c, is_Some (heap m !! c)) all ∧
  ∃ k, send_buffers (mm m) = Some k ∧ free_chunks k ++ out ≡ₚ all ∧
    ∀ c x, c ∈ free_chunks k → heap m !! c = Some x → ck_offset x = 0 ∧ ck_bound x = ck_bytes x.

Section conservation.
Context {W P : Type}.
Implicit Types m : mach W P.

Lemma get_loop_inv all n m out k got m' :
  pool_inv all (m, out) → send_buffers (mm m) = Some k → (n ≤ length (free_chunks k))%nat →
  get_loop n [] m = Ret (got, m') → pool_inv all (m', got ++ out).
Proof.
  intros (Hu&Hnd&Hall&k'&Hk'&Hp&Hreset) Hk Hn Heq. rewrite Hk in Hk'. injection Hk' as <-.
  set (free := free_chunks k) in *. set (g := reverse (drop (length free - n) free)).
  assert (free ≡ₚ take (length free - n) free ++ g) as Hperm.
  { unfold g. rewrite reverse_Permutation. by rewrite take_drop. }
  assert (NoDup g ∧ Forall (λ c, is_Some (heap m !! c)) g) as [Hndg Hallg].
  { rewrite <-Hp, Hperm in Hnd, Hall. rewrite <-app_assoc in Hnd, Hall.
    apply NoDup_app in Hnd as (_&_&Hnd). apply NoDup_app in Hnd as (Hnd&_&_).
    apply Forall_app in Hall as [_ Hall]. apply Forall_app in Hall as [Hall _]. done. }
  destruct (get_loop_spec n [] m k (take (length free - n) free) g)
    as (m1&Heq1&Hsb&Hlog&Hin&Hout); try done.
  { unfold g. rewrite reverse_involutive. symmetry. apply take_drop. }
  { unfold g. rewrite length_reverse, length_drop. fold free in Hn. lia. }
  rewrite Heq in Heq1. injection Heq1 as -> ->. simpl in *.
  assert (∀ c x, heap m !! c = Some x → ∃ id, heap m1 !! c = Some (set_ck_my_log_id id x)) as Hh.
  { intros c x Hx. destruct (decide (c ∈ g)) as [[j Hj]%list_elem_of_lookup|Hc].
    - destruct (Hin j c Hj) as (y&Hy&Hres). simplify_eq. eauto.
    - rewrite Hout, Hx by done. exists (ck_my_log_id x). by destruct x. }
  split_and!; [rewrite Hlog; apply u64_range|done| |].
  - eapply Forall_impl; [exact Hall|]. intros c [x Hx]. destruct (Hh c x Hx) as [? ->]. eauto.
  - eexists; split; [exact Hsb|]. simpl. split.
    + etrans; [|exact Hp]. rewrite app_assoc. by rewrite <-Hperm.
    + intros c x Hc Hx. assert (c ∈ free) as Hcf by (rewrite Hperm; set_solver).
      assert (is_Some (heap m !! c)) as [y Hy].
      { apply (proj1 (Forall_forall _ _) Hall). rewrite <-Hp. set_solver. }
      destruct (Hh c y Hy) as [id Hid]. rewrite Hid in Hx. injection Hx as <-. simpl.
      by apply (Hreset c).
Qed.

Lemma pool_inv_step all (s s' : mach W P * list Z) : pool_inv all s → pool_step s s' → pool_inv all s'.
Proof.
  intros Hinv Hstep. pose proof Hinv as Hinv0. destruct Hstep as
    [m out num r got m' Hnum Heq|m out bytes r got m' Hb Heq|m out c x off bound Hc Hx|m out ck rest m' Hp Heq];
    destruct Hinv0 as (Hu&Hnd&Hall&k&Hk&Hperm&Hreset).
  - unfold Cluster_get_chunks, mbind, ST_bind in Heq. rewrite (get_cluster_eq _ _ Hk) in Heq.
    destruct (Z.gtb_spec num (Z.of_nat (length (free_chunks k)))); [done|].
    destruct (get_loop (Z.to_nat num) [] m) as [[g m1]|] eqn:E; [|done].
    injection Heq as <- <- <-. eapply get_loop_inv; [done|done| |done]. lia.
  - unfold Cluster_get_buffers, mbind, ST_bind in Heq. rewrite (get_cluster_eq _ _ Hk) in Heq.
    destruct (buffer_size k =? 0); [done|]. simpl in Heq.
    set (cbn := u32 (u64 (u64 (bytes + buffer_size k) - 1) / buffer_size k)) in *.
    destruct (Z.gtb_spec cbn (Z.of_nat (length (free_chunks k)))); [done|].
    destruct (Z.ltb_spec (Z.of_nat (length (free_chunks k))) cbn); [lia|].
    destruct (get_loop (Z.to_nat cbn) [] m) as [[g m1]|] eqn:E; [|done].
    injection Heq as <- <- <-. eapply get_loop_inv; [done|done| |done]. lia.
  - split_and!; [done|done| |].
    + eapply Forall_impl; [exact Hall|]. intros y Hy. simpl.
      destruct (decide (y = c)) as [->|]; [rewrite lookup_insert_eq; eauto|by rewrite lookup_insert_ne].
    + exists k. split_and!; [done|done|]. intros y z Hy Hz. simpl in Hz.
      rewrite lookup_insert_ne in Hz; [by eapply Hreset|]. intros ->.
      rewrite <-Hperm in Hnd. apply NoDup_app in Hnd as (_&Hnd&_). by apply (Hnd y).
  - rewrite Hp in Hperm.
    destruct (take_back_spec ck m k Hk) as (m1&Heq1&Hsb&Hin&Hnone).
    { rewrite <-Hperm in Hall. apply Forall_app in Hall as [_ Hall]. by apply Forall_app in Hall as [Hall _]. }
    rewrite Heq in Heq1. injection Heq1 as ->.
    assert (log_id m1 = log_id m) as Hlog.
    { assert (frame log_id (Cluster_take_back (W := W) (P := P) ck)) as Hf by solve_frame.
      by apply Hf in Heq. }
    split_and!; [by rewrite Hlog|done| |].
    + eapply Forall_impl; [exact Hall|]. intros c [x Hx]. rewrite (Hin c x Hx). eauto.
    + eexists; split_and!; [exact Hsb|simpl; by rewrite <-app_assoc|].
      simpl. intros c x Hc Hx. assert (is_Some (heap m !! c)) as [y Hy].
      { apply (proj1 (Forall_forall _ _) Hall). rewrite <-Hperm. set_solver. }
      rewrite (Hin c y Hy) in Hx. injection Hx as <-.
      destruct (decide (c ∈ ck)); [done|]. apply (Hreset c); set_solver.
Qed.
End conservation.

(** C20: no send buffer is lost or handed out twice. Starting from a pool whose
    chunks [all] are all free and reset, after any sequence of [get_chunks],
    [get_buffers], uses by the holder and [take_back]s the free chunks and the
    chunks held by clients are together exactly [all], each once, and every
    free chunk is empty again with its bound at its size. *)
Theorem tx_pool_conserved {W P} (m m' : mach W P) all out :
  pool_inv all (m, []) → rtc pool_step (m, []) (m', out) →
  ∃ k, send_buffers (mm m') = Some k ∧ NoDup (free_chunks k ++ out) ∧ free_chunks k ++ out ≡ₚ all ∧
    ∀ c, c ∈ free_chunks k → ∃ x, heap m' !! c = Some x ∧ ck_offset x = 0 ∧ ck_bound x = ck_bytes x.
Proof.
  intros Hinv Hrun.
  pose proof (rtc_invariant pool_step (pool_inv all) _ _ (pool_inv_step all) Hinv Hrun)
    as (_&Hnd&Hall&k&Hk&Hp&Hreset).
  exists k. split_and!; [done|by rewrite Hp|done|]. intros c Hc.
  assert (is_Some (heap m' !! c)) as [x Hx].
  { apply (proj1 (Forall_forall _ _) Hall). rewrite <-Hp. set_solver. }
  exists x. split; [done|]. by eapply Hreset.
Qed.

Lemma tx_pool_conserved_witness :
  ∃ m' k, rtc pool_step (demo_pool, []) (m', [8248]) ∧
    send_buffers (mm m') = Some k ∧ free_chunks k ++ [8248] ≡ₚ [8192; 8248].
Proof.
  eexists. destruct (tx_pool_conserved demo_pool
    (match Cluster_get_chunks [] 1 demo_pool with Ret (_, m') => m' | _ => demo_pool end)
    [8192; 8248] [8248]) as (k&Hk&_&Hp&_).
  - split_and!; [by vm_compute|refine (bool_decide_unpack _ _); by vm_compute|repeat constructor; vm_compute; eauto|].
    eexists; split_and!; [done|by rewrite app_nil_r|].
    intros c x Hc Hx. simpl in Hc. rewrite !elem_of_cons, elem_of_nil in Hc.
    destruct Hc as [->|[->|[]]]; vm_compute in Hx; injection Hx as <-; done.
  - eapply rtc_once, (pool_get_chunks _ [] 1 1 [8248]); [lia|]. vm_compute. reflexivity.
  - exists k. split_and!; [|exact Hk|exact Hp].
    eapply rtc_once, (pool_get_chunks _ [] 1 1 [8248]); [lia|]. vm_compute. reflexivity.
Defined.

(** ** Huge pages *)

Lemma align_eq x : 0 ≤ x → x + HUGE_PAGE_SIZE_2MB - 1 < 18446744073709551616 →
  ALIGN_TO_PAGE_2MB x = HUGE_PAGE_SIZE_2MB * ((x + HUGE_PAGE_SIZE_2MB - 1) / HUGE_PAGE_SIZE_2MB).
Proof.
  unfold ALIGN_TO_PAGE_2MB, HUGE_PAGE_SIZE_2MB. intros H0 Hlt.
  set (y := x + 2097152 - 1) in *. replace (x + (2097152 - 1)) with y by lia.
  rewrite (u64_small y) by (unfold is_u64; lia).
  replace (u64 (- (2097152))) with (Z.ldiff (Z.ones 64) (Z.ones 21)) by reflexivity.
  assert (Z.land y (Z.ldiff (Z.ones 64) (Z.ones 21)) =
          Z.ldiff (Z.land y (Z.ones 64)) (Z.ones 21)) as ->.
  { apply Z.bits_inj'. intros n Hn. rewrite Z.land_spec, !Z.ldiff_spec, Z.land_spec.
    by rewrite andb_assoc. }
  rewrite Z.land_ones, Z.mod_small by lia. rewrite Z.ldiff_ones_r by lia.
  rewrite Z.shiftl_mul_pow2, Z.shiftr_div_pow2 by lia. change (2 ^ 21) with 2097152. lia.
Qed.

Lemma of_le_digits v n : ∀ s, 0 ≤ v →
  of_le ((λ i, v / 256 ^ Z.of_nat i mod 256) <$> seq s n) = v / 256 ^ Z.of_nat s mod 256 ^ Z.of_nat n.
Proof.
  induction n as [|n IH]; intros s Hv; [by rewrite Z.mod_1_r|].
  cbn [seq fmap list_fmap of_le]. unfold fmap in IH. rewrite IH by done.
  rewrite !Nat2Z.inj_succ, !Z.pow_succ_r by lia.
  rewrite (Z.mul_comm 256 (256 ^ Z.of_nat s)), <-Z.div_div by lia.
  rewrite Z.rem_mul_r by lia. done.
Qed.

Lemma of_le64 v : is_u64 v → of_le (le64 v) = v.
Proof.
  unfold is_u64. intros Hv. unfold le64. rewrite of_le_digits by lia.
  simpl Z.of_nat. rewrite Z.div_1_r. apply Z.mod_small. done.
Qed.

Section huge_facts.
Context {W P : Type} `{!World W}.
Implicit Types m : mach W P.

Lemma load_le64 (a v : Z) mem : load_bytes (store_bytes a (le64 v) mem) a 8 = Some (le64 v).
Proof. exact (load_store (le64 v) a mem). Qed.
End huge_facts.

(** [huge_pages_free] gives back exactly what [huge_pages_malloc] took:
    the pointer is one huge page past the mapping (or past the block of the
    fallback [malloc]), the size stored at its start is read back, and the
    free unmaps the whole mapping with its length, or frees the block; no
    assertion fails. *)
Theorem huge_pages_round_trip {W P} `{!World W} (m : mach W P) size :
  0 ≤ size → size + 2 * HUGE_PAGE_SIZE_2MB < 18446744073709551616 →
  let real_size := ALIGN_TO_PAGE_2MB size + HUGE_PAGE_SIZE_2MB in
  wp (p ← huge_pages_malloc size; huge_pages_free p) (λ _ m',
    ∃ ptr o1 w1, sys_call (c_mmap real_size) (world m) = (ptr, o1, w1) ∧
    if ptr =? MAP_FAILED then
      ∃ ptr2 o2 w2, sys_call (c_malloc real_size) w1 = (ptr2, o2, w2) ∧
        (ptr2 = 0 ∧ world m' = w2 ∨ ptr2 + HUGE_PAGE_SIZE_2MB = 0 ∨
         ∃ r o3, sys_call (c_free ptr2) w2 = (r, o3, world m'))
    else ptr + HUGE_PAGE_SIZE_2MB = 0 ∨
      ∃ r o3, sys_call (c_munmap ptr real_size) w1 = (r, o3, world m')) m.
Proof.
  intros H0 Hlt real_size. pose proof (align_eq size H0 ltac:(unfold HUGE_PAGE_SIZE_2MB in *; lia)) as Hal.
  assert (u64 (ALIGN_TO_PAGE_2MB size + HUGE_PAGE_SIZE_2MB) = real_size) as Hreal.
  { apply u64_small. unfold is_u64, real_size. rewrite Hal. unfold HUGE_PAGE_SIZE_2MB in *.
    Z.to_euclidean_division_equations; lia. }
  assert (real_size mod HUGE_PAGE_SIZE_2MB = 0) as Hmod.
  { unfold real_size. rewrite Hal. unfold HUGE_PAGE_SIZE_2MB in *.
    Z.to_euclidean_division_equations; lia. }
  assert (real_size ≠ 0) as Hne.
  { unfold real_size. rewrite Hal. unfold HUGE_PAGE_SIZE_2MB in *.
    Z.to_euclidean_division_equations; lia. }
  assert (is_u64 real_size) as Hu by (rewrite <-Hreal; apply u64_range).
  apply wp_bind. unfold huge_pages_malloc. rewrite Hreal. unfold sysret.
  apply wp_bind, wp_bind, wp_sys. intros ptr o1 w1 Hmmap. apply wp_ret. simpl fst.
  destruct (Z.eqb_spec ptr MAP_FAILED) as [->|Hp].
  - apply wp_bind, wp_bind, wp_sys. intros ptr2 o2 w2 Hmal. apply wp_ret. simpl fst. simpl in Hmal.
    destruct (Z.eqb_spec ptr2 0) as [->|].
    { apply wp_ret. simpl. do 3 eexists; split; [done|]. simpl. do 3 eexists; split; [done|]. by left. }
    apply wp_bind, wp_modify, wp_ret. unfold huge_pages_free.
    destruct (Z.eqb_spec (ptr2 + HUGE_PAGE_SIZE_2MB) 0) as [E|].
    { apply wp_ret. do 3 eexists; split; [done|]. simpl. do 3 eexists; split; [done|]. by right; left. }
    apply wp_bind, wp_gets, wp_bind. cbn [ram set_ram]. rewrite Z.add_simpl_r, load_le64.
    eapply wp_the; [done|]. rewrite of_le64 by done. apply wp_bind, wp_assert; [done|].
    apply wp_bind, wp_bind, wp_sys. simpl. intros r o3 w3 Hfree. apply wp_ret.
    do 3 eexists; split; [done|]. simpl. do 3 eexists; split; [done|]. right; right. eauto.
  - apply wp_bind, wp_modify, wp_ret. unfold huge_pages_free.
    destruct (Z.eqb_spec (ptr + HUGE_PAGE_SIZE_2MB) 0) as [E|].
    { apply wp_ret. do 3 eexists; split; [done|]. destruct (Z.eqb_spec ptr MAP_FAILED); [done|]. by left. }
    apply wp_bind, wp_gets, wp_bind. cbn [ram set_ram]. rewrite Z.add_simpl_r, load_le64.
    eapply wp_the; [done|]. rewrite of_le64 by done. apply wp_bind, wp_assert; [by rewrite Hmod|].
    destruct (Z.eqb_spec real_size 0); [done|]. simpl.
    apply wp_bind, wp_bind, wp_sys. simpl. intros r o3 w3 Hfree. apply wp_ret.
    do 3 eexists; split; [done|]. destruct (Z.eqb_spec ptr MAP_FAILED); [done|]. right. eauto.
Qed.

Lemma huge_pages_round_trip_witness :
  wp (p ← huge_pages_malloc 100; huge_pages_free p) (λ _ _, True) (mach0 [(1048576, [], 0)]).
Proof.
  eapply wp_mono; [apply huge_pages_round_trip; [lia|by vm_compute]|]. done.
Defined.

(** ** Receive blocks *)

(** The dispatcher's logger, as its constructor built it *)
Definition perf_ok {W P} (m : mach W P) : Prop :=
  u64_logger l_msgr_rdma_dispatcher_first l_msgr_rdma_dispatcher_last (perf m).

Section rx_facts.
Context {W P : Type} `{!World W, !BoostPool P} (cfg : config).
Implicit Types m : mach W P.

Lemma perf_inc_ok m i amt : perf_ok m →
  l_msgr_rdma_dispatcher_first < i < l_msgr_rdma_dispatcher_last →
  ∃ p, perf_inc i amt m = Ret (tt, set_perf p m) ∧ perf_ok (set_perf p m).
Proof.
  intros Hp Hi. destruct (u64_logger_inc _ _ _ i amt Hp Hi) as (p&Heq&Hok).
  exists p. split; [|exact Hok]. unfold perf_inc, mbind, ST_bind, gets, lift. by rewrite Heq.
Qed.
Lemma perf_dec_ok m i amt : perf_ok m →
  l_msgr_rdma_dispatcher_first < i < l_msgr_rdma_dispatcher_last →
  ∃ p, perf_dec i amt m = Ret (tt, set_perf p m) ∧ perf_ok (set_perf p m).
Proof.
  intros Hp Hi. destruct (u64_logger_dec _ _ _ i amt Hp Hi) as (p&Heq&Hok).
  exists p. split; [|exact Hok]. unfold perf_dec, mbind, ST_bind, gets, lift. by rewrite Heq.
Qed.
Lemma perf_set_ok m i amt : perf_ok m →
  l_msgr_rdma_dispatcher_first < i < l_msgr_rdma_dispatcher_last →
  ∃ p, perf_set i amt m = Ret (tt, set_perf p m) ∧ perf_ok (set_perf p m).
Proof.
  intros Hp Hi. destruct (u64_logger_set _ _ _ i amt Hp Hi) as (p&Heq&Hok).
  exists p. split; [|exact Hok]. unfold perf_set, mbind, ST_bind, gets, lift. by rewrite Heq.
Qed.

Lemma update_stats_ok m n : perf_ok m →
  ∃ p, MemPoolContext_update_stats n m =
    Ret (tt, set_perf p (set_mm (set_n_bufs_allocated (u32 (n_bufs_allocated (mm m) + n)) (mm m)) m)).
Proof.
  intros Hp. unfold MemPoolContext_update_stats, on_mm, mbind, ST_bind, modify, gets. simpl.
  destruct (stat_logger (mm m)); simpl; [|exists (perf m); by destruct m].
  set (m1 := set_mm _ m). assert (perf_ok m1) as Hp1 by exact Hp.
  destruct (Z.gtb_spec n 0).
  - destruct (perf_inc_ok m1 l_msgr_rdma_rx_bufs_total n Hp1) as (p&->&_);
      [unfold l_msgr_rdma_dispatcher_first, l_msgr_rdma_rx_bufs_total, l_msgr_rdma_dispatcher_last; lia|].
    by exists p.
  - destruct (perf_dec_ok m1 l_msgr_rdma_rx_bufs_total (- n) Hp1) as (p&->&_);
      [unfold l_msgr_rdma_dispatcher_first, l_msgr_rdma_rx_bufs_total, l_msgr_rdma_dispatcher_last; lia|].
    by exists p.
Qed.

Lemma can_alloc_eq m N : is_u32 N →
  0 ≤ n_bufs_allocated (mm m) → n_bufs_allocated (mm m) + N ≤ m_rdma_receive_buffers_bytes_ cfg →
  m_rdma_receive_buffers_bytes_ cfg < 4294967296 →
  MemPoolContext_can_alloc cfg N m = Ret (true, m).
Proof.
  intros HN H0 Hlim Hmax. unfold MemPoolContext_can_alloc.
  destruct (_ <=? 0); [done|]. unfold mbind, ST_bind, gets, mret, ST_ret.
  rewrite (u32_small N), u32_small by (unfold is_u32 in *; lia).
  by destruct (Z.gtb_spec (n_bufs_allocated (mm m) + N) (m_rdma_receive_buffers_bytes_ cfg)); [lia|].
Qed.

Lemma init_chunks_spec mr lkey bytes stride : 0 < stride → ∀ n m chunk,
  ∃ h, init_chunks n mr lkey bytes stride chunk m = Ret (tt, set_heap h m) ∧
    (∀ j, 0 ≤ j < Z.of_nat n → h !! (chunk + stride * j) =
       Some (Chunk_new mr bytes (chunk + stride * j + offsetof_data) 0 0 lkey)) ∧
    (∀ x, x < chunk → h !! x = heap m !! x).
Proof.
  intros Hs. induction n as [|n IH]; intros m chunk.
  - exists (heap m). split_and!; [simpl; by destruct m|lia|done].
  - cbn [init_chunks]. unfold mbind, ST_bind, put_chunk, modify.
    edestruct (IH (set_heap (<[chunk := Chunk_new mr bytes (chunk + offsetof_data) 0 0 lkey]> (heap m)) m)
                 (chunk + stride)) as (h&Heq&Hin&Hout).
    exists h. split_and!; [rewrite Heq; by destruct m| |].
    + intros j Hj. destruct (decide (j = 0)) as [->|].
      * rewrite Z.mul_0_r, Z.add_0_r, Hout by lia. apply lookup_insert_eq.
      * replace (chunk + stride * j) with (chunk + stride + stride * (j - 1)) by lia. apply Hin. lia.
    + intros x Hx. rewrite Hout by lia. simpl. apply lookup_insert_ne. lia.
Qed.
End rx_facts.

(** A block the receive pool asks [PoolAllocator::malloc] for: when the
    limit allows it and the allocation and registration succeed, the call
    returns the block, the block holds [N = block_size / (56 + buffer size)]
    chunks one stride apart whose buffers start right after their headers,
    every buffer ends before the next header and inside the block, no two
    buffers overlap, and the count of allocated buffers grows by [N]. *)
Theorem rx_block_layout {W P} `{!World W} (cfg : config) (m : mach W P) block_size
    minfo mr lkey o1 o2 w1 w2 :
  let bs := m_rdma_buffer_size_bytes_ cfg in
  let stride := sizeof_Chunk + bs in
  let N := block_size / stride in
  let block := minfo + sizeof_mem_info in
  g_ctx (mm m) = true → perf_ok m → m_rdma_enable_hugepage_ cfg = false → 0 ≤ bs → 0 ≤ block_size →
  0 ≤ n_bufs_allocated (mm m) → n_bufs_allocated (mm m) + N ≤ m_rdma_receive_buffers_bytes_ cfg →
  m_rdma_receive_buffers_bytes_ cfg < 2147483648 →
  sys_call (c_malloc (block_size + sizeof_mem_info)) (world m) = (minfo, o1, w1) → minfo ≠ 0 →
  sys_call (ibv_reg_mr (ib_pd (ib m)) block block_size 3) w1 = (mr, lkey :: o2, w2) → mr ≠ 0 →
  ∃ m', PoolAllocator_malloc cfg block_size m = Ret (block, m') ∧
    n_bufs_allocated (mm m') = n_bufs_allocated (mm m) + N ∧
    ∀ j, 0 ≤ j < N → ∃ x, heap m' !! (block + stride * j) = Some x ∧
      ck_buffer x = block + stride * j + offsetof_data ∧ ck_bytes x = bs ∧ ck_lkey x = lkey ∧
      ck_buffer x + ck_bytes x ≤ block + stride * (j + 1) ≤ block + block_size.
Proof.
  intros bs stride N block Hg Hperf Hhp Hbs Hblk Hn0 Hlim Hmax Hmal Hmi Hreg Hmr.
  assert (0 < stride) as Hst by (unfold stride, sizeof_Chunk; lia).
  assert (0 ≤ N) as HN by (apply Z.div_pos; lia).
  unfold PoolAllocator_malloc, mbind, ST_bind, gets. rewrite Hg. simpl.
  fold bs. fold stride. fold N. rewrite can_alloc_eq by (unfold is_u32; lia). simpl.
  unfold MemoryManager_malloc. rewrite Hhp. unfold sysret, sys, mbind, ST_bind, mret, ST_ret.
  rewrite Hmal. simpl. destruct (Z.eqb_spec minfo 0); [done|]. fold block.
  erewrite reg_mr_eq by done. destruct (Z.eqb_spec mr 0); [done|].
  unfold put_mem_info, modify.
  match goal with |- context [MemPoolContext_update_stats _ ?m1] =>
    destruct (update_stats_ok m1 (s32 N)) as [p ->]; [exact Hperf|] end.
  unfold mr_lkey, mbind, ST_bind, gets. cbn [mrs set_perf set_mm set_ram set_mrs set_world].
  rewrite lookup_insert_eq. simpl.
  match goal with |- context [init_chunks _ _ _ _ _ _ ?m1] =>
    destruct (init_chunks_spec mr lkey bs stride Hst (Z.to_nat N) m1 block) as (h&->&Hin&_) end.
  eexists; split; [done|]. simpl. split.
  - unfold s32. rewrite (u32_small N) by (unfold is_u32; lia).
    destruct (Z.ltb_spec N 2147483648); [|lia]. apply u32_small. unfold is_u32. lia.
  - intros j Hj. eexists; split; [apply Hin; lia|]. simpl.
    assert (stride * N ≤ block_size) by (unfold N; apply Z.mul_div_le; lia).
    unfold offsetof_data. split_and!; [done|done|done| |]; unfold stride, sizeof_Chunk in *; nia.
Qed.

(** 10 buffers of 128 bytes asked for, a block at 4096 *)
Definition demo_rx : mach script list_pool :=
  set_mm (mkMM None 0 true true (mkPool [] 184 4)) (mach0 [(4096, [], 0); (7, [77], 0)]).

Lemma demo_rx_perf : perf_ok demo_rx.
Proof.
  destruct RDMADispatcher_logger_ok as (p&Hp&Hok). unfold perf_ok.
  replace (perf demo_rx) with p; [exact Hok|].
  change (perf demo_rx) with (logger_of RDMADispatcher_logger). by rewrite Hp.
Qed.

Lemma rx_block_layout_witness :
  ∃ m', PoolAllocator_malloc config0 1840 demo_rx = Ret (4120, m') ∧ n_bufs_allocated (mm m') = 10.
Proof.
  destruct (rx_block_layout config0 demo_rx 1840 4096 7 77 [] []
    (mkScript [(7, [77], 0)] 0 [c_malloc 1864])
    (mkScript [] 0 [c_malloc 1864; ibv_reg_mr 0 4120 1840 3])
    eq_refl demo_rx_perf eq_refl) as (m'&?&?&_); try (vm_compute; congruence).
  exists m'. split; assumption.
Defined.
