(* ===== verification/Wire.v ===== *)
(** * The connection-management message (src/core/Infiniband.cc,
      [send_cm_meta], [recv_cm_meta], [gid_to_wire_gid], [wire_gid_to_gid];
      src/multicast/multicast.h and .cc use the same message)

    A message is the text "lid:local_qpn:psn:peer_qpn:ip1:port1:ip2:port2:gid"
    in a buffer of [TCP_MSG_LEN] bytes; the numbers are hexadecimal. The
    conversions of [sprintf] and [sscanf] the code uses are defined here on
    lists of character codes. *)

From S2P Require Import Prelude State Machine.

Definition TCP_MSG_LEN : Z := 93.
Definition colon : Z := 58.

(** ** Printing *)

Definition hexc (d : Z) : Z := if d <? 10 then 48 + d else 87 + d.

(** "%0kx" for a value below 16^k *)
Fixpoint hex_pad (k : nat) (n : Z) : list Z :=
  match k with O => [] | S k => hex_pad k (n / 16) ++ [hexc (n mod 16)] end.

Fixpoint strip_zeros (l : list Z) : list Z :=
  match l with
  | [] => []
  | [c] => [c]
  | c :: l => if c =? 48 then strip_zeros l else c :: l
  end.

(** "%x" and "%hx" *)
Definition hex (n : Z) : list Z := strip_zeros (hex_pad 8 n).

(** A big-endian 32-bit word: [htonl] of the four bytes in memory order *)
Definition be32 (l : list Z) : Z := foldl (λ acc b, acc * 256 + b) 0 l.
Definition to_be32 (v : Z) : list Z :=
  [v / 16777216 mod 256; v / 65536 mod 256; v / 256 mod 256; v mod 256].

Definition gid_to_wire_gid (gid : list Z) : list Z :=
  hex_pad 8 (be32 (take 4 gid)) ++ hex_pad 8 (be32 (take 4 (drop 4 gid))) ++
  hex_pad 8 (be32 (take 4 (drop 8 gid))) ++ hex_pad 8 (be32 (take 4 (drop 12 gid))).

(** The nine fields of a message *)
Record cm_msg := mkMsg {
  f_lid : Z; f_local_qpn : Z; f_psn : Z; f_peer_qpn : Z;
  f_ip1 : Z; f_port1 : Z; f_ip2 : Z; f_port2 : Z;
  f_gid : list Z;
}.

Fixpoint join (ls : list (list Z)) : list Z :=
  match ls with [] => [] | [l] => l | l :: ls => l ++ colon :: join ls end.

(** [sprintf(msg, "%hx:%x:%x:%x:%x:%hx:%x:%hx:%s", ...)] of [send_cm_meta] *)
Definition print_cm (x : cm_msg) : list Z :=
  join [hex (f_lid x); hex (f_local_qpn x); hex (f_psn x); hex (f_peer_qpn x); hex (f_ip1 x);
        hex (f_port1 x); hex (f_ip2 x); hex (f_port2 x); gid_to_wire_gid (f_gid x)].

(** [sprintf(msg, "%04x:%08x:%08x:%08x:%08x:%04x:%08x:%04x:%s", ...)] of the
    multicast daemon *)
Definition print_mc (x : cm_msg) : list Z :=
  join [hex_pad 4 (f_lid x); hex_pad 8 (f_local_qpn x); hex_pad 8 (f_psn x); hex_pad 8 (f_peer_qpn x);
        hex_pad 8 (f_ip1 x); hex_pad 4 (f_port1 x); hex_pad 8 (f_ip2 x); hex_pad 4 (f_port2 x);
        gid_to_wire_gid (f_gid x)].

(** The buffer handed to [write]: the text, its NUL, and whatever [junk] the
    array held behind. *)
Definition msg_buffer (text junk : list Z) : list Z :=
  take (Z.to_nat TCP_MSG_LEN) (text ++ 0 :: junk).

(** ** Scanning *)

Definition unhexc (c : Z) : option Z :=
  if (48 <=? c) && (c <=? 57) then Some (c - 48) else
  if (97 <=? c) && (c <=? 102) then Some (c - 87) else
  if (65 <=? c) && (c <=? 70) then Some (c - 55) else None.

Definition is_space (c : Z) : bool := (c =? 32) || ((9 <=? c) && (c <=? 13)).

Fixpoint skip_spaces (l : list Z) : list Z :=
  match l with c :: l' => if is_space c then skip_spaces l' else l | [] => [] end.

(** The longest run of hexadecimal digits *)
Fixpoint scan_digits (acc : Z) (l : list Z) : Z * list Z :=
  match l with
  | [] => (acc, [])
  | c :: l' => match unhexc c with Some d => scan_digits (acc * 16 + d) l' | None => (acc, l) end
  end.

Definition starts_digit (l : list Z) : bool :=
  match l with c :: _ => match unhexc c with Some _ => true | None => false end | [] => false end.

(** "0x" or "0X" before at least one digit *)
Definition skip_0x (l : list Z) : list Z :=
  match l with
  | z :: c :: l' => if (z =? 48) && ((c =? 120) || (c =? 88)) && starts_digit l' then l' else l
  | _ => l
  end.

Definition scan_sign (l : list Z) : bool * list Z :=
  match l with
  | c :: l' => if c =? 45 then (true, l') else if c =? 43 then (false, l') else (false, l)
  | [] => (false, [])
  end.

(** The conversion "%x" as [strtoul] base 16 does it: blanks, a sign, an
    optional 0x, digits; saturated at 64 bits and then negated. [None]: no
    digit, the conversion fails. *)
Definition scan_hex (l : list Z) : option (Z * list Z) :=
  let l := skip_spaces l in
  let '(neg, l) := scan_sign l in
  let l := skip_0x l in
  if starts_digit l then
    let '(v, rest) := scan_digits 0 l in
    let v := Z.min v 18446744073709551615 in
    Some (if neg then u64 (- v) else v, rest)
  else None.

Definition scan_colon (l : list Z) : option (list Z) :=
  match l with c :: l' => if c =? colon then Some l' else None | [] => None end.

(** "%s": blanks, then a run without blanks up to the NUL *)
Fixpoint scan_word (l : list Z) : list Z :=
  match l with c :: l' => if is_space c || (c =? 0) then [] else c :: scan_word l' | [] => [] end.

(** One "%x:" or "%hx:" field, truncated by [width] *)
Definition scan_field (width : Z → Z) (l : list Z) : option (Z * list Z) :=
  '(v, l) ← scan_hex l; l ← scan_colon l; Some (width v, l).

(** [sscanf(msg, "%hx:%x:%x:%x:%x:%hx:%x:%hx:%s", ...)] when all nine
    conversions succeed *)
Definition scan_cm (msg : list Z) : option (Z * Z * Z * Z * Z * Z * Z * Z * list Z) :=
  '(lid, l) ← scan_field u16 msg;
  '(qpn, l) ← scan_field u32 l;
  '(psn, l) ← scan_field u32 l;
  '(peer, l) ← scan_field u32 l;
  '(ip1, l) ← scan_field u32 l;
  '(p1, l) ← scan_field u16 l;
  '(ip2, l) ← scan_field u32 l;
  '(p2, l) ← scan_field u16 l;
  let w := scan_word (skip_spaces l) in
  if bool_decide (w = []) then None else Some (lid, qpn, psn, peer, ip1, p1, ip2, p2, w).

(** One round of [wire_gid_to_gid]: eight characters to four bytes. [v32]
    keeps its last value when the conversion fails; the first time it has
    none. Reading past the NUL of the text reads bytes never written. *)
Definition wire_word (w : list Z) (i : nat) (v32 : option Z) : outcome (list Z * option Z) :=
  if (length w <? 8 * i)%nat then Crash Undefined else
  match scan_hex (take 8 (drop (8 * i) w)) with
  | Some (v, _) => Ret (to_be32 (u32 v), Some (u32 v))
  | None => match v32 with Some v => Ret (to_be32 v, Some v) | None => Crash Undefined end
  end.

Definition wire_gid_to_gid (w : list Z) : outcome (list Z) :=
  '(g0, v) ← wire_word w 0 None;
  '(g1, v) ← wire_word w 1 v;
  '(g2, v) ← wire_word w 2 v;
  '(g3, v) ← wire_word w 3 v;
  Ret (g0 ++ g1 ++ g2 ++ g3).

(** Scanning a received buffer into the fields and the gid. A message without
    nine fields leaves the local gid buffer unset, and a word of more than 32
    characters overruns it. *)
Definition parse_cm (msg : list Z) : outcome cm_msg :=
  '(lid, qpn, psn, peer, ip1, p1, ip2, p2, w) ← deref (scan_cm msg);
  if (32 <? length w)%nat then Crash Undefined else
  g ← wire_gid_to_gid w;
  Ret (mkMsg lid qpn psn peer ip1 p1 ip2 p2 g).

(** ** Numbers: what is printed is scanned back *)

Definition hexstr (l : list Z) : Prop := Forall (λ c, is_Some (unhexc c)) l.
Definition hexval (acc : Z) (l : list Z) : Z := foldl (λ a c, a * 16 + default 0 (unhexc c)) acc l.

(** What may follow a number: not a digit, not the x of 0x *)
Definition stops (l : list Z) : Prop :=
  match l with [] => True | c :: _ => unhexc c = None ∧ c ≠ 120 ∧ c ≠ 88 end.

Lemma unhexc_range c d : unhexc c = Some d →
  (48 ≤ c ≤ 57 ∧ d = c - 48) ∨ (97 ≤ c ≤ 102 ∧ d = c - 87) ∨ (65 ≤ c ≤ 70 ∧ d = c - 55).
Proof.
  unfold unhexc.
  destruct (Z.leb_spec 48 c), (Z.leb_spec c 57), (Z.leb_spec 97 c), (Z.leb_spec c 102),
    (Z.leb_spec 65 c), (Z.leb_spec c 70); simpl; intros [=]; lia.
Qed.

Lemma unhexc_hexc d : 0 ≤ d < 16 → unhexc (hexc d) = Some d.
Proof.
  intros Hd. unfold hexc, unhexc. destruct (Z.ltb_spec d 10).
  - rewrite (proj2 (andb_true_iff _ _)) by lia. f_equal. lia.
  - destruct (_ && _) eqn:E; [lia|]. rewrite (proj2 (andb_true_iff _ _)) by lia. f_equal. lia.
Qed.

Lemma scan_digits_app l : ∀ acc rest, hexstr l → stops rest →
  scan_digits acc (l ++ rest) = (hexval acc l, rest).
Proof.
  induction l as [|c l IH]; intros acc rest Hl Hr; simpl.
  - destruct rest as [|c r]; [done|]. simpl. by destruct Hr as [-> _].
  - apply Forall_cons in Hl as [[d Hd] Hl]. rewrite Hd. simpl. by apply IH.
Qed.

Lemma scan_hex_app l rest : hexstr l → l ≠ [] → stops rest →
  scan_hex (l ++ rest) = Some (Z.min (hexval 0 l) 18446744073709551615, rest).
Proof.
  intros Hl Hne Hr. destruct l as [|c l]; [done|]. pose proof Hl as Hl0.
  apply Forall_cons in Hl as [[d Hd] Hl]. apply unhexc_range in Hd as Hc.
  unfold scan_hex. cbn [app skip_spaces]. unfold is_space.
  assert ((c =? 32) || ((9 <=? c) && (c <=? 13)) = false) as -> by lia.
  unfold scan_sign. rewrite (proj2 (Z.eqb_neq c 45)), (proj2 (Z.eqb_neq c 43)) by lia.
  assert (skip_0x (c :: l ++ rest) = (c :: l) ++ rest) as ->.
  { unfold skip_0x. destruct l as [|c2 l2]; simpl.
    - destruct rest as [|c3 r]; [done|]. destruct Hr as (_&?&?).
      rewrite (proj2 (Z.eqb_neq c3 120)), (proj2 (Z.eqb_neq c3 88)) by done.
      by rewrite andb_false_r.
    - apply Forall_cons in Hl as [[d2 Hd2] _]. apply unhexc_range in Hd2.
      rewrite (proj2 (Z.eqb_neq c2 120)), (proj2 (Z.eqb_neq c2 88)) by lia.
      by rewrite andb_false_r. }
  rewrite (scan_digits_app (c :: l) 0 rest Hl0 Hr). cbn [app starts_digit]. by rewrite Hd.
Qed.

Lemma hexval_snoc acc l c : hexval acc (l ++ [c]) = hexval acc l * 16 + default 0 (unhexc c).
Proof. unfold hexval. by rewrite foldl_app. Qed.

Lemma hex_pad_str k : ∀ n, 0 ≤ n → hexstr (hex_pad k n) ∧ length (hex_pad k n) = k ∧
  hexval 0 (hex_pad k n) = n mod 16 ^ Z.of_nat k.
Proof.
  induction k as [|k IH]; intros n Hn; [rewrite Z.mod_1_r; repeat constructor|].
  cbn [hex_pad]. destruct (IH (n / 16)) as (Hs&Hl&Hv); [apply Z.div_pos; lia|].
  assert (0 ≤ n mod 16 < 16) as Hm by (apply Z.mod_pos_bound; lia).
  split_and!.
  - apply Forall_app; split; [done|]. constructor; [|done]. rewrite unhexc_hexc by done. eauto.
  - rewrite length_app. simpl. lia.
  - rewrite hexval_snoc, Hv, unhexc_hexc by done. simpl default.
    rewrite Nat2Z.inj_succ, Z.pow_succ_r, Z.rem_mul_r by lia. lia.
Qed.

Lemma strip_zeros_str l : l ≠ [] → hexstr l →
  hexstr (strip_zeros l) ∧ strip_zeros l ≠ [] ∧ hexval 0 (strip_zeros l) = hexval 0 l ∧
  (length (strip_zeros l) ≤ length l)%nat.
Proof.
  induction l as [|c l IH]; intros Hne Hl; [done|]. destruct l as [|c2 l]; [done|].
  cbn [strip_zeros]. destruct (Z.eqb_spec c 48) as [->|]; [|done].
  apply Forall_cons in Hl as [_ Hl]. destruct IH as (?&?&?&?); [done..|].
  split_and!; [done|done|done|simpl in *; lia].
Qed.

(** A printed number: digits only, at most [k] of them, with the value [n] *)
Definition prints (k : nat) (n : Z) (l : list Z) : Prop :=
  hexstr l ∧ l ≠ [] ∧ hexval 0 l = n ∧ (length l ≤ k)%nat.

Lemma prints_pad k n : 0 ≤ n < 16 ^ Z.of_nat k → (0 < k)%nat → prints k n (hex_pad k n).
Proof.
  intros Hn Hk. destruct (hex_pad_str k n) as (?&Hl&Hv); [lia|].
  rewrite Z.mod_small in Hv by done. split_and!; [done| |done|lia].
  intros E. rewrite E in Hl. simpl in Hl. lia.
Qed.

Lemma hexval_lower l : ∀ acc, hexstr l → 0 ≤ acc → acc * 16 ^ Z.of_nat (length l) ≤ hexval acc l.
Proof.
  induction l as [|c l IH]; intros acc Hl Ha; simpl length; [simpl; lia|].
  apply Forall_cons in Hl as [[d Hd] Hl]. apply unhexc_range in Hd as Hc.
  cbn [hexval foldl]. rewrite Hd. specialize (IH (acc * 16 + d) Hl ltac:(lia)).
  unfold hexval in IH. simpl default in *. rewrite Nat2Z.inj_succ, Z.pow_succ_r by lia. nia.
Qed.

Lemma strip_zeros_head l : hexstr l →
  (length (strip_zeros l) ≤ 1)%nat ∨ ∃ c l', strip_zeros l = c :: l' ∧ c ≠ 48.
Proof.
  induction l as [|c l IH]; intros Hl; [left; simpl; lia|].
  apply Forall_cons in Hl as [_ Hl]. destruct l as [|c2 l]; [left; simpl; lia|].
  cbn [strip_zeros]. destruct (Z.eqb_spec c 48); [by apply IH|eauto].
Qed.

Lemma prints_hex k n : 0 ≤ n < 16 ^ Z.of_nat k → (0 < k ≤ 8)%nat → prints k n (hex n).
Proof.
  intros Hn Hk. unfold hex. destruct (hex_pad_str 8 n) as (Hs&Hl&Hv); [lia|].
  assert (16 ^ Z.of_nat k ≤ 16 ^ Z.of_nat 8) by (apply Z.pow_le_mono_r; lia).
  rewrite Z.mod_small in Hv by lia.
  destruct (strip_zeros_str (hex_pad 8 n)) as (Hs'&Hne&Hv'&_);
    [intros E; by rewrite E in Hl|done|].
  split_and!; [done|done|congruence|].
  destruct (strip_zeros_head (hex_pad 8 n) Hs) as [|(c&l'&Heq&Hc)]; [lia|].
  rewrite Heq in *. apply Forall_cons in Hs' as [[d Hd] Hs']. apply unhexc_range in Hd as Hdr.
  assert (16 ^ Z.of_nat (length l') ≤ n).
  { rewrite <-Hv, <-Hv'. cbn [hexval foldl]. rewrite Hd. simpl default.
    pose proof (hexval_lower l' d Hs' ltac:(lia)) as Hlow. unfold hexval in Hlow.
    rewrite Z.mul_0_l, Z.add_0_l. nia. }
  assert (Z.of_nat (length l') < Z.of_nat k) by (apply (Z.pow_lt_mono_r_iff 16); lia).
  simpl. lia.
Qed.

Lemma scan_field_prints k n l width rest : prints k n l → width n = n →
  n < 18446744073709551616 → scan_field width (l ++ colon :: rest) = Some (n, rest).
Proof.
  intros (Hs&Hne&Hv&_) Hw Hn. unfold scan_field.
  rewrite scan_hex_app by done. simpl. rewrite Hv, Z.min_l by lia. by rewrite Hw.
Qed.

(** ** The gid *)

Lemma be32_bytes a b c d : is_u8 a → is_u8 b → is_u8 c → is_u8 d →
  is_u32 (be32 [a; b; c; d]) ∧ to_be32 (be32 [a; b; c; d]) = [a; b; c; d].
Proof.
  intros Ha Hb Hc Hd. unfold be32, to_be32. cbn [foldl]. unfold_ints.
  split; [lia|]. repeat (apply f_equal2; [Z.to_euclidean_division_equations; lia|]). done.
Qed.

Lemma wire_word_app pre i v32 n post : length pre = (8 * i)%nat → is_u32 n →
  wire_word (pre ++ hex_pad 8 n ++ post) i v32 = Ret (to_be32 n, Some n).
Proof.
  intros Hpre Hn. unfold wire_word. rewrite length_app.
  destruct (Nat.ltb_spec (length pre + length (hex_pad 8 n ++ post)) (8 * i)); [lia|].
  rewrite <-Hpre, drop_app_length.
  destruct (prints_pad 8 n) as (Hs&Hne&Hv&_); [unfold is_u32 in Hn; simpl; lia|lia|].
  destruct (hex_pad_str 8 n) as (_&Hl&_); [unfold is_u32 in Hn; lia|].
  assert (take 8 (hex_pad 8 n ++ post) = hex_pad 8 n ++ []) as ->.
  { rewrite app_nil_r, <-Hl. apply take_app_length. }
  rewrite scan_hex_app by done.
  rewrite Hv, Z.min_l, u32_small by (unfold is_u32 in *; lia). done.
Qed.

Lemma gid_round_trip gid : length gid = 16%nat → Forall is_u8 gid →
  length (gid_to_wire_gid gid) = 32%nat ∧ hexstr (gid_to_wire_gid gid) ∧
  wire_gid_to_gid (gid_to_wire_gid gid) = Ret gid.
Proof.
  intros Hlen Hall. do 16 (destruct gid as [|? gid]; [done|]). destruct gid; [|done].
  rewrite !Forall_cons in Hall. destruct Hall as (?&?&?&?&?&?&?&?&?&?&?&?&?&?&?&?&_).
  unfold gid_to_wire_gid. cbn [take drop].
  destruct (be32_bytes z z0 z1 z2) as [Hu0 E0]; [done..|].
  destruct (be32_bytes z3 z4 z5 z6) as [Hu1 E1]; [done..|].
  destruct (be32_bytes z7 z8 z9 z10) as [Hu2 E2]; [done..|].
  destruct (be32_bytes z11 z12 z13 z14) as [Hu3 E3]; [done..|].
  revert Hu0 Hu1 Hu2 Hu3 E0 E1 E2 E3.
  generalize (be32 [z; z0; z1; z2]) (be32 [z3; z4; z5; z6]) (be32 [z7; z8; z9; z10])
    (be32 [z11; z12; z13; z14]). intros n0 n1 n2 n3 Hu0 Hu1 Hu2 Hu3 E0 E1 E2 E3.
  pose proof (hex_pad_str 8 n0 ltac:(apply Hu0)) as (Hs0&L0&_).
  pose proof (hex_pad_str 8 n1 ltac:(apply Hu1)) as (Hs1&L1&_).
  pose proof (hex_pad_str 8 n2 ltac:(apply Hu2)) as (Hs2&L2&_).
  pose proof (hex_pad_str 8 n3 ltac:(apply Hu3)) as (Hs3&L3&_).
  split_and!.
  - rewrite !length_app, L0, L1, L2, L3. done.
  - unfold hexstr. rewrite !Forall_app. done.
  - unfold wire_gid_to_gid. set (w := hex_pad 8 n0 ++ _).
    assert (wire_word w 0 None = Ret (to_be32 n0, Some n0)) as ->
      by exact (wire_word_app [] 0 None n0 _ eq_refl Hu0). mstep.
    assert (wire_word w 1 (Some n0) = Ret (to_be32 n1, Some n1)) as ->
      by exact (wire_word_app (hex_pad 8 n0) 1 _ n1 _ L0 Hu1). mstep.
    assert (wire_word w 2 (Some n1) = Ret (to_be32 n2, Some n2)) as ->.
    { unfold w. rewrite app_assoc. apply wire_word_app; [by rewrite length_app, L0, L1|done]. }
    mstep.
    assert (wire_word w 3 (Some n2) = Ret (to_be32 n3, Some n3)) as ->.
    { unfold w. rewrite !app_assoc, <-(app_nil_r (hex_pad 8 n3)).
      apply wire_word_app; [by rewrite !length_app, L0, L1, L2|done]. }
    mstep. by rewrite E0, E1, E2, E3.
Qed.

(** ** Whole messages *)

Definition wf_msg (x : cm_msg) : Prop :=
  is_u16 (f_lid x) ∧ is_u32 (f_local_qpn x) ∧ is_u32 (f_psn x) ∧ is_u32 (f_peer_qpn x) ∧
  is_u32 (f_ip1 x) ∧ is_u16 (f_port1 x) ∧ is_u32 (f_ip2 x) ∧ is_u16 (f_port2 x) ∧
  length (f_gid x) = 16%nat ∧ Forall is_u8 (f_gid x).

Lemma scan_word_app l rest : hexstr l → scan_word (l ++ 0 :: rest) = l.
Proof.
  induction l as [|c l IH]; intros Hl; [done|]. apply Forall_cons in Hl as [[d Hd] Hl].
  apply unhexc_range in Hd. simpl. unfold is_space.
  rewrite (proj2 (orb_false_iff _ _)) by (split; lia). by rewrite IH.
Qed.

(** Any text made of eight printed numbers and a gid word parses to them. *)
Lemma parse_printed x l1 l2 l3 l4 l5 l6 l7 l8 rest : wf_msg x →
  prints 4 (f_lid x) l1 → prints 8 (f_local_qpn x) l2 → prints 8 (f_psn x) l3 →
  prints 8 (f_peer_qpn x) l4 → prints 8 (f_ip1 x) l5 → prints 4 (f_port1 x) l6 →
  prints 8 (f_ip2 x) l7 → prints 4 (f_port2 x) l8 →
  let text := join [l1; l2; l3; l4; l5; l6; l7; l8; gid_to_wire_gid (f_gid x)] in
  (length text ≤ 92)%nat ∧ parse_cm (text ++ 0 :: rest) = Ret x.
Proof.
  intros (Hw1&Hw2&Hw3&Hw4&Hw5&Hw6&Hw7&Hw8&Hlen&Hgid) P1 P2 P3 P4 P5 P6 P7 P8 text.
  destruct (gid_round_trip _ Hlen Hgid) as (Hgl&Hgs&Hg).
  unfold text. clear text. revert Hgl Hgs Hg. generalize (gid_to_wire_gid (f_gid x)). intros g Hgl Hgs Hg.
  split.
  - cbn [join]. repeat (rewrite length_app; cbn [length]). rewrite Hgl.
    destruct P1 as (_&_&_&?), P2 as (_&_&_&?), P3 as (_&_&_&?), P4 as (_&_&_&?), P5 as (_&_&_&?),
      P6 as (_&_&_&?), P7 as (_&_&_&?), P8 as (_&_&_&?). lia.
  - unfold parse_cm, scan_cm. cbn [join]. repeat (rewrite <-app_assoc; cbn [app]).
    unfold_ints.
    erewrite (scan_field_prints _ _ _ _ _ P1) by (try apply u16_small; unfold is_u16; lia). simpl.
    erewrite (scan_field_prints _ _ _ _ _ P2) by (try apply u32_small; unfold is_u32; lia). simpl.
    erewrite (scan_field_prints _ _ _ _ _ P3) by (try apply u32_small; unfold is_u32; lia). simpl.
    erewrite (scan_field_prints _ _ _ _ _ P4) by (try apply u32_small; unfold is_u32; lia). simpl.
    erewrite (scan_field_prints _ _ _ _ _ P5) by (try apply u32_small; unfold is_u32; lia). simpl.
    erewrite (scan_field_prints _ _ _ _ _ P6) by (try apply u16_small; unfold is_u16; lia). simpl.
    erewrite (scan_field_prints _ _ _ _ _ P7) by (try apply u32_small; unfold is_u32; lia). simpl.
    erewrite (scan_field_prints _ _ _ _ _ P8) by (try apply u16_small; unfold is_u16; lia). simpl.
    assert (skip_spaces (g ++ 0 :: rest) = g ++ 0 :: rest) as ->.
    { destruct g as [|c l]; [done|].
      apply Forall_cons in Hgs as [[d Hd] _]. apply unhexc_range in Hd. simpl. unfold is_space.
      by rewrite (proj2 (orb_false_iff _ _)) by (split; lia). }
    rewrite scan_word_app by done. rewrite bool_decide_false by (intros E; by rewrite E in Hgl).
    simpl. rewrite Hgl. simpl. rewrite Hg. simpl. by destruct x.
Qed.

Lemma parse_buffer text junk x : (length text ≤ 92)%nat →
  (∀ rest, parse_cm (text ++ 0 :: rest) = Ret x) → parse_cm (msg_buffer text junk) = Ret x.
Proof.
  intros Hl Hp. unfold msg_buffer. rewrite take_app_ge by (change (Z.to_nat TCP_MSG_LEN) with 93%nat; lia).
  destruct (Z.to_nat TCP_MSG_LEN - length text)%nat eqn:E; [change (Z.to_nat TCP_MSG_LEN) with 93%nat in E; lia|]. simpl. apply Hp.
Qed.

Lemma prints_u16 n : is_u16 n → prints 4 n (hex n) ∧ prints 4 n (hex_pad 4 n).
Proof. intros H. unfold is_u16 in H. split; [apply prints_hex|apply prints_pad]; simpl; lia. Qed.
Lemma prints_u32 n : is_u32 n → prints 8 n (hex n) ∧ prints 8 n (hex_pad 8 n).
Proof. intros H. unfold is_u32 in H. split; [apply prints_hex|apply prints_pad]; simpl; lia. Qed.

Lemma print_cm_parses x junk : wf_msg x →
  (length (print_cm x) ≤ 92)%nat ∧ parse_cm (msg_buffer (print_cm x) junk) = Ret x.
Proof.
  intros Hx. pose proof Hx as (?&?&?&?&?&?&?&?&_).
  assert (∀ rest, (length (print_cm x) ≤ 92)%nat ∧ parse_cm (print_cm x ++ 0 :: rest) = Ret x) as Hp
    by (intros rest; apply parse_printed; try done; first [by apply prints_u16|by apply prints_u32]).
  split; [apply (Hp [])|]. apply parse_buffer; [apply (Hp [])|apply Hp].
Qed.

Lemma print_mc_parses x junk : wf_msg x →
  (length (print_mc x) ≤ 92)%nat ∧ parse_cm (msg_buffer (print_mc x) junk) = Ret x.
Proof.
  intros Hx. pose proof Hx as (?&?&?&?&?&?&?&?&_).
  assert (∀ rest, (length (print_mc x) ≤ 92)%nat ∧ parse_cm (print_mc x ++ 0 :: rest) = Ret x) as Hp
    by (intros rest; apply parse_printed; try done; first [by apply prints_u16|by apply prints_u32]).
  split; [apply (Hp [])|]. apply parse_buffer; [apply (Hp [])|apply Hp].
Qed.

(** C29: the handshake message survives the wire in both formats. For every
    connection meta data and multicast group in the ranges of their types, the
    text [send_cm_meta] prints (and the zero-padded text the multicast daemon
    prints) fits the 93-byte buffer with its NUL, and scanning the buffer,
    whatever bytes follow the NUL, gives back all nine fields and the gid. *)
Theorem cm_message_round_trip x junk : wf_msg x →
  Z.of_nat (length (print_cm x)) < TCP_MSG_LEN ∧ Z.of_nat (length (print_mc x)) < TCP_MSG_LEN ∧
  parse_cm (msg_buffer (print_cm x) junk) = Ret x ∧ parse_cm (msg_buffer (print_mc x) junk) = Ret x.
Proof.
  intros Hx. destruct (print_cm_parses x junk Hx), (print_mc_parses x junk Hx).
  unfold TCP_MSG_LEN. split_and!; [lia|lia|done|done].
Qed.

Definition demo_msg : cm_msg :=
  mkMsg 1 65535 520 0 0 0 4294967295 30000 [254; 128; 0; 0; 0; 0; 0; 0; 0; 0; 255; 255; 10; 0; 0; 1].

Lemma cm_message_round_trip_witness :
  parse_cm (msg_buffer (print_cm demo_msg) [1; 2; 3]) = Ret demo_msg.
Proof.
  refine (proj1 (proj2 (proj2 (cm_message_round_trip demo_msg [1; 2; 3] _)))).
  unfold wf_msg, demo_msg. unfold_ints. cbn [f_lid f_local_qpn f_psn f_peer_qpn f_ip1 f_port1 f_ip2 f_port2 f_gid].
  split_and!; try lia; [done|]. repeat (constructor; [lia|]). constructor.
Defined.
