(* ===== verification/QueuePair.v ===== *)
(** * Queue pairs (src/core/Infiniband.h and .cc, [QueuePair])

    The transitions of a queue pair, the handshake messages over its TCP
    socket, its receive queue, and its move to the dead state. *)

From S2P Require Import Prelude State PerfCounters Machine Memory Wire.

(** Constants of infiniband/verbs.h and errno.h *)
Definition IBV_QPT_RC := 2.
Definition IBV_QPT_UD := 4.
Definition IBV_QPT_RAW_PACKET := 8.
Definition IBV_QPS_RESET := 0.
Definition IBV_QPS_INIT := 1.
Definition IBV_QPS_RTR := 2.
Definition IBV_QPS_RTS := 3.
Definition IBV_QPS_SQD := 4.
Definition IBV_QPS_SQE := 5.
Definition IBV_QPS_ERR := 6.
Definition IBV_QP_STATE := 1.
Definition IBV_QP_ACCESS_FLAGS := 8.
Definition IBV_QP_PKEY_INDEX := 16.
Definition IBV_QP_PORT := 32.
Definition IBV_QP_QKEY := 64.
Definition IBV_QP_AV := 128.
Definition IBV_QP_PATH_MTU := 256.
Definition IBV_QP_TIMEOUT := 512.
Definition IBV_QP_RETRY_CNT := 1024.
Definition IBV_QP_RNR_RETRY := 2048.
Definition IBV_QP_RQ_PSN := 4096.
Definition IBV_QP_MAX_QP_RD_ATOMIC := 8192.
Definition IBV_QP_MIN_RNR_TIMER := 32768.
Definition IBV_QP_SQ_PSN := 65536.
Definition IBV_QP_MAX_DEST_RD_ATOMIC := 131072.
Definition IBV_QP_DEST_QPN := 1048576.
Definition IBV_MTU_1024 := 3.
Definition EINTR := 4.
Definition EAGAIN := 11.
Definition EINVAL := 22.
Definition EPIPE := 32.
Definition ECONNRESET := 104.

Definition PSN_MSK : Z := Z.shiftl 1 24 - 1.
Definition BEACON_WRID : Z := 3735928559.

Definition meta0 : ib_cm_meta_t := mkMeta 0 0 0 0 (replicate 16 0).

(** All fields zero, as after [memset] *)
Definition attr0 : qp_attr :=
  mkAttr 0 0 0 0 0 0 0 0 0 0 0 0 (replicate 16 0) 0 0 0 0 0 0 0 0 0 0.

Definition or_all (l : list Z) : Z := foldr Z.lor 0 l.

Definition qp_state_string (status : Z) : string :=
  if status =? IBV_QPS_RESET then "IBV_QPS_RESET" else
  if status =? IBV_QPS_INIT then "IBV_QPS_INIT" else
  if status =? IBV_QPS_RTR then "IBV_QPS_RTR" else
  if status =? IBV_QPS_RTS then "IBV_QPS_RTS" else
  if status =? IBV_QPS_SQD then "IBV_QPS_SQD" else
  if status =? IBV_QPS_SQE then "IBV_QPS_SQE" else
  if status =? IBV_QPS_ERR then "IBV_QPS_ERR" else " out of range.".

Definition wc_status_names : list string :=
  ["SUCCESS"; "LOC_LEN_ERR"; "LOC_QP_OP_ERR"; "LOC_EEC_OP_ERR"; "LOC_PROT_ERR"; "WR_FLUSH_ERR";
   "MW_BIND_ERR"; "BAD_RESP_ERR"; "LOC_ACCESS_ERR"; "REM_INV_REQ_ERR"; "REM_ACCESS_ERR"; "REM_OP_ERR";
   "RETRY_EXC_ERR"; "RNR_RETRY_EXC_ERR"; "LOC_RDD_VIOL_ERR"; "REM_INV_RD_REQ_ERR"; "REM_ABORT_ERR";
   "INV_EECN_ERR"; "INV_EEC_STATE_ERR"; "FATAL_ERR"; "RESP_TIMEOUT_ERR"; "GENERAL_ERR"]%string.

(** IBV_WC_SUCCESS is 0 and IBV_WC_GENERAL_ERR is 21. *)
Definition wc_status_to_string (status : Z) : outcome string :=
  if (status <? 0) || (status >? 21) then Ret "<status out of range!>"%string else
  deref (wc_status_names !! Z.to_nat status).

Module QueuePair.
Section queue_pair.
Context {W P : Type} `{!World W, !BoostPool P} (cfg : config).
Abbreviation M := (M W P).

(** The constructor; the device and the protection domain must exist. *)
Definition create (type port srq txcq rxcq tx_queue_len rx_queue_len cid : Z) : M Z :=
  d ← gets (λ m, ib_device (ib m));
  the d ;;
  q ← sysret (c_new 0);
  put_qp q (mkQP type port srq 0 0 cid meta0 meta0 txcq rxcq (Z.land 520 PSN_MSK)
              (u32 (tx_queue_len + 1)) rx_queue_len 0 false []) ;;
  if negb (type =? IBV_QPT_RC) && negb (type =? IBV_QPT_UD) && negb (type =? IBV_QPT_RAW_PACKET)
  then fail KAbort else mret q.

Definition modify_qp_to_error (q : Z) : M Z :=
  k ← get_qp q;
  r ← sysret (ibv_modify_qp (qp_qp k)
        (mkAttr IBV_QPS_ERR 0 0 0 0 0 0 0 0 0 0 0 (replicate 16 0) 0 0 0 0 0 0 0 0 0 0) IBV_QP_STATE);
  if negb (r =? 0) then mret (-1) else mret 0.

Definition rts_attr (k : queue_pair) : qp_attr :=
  mkAttr IBV_QPS_RTS 0 0 0 0 0 0 0 0 0 0 0 (replicate 16 0) 0 0 0 0 0
    18 7 7 (cm_psn (local_cm_meta k)) 1.
Definition rts_mask : Z :=
  or_all [IBV_QP_STATE; IBV_QP_TIMEOUT; IBV_QP_RETRY_CNT; IBV_QP_RNR_RETRY; IBV_QP_SQ_PSN;
          IBV_QP_MAX_QP_RD_ATOMIC].

Definition modify_qp_to_rts (q : Z) : M Z :=
  k ← get_qp q;
  r ← sysret (ibv_modify_qp (qp_qp k) (rts_attr k) rts_mask);
  if negb (r =? 0) then mret (-1) else mret 0.

Definition rtr_attr (k : queue_pair) (sgid : Z) : qp_attr :=
  mkAttr IBV_QPS_RTR 0 0 0 0 IBV_MTU_1024 (cm_local_qpn (peer_cm_meta k)) (cm_psn (peer_cm_meta k))
    1 18 1 6 (cm_gid (peer_cm_meta k)) (u8 sgid) (m_rdma_dscp_ cfg)
    (cm_lid (peer_cm_meta k)) (m_rdma_sl_ cfg) (u8 (qp_port k)) 0 0 0 0 0.
Definition rtr_mask : Z :=
  or_all [IBV_QP_STATE; IBV_QP_AV; IBV_QP_PATH_MTU; IBV_QP_DEST_QPN; IBV_QP_RQ_PSN;
          IBV_QP_MIN_RNR_TIMER; IBV_QP_MAX_DEST_RD_ATOMIC].

(** [infiniband.get_device()->get_gid_idx()] *)
Definition device_gid_idx : M Z :=
  d ← gets (λ m, ib_device (ib m)); d ← the d; p ← the (active_port d); mret (gid_idx p).

Definition modify_qp_to_rtr (q : Z) : M Z :=
  k ← get_qp q;
  sgid ← device_gid_idx;
  r ← sysret (ibv_modify_qp (qp_qp k) (rtr_attr k sgid) rtr_mask);
  if negb (r =? 0) then mret (-1) else mret 0.

Definition init_attr (k : queue_pair) : qp_attr :=
  mkAttr IBV_QPS_INIT 0 (u8 (qp_port k)) (Z.lor IBV_ACCESS_REMOTE_WRITE IBV_ACCESS_LOCAL_WRITE)
    (q_key k) 0 0 0 0 0 0 0 (replicate 16 0) 0 0 0 0 0 0 0 0 0 0.
Definition init_mask (type : Z) : outcome Z :=
  let mask := Z.lor IBV_QP_STATE IBV_QP_PORT in
  if type =? IBV_QPT_RC then Ret (Z.lor (Z.lor mask IBV_QP_ACCESS_FLAGS) IBV_QP_PKEY_INDEX) else
  if type =? IBV_QPT_UD then Ret (Z.lor (Z.lor mask IBV_QP_QKEY) IBV_QP_PKEY_INDEX) else
  if type =? IBV_QPT_RAW_PACKET then Ret mask else Crash KAbort.

Definition modify_qp_to_init (q : Z) : M Z :=
  k ← get_qp q;
  mask ← lift (init_mask (qp_type k));
  r ← sysret (ibv_modify_qp (qp_qp k) (init_attr k) mask);
  if negb (r =? 0) then mret (-1) else mret 0.

(** ** Handshake messages *)

Definition cm_of (k : queue_pair) : cm_msg :=
  let l := local_cm_meta k in
  mkMsg (cm_lid l) (cm_local_qpn l) (cm_psn l) (cm_peer_qpn l)
    (ip_addr_member_1 cfg) (port_member_1 cfg) (ip_addr_member_2 cfg) (port_member_2 cfg) (cm_gid l).

(** [send_cm_meta]; [junk] is what the message array held, [retry] the
    attempts left. A text that does not fit the array overruns it. *)
Fixpoint send_cm_loop (retry : nat) (fd : Z) (text junk : list Z) : M Z :=
  r ← sysret (c_write fd (msg_buffer text junk));
  if negb (r =? TCP_MSG_LEN) then
    e ← errno;
    if (r <? 0) && ((e =? EINTR) || (e =? EAGAIN)) then
      match retry with S retry => send_cm_loop retry fd text junk | O => mret (- e) end
    else mret (- e)
  else mret 0.

Definition send_cm_meta (q fd : Z) (junk : list Z) : M Z :=
  k ← get_qp q;
  let text := print_cm (cm_of k) in
  if (length text <? Z.to_nat TCP_MSG_LEN)%nat then send_cm_loop 3 fd text junk
  else fail Undefined.

Definition recv_cm_meta (q fd : Z) : M Z :=
  '(r, msg) ← sys (c_read fd TCP_MSG_LEN);
  if r <? 0 then e ← errno; mret (- e) else
  if r =? 0 then mret 0 else
  if negb (r =? TCP_MSG_LEN) then mret (- EINVAL) else
  x ← lift (parse_cm msg);
  on_qp q (set_peer_cm_meta (mkMeta (f_lid x) (f_local_qpn x) (f_psn x) (f_peer_qpn x) (f_gid x))) ;;
  mret r.

(** ** Death *)

Definition to_dead (q : Z) : M Z :=
  k ← get_qp q;
  if qp_dead k then mret 0 else
  r ← modify_qp_to_error q;
  if negb (r =? 0) then mret (-1) else
  r ← sysret (ibv_post_send (qp_qp k) [mkWR BEACON_WRID None]);
  if negb (r =? 0) then e ← errno; mret (- e) else
  on_qp q (set_qp_dead true) ;;
  mret 0.

Definition is_dead (q : Z) : M bool := k ← get_qp q; mret (qp_dead k).

(** ** Queries: the out parameter is written when the pointer is not null *)

Definition get_remote_qp_number (q : Z) : M (Z * option Z) :=
  k ← get_qp q;
  '(r, out) ← sys (ibv_query_qp (qp_qp k) IBV_QP_DEST_QPN);
  if negb (r =? 0) then mret (-1, None) else mret (0, out !! 0%nat).

Definition get_remote_lid (q : Z) : M (Z * option Z) :=
  k ← get_qp q;
  '(r, out) ← sys (ibv_query_qp (qp_qp k) IBV_QP_AV);
  if negb (r =? 0) then mret (-1, None) else mret (0, out !! 0%nat).

Definition get_state (q : Z) : M Z :=
  k ← get_qp q;
  '(r, out) ← sys (ibv_query_qp (qp_qp k) IBV_QP_STATE);
  if negb (r =? 0) then mret (-1) else mret (default 0 (out !! 0%nat)).

Definition get_local_qp_number (q : Z) : M Z :=
  k ← get_qp q; if qp_qp k =? 0 then fail Undefined else mret (qp_num k).

(** ** The receive queue *)

Definition add_rq_wr (q c : Z) : M unit :=
  k ← get_qp q;
  if negb (qp_srq k =? 0) then mret tt else
  put_qp q (set_recv_queue (recv_queue k ++ [c]) k).

Fixpoint erase (c : Z) (l : list Z) : list Z :=
  match l with [] => [] | x :: l => if x =? c then l else x :: erase c l end.

Definition remove_rq_wr (q c : Z) : M unit :=
  k ← get_qp q;
  if negb (qp_srq k =? 0) then mret tt else
  assert (bool_decide (c ∈ recv_queue k)) ;;
  put_qp q (set_recv_queue (erase c (recv_queue k)) k).

End queue_pair.
End QueuePair.

(** ** Lemmas *)

Section qp_lemmas.
Context {W P : Type} `{!World W}.
Implicit Types m : mach W P.

Lemma get_qp_eq m q k : qps m !! q = Some k → get_qp q m = Ret (k, m).
Proof. intros H'. unfold get_qp, mbind, ST_bind, gets. by rewrite H'. Qed.

Lemma on_qp_eq m q k f : qps m !! q = Some k →
  on_qp q f m = Ret (tt, set_qps (<[q := f k]> (qps m)) m).
Proof. intros H'. unfold on_qp. unfold mbind, ST_bind. by rewrite (get_qp_eq _ _ _ H'). Qed.

Lemma sysret_eq m c r out w' : sys_call c (world m) = (r, out, w') →
  sysret c m = Ret (r, set_world w' m).
Proof. intros H'. unfold sysret, mbind, ST_bind, sys. by rewrite H'. Qed.

Lemma erase_perm c l : c ∈ l → l ≡ₚ c :: QueuePair.erase c l.
Proof.
  induction l as [|x l IH]; [set_solver|]. intros Hc. simpl.
  destruct (Z.eqb_spec x c) as [->|]; [done|].
  rewrite (IH ltac:(set_solver)) at 1. apply perm_swap.
Qed.
End qp_lemmas.

(** ** The state machine of a reliable-connected queue pair

    The transitions of an RC queue pair and the attributes that must accompany
    each, as the verbs documentation (ibv_modify_qp) lists them. *)

Definition rc_required (from to : Z) : option Z :=
  if to =? IBV_QPS_ERR then Some IBV_QP_STATE else
  if (from =? IBV_QPS_RESET) && (to =? IBV_QPS_INIT) then
    Some (or_all [IBV_QP_STATE; IBV_QP_PKEY_INDEX; IBV_QP_PORT; IBV_QP_ACCESS_FLAGS]) else
  if (from =? IBV_QPS_INIT) && (to =? IBV_QPS_RTR) then
    Some (or_all [IBV_QP_STATE; IBV_QP_AV; IBV_QP_PATH_MTU; IBV_QP_DEST_QPN; IBV_QP_RQ_PSN;
                  IBV_QP_MAX_DEST_RD_ATOMIC; IBV_QP_MIN_RNR_TIMER]) else
  if (from =? IBV_QPS_RTR) && (to =? IBV_QPS_RTS) then
    Some (or_all [IBV_QP_STATE; IBV_QP_SQ_PSN; IBV_QP_TIMEOUT; IBV_QP_RETRY_CNT; IBV_QP_RNR_RETRY;
                  IBV_QP_MAX_QP_RD_ATOMIC]) else None.

(** Legal: the transition exists and its required attributes are all given. *)
Definition rc_legal (from : Z) (attr : qp_attr) (mask : Z) : bool :=
  match rc_required from (a_qp_state attr) with
  | Some req => Z.land mask req =? req
  | None => false
  end.

(** An adapter that performs every legal transition. *)
Class Adapter (W : Type) `{World W} := {
  hca_state : W → Z → Z;
  hca_modify : ∀ w q attr mask, rc_legal (hca_state w q) attr mask = true →
    ∃ w', sys_call (ibv_modify_qp q attr mask) w = (0, [], w') ∧
          hca_state w' q = a_qp_state attr;
}.

(** A small adapter: the states by handle *)
Definition hca_call (c : call) (w : gmap Z Z) : Z * list Z * gmap Z Z :=
  match c with
  | ibv_modify_qp q attr mask =>
    if rc_legal (default 0 (w !! q)) attr mask then (0, [], <[q := a_qp_state attr]> w) else (22, [], w)
  | _ => (0, [], w)
  end.
#[global] Instance hca_world : World (gmap Z Z) := {| sys_call := hca_call; get_errno _ := 0 |}.
#[global] Program Instance hca_adapter : Adapter (gmap Z Z) := {| hca_state w q := default 0 (w !! q) |}.
Next Obligation.
  intros w q attr mask Hl. simpl. rewrite Hl. eexists; split; [done|]. by rewrite lookup_insert_eq.
Qed.

Section bring_up.
Context {W P : Type} `{!World W, !Adapter W} (cfg : config).
Implicit Types m : mach W P.

Lemma modify_eq m q k attr mask : qps m !! q = Some k →
  rc_legal (hca_state (world m) (qp_qp k)) attr mask = true →
  ∃ w', sysret (ibv_modify_qp (qp_qp k) attr mask) m = Ret (0, set_world w' m) ∧
    hca_state w' (qp_qp k) = a_qp_state attr.
Proof.
  intros Hk Hl. destruct (hca_modify _ _ _ _ Hl) as (w'&Hs&Hst). exists w'. split; [|done].
  by eapply sysret_eq.
Qed.

Lemma to_init_ok m q k : qps m !! q = Some k → qp_type k = IBV_QPT_RC →
  hca_state (world m) (qp_qp k) = IBV_QPS_RESET →
  ∃ w', QueuePair.modify_qp_to_init q m = Ret (0, set_world w' m) ∧
    hca_state w' (qp_qp k) = IBV_QPS_INIT.
Proof.
  intros Hk Hty H0. unfold QueuePair.modify_qp_to_init, mbind, ST_bind. rewrite (get_qp_eq _ _ _ Hk).
  replace (QueuePair.init_mask (qp_type k)) with (Ret 57) by (by rewrite Hty). cbn [lift].
  destruct (modify_eq m q k (QueuePair.init_attr k) 57 Hk) as (w'&->&Hs); [by rewrite H0|]. eauto.
Qed.

Lemma to_rtr_ok m q k dev prt : qps m !! q = Some k →
  ib_device (ib m) = Some dev → active_port dev = Some prt →
  hca_state (world m) (qp_qp k) = IBV_QPS_INIT →
  ∃ w', QueuePair.modify_qp_to_rtr cfg q m = Ret (0, set_world w' m) ∧
    hca_state w' (qp_qp k) = IBV_QPS_RTR.
Proof.
  intros Hk Hd Hp H0. unfold QueuePair.modify_qp_to_rtr, QueuePair.device_gid_idx, mbind, ST_bind.
  rewrite (get_qp_eq _ _ _ Hk). unfold gets. rewrite Hd. cbn [the mret ST_ret]. rewrite Hp.
  cbn [the mret ST_ret].
  destruct (modify_eq m q k (QueuePair.rtr_attr cfg k (gid_idx prt)) QueuePair.rtr_mask Hk)
    as (w'&->&Hs); [by rewrite H0|]. eauto.
Qed.

Lemma to_rts_ok m q k : qps m !! q = Some k →
  hca_state (world m) (qp_qp k) = IBV_QPS_RTR →
  ∃ w', QueuePair.modify_qp_to_rts q m = Ret (0, set_world w' m) ∧
    hca_state w' (qp_qp k) = IBV_QPS_RTS.
Proof.
  intros Hk H0. unfold QueuePair.modify_qp_to_rts, mbind, ST_bind. rewrite (get_qp_eq _ _ _ Hk).
  destruct (modify_eq m q k (QueuePair.rts_attr k) QueuePair.rts_mask Hk)
    as (w'&->&Hs); [by rewrite H0|]. eauto.
Qed.
End bring_up.

(** C17: the bring-up of a queue pair is legal. On an adapter that follows the
    documented RC state machine, [modify_qp_to_init], [modify_qp_to_rtr] and
    [modify_qp_to_rts] applied in this order to a queue pair in RESET all
    return 0 and take it through INIT and RTR to RTS: every attribute mask the
    code builds carries what its transition requires. *)
Theorem bring_up_legal {W P} `{!World W, !Adapter W} (cfg : config) (m : mach W P) q k dev prt :
  qps m !! q = Some k → qp_type k = IBV_QPT_RC →
  ib_device (ib m) = Some dev → active_port dev = Some prt →
  hca_state (world m) (qp_qp k) = IBV_QPS_RESET →
  ∃ w', (r1 ← QueuePair.modify_qp_to_init q;
         r2 ← QueuePair.modify_qp_to_rtr cfg q;
         r3 ← QueuePair.modify_qp_to_rts q;
         mret [r1; r2; r3]) m = Ret ([0; 0; 0], set_world w' m) ∧
    hca_state w' (qp_qp k) = IBV_QPS_RTS.
Proof.
  intros Hk Hty Hd Hp H0. unfold mbind, ST_bind.
  destruct (to_init_ok m q k Hk Hty H0) as (w1&->&S1).
  destruct (to_rtr_ok cfg (set_world w1 m) q k dev prt Hk Hd Hp S1) as (w2&->&S2).
  destruct (to_rts_ok (set_world w2 m) q k Hk S2) as (w3&E3&S3).
  unfold set_world in *. simpl in *. rewrite E3. by exists w3.
Qed.

Definition demo_port : port := mkPort 1 1 1 4 4 3 (replicate 16 0).
Definition demo_device : device := mkDevice 1 [109] 2 9 1 1 8 8 1000000 (Some demo_port).
Definition demo_qp : queue_pair :=
  mkQP IBV_QPT_RC 1 0 60 17 0 meta0 (mkMeta 1 17 520 0 (replicate 16 1)) 1 2 520 5 8 0 false [].
Definition demo_ib : infiniband := mkIB 4 8 1 0 (Some demo_device) 3 true false [demo_device].

Lemma bring_up_legal_witness :
  ∃ w', (r1 ← QueuePair.modify_qp_to_init 100;
         r2 ← QueuePair.modify_qp_to_rtr config0 100;
         r3 ← QueuePair.modify_qp_to_rts 100;
         mret [r1; r2; r3])
    (set_ib demo_ib (set_qps {[ 100 := demo_qp ]}
      (mkMach (∅ : gmap Z Z) ∅ ∅ ∅ 0 (mkMM None 0 false false tt) ib0 ∅ ∅ ∅ disp0
        (logger_of RDMADispatcher_logger) ∅ ∅))) = Ret ([0; 0; 0], w').
Proof.
  edestruct (bring_up_legal config0 (set_ib demo_ib (set_qps {[ 100 := demo_qp ]}
      (mkMach (∅ : gmap Z Z) ∅ ∅ ∅ 0 (mkMM None 0 false false tt) ib0 ∅ ∅ ∅ disp0
        (logger_of RDMADispatcher_logger) ∅ ∅))) 100 demo_qp demo_device demo_port)
    as (w'&Heq&_); [reflexivity..|]. eexists. exact Heq.
Defined.

(** ** Handshake messages *)

(** What one side sends is what the other side learns. When the write
    takes the whole message, [send_cm_meta] returns 0; and when a peer reads
    that message, [recv_cm_meta] returns its length and the peer's
    [peer_cm_meta] is exactly the sender's [local_cm_meta]; nothing else of
    the peer's queue pair changes. *)
Theorem handshake_delivers {W P W' P'} `{!World W, !World W'} (cfg : config)
    (a : mach W P) (b : mach W' P') qa ka qb kb fda fdb junk wa wb o :
  qps a !! qa = Some ka → qps b !! qb = Some kb → wf_msg (QueuePair.cm_of cfg ka) →
  let msg := msg_buffer (print_cm (QueuePair.cm_of cfg ka)) junk in
  sys_call (c_write fda msg) (world a) = (TCP_MSG_LEN, o, wa) →
  sys_call (c_read fdb TCP_MSG_LEN) (world b) = (TCP_MSG_LEN, msg, wb) →
  QueuePair.send_cm_meta cfg qa fda junk a = Ret (0, set_world wa a) ∧
  QueuePair.recv_cm_meta qb fdb b = Ret (TCP_MSG_LEN,
    set_qps (<[qb := set_peer_cm_meta (local_cm_meta ka) kb]> (qps b)) (set_world wb b)).
Proof.
  intros Ha Hb Hwf msg Hw Hr.
  destruct (print_cm_parses (QueuePair.cm_of cfg ka) junk Hwf) as [Hlen Hparse]. split.
  - unfold QueuePair.send_cm_meta, mbind, ST_bind. rewrite (get_qp_eq _ _ _ Ha).
    destruct (Nat.ltb_spec (length (print_cm (QueuePair.cm_of cfg ka))) (Z.to_nat TCP_MSG_LEN)) as [_|E];
      [|change (Z.to_nat TCP_MSG_LEN) with 93%nat in E; lia].
    cbn [QueuePair.send_cm_loop]. unfold mbind, ST_bind. fold msg.
    by rewrite (sysret_eq _ _ _ _ _ Hw).
  - unfold QueuePair.recv_cm_meta, mbind, ST_bind, sys. rewrite Hr. cbn [fst snd].
    change (TCP_MSG_LEN <? 0) with false. change (TCP_MSG_LEN =? 0) with false.
    rewrite Z.eqb_refl. cbn [negb]. fold msg in Hparse. rewrite Hparse. cbn [lift].
    rewrite (on_qp_eq _ qb kb) by done. unfold QueuePair.cm_of. simpl.
    by destruct (local_cm_meta ka).
Qed.

Lemma demo_qp_wf : wf_msg (QueuePair.cm_of config0 demo_qp).
Proof.
  unfold wf_msg, QueuePair.cm_of. unfold_ints. simpl. split_and!; try lia.
  repeat (constructor; [lia|]). constructor.
Qed.

Definition demo_wire (junk : list Z) : list Z :=
  msg_buffer (print_cm (QueuePair.cm_of config0 demo_qp)) junk.

Lemma handshake_delivers_witness :
  ∃ m', QueuePair.recv_cm_meta 200 5
      (set_qps {[ 200 := demo_qp ]} (mach0 [(TCP_MSG_LEN, demo_wire [], 0)])) = Ret (TCP_MSG_LEN, m').
Proof.
  destruct (handshake_delivers config0
    (set_qps {[ 100 := demo_qp ]} (mach0 [(TCP_MSG_LEN, [], 0)]))
    (set_qps {[ 200 := demo_qp ]} (mach0 [(TCP_MSG_LEN, demo_wire [], 0)]))
    100 demo_qp 200 demo_qp 4 5 []
    (mkScript [] 0 [c_write 4 (demo_wire [])]) (mkScript [] 0 [c_read 5 TCP_MSG_LEN]) [])
    as [_ H]; [reflexivity|reflexivity|apply demo_qp_wf|reflexivity|reflexivity|].
  eexists. exact H.
Defined.

(** The writes an attempt with [retry] retries left makes on a list of answers,
    and its result *)
Fixpoint send_result (retry : nat) (replies : list (Z * list Z * Z)) (e0 : Z) : nat * Z :=
  let '(r, e, rest) :=
    match replies with [] => (0, e0, []) | (r, _, e) :: rest => (r, e, rest) end in
  if r =? TCP_MSG_LEN then (1%nat, 0) else
  if (r <? 0) && ((e =? EINTR) || (e =? EAGAIN)) then
    match retry with
    | S retry => let '(n, x) := send_result retry rest e in (S n, x)
    | O => (1%nat, - e)
    end
  else (1%nat, - e).

Lemma send_cm_loop_script {P} retry : ∀ (m : mach script P) fd text junk,
  ∃ w', QueuePair.send_cm_loop retry fd text junk m =
      Ret ((send_result retry (sc_replies (world m)) (sc_errno (world m))).2, set_world w' m) ∧
    sc_log w' = sc_log (world m) ++
      replicate (send_result retry (sc_replies (world m)) (sc_errno (world m))).1
        (c_write fd (msg_buffer text junk)).
Proof.
  induction retry as [|retry IH]; intros m fd text junk;
    cbn [QueuePair.send_cm_loop send_result]; unfold mbind, ST_bind, sysret, sys, errno, gets, mbind, ST_bind;
    destruct m as [[replies e lg] ? ? ? ? ? ? ? ? ? ? ? ? ?]; simpl;
    destruct replies as [|[[r out] e'] replies]; simpl.
  - destruct (e =? EINTR), (e =? EAGAIN); simpl; eauto.
  - destruct (r =? TCP_MSG_LEN); simpl; [eauto|].
    destruct ((r <? 0) && ((e' =? EINTR) || (e' =? EAGAIN))); simpl; eauto.
  - eauto.
  - destruct (r =? TCP_MSG_LEN); simpl; [eauto|].
    destruct ((r <? 0) && ((e' =? EINTR) || (e' =? EAGAIN))); simpl; [|eauto].
    match goal with |- context [QueuePair.send_cm_loop _ _ _ _ ?m1] =>
      destruct (IH m1 fd text junk) as (w'&Heq&Hlog) end.
    simpl in *. rewrite Heq. destruct (send_result retry replies e') as [n x]. simpl in *.
    exists w'. split; [done|]. rewrite Hlog. by rewrite <-app_assoc.
Qed.

(** [send_cm_meta] terminates after at most four writes of the same
    message, and its result is the one of [send_result]: 0 as soon as a write
    takes the whole message, a retry on an interrupted or would-block write
    while fewer than three were made, minus errno in every other case. *)
Theorem send_cm_meta_retries {P} (cfg : config) (m : mach script P) q k fd junk :
  qps m !! q = Some k → wf_msg (QueuePair.cm_of cfg k) →
  let res := send_result 3 (sc_replies (world m)) (sc_errno (world m)) in
  (1 ≤ res.1 ≤ 4)%nat ∧
  ∃ w', QueuePair.send_cm_meta cfg q fd junk m = Ret (res.2, set_world w' m) ∧
    sc_log w' = sc_log (world m) ++
      replicate res.1 (c_write fd (msg_buffer (print_cm (QueuePair.cm_of cfg k)) junk)).
Proof.
  intros Hk Hwf res. split.
  - assert (∀ n rs e, (1 ≤ (send_result n rs e).1 ≤ S n)%nat) as Hb.
    { induction n as [|n IH]; intros rs e; cbn [send_result]; destruct rs as [|[[r o] e'] rs];
        repeat case_match; simplify_eq/=; try lia;
        match goal with H : send_result n ?a ?b = _ |- _ => specialize (IH a b); rewrite H in IH end;
        simpl in *; lia. }
    apply Hb.
  - destruct (print_cm_parses _ junk Hwf) as [Hlen _].
    unfold QueuePair.send_cm_meta, mbind, ST_bind. rewrite (get_qp_eq _ _ _ Hk).
    destruct (Nat.ltb_spec (length (print_cm (QueuePair.cm_of cfg k))) (Z.to_nat TCP_MSG_LEN)) as [_|E];
      [|change (Z.to_nat TCP_MSG_LEN) with 93%nat in E; lia].
    apply send_cm_loop_script.
Qed.

(** Two interrupted writes, then success *)
Lemma send_cm_meta_retries_witness :
  ∃ w', QueuePair.send_cm_meta config0 100 4 []
    (set_qps {[ 100 := demo_qp ]} (mach0 [(-1, [], 4); (-1, [], 11); (93, [], 0)])) =
    Ret (0, set_world w' (set_qps {[ 100 := demo_qp ]} (mach0 [(-1, [], 4); (-1, [], 11); (93, [], 0)]))).
Proof.
  destruct (send_cm_meta_retries config0
    (set_qps {[ 100 := demo_qp ]} (mach0 [(-1, [], 4); (-1, [], 11); (93, [], 0)])) 100 demo_qp 4 [])
    as (_&w'&Heq&_); [reflexivity|apply demo_qp_wf|exists w'; exact Heq].
Defined.

(** ** Death *)

(** [to_dead] on every branch. A dead queue pair is left alone. Otherwise
    the queue pair is asked to move to the error state; if that fails the
    result is -1; if it succeeds exactly one beacon is posted to the send
    queue; only when the beacon was accepted does the queue pair become dead
    and the result 0, and when it was refused the result is minus errno and
    the queue pair is not marked. No other field changes. *)
Theorem to_dead_spec {W P} `{!World W} (m : mach W P) q k r1 o1 w1 r2 o2 w2 :
  qps m !! q = Some k →
  let err := mkAttr IBV_QPS_ERR 0 0 0 0 0 0 0 0 0 0 0 (replicate 16 0) 0 0 0 0 0 0 0 0 0 0 in
  sys_call (ibv_modify_qp (qp_qp k) err IBV_QP_STATE) (world m) = (r1, o1, w1) →
  sys_call (ibv_post_send (qp_qp k) [mkWR BEACON_WRID None]) w1 = (r2, o2, w2) →
  QueuePair.to_dead q m =
    if qp_dead k then Ret (0, m) else
    if negb (r1 =? 0) then Ret (-1, set_world w1 m) else
    if negb (r2 =? 0) then Ret (- get_errno w2, set_world w2 m) else
    Ret (0, set_qps (<[q := set_qp_dead true k]> (qps m)) (set_world w2 m)).
Proof.
  intros Hk err H1 H2. unfold QueuePair.to_dead, mbind, ST_bind. rewrite (get_qp_eq _ _ _ Hk).
  destruct (qp_dead k); [done|]. unfold QueuePair.modify_qp_to_error, mbind, ST_bind.
  rewrite (get_qp_eq _ _ _ Hk). fold err. rewrite (sysret_eq _ _ _ _ _ H1).
  destruct (r1 =? 0); simpl; [|done].
  rewrite (sysret_eq (set_world w1 m) _ _ _ _ H2). unfold set_world. simpl.
  destruct (r2 =? 0); simpl; [|done]. by rewrite (on_qp_eq _ q k) by done.
Qed.

Definition demo_dying : mach script list_pool :=
  set_qps {[ 100 := demo_qp ]} (mach0 [(0, [], 0); (0, [], 0)]).

Lemma to_dead_spec_witness :
  ∃ w', QueuePair.to_dead 100 demo_dying =
    Ret (0, set_qps (<[100 := set_qp_dead true demo_qp]> (qps demo_dying)) (set_world w' demo_dying)).
Proof.
  eexists. rewrite (to_dead_spec demo_dying 100 demo_qp 0 [] (script_call (ibv_modify_qp 60
    (mkAttr IBV_QPS_ERR 0 0 0 0 0 0 0 0 0 0 0 (replicate 16 0) 0 0 0 0 0 0 0 0 0 0) IBV_QP_STATE)
    (world demo_dying)).2 0 []
    (script_call (ibv_post_send 60 [mkWR BEACON_WRID None]) (script_call (ibv_modify_qp 60
    (mkAttr IBV_QPS_ERR 0 0 0 0 0 0 0 0 0 0 0 (replicate 16 0) 0 0 0 0 0 0 0 0 0 0) IBV_QP_STATE)
    (world demo_dying)).2).2); reflexivity.
Defined.
