(* ===== verification/Net.v ===== *)
(** * Sockets of the operating system (src/network/net_handler.h and .cc)

    [NetHandler]: creating a stream socket, its flags and options, and the
    blocking and non-blocking connect. *)

From S2P Require Import Prelude State Addr Buffers PerfCounters Machine Memory QueuePair.

Definition O_NONBLOCK : Z := 2048.
Definition SOCK_STREAM_CLOEXEC : Z := 524289.
Definition SOL_SOCKET : Z := 1.
Definition SO_RCVBUF : Z := 8.
Definition SO_PRIORITY : Z := 12.
Definition IPPROTO_IP : Z := 0.
Definition IPPROTO_TCP : Z := 6.
Definition IPPROTO_IPV6 : Z := 41.
Definition TCP_NODELAY : Z := 1.
Definition IP_TOS : Z := 1.
Definition IPV6_TCLASS : Z := 67.
Definition IPTOS_CLASS_CS6 : Z := 192.
Definition EISCONN : Z := 106.
Definition EALREADY : Z := 114.
Definition EINPROGRESS : Z := 115.

Module NetHandler.
Section net_ops.
Context {W P : Type} `{!World W} (cfg : config).
Abbreviation M := (M W P).

(** The code that would use [reuse_addr] is commented out. *)
Definition create_socket (domain : Z) : M Z :=
  s ← sysret (c_socket domain SOCK_STREAM_CLOEXEC 0);
  if s =? -1 then e ← errno; mret (- e) else mret s.

Definition set_nonblock (sd : Z) : M Z :=
  flags ← sysret (c_fcntl_getfl sd);
  if flags <? 0 then e ← errno; mret (- e) else
  r ← sysret (c_fcntl_setfl sd (Z.lor flags O_NONBLOCK));
  if r <? 0 then e ← errno; mret (- e) else mret 0.

(** [r] after one [setsockopt] *)
Definition setopt (sd level opt val : Z) : M Z :=
  r ← sysret (c_setsockopt sd level opt val);
  if r <? 0 then errno else mret r.

Definition set_socket_options (sd : Z) (nodelay : bool) (size : Z) : M Z :=
  r ← (if nodelay then setopt sd IPPROTO_TCP TCP_NODELAY 1 else mret 0);
  r ← (if negb (size =? 0) then setopt sd SOL_SOCKET SO_RCVBUF size else mret r);
  mret (- r).

Definition set_priority (sd prio domain : Z) : M unit :=
  if prio <? 0 then mret tt else
  if domain =? AF_INET then
    setopt sd IPPROTO_IP IP_TOS IPTOS_CLASS_CS6 ;; setopt sd SOL_SOCKET SO_PRIORITY prio ;; mret tt
  else if domain =? AF_INET6 then
    setopt sd IPPROTO_IPV6 IPV6_TCLASS IPTOS_CLASS_CS6 ;; setopt sd SOL_SOCKET SO_PRIORITY prio ;; mret tt
  else mret tt.

(** The local bind before a connect; [Some r] is an early return. *)
Definition bind_local (s : Z) (bind_addr : entity_addr_t) : M (option Z) :=
  if m_bind_before_connect_ cfg && negb (Addr.is_blank_ip bind_addr) then
    a ← lift (Addr.set_port 0 bind_addr);
    r ← sysret (c_bind s (Addr.get_sockaddr a));
    if r <? 0 then e ← errno; sysret (c_close s) ;; mret (Some (- e)) else mret None
  else mret None.

Definition generic_connect (addr bind_addr : entity_addr_t) (nonblock : bool) : M Z :=
  s ← create_socket (Addr.get_family addr);
  if s <? 0 then mret s else
  r ← (if nonblock then set_nonblock s else mret 0);
  if r <? 0 then sysret (c_close s) ;; mret r else
  set_socket_options s (m_tcp_nodelay_ cfg) (m_tcp_rcvbuf_bytes_ cfg) ;;
  b ← bind_local s bind_addr;
  match b with
  | Some r => mret r
  | None =>
    r ← sysret (c_connect s (Addr.get_sockaddr addr));
    if r <? 0 then
      e ← errno;
      if ((e =? EINPROGRESS) || (e =? EAGAIN)) && nonblock then mret s else
      sysret (c_close s) ;; mret (- e)
    else mret s
  end.

Definition reconnect (addr : entity_addr_t) (sd : Z) : M Z :=
  r ← sysret (c_connect sd (Addr.get_sockaddr addr));
  e ← errno;
  if (r <? 0) && negb (e =? EISCONN) then
    if (e =? EINPROGRESS) || (e =? EALREADY) || (e =? EAGAIN) then mret 1 else mret (- e)
  else mret 0.

Definition connect (addr bind_addr : entity_addr_t) : M Z := generic_connect addr bind_addr false.
Definition nonblock_connect (addr bind_addr : entity_addr_t) : M Z := generic_connect addr bind_addr true.

End net_ops.
End NetHandler.

(** ** No descriptor is leaked *)

(** A world whose calls can be traced and whose failing calls set [errno] *)
Class Traced (W : Type) `{World W} := {
  trace : W → list call;
  trace_call c w r out w' : sys_call c w = (r, out, w') → trace w' = trace w ++ [c];
  errno_pos c w r out w' : sys_call c w = (r, out, w') → r < 0 → 0 < get_errno w';
}.

(** The descriptors a trace closes *)
Definition closes (l : list call) : list Z :=
  omap (λ c, match c with c_close fd => Some fd | _ => None end) l.

Section leak.
Context {W P : Type} `{!World W, !Traced W} (cfg : config).
Implicit Types m : mach W P.

Definition ran (m m' : mach W P) (fds : list Z) : Prop :=
  ∃ l, trace (world m') = trace (world m) ++ l ∧ closes l = fds.

Lemma ran_refl m : ran m m [].
Proof. exists []. by rewrite app_nil_r. Qed.
Lemma ran_trans m1 m2 m3 f1 f2 : ran m1 m2 f1 → ran m2 m3 f2 → ran m1 m3 (f1 ++ f2).
Proof.
  intros (l1&H1&<-) (l2&H2&<-). exists (l1 ++ l2). rewrite H2, H1, app_assoc. split; [done|].
  unfold closes. apply omap_app.
Qed.
Lemma ran_call c m r out w' : sys_call c (world m) = (r, out, w') →
  ran m (set_world w' m) (closes [c]).
Proof. intros H. exists [c]. split; [|done]. simpl. by eapply trace_call. Qed.

(** One call, with what it says of [errno] *)
Lemma wlp_sysret_ran c m : wlp (sysret c) (λ r m', ran m m' (closes [c]) ∧
  (r < 0 → 0 < get_errno (world m'))) m.
Proof.
  unfold sysret. wlp_step. wlp_step. wlp_step. simpl. split; [by eapply ran_call|]. simpl. by eapply errno_pos.
Qed.

Lemma wlp_sysret_close fd m : wlp (sysret (c_close fd)) (λ _ m', ran m m' [fd]) m.
Proof. eapply wlp_mono; [apply wlp_sysret_ran|]. by intros r m' [? _]. Qed.

Lemma wlp_errno (Q : Z → mach W P → Prop) m : Q (get_errno (world m)) m → wlp errno Q m.
Proof. done. Qed.

Lemma create_socket_ran domain m : wlp (NetHandler.create_socket domain) (λ _ m', ran m m' []) m.
Proof.
  unfold NetHandler.create_socket. wlp_step. eapply wlp_mono; [apply wlp_sysret_ran|]. intros s m1 [Hr _].
  case_match; [wlp_step; apply wlp_errno|]; by wlp_step.
Qed.

Lemma set_nonblock_ran sd m : wlp (NetHandler.set_nonblock sd) (λ r m', ran m m' []) m.
Proof.
  unfold NetHandler.set_nonblock. wlp_step. eapply wlp_mono; [apply wlp_sysret_ran|]. intros f m1 [Hr _].
  case_match; [wlp_step; apply wlp_errno; by wlp_step|].
  wlp_step. eapply wlp_mono; [apply wlp_sysret_ran|]. intros r m2 [Hr2 _].
  pose proof (ran_trans _ _ _ _ _ Hr Hr2). case_match; [wlp_step; apply wlp_errno|]; by wlp_step.
Qed.

Lemma setopt_ran sd level opt val m : wlp (NetHandler.setopt sd level opt val) (λ _ m', ran m m' []) m.
Proof.
  unfold NetHandler.setopt. wlp_step. eapply wlp_mono; [apply wlp_sysret_ran|]. intros r m1 [Hr _].
  case_match; [by apply wlp_errno|by wlp_step].
Qed.

Lemma set_socket_options_ran sd nodelay size m :
  wlp (NetHandler.set_socket_options sd nodelay size) (λ _ m', ran m m' []) m.
Proof.
  unfold NetHandler.set_socket_options. wlp_step. apply (wlp_mono _ (λ _ m1, ran m m1 [])).
  { case_match; [apply setopt_ran|apply wlp_ret, ran_refl]. }
  intros r m1 Hr1. wlp_step. apply (wlp_mono _ (λ _ m2, ran m m2 [])).
  { case_match; [|by apply wlp_ret]. eapply wlp_mono; [apply setopt_ran|]. intros ? ? Hr2.
    by apply (ran_trans _ _ _ _ _ Hr1 Hr2). }
  intros ? ? ?. by wlp_step.
Qed.

Lemma bind_local_ran s a m : wlp (NetHandler.bind_local cfg s a) (λ o m',
  match o with None => ran m m' [] | Some r => r < 0 ∧ ran m m' [s] end) m.
Proof.
  unfold NetHandler.bind_local. case_match; [|apply wlp_ret, ran_refl].
  wlp_step. wlp_step. wlp_step. eapply wlp_mono; [apply wlp_sysret_ran|]. intros r m1 [Hr1 He].
  case_match eqn:E; [|by apply wlp_ret]. wlp_step. apply wlp_errno. wlp_step.
  eapply wlp_mono; [apply wlp_sysret_close|]. intros ? m2 Hr2. wlp_step. split; [|by apply (ran_trans _ _ _ _ _ Hr1 Hr2)].
  apply Z.ltb_lt in E. specialize (He E). lia.
Qed.

Lemma connect_phase s addr nb m m0 : ran m0 m [] → 0 ≤ s →
  wlp (r ← sysret (c_connect s addr);
       if r <? 0 then
         e ← errno;
         if ((e =? EINPROGRESS) || (e =? EAGAIN)) && nb then mret s else
         sysret (c_close s) ;; mret (- e)
       else mret s)
    (λ r m', (r = s ∧ ran m0 m' []) ∨ (r < 0 ∧ ran m0 m' [s])) m.
Proof.
  intros H0 Hs. wlp_step. eapply wlp_mono; [apply wlp_sysret_ran|]. intros r m1 [Hr1 He].
  pose proof (ran_trans _ _ _ _ _ H0 Hr1) as Hr. case_match eqn:E; [|wlp_step; by left].
  wlp_step. apply wlp_errno. case_match; [wlp_step; by left|]. wlp_step.
  eapply wlp_mono; [apply wlp_sysret_close|]. intros ? m2 Hr2. wlp_step. right.
  split; [|by apply (ran_trans _ _ _ _ _ Hr Hr2)]. apply Z.ltb_lt in E. specialize (He E). lia.
Qed.
End leak.

(** [connect] and [nonblock_connect] leak no descriptor: a descriptor they
    return is the socket they opened and was not closed; when they fail after
    opening a socket, they have closed exactly that socket, once, and the
    result is negative. *)
Theorem generic_connect_no_leak {W P} `{!World W, !Traced W} (cfg : config) (m m1 m' : mach W P)
    addr bind_addr nb s r :
  NetHandler.create_socket (Addr.get_family addr) m = Ret (s, m1) →
  NetHandler.generic_connect cfg addr bind_addr nb m = Ret (r, m') →
  ran m m1 [] ∧ (r = s ∧ ran m1 m' [] ∨ 0 ≤ s ∧ r < 0 ∧ ran m1 m' [s]).
Proof.
  intros Hs Hr. split; [by apply (wlp_elim _ _ _ _ _ (create_socket_ran _ m) Hs)|].
  unfold NetHandler.generic_connect in Hr. revert Hr. unfold mbind at 1, ST_bind at 1. rewrite Hs.
  apply (wlp_elim _ (λ r m', r = s ∧ ran m1 m' [] ∨ 0 ≤ s ∧ r < 0 ∧ ran m1 m' [s])). clear Hs m.
  case_match eqn:Es; [apply wlp_ret; left; split; [done|apply ran_refl]|]. apply Z.ltb_ge in Es.
  wlp_step. apply (wlp_mono _ (λ _ m2, ran m1 m2 [])).
  { case_match; [apply set_nonblock_ran|apply wlp_ret, ran_refl]. }
  intros n m2 H2. case_match eqn:En.
  { wlp_step. eapply wlp_mono; [apply wlp_sysret_close|]. intros ? m3 H3. wlp_step. right.
    apply Z.ltb_lt in En. split_and!; [done..|]. by apply (ran_trans _ _ _ _ _ H2 H3). }
  wlp_step. eapply wlp_mono; [apply set_socket_options_ran|]. intros ? m3 H3.
  pose proof (ran_trans _ _ _ _ _ H2 H3) as H13. wlp_step.
  eapply wlp_mono; [apply bind_local_ran|]. intros [b|] m4; intros H4.
  - destruct H4 as [Hb H4]. wlp_step. right. split_and!; [done..|]. by apply (ran_trans _ _ _ _ _ H13 H4).
  - pose proof (ran_trans _ _ _ _ _ H13 H4) as H14. simpl in H14.
    eapply wlp_mono; [by apply connect_phase|]. naive_solver.
Qed.

(** A system whose calls succeed with 5, except for [connect], which is refused *)
Definition refuse_call (c : call) (w : list call) : Z * list Z * list call :=
  (match c with c_connect _ _ => -1 | _ => 5 end, [], w ++ [c]).
#[global] Instance refuse_world : World (list call) := {| sys_call := refuse_call; get_errno _ := 111 |}.
#[global] Instance refuse_traced : Traced (list call).
Proof. refine {| trace w := w |}; [by intros c w r out w' [= _ _ <-]|done]. Defined.

Definition demo_os : mach (list call) list_pool :=
  mkMach [] ∅ ∅ ∅ 0 (mkMM None 0 false false (mkPool [] 184 4)) ib0 ∅ ∅ ∅ disp0
    (PerfCounters.create "" 0 1) ∅ ∅.

Lemma generic_connect_no_leak_witness : ∃ m',
  NetHandler.generic_connect config0 demo_addr demo_addr true demo_os = Ret (-111, m') ∧
  ran (run (NetHandler.create_socket 2) demo_os) m' [5].
Proof.
  destruct (NetHandler.generic_connect config0 demo_addr demo_addr true demo_os) as [[r m']|] eqn:E;
    [|by vm_compute in E].
  assert (r = -111) as -> by (by vm_compute in E; injection E).
  exists m'. split; [done|].
  destruct (generic_connect_no_leak config0 demo_os (run (NetHandler.create_socket 2) demo_os) m'
    demo_addr demo_addr true 5 (-111)) as (_&[[? _]|(_&_&H)]);
    [vm_compute; reflexivity|exact E|done|exact H].
Defined.
