(* ===== verification/Infiniband.v ===== *)
(** * The Infiniband object (src/core/Infiniband.cc)

    Devices and ports, initialisation, completion channels and queues, posting
    receive buffers, and the life of a queue pair object around the verbs
    calls. *)

From S2P Require Import Prelude State Buffers PerfCounters Machine Memory Wire QueuePair Net.

Definition IBV_PORT_ACTIVE := 4.
Definition CQ_DEPTH := 30000.
Definition MAX_SHARED_RX_SGE_COUNT := 1.
Definition MAX_ACK_EVENT := 5000.

Section infiniband_ops.
Context {W P : Type} `{!World W, !BoostPool P} (cfg : config).
Abbreviation M := (M W P).

(** ** Devices *)

(** [Port::Port]; the outputs of [ibv_query_port] read are lid, state and
    gid_tbl_len, those of [ibv_query_gid] the 16 bytes. *)
Definition Port_create (ctxt ipn : Z) : M port :=
  '(r, out) ← sys (ibv_query_port ctxt ipn);
  if r =? -1 then fail KAbort else
  lid ← the (out !! 0%nat);
  state ← the (out !! 1%nat);
  tbl ← the (out !! 2%nat);
  assert (m_gid_index_ cfg <? tbl) ;;
  '(r, gid) ← sys (ibv_query_gid ctxt ipn (m_gid_index_ cfg));
  if negb (r =? 0) then fail KAbort else
  mret (mkPort ctxt ipn lid state tbl (m_gid_index_ cfg) gid).

(** What both constructors of [Device] do once the context is known: the
    outputs of [ibv_query_device] read are phys_port_cnt, max_srq, max_srq_wr,
    max_qp_wr and max_mr_size. *)
Definition Device_query (dev ctxt : Z) : M device :=
  assert (negb (ctxt =? 0)) ;;
  '(_, name) ← sys (ibv_get_device_name dev);
  '(r, out) ← sys (ibv_query_device ctxt);
  if negb (r =? 0) then fail KAbort else
  ports ← the (out !! 0%nat);
  srq ← the (out !! 1%nat);
  srq_wr ← the (out !! 2%nat);
  qp_wr ← the (out !! 3%nat);
  mr_size ← the (out !! 4%nat);
  afd ← sysret (ibv_context_async_fd ctxt);
  mret (mkDevice dev name ctxt afd ports srq srq_wr qp_wr mr_size None).

Definition Device_create (dev : Z) : M device :=
  assert (negb (dev =? 0)) ;;
  ctxt ← sysret (ibv_open_device dev);
  Device_query dev ctxt.

Definition Device_create_cm (ctxt : Z) : M device :=
  dev ← sysret (ibv_context_device ctxt);
  assert (negb (dev =? 0)) ;;
  Device_query dev ctxt.

(** The loop of [Device::binding_port] over the ports [port_id], [n] left *)
Fixpoint bind_loop (n : nat) (port_id : Z) (d : device) (port_num : Z) : M device :=
  match n with
  | O => mret d
  | S n =>
    p ← Port_create (dev_ctxt d) port_id;
    if (port_id =? port_num) && (port_state p =? IBV_PORT_ACTIVE)
    then mret (set_active_port (Some p) d)
    else bind_loop n (port_id + 1) d port_num
  end.

Definition binding_port (d : device) (port_num : Z) : M device :=
  d ← bind_loop (Z.to_nat (phys_port_cnt d)) 1 d port_num;
  assert (bool_decide (is_Some (active_port d))) ;;
  mret d.

Fixpoint create_all (f : Z → M device) (l : list Z) : M (list device) :=
  match l with [] => mret [] | x :: l => d ← f x; ds ← create_all f l; mret (d :: ds) end.

(** [DeviceList::DeviceList] *)
Definition DeviceList_create : M (list device) :=
  '(p, devs) ← sys ibv_get_device_list;
  assert (negb (p =? 0)) ;;
  assert (negb (bool_decide (devs = []))) ;;
  if m_use_rdma_cm_ cfg then
    '(p, ctxs) ← sys rdma_get_devices;
    assert (negb (p =? 0)) ;;
    create_all Device_create_cm (take (length devs) ctxs)
  else create_all Device_create devs.

(** [DeviceList::get_device]: the first when no name is configured *)
Fixpoint get_device (name : list Z) (ds : list device) : option device :=
  match ds with
  | [] => None
  | d :: ds => if bool_decide (name = []) || bool_decide (name = dev_name d) then Some d
               else get_device name ds
  end.

(** The element of [devices] that [get_device] points to, changed *)
Fixpoint update_device (name : list Z) (d' : device) (ds : list device) : list device :=
  match ds with
  | [] => []
  | d :: ds => if bool_decide (name = []) || bool_decide (name = dev_name d) then d' :: ds
               else d :: update_device name d' ds
  end.

(** [Device::~Device]: only a device whose port was bound is closed. *)
Definition Device_delete (d : device) : M unit :=
  match active_port d with
  | Some _ => r ← sysret (ibv_close_device (dev_ctxt d)); assert (r =? 0)
  | None => mret tt
  end.
Definition DeviceList_delete (ds : list device) : M unit :=
  for_each ds Device_delete ;;
  sysret ibv_free_device_list ;;
  sysret rdma_free_devices ;;
  mret tt.

Definition ProtectionDomain_create (d : device) : M Z :=
  pd ← sysret (ibv_alloc_pd (dev_ctxt d));
  if pd =? 0 then fail KAbort else mret pd.

(** [Infiniband::verify_prereq], run once by the constructor; the last call
    only feeds a warning. *)
Definition verify_prereq : M unit :=
  (if m_rdma_enable_hugepage_ cfg then
     rc ← sysret c_setenv_hugepages;
     if negb (rc =? 0) then fail KAbort else mret tt
   else mret tt) ;;
  rc ← sysret ibv_fork_init;
  if negb (rc =? 0) then fail KAbort else
  sys c_getrlimit ;;
  mret tt.

(** ** Receive buffers *)

(** The loop that gathers [n] more receive buffers. It stops at the first
    NULL; an index past the two arrays of [max_recv_wr] entries overruns
    them. *)
Fixpoint collect (n : nat) (q : Z) (acc : list work_request) : M (list work_request) :=
  match n with
  | O => mret acc
  | S n =>
    c ← get_rx_buffer cfg;
    if c =? 0 then mret acc else
    x ← get_chunk c;
    k ← get_qp q;
    (if Z.of_nat (length acc) <? max_recv_wr k then mret tt else fail Undefined) ;;
    (if qp_srq k =? 0 then Chunk_set_qp c q ;; QueuePair.add_rq_wr q c else mret tt) ;;
    collect n q (acc ++ [mkWR c (Some (c + offsetof_data, ck_bytes x, ck_lkey x))])
  end.

(** The clean-up after a failed post: every request from the bad one up to,
    but not including, the last *)
Definition release_bad (q : Z) (bad : list work_request) : M unit :=
  for_each bad (λ w,
    QueuePair.remove_rq_wr q (w_id w) ;;
    Chunk_clear_qp (w_id w) ;;
    release_rx_buffer (w_id w)).

Definition post_chunks_to_rq (rq_wr_num q : Z) : M Z :=
  k ← get_qp q;
  wrs ← collect (Z.to_nat rq_wr_num) q [];
  let i := Z.of_nat (length wrs) in
  if (i =? 0) && (0 <? rq_wr_num) then mret 0 else
  assert (i =? rq_wr_num) ;;
  (if i =? 0 then fail Undefined else mret tt) ;;
  srq ← gets (λ m, support_srq (ib m));
  '(ret, out) ← (if srq : bool then
      h ← gets (λ m, ib_srq (ib m)); sys (ibv_post_srq_recv h wrs)
    else sys (ibv_post_recv (qp_qp k) wrs));
  if negb (ret =? 0) then
    b ← the (out !! 0%nat);
    let bad := take (length wrs - 1 - Z.to_nat b) (drop (Z.to_nat b) wrs) in
    release_bad q bad ;;
    mret (i - Z.of_nat (length bad))
  else mret i.

Definition recall_chunk_to_pool (c : Z) : M unit :=
  x ← get_chunk c;
  (if negb (ck_qp x =? 0) then QueuePair.remove_rq_wr (ck_qp x) c else mret tt) ;;
  release_rx_buffer c.

(** ** Queue pair objects *)

Definition device_port : M port :=
  d ← gets (λ m, ib_device (ib m)); d ← the d; the (active_port d).

Definition get_cq (q : Z) : M Z := t ← gets cqs; c ← the (t !! q); mret (cq_cq c).

Definition QueuePair_init (q : Z) : M Z :=
  k ← get_qp q;
  scq ← get_cq (qp_txcq k);
  rcq ← get_cq (qp_rxcq k);
  pd ← gets (λ m, ib_pd (ib m));
  let max_recv := if qp_srq k =? 0 then max_recv_wr k else 0 in
  r ← (if negb (m_use_rdma_cm_ cfg) then
         '(h, out) ← sys (ibv_create_qp pd scq rcq (qp_srq k) (max_send_wr k) max_recv (qp_type k));
         if h =? 0 then mret (-1) else
         on_qp q (λ k, set_qp_num (default 0 (out !! 0%nat)) (set_qp_qp h k)) ;;
         r ← QueuePair.modify_qp_to_init q;
         if negb (r =? 0) then sysret (ibv_destroy_qp h) ;; mret (-1) else mret 0
       else
         ok ← sysret (rdma_cm_verbs_match (qp_cm_id k) pd);
         assert (negb (ok =? 0)) ;;
         '(r, out) ← sys (rdma_create_qp (qp_cm_id k) pd scq rcq (qp_srq k) (max_send_wr k)
                            max_recv (qp_type k));
         if negb (r =? 0) then mret (-1) else
         h ← the (out !! 0%nat);
         on_qp q (λ k, set_qp_num (default 0 (out !! 1%nat)) (set_qp_qp h k)) ;;
         mret 0);
  if negb (r =? 0) then mret (-1) else
  num ← QueuePair.get_local_qp_number q;
  p ← device_port;
  on_qp q (λ k, set_local_cm_meta (mkMeta (port_lid p) num (initial_psn k) 0 (port_gid p)) k) ;;
  if qp_srq k =? 0 then
    n ← post_chunks_to_rq (max_recv_wr k) q;
    if n =? 0 then mret (-1) else mret 0
  else mret 0.

(** The destructor reads [qp->qp_num] before it tests [qp]. *)
Definition QueuePair_delete (q : Z) : M unit :=
  k ← get_qp q;
  if qp_qp k =? 0 then fail Undefined else
  r ← sysret (ibv_destroy_qp (qp_qp k));
  assert (r =? 0) ;;
  for_each (recv_queue k) release_rx_buffer ;;
  modify (λ m, set_qps (delete q (qps m)) m).

Definition create_queue_pair (tx rx type cm_id : Z) : M Z :=
  i ← gets ib;
  q ← QueuePair.create type (ib_physical_port i) (ib_srq i) tx rx (tx_queue_len i) (rx_queue_len i) cm_id;
  r ← QueuePair_init q;
  if negb (r =? 0) then QueuePair_delete q ;; mret 0 else mret q.

(** ** Completion channels and queues *)

Definition device_ctxt : M Z := d ← gets (λ m, ib_device (ib m)); d ← the d; mret (dev_ctxt d).

Definition get_cc (c : Z) : M comp_channel := t ← gets ccs; the (t !! c).
Definition put_cc (c : Z) (k : comp_channel) : M unit := modify (λ m, set_ccs (<[c := k]> (ccs m)) m).

Definition CompletionChannel_init (c : Z) : M Z :=
  ctxt ← device_ctxt;
  '(ch, out) ← sys (ibv_create_comp_channel ctxt);
  let fd := default 0 (out !! 0%nat) in
  put_cc c (mkCC ch fd 0 0) ;;
  if ch =? 0 then mret (-1) else
  rc ← NetHandler.set_nonblock fd;
  if rc <? 0 then sysret (ibv_destroy_comp_channel ch) ;; mret (-1) else mret 0.

Definition CompletionChannel_delete (c : Z) : M unit :=
  k ← get_cc c;
  (if negb (cc_channel k =? 0) then
     r ← sysret (ibv_destroy_comp_channel (cc_channel k)); assert (r =? 0)
   else mret tt) ;;
  modify (λ m, set_ccs (delete c (ccs m)) m).

Definition ack_events (c : Z) : M unit :=
  k ← get_cc c;
  sysret (ibv_ack_cq_events (cc_cq k) (cq_events_that_need_ack k)) ;;
  put_cc c (set_cq_events_that_need_ack 0 k).

Definition get_cq_event (c : Z) : M bool :=
  k ← get_cc c;
  '(r, out) ← sys (ibv_get_cq_event (cc_channel k));
  if negb (r =? 0) then mret false else
  let n := u32 (cq_events_that_need_ack k + 1) in
  if n =? MAX_ACK_EVENT then
    sysret (ibv_ack_cq_events (default 0 (out !! 0%nat)) MAX_ACK_EVENT) ;;
    put_cc c (set_cq_events_that_need_ack 0 k) ;;
    mret true
  else put_cc c (set_cq_events_that_need_ack n k) ;; mret true.

Definition create_comp_channel : M Z :=
  c ← sysret (c_new 0);
  put_cc c (mkCC 0 0 0 0) ;;
  r ← CompletionChannel_init c;
  if negb (r =? 0) then CompletionChannel_delete c ;; mret 0 else mret c.

Definition get_cqo (c : Z) : M comp_queue := t ← gets cqs; the (t !! c).
Definition put_cqo (c : Z) (k : comp_queue) : M unit := modify (λ m, set_cqs (<[c := k]> (cqs m)) m).

Definition CompletionQueue_init (c : Z) : M Z :=
  k ← get_cqo c;
  ctxt ← device_ctxt;
  cc ← get_cc (cq_channel k);
  cq ← sysret (ibv_create_cq ctxt (queue_depth k) c (cc_channel cc));
  put_cqo c (mkCQ (cq_channel k) cq (queue_depth k)) ;;
  if cq =? 0 then mret (-1) else
  r ← sysret (ibv_req_notify_cq cq 0);
  if negb (r =? 0) then
    sysret (ibv_destroy_cq cq) ;;
    put_cqo c (mkCQ (cq_channel k) 0 (queue_depth k)) ;;
    mret (-1)
  else put_cc (cq_channel k) (set_cc_cq cq cc) ;; mret 0.

Definition CompletionQueue_delete (c : Z) : M unit :=
  k ← get_cqo c;
  (if negb (cq_cq k =? 0) then r ← sysret (ibv_destroy_cq (cq_cq k)); assert (r =? 0) else mret tt) ;;
  modify (λ m, set_cqs (delete c (cqs m)) m).

Definition rearm_notify (c : Z) : M Z := k ← get_cqo c; sysret (ibv_req_notify_cq (cq_cq k) 0).

(** The completions [ibv_poll_cq] stored: wr_id, status, opcode, byte_len and
    qp_num of each *)
Fixpoint decode_wcs (n : nat) (l : list Z) : list wc :=
  match n with
  | O => []
  | S n => match l with
           | a :: b :: c :: d :: e :: l => mkWC a b c d e :: decode_wcs n l
           | _ => []
           end
  end.

Definition poll_cq (c num_entries : Z) : M (Z * list wc) :=
  k ← get_cqo c;
  '(r, out) ← sys (ibv_poll_cq (cq_cq k) num_entries);
  if r <? 0 then mret (-1, []) else mret (r, decode_wcs (Z.to_nat r) out).

Definition create_comp_queue (cc : Z) : M Z :=
  c ← sysret (c_new 0);
  put_cqo c (mkCQ cc 0 CQ_DEPTH) ;;
  r ← CompletionQueue_init c;
  if negb (r =? 0) then CompletionQueue_delete c ;; mret 0 else mret c.

(** ** Infiniband *)

Definition create_shared_receive_queue (max_wr max_sge : Z) : M Z :=
  pd ← gets (λ m, ib_pd (ib m)); sysret (ibv_create_srq pd max_wr max_sge).

Definition get_tx_buffers (c : list Z) (bytes : Z) : M (Z * list Z) := get_send_buffers_by_size c bytes.

(** The receive and send queue lengths [init] settles on *)
Definition rx_len (d : device) : Z :=
  let n := u32 (if m_rdma_support_srq_ cfg then max_srq_wr d else max_qp_wr d) in
  if n >? m_rdma_receive_queue_len_ cfg then m_rdma_receive_queue_len_ cfg else n.
Definition tx_len (d : device) : Z :=
  let n := u32 (max_qp_wr d - 1) in
  if n >? m_rdma_send_queue_len_ cfg then m_rdma_send_queue_len_ cfg else n.

Definition Infiniband_init : M unit :=
  i ← gets ib;
  if initialized i then mret tt else
  ds ← DeviceList_create;
  on_ib (set_ib_device_list ds) ;;
  on_ib (set_initialized true) ;;
  d ← (match get_device (m_rdma_device_name_ cfg) ds with
       | Some d => mret d | None => fail KAbort end);
  d ← binding_port d (m_rdma_port_num_ cfg);
  on_ib (set_ib_device (Some d)) ;;
  on_ib (set_ib_device_list (update_device (m_rdma_device_name_ cfg) d ds)) ;;
  p ← the (active_port d);
  on_ib (set_ib_physical_port (u8 (port_num p))) ;;
  pd ← ProtectionDomain_create d;
  on_ib (set_ib_pd pd) ;;
  rs ← NetHandler.set_nonblock (dev_async_fd d);
  assert (rs =? 0) ;;
  on_ib (set_support_srq (m_rdma_support_srq_ cfg)) ;;
  (if m_rdma_support_srq_ cfg then assert (negb (max_srq d =? 0)) else mret tt) ;;
  on_ib (set_rx_queue_len (rx_len d)) ;;
  (if (0 <? m_rdma_receive_buffers_bytes_ cfg) && (rx_len d >? m_rdma_receive_buffers_bytes_ cfg)
   then fail KAbort else mret tt) ;;
  on_ib (set_tx_queue_len (tx_len d)) ;;
  (if u64 (m_rdma_buffer_size_bytes_ cfg * tx_len d) >? max_mr_size d
   then fail KAbort else mret tt) ;;
  create_tx_pool cfg (m_rdma_buffer_size_bytes_ cfg) (u32 (8 * tx_len d)) ;;
  if m_rdma_support_srq_ cfg then
    h ← create_shared_receive_queue (rx_len d) MAX_SHARED_RX_SGE_COUNT;
    on_ib (set_ib_srq h) ;;
    post_chunks_to_rq (rx_len d) 0 ;;
    mret tt
  else mret tt.

Definition Infiniband_delete : M unit :=
  i ← gets ib;
  if negb (initialized i) then mret tt else
  (if support_srq i then sysret (ibv_destroy_srq (ib_srq i)) ;; mret tt else mret tt) ;;
  MemoryManager_delete cfg ;;
  sysret (ibv_dealloc_pd (ib_pd i)) ;;
  DeviceList_delete (ib_device_list i).

End infiniband_ops.

(** ** Laws of the pool

    The free list of [boost::simple_segregated_storage] is a stack: [malloc]
    takes its first chunk, [free] puts a chunk in front. *)

Class PoolLaws (P : Type) `{BoostPool P} := {
  pool_list : P → list Z;
  pool_list_empty : ∀ p, store_empty p = true ↔ pool_list p = [];
  pool_list_malloc : ∀ p c l, pool_list p = c :: l →
    (store_malloc p).1 = c ∧ pool_list (store_malloc p).2 = l;
  pool_list_free : ∀ p c, pool_list (pool_free c p) = c :: pool_list p;
}.

#[global] Program Instance list_pool_laws : PoolLaws list_pool := {| pool_list := lp_free |}.
Next Obligation. intros p. simpl. by rewrite bool_decide_eq_true. Qed.
Next Obligation. intros p c l H. simpl. by rewrite H. Qed.
Next Obligation. done. Qed.

Definition wr_of (h : gmap Z chunk) (c : Z) : work_request :=
  match h !! c with
  | Some x => mkWR c (Some (c + offsetof_data, ck_bytes x, ck_lkey x))
  | None => mkWR c None
  end.

Section rq_facts.
Context {W P : Type} `{!World W, !BoostPool P, !PoolLaws P} (cfg : config).
Implicit Types m : mach W P.

Definition rx_free m : list Z := pool_list (rxbuf_pool (mm m)).

Lemma get_rx_buffer_eq m c l : rx_free m = c :: l →
  ∃ p, get_rx_buffer cfg m = Ret (c, set_mm (set_rxbuf_pool p (mm m)) m) ∧ pool_list p = l.
Proof.
  intros Hl. unfold get_rx_buffer, mem_pool_malloc, mbind, ST_bind, gets.
  destruct (store_empty (rxbuf_pool (mm m))) eqn:E.
  { apply pool_list_empty in E. unfold rx_free in Hl. congruence. }
  destruct (pool_list_malloc _ _ _ Hl) as [Hc Hp]. simpl.
  destruct (store_malloc (rxbuf_pool (mm m))) as [c' p]. simpl in *. subst c'. by exists p.
Qed.

Lemma collect_spec q : ∀ l m k rest acc,
  rx_free m = l ++ rest → NoDup l → 0 ∉ l → Forall (λ c, is_Some (heap m !! c)) l →
  qps m !! q = Some k → qp_srq k = 0 →
  Z.of_nat (length acc + length l) ≤ max_recv_wr k →
  ∃ m', collect cfg (length l) q acc m = Ret (acc ++ (wr_of (heap m) <$> l), m') ∧
    rx_free m' = rest ∧ world m' = world m ∧ ib m' = ib m ∧
    qps m' = <[q := set_recv_queue (recv_queue k ++ l) k]> (qps m) ∧
    (∀ c x, heap m !! c = Some x →
       heap m' !! c = Some (if decide (c ∈ l) then set_ck_qp q x else x)) ∧
    (socks m', disp m', perf m') = (socks m, disp m, perf m).
Proof.
  induction l as [|c l IH]; intros m k rest acc Hfree Hnd H0 Hall Hk Hsrq Hmax.
  - exists m. simpl. rewrite !app_nil_r. split_and!; try done.
    rewrite insert_id; [done|]. rewrite Hk. by destruct k.
  - apply NoDup_cons in Hnd as [Hc Hnd]. apply Forall_cons in Hall as [[x Hx] Hall].
    destruct (get_rx_buffer_eq m c (l ++ rest) Hfree) as (p&Hget&Hp).
    set (m1 := set_mm (set_rxbuf_pool p (mm m)) m) in *.
    set (k2 := set_recv_queue (recv_queue k ++ [c]) k).
    set (m2 := set_qps (<[q := k2]> (qps m)) (set_heap (<[c := set_ck_qp q x]> (heap m)) m1)).
    destruct (IH m2 k2 rest (acc ++ [wr_of (heap m) c])) as (m'&Heq&Hfr&Hw&Hib&Hqp&Hheap&Hoth).
    { exact Hp. } { done. } { set_solver. }
    { eapply Forall_impl; [exact Hall|]. intros y Hy. simpl.
      destruct (decide (y = c)) as [->|]; [rewrite lookup_insert_eq; eauto|by rewrite lookup_insert_ne]. }
    { apply lookup_insert_eq. } { done. } { rewrite length_app. simpl in *. lia. }
    exists m'. split_and!; [|done|done|done| | |done].
    + cbn [length collect]. unfold mbind, ST_bind. rewrite Hget.
      destruct (Z.eqb_spec c 0); [set_solver|]. rewrite (get_chunk_eq m1 c x Hx), (get_qp_eq m1 q k Hk).
      destruct (Z.ltb_spec (Z.of_nat (length acc)) (max_recv_wr k)); [|simpl in Hmax; lia].
      cbn [mret ST_ret]. rewrite Hsrq. cbn [Z.eqb]. unfold Chunk_set_qp. rewrite (on_chunk_eq m1 c x _ Hx).
      unfold QueuePair.add_rq_wr, mbind, ST_bind.
      rewrite (get_qp_eq (set_heap (<[c:=set_ck_qp q x]> (heap m1)) m1) q k Hk). rewrite Hsrq.
      cbn [Z.eqb negb]. unfold put_qp, modify.
      assert (mkWR c (Some (c + offsetof_data, ck_bytes x, ck_lkey x)) = wr_of (heap m) c) as ->
        by (unfold wr_of; by rewrite Hx).
      fold k2. etrans; [exact Heq|]. f_equal. f_equal. rewrite <-app_assoc. f_equal. simpl. f_equal.
      apply list_fmap_ext. intros i y Hy. apply list_elem_of_lookup_2 in Hy.
      unfold wr_of. rewrite lookup_insert_ne by (intros ->; done). done.
    + rewrite Hqp. simpl. rewrite insert_insert_eq. f_equal. unfold k2. by rewrite <-app_assoc.
    + intros y z Hz. destruct (decide (y = c)) as [->|Hne].
      * rewrite (Hheap c (set_ck_qp q x)) by apply lookup_insert_eq.
        rewrite decide_False by done. rewrite decide_True by set_solver. congruence.
      * rewrite (Hheap y z) by (simpl; by rewrite lookup_insert_ne).
        destruct (decide (y ∈ l)); [rewrite decide_True by set_solver|rewrite decide_False by set_solver]; done.
Qed.
End rq_facts.

Lemma post_chunks_eq {W P} `{!World W, !BoostPool P, !PoolLaws P} (cfg : config) (m : mach W P)
    q k l rest out w' :
  rx_free m = l ++ rest → NoDup l → 0 ∉ l → l ≠ [] → Forall (λ c, is_Some (heap m !! c)) l →
  qps m !! q = Some k → qp_srq k = 0 → support_srq (ib m) = false →
  Z.of_nat (length l) ≤ max_recv_wr k →
  sys_call (ibv_post_recv (qp_qp k) (wr_of (heap m) <$> l)) (world m) = (0, out, w') →
  ∃ m', post_chunks_to_rq cfg (Z.of_nat (length l)) q m = Ret (Z.of_nat (length l), m') ∧
    rx_free m' = rest ∧ world m' = w' ∧
    qps m' = <[q := set_recv_queue (recv_queue k ++ l) k]> (qps m) ∧
    (∀ c x, heap m !! c = Some x → heap m' !! c = Some (if decide (c ∈ l) then set_ck_qp q x else x)) ∧
    (socks m', disp m', perf m') = (socks m, disp m, perf m).
Proof.
  intros Hfree Hnd H0 Hne Hall Hk Hsrq Hsup Hmax Hpost.
  destruct (collect_spec cfg q l m k rest [] Hfree Hnd H0 Hall Hk Hsrq) as (m1&Heq&Hfr&Hw&Hib&Hqp&Hheap&Hoth);
    [done|].
  unfold post_chunks_to_rq, mbind, ST_bind. rewrite (get_qp_eq _ _ _ Hk), Nat2Z.id, Heq.
  cbn [app]. rewrite length_fmap.
  destruct (Z.eqb_spec (Z.of_nat (length l)) 0) as [E|_]; [destruct l; [done|simpl in E; lia]|].
  cbn [andb]. rewrite Z.eqb_refl. cbn [assert mret ST_ret]. unfold gets. rewrite Hib, Hsup.
  unfold sys. rewrite Hw, Hpost. cbn [Z.eqb negb].
  eexists; split; [done|]. simpl. by split_and!.
Qed.

(** [post_chunks_to_rq] on a queue pair with its own receive queue: when
    the pool has the buffers and the verbs call accepts them, it posts one
    request per buffer (the buffer's address, size and key, the chunk's
    address as its id), returns the number asked for, takes exactly those
    buffers from the pool, enters them at the end of the queue pair's receive
    queue in the order posted, and marks each with the queue pair; nothing
    else of the queue pair changes. *)
Theorem post_chunks_posts {W P} `{!World W, !BoostPool P, !PoolLaws P} (cfg : config) (m : mach W P)
    q k l rest out w' :
  rx_free m = l ++ rest → NoDup l → 0 ∉ l → l ≠ [] → Forall (λ c, is_Some (heap m !! c)) l →
  qps m !! q = Some k → qp_srq k = 0 → support_srq (ib m) = false →
  Z.of_nat (length l) ≤ max_recv_wr k →
  sys_call (ibv_post_recv (qp_qp k) (wr_of (heap m) <$> l)) (world m) = (0, out, w') →
  ∃ m', post_chunks_to_rq cfg (Z.of_nat (length l)) q m = Ret (Z.of_nat (length l), m') ∧
    rx_free m' = rest ∧ world m' = w' ∧
    qps m' = <[q := set_recv_queue (recv_queue k ++ l) k]> (qps m) ∧
    ∀ c, c ∈ l → ∃ x, heap m' !! c = Some x ∧ ck_qp x = q.
Proof.
  intros Hfree Hnd H0 Hne Hall Hk Hsrq Hsup Hmax Hpost.
  destruct (post_chunks_eq cfg m q k l rest out w' Hfree Hnd H0 Hne Hall Hk Hsrq Hsup Hmax Hpost)
    as (m'&Heq&Hfr&Hw&Hq&Hheap&_).
  exists m'. split_and!; [done..|]. intros c Hc. destruct (proj1 (Forall_forall _ _) Hall c Hc) as [x Hx].
  rewrite (Hheap c x Hx). rewrite decide_True by done. eauto.
Qed.

(** Two receive chunks free in the pool *)
Definition demo_rxchunk (a : Z) : chunk := Chunk_new 7 128 (a + 40) 0 0 77.
Definition demo_rq : mach script list_pool :=
  set_mm (mkMM None 2 false false (mkPool [5000; 6000] 184 4))
    (set_heap {[ 5000 := demo_rxchunk 5000; 6000 := demo_rxchunk 6000 ]}
      (set_ib demo_ib (set_qps {[ 100 := demo_qp ]} (mach0 [])))).

Lemma post_chunks_posts_witness :
  ∃ m', post_chunks_to_rq config0 2 100 demo_rq = Ret (2, m') ∧ lp_free (rxbuf_pool (mm m')) = [].
Proof.
  destruct (post_chunks_posts config0 demo_rq 100 demo_qp [5000; 6000] [] []
    (script_call (ibv_post_recv 60 [mkWR 5000 (Some (5040, 128, 77)); mkWR 6000 (Some (6040, 128, 77))])
       (world demo_rq)).2) as (m'&Heq&Hfr&_); try reflexivity.
  - refine (bool_decide_unpack _ _). by vm_compute.
  - refine (bool_decide_unpack _ _). by vm_compute.
  - done.
  - repeat constructor; vm_compute; eauto.
  - by vm_compute.
  - exists m'. split; [exact Heq|exact Hfr].
Defined.

Section recall_facts.
Context {W P : Type} `{!World W, !BoostPool P, !PoolLaws P}.
Implicit Types m : mach W P.

Lemma remove_rq_wr_eq m q k c : qps m !! q = Some k → qp_srq k = 0 → c ∈ recv_queue k →
  QueuePair.remove_rq_wr q c m =
    Ret (tt, set_qps (<[q := set_recv_queue (QueuePair.erase c (recv_queue k)) k]> (qps m)) m).
Proof.
  intros Hk Hs Hc. unfold QueuePair.remove_rq_wr, mbind, ST_bind. rewrite (get_qp_eq _ _ _ Hk), Hs.
  cbn [Z.eqb negb]. by rewrite bool_decide_true.
Qed.

Lemma release_rx_buffer_eq m c x : heap m !! c = Some x →
  release_rx_buffer c m = Ret (tt,
    set_mm (set_rxbuf_pool (pool_free c (rxbuf_pool (mm m))) (mm m))
      (set_heap (<[c := set_ck_qp 0 x]> (heap m)) m)).
Proof.
  intros Hx. unfold release_rx_buffer, Chunk_clear_qp, Chunk_set_qp, mbind, ST_bind.
  by rewrite (on_chunk_eq _ _ _ _ Hx).
Qed.

(** The chunks of the bad requests leave the receive queue for the pool. *)
Lemma release_bad_spec q : ∀ ws m k,
  qps m !! q = Some k → qp_srq k = 0 → NoDup (w_id <$> ws) → (w_id <$> ws) ⊆ recv_queue k →
  Forall (λ w, is_Some (heap m !! w_id w)) ws →
  ∃ m' rq, release_bad q ws m = Ret (tt, m') ∧
    qps m' !! q = Some (set_recv_queue rq k) ∧ recv_queue k ≡ₚ (w_id <$> ws) ++ rq ∧
    rx_free m' = reverse (w_id <$> ws) ++ rx_free m.
Proof.
  induction ws as [|w ws IH]; intros m k Hk Hs Hnd Hsub Hall.
  - exists m, (recv_queue k). split_and!; [done|rewrite Hk; by destruct k|done|done].
  - csimpl in *. apply NoDup_cons in Hnd as [Hw Hnd]. apply Forall_cons in Hall as [[x Hx] Hall].
    assert (w_id w ∈ recv_queue k) as Hin by set_solver.
    pose proof (erase_perm _ _ Hin) as Hperm.
    set (k1 := set_recv_queue (QueuePair.erase (w_id w) (recv_queue k)) k).
    set (m1 := set_qps (<[q := k1]> (qps m)) m).
    set (m2 := set_heap (<[w_id w := set_ck_qp 0 x]> (heap m1)) m1).
    set (m3 := set_mm (set_rxbuf_pool (pool_free (w_id w) (rxbuf_pool (mm m2))) (mm m2))
                 (set_heap (<[w_id w := set_ck_qp 0 (set_ck_qp 0 x)]> (heap m2)) m2)).
    destruct (IH m3 k1) as (m'&rq&Heq&Hq&Hp&Hfr).
    { apply lookup_insert_eq. } { done. } { done. }
    { intros y Hy. simpl. assert (y ∈ w_id w :: QueuePair.erase (w_id w) (recv_queue k)) as Hy'
        by (rewrite <-Hperm; set_solver). apply elem_of_cons in Hy' as [->|?]; done. }
    { eapply Forall_impl; [exact Hall|]. intros v Hv. simpl.
      destruct (decide (w_id v = w_id w)) as [->|]; [rewrite lookup_insert_eq; eauto|].
      by rewrite !lookup_insert_ne. }
    exists m', rq. split_and!.
    + unfold release_bad in *. cbn [for_each]. unfold mbind, ST_bind.
      rewrite (remove_rq_wr_eq m q k _ Hk Hs Hin). fold k1. fold m1.
      unfold Chunk_clear_qp, Chunk_set_qp. rewrite (on_chunk_eq m1 _ x) by done. fold m2.
      rewrite (release_rx_buffer_eq m2 _ (set_ck_qp 0 x)) by apply lookup_insert_eq. fold m3. exact Heq.
    + by rewrite Hq.
    + rewrite Hperm. simpl in *. by rewrite <-Hp.
    + rewrite Hfr. unfold rx_free. simpl. rewrite pool_list_free, reverse_cons. by rewrite <-app_assoc.
Qed.
End recall_facts.

(** [recall_chunk_to_pool] returns a chunk to the pool, and takes it out
    of the receive queue of the queue pair it is marked with, if any; the mark
    is cleared. A marked chunk that is not in that queue stops the process. *)
Theorem recall_chunk_spec {W P} `{!World W, !BoostPool P, !PoolLaws P} (m : mach W P) c x k :
  heap m !! c = Some x → (ck_qp x ≠ 0 → qps m !! ck_qp x = Some k) → qp_srq k = 0 →
  if (negb (ck_qp x =? 0)) && negb (bool_decide (c ∈ recv_queue k))
  then recall_chunk_to_pool c m = Crash KAbort
  else ∃ m', recall_chunk_to_pool c m = Ret (tt, m') ∧ rx_free m' = c :: rx_free m ∧
    heap m' = <[c := set_ck_qp 0 x]> (heap m) ∧
    qps m' = (if ck_qp x =? 0 then qps m
              else <[ck_qp x := set_recv_queue (QueuePair.erase c (recv_queue k)) k]> (qps m)).
Proof.
  intros Hx Hk Hs. unfold recall_chunk_to_pool, mbind, ST_bind. rewrite (get_chunk_eq _ _ _ Hx).
  destruct (Z.eqb_spec (ck_qp x) 0) as [E|E]; cbn [negb andb].
  - cbn [mret ST_ret]. rewrite (release_rx_buffer_eq m c x Hx).
    eexists; split_and!; [done|apply pool_list_free|done|done].
  - destruct (decide (c ∈ recv_queue k)) as [Hc|Hc].
    + rewrite bool_decide_true by done. cbn [negb].
      rewrite (remove_rq_wr_eq m _ k _ (Hk E) Hs Hc). rewrite (release_rx_buffer_eq _ c x) by done.
      eexists; split_and!; [done|apply pool_list_free|done|done].
    + rewrite bool_decide_false by done. cbn [negb].
      unfold QueuePair.remove_rq_wr, mbind, ST_bind. rewrite (get_qp_eq _ _ _ (Hk E)), Hs.
      cbn [Z.eqb negb]. by rewrite bool_decide_false.
Qed.

Definition demo_recall : mach script list_pool :=
  set_heap {[ 5000 := set_ck_qp 100 (demo_rxchunk 5000) ]}
    (set_qps {[ 100 := set_recv_queue [4000; 5000] demo_qp ]} (mach0 [])).

Lemma recall_chunk_spec_witness :
  ∃ m', recall_chunk_to_pool 5000 demo_recall = Ret (tt, m') ∧ rx_free m' = [5000].
Proof.
  destruct (recall_chunk_spec demo_recall 5000 (set_ck_qp 100 (demo_rxchunk 5000))
    (set_recv_queue [4000; 5000] demo_qp)) as (m'&Heq&Hfr&_); [reflexivity|reflexivity|reflexivity|].
  exists m'. split; [exact Heq|exact Hfr].
Defined.

Lemma middle_slice {A} (a b : list A) x :
  take (length (a ++ b ++ [x]) - 1 - length a) (drop (length a) (a ++ b ++ [x])) = b.
Proof.
  rewrite drop_app_length, !length_app. simpl.
  replace (length a + (length b + 1) - 1 - length a)%nat with (length b) by lia. apply take_app_length.
Qed.

(** When the verbs call refuses the request at index [b], the clean-up
    loop of [post_chunks_to_rq] stops before the last request: the call
    returns [b + 1] although only [b] requests were posted, and the last
    chunk, which was refused with the others, stays in the receive queue and
    never goes back to the pool. *)
Theorem post_chunks_error_keeps_last {W P} `{!World W, !BoostPool P, !PoolLaws P} (cfg : config)
    (m : mach W P) q k posted bad last rest ret out w' :
  let l := posted ++ bad ++ [last] in
  rx_free m = l ++ rest → NoDup (recv_queue k ++ l) → 0 ∉ l → Forall (λ c, is_Some (heap m !! c)) l →
  qps m !! q = Some k → qp_srq k = 0 → support_srq (ib m) = false →
  Z.of_nat (length l) ≤ max_recv_wr k → ret ≠ 0 →
  sys_call (ibv_post_recv (qp_qp k) (wr_of (heap m) <$> l)) (world m) =
    (ret, Z.of_nat (length posted) :: out, w') →
  ∃ m' rq, post_chunks_to_rq cfg (Z.of_nat (length l)) q m = Ret (Z.of_nat (length posted) + 1, m') ∧
    rx_free m' = reverse bad ++ rest ∧
    qps m' !! q = Some (set_recv_queue rq k) ∧ rq ≡ₚ recv_queue k ++ posted ++ [last].
Proof.
  intros l Hfree Hnd H0 Hall Hk Hsrq Hsup Hmax Hret Hpost.
  assert (NoDup l) as Hndl by (apply NoDup_app in Hnd; apply Hnd).
  destruct (collect_spec cfg q l m k rest [] Hfree Hndl H0 Hall Hk Hsrq) as (m1&Heq&Hfr&Hw&Hib&Hqp&Hheap&Hoth);
    [done|].
  assert (w_id <$> (wr_of (heap m) <$> bad) = bad) as Hids.
  { rewrite <-list_fmap_compose. etrans; [|apply list_fmap_id]. apply list_fmap_ext.
    intros i c _. simpl. unfold wr_of. by destruct (heap m !! c). }
  set (k1 := set_recv_queue (recv_queue k ++ l) k).
  set (m2 := set_world w' m1).
  destruct (release_bad_spec q (wr_of (heap m) <$> bad) m2 k1) as (m'&rq&Heq2&Hq2&Hp2&Hfr2).
  { simpl. rewrite Hqp. apply lookup_insert_eq. } { done. }
  { rewrite Hids. unfold l in Hndl. apply NoDup_app in Hndl as (_&_&Hn).
    apply NoDup_app in Hn. apply Hn. }
  { rewrite Hids. simpl. unfold l. set_solver. }
  { apply Forall_fmap, Forall_forall. intros c Hc. simpl.
    assert (is_Some (heap m !! c)) as [x Hx].
    { apply (proj1 (Forall_forall _ _) Hall). unfold l. set_solver. }
    unfold compose. replace (w_id (wr_of (heap m) c)) with c by (unfold wr_of; by rewrite Hx).
    rewrite (Hheap c x Hx). eauto. }
  rewrite Hids in *. exists m', rq.
  assert (rq ≡ₚ recv_queue k ++ posted ++ [last]) as Hrq.
  { apply (Permutation_app_inv_l bad). etrans; [symmetry; exact Hp2|]. simpl. unfold l. solve_Permutation. }
  split_and!; [|rewrite Hfr2; f_equal; exact Hfr|done|done].
  unfold post_chunks_to_rq, mbind, ST_bind. rewrite (get_qp_eq _ _ _ Hk), Nat2Z.id, Heq.
  cbn [app]. rewrite length_fmap.
  assert (length l = length posted + length bad + 1)%nat as Hlen
    by (unfold l; rewrite !length_app; simpl; lia).
  destruct (Z.eqb_spec (Z.of_nat (length l)) 0) as [E|_]; [lia|].
  cbn [andb]. rewrite Z.eqb_refl. cbn [assert mret ST_ret]. unfold gets. rewrite Hib, Hsup.
  unfold sys. rewrite Hw, Hpost. rewrite (proj2 (Z.eqb_neq ret 0)) by done. cbn [negb].
  cbn [the lookup list_lookup mret ST_ret]. rewrite Nat2Z.id.
  assert (take (length l - 1 - length posted) (drop (length posted) (wr_of (heap m) <$> l)) =
          wr_of (heap m) <$> bad) as Htk.
  { pose proof (middle_slice (wr_of (heap m) <$> posted) (wr_of (heap m) <$> bad)
      (wr_of (heap m) last)) as Hs.
    change [wr_of (heap m) last] with (wr_of (heap m) <$> [last]) in Hs.
    rewrite <-!fmap_app, !length_fmap in Hs. exact Hs. }
  rewrite Htk. fold m2. rewrite Heq2. cbn [mret ST_ret]. rewrite length_fmap. rewrite Hlen. unfold mret, ST_ret. do 2 f_equal. lia.
Qed.

Lemma post_chunks_error_keeps_last_witness :
  ∃ m' rq, post_chunks_to_rq config0 2 100
      (set_world (mkScript [(12, [0], 12)] 0 []) demo_rq) = Ret (1, m') ∧
    rx_free m' = [5000] ∧ qps m' !! 100 = Some (set_recv_queue rq demo_qp) ∧ rq ≡ₚ [6000].
Proof.
  destruct (post_chunks_error_keeps_last config0 (set_world (mkScript [(12, [0], 12)] 0 []) demo_rq)
    100 demo_qp [] [5000] 6000 [] 12 []
    (script_call (ibv_post_recv 60 [mkWR 5000 (Some (5040, 128, 77)); mkWR 6000 (Some (6040, 128, 77))])
       (mkScript [(12, [0], 12)] 0 [])).2) as (m'&rq&Heq&Hfr&Hq&Hp); try reflexivity.
  - refine (bool_decide_unpack _ _). by vm_compute.
  - refine (bool_decide_unpack _ _). by vm_compute.
  - repeat constructor; vm_compute; eauto.
  - by vm_compute.
  - done.
  - exists m', rq. split_and!; [exact Heq|exact Hfr|exact Hq|exact Hp].
Defined.

(** When [ibv_create_qp] fails, [create_queue_pair] does not return NULL as
    documented: the destructor it runs on the half-built object reads the
    number of the null verbs handle. *)
Theorem create_queue_pair_failure {W P} `{!World W, !BoostPool P} (cfg : config) (m : mach W P)
    tx rx ctx crx dev q o1 w1 o2 w2 :
  m_use_rdma_cm_ cfg = false → ib_device (ib m) = Some dev →
  cqs m !! tx = Some ctx → cqs m !! rx = Some crx →
  sys_call (c_new 0) (world m) = (q, o1, w1) →
  sys_call (ibv_create_qp (ib_pd (ib m)) (cq_cq ctx) (cq_cq crx) (ib_srq (ib m))
    (u32 (tx_queue_len (ib m) + 1)) (if ib_srq (ib m) =? 0 then rx_queue_len (ib m) else 0) IBV_QPT_RC) w1
    = (0, o2, w2) →
  create_queue_pair cfg tx rx IBV_QPT_RC 0 m = Crash Undefined.
Proof.
  intros Hcm Hd Htx Hrx Hnew Hcreate.
  unfold create_queue_pair, QueuePair.create, mbind, ST_bind, gets, mret, ST_ret. rewrite Hd.
  cbn [the]. unfold sysret, sys, mbind, ST_bind, mret, ST_ret. rewrite Hnew. cbn [fst].
  unfold put_qp, modify. cbn [qps set_world].
  change (negb (IBV_QPT_RC =? IBV_QPT_RC)) with false. cbn [andb].
  unfold QueuePair_init, QueuePair_delete, get_cq, mbind, ST_bind, gets, mret, ST_ret.
  erewrite get_qp_eq by apply lookup_insert_eq. cbn [qp_txcq qp_rxcq cqs set_qps set_world].
  rewrite Htx. cbn [the mret ST_ret]. unfold mret, ST_ret.
  cbn [qp_txcq qp_rxcq cqs set_qps set_world]. rewrite Hrx. cbn [the]. unfold mret, ST_ret.
  rewrite Hcm. cbn [negb]. unfold sys.
  cbn [world set_world set_qps ib qp_srq max_send_wr max_recv_wr qp_type].
  rewrite Hcreate. cbn [Z.eqb negb]. erewrite get_qp_eq by apply lookup_insert_eq. done.
Qed.

Lemma create_queue_pair_failure_witness :
  create_queue_pair config0 1 2 IBV_QPT_RC 0
    (set_cqs {[ 1 := mkCQ 0 11 9; 2 := mkCQ 0 12 9 ]} (set_ib demo_ib (mach0 [(100, [], 0); (0, [], 12)])))
  = Crash Undefined.
Proof.
  eapply (create_queue_pair_failure config0 _ 1 2 (mkCQ 0 11 9) (mkCQ 0 12 9) demo_device 100); reflexivity.
Defined.

(** ** Initialisation *)

Section init_facts.
Context {W P : Type} `{!World W, !BoostPool P} (cfg : config).
Implicit Types m : mach W P.

Lemma wlp_frame {A T} (f : mach W P → T) (x : M W P A) m :
  frame f x → wlp x (λ _ m', f m' = f m) m.
Proof. intros H. by apply frame_wlp. Qed.

Lemma frame_create_all {T} (f : mach W P → T) g l :
  (∀ a, frame f (g a)) → frame f (create_all g l).
Proof. intros Hg. induction l as [|a l IH]; simpl; solve_frame. Qed.

Lemma frame_bind_loop {T} (f : mach W P → T) n : ∀ i d pn,
  (∀ w m, f (set_world w m) = f m) → frame f (bind_loop cfg n i d pn).
Proof.
  induction n as [|n IH]; intros i d pn Hf; simpl; [apply frame_ret|].
  apply frame_bind; [unfold Port_create; solve_frame; by apply frame_sys|]. intros p. solve_frame.
Qed.

Lemma frame_fill_loop {T} (f : mach W P → T) n : ∀ a b c d e i j acc,
  (∀ h m, f (set_heap h m) = f m) → frame f (fill_loop n a b c d e i j acc).
Proof.
  induction n as [|n IH]; intros a b c d e i j acc Hf; simpl.
  - destruct (_ <? _); solve_frame.
  - destruct (_ <? _); [|solve_frame]. apply frame_bind; [|intros; by apply IH].
    unfold put_chunk. apply frame_modify. intros. apply Hf.
Qed.

Lemma frame_create_tx_pool_ib size n : frame (λ m, (ib m, qps m)) (create_tx_pool (W := W) (P := P) cfg size n).
Proof.
  unfold create_tx_pool. apply frame_bind; [|solve_frame]. unfold Cluster_fill.
  repeat first [apply frame_fill_loop; by intros|frame_step].
Qed.

Lemma frame_DeviceList : frame (λ m, (ib m, qps m)) (DeviceList_create (W := W) (P := P) cfg).
Proof.
  unfold DeviceList_create. repeat first [apply frame_create_all; intros|frame_step].
Qed.

Lemma bind_loop_post n : ∀ i d pn m,
  wlp (bind_loop cfg n i d pn) (λ d' _, d' = d ∨ ∃ p, d' = set_active_port (Some p) d ∧
     port_num p = pn ∧ port_state p = IBV_PORT_ACTIVE) m.
Proof.
  induction n as [|n IH]; intros i d pn m; simpl; [apply wlp_ret; by left|].
  apply wlp_bind.
  apply (wlp_mono _ (λ p _, port_num p = i)).
  { unfold Port_create. wlp_auto; done. }
  intros p m' Hp. destruct ((i =? pn) && (port_state p =? IBV_PORT_ACTIVE)) eqn:E; [|apply IH].
  apply wlp_ret. right. exists p. split; [done|]. lia.
Qed.

Lemma create_all_no_port g l m :
  (∀ a m, wlp (g a) (λ d _, active_port d = None) m) →
  wlp (create_all (W := W) (P := P) g l) (λ ds _, Forall (λ d, active_port d = None) ds) m.
Proof.
  intros Hg. revert m. induction l as [|a l IH]; intros m; simpl; [by apply wlp_ret|].
  apply wlp_bind. eapply wlp_mono; [apply Hg|]. simpl. intros d m1 Hd. apply wlp_bind.
  eapply wlp_mono; [apply IH|]. simpl. intros ds m2 Hds. apply wlp_ret. by constructor.
Qed.

Lemma Device_query_no_port dev ctxt m :
  wlp (Device_query (W := W) (P := P) dev ctxt) (λ d _, active_port d = None) m.
Proof. unfold Device_query, sysret. wlp_auto; done. Qed.

Lemma DeviceList_no_port m :
  wlp (DeviceList_create cfg) (λ ds _, Forall (λ d, active_port d = None) ds) m.
Proof.
  unfold DeviceList_create, Device_create, Device_create_cm, sysret.
  repeat first [apply create_all_no_port; intros | apply Device_query_no_port | wlp_step
               | progress cbn beta iota | case_match].
Qed.

Lemma get_device_elem name ds d : get_device name ds = Some d → d ∈ ds.
Proof.
  induction ds as [|x ds IH]; simpl; [done|]. destruct (_ || _); [intros [= ->]; set_solver|].
  intros H. apply IH in H. set_solver.
Qed.

(** What [init] leaves behind when it returns *)
Definition init_post m0 m : Prop :=
  m_rdma_support_srq_ cfg = false ∧
  ∃ d p, ib_device (ib m) = Some d ∧ active_port d = Some p ∧
    port_num p = m_rdma_port_num_ cfg ∧ port_state p = IBV_PORT_ACTIVE ∧
    initialized (ib m) = true ∧
    rx_queue_len (ib m) = rx_len cfg d ∧ tx_queue_len (ib m) = tx_len cfg d ∧
    (0 < m_rdma_receive_buffers_bytes_ cfg → rx_len cfg d ≤ m_rdma_receive_buffers_bytes_ cfg) ∧
    u64 (m_rdma_buffer_size_bytes_ cfg * tx_len cfg d) ≤ max_mr_size d ∧
    filter (λ d, is_Some (active_port d)) (ib_device_list (ib m)) = [d].

Lemma update_device_bound name d0 d ds :
  Forall (λ d, active_port d = None) ds → get_device name ds = Some d0 → is_Some (active_port d) →
  filter (λ d, is_Some (active_port d)) (update_device name d ds) = [d].
Proof.
  intros Hds Hget Hd. induction Hds as [|x ds Hx Hds IH]; [done|]. simpl in *. destruct (_ || _).
  - rewrite filter_cons_True by done. f_equal. clear -Hds. induction Hds as [|y ds Hy _ IH]; [done|].
    rewrite filter_cons_False by (rewrite Hy; by intros []). exact IH.
  - rewrite filter_cons_False by (rewrite Hx; by intros []). by apply IH.
Qed.

Lemma init_wlp m : initialized (ib m) = false → qps m !! 0 = None →
  wlp (Infiniband_init cfg) (λ _ m', init_post m m') m.
Proof.
  intros Hinit H0. unfold Infiniband_init. apply wlp_bind, wlp_gets. rewrite Hinit.
  apply wlp_bind. eapply wlp_mono;
    [apply wlp_and; [apply (wlp_frame _ _ _ frame_DeviceList)|apply DeviceList_no_port]|].
  cbn beta. intros ds m1 [[= Hib1 Hq1] Hds]. apply wlp_bind, wlp_modify, wlp_bind, wlp_modify.
  destruct (get_device _ ds) as [d0|] eqn:Hget; [|apply wlp_bind, wlp_fail].
  pose proof (λ d, update_device_bound _ _ d _ Hds Hget) as Hbound.
  apply get_device_elem in Hget. pose proof (proj1 (Forall_forall _ _) Hds _ Hget) as Hnone.
  apply wlp_bind, wlp_ret. unfold binding_port. apply wlp_bind, wlp_bind.
  eapply wlp_mono; [apply wlp_and;
    [apply (wlp_frame (λ m, (ib m, qps m))), frame_bind_loop; done|apply bind_loop_post]|].
  cbn beta. intros d m2 [[= Hib2 Hq2] Hd]. apply wlp_bind, wlp_assert. intros Hsome.
  apply bool_decide_eq_true in Hsome as [p Hp].
  destruct Hd as [->|(p'&->&Hpn&Hst)]; [congruence|]. simpl in Hp. injection Hp as ->.
  set (d := set_active_port (Some p) d0).
  apply wlp_ret. apply wlp_bind, wlp_modify, wlp_bind, wlp_modify, wlp_bind, wlp_the. intros p0 [= <-].
  apply wlp_bind, wlp_modify. unfold ProtectionDomain_create, sysret.
  apply wlp_bind, wlp_bind, wlp_bind, wlp_sys. intros pd o3 w3 _. apply wlp_ret. cbn [fst].
  destruct (pd =? 0); [apply wlp_fail|]. apply wlp_ret, wlp_bind, wlp_modify, wlp_bind.
  eapply wlp_mono; [apply (wlp_frame (λ m, (ib m, qps m))); solve_frame|].
  cbn beta. intros rs m4 [= Hib4 Hq4]. apply wlp_bind, wlp_assert. intros _. apply wlp_bind, wlp_modify, wlp_bind.
  match goal with |- wlp _ _ ?s => apply (wlp_mono _ (λ _ m', m' = s)) end.
  { destruct (m_rdma_support_srq_ cfg); [by apply wlp_assert|by apply wlp_ret]. }
  intros _ ? ->. apply wlp_bind, wlp_modify, wlp_bind.
  destruct (_ && _) eqn:Hrb; [apply wlp_fail|apply wlp_ret]. apply wlp_bind, wlp_modify, wlp_bind.
  destruct (u64 (m_rdma_buffer_size_bytes_ cfg * tx_len cfg d) >? max_mr_size d) eqn:Hmr; [apply wlp_fail|apply wlp_ret]. apply wlp_bind.
  eapply wlp_mono; [apply (wlp_frame _ _ _ (frame_create_tx_pool_ib _ _))|].
  cbn beta. intros _ m5 [= Hib5 Hq5]. simpl in Hib5, Hq5, Hq2, Hib4, Hq4. rewrite Hib4 in Hib5.
  destruct (m_rdma_support_srq_ cfg) eqn:Hsrq.
  - unfold create_shared_receive_queue, sysret, post_chunks_to_rq, get_qp.
    apply wlp_bind, wlp_bind, wlp_gets, wlp_bind, wlp_sys. intros h o6 w6 _.
    apply wlp_ret, wlp_bind, wlp_modify, wlp_bind, wlp_bind, wlp_bind, wlp_gets, wlp_the.
    intros k Hk. simpl in Hk. congruence.
  - apply wlp_ret. unfold init_post. split; [done|]. exists d, p. rewrite Hib5. simpl. 
    assert (0 < m_rdma_receive_buffers_bytes_ cfg → rx_len cfg d ≤ m_rdma_receive_buffers_bytes_ cfg)
      by (intros; apply andb_false_iff in Hrb as [?|?]; lia).
    split_and!; try done; [by rewrite Hib2| |by apply Hbound]. change (max_mr_size d) with (max_mr_size d0) in Hmr. lia.
Qed.

End init_facts.

(** A returned [Infiniband::init] has settled on a usable configuration:
    the device's port is the configured one and active, the receive queue is
    no longer than configured nor than the device allows and fits the limit on
    receive buffers, the send queue is no longer than configured and leaves
    one request for the beacon, and one buffer per send request fits the
    largest region. *)
Theorem init_settles {W P} `{!World W, !BoostPool P} (cfg : config) (m m' : mach W P) :
  initialized (ib m) = false → qps m !! 0 = None → Infiniband_init cfg m = Ret (tt, m') →
  ∃ d p, ib_device (ib m') = Some d ∧ active_port d = Some p ∧
    port_num p = m_rdma_port_num_ cfg ∧ port_state p = IBV_PORT_ACTIVE ∧
    rx_queue_len (ib m') ≤ m_rdma_receive_queue_len_ cfg ∧ rx_queue_len (ib m') ≤ u32 (max_qp_wr d) ∧
    (0 < m_rdma_receive_buffers_bytes_ cfg → rx_queue_len (ib m') ≤ m_rdma_receive_buffers_bytes_ cfg) ∧
    tx_queue_len (ib m') ≤ m_rdma_send_queue_len_ cfg ∧ tx_queue_len (ib m') ≤ u32 (max_qp_wr d - 1) ∧
    u64 (m_rdma_buffer_size_bytes_ cfg * tx_queue_len (ib m')) ≤ max_mr_size d.
Proof.
  intros Hi H0 Heq.
  destruct (wlp_elim _ _ _ _ _ (init_wlp cfg m Hi H0) Heq)
    as (Hs&d&p&Hd&Hp&Hpn&Hst&_&Hrx&Htx&Hb&Hmr&_).
  exists d, p. rewrite Hrx, Htx.
  assert (rx_len cfg d ≤ m_rdma_receive_queue_len_ cfg ∧ rx_len cfg d ≤ u32 (max_qp_wr d)) as [? ?].
  { unfold rx_len. rewrite Hs. cbv zeta.
    destruct (Z.gtb_spec (u32 (max_qp_wr d)) (m_rdma_receive_queue_len_ cfg)); lia. }
  assert (tx_len cfg d ≤ m_rdma_send_queue_len_ cfg ∧ tx_len cfg d ≤ u32 (max_qp_wr d - 1)) as [? ?].
  { unfold tx_len. cbv zeta.
    destruct (Z.gtb_spec (u32 (max_qp_wr d - 1)) (m_rdma_send_queue_len_ cfg)); lia. }
  by split_and!.
Qed.

(** The answers of a device with one active port, and of the allocations *)
Definition demo_boot : list (Z * list Z * Z) :=
  [ (1, [7], 0);                      (* ibv_get_device_list *)
    (2, [], 0);                       (* ibv_open_device *)
    (0, [109; 108; 120], 0);          (* ibv_get_device_name *)
    (0, [1; 0; 0; 16; 1000000], 0);   (* ibv_query_device *)
    (9, [], 0);                       (* async_fd *)
    (0, [3; 4; 8], 0);                (* ibv_query_port *)
    (0, replicate 16 5, 0);           (* ibv_query_gid *)
    (3, [], 0);                       (* ibv_alloc_pd *)
    (0, [], 0);                       (* F_GETFL *)
    (0, [], 0);                       (* F_SETFL *)
    (4096, [], 0);                    (* malloc of the region *)
    (65536, [], 0);                   (* malloc of the headers *)
    (11, [77], 0) ].                  (* ibv_reg_mr *)

Lemma init_settles_witness :
  ∃ d p, ib_device (ib (run (Infiniband_init config0) (mach0 demo_boot))) = Some d ∧
    active_port d = Some p ∧ port_num p = 1.
Proof.
  destruct (init_settles config0 (mach0 demo_boot) (run (Infiniband_init config0) (mach0 demo_boot)))
    as (d&p&Hd&Hp&Hn&_); [reflexivity|reflexivity|vm_compute; reflexivity|].
  exists d, p. split_and!; [exact Hd|exact Hp|exact Hn].
Defined.

(** With a shared receive queue configured, [Infiniband::init] never
    returns, whatever the devices answer: its last step posts buffers for the
    null queue pair, and [post_chunks_to_rq] reads its arrays first. *)
Theorem init_never_returns_with_srq {W P} `{!World W, !BoostPool P} (cfg : config) (m : mach W P) r :
  m_rdma_support_srq_ cfg = true → initialized (ib m) = false → qps m !! 0 = None →
  Infiniband_init cfg m ≠ Ret r.
Proof.
  intros Hs Hi H0. destruct r as [u m']. intros Heq.
  pose proof (wlp_elim _ _ _ _ _ (init_wlp cfg m Hi H0) Heq) as [Hs' _]. congruence.
Qed.

Lemma init_never_returns_with_srq_witness :
  Infiniband_init (mkConfig false false true [] 0 0 0 1 128 4 1024 8 128 true 0 false 0 0 0 0) (mach0 demo_boot) ≠
  Ret (tt, mach0 []).
Proof. apply init_never_returns_with_srq; reflexivity. Defined.

(** ** Giving the devices back *)

Lemma delete_bound_only {W P} `{!World W} ds (m : mach W P) :
  DeviceList_delete ds m = DeviceList_delete (filter (λ d, is_Some (active_port d)) ds) m.
Proof.
  assert (∀ m : mach W P, for_each ds Device_delete m = for_each (filter (λ d, is_Some (active_port d)) ds) Device_delete m) as E.
  { induction ds as [|d ds IH]; intros m1; [done|]. destruct (active_port d) as [p|] eqn:Ep.
    - rewrite filter_cons_True by (by rewrite Ep). cbn [for_each]. unfold mbind, ST_bind. destruct (Device_delete d m1) as [[[] m2]|]; [|done]. apply IH.
    - rewrite filter_cons_False by (rewrite Ep; by intros []). cbn [for_each].
      assert (Device_delete d m1 = Ret (tt, m1)) as Ed by (unfold Device_delete; by rewrite Ep). rewrite (bind_run _ _ _ _ _ Ed). apply IH. }
  unfold DeviceList_delete. unfold mbind at 1 3, ST_bind at 1 3. by rewrite E.
Qed.

(** [init] opens every device of the list, and when the list is destroyed
    only the one whose port it bound is closed. *)
Theorem only_bound_device_closed {W P} `{!World W, !BoostPool P} (cfg : config) (m m' : mach W P) :
  initialized (ib m) = false → qps m !! 0 = None → Infiniband_init cfg m = Ret (tt, m') →
  ∃ d, ib_device (ib m') = Some d ∧ ∀ m2 : mach W P, DeviceList_delete (ib_device_list (ib m')) m2 = DeviceList_delete [d] m2.
Proof.
  intros Hi H0 Heq. destruct (wlp_elim _ _ _ _ _ (init_wlp cfg m Hi H0) Heq) as (_&d&p&Hd&_&_&_&_&_&_&_&_&Hf).
  exists d. split; [done|]. intros m2. by rewrite delete_bound_only, Hf.
Qed.
Lemma only_bound_device_closed_witness :
  ∃ d, ib_device (ib (run (Infiniband_init config0) (mach0 demo_boot))) = Some d.
Proof.
  destruct (only_bound_device_closed config0 (mach0 demo_boot) (run (Infiniband_init config0) (mach0 demo_boot))) as (d&Hd&_);
    [reflexivity|reflexivity|vm_compute; reflexivity|]. by exists d.
Defined.
