(* ===== verification/Dispatcher.v ===== *)
(** * The dispatcher's tables (src/core/RDMAStack.h and .cc, [RDMADispatcher])

    Registration of queue pairs and sockets, the list of queue pairs waiting
    to be destroyed, the pending workers, returning send buffers, and starting
    and stopping the polling thread. Every operation that takes the
    dispatcher's lock is one step. The event handlers, which call back into
    the sockets, are in Polling.v. *)

From S2P Require Import Prelude State Buffers PerfCounters Machine Memory Wire QueuePair Infiniband.

Module Dispatcher.
Section dispatcher_ops.
Context {W P : Type} `{!World W, !BoostPool P} (cfg : config).
Abbreviation M := (M W P).

Definition set_table (t : gmap Z (Z * Z)) (n : Z) (d : dispatcher) : dispatcher :=
  set_num_qp_conn n (set_qp_conns t d).

Definition register_qp (q csi : Z) : M unit :=
  num ← QueuePair.get_local_qp_number q;
  d ← gets disp;
  assert (bool_decide (qp_conns d !! num = None)) ;;
  on_disp (λ d, set_table (<[num := (q, csi)]> (qp_conns d)) (u64 (num_qp_conn d + 1)) d).

(** 0 is nullptr *)
Definition get_conn_lockless (qpn : Z) : M Z :=
  d ← gets disp;
  match qp_conns d !! qpn with
  | None => mret 0
  | Some (q, s) => dead ← QueuePair.is_dead q; mret (if dead : bool then 0 else s)
  end.

Fixpoint find_dead (l : list Z) (qpn : Z) : M Z :=
  match l with
  | [] => mret 0
  | q :: l => n ← QueuePair.get_local_qp_number q; if n =? qpn then mret q else find_dead l qpn
  end.

Definition get_qp_lockless (qpn : Z) : M Z :=
  d ← gets disp;
  match qp_conns d !! qpn with
  | Some (q, _) => mret q
  | None => find_dead (dead_queue_pairs d) qpn
  end.

(** The entry is erased and its queue pair waits for destruction. *)
Definition doom (qpn q : Z) (d : dispatcher) : dispatcher :=
  set_dead_queue_pairs (dead_queue_pairs d ++ [q])
    (set_table (delete qpn (qp_conns d)) (u64 (num_qp_conn d - 1)) d).

Definition enqueue_dead_qp_lockless (qpn : Z) : M unit :=
  d ← gets disp;
  match qp_conns d !! qpn with
  | None => mret tt
  | Some (q, _) => on_disp (doom qpn q)
  end.

Definition enqueue_dead_qp (qpn : Z) : M unit := enqueue_dead_qp_lockless qpn.

Definition schedule_qp_destroy (qpn : Z) : M unit :=
  d ← gets disp;
  match qp_conns d !! qpn with
  | None => mret tt
  | Some (q, _) =>
    r ← QueuePair.to_dead q;
    if negb (r =? 0) then on_disp (doom qpn q)
    else on_disp (λ d, set_qp_conns (<[qpn := (q, 0)]> (qp_conns d)) d)
  end.

Definition make_pending_worker (w : Z) : M unit :=
  d ← gets disp;
  if bool_decide (w ∈ pending_workers d) then mret tt else
  on_disp (λ d, set_num_pending_workers (u64 (num_pending_workers d + 1))
                  (set_pending_workers (pending_workers d ++ [w]) d)).

(** [notify_worker] posts the worker's transmit handler to its event centre. *)
Definition notify_pending_workers : M unit :=
  d ← gets disp;
  if num_pending_workers d =? 0 then mret tt else
  match pending_workers d with
  | [] => mret tt
  | w :: l =>
    on_disp (λ d, set_num_pending_workers (u64 (num_pending_workers d - 1)) (set_pending_workers l d)) ;;
    if w =? 0 then mret tt else sys (center_dispatch_external w w) ;; mret tt
  end.

Definition post_tx_buffer (chunks : list Z) : M unit :=
  if bool_decide (chunks = []) then mret tt else
  on_disp (λ d, set_inflight (u64 (inflight d - Z.of_nat (length chunks))) d) ;;
  return_tx chunks.

Definition recall_chunk (c : Z) : M unit := recall_chunk_to_pool c.
Definition post_chunks (num q : Z) : M Z := post_chunks_to_rq cfg num q.

(** ** The polling thread *)

Definition polling_start : M unit :=
  d ← gets disp;
  if joinable d then mret tt else
  MemPoolContext_set_stat_logger ;;
  tcc ← create_comp_channel;
  assert (negb (tcc =? 0)) ;;
  rcc ← create_comp_channel;
  assert (negb (rcc =? 0)) ;;
  tcq ← create_comp_queue tcc;
  assert (negb (tcq =? 0)) ;;
  rcq ← create_comp_queue rcc;
  assert (negb (rcq =? 0)) ;;
  on_disp (λ d, mkDisp true tcq rcq tcc rcc (d_done d) (num_qp_conn d) (qp_conns d)
                  (dead_queue_pairs d) (num_pending_workers d) (pending_workers d) (inflight d)).

Definition destroy_one (q : Z) : M unit :=
  perf_dec l_msgr_rdma_active_queue_pair 1 ;; QueuePair_delete q.

(** The part of an idle round of [polling] that destroys queue pairs; the
    result says whether the thread leaves its loop. *)
Definition poll_idle : M bool :=
  d ← gets disp;
  perf_set l_msgr_rdma_inflight_tx_chunks (inflight d) ;;
  (if bool_decide (dead_queue_pairs d = []) then mret tt else
   on_disp (set_dead_queue_pairs []) ;;
   for_each (dead_queue_pairs d) destroy_one) ;;
  d ← gets disp;
  mret ((num_qp_conn d =? 0) && d_done d && bool_decide (dead_queue_pairs d = [])).

(** [t.join()] waits for the loop to have been left. *)
Definition polling_stop : M unit :=
  on_disp (set_d_done true) ;;
  d ← gets disp;
  if negb (joinable d) then mret tt else
  on_disp (set_joinable false) ;;
  ack_events (tx_cc d) ;;
  ack_events (rx_cc d) ;;
  CompletionQueue_delete (tx_cq d) ;;
  CompletionQueue_delete (rx_cq d) ;;
  CompletionChannel_delete (tx_cc d) ;;
  CompletionChannel_delete (rx_cc d).

Definition dispatcher_delete : M unit :=
  polling_stop ;;
  d ← gets disp;
  assert (bool_decide (qp_conns d = ∅)) ;;
  assert (num_qp_conn d =? 0) ;;
  assert (bool_decide (dead_queue_pairs d = [])).

End dispatcher_ops.
End Dispatcher.

(** ** The table invariant

    The count agrees with the table; each queue pair is in the table once or
    in the list of the dead once, never in both; every one of them is a live
    object whose number is the key it is registered under; keys are 32-bit. *)

Definition registered {W P} (m : mach W P) : list Z := (map_to_list (qp_conns (disp m))).*2.*1.

Definition table_inv {W P} (m : mach W P) : Prop :=
  num_qp_conn (disp m) = u64 (Z.of_nat (size (qp_conns (disp m)))) ∧
  NoDup (registered m ++ dead_queue_pairs (disp m)) ∧
  (∀ qpn q s, qp_conns (disp m) !! qpn = Some (q, s) →
     is_u32 qpn ∧ ∃ k, qps m !! q = Some k ∧ qp_qp k ≠ 0 ∧ qp_num k = qpn) ∧
  (∀ q, q ∈ dead_queue_pairs (disp m) → ∃ k, qps m !! q = Some k ∧ qp_qp k ≠ 0).

(** Handles and numbers of queue pairs do not change while they exist. *)
Definition same_ids (h h' : gmap Z queue_pair) : Prop :=
  ∀ q k, h !! q = Some k → ∃ k', h' !! q = Some k' ∧ qp_qp k' = qp_qp k ∧ qp_num k' = qp_num k.

Lemma size_u32_map {A} (t : gmap Z A) : (∀ k a, t !! k = Some a → is_u32 k) →
  Z.of_nat (size t) ≤ 4294967296.
Proof.
  intros Hk. rewrite <-(size_dom (D := gset Z) t).
  assert (dom t ⊆ (list_to_set (seqZ 0 4294967296) : gset Z)) as Hsub.
  { intros k [a Ha]%elem_of_dom. apply elem_of_list_to_set, elem_of_seqZ.
    specialize (Hk k a Ha). unfold is_u32 in Hk. lia. }
  apply subseteq_size in Hsub. rewrite size_list_to_set, length_seqZ in Hsub by apply NoDup_seqZ. lia.
Qed.

Section table_facts.
Context {W P : Type} `{!World W, !BoostPool P}.
Implicit Types m : mach W P.

Lemma registered_insert m qpn q s : qp_conns (disp m) !! qpn = None →
  (map_to_list (<[qpn := (q, s)]> (qp_conns (disp m)))).*2.*1 ≡ₚ q :: registered m.
Proof. intros Hn. unfold registered. by rewrite map_to_list_insert. Qed.

Lemma registered_delete m qpn q s : qp_conns (disp m) !! qpn = Some (q, s) →
  registered m ≡ₚ q :: (map_to_list (delete qpn (qp_conns (disp m)))).*2.*1.
Proof.
  intros Hs. unfold registered. rewrite <-(insert_delete_id _ _ _ Hs) at 1.
  by rewrite map_to_list_insert by apply lookup_delete_eq.
Qed.

Lemma registered_elem m q : q ∈ registered m ↔ ∃ qpn s, qp_conns (disp m) !! qpn = Some (q, s).
Proof.
  unfold registered. split.
  - intros ([q' s]&->&Hin)%list_elem_of_fmap. apply list_elem_of_fmap in Hin as ([qpn ?]&->&Hin).
    apply elem_of_map_to_list in Hin. simpl. destruct p; eauto.
  - intros (qpn&s&Hs). apply list_elem_of_fmap. exists (q, s). split; [done|].
    apply list_elem_of_fmap. exists (qpn, (q, s)). split; [done|]. by apply elem_of_map_to_list.
Qed.

(** The invariant only looks at the table and at the ids of the queue pairs. *)
Lemma table_inv_other m m' : disp m' = disp m → same_ids (qps m) (qps m') →
  table_inv m → table_inv m'.
Proof.
  intros Hd Hids (Hn&Hnd&Ht&Hdead). unfold table_inv, registered. rewrite Hd.
  split_and!; [done|done| |].
  - intros qpn q s Hs. destruct (Ht qpn q s Hs) as (Hu&k&Hk&Hq&Hnum). split; [done|].
    destruct (Hids q k Hk) as (k'&Hk'&E1&E2). exists k'. split_and!; [done|congruence|congruence].
  - intros q Hq. destruct (Hdead q Hq) as (k&Hk&Hne).
    destruct (Hids q k Hk) as (k'&Hk'&E1&_). exists k'. split; [done|congruence].
Qed.

Lemma size_bound m : table_inv m → Z.of_nat (size (qp_conns (disp m))) ≤ 4294967296.
Proof. intros (_&_&Ht&_). apply size_u32_map. intros k [q s] Hk. by apply (Ht k q s). Qed.

Lemma doom_inv m qpn q s : table_inv m → qp_conns (disp m) !! qpn = Some (q, s) →
  table_inv (set_disp (Dispatcher.doom qpn q (disp m)) m).
Proof.
  intros Hinv Hs. pose proof (size_bound m Hinv) as Hsz. destruct Hinv as (Hn&Hnd&Ht&Hdead).
  assert (size (delete qpn (qp_conns (disp m))) = pred (size (qp_conns (disp m)))) as Hdel
    by (apply map_size_delete_Some; rewrite Hs; eauto).
  assert (size (qp_conns (disp m)) ≠ 0%nat) by (intros E%map_size_empty_inv; by rewrite E in Hs).
  split_and!; simpl.
  - rewrite Hn, Hdel. rewrite (u64_small (Z.of_nat _)) by (unfold is_u64; lia). f_equal. lia.
  - rewrite (registered_delete m qpn q s Hs) in Hnd. unfold registered. simpl.
    rewrite app_assoc. rewrite <-Permutation_cons_append. exact Hnd.
  - intros qpn' q' s' [_ Hs']%lookup_delete_Some. by apply Ht in Hs'.
  - intros q' [Hq'|Hq']%elem_of_app; [by apply Hdead|]. apply list_elem_of_singleton in Hq' as ->.
    destruct (Ht qpn q s Hs) as (_&k&Hk&Hne&_). eauto.
Qed.

Lemma clear_socket_inv m qpn q s : table_inv m → qp_conns (disp m) !! qpn = Some (q, s) →
  table_inv (set_disp (set_qp_conns (<[qpn := (q, 0)]> (qp_conns (disp m))) (disp m)) m).
Proof.
  intros (Hn&Hnd&Ht&Hdead) Hs. split_and!; simpl.
  - rewrite Hn. do 2 f_equal. rewrite map_size_insert_Some; [done|rewrite Hs; eauto].
  - rewrite (registered_delete m qpn q s Hs) in Hnd. unfold registered. simpl.
    rewrite <-insert_delete_eq, map_to_list_insert by apply lookup_delete_eq. exact Hnd.
  - intros qpn' q' s' [[<- [= <- <-]]|[_ Hs']]%lookup_insert_Some; [by eapply Ht|by eapply Ht].
  - done.
Qed.

Lemma same_ids_refl h : same_ids h h.
Proof. intros q k Hk. eauto. Qed.

(** [to_dead] touches the world and the mark of its queue pair only. *)
Lemma to_dead_frame q m r m' : QueuePair.to_dead q m = Ret (r, m') →
  disp m' = disp m ∧ same_ids (qps m) (qps m') ∧ heap m' = heap m ∧ perf m' = perf m.
Proof.
  assert (wlp (QueuePair.to_dead q) (λ _ m', disp m' = disp m ∧ same_ids (qps m) (qps m') ∧
    heap m' = heap m ∧ perf m' = perf m) m) as Hwlp; [|intros H; exact (wlp_elim _ _ _ _ _ Hwlp H)].
  unfold QueuePair.to_dead, QueuePair.modify_qp_to_error, get_qp, sysret, errno, on_qp, put_qp.
  wlp_auto; simpl; split_and!; try done; try apply same_ids_refl.
  intros q' k' Hk'. simpl in *. destruct (decide (q' = q)) as [->|].
  - rewrite lookup_insert_eq. eexists; split; [done|]. simpl. simplify_eq. done.
  - rewrite lookup_insert_ne by done. eauto.
Qed.

Lemma schedule_inv qpn m m' : table_inv m → Dispatcher.schedule_qp_destroy qpn m = Ret (tt, m') →
  table_inv m'.
Proof.
  intros Hinv. unfold Dispatcher.schedule_qp_destroy, mbind, ST_bind, gets.
  destruct (qp_conns (disp m) !! qpn) as [[q s]|] eqn:Hs; [|by intros [= <-]].
  destruct (QueuePair.to_dead q m) as [[r m1]|] eqn:Hd; [|done].
  destruct (to_dead_frame q m r m1 Hd) as (Hd1&Hids&_).
  assert (table_inv m1) as Hinv1 by (by eapply table_inv_other).
  assert (qp_conns (disp m1) !! qpn = Some (q, s)) as Hs1 by by rewrite Hd1.
  destruct (r =? 0); simpl; intros [= <-]; [by eapply clear_socket_inv|by eapply doom_inv].
Qed.

Lemma enqueue_inv qpn m m' : table_inv m → Dispatcher.enqueue_dead_qp qpn m = Ret (tt, m') → table_inv m'.
Proof.
  intros Hinv. unfold Dispatcher.enqueue_dead_qp, Dispatcher.enqueue_dead_qp_lockless, mbind, ST_bind, gets.
  destruct (qp_conns (disp m) !! qpn) as [[q s]|] eqn:Hs; intros [= <-]; [by eapply doom_inv|done].
Qed.

Lemma register_inv q s k m m' : table_inv m → qps m !! q = Some k → is_u32 (qp_num k) →
  q ∉ registered m ++ dead_queue_pairs (disp m) →
  Dispatcher.register_qp q s m = Ret (tt, m') → table_inv m'.
Proof.
  intros Hinv Hk Hu Hnew. pose proof (size_bound m Hinv) as Hsz. destruct Hinv as (Hn&Hnd&Ht&Hdead).
  unfold Dispatcher.register_qp, QueuePair.get_local_qp_number, mbind, ST_bind, gets.
  rewrite (get_qp_eq _ _ _ Hk). destruct (Z.eqb_spec (qp_qp k) 0) as [|Hne]; [done|].
  unfold mret, ST_ret, assert. destruct (bool_decide _) eqn:Hb; [|done].
  apply bool_decide_eq_true in Hb. intros [= <-]. split_and!; simpl.
  - rewrite Hn, map_size_insert_None by done.
    rewrite (u64_small (Z.of_nat (size _))) by (unfold is_u64; lia). f_equal. lia.
  - unfold registered. simpl. rewrite registered_insert by done. simpl. by constructor.
  - intros qpn' q' s' [[<- [= <- <-]]|[_ Hs']]%lookup_insert_Some; [|by apply Ht in Hs'].
    split; [done|]. eauto.
  - done.
Qed.
End table_facts.

(** ** Destroying the dead queue pairs *)

(** The chunks in the receive queues exist. *)
Definition rq_ok {W P} (m : mach W P) : Prop :=
  ∀ q k c, qps m !! q = Some k → c ∈ recv_queue k → is_Some (heap m !! c).

(** A world in which destroying a queue pair succeeds *)
Class DestroyOk (W : Type) `{World W} :=
  destroy_ok : ∀ w q, ∃ out w', sys_call (ibv_destroy_qp q) w = (0, out, w').

Section idle_facts.
Context {W P : Type} `{!World W, !BoostPool P, !DestroyOk W}.
Implicit Types m : mach W P.

Lemma release_all l : ∀ m, Forall (λ c, is_Some (heap m !! c)) l →
  ∃ m', for_each l release_rx_buffer m = Ret (tt, m') ∧
    disp m' = disp m ∧ qps m' = qps m ∧ perf m' = perf m ∧
    ∀ c, is_Some (heap m !! c) → is_Some (heap m' !! c).
Proof.
  induction l as [|c l IH]; intros m Hall; [exists m; split_and!; done|].
  apply Forall_cons in Hall as [[x Hx] Hall]. cbn [for_each]. unfold mbind, ST_bind.
  rewrite (release_rx_buffer_eq m c x Hx).
  match goal with |- context [for_each l _ ?m1] => destruct (IH m1) as (m'&Heq&Hd&Hq&Hp&Hh) end.
  { eapply Forall_impl; [exact Hall|]. intros y Hy. simpl.
    destruct (decide (y = c)) as [->|]; [rewrite lookup_insert_eq; eauto|by rewrite lookup_insert_ne]. }
  exists m'. split_and!; [done..|]. intros y Hy. apply Hh. simpl.
  destruct (decide (y = c)) as [->|]; [rewrite lookup_insert_eq; eauto|by rewrite lookup_insert_ne].
Qed.

Lemma QueuePair_delete_ok m q k : qps m !! q = Some k → qp_qp k ≠ 0 →
  Forall (λ c, is_Some (heap m !! c)) (recv_queue k) →
  ∃ m', QueuePair_delete q m = Ret (tt, m') ∧ disp m' = disp m ∧ qps m' = delete q (qps m) ∧
    perf m' = perf m ∧ ∀ c, is_Some (heap m !! c) → is_Some (heap m' !! c).
Proof using Type*.
  intros Hk Hne Hall. unfold QueuePair_delete, mbind, ST_bind. rewrite (get_qp_eq _ _ _ Hk).
  destruct (Z.eqb_spec (qp_qp k) 0); [done|].
  destruct (destroy_ok (world m) (qp_qp k)) as (out&w'&Hs). rewrite (sysret_eq _ _ _ _ _ Hs).
  cbn [Z.eqb assert]. unfold mret, ST_ret.
  destruct (release_all (recv_queue k) (set_world w' m) Hall) as (m1&->&Hd&Hq&Hp&Hh).
  eexists; split; [done|]. simpl. split_and!; [done|by rewrite Hq|done|done].
Qed.

Lemma destroy_one_ok m q k : perf_ok m → qps m !! q = Some k → qp_qp k ≠ 0 →
  Forall (λ c, is_Some (heap m !! c)) (recv_queue k) →
  ∃ m', Dispatcher.destroy_one q m = Ret (tt, m') ∧ disp m' = disp m ∧ qps m' = delete q (qps m) ∧
    perf_ok m' ∧ ∀ c, is_Some (heap m !! c) → is_Some (heap m' !! c).
Proof using Type*.
  intros Hp Hk Hne Hall. unfold Dispatcher.destroy_one, mbind, ST_bind.
  destruct (perf_dec_ok m l_msgr_rdma_active_queue_pair 1 Hp) as (p&->&Hp1); [by vm_compute|].
  destruct (QueuePair_delete_ok (set_perf p m) q k Hk Hne Hall) as (m1&->&Hd1&Hq1&Hpf&Hh1).
  exists m1. split_and!; [done..| |done]. unfold perf_ok. by rewrite Hpf.
Qed.

Lemma idle_loop l : ∀ m, NoDup l → perf_ok m → rq_ok m →
  (∀ q, q ∈ l → ∃ k, qps m !! q = Some k ∧ qp_qp k ≠ 0) →
  ∃ m', for_each l Dispatcher.destroy_one m = Ret (tt, m') ∧
    disp m' = disp m ∧ perf_ok m' ∧ rq_ok m' ∧
    (∀ q, qps m' !! q = if decide (q ∈ l) then None else qps m !! q).
Proof using Type*.
  induction l as [|q l IH]; intros m Hnd Hperf Hrq Hl; [exists m; split_and!; done|].
  apply NoDup_cons in Hnd as [Hq Hnd]. cbn [for_each]. unfold mbind, ST_bind.
  destruct (Hl q) as (k&Hk&Hne); [set_solver|].
  destruct (destroy_one_ok m q k Hperf Hk Hne) as (m1&->&Hd1&Hq1&Hp1&Hh1).
  { apply Forall_forall. intros c Hc. by eapply (Hrq q k). }
  destruct (IH m1) as (m'&Heq&Hd&Hpf&Hrq'&Hqs); [done|done| | |].
  - intros q' k' c Hk' Hc. apply Hh1. rewrite Hq1 in Hk'. apply lookup_delete_Some in Hk' as [_ Hk'].
    by eapply (Hrq q' k').
  - intros q' Hq'. destruct (Hl q') as (k'&Hk'&?); [set_solver|]. exists k'. split; [|done].
    rewrite Hq1, lookup_delete_ne; [done|]. intros ->. done.
  - exists m'. split_and!; [exact Heq|by rewrite Hd|done|done|].
    intros q'. rewrite Hqs, Hq1. simpl. destruct (decide (q' = q)) as [->|Hneq].
    + rewrite lookup_delete_eq. rewrite (decide_True (P := q ∈ q :: l)) by set_solver. by destruct (decide _).
    + rewrite lookup_delete_ne by done. destruct (decide (q' ∈ l));
        [rewrite decide_True by set_solver|rewrite decide_False by set_solver]; done.
Qed.

Lemma poll_idle_ok m : table_inv m → perf_ok m → rq_ok m →
  ∃ b m', Dispatcher.poll_idle m = Ret (b, m') ∧ table_inv m' ∧ perf_ok m' ∧ rq_ok m' ∧
    disp m' = set_dead_queue_pairs [] (disp m) ∧
    (∀ q, qps m' !! q = if decide (q ∈ dead_queue_pairs (disp m)) then None else qps m !! q) ∧
    b = (num_qp_conn (disp m) =? 0) && d_done (disp m).
Proof using Type*.
  intros Hinv Hperf Hrq. unfold Dispatcher.poll_idle, mbind, ST_bind, gets.
  destruct (perf_set_ok m l_msgr_rdma_inflight_tx_chunks (inflight (disp m)) Hperf) as (p&->&Hp1);
    [by vm_compute|].
  destruct Hinv as (Hn&Hnd&Ht&Hdead).
  destruct (bool_decide (dead_queue_pairs (disp m) = [])) eqn:Hb.
  - apply bool_decide_eq_true in Hb. eexists _, (set_perf p m). split; [done|].
    assert (set_dead_queue_pairs [] (disp m) = disp m) as Hsame by (rewrite <-Hb; by destruct (disp m)).
    simpl. rewrite Hb. split_and!; try done.
    rewrite bool_decide_true by done. by rewrite andb_true_r.
  - set (m1 := set_disp (set_dead_queue_pairs [] (disp m)) (set_perf p m)).
    destruct (idle_loop (dead_queue_pairs (disp m)) m1) as (m'&Heq&Hd&Hpf&Hrq'&Hqs); [| | | |].
    { by apply NoDup_app in Hnd as (_&_&?). } { done. } { done. } { done. }
    unfold on_disp, modify.
    match goal with |- context [for_each _ Dispatcher.destroy_one ?x] => change x with m1 end. rewrite Heq.
    eexists _, m'. split; [done|]. simpl. rewrite Hd. simpl. split_and!; try done.
    + unfold table_inv, registered. rewrite Hd. simpl. split_and!; [done| | |intros ? []%elem_of_nil].
      * rewrite app_nil_r. by apply NoDup_app in Hnd as (?&_&_).
      * intros qpn q s Hs. destruct (Ht qpn q s Hs) as (Hu&k&Hk&?). split; [done|]. exists k.
        rewrite Hqs. rewrite decide_False; [done|]. intros Hin.
        apply NoDup_app in Hnd as (_&Hdis&_). apply (Hdis q); [|done]. apply registered_elem. eauto.
    + by rewrite andb_true_r.
Qed.
End idle_facts.

(** An idle round of the polling thread destroys every queue pair in the
    dead list, each exactly once, and nothing else: it never trips an
    assertion or touches a destroyed object, empties the list, keeps every
    registered queue pair, keeps the table invariant, and the thread leaves its
    loop exactly when it was told to stop and no queue pair is registered. *)
Theorem poll_idle_destroys {W P} `{!World W, !BoostPool P, !DestroyOk W} (m : mach W P) :
  table_inv m → perf_ok m → rq_ok m →
  ∃ b m', Dispatcher.poll_idle m = Ret (b, m') ∧ table_inv m' ∧
    dead_queue_pairs (disp m') = [] ∧ qp_conns (disp m') = qp_conns (disp m) ∧
    (∀ q, q ∈ dead_queue_pairs (disp m) → qps m' !! q = None) ∧
    (∀ q, q ∉ dead_queue_pairs (disp m) → qps m' !! q = qps m !! q) ∧
    (b = true ↔ d_done (disp m) = true ∧ qp_conns (disp m) = ∅).
Proof.
  intros Hinv Hp Hr. pose proof (size_bound m Hinv) as Hsz.
  destruct (poll_idle_ok m Hinv Hp Hr) as (b&m'&Heq&Hinv'&_&_&Hd&Hqs&Hb).
  exists b, m'. rewrite Hd. simpl. split_and!; try done.
  - intros q Hq. rewrite Hqs. by rewrite decide_True.
  - intros q Hq. rewrite Hqs. by rewrite decide_False.
  - rewrite Hb, andb_true_iff, Z.eqb_eq. destruct Hinv as (Hn&_). rewrite Hn.
    rewrite u64_small by (unfold is_u64; lia).
    assert (Z.of_nat (size (qp_conns (disp m))) = 0 ↔ qp_conns (disp m) = ∅) as ->.
    { rewrite <-map_size_empty_iff. lia. }
    naive_solver.
Qed.

(** Two registered queue pairs, one more waiting for destruction *)
Definition demo_qpn (n : Z) : queue_pair := set_qp_num n demo_qp.
Definition demo_tables : dispatcher :=
  mkDisp true 1 2 3 4 true 2 {[ 17 := (100, 900); 18 := (200, 901) ]} [300] 0 [] 0.
Definition demo_qps : gmap Z queue_pair :=
  {[ 100 := demo_qpn 17; 200 := demo_qpn 18; 300 := demo_qpn 19 ]}.
Definition demo_disp : mach script list_pool := set_disp demo_tables (set_qps demo_qps (mach0 [])).

Lemma demo_inv {W P} (m : mach W P) : disp m = demo_tables → qps m = demo_qps → table_inv m.
Proof.
  intros Hd Hq. unfold table_inv, registered. rewrite Hd, Hq.
  split_and!; [by vm_compute|refine (bool_decide_unpack _ _); by vm_compute| |].
  - intros qpn q s. simpl. rewrite lookup_insert_Some, lookup_singleton_Some.
    intros [[<- [= <- <-]]|[_ [<- [= <- <-]]]];
      (split; [by vm_compute|]); eexists; (split; [vm_compute; reflexivity|]); by vm_compute.
  - intros q Hin. apply list_elem_of_singleton in Hin as ->.
    eexists; split; [vm_compute; reflexivity|by vm_compute].
Qed.

(** A world whose answers are all 0 *)
#[global] Instance zero_world : World unit := {| sys_call _ w := (0, [], w); get_errno _ := 0 |}.
#[global] Instance zero_destroy : DestroyOk unit.
Proof. intros w q. by exists [], w. Qed.

Definition zero_disp : mach unit list_pool :=
  mkMach tt (heap demo_disp) ∅ ∅ 0 (mm demo_disp) ib0 (qps demo_disp) ∅ ∅ (disp demo_disp)
    (perf demo_disp) ∅ ∅.

Lemma zero_disp_perf : perf_ok zero_disp.
Proof.
  destruct RDMADispatcher_logger_ok as (p&Hp&Hok). unfold perf_ok.
  replace (perf zero_disp) with p; [exact Hok|].
  change (perf zero_disp) with (logger_of RDMADispatcher_logger). by rewrite Hp.
Qed.

Lemma zero_disp_rq : rq_ok zero_disp.
Proof.
  intros q k c Hk Hc. exfalso. revert Hk. change (qps zero_disp) with demo_qps. unfold demo_qps.
  rewrite !lookup_insert_Some, lookup_singleton_Some.
  intros [[_ <-]|[_ [[_ <-]|[_ [_ <-]]]]]; by apply elem_of_nil in Hc.
Qed.

Lemma poll_idle_destroys_witness :
  ∃ b m', Dispatcher.poll_idle zero_disp = Ret (b, m') ∧ qps m' !! 300 = None ∧
    qps m' !! 100 = Some (demo_qpn 17).
Proof.
  destruct (poll_idle_destroys zero_disp) as (b&m'&Heq&_&_&_&Hgone&Hkeep&_).
  - by apply demo_inv.
  - exact zero_disp_perf.
  - exact zero_disp_rq.
  - exists b, m'. split; [exact Heq|]. split.
    + apply Hgone. exact (list_elem_of_here 300 []).
    + rewrite Hkeep; [vm_compute; reflexivity|]. refine (bool_decide_unpack _ _). by vm_compute.
Defined.

(** ** Runs of the dispatcher

    The sockets register and schedule, the polling thread takes beacons and
    destroys the dead in idle rounds, [polling_stop] sets the flag; anything
    else that runs in between leaves the table and the identities of the queue
    pairs alone. *)

Section runs.
Context {W P : Type} `{!World W, !BoostPool P}.
Implicit Types m : mach W P.

Inductive disp_step : mach W P → mach W P → Prop :=
| ds_register m m' q s k :
    qps m !! q = Some k → is_u32 (qp_num k) → q ∉ registered m ++ dead_queue_pairs (disp m) →
    Dispatcher.register_qp q s m = Ret (tt, m') → disp_step m m'
| ds_schedule m m' qpn : Dispatcher.schedule_qp_destroy qpn m = Ret (tt, m') → disp_step m m'
| ds_beacon m m' qpn : Dispatcher.enqueue_dead_qp qpn m = Ret (tt, m') → disp_step m m'
| ds_idle m m' b : Dispatcher.poll_idle m = Ret (b, m') → disp_step m m'
| ds_done m : disp_step m (set_disp (set_d_done true (disp m)) m)
| ds_other m m' : disp m' = disp m → same_ids (qps m) (qps m') → disp_step m m'.

Lemma destroy_one_wlp q m : wlp (Dispatcher.destroy_one q)
  (λ _ m', disp m' = disp m ∧ qps m' = delete q (qps m)) m.
Proof.
  unfold Dispatcher.destroy_one. apply wlp_bind.
  eapply wlp_mono; [apply (proj1 (frame_wlp (λ m, (disp m, qps m)) _)); solve_frame|].
  simpl. intros _ m1 [= Hd1 Hq1]. unfold QueuePair_delete, get_qp, sysret.
  repeat first [wlp_step | progress cbn beta iota | case_match].
  eapply wlp_mono; [apply (proj1 (frame_wlp (λ m, (disp m, qps m)) _)); solve_frame|].
  simpl. intros _ m2 [= Hd2 Hq2]. wlp_step. simpl. rewrite Hd2, Hq2. simpl. split; congruence.
Qed.

Lemma destroy_all_wlp l : ∀ m, wlp (for_each l Dispatcher.destroy_one)
  (λ _ m', disp m' = disp m ∧ ∀ q, q ∉ l → qps m' !! q = qps m !! q) m.
Proof.
  induction l as [|q l IH]; intros m; [done|]. cbn [for_each]. apply wlp_bind.
  eapply wlp_mono; [apply destroy_one_wlp|]. intros _ m1 [Hd Hq]. eapply wlp_mono; [apply IH|].
  intros _ m2 [Hd2 Hq2]. split; [congruence|]. intros q' Hq'. rewrite Hq2 by set_solver.
  rewrite Hq, lookup_delete_ne; [done|]. set_solver.
Qed.

Lemma poll_idle_inv m b m' : table_inv m → Dispatcher.poll_idle m = Ret (b, m') →
  table_inv m' ∧ dead_queue_pairs (disp m') = [] ∧
  (b = true → num_qp_conn (disp m') = 0 ∧ d_done (disp m') = true).
Proof.
  intros Hinv. apply (wlp_elim _ (λ b m', table_inv m' ∧ dead_queue_pairs (disp m') = [] ∧
    (b = true → num_qp_conn (disp m') = 0 ∧ d_done (disp m') = true))).
  unfold Dispatcher.poll_idle. do 2 wlp_step. wlp_step.
  eapply wlp_mono; [apply (wlp_frame (λ m, (disp m, qps m))); solve_frame|].
  simpl. intros _ m1 [= Hd1 Hq1]. wlp_step.
  apply (wlp_mono _ (λ _ m2, table_inv m2 ∧ dead_queue_pairs (disp m2) = [])).
  - case_bool_decide as Hdead.
    + apply wlp_ret. rewrite Hd1. split; [|done]. eapply table_inv_other; [done| |done].
      rewrite Hq1. apply same_ids_refl.
    + wlp_step. unfold on_disp. wlp_step. eapply wlp_mono; [apply destroy_all_wlp|].
      intros _ m2 [Hd2 Hq2]. unfold table_inv, registered. rewrite Hd2. simpl. rewrite Hd1, app_nil_r.
      destruct Hinv as (Hn&Hnd&Ht&_). apply NoDup_app in Hnd as (Hnd&Hdis&_).
      split_and!; [done..| |intros ? []%elem_of_nil|done].
      intros qpn q s Hs. destruct (Ht qpn q s Hs) as (Hu&k&Hk&?). split; [done|]. exists k.
      rewrite Hq2; [by simpl; rewrite Hq1|]. apply Hdis, registered_elem. eauto.
  - intros _ m2 [Hi Hd]. do 3 wlp_step. split_and!; [done..|].
    rewrite !andb_true_iff, Z.eqb_eq. tauto.
Qed.

Lemma disp_step_inv m m' : table_inv m → disp_step m m' → table_inv m'.
Proof.
  intros Hinv Hs. destruct Hs.
  - by eapply register_inv.
  - by eapply schedule_inv.
  - by eapply enqueue_inv.
  - by eapply poll_idle_inv.
  - exact Hinv.
  - by eapply table_inv_other.
Qed.

Lemma table_inv_empty m : num_qp_conn (disp m) = 0 → qp_conns (disp m) = ∅ →
  dead_queue_pairs (disp m) = [] → table_inv m.
Proof.
  intros Hn Hc Hd. unfold table_inv, registered. rewrite Hn, Hc, Hd, map_to_list_empty. simpl.
  split_and!; [done|constructor|done|intros ? []%elem_of_nil].
Qed.

Lemma table_inv_count m : table_inv m → num_qp_conn (disp m) = 0 → qp_conns (disp m) = ∅.
Proof.
  intros Hinv. pose proof (size_bound m Hinv). destruct Hinv as (->&_).
  rewrite u64_small by (unfold is_u64; lia). intros E. apply map_size_empty_inv. lia.
Qed.

(** [polling_stop] leaves the tables alone. *)
Lemma polling_stop_tables m : wlp Dispatcher.polling_stop (λ _ m',
  num_qp_conn (disp m') = num_qp_conn (disp m) ∧ qp_conns (disp m') = qp_conns (disp m) ∧
  dead_queue_pairs (disp m') = dead_queue_pairs (disp m)) m.
Proof.
  assert (frame (λ m, (num_qp_conn (disp m), qp_conns (disp m), dead_queue_pairs (disp m)))
    (Dispatcher.polling_stop (W := W) (P := P))) as Hf by solve_frame.
  eapply wlp_mono; [exact (wlp_frame _ _ m Hf)|]. simpl. intros _ m' [= ???]. done.
Qed.
End runs.

(** C6: in every state a run of the dispatcher reaches from an empty table, the
    atomic counter is the size of the table, no queue pair is registered twice
    or both registered and waiting for destruction (so none is destroyed
    twice), and every one of them is a live object registered under its own
    number. *)
Theorem table_invariant {W P} `{!World W, !BoostPool P} (m m' : mach W P) :
  num_qp_conn (disp m) = 0 → qp_conns (disp m) = ∅ → dead_queue_pairs (disp m) = [] →
  rtc disp_step m m' → table_inv m'.
Proof.
  intros Hn Hc Hd. apply (rtc_invariant _ table_inv); [|by apply table_inv_empty].
  intros a b. apply disp_step_inv.
Qed.

(** One queue pair is registered, its socket goes away, the beacon arrives. *)
Definition demo_run : mach script list_pool := set_qps {[ 100 := demo_qpn 17 ]} (mach0 []).

Lemma table_invariant_witness :
  table_inv (run (Dispatcher.enqueue_dead_qp 17) (run (Dispatcher.schedule_qp_destroy 17)
    (run (Dispatcher.register_qp 100 900) demo_run))).
Proof.
  eapply (table_invariant demo_run); [reflexivity..|].
  eapply rtc_l; [|eapply rtc_l; [|eapply rtc_l; [|apply rtc_refl]]].
  - eapply (ds_register _ _ 100 900 (demo_qpn 17)); [reflexivity|by vm_compute| |by vm_compute].
    refine (bool_decide_unpack _ _). by vm_compute.
  - apply (ds_schedule _ _ 17). by vm_compute.
  - apply (ds_beacon _ _ 17). by vm_compute.
Defined.

(** When the polling thread has left its loop, the three assertions of the
    destructor hold: whenever [polling_stop] returns, so does the destructor. *)
Theorem dispatcher_exit_clean {W P} `{!World W, !BoostPool P} (m m' m'' : mach W P) :
  table_inv m → Dispatcher.poll_idle m = Ret (true, m') →
  Dispatcher.polling_stop m' = Ret (tt, m'') → Dispatcher.dispatcher_delete m' = Ret (tt, m'').
Proof.
  intros Hinv Hidle Hstop. destruct (poll_idle_inv m true m' Hinv Hidle) as (Hinv'&Hd&Hb).
  destruct (Hb eq_refl) as [Hn _]. pose proof (table_inv_count m' Hinv' Hn) as Hc.
  destruct (wlp_elim _ _ _ _ _ (polling_stop_tables m') Hstop) as (En&Ec&Ed).
  unfold Dispatcher.dispatcher_delete, mbind, ST_bind, gets. rewrite Hstop, En, Ec, Ed, Hn, Hc, Hd.
  by rewrite !bool_decide_true.
Qed.

(** The dispatcher of [demo_run] with its completion queues, told to stop and empty *)
Definition demo_exit : mach script list_pool :=
  set_disp (mkDisp true 1 2 3 4 true 0 ∅ [] 0 [] 0)
    (set_ccs {[ 3 := mkCC 33 0 31 2; 4 := mkCC 43 0 41 0 ]}
      (set_cqs {[ 1 := mkCQ 3 31 CQ_DEPTH; 2 := mkCQ 4 41 CQ_DEPTH ]} (mach0 []))).

Lemma dispatcher_exit_clean_witness :
  let m' := run Dispatcher.poll_idle demo_exit in
  Dispatcher.dispatcher_delete m' = Ret (tt, run Dispatcher.polling_stop m').
Proof.
  apply (dispatcher_exit_clean demo_exit); [by apply table_inv_empty|by vm_compute|by vm_compute].
Defined.

Lemma schedule_unreachable {W P} `{!World W, !BoostPool P} (m m' : mach W P) qpn :
  table_inv m → Dispatcher.schedule_qp_destroy qpn m = Ret (tt, m') →
  Dispatcher.get_conn_lockless qpn m' = Ret (0, m').
Proof.
  intros Hinv Hs. pose proof (schedule_inv qpn m m' Hinv Hs) as (_&_&Ht&_). revert Hs.
  unfold Dispatcher.schedule_qp_destroy, Dispatcher.get_conn_lockless, QueuePair.is_dead, mbind, ST_bind, gets.
  destruct (qp_conns (disp m) !! qpn) as [[q s]|] eqn:Hq; [|intros [= <-]; by rewrite Hq].
  destruct (QueuePair.to_dead q m) as [[r m1]|] eqn:Hd; [|done].
  destruct (to_dead_frame q m r m1 Hd) as (Hd1&_).
  destruct (r =? 0); simpl; intros [= <-]; simpl in *.
  - rewrite lookup_insert_eq. destruct (Ht qpn q 0) as (_&k&Hk&_); [by rewrite lookup_insert_eq|].
    erewrite get_qp_eq; [|exact Hk]. simpl. by destruct (qp_dead k).
  - by rewrite lookup_delete_eq.
Qed.

(** Once a socket has scheduled the destruction of its queue pair, no
    completion of that queue pair finds the socket any more. *)
Theorem destroyed_socket_unreachable {W P} `{!World W, !BoostPool P} (m m' : mach W P) qpn :
  table_inv m → Dispatcher.schedule_qp_destroy qpn m = Ret (tt, m') →
  Dispatcher.get_conn_lockless qpn m' = Ret (0, m').
Proof. apply schedule_unreachable. Qed.

Lemma destroyed_socket_unreachable_witness :
  let m' := run (Dispatcher.schedule_qp_destroy 17) demo_disp in
  Dispatcher.get_conn_lockless 17 m' = Ret (0, m').
Proof.
  apply (destroyed_socket_unreachable demo_disp); [by apply demo_inv|by vm_compute].
Defined.
