(* ===== verification/Socket.v ===== *)
(** * Connected sockets and their workers
    (src/core/RDMAConnectedSocketImpl.cc, and [RDMAWorker] of RDMAStack.h and .cc)

    The handshake over TCP, reading and sending through chunks, the errors,
    and the worker's queue of sockets whose data waits for buffers. *)

From S2P Require Import Prelude State Addr Buffers PerfCounters Machine Memory Wire QueuePair Net Infiniband Dispatcher.

Definition EVENT_READABLE : Z := 1.
Definition EVENT_WRITABLE : Z := 2.
Definition IBV_WC_SUCCESS : Z := 0.

(** [SocketOptions] of network/Stack.h *)
Record SocketOptions := mkOpts {
  o_nonblock : bool;
  o_nodelay : bool;
  o_rcbuf_size : Z;
  o_priority : Z;
  o_connect_bind_addr : entity_addr_t;
}.

Module Worker.
Section worker_ops.
Context {W P : Type} `{!World W, !BoostPool P}.
Abbreviation M := (M W P).

(** [in_thread] of the worker's event centre *)
Definition in_thread (w : Z) : M bool := r ← sysret (center_in_thread w); mret (negb (r =? 0)).

Definition remove_pending_conn (w o : Z) : M unit :=
  b ← in_thread w;
  assert b ;;
  on_worker w (λ k, set_pending_sent_conns (filter (λ x, x ≠ o) (pending_sent_conns k)) k).

(** [get_tx_buffer_size() * r] is computed on 32 bits. *)
Definition get_reged_mem (w o : Z) (c : list Z) (bytes : Z) : M (Z * list Z) :=
  b ← in_thread w;
  assert b ;;
  '(r, c) ← get_tx_buffers c bytes;
  size ← get_tx_buffer_size;
  let got := u32 (size * r) in
  on_disp (λ d, set_inflight (u64 (inflight d + r)) d) ;;
  if got >=? bytes then mret (r, c) else
  if o =? 0 then mret (r, c) else
  k ← get_sock o;
  (if pending k then mret tt else
   on_worker w (λ k, set_pending_sent_conns (pending_sent_conns k ++ [o]) k) ;;
   wperf_inc w l_msgr_rdma_pending_sent_conns 1 ;;
   on_sock o (set_pending true)) ;;
  Dispatcher.make_pending_worker w ;;
  mret (r, c).

End worker_ops.
End Worker.

Module Socket.
Section socket_ops.
Context {W P : Type} `{!World W, !BoostPool P} (cfg : config).
Abbreviation M := (M W P).

(** ** Notification and errors *)

Definition notify (s : Z) : M unit :=
  k ← get_sock s;
  r ← sysret (c_eventfd_write (notify_fd k) 1);
  assert (r =? 0).

Definition fault (s : Z) : M unit :=
  on_sock s (λ k, set_connected 1 (set_s_error ECONNRESET k)) ;;
  notify s.

(** The lambda [cleanup] submits runs before [submit_to] returns. *)
Definition cleanup (s : Z) : M unit :=
  k ← get_sock s;
  (if negb (read_handler k =? 0) && (0 <=? tcp_fd k) then
     sysret (center_delete_file_event (s_worker k) (tcp_fd k) (Z.lor EVENT_READABLE EVENT_WRITABLE)) ;;
     on_sock s (set_read_handler 0)
   else mret tt) ;;
  on_sock s (set_established_handler 0).

(** ** Completions handed over by the dispatcher *)

Definition pass_wc (s : Z) (v : list wc) : M unit := on_sock s (λ k, set_s_wc (s_wc k ++ v) k).

Definition get_wc (s : Z) : M (list wc) :=
  k ← get_sock s; put_sock s (set_s_wc [] k) ;; mret (s_wc k).

(** ** The receive queue *)

Definition post_chunks_to_rq (s num : Z) : M unit :=
  k ← get_sock s;
  n ← post_chunks_to_rq cfg num (s_qp k);
  on_sock s (λ k, set_post_backlog (s32 (post_backlog k + (num - n))) k).

Definition update_post_backlog (s : Z) : M unit :=
  k ← get_sock s;
  if negb (post_backlog k =? 0) then
    n ← Dispatcher.post_chunks cfg (post_backlog k) (s_qp k);
    on_sock s (λ k, set_post_backlog (s32 (post_backlog k - (post_backlog k - n))) k)
  else mret tt.

(** ** Sending *)

(** One signalled send request for the used part of a chunk *)
Definition send_wr (w c : Z) : M work_request :=
  k ← get_chunk c;
  lkey ← mr_lkey (ck_mr k);
  wperf_inc w l_msgr_rdma_tx_bytes (ck_offset k) ;;
  mret (mkWR c (Some (ck_buffer k, ck_offset k, lkey))).

Fixpoint send_wrs (w : Z) (cs : list Z) : M (list work_request) :=
  match cs with
  | [] => mret []
  | c :: cs => r ← send_wr w c; l ← send_wrs w cs; mret (r :: l)
  end.

(** With no buffer the request array has no first element to post. *)
Definition post_work_request (s : Z) (tx_buffers : list Z) : M Z :=
  k ← get_sock s;
  wrs ← send_wrs (s_worker k) tx_buffers;
  if bool_decide (wrs = []) then fail Undefined else
  q ← get_qp (s_qp k);
  r ← sysret (ibv_post_send (qp_qp q) wrs);
  if negb (u32 r =? 0) then
    e ← errno;
    wperf_inc (s_worker k) l_msgr_rdma_tx_failed 1 ;;
    mret (- e)
  else
    wperf_inc (s_worker k) l_msgr_rdma_tx_chunks (Z.of_nat (length tx_buffers)) ;;
    mret 0.

(** The loop of [submit] over the pending buffers *)
Fixpoint tx_chunks_of (l : list Buffer.t) : M (list Z) :=
  match l with
  | [] => mret []
  | b :: l =>
    t ← is_tx_buffer (Buffer.get_buffer b);
    assert t ;;
    c ← get_tx_chunk_by_buffer (Buffer.get_buffer b);
    r ← tx_chunks_of l;
    mret (c :: r)
  end.

Definition submit (s : Z) : M Z :=
  k ← get_sock s;
  if negb (s_error k =? 0) then mret (- s_error k) else
  if BufferList.get_len (pending_bl k) =? 0 then mret 0 else
  tx_buffers ← tx_chunks_of (BufferList.buffer_list (pending_bl k));
  r ← post_work_request s tx_buffers;
  on_sock s (λ k, set_pending_bl (BufferList.Clear (pending_bl k)) k) ;;
  if r <? 0 then mret r else
  k ← get_sock s;
  mret (if negb (BufferList.get_len (pending_bl k) =? 0) then - EAGAIN else 0).

(** [send(std::vector<Chunk*>)] drops the result of [post_work_request]. *)
Definition send_chunks (s : Z) (chunks : list Z) : M Z :=
  k ← get_sock s;
  if connected k =? 0 then mret (-1) else
  post_work_request s chunks ;; mret 0.

Definition send (s : Z) (bl : BufferList.t) : M Z :=
  k ← get_sock s;
  if negb (s_error k =? 0) then mret (if active k then - s_error k else - EPIPE) else
  let bytes := BufferList.get_len bl in
  if bytes =? 0 then mret 0 else
  on_sock s (λ k, set_pending_bl (BufferList.AppendList (pending_bl k) bl) k) ;;
  if connected k =? 0 then mret bytes else
  r ← submit s;
  mret (if (r <? 0) && negb (r =? - EAGAIN) then r else bytes).

(** [tx_copy_chunk]: [bufs] is the range [start, end), the first of which is
    copied from offset [slice]; the result has what was written, the chunks,
    and the range that is left. *)
Fixpoint copy_loop (fuel : nat) (bufs : list Buffer.t) (slice : Z) (idx : nat) (tx : list Z) (write_len req : Z) :
    M (Z * list Buffer.t) :=
  match bufs with
  | [] => assert (req =? 0) ;; mret (write_len, [])
  | b :: bs =>
    match fuel with
    | O => fail NoFuel
    | S fuel =>
      if slice <? Buffer.get_len b then
        c ← the (tx !! idx);
        real_len ← Chunk_write c (Buffer.get_buffer b + slice) (u32 (Buffer.get_len b - slice));
        k ← get_chunk c;
        let slice := slice + real_len in
        let write_len := write_len + real_len in
        let req := u64 (req - real_len) in
        if Chunk_full k then
          if bool_decide (S idx = length tx) then mret (write_len, bufs)
          else copy_loop fuel bufs slice (S idx) tx write_len req
        else copy_loop fuel bufs slice idx tx write_len req
      else copy_loop fuel bs 0 idx tx write_len req
    end
  end.

Definition tx_copy_chunk (fuel : nat) (s : Z) (tx_buffers : list Z) (req_copy_len : Z) (bufs : list Buffer.t) :
    M (Z * list Z * list Buffer.t) :=
  assert (bool_decide (bufs ≠ [])) ;;
  k ← get_sock s;
  '(r, tx) ← Worker.get_reged_mem (s_worker k) s tx_buffers req_copy_len;
  if r =? 0 then wperf_inc (s_worker k) l_msgr_rdma_tx_no_mem 1 ;; mret (0, tx, bufs) else
  '(n, rest) ← copy_loop fuel bufs 0 (length tx_buffers) tx 0 req_copy_len;
  mret (n, tx, rest).

(** [fin]: an empty message whose request id is the queue pair. *)
Definition fin (s : Z) : M unit :=
  k ← get_sock s;
  q ← get_qp (s_qp k);
  r ← sysret (ibv_post_send (qp_qp q) [mkWR (s_qp k) None]);
  if negb (r =? 0) then wperf_inc (s_worker k) l_msgr_rdma_tx_failed 1 else mret tt.

Definition shutdown (s : Z) : M unit :=
  k ← get_sock s;
  (if s_error k =? 0 then fin s else mret tt) ;;
  on_sock s (λ k, set_active false (set_s_error ECONNRESET k)).

Definition close (s : Z) : M unit := shutdown s.

(** ** The handshake *)

Definition activate (s : Z) : M Z :=
  k ← get_sock s;
  on_qp (s_qp k) (λ q, set_local_cm_meta (set_cm_peer_qpn (cm_local_qpn (peer_cm_meta q)) (local_cm_meta q)) q) ;;
  r ← QueuePair.modify_qp_to_rtr cfg (s_qp k);
  if negb (r =? 0) then mret (-1) else
  r ← QueuePair.modify_qp_to_rts (s_qp k);
  if negb (r =? 0) then mret (-1) else
  (if is_server k then mret tt else on_sock s (set_connected 1) ;; submit s ;; mret tt) ;;
  q ← get_qp (s_qp k);
  on_sock s (λ k, set_peer_qpn (cm_peer_qpn (local_cm_meta q)) (set_active true k)) ;;
  mret 0.

(** [junk] is what the message array of [send_cm_meta] held. *)
Definition handle_connection_established (s : Z) (need_set_fault : bool) (junk : list Z) : M Z :=
  k ← get_sock s;
  sysret (center_delete_file_event (s_worker k) (tcp_fd k) (Z.lor EVENT_READABLE EVENT_WRITABLE)) ;;
  if connected k =? 1 then
    (if need_set_fault then fault s else mret tt) ;; mret (-1)
  else
  on_qp (s_qp k) (λ q, set_local_cm_meta (set_cm_peer_qpn 0 (local_cm_meta q)) q) ;;
  r ← QueuePair.send_cm_meta cfg (s_qp k) (tcp_fd k) junk;
  if r <? 0 then (if need_set_fault then fault s else mret tt) ;; mret r else
  sysret (center_create_file_event (s_worker k) (tcp_fd k) EVENT_READABLE (read_handler k)) ;;
  mret 0.

Definition handle_connection (s : Z) (junk : list Z) : M unit :=
  k ← get_sock s;
  r ← QueuePair.recv_cm_meta (s_qp k) (tcp_fd k);
  if r <=? 0 then
    if negb (r =? - EAGAIN) then perf_inc l_msgr_rdma_handshake_errors 1 ;; fault s else mret tt
  else if connected k =? 1 then fault s
  else if negb (is_server k) then
    (if connected k =? 0 then r ← activate s; assert (r =? 0) else mret tt) ;;
    notify s ;;
    r ← QueuePair.send_cm_meta cfg (s_qp k) (tcp_fd k) junk;
    if r <? 0 then perf_inc l_msgr_rdma_handshake_errors 1 ;; fault s else mret tt
  else
    q ← get_qp (s_qp k);
    if cm_peer_qpn (peer_cm_meta q) =? 0 then
      if active k then mret tt else
      r ← activate s;
      assert (r =? 0) ;;
      r ← QueuePair.send_cm_meta cfg (s_qp k) (tcp_fd k) junk;
      if r <? 0 then perf_inc l_msgr_rdma_handshake_errors 1 ;; fault s else mret tt
    else
      on_sock s (set_connected 1) ;;
      submit s ;;
      notify s.

Definition try_connect (s : Z) (peer_addr : entity_addr_t) (opts : SocketOptions) (junk : list Z) : M Z :=
  fd ← (if o_nonblock opts then NetHandler.nonblock_connect cfg peer_addr (o_connect_bind_addr opts)
        else NetHandler.connect cfg peer_addr (o_connect_bind_addr opts));
  on_sock s (set_tcp_fd fd) ;;
  if fd <? 0 then e ← errno; mret (- e) else
  r ← NetHandler.set_socket_options fd (o_nodelay opts) (o_rcbuf_size opts);
  if r <? 0 then
    sysret (c_close fd) ;; on_sock s (set_tcp_fd (-1)) ;; e ← errno; mret (- e)
  else
  NetHandler.set_priority fd (o_priority opts) (Addr.get_family peer_addr) ;;
  if o_nonblock opts then
    k ← get_sock s;
    sysret (center_create_file_event (s_worker k) fd (Z.lor EVENT_READABLE EVENT_WRITABLE) (established_handler k)) ;;
    mret 0
  else handle_connection_established s false junk.

(** The lambda of [set_accept_fd] runs later in the worker's thread. *)
Definition set_accept_fd (s sd : Z) : M unit :=
  on_sock s (λ k, set_is_server true (set_tcp_fd sd k)) ;;
  k ← get_sock s;
  sysret (center_dispatch_external (s_worker k) s) ;; mret tt.

Definition accept_fd_callback (s : Z) : M unit :=
  k ← get_sock s;
  sysret (center_create_file_event (s_worker k) (tcp_fd k) EVENT_READABLE (read_handler k)) ;; mret tt.

(** ** Reading *)

Definition prefetch_one (s : Z) (response : wc) : M unit :=
  assert (wc_status response =? IBV_WC_SUCCESS) ;;
  let chunk := wr_id response in
  Chunk_prepare_read chunk (byte_len response) ;;
  c ← get_chunk chunk;
  if Chunk_get_size c =? 0 then
    Chunk_reset_read_chunk chunk ;;
    perf_inc l_msgr_rdma_rx_fin 1 ;;
    on_sock s (λ k, if negb (connected k =? 0) then set_s_error ECONNRESET k else k) ;;
    Dispatcher.recall_chunk chunk
  else on_sock s (λ k, set_buffers (buffers k ++ [chunk]) k).

Definition buffer_prefetch (s : Z) : M unit :=
  cqe ← get_wc s;
  for_each cqe (prefetch_one s).

Definition drain (s : Z) : M unit :=
  cqe ← get_wc s;
  for_each cqe (λ response,
    assert (wc_status response =? IBV_WC_SUCCESS) ;;
    Dispatcher.recall_chunk (wr_id response) ;;
    update_post_backlog s).

(** The loop of [read_buffers] from iterator [l]; the result is the number of
    bytes and the iterator it stops at. A chunk that keeps its iterator
    without filling the request is visited again. *)
Fixpoint read_loop (fuel : nat) (s buf len : Z) (l : list Z) (read_size : Z) : M (Z * list Z) :=
  match l with
  | [] => mret (read_size, [])
  | c :: l' =>
    match fuel with
    | O => fail NoFuel
    | S fuel =>
      tmp ← Chunk_zero_read c (buf + read_size) (u32 (len - read_size));
      let read_size := read_size + tmp in
      k ← get_chunk c;
      let empty := Chunk_get_size k =? 0 in
      (if empty then Chunk_reset_read_chunk c ;; Dispatcher.recall_chunk c ;; update_post_backlog s
       else mret tt) ;;
      let l := if empty then l' else l in
      if read_size =? len then mret (read_size, l) else read_loop fuel s buf len l read_size
    end
  end.

Definition read_buffers (s buf len : Z) : M Z :=
  buffer_prefetch s ;;
  k ← get_sock s;
  '(n, rest) ← read_loop (S (length (buffers k))) s buf len (buffers k) 0;
  on_sock s (set_buffers rest) ;;
  mret n.

Definition read (s buf len : Z) : M Z :=
  k ← get_sock s;
  if negb (active k) then mret (- EAGAIN) else
  if (connected k =? 0) && negb (is_server k) then mret (- EAGAIN) else
  n ← read_buffers s buf len;
  k ← get_sock s;
  (if is_server k && (connected k =? 0) then
     on_sock s (set_connected 1) ;; cleanup s ;; submit s ;; mret tt
   else mret tt) ;;
  k ← get_sock s;
  (if bool_decide (buffers k = []) then mret tt else notify s) ;;
  k ← get_sock s;
  if (n =? 0) && negb (s_error k =? 0) then mret (- s_error k) else
  mret (if n =? 0 then - EAGAIN else n).

(** ** Life *)

(** [qp] stays uninitialised when connections are made by rdma_cm. *)
Definition create (w : Z) : M Z :=
  s ← sysret (c_new 0);
  rh ← sysret (c_new 0);
  eh ← sysret (c_new 0);
  put_sock s (mkSocket 0 false 0 0 0 0 w [] (-1) BufferList.empty [] false rh eh (-1) false false 0) ;;
  if m_use_rdma_cm_ cfg then mret s else
  d ← gets disp;
  q ← create_queue_pair cfg (tx_cq d) (rx_cq d) IBV_QPT_RC 0;
  on_sock s (set_s_qp q) ;;
  if q =? 0 then mret s else
  n ← QueuePair.get_local_qp_number q;
  on_sock s (set_local_qpn n) ;;
  fd ← sysret c_eventfd;
  on_sock s (set_notify_fd fd) ;;
  Dispatcher.register_qp q s ;;
  perf_inc l_msgr_rdma_created_queue_pair 1 ;;
  perf_inc l_msgr_rdma_active_queue_pair 1 ;;
  mret s.

Definition delete_socket (s : Z) : M unit :=
  cleanup s ;;
  k ← get_sock s;
  Worker.remove_pending_conn (s_worker k) s ;;
  Dispatcher.schedule_qp_destroy (local_qpn k) ;;
  for_each (s_wc k) (λ w, Dispatcher.recall_chunk (wr_id w)) ;;
  for_each (buffers k) Dispatcher.recall_chunk ;;
  (if 0 <=? notify_fd k then sysret (c_close (notify_fd k)) ;; mret tt else mret tt) ;;
  (if 0 <=? tcp_fd k then sysret (c_close (tcp_fd k)) ;; mret tt else mret tt) ;;
  modify (λ m, set_socks (delete s (socks m)) m).

(** ** The worker's queue of sockets with pending data *)

Fixpoint pending_loop (fuel : nat) (w : Z) : M unit :=
  k ← get_worker w;
  match pending_sent_conns k with
  | [] => Dispatcher.notify_pending_workers
  | o :: l =>
    match fuel with
    | O => fail NoFuel
    | S fuel =>
      put_worker w (set_pending_sent_conns l k) ;;
      r ← submit o;
      if r =? - EAGAIN then
        on_worker w (λ k, set_pending_sent_conns (pending_sent_conns k ++ [o]) k) ;;
        Dispatcher.make_pending_worker w
      else
        (if r <? 0 then fault o else mret tt) ;;
        on_sock o (set_pending false) ;;
        wperf_dec w l_msgr_rdma_pending_sent_conns 1 ;;
        pending_loop fuel w
    end
  end.

Definition handle_pending_message (w : Z) : M unit :=
  k ← get_worker w;
  pending_loop (length (pending_sent_conns k)) w.

End socket_ops.
End Socket.

(** ** Lemmas *)

(** The worker's logger, as its constructor built it *)
Definition wperf_ok {W P} (m : mach W P) (w : Z) : Prop :=
  ∃ k, workers m !! w = Some k ∧ u64_logger l_msgr_rdma_first l_msgr_rdma_last (worker_perf k).

Section socket_facts.
Context {W P : Type} `{!World W, !BoostPool P} (cfg : config).
Implicit Types m : mach W P.

Lemma get_sock_eq m s k : socks m !! s = Some k → get_sock s m = Ret (k, m).
Proof. intros H. unfold get_sock, mbind, ST_bind, gets. by rewrite H. Qed.

Lemma on_sock_eq m s k f : socks m !! s = Some k →
  on_sock s f m = Ret (tt, set_socks (<[s := f k]> (socks m)) m).
Proof. intros H. unfold on_sock, mbind, ST_bind. by rewrite (get_sock_eq _ _ _ H). Qed.

Lemma wperf_inc_ok m w i amt : wperf_ok m w → l_msgr_rdma_first < i < l_msgr_rdma_last →
  ∃ ws, wperf_inc w i amt m = Ret (tt, set_workers ws m) ∧ wperf_ok (set_workers ws m) w.
Proof.
  intros (k&Hk&Hp) Hi. destruct (u64_logger_inc _ _ _ i amt Hp Hi) as (p&Heq&Hok).
  unfold wperf_inc, get_worker, mbind, ST_bind, gets. rewrite Hk. cbn [the]. unfold mret, ST_ret, lift. rewrite Heq.
  eexists; split; [done|]. exists (set_worker_perf p k). split; [apply lookup_insert_eq|done].
Qed.

(** The request [post_work_request] builds for a chunk *)
Definition swr_of m (c : Z) : work_request :=
  match heap m !! c with
  | Some x => mkWR c (Some (ck_buffer x, ck_offset x, default 0 (mrs m !! ck_mr x)))
  | None => mkWR c None
  end.

Definition sendable m (c : Z) : Prop := ∃ x lkey, heap m !! c = Some x ∧ mrs m !! ck_mr x = Some lkey.

Lemma send_wrs_ok w cs : ∀ m, wperf_ok m w → Forall (sendable m) cs →
  ∃ ws, Socket.send_wrs w cs m = Ret (swr_of m <$> cs, set_workers ws m) ∧ wperf_ok (set_workers ws m) w.
Proof.
  induction cs as [|c cs IH]; intros m Hw Hall; [exists (workers m); by destruct m|].
  apply Forall_cons in Hall as [(x&lkey&Hx&Hl) Hall]. cbn [Socket.send_wrs]. unfold Socket.send_wr.
  unfold mbind, ST_bind. rewrite (get_chunk_eq _ _ _ Hx). unfold mr_lkey, mbind, ST_bind, gets. rewrite Hl. cbn [the].
  unfold mret, ST_ret.
  destruct (wperf_inc_ok m w l_msgr_rdma_tx_bytes (ck_offset x) Hw) as (ws&->&Hw'); [by vm_compute|].
  destruct (IH (set_workers ws m) Hw' Hall) as (ws'&->&Hw''). exists ws'. split; [|done].
  cbn [fmap list_fmap]. unfold swr_of at 2. rewrite Hx, Hl. done.
Qed.

Lemma post_work_request_eq m s k q cs r out w' : socks m !! s = Some k → qps m !! s_qp k = Some q →
  wperf_ok m (s_worker k) → cs ≠ [] → Forall (sendable m) cs →
  sys_call (ibv_post_send (qp_qp q) (swr_of m <$> cs)) (world m) = (r, out, w') → is_u32 r →
  ∃ ws, Socket.post_work_request s cs m =
    Ret (if r =? 0 then 0 else - get_errno w', set_workers ws (set_world w' m)).
Proof.
  intros Hk Hq Hw Hne Hall Hs Hr. unfold Socket.post_work_request, mbind, ST_bind.
  rewrite (get_sock_eq _ _ _ Hk).
  destruct (send_wrs_ok (s_worker k) cs m Hw Hall) as (ws&->&Hw1).
  rewrite bool_decide_false by (by destruct cs). rewrite (get_qp_eq _ _ q) by done.
  rewrite (sysret_eq _ _ r out w') by done. rewrite u32_small by done.
  destruct (r =? 0); cbn [negb].
  - destruct (wperf_inc_ok (set_world w' (set_workers ws m)) (s_worker k) l_msgr_rdma_tx_chunks
      (Z.of_nat (length cs)) Hw1) as (ws'&->&_); [by vm_compute|]. by exists ws'.
  - unfold errno, mbind, ST_bind, gets.
    destruct (wperf_inc_ok (set_world w' (set_workers ws m)) (s_worker k) l_msgr_rdma_tx_failed 1 Hw1)
      as (ws'&E&_); [by vm_compute|]. unfold mret, ST_ret. rewrite E. by exists ws'.
Qed.

(** The chunks that own the pending buffers *)
Definition owners m (l : list Buffer.t) (cs : list Z) : Prop :=
  ∃ cl, send_buffers (mm m) = Some cl ∧
    Forall2 (λ b c, Cluster.is_my_buffer cl (Buffer.get_buffer b) = true ∧
                    Cluster.get_chunk_by_buffer cl (Buffer.get_buffer b) = Ret c) l cs.

Lemma tx_chunks_of_eq m l cs : owners m l cs → Socket.tx_chunks_of l m = Ret (cs, m).
Proof.
  intros (cl&Hcl&Hall). induction Hall as [|b c l cs [Hb Hc] _ IH]; [done|].
  cbn [Socket.tx_chunks_of]. unfold is_tx_buffer, get_tx_chunk_by_buffer, mbind, ST_bind.
  rewrite (get_cluster_eq _ _ Hcl). unfold mret, ST_ret. rewrite Hb. cbn [assert]. unfold mret, ST_ret.
  rewrite (get_cluster_eq _ _ Hcl). unfold lift. rewrite Hc. by rewrite IH.
Qed.
End socket_facts.

(** C14: [send] on a connected socket without an error posts, in order, one
    signalled send request for each pending buffer and each new one (the
    owning chunk's address as id, its buffer, the bytes filled in, its key),
    and empties the pending list. It returns the number of bytes given to it,
    or the negated [errno] when the post failed for another reason than
    EAGAIN; a post that failed has dropped the data all the same. *)
Theorem send_spec {W P} `{!World W, !BoostPool P} (m : mach W P) s k q bl cs r out w' :
  socks m !! s = Some k → s_error k = 0 → connected k ≠ 0 → qps m !! s_qp k = Some q →
  wperf_ok m (s_worker k) →
  let all := BufferList.AppendList (pending_bl k) bl in
  BufferList.get_len bl ≠ 0 → BufferList.get_len all ≠ 0 → cs ≠ [] →
  owners m (BufferList.buffer_list all) cs → Forall (sendable m) cs →
  sys_call (ibv_post_send (qp_qp q) (swr_of m <$> cs)) (world m) = (r, out, w') → is_u32 r →
  (r ≠ 0 → 0 < get_errno w') →
  ∃ ws, Socket.send s bl m = Ret (
      if (r =? 0) || (get_errno w' =? EAGAIN) then BufferList.get_len bl else - get_errno w',
      set_socks (<[s := set_pending_bl (BufferList.mk [] (BufferList.get_len all)) k]> (socks m))
        (set_workers ws (set_world w' m))).
Proof.
  intros Hk He Hc Hq Hw all Hb Ha Hne Hown Hsend Hs Hr Herr.
  unfold Socket.send. unfold mbind at 1, ST_bind at 1. rewrite (get_sock_eq _ _ _ Hk), He. cbn [Z.eqb negb].
  destruct (Z.eqb_spec (BufferList.get_len bl) 0); [done|].
  unfold mbind, ST_bind. rewrite (on_sock_eq _ _ _ _ Hk). fold all.
  destruct (Z.eqb_spec (connected k) 0); [done|].
  set (k1 := set_pending_bl all k). set (m1 := set_socks (<[s := k1]> (socks m)) m).
  assert (socks m1 !! s = Some k1) as Hk1 by apply lookup_insert_eq.
  unfold Socket.submit, mbind, ST_bind. rewrite (get_sock_eq _ _ _ Hk1). cbn [k1 set_pending_bl s_error pending_bl].
  rewrite He. cbn [Z.eqb negb]. destruct (Z.eqb_spec (BufferList.get_len all) 0); [done|].
  rewrite (tx_chunks_of_eq m1 _ cs) by exact Hown.
  destruct (post_work_request_eq m1 s k1 q cs r out w' Hk1 Hq Hw Hne Hsend Hs Hr) as (ws&->).
  rewrite (on_sock_eq _ s k1) by done. exists ws.
  set (m2 := set_socks _ _).
  replace (set_socks (<[s := set_pending_bl (BufferList.mk [] (BufferList.get_len all)) k]> (socks m))
    (set_workers ws (set_world w' m))) with m2.
  2: { unfold m2, m1, k1, set_socks, set_workers, set_world. simpl. by rewrite insert_insert_eq. }
  destruct (Z.eqb_spec r 0) as [->|Hr0]; cbn [orb].
  - cbn [Z.ltb Z.compare]. rewrite (get_sock_eq m2 s (set_pending_bl (BufferList.Clear all) k1)) by apply lookup_insert_eq.
    cbn [set_pending_bl pending_bl]. change (BufferList.get_len (BufferList.Clear all)) with (BufferList.get_len all).
    destruct (Z.eqb_spec (BufferList.get_len all) 0); [done|]. done.
  - specialize (Herr Hr0). destruct (Z.ltb_spec (- get_errno w') 0); [|lia]. unfold mret, ST_ret.
    destruct (Z.ltb_spec (- get_errno w') 0); [|lia]. cbn [andb].
    destruct (Z.eqb_spec (get_errno w') EAGAIN) as [->|]; [done|].
    destruct (Z.eqb_spec (- get_errno w') (- EAGAIN)); [lia|done].
Qed.

(** A pool of four 16-byte buffers at 4096 with their chunks at 8192, and a
    socket whose worker is at 1 *)
Definition demo_cluster : cluster := mkCluster 16 4 [] 4096 4160 8192.
Definition demo_send_sock : socket :=
  mkSocket 100 false 0 17 1 0 1 [] 7 BufferList.empty [] false 5 6 8 true false 0.
Definition demo_send : mach script list_pool :=
  set_socks {[ 900 := demo_send_sock ]}
  (set_workers {[ 1 := mkWorker [] (logger_of (RDMAWorker_logger "w")) ]}
  (set_qps {[ 100 := demo_qp ]}
  (set_mrs {[ 11 := 77 ]}
  (set_heap {[ 8192 := Chunk_new 11 16 4096 9 16 77; 8248 := Chunk_new 11 16 4112 4 16 77 ]}
  (set_mm (mkMM (Some demo_cluster) 0 false false (mkPool [] 184 4)) (mach0 [])))))).
Definition demo_bl : BufferList.t :=
  BufferList.mk [Buffer.of_raw 4096 9; Buffer.of_raw 4112 4] 13.

Lemma demo_send_perf : wperf_ok demo_send 1.
Proof.
  exists (mkWorker [] (logger_of (RDMAWorker_logger "w"))). split; [reflexivity|].
  cbn [worker_perf]. destruct (RDMAWorker_logger_ok "w") as (p&->&Hp). exact Hp.
Qed.

Lemma send_spec_witness : ∃ m', Socket.send 900 demo_bl demo_send = Ret (13, m').
Proof.
  destruct (send_spec demo_send 900 demo_send_sock demo_qp demo_bl [8192; 8248] 0 []
    (mkScript [] 0 [ibv_post_send 60 [mkWR 8192 (Some (4096, 9, 77)); mkWR 8248 (Some (4112, 4, 77))]]))
    as (ws&Heq); [reflexivity|reflexivity|done|reflexivity|exact demo_send_perf|done|done|done| | | | |done|].
  - exists demo_cluster. split; [reflexivity|]. repeat constructor.
  - repeat constructor; eexists _, _; (split; [reflexivity|reflexivity]).
  - reflexivity.
  - by vm_compute.
  - eexists. exact Heq.
Defined.

(** What a successful [submit] leaves behind makes the next one undefined:
    [Clear] keeps the byte count, so without new data the next [submit] posts
    from an array without elements; and every [submit] that has posted reports
    EAGAIN. *)
Theorem submit_twice_undefined {W P} `{!World W, !BoostPool P} (m : mach W P) s k q cs out w' :
  socks m !! s = Some k → s_error k = 0 → qps m !! s_qp k = Some q → wperf_ok m (s_worker k) →
  BufferList.get_len (pending_bl k) ≠ 0 → cs ≠ [] →
  owners m (BufferList.buffer_list (pending_bl k)) cs → Forall (sendable m) cs →
  sys_call (ibv_post_send (qp_qp q) (swr_of m <$> cs)) (world m) = (0, out, w') →
  ∃ m', Socket.submit s m = Ret (- EAGAIN, m') ∧ Socket.submit s m' = Crash Undefined.
Proof.
  intros Hk He Hq Hw Ha Hne Hown Hsend Hs.
  set (k' := set_pending_bl (BufferList.Clear (pending_bl k)) k).
  destruct (post_work_request_eq m s k q cs 0 out w' Hk Hq Hw Hne Hsend Hs) as (ws&Hpost); [done|].
  exists (set_socks (<[s := k']> (socks m)) (set_workers ws (set_world w' m))). split.
  - unfold Socket.submit, mbind, ST_bind. rewrite (get_sock_eq _ _ _ Hk), He. cbn [Z.eqb negb].
    destruct (Z.eqb_spec (BufferList.get_len (pending_bl k)) 0); [done|].
    rewrite (tx_chunks_of_eq m _ cs Hown), Hpost. cbn [Z.eqb].
    rewrite (on_sock_eq _ s k) by done. cbn [Z.ltb Z.compare]. fold k'. unfold mbind, ST_bind.
    rewrite (get_sock_eq _ s k') by apply lookup_insert_eq. cbn [k' set_pending_bl pending_bl].
    change (BufferList.get_len (BufferList.Clear (pending_bl k))) with (BufferList.get_len (pending_bl k)).
    destruct (Z.eqb_spec (BufferList.get_len (pending_bl k)) 0); done.
  - unfold Socket.submit, mbind, ST_bind. rewrite (get_sock_eq _ s k') by apply lookup_insert_eq.
    cbn [k' set_pending_bl s_error pending_bl]. rewrite He. cbn [Z.eqb negb].
    change (BufferList.get_len (BufferList.Clear (pending_bl k))) with (BufferList.get_len (pending_bl k)).
    destruct (Z.eqb_spec (BufferList.get_len (pending_bl k)) 0); [done|].
    cbn [BufferList.Clear BufferList.buffer_list Socket.tx_chunks_of]. unfold mret, ST_ret, Socket.post_work_request, mbind, ST_bind.
    by rewrite (get_sock_eq _ s k') by apply lookup_insert_eq.
Qed.

Lemma submit_twice_undefined_witness : ∃ m',
  Socket.submit 900 (set_socks {[ 900 := set_pending_bl demo_bl demo_send_sock ]} demo_send) = Ret (- EAGAIN, m') ∧
  Socket.submit 900 m' = Crash Undefined.
Proof.
  apply (submit_twice_undefined _ 900 (set_pending_bl demo_bl demo_send_sock) demo_qp [8192; 8248] []
    (mkScript [] 0 [ibv_post_send 60 [mkWR 8192 (Some (4096, 9, 77)); mkWR 8248 (Some (4112, 4, 77))]]));
    [reflexivity|reflexivity|reflexivity|exact demo_send_perf|done|done| | |reflexivity].
  - exists demo_cluster. split; [reflexivity|]. repeat constructor.
  - repeat constructor; eexists _, _; (split; [reflexivity|reflexivity]).
Defined.

(** [update_post_backlog] stores the number of buffers it has posted as the
    new backlog, where the backlog should shrink by it: a backlog posted in
    full stays, and is posted again next time, and one of which nothing could
    be posted is forgotten. *)
Theorem update_post_backlog_inverted {W P} `{!World W, !BoostPool P} (cfg : config) (m m1 : mach W P) s k k1 n :
  socks m !! s = Some k → post_backlog k ≠ 0 →
  post_chunks_to_rq cfg (post_backlog k) (s_qp k) m = Ret (n, m1) →
  socks m1 !! s = Some k1 → post_backlog k1 = post_backlog k →
  0 ≤ n < 2147483648 →
  Socket.update_post_backlog cfg s m = Ret (tt, set_socks (<[s := set_post_backlog n k1]> (socks m1)) m1).
Proof.
  intros Hk Hne Hpost Hk1 Hsame Hn. unfold Socket.update_post_backlog, mbind, ST_bind.
  rewrite (get_sock_eq _ _ _ Hk). destruct (Z.eqb_spec (post_backlog k) 0); [done|]. cbn [negb].
  unfold Dispatcher.post_chunks. rewrite Hpost, (on_sock_eq _ _ _ _ Hk1). do 4 f_equal.
  rewrite Hsame. replace (post_backlog k - (post_backlog k - n)) with n by lia. f_equal.
  unfold s32. rewrite u32_small by (unfold is_u32; lia). destruct (Z.ltb_spec n 2147483648); [done|lia].
Qed.

Definition demo_backlog : mach script list_pool :=
  set_socks {[ 900 := set_post_backlog 2 demo_send_sock ]} demo_rq.

Lemma update_post_backlog_inverted_witness :
  let m1 := run (post_chunks_to_rq config0 2 100) demo_backlog in
  Socket.update_post_backlog config0 900 demo_backlog =
  Ret (tt, set_socks (<[900 := set_post_backlog 2 demo_send_sock]> (socks m1)) m1).
Proof.
  apply (update_post_backlog_inverted config0 demo_backlog _ 900 (set_post_backlog 2 demo_send_sock)
    (set_post_backlog 2 demo_send_sock) 2); [reflexivity|done|vm_compute; reflexivity|reflexivity|reflexivity|lia].
Defined.
