(* ===== verification/SocketRead.v ===== *)
(** * Reading from a connected socket
    ([read], [read_buffers], [buffer_prefetch] of src/core/RDMAConnectedSocketImpl.cc)

    How many bytes a [read] reports, which chunks it gives back to the pool,
    and what an empty message (the peer's [fin]) does. *)

From S2P Require Import Prelude State Addr Buffers PerfCounters Machine Memory Wire QueuePair Net Infiniband Dispatcher Socket.

Definition chunk_size (h : gmap Z chunk) (c : Z) : Z :=
  match h !! c with Some x => Chunk_get_size x | None => 0 end.

(** The bytes waiting in a list of chunks *)
Definition avail (h : gmap Z chunk) (l : list Z) : Z := Zsum (chunk_size h <$> l).

(** A received chunk: out of its receive queue, its cursor inside its data *)
Definition readable (h : gmap Z chunk) (c : Z) : Prop :=
  ∃ x, h !! c = Some x ∧ ck_qp x = 0 ∧ 0 ≤ ck_offset x ≤ ck_bound x ∧ ck_bound x < 4294967296.

Section read_facts.
Context {W P : Type} `{!World W, !BoostPool P, !PoolLaws P} (cfg : config).
Implicit Types m : mach W P.

Lemma readable_size h c x : h !! c = Some x → 0 ≤ ck_offset x ≤ ck_bound x → ck_bound x < 4294967296 →
  chunk_size h c = ck_bound x - ck_offset x.
Proof. intros Hx ? ?. unfold chunk_size, Chunk_get_size. rewrite Hx. apply u32_small. unfold is_u32. lia. Qed.

Lemma avail_insert h l c x : c ∉ l → avail (<[c := x]> h) l = avail h l.
Proof.
  intros Hc. unfold avail. f_equal. apply list_fmap_ext. intros i y Hy. unfold chunk_size.
  rewrite lookup_insert_ne; [done|]. intros ->. by apply list_elem_of_lookup_2 in Hy.
Qed.

Lemma avail_nonneg h l : Forall (readable h) l → 0 ≤ avail h l.
Proof.
  intros Hall. apply Zsum_nonneg, Forall_fmap. eapply Forall_impl; [exact Hall|].
  intros c (x&Hx&_&?&?). simpl. rewrite (readable_size h c x) by done. lia.
Qed.

Lemma readable_insert h l c x : c ∉ l → Forall (readable h) l → Forall (readable (<[c := x]> h)) l.
Proof.
  intros Hc Hall. apply Forall_forall. intros y Hy. rewrite Forall_forall in Hall. destruct (Hall y Hy) as (z&Hz&?).
  exists z. split; [|done]. rewrite lookup_insert_ne; [done|]. by intros ->.
Qed.

Lemma zero_read_eq m c x buf n : heap m !! c = Some x →
  let rl := if Chunk_get_size x <=? n then Chunk_get_size x else n in
  Chunk_zero_read c buf n m = Ret (rl, set_heap (<[c := set_ck_offset (u32 (ck_offset x + rl)) x]> (heap m)) m).
Proof.
  intros Hx. unfold Chunk_zero_read, mbind, ST_bind. rewrite (get_chunk_eq _ _ _ Hx).
  by rewrite (on_chunk_eq _ _ _ _ Hx).
Qed.

Lemma update_backlog_none m s k : socks m !! s = Some k → post_backlog k = 0 →
  Socket.update_post_backlog cfg s m = Ret (tt, m).
Proof.
  intros Hk Hb. unfold Socket.update_post_backlog, mbind, ST_bind. by rewrite (get_sock_eq _ _ _ Hk), Hb.
Qed.

(** A chunk that is in no receive queue goes straight back to the pool. *)
Lemma recall_unmarked m c x : heap m !! c = Some x → ck_qp x = 0 →
  Dispatcher.recall_chunk c m = Ret (tt,
    set_mm (set_rxbuf_pool (pool_free c (rxbuf_pool (mm m))) (mm m)) (set_heap (<[c := set_ck_qp 0 x]> (heap m)) m)).
Proof.
  intros Hx Hq. unfold Dispatcher.recall_chunk, recall_chunk_to_pool, mbind, ST_bind.
  rewrite (get_chunk_eq _ _ _ Hx), Hq. cbn [Z.eqb negb]. unfold mret, ST_ret.
  by rewrite (release_rx_buffer_eq m c x Hx).
Qed.

Lemma set_world_id m : set_world (world m) m = m.
Proof. by destruct m. Qed.

(** What a run of the loop leaves: chunks [done] went to the pool. *)
Definition consumed m m' (l done rest : list Z) : Prop :=
  l = done ++ rest ∧ rx_free m' = rev done ++ rx_free m ∧ Forall (readable (heap m')) rest ∧
  socks m' = socks m ∧ world m' = world m ∧ perf m' = perf m ∧ qps m' = qps m ∧ mrs m' = mrs m ∧
  workers m' = workers m ∧ send_buffers (mm m') = send_buffers (mm m).

Lemma read_loop_spec s k buf len : is_u32 len → ∀ fuel l m rs, (length l ≤ fuel)%nat →
  NoDup l → Forall (readable (heap m)) l → socks m !! s = Some k → post_backlog k = 0 → 0 ≤ rs ≤ len →
  let n := Z.min len (rs + avail (heap m) l) in
  ∃ m' done rest, Socket.read_loop cfg fuel s buf len l rs m = Ret (n, rest, m') ∧
    consumed m m' l done rest ∧ avail (heap m') rest = rs + avail (heap m) l - n.
Proof.
  intros Hlen. induction fuel as [|fuel IH]; intros [|c l] m rs Hf Hnd Hall Hk Hb Hrs n; try (simpl in Hf; lia).
  1,2: exists m, [], []; unfold avail; subst n; simpl; rewrite Z.add_0_r, Z.min_r by lia; split; [done|];
       split; [by split_and!|cbn; lia].
  apply NoDup_cons in Hnd as [Hc Hnd]. apply Forall_cons in Hall as [(x&Hx&Hq&Ho&Hbd) Hall].
  assert (avail (heap m) (c :: l) = (ck_bound x - ck_offset x) + avail (heap m) l) as Hav
    by (unfold avail; cbn [fmap list_fmap Zsum]; by rewrite (readable_size _ c x)).
  pose proof (avail_nonneg _ _ Hall) as Hnn.
  cbn [Socket.read_loop]. unfold mbind, ST_bind.
  rewrite (u32_small (len - rs)) by (unfold is_u32 in *; lia). rewrite (zero_read_eq m c x _ _ Hx).
  assert (Chunk_get_size x = ck_bound x - ck_offset x) as Hsz by (apply u32_small; unfold is_u32; lia).
  rewrite Hsz.
  destruct (Z.leb_spec (ck_bound x - ck_offset x) (len - rs)) as [Hle|Hgt].
  - replace (ck_offset x + (ck_bound x - ck_offset x)) with (ck_bound x) by lia.
    rewrite (u32_small (ck_bound x)) by (unfold is_u32; lia).
    set (x1 := set_ck_offset (ck_bound x) x). set (h1 := <[c := x1]> (heap m)).
    rewrite (get_chunk_eq _ c x1) by (subst h1; apply lookup_insert_eq).
    assert (Chunk_get_size x1 = 0) as -> by (unfold Chunk_get_size; simpl; rewrite Z.sub_diag; done).
    cbn [Z.eqb]. unfold Chunk_reset_read_chunk.
    rewrite (on_chunk_eq _ c x1) by (subst h1; apply lookup_insert_eq).
    rewrite (recall_unmarked _ c (set_ck_bound 0 (set_ck_offset 0 x1))) by (simpl; try apply lookup_insert_eq; done).
    rewrite (update_backlog_none _ s k) by done. set (m1 := set_mm _ _).
    assert (∀ y, y ≠ c → heap m1 !! y = heap m !! y) as Hh1.
    { intros y Hy. unfold m1, h1. simpl. by rewrite !lookup_insert_ne. }
    assert (avail (heap m1) l = avail (heap m) l) as Hav1 by (unfold m1, h1; simpl; by rewrite !avail_insert).
    assert (Forall (readable (heap m1)) l) as Hall1 by (unfold m1, h1; simpl; by apply readable_insert, readable_insert, readable_insert).
    assert (rx_free m1 = c :: rx_free m) as Hfr by apply pool_list_free.
    destruct (Z.eqb_spec (rs + (ck_bound x - ck_offset x)) len) as [E|E].
    + exists m1, [c], l. rewrite Hav. subst n. rewrite Hav. rewrite Z.min_l by lia. rewrite E. split; [done|].
      split; [by split_and!|]. rewrite Hav1. lia.
    + destruct (IH l m1 (rs + (ck_bound x - ck_offset x))) as (m'&dn&rest&Heq&Hcon&Hrest); try done; [simpl in Hf; lia|lia|].
      exists m', (c :: dn), rest. rewrite Heq. rewrite Hav1 in *. subst n. rewrite Hav.
      replace (rs + (ck_bound x - ck_offset x + avail (heap m) l))
        with (rs + (ck_bound x - ck_offset x) + avail (heap m) l) by lia.
      split; [done|]. split; [|done]. destruct Hcon as (->&Hr&?&?&?&?&?&?&?&?). split_and!; try done.
      rewrite Hr, Hfr. simpl. by rewrite <-app_assoc.
  - set (x1 := set_ck_offset _ x). set (h1 := <[c := x1]> (heap m)).
    assert (ck_offset x1 = ck_offset x + (len - rs)) as Ho1 by (apply u32_small; unfold is_u32; lia).
    rewrite (get_chunk_eq _ c x1) by (subst h1; apply lookup_insert_eq).
    assert (Chunk_get_size x1 = ck_bound x - ck_offset x - (len - rs)) as Hs1.
    { unfold Chunk_get_size. rewrite Ho1. change (ck_bound x1) with (ck_bound x).
      rewrite u32_small by (unfold is_u32; lia). lia. }
    rewrite Hs1. destruct (Z.eqb_spec (ck_bound x - ck_offset x - (len - rs)) 0); [lia|]. unfold mret, ST_ret.
    replace (rs + (len - rs)) with len by lia. rewrite Z.eqb_refl.
    exists (set_heap h1 m), [], (c :: l). subst n. rewrite Hav, Z.min_l by lia. split; [done|]. split.
    + split_and!; try done. constructor; [|subst h1; by apply readable_insert].
      exists x1. split; [simpl; apply lookup_insert_eq|]. split; [done|]. rewrite Ho1.
      change (ck_bound x1) with (ck_bound x). lia.
    + unfold avail. cbn [fmap list_fmap Zsum]. change (Zsum (chunk_size ?h <$> l)) with (avail h l).
      simpl. unfold h1 at 2. rewrite avail_insert by done. unfold chunk_size, h1. rewrite lookup_insert_eq, Hs1. lia.
Qed.

(** Completions with data, and the peer's fins *)
Definition data_ids (l : list wc) : list Z := wr_id <$> filter (λ w, byte_len w ≠ 0) l.
Definition fin_ids (l : list wc) : list Z := wr_id <$> filter (λ w, byte_len w = 0) l.

Definition incoming (h : gmap Z chunk) (w : wc) : Prop :=
  wc_status w = IBV_WC_SUCCESS ∧ is_u32 (byte_len w) ∧ ∃ x, h !! wr_id w = Some x ∧ ck_qp x = 0.

Definition prefetched (k : socket) (l : list wc) : socket :=
  set_buffers (buffers k ++ data_ids l)
    (if bool_decide (fin_ids l = []) || (connected k =? 0) then k else set_s_error ECONNRESET k).

Lemma prefetched_cons k w l :
  prefetched k (w :: l) = prefetched (prefetched k [w]) l.
Proof.
  unfold prefetched, data_ids, fin_ids. rewrite !filter_cons, !filter_nil.
  destruct (decide (byte_len w = 0)) as [E|E].
  - rewrite !(decide_False (P := byte_len w ≠ 0)) by tauto. csimpl. rewrite !app_nil_r.
    destruct (connected k =? 0) eqn:Hc; csimpl; rewrite Hc; by destruct (bool_decide _).
  - rewrite !(decide_True (P := byte_len w ≠ 0)) by done. csimpl. rewrite <-app_assoc. csimpl.
    destruct (connected k =? 0) eqn:Hc; csimpl; rewrite ?Hc; by destruct (bool_decide _).
Qed.

Lemma prefetched_nil k : prefetched k [] = k.
Proof. unfold prefetched. csimpl. rewrite app_nil_r. by destruct k. Qed.

(** The part of the machine reading does not touch *)
Definition elsewhere m := (world m, qps m, mrs m, workers m, send_buffers (mm m), disp m, ib m).

Lemma prefetch_one_spec s k w m : socks m !! s = Some k → perf_ok m → incoming (heap m) w →
  ∃ m' x, Socket.prefetch_one s w m = Ret (tt, m') ∧ socks m' = <[s := prefetched k [w]]> (socks m) ∧
    perf_ok m' ∧ rx_free m' = rev (fin_ids [w]) ++ rx_free m ∧ heap m' = <[wr_id w := x]> (heap m) ∧
    ck_qp x = 0 ∧ (byte_len w ≠ 0 → ck_offset x = 0 ∧ ck_bound x = byte_len w) ∧ elsewhere m' = elsewhere m.
Proof.
  intros Hk Hp (Hst&Hlen&x&Hx&Hq). unfold Socket.prefetch_one, mbind, ST_bind. rewrite Hst. cbn [Z.eqb IBV_WC_SUCCESS assert].
  unfold mret, ST_ret, Chunk_prepare_read. rewrite (on_chunk_eq _ _ _ _ Hx).
  set (x1 := set_ck_bound _ _). set (m1 := set_heap _ m).
  assert (heap m1 !! wr_id w = Some x1) as Hx1 by apply lookup_insert_eq. rewrite (get_chunk_eq _ _ _ Hx1).
  assert (Chunk_get_size x1 = byte_len w) as -> by (unfold Chunk_get_size; simpl; rewrite Z.sub_0_r; by apply u32_small).
  unfold prefetched, data_ids, fin_ids. rewrite !filter_cons, !filter_nil.
  destruct (Z.eqb_spec (byte_len w) 0) as [E|E].
  - rewrite !(decide_True (P := byte_len w = 0)) by done. rewrite !(decide_False (P := byte_len w ≠ 0)) by tauto.
    unfold Chunk_reset_read_chunk. rewrite (on_chunk_eq _ _ _ _ Hx1). set (x2 := set_ck_bound 0 _). set (m2 := set_heap _ m1).
    assert (heap m2 !! wr_id w = Some x2) as Hx2 by apply lookup_insert_eq.
    destruct (perf_inc_ok m2 l_msgr_rdma_rx_fin 1 Hp) as (p&->&Hp2); [by vm_compute|].
    rewrite (on_sock_eq (set_perf p m2) s k) by done. set (m3 := set_socks _ _).
    rewrite (recall_unmarked m3 _ x2) by done. eexists _, (set_ck_qp 0 x2). split; [done|].
    split_and!; try done; simpl.
    + rewrite app_nil_r. f_equal. destruct (connected k =? 0); by destruct k.
    + apply pool_list_free.
    + by rewrite !insert_insert_eq.
  - rewrite !(decide_False (P := byte_len w = 0)) by done. rewrite !(decide_True (P := byte_len w ≠ 0)) by done.
    rewrite (on_sock_eq m1 s k) by done. by eexists _, x1.
Qed.

Lemma prefetch_loop_spec s l : ∀ m k, socks m !! s = Some k → perf_ok m → NoDup (wr_id <$> l) →
  Forall (incoming (heap m)) l →
  ∃ m', for_each l (Socket.prefetch_one s) m = Ret (tt, m') ∧ socks m' = <[s := prefetched k l]> (socks m) ∧
    perf_ok m' ∧ rx_free m' = rev (fin_ids l) ++ rx_free m ∧
    (∀ c, c ∉ wr_id <$> l → heap m' !! c = heap m !! c) ∧
    (∀ w, w ∈ l → byte_len w ≠ 0 → ∃ x, heap m' !! wr_id w = Some x ∧ ck_qp x = 0 ∧ ck_offset x = 0 ∧
       ck_bound x = byte_len w) ∧ elsewhere m' = elsewhere m.
Proof.
  induction l as [|w l IH]; intros m k Hk Hp Hnd Hall.
  { exists m. rewrite prefetched_nil, insert_id by done. split_and!; try done. intros w Hw. by apply elem_of_nil in Hw. }
  apply Forall_cons in Hall as [Hw Hall]. cbn [fmap list_fmap] in Hnd. apply NoDup_cons in Hnd as [Hnw Hnd].
  destruct (prefetch_one_spec s k w m Hk Hp Hw) as (m1&x&E1&S1&P1&R1&H1&Q1&B1&O1).
  cbn [for_each]. unfold mbind, ST_bind. rewrite E1.
  destruct (IH m1 (prefetched k [w])) as (m2&E2&S2&P2&R2&H2&B2&O2); [by rewrite S1, lookup_insert_eq|done|done| |].
  { eapply Forall_impl; [|intros v Hv; exact Hv]. apply Forall_forall. intros v Hv.
    rewrite Forall_forall in Hall. destruct (Hall v Hv) as (?&?&y&Hy&?). split_and!; [done..|]. exists y.
    rewrite H1, lookup_insert_ne; [done|]. intros E. apply Hnw. rewrite E. by apply list_elem_of_fmap_2. }
  exists m2. split; [exact E2|]. rewrite S2, S1, insert_insert_eq, <-prefetched_cons. split_and!; try done.
  - rewrite R2, R1. unfold fin_ids. rewrite (filter_cons _ w l), (filter_cons _ w []), filter_nil. case_decide; simpl; [by rewrite <-app_assoc|done].
  - intros c Hc. apply not_elem_of_cons in Hc as [Hc1 Hc2]. rewrite H2, H1, lookup_insert_ne by done. done.
  - intros v Hv Hb. apply elem_of_cons in Hv as [->|Hv]; [|by apply B2].
    exists x. rewrite H2 by done. rewrite H1, lookup_insert_eq. by destruct (B1 Hb).
  - congruence.
Qed.

Lemma avail_app h l1 l2 : avail h (l1 ++ l2) = avail h l1 + avail h l2.
Proof. unfold avail. by rewrite fmap_app, Zsum_app. Qed.

Lemma avail_ext h h' l : (∀ c, c ∈ l → h' !! c = h !! c) → avail h' l = avail h l.
Proof.
  intros H. unfold avail. f_equal. apply list_fmap_ext. intros i c Hc. unfold chunk_size.
  rewrite H; [done|]. by eapply list_elem_of_lookup_2.
Qed.

Lemma data_ids_sub l c : c ∈ data_ids l → ∃ w, w ∈ l ∧ byte_len w ≠ 0 ∧ c = wr_id w.
Proof.
  unfold data_ids. intros (w&->&[Hb Hw]%list_elem_of_filter)%list_elem_of_fmap. eauto.
Qed.

Lemma data_ids_sublist l : data_ids l `sublist_of` (wr_id <$> l).
Proof. apply fmap_sublist, sublist_filter. Qed.

Lemma avail_data h l : Forall (λ w, is_u32 (byte_len w)) l →
  (∀ w, w ∈ l → byte_len w ≠ 0 → ∃ x, h !! wr_id w = Some x ∧ ck_offset x = 0 ∧ ck_bound x = byte_len w) →
  avail h (data_ids l) = Zsum (byte_len <$> l).
Proof.
  induction l as [|w l IH]; intros Hall Hx; [done|]. apply Forall_cons in Hall as [Hu Hall].
  unfold data_ids in *. rewrite filter_cons. csimpl.
  specialize (IH Hall (λ v Hv, Hx v ltac:(set_solver))). destruct (decide (byte_len w ≠ 0)) as [E|E].
  - csimpl. destruct (Hx w) as (x&Hl&Ho&Hb); [set_solver|done|]. unfold avail in *. csimpl. rewrite IH.
    unfold chunk_size at 1, Chunk_get_size. rewrite Hl, Ho, Hb, Z.sub_0_r, u32_small by done. done.
  - rewrite IH. lia.
Qed.

(** [read_buffers]: completions are taken in, then chunks are consumed. *)
Lemma read_buffers_spec s k buf len m : is_u32 len → socks m !! s = Some k → post_backlog k = 0 → perf_ok m →
  NoDup (buffers k ++ (wr_id <$> s_wc k)) → Forall (readable (heap m)) (buffers k) →
  Forall (incoming (heap m)) (s_wc k) →
  let k1 := prefetched (set_s_wc [] k) (s_wc k) in
  let total := avail (heap m) (buffers k) + Zsum (byte_len <$> s_wc k) in
  let n := Z.min len total in
  ∃ m' done rest, Socket.read_buffers cfg s buf len m = Ret (n, m') ∧
    socks m' = <[s := set_buffers rest k1]> (socks m) ∧
    buffers k ++ data_ids (s_wc k) = done ++ rest ∧
    rx_free m' = rev done ++ rev (fin_ids (s_wc k)) ++ rx_free m ∧
    avail (heap m') rest = total - n ∧ world m' = world m ∧ qps m' = qps m.
Proof.
  intros Hlen Hk Hb Hp Hnd Hrd Hin k1 total n. unfold Socket.read_buffers, Socket.buffer_prefetch, Socket.get_wc, mbind, ST_bind.
  rewrite (get_sock_eq _ _ _ Hk). unfold put_sock, modify. set (m0 := set_socks _ m).
  pose proof Hnd as (_&Hdis&Hnd2)%NoDup_app.
  destruct (prefetch_loop_spec s (s_wc k) m0 (set_s_wc [] k)) as (m1&E1&S1&P1&R1&H1&B1&O1);
    [apply lookup_insert_eq|done|done|done|].
  unfold mret, ST_ret. rewrite E1. fold k1 in S1. injection O1 as Hw1 Hq1 _.
  assert (socks m1 !! s = Some k1) as Hk1 by (rewrite S1; apply lookup_insert_eq). rewrite (get_sock_eq _ _ _ Hk1).
  assert (buffers k1 = buffers k ++ data_ids (s_wc k)) as Hbuf by (unfold k1, prefetched; by case_match).
  assert (post_backlog k1 = 0) as Hb1 by (unfold k1, prefetched; by case_match).
  assert (Forall (λ w, is_u32 (byte_len w)) (s_wc k)) as Hu by (eapply Forall_impl; [exact Hin|]; by intros w (_&?&_)).
  assert (∀ c, c ∈ buffers k → heap m1 !! c = heap m !! c) as Hold by (intros c Hc; apply H1, Hdis, Hc).
  assert (avail (heap m1) (buffers k1) = total) as Htot.
  { rewrite Hbuf, avail_app, (avail_ext _ _ _ Hold). unfold total. f_equal. apply avail_data; [done|].
    intros w Hw Hz. destruct (B1 w Hw Hz) as (x&?&_&?&?). eauto. }
  destruct (read_loop_spec s k1 buf len Hlen (S (length (buffers k1))) (buffers k1) m1 0)
    as (m2&dn&rest&E2&(Hsplit&R2&_&S2&W2&_&Q2&_)&Hav); [lia| | |done|done|unfold is_u32 in Hlen; lia|].
  { rewrite Hbuf. apply (sublist_NoDup _ (buffers k ++ (wr_id <$> s_wc k))); [done|].
    apply sublist_app; [done|apply data_ids_sublist]. }
  { rewrite Hbuf. apply Forall_app. split.
    - apply Forall_forall. intros c Hc. rewrite Forall_forall in Hrd. destruct (Hrd c Hc) as (x&Hx&?).
      exists x. by rewrite Hold.
    - apply Forall_forall. intros c (w&Hw&Hz&->)%data_ids_sub. destruct (B1 w Hw Hz) as (x&Hx&Hqx&Ho&Hbd).
      exists x. rewrite Ho, Hbd. rewrite Forall_forall in Hu. specialize (Hu w Hw). unfold is_u32 in Hu.
      split_and!; try done; lia. }
  rewrite Z.add_0_l, Htot in E2, Hav. rewrite E2. rewrite (on_sock_eq _ s k1) by (by rewrite S2).
  eexists _, dn, rest. split; [done|]. simpl. rewrite S2, S1. split_and!.
  - unfold m0. simpl. by rewrite !insert_insert_eq.
  - by rewrite <-Hbuf.
  - unfold rx_free in *. simpl. by rewrite R2, R1.
  - done.
  - by rewrite W2.
  - by rewrite Q2.
Qed.
End read_facts.

(** A world in which writing to an eventfd succeeds *)
Class NotifyOk (W : Type) `{World W} :=
  notify_ok' : ∀ w fd, ∃ out w', sys_call (c_eventfd_write fd 1) w = (0, out, w').

(** C13: [read] on an established socket: it first takes in the completions
    the dispatcher handed over, an empty one (the peer's fin) marking the
    connection as reset; it reports as many bytes as asked for or as have
    arrived; the chunks it has consumed, and those of the fins, go back to the
    pool, each once, the others stay in order; what is left is what arrived
    less what was reported; and only when nothing was read it reports the
    error, or EAGAIN. *)
Theorem read_spec {W P} `{!World W, !BoostPool P, !PoolLaws P, !NotifyOk W} (cfg : config) (m : mach W P) s k buf len :
  is_u32 len → socks m !! s = Some k → active k = true → connected k ≠ 0 → post_backlog k = 0 → perf_ok m →
  NoDup (buffers k ++ (wr_id <$> s_wc k)) → Forall (readable (heap m)) (buffers k) →
  Forall (incoming (heap m)) (s_wc k) →
  let total := avail (heap m) (buffers k) + Zsum (byte_len <$> s_wc k) in
  let n := Z.min len total in
  let err := if bool_decide (fin_ids (s_wc k) = []) then s_error k else ECONNRESET in
  ∃ m' k' done, Socket.read cfg s buf len m =
      Ret (if n =? 0 then if err =? 0 then - EAGAIN else - err else n, m') ∧
    socks m' !! s = Some k' ∧ s_error k' = err ∧ s_wc k' = [] ∧
    buffers k ++ data_ids (s_wc k) = done ++ buffers k' ∧
    rx_free m' = rev done ++ rev (fin_ids (s_wc k)) ++ rx_free m ∧
    avail (heap m') (buffers k') = total - n.
Proof.
  intros Hlen Hk Ha Hc Hb Hp Hnd Hrd Hin total n err.
  destruct (read_buffers_spec cfg s k buf len m Hlen Hk Hb Hp Hnd Hrd Hin) as (m1&dn&rest&E1&S1&Hsp&R1&Av1&_).
  unfold Socket.read. unfold mbind at 1, ST_bind at 1. rewrite (get_sock_eq _ _ _ Hk), Ha. cbn [negb].
  destruct (Z.eqb_spec (connected k) 0); [done|]. cbn [andb].
  unfold mbind, ST_bind. rewrite E1. set (k1 := set_buffers rest _) in S1.
  assert (socks m1 !! s = Some k1) as Hk1 by (rewrite S1; apply lookup_insert_eq). rewrite (get_sock_eq _ _ _ Hk1).
  assert (connected k1 = connected k ∧ s_error k1 = err ∧ s_wc k1 = [] ∧ buffers k1 = rest) as (Hc1&He1&Hw1&Hb1).
  { unfold k1, prefetched, err. cbn [set_s_wc connected]. destruct (Z.eqb_spec (connected k) 0); [done|].
    rewrite orb_false_r. by destruct (bool_decide _). }
  rewrite Hc1. destruct (Z.eqb_spec (connected k) 0); [done|]. rewrite andb_false_r. unfold mret, ST_ret.
  rewrite (get_sock_eq _ _ _ Hk1).
  assert (∃ w', (if bool_decide (buffers k1 = []) then mret tt else Socket.notify s : M W P unit) m1 =
    Ret (tt, set_world w' m1)) as (w'&Hnot).
  { destruct (bool_decide (buffers k1 = [])); [exists (world m1); by rewrite set_world_id|].
    destruct (notify_ok' (world m1) (notify_fd k1)) as (o&w'&Hs). exists w'.
    unfold Socket.notify, mbind, ST_bind. rewrite (get_sock_eq _ _ _ Hk1). by rewrite (sysret_eq _ _ _ _ _ Hs). }
  unfold mret, ST_ret in Hnot. rewrite Hnot.
  rewrite (get_sock_eq _ s k1) by done. rewrite He1. fold total n.
  exists (set_world w' m1), k1, dn. rewrite Hb1. split; [|by split_and!].
  destruct (n =? 0); [|done]. cbn [andb]. by destruct (err =? 0).
Qed.

(** A socket with one half-read chunk and two completions, the second a fin *)
Definition demo_read : mach unit list_pool :=
  mkMach tt {[ 5000 := mkChunk 7 0 77 128 3 10 5040 0 0; 6000 := Chunk_new 7 128 6040 0 0 77;
               7000 := Chunk_new 7 128 7040 0 0 77 ]} ∅ ∅ 0
    (mkMM None 3 false false (mkPool [] 184 4)) demo_ib {[ 100 := demo_qp ]} ∅ ∅ disp0
    (logger_of RDMADispatcher_logger)
    {[ 900 := mkSocket 100 false 0 17 1 0 1 [5000] 7 BufferList.empty
                [mkWC 6000 0 128 20 17; mkWC 7000 0 128 0 17] false 5 6 8 true false 0 ]} ∅.

#[global] Instance unit_notify : NotifyOk unit.
Proof. intros w fd. by exists [], w. Qed.

Lemma read_spec_witness : ∃ m', Socket.read config0 900 0 9 demo_read = Ret (9, m').
Proof.
  destruct (read_spec config0 demo_read 900 _ 0 9 ltac:(by vm_compute) eq_refl) as (m'&k'&dn&H&_);
    [reflexivity|done|reflexivity| | | | |].
  - destruct RDMADispatcher_logger_ok as (p&Hp&Hok). unfold perf_ok.
    change (perf demo_read) with (logger_of RDMADispatcher_logger). by rewrite Hp.
  - refine (bool_decide_unpack _ _). by vm_compute.
  - constructor; [|constructor]. eexists. split; [reflexivity|]. vm_compute. done.
  - repeat constructor; try done; by eexists.
  - exists m'. exact H.
Defined.
