(* ===== verification/Handshake.v ===== *)
(** * The connection handshake between two sockets

    The two ends of a connection run [handle_connection_established] and
    [handle_connection] (src/core/RDMAConnectedSocketImpl.cc) over a TCP
    connection that delivers messages whole and in order, each on an adapter
    that follows the documented queue pair state machine. *)

From S2P Require Import Prelude State Addr Buffers PerfCounters Machine Memory Wire QueuePair Net Infiniband Dispatcher Socket.

(** One end: an adapter, and a TCP socket with the messages that have arrived
    and those that were sent. *)
Class Endpoint (W : Type) `{!World W, !Adapter W} := {
  inbox : W → list (list Z);
  outbox : W → list (list Z);
  deliver : list Z → W → W;
  deliver_inbox msg w : inbox (deliver msg w) = inbox w ++ [msg];
  deliver_outbox msg w : outbox (deliver msg w) = outbox w;
  deliver_state msg w q : hca_state (deliver msg w) q = hca_state w q;
  ep_write fd msg w : ∃ o w', sys_call (c_write fd msg) w = (Z.of_nat (length msg), o, w') ∧
    inbox w' = inbox w ∧ outbox w' = outbox w ++ [msg] ∧ ∀ q, hca_state w' q = hca_state w q;
  ep_read fd msg rest w : inbox w = msg :: rest →
    ∃ w', sys_call (c_read fd (Z.of_nat (length msg))) w = (Z.of_nat (length msg), msg, w') ∧
      inbox w' = rest ∧ outbox w' = outbox w ∧ ∀ q, hca_state w' q = hca_state w q;
  ep_modify q attr mask w r o w' : sys_call (ibv_modify_qp q attr mask) w = (r, o, w') →
    inbox w' = inbox w ∧ outbox w' = outbox w;
  ep_notify fd w : ∃ o w', sys_call (c_eventfd_write fd 1) w = (0, o, w') ∧
    inbox w' = inbox w ∧ outbox w' = outbox w ∧ ∀ q, hca_state w' q = hca_state w q;
  ep_center c w r o w' : sys_call c w = (r, o, w') →
    match c with
    | center_create_file_event _ _ _ _ | center_delete_file_event _ _ _ =>
      inbox w' = inbox w ∧ outbox w' = outbox w ∧ ∀ q, hca_state w' q = hca_state w q
    | _ => True
    end;
}.

Section handshake.
Context {W P : Type} `{!World W, !Adapter W, !Endpoint W, !BoostPool P} (cfg : config).
Implicit Types m : mach W P.

(** The message that carries a queue pair's local meta data *)
Definition cm_text (k : queue_pair) (junk : list Z) : list Z :=
  msg_buffer (print_cm (QueuePair.cm_of cfg k)) junk.

Definition aim (p : Z) (k : queue_pair) : queue_pair :=
  set_local_cm_meta (set_cm_peer_qpn p (local_cm_meta k)) k.

Lemma wf_aim k p : wf_msg (QueuePair.cm_of cfg k) → is_u32 p → wf_msg (QueuePair.cm_of cfg (aim p k)).
Proof. unfold wf_msg, QueuePair.cm_of. simpl. tauto. Qed.

(** The array has as many bytes as a message. *)
Lemma cm_text_length k junk : length junk = 93%nat → wf_msg (QueuePair.cm_of cfg k) →
  Z.of_nat (length (cm_text k junk)) = TCP_MSG_LEN.
Proof.
  intros Hj Hwf. destruct (print_cm_parses _ junk Hwf) as [Hlen _]. unfold cm_text, msg_buffer.
  rewrite length_take, length_app. change (length (0 :: junk)) with (S (length junk)).
  change TCP_MSG_LEN with 93. change (Z.to_nat 93) with 93%nat. lia.
Qed.

Lemma send_ok m q k fd junk : qps m !! q = Some k → length junk = 93%nat → wf_msg (QueuePair.cm_of cfg k) →
  ∃ w', QueuePair.send_cm_meta cfg q fd junk m = Ret (0, set_world w' m) ∧
    inbox w' = inbox (world m) ∧ outbox w' = outbox (world m) ++ [cm_text k junk] ∧
    ∀ h, hca_state w' h = hca_state (world m) h.
Proof.
  intros Hk Hj Hwf. destruct (ep_write fd (cm_text k junk) (world m)) as (o&w'&Hs&Hi&Ho&Hq).
  rewrite (cm_text_length k junk Hj Hwf) in Hs. exists w'. split; [|done].
  destruct (print_cm_parses (QueuePair.cm_of cfg k) junk Hwf) as [Hlen _].
  unfold QueuePair.send_cm_meta, mbind, ST_bind. rewrite (get_qp_eq _ _ _ Hk).
  destruct (Nat.ltb_spec (length (print_cm (QueuePair.cm_of cfg k))) (Z.to_nat TCP_MSG_LEN)) as [_|E];
    [|change (Z.to_nat TCP_MSG_LEN) with 93%nat in E; lia].
  cbn [QueuePair.send_cm_loop]. unfold mbind, ST_bind. fold (cm_text k junk).
  by rewrite (sysret_eq _ _ _ _ _ Hs).
Qed.

Lemma recv_ok m q kq peer fd junk rest : qps m !! q = Some kq → length junk = 93%nat →
  wf_msg (QueuePair.cm_of cfg peer) → inbox (world m) = cm_text peer junk :: rest →
  ∃ w', QueuePair.recv_cm_meta q fd m = Ret (TCP_MSG_LEN,
      set_qps (<[q := set_peer_cm_meta (local_cm_meta peer) kq]> (qps m)) (set_world w' m)) ∧
    inbox w' = rest ∧ outbox w' = outbox (world m) ∧ ∀ h, hca_state w' h = hca_state (world m) h.
Proof.
  intros Hq Hj Hwf Hin. destruct (ep_read fd _ _ _ Hin) as (w'&Hs&Hi&Ho&Hst).
  rewrite (cm_text_length peer junk Hj Hwf) in Hs. exists w'. split; [|done].
  destruct (print_cm_parses (QueuePair.cm_of cfg peer) junk Hwf) as [_ Hparse].
  unfold QueuePair.recv_cm_meta, mbind, ST_bind, sys. rewrite Hs. cbn [fst snd].
  change (TCP_MSG_LEN <? 0) with false. change (TCP_MSG_LEN =? 0) with false.
  rewrite Z.eqb_refl. cbn [negb]. unfold cm_text. rewrite Hparse. cbn [lift].
  rewrite (on_qp_eq _ q kq) by done. unfold QueuePair.cm_of. simpl. by destruct (local_cm_meta peer).
Qed.

End handshake.

Section roles.
Context {W P : Type} `{!World W, !Adapter W, !Endpoint W, !BoostPool P} (cfg cfg' : config).
Implicit Types m : mach W P.

Lemma notify_ok m s k : socks m !! s = Some k →
  ∃ w', Socket.notify s m = Ret (tt, set_world w' m) ∧ inbox w' = inbox (world m) ∧
    outbox w' = outbox (world m) ∧ ∀ h, hca_state w' h = hca_state (world m) h.
Proof.
  intros Hk. destruct (ep_notify (notify_fd k) (world m)) as (o&w'&Hs&?&?&?). exists w'. split; [|done].
  unfold Socket.notify, mbind, ST_bind. rewrite (get_sock_eq _ _ _ Hk).
  by rewrite (sysret_eq _ _ _ _ _ Hs).
Qed.

(** With nothing pending, [submit] has nothing to do. *)
Lemma submit_idle m s k : socks m !! s = Some k → s_error k = 0 → BufferList.get_len (pending_bl k) = 0 →
  Socket.submit s m = Ret (0, m).
Proof.
  intros Hk He Hb. unfold Socket.submit, mbind, ST_bind. rewrite (get_sock_eq _ _ _ Hk), He. cbn [Z.eqb negb].
  by rewrite Hb.
Qed.

(** The part of the state one end of the handshake depends on *)
Record ready (m : mach W P) (s : Z) (k : socket) (kq : queue_pair) : Prop := {
  rd_sock : socks m !! s = Some k;
  rd_qp : qps m !! s_qp k = Some kq;
  rd_err : s_error k = 0;
  rd_bl : BufferList.get_len (pending_bl k) = 0;
  rd_dev : ∃ dev prt, ib_device (ib m) = Some dev ∧ active_port dev = Some prt;
  rd_wf : wf_msg (QueuePair.cm_of cfg kq);
}.

Lemma modify_io q attr mask m : wlp (sysret (ibv_modify_qp q attr mask))
  (λ _ m', inbox (world m') = inbox (world m) ∧ outbox (world m') = outbox (world m)) m.
Proof. unfold sysret. do 2 wlp_step. wlp_step. simpl. by eapply ep_modify. Qed.

Lemma rtr_io q m : wlp (QueuePair.modify_qp_to_rtr cfg q)
  (λ _ m', inbox (world m') = inbox (world m) ∧ outbox (world m') = outbox (world m)) m.
Proof.
  unfold QueuePair.modify_qp_to_rtr, QueuePair.device_gid_idx, get_qp.
  repeat first [wlp_step | progress cbn beta iota].
  eapply wlp_mono; [apply modify_io|]. intros r m' H'. case_match; by wlp_step.
Qed.

Lemma rts_io q m : wlp (QueuePair.modify_qp_to_rts q)
  (λ _ m', inbox (world m') = inbox (world m) ∧ outbox (world m') = outbox (world m)) m.
Proof.
  unfold QueuePair.modify_qp_to_rts, get_qp. repeat first [wlp_step | progress cbn beta iota].
  eapply wlp_mono; [apply modify_io|]. intros r m' H'. case_match; by wlp_step.
Qed.

Definition activated (k : socket) (p : Z) : socket :=
  set_peer_qpn p (set_active true (if is_server k then k else set_connected 1 k)).

Lemma activate_ok m s k kq : ready m s k kq → hca_state (world m) (qp_qp kq) = IBV_QPS_INIT →
  let p := cm_local_qpn (peer_cm_meta kq) in
  ∃ w', Socket.activate cfg s m = Ret (0,
      set_socks (<[s := activated k p]> (socks m)) (set_qps (<[s_qp k := aim p kq]> (qps m)) (set_world w' m))) ∧
    inbox w' = inbox (world m) ∧ outbox w' = outbox (world m) ∧ hca_state w' (qp_qp kq) = IBV_QPS_RTS.
Proof.
  intros [Hs Hq He Hb (dev&prt&Hdev&Hprt) Hwf] Hst p.
  unfold Socket.activate, mbind, ST_bind. rewrite (get_sock_eq _ _ _ Hs), (on_qp_eq _ _ _ _ Hq).
  change (set_local_cm_meta _ kq) with (aim p kq).
  set (m1 := set_qps (<[s_qp k := aim p kq]> (qps m)) m).
  assert (qps m1 !! s_qp k = Some (aim p kq)) as Hq1 by apply lookup_insert_eq.
  destruct (to_rtr_ok cfg m1 (s_qp k) (aim p kq) dev prt Hq1 Hdev Hprt Hst) as (w2&E2&S2).
  destruct (wlp_elim _ _ _ _ _ (rtr_io (s_qp k) m1) E2) as [I2 O2]. rewrite E2. cbn [Z.eqb negb].
  destruct (to_rts_ok (set_world w2 m1) (s_qp k) (aim p kq) Hq1 S2) as (w3&E3&S3).
  destruct (wlp_elim _ _ _ _ _ (rts_io (s_qp k) _) E3) as [I3 O3]. rewrite E3. cbn [Z.eqb negb].
  exists w3. simpl in I2, O2, I3, O3. split; [|split_and!; [congruence|congruence|exact S3]].
  unfold mret, ST_ret. set (m3 := set_world w3 (set_world w2 m1)).
  assert (get_qp (s_qp k) m3 = Ret (aim p kq, m3)) as Hg by by apply get_qp_eq.
  unfold activated. destruct (is_server k).
  - rewrite Hg, (on_sock_eq m3 s k) by done. done.
  - rewrite (on_sock_eq m3 s k) by done.
    set (m4 := set_socks _ m3). rewrite (submit_idle m4 s (set_connected 1 k)); [|apply lookup_insert_eq|done|done].
    rewrite (get_qp_eq m4 _ (aim p kq)) by done.
    rewrite (on_sock_eq m4 s (set_connected 1 k)) by apply lookup_insert_eq. unfold m4. simpl.
    by rewrite insert_insert_eq.
Qed.

Lemma sys_center_ok m c : (∃ w fd mask h, c = center_create_file_event w fd mask h) ∨
    (∃ w fd mask, c = center_delete_file_event w fd mask) →
  ∃ r w', sysret c m = Ret (r, set_world w' m) ∧ inbox w' = inbox (world m) ∧
    outbox w' = outbox (world m) ∧ ∀ h, hca_state w' h = hca_state (world m) h.
Proof.
  intros Hc. destruct (sys_call c (world m)) as [[r o] w'] eqn:Hs. exists r, w'.
  split; [by eapply sysret_eq|]. pose proof (ep_center _ _ _ _ _ Hs) as H'.
  by destruct Hc as [(?&?&?&?&->)|(?&?&?&->)].
Qed.

(** The connecting end announces itself; its message names no peer. *)
Lemma established_ok m s k kq f junk : ready m s k kq → connected k = 0 → length junk = 93%nat →
  ∃ w', Socket.handle_connection_established cfg s f junk m =
      Ret (0, set_qps (<[s_qp k := aim 0 kq]> (qps m)) (set_world w' m)) ∧
    inbox w' = inbox (world m) ∧ outbox w' = outbox (world m) ++ [cm_text cfg (aim 0 kq) junk] ∧
    hca_state w' (qp_qp kq) = hca_state (world m) (qp_qp kq).
Proof.
  intros [Hs Hq He Hb Hd Hwf] Hc Hj. unfold Socket.handle_connection_established, mbind, ST_bind.
  rewrite (get_sock_eq _ _ _ Hs).
  destruct (sys_center_ok m (center_delete_file_event (s_worker k) (tcp_fd k) (Z.lor EVENT_READABLE EVENT_WRITABLE)))
    as (r1&w1&->&I1&O1&S1); [right; eauto|]. rewrite Hc. cbn [Z.eqb].
  rewrite (on_qp_eq _ _ kq) by done. change (set_local_cm_meta _ kq) with (aim 0 kq).
  set (m2 := set_qps _ (set_world w1 m)).
  destruct (send_ok cfg m2 (s_qp k) (aim 0 kq) (tcp_fd k) junk) as (w3&->&I3&O3&S3);
    [apply lookup_insert_eq|done|by apply wf_aim|]. cbn [Z.ltb Z.compare].
  destruct (sys_center_ok (set_world w3 m2) (center_create_file_event (s_worker k) (tcp_fd k) EVENT_READABLE (read_handler k)))
    as (r4&w4&->&I4&O4&S4); [left; eauto 10|].
  exists w4. simpl in *. split; [done|]. rewrite I4, O4, S4, I3, O3, S3. simpl. by rewrite I1, O1, S1.
Qed.

(** What both roles do on the first message they receive *)
Definition learn (peer kq : queue_pair) : queue_pair := set_peer_cm_meta (local_cm_meta peer) kq.

Lemma ready_learn m s k kq w peer : ready m s k kq →
  ready (set_qps (<[s_qp k := learn peer kq]> (qps m)) (set_world w m)) s k (learn peer kq).
Proof. intros [Hs Hq He Hb Hd Hwf]. split; try done. apply lookup_insert_eq. Qed.

Lemma first_message_ok m s k kq peer junkp junk : ready m s k kq → connected k = 0 → active k = false →
  length junk = 93%nat → length junkp = 93%nat → wf_msg (QueuePair.cm_of cfg' peer) →
  inbox (world m) = [cm_text cfg' peer junkp] → hca_state (world m) (qp_qp kq) = IBV_QPS_INIT →
  (is_server k = true → cm_peer_qpn (local_cm_meta peer) = 0) →
  let p := cm_local_qpn (local_cm_meta peer) in
  ∃ w', Socket.handle_connection cfg s junk m = Ret (tt,
      set_socks (<[s := activated k p]> (socks m))
        (set_qps (<[s_qp k := aim p (learn peer kq)]> (qps m)) (set_world w' m))) ∧
    inbox w' = [] ∧ outbox w' = outbox (world m) ++ [cm_text cfg (aim p (learn peer kq)) junk] ∧
    hca_state w' (qp_qp kq) = IBV_QPS_RTS.
Proof.
  intros Hr Hc Ha Hj Hjp Hwf Hin Hst Hsrv p. pose proof Hr as [Hs Hq He Hb Hd Hwfq].
  unfold Socket.handle_connection, mbind at 1, ST_bind at 1. rewrite (get_sock_eq _ _ _ Hs).
  destruct (recv_ok cfg' m (s_qp k) kq peer (tcp_fd k) junkp [] Hq Hjp Hwf Hin) as (w1&E1&I1&O1&S1).
  unfold mbind at 1, ST_bind at 1. rewrite E1. change (TCP_MSG_LEN <=? 0) with false. cbn iota. rewrite Hc. cbn [Z.eqb].
  change (set_peer_cm_meta _ kq) with (learn peer kq). set (m1 := set_qps _ (set_world w1 m)).
  destruct (activate_ok m1 s k (learn peer kq) (ready_learn m s k kq w1 peer Hr)) as (w2&E2&I2&O2&S2);
    [by simpl; rewrite S1|]. change (cm_local_qpn (peer_cm_meta (learn peer kq))) with p in E2.
  set (m2 := set_socks _ _) in E2.
  assert (wf_msg (QueuePair.cm_of cfg (aim p (learn peer kq)))) as Hwf2.
  { apply wf_aim; [exact Hwfq|]. unfold wf_msg, QueuePair.cm_of in Hwf. simpl in Hwf. tauto. }
  assert (qps m2 !! s_qp k = Some (aim p (learn peer kq))) as Hq2 by apply lookup_insert_eq.
  assert (∀ w', set_world w' m2 = set_socks (<[s := activated k p]> (socks m))
     (set_qps (<[s_qp k := aim p (learn peer kq)]> (qps m)) (set_world w' m))) as Heq.
  { intros w'. unfold m2, m1, set_world, set_qps, set_socks. simpl. by rewrite insert_insert_eq. }
  destruct (is_server k) eqn:Hserver; cbn [negb].
  - unfold mbind at 1, ST_bind at 1. rewrite (get_qp_eq m1 _ (learn peer kq)) by apply lookup_insert_eq.
    cbn [learn peer_cm_meta set_peer_cm_meta]. rewrite Hsrv by done. cbn [Z.eqb]. rewrite Ha.
    unfold mbind, ST_bind. rewrite E2. cbn [Z.eqb assert]. unfold mret, ST_ret.
    destruct (send_ok cfg m2 (s_qp k) _ (tcp_fd k) junk Hq2 Hj Hwf2) as (w3&->&I3&O3&S3). cbn [Z.ltb Z.compare].
    exists w3. simpl in *. rewrite Heq, I3, O3, S3. split; [done|]. rewrite I2, O2, S2. simpl. by rewrite I1, O1.
  - unfold mbind, ST_bind. rewrite E2. cbn [Z.eqb assert]. unfold mret, ST_ret.
    destruct (notify_ok m2 s (activated k p)) as (w3&->&I3&O3&S3); [apply lookup_insert_eq|].
    destruct (send_ok cfg (set_world w3 m2) (s_qp k) _ (tcp_fd k) junk Hq2 Hj Hwf2) as (w4&->&I4&O4&S4).
    cbn [Z.ltb Z.compare]. exists w4. change (set_world w4 (set_world w3 m2)) with (set_world w4 m2).
    simpl in *. rewrite Heq, I4, O4, S4, I3, O3, S3. split; [done|]. rewrite I2, O2, S2. simpl. by rewrite I1, O1.
Qed.

(** The accepting end learns that its own message arrived. *)
Lemma second_message_ok m s k kq peer junkp junk : ready m s k kq → connected k = 0 → is_server k = true →
  length junkp = 93%nat → wf_msg (QueuePair.cm_of cfg' peer) →
  inbox (world m) = [cm_text cfg' peer junkp] → cm_peer_qpn (local_cm_meta peer) ≠ 0 →
  ∃ w', Socket.handle_connection cfg s junk m = Ret (tt,
      set_socks (<[s := set_connected 1 k]> (socks m))
        (set_qps (<[s_qp k := learn peer kq]> (qps m)) (set_world w' m))) ∧
    inbox w' = [] ∧ outbox w' = outbox (world m) ∧ ∀ h, hca_state w' h = hca_state (world m) h.
Proof.
  intros Hr Hc Hsrv Hjp Hwf Hin Hp. pose proof Hr as [Hs Hq He Hb Hd Hwfq].
  unfold Socket.handle_connection, mbind at 1, ST_bind at 1. rewrite (get_sock_eq _ _ _ Hs).
  destruct (recv_ok cfg' m (s_qp k) kq peer (tcp_fd k) junkp [] Hq Hjp Hwf Hin) as (w1&E1&I1&O1&S1).
  unfold mbind at 1, ST_bind at 1. rewrite E1. change (TCP_MSG_LEN <=? 0) with false. cbn iota.
  rewrite Hc, Hsrv. cbn [Z.eqb negb]. change (set_peer_cm_meta _ kq) with (learn peer kq).
  set (m1 := set_qps _ (set_world w1 m)). unfold mbind, ST_bind.
  rewrite (get_qp_eq m1 _ (learn peer kq)) by apply lookup_insert_eq. cbn [learn peer_cm_meta set_peer_cm_meta].
  destruct (Z.eqb_spec (cm_peer_qpn (local_cm_meta peer)) 0); [done|].
  rewrite (on_sock_eq m1 s k) by done. set (m2 := set_socks _ m1).
  rewrite (submit_idle m2 s (set_connected 1 k)) by (try apply lookup_insert_eq; done).
  destruct (notify_ok m2 s (set_connected 1 k)) as (w3&->&I3&O3&S3); [apply lookup_insert_eq|].
  exists w3. simpl in *. split; [done|]. rewrite I3, O3. split_and!; [done..|]. intros h. by rewrite S3, S1.
Qed.
End roles.

(** ** Both ends *)

Definition arrive {W P} `{!World W, !Adapter W, !Endpoint W} (msg : list Z) (m : mach W P) : mach W P :=
  set_world (deliver msg (world m)) m.

(** The last message an end has sent *)
Definition sent {W P} `{!World W, !Adapter W, !Endpoint W} (m : mach W P) : list Z :=
  default [] (last (outbox (world m))).

(** An end whose handshake is over: both flags are set without an error, the
    socket and the queue pair name the peer's queue pair, the meta data is the
    peer's, and the queue pair is ready to send. *)
Definition established {W P} `{!World W, !Adapter W} (m : mach W P) (s : Z) (peer : queue_pair) : Prop :=
  ∃ k q, socks m !! s = Some k ∧ qps m !! s_qp k = Some q ∧
    connected k = 1 ∧ active k = true ∧ s_error k = 0 ∧
    peer_qpn k = cm_local_qpn (local_cm_meta peer) ∧
    cm_peer_qpn (local_cm_meta q) = cm_local_qpn (local_cm_meta peer) ∧
    cm_local_qpn (peer_cm_meta q) = cm_local_qpn (local_cm_meta peer) ∧
    cm_lid (peer_cm_meta q) = cm_lid (local_cm_meta peer) ∧
    cm_psn (peer_cm_meta q) = cm_psn (local_cm_meta peer) ∧
    cm_gid (peer_cm_meta q) = cm_gid (local_cm_meta peer) ∧
    hca_state (world m) (qp_qp q) = IBV_QPS_RTS.

(** C1: the three-message handshake completes. From a connecting and an
    accepting socket whose queue pairs are in INIT, delivering each end's
    message to the other takes the client through
    [handle_connection_established] and [handle_connection] and the server
    through two calls of [handle_connection]; no call crashes or faults, and
    afterwards both ends are connected and active, hold the other's meta data,
    and both queue pairs are ready to send to each other. *)
Theorem handshake_completes {W P W' P'} `{!World W, !Adapter W, !Endpoint W, !BoostPool P}
    `{!World W', !Adapter W', !Endpoint W', !BoostPool P'} (cfg cfg' : config)
    (c : mach W P) (s : mach W' P') sc kc qc ss ks qs j1 j2 j3 j4 :
  ready cfg c sc kc qc → ready cfg' s ss ks qs →
  connected kc = 0 → active kc = false → is_server kc = false →
  connected ks = 0 → active ks = false → is_server ks = true →
  inbox (world c) = [] → inbox (world s) = [] → cm_local_qpn (local_cm_meta qs) ≠ 0 →
  hca_state (world c) (qp_qp qc) = IBV_QPS_INIT → hca_state (world s) (qp_qp qs) = IBV_QPS_INIT →
  length j1 = 93%nat → length j2 = 93%nat → length j3 = 93%nat → length j4 = 93%nat →
  ∃ c1 s1 c2 s2,
    Socket.handle_connection_established cfg sc true j1 c = Ret (0, c1) ∧
    Socket.handle_connection cfg' ss j2 (arrive (sent c1) s) = Ret (tt, s1) ∧
    Socket.handle_connection cfg sc j3 (arrive (sent s1) c1) = Ret (tt, c2) ∧
    Socket.handle_connection cfg' ss j4 (arrive (sent c2) s1) = Ret (tt, s2) ∧
    established c2 sc qs ∧ established s2 ss qc.
Proof.
  intros Rc Rs Hcc Hca Hci Hsc Hsa Hsi Hic His Hqn Hst Hst' J1 J2 J3 J4.
  destruct (established_ok cfg c sc kc qc true j1 Rc Hcc J1) as (w1&E1&I1&O1&S1).
  set (c1 := set_qps _ _) in E1.
  assert (sent c1 = cm_text cfg (aim 0 qc) j1) as M1 by (unfold sent; simpl; by rewrite O1, last_snoc).
  pose proof Rc as [Hs Hq He Hb Hd Hwf]. pose proof Rs as [Hs' Hq' He' Hb' Hd' Hwf'].
  destruct (first_message_ok cfg' cfg (arrive (sent c1) s) ss ks qs (aim 0 qc) j1 j2) as (w2&E2&I2&O2&S2);
    [by split|done|done|done|done|by apply wf_aim| | |done|].
  { simpl. by rewrite deliver_inbox, His, M1. } { simpl. by rewrite deliver_state. }
  simpl in E2. set (p := cm_local_qpn (local_cm_meta qc)) in *. set (s1 := set_socks _ _) in E2.
  set (qs1 := aim p (learn (aim 0 qc) qs)) in *.
  assert (sent s1 = cm_text cfg' qs1 j2) as M2 by (unfold sent; simpl; by rewrite O2, last_snoc).
  assert (wf_msg (QueuePair.cm_of cfg' qs1)) as Wf2.
  { apply wf_aim; [exact Hwf'|]. unfold wf_msg, QueuePair.cm_of in Hwf. simpl in Hwf. tauto. }
  destruct (first_message_ok cfg cfg' (arrive (sent s1) c1) sc kc (aim 0 qc) qs1 j2 j3) as (w3&E3&I3&O3&S3);
    [ |done|done|done|done|done| | |by rewrite Hci|].
  { split; try done; [apply lookup_insert_eq|by apply wf_aim]. }
  { simpl. by rewrite deliver_inbox, I1, Hic, M2. } { simpl. rewrite deliver_state. by rewrite S1. }
  simpl in E3. set (p' := cm_local_qpn (local_cm_meta qs)) in *. set (c2 := set_socks _ _) in E3.
  set (qc2 := aim p' (learn qs1 (aim 0 qc))) in *.
  assert (sent c2 = cm_text cfg qc2 j3) as M3 by (unfold sent; simpl; by rewrite O3, last_snoc).
  destruct (second_message_ok cfg' cfg (arrive (sent c2) s1) ss (activated ks p) qs1 qc2 j3 j4)
    as (w4&E4&I4&O4&S4).
  { unfold activated. rewrite Hsi. split; try done; [|apply lookup_insert_eq].
    simpl. unfold activated. rewrite Hsi. apply lookup_insert_eq. }
  { unfold activated. by rewrite Hsi. } { unfold activated. by rewrite Hsi. } { done. }
  { apply wf_aim; [by apply wf_aim|]. unfold wf_msg, QueuePair.cm_of in Hwf'. simpl in Hwf'. tauto. }
  { simpl. by rewrite deliver_inbox, I2, M3. } { exact Hqn. }
  eexists c1, s1, c2, _. split_and!; [exact E1|exact E2|exact E3|exact E4| |].
  - exists (activated kc p'), qc2. unfold activated. rewrite Hci. simpl.
    split_and!; try done; [unfold c2|]; simpl; unfold activated; rewrite ?Hci; apply lookup_insert_eq.
  - exists (set_connected 1 (activated ks p)), (learn qc2 qs1). unfold activated. rewrite Hsi. simpl.
    split_and!; try done; [apply lookup_insert_eq|apply lookup_insert_eq|].
    rewrite S4. simpl. rewrite deliver_state. exact S2.
Qed.

(** A concrete end *)
Record tcp_end := mkEnd { te_in : list (list Z); te_out : list (list Z); te_hca : gmap Z Z }.

Definition te_call (c : call) (w : tcp_end) : Z * list Z * tcp_end :=
  match c with
  | c_write _ msg => (Z.of_nat (length msg), [], mkEnd (te_in w) (te_out w ++ [msg]) (te_hca w))
  | c_read _ n =>
    match te_in w with
    | [] => (-1, [], w)
    | msg :: l => (Z.of_nat (length msg), msg, mkEnd l (te_out w) (te_hca w))
    end
  | ibv_modify_qp q attr mask =>
    let '(r, o, h) := hca_call c (te_hca w) in (r, o, mkEnd (te_in w) (te_out w) h)
  | _ => (0, [], w)
  end.
#[global] Instance te_world : World tcp_end := {| sys_call := te_call; get_errno _ := EAGAIN |}.

#[global] Program Instance te_adapter : Adapter tcp_end := {| hca_state w q := default 0 (te_hca w !! q) |}.
Next Obligation.
  intros w q attr mask Hl. simpl. rewrite Hl. eexists; split; [done|]. simpl. by rewrite lookup_insert_eq.
Qed.

#[global] Program Instance te_endpoint : Endpoint tcp_end := {|
  inbox := te_in; outbox := te_out; deliver msg w := mkEnd (te_in w ++ [msg]) (te_out w) (te_hca w) |}.
Solve Obligations with try done.
Next Obligation. intros fd msg w. by eexists _, _. Qed.
Next Obligation. intros fd msg rest w Hin. simpl in *. rewrite Hin. by eexists. Qed.
Next Obligation. intros q attr mask w r o w'. simpl. unfold te_call, hca_call. destruct (rc_legal _ _ _); intros E; injection E as <- <- <-; done. Qed.
Next Obligation. intros fd w. by eexists _, _. Qed.
Next Obligation. intros c w r o w' H. destruct c; try done; simpl in H; by simplify_eq. Qed.

(** An end with one socket at 900 on the queue pair at 100 *)
Definition demo_end (server : bool) (qpn : Z) : mach tcp_end list_pool :=
  let q := mkQP IBV_QPT_RC 1 0 60 qpn 0 meta0 (mkMeta 1 qpn 520 0 (replicate 16 1)) 1 2 520 5 8 0 false [] in
  mkMach (mkEnd [] [] {[ 60 := IBV_QPS_INIT ]}) ∅ ∅ ∅ 0 (mkMM None 0 false false (mkPool [] 184 4)) demo_ib
    {[ 100 := q ]} ∅ ∅ disp0 (PerfCounters.create "" 0 1)
    {[ 900 := mkSocket 100 false 0 qpn 0 0 1 [] 7 BufferList.empty [] server 5 6 8 false false 0 ]} ∅.

Lemma demo_end_ready server qpn : is_u32 qpn → ready config0 (demo_end server qpn) 900
  (mkSocket 100 false 0 qpn 0 0 1 [] 7 BufferList.empty [] server 5 6 8 false false 0)
  (mkQP IBV_QPT_RC 1 0 60 qpn 0 meta0 (mkMeta 1 qpn 520 0 (replicate 16 1)) 1 2 520 5 8 0 false []).
Proof.
  intros Hq. split; try done; [by eexists _, _|]. unfold wf_msg, QueuePair.cm_of. unfold_ints. simpl.
  split_and!; try lia. repeat (constructor; [lia|]). constructor.
Qed.

Lemma handshake_completes_witness : ∃ c1 s1 c2 s2,
  Socket.handle_connection_established config0 900 true (replicate 93 0) (demo_end false 17) = Ret (0, c1) ∧
  Socket.handle_connection config0 900 (replicate 93 0) (arrive (sent c1) (demo_end true 18)) = Ret (tt, s1) ∧
  Socket.handle_connection config0 900 (replicate 93 0) (arrive (sent s1) c1) = Ret (tt, c2) ∧
  Socket.handle_connection config0 900 (replicate 93 0) (arrive (sent c2) s1) = Ret (tt, s2).
Proof.
  destruct (handshake_completes config0 config0 (demo_end false 17) (demo_end true 18) 900 _ _ 900 _ _
    (replicate 93 0) (replicate 93 0) (replicate 93 0) (replicate 93 0)
    (demo_end_ready false 17 ltac:(by vm_compute)) (demo_end_ready true 18 ltac:(by vm_compute)))
    as (c1&s1&c2&s2&H); try reflexivity; [done|].
  exists c1, s1, c2, s2. destruct H as (H1&H2&H3&H4&_). split_and!; [exact H1|exact H2|exact H3|exact H4].
Defined.
