(* ===== verification/Polling.v ===== *)
(** * The polling thread and the server side
    ([RDMADispatcher] and [RDMAWorker] of src/core/RDMAStack.cc, and
    src/core/RDMAServerSocketImpl.cc)

    The handlers of send and receive completions and of asynchronous events,
    the round and the loop of the polling thread, listening and accepting, and
    a worker's [listen] and [connect]. *)

From S2P Require Import Prelude State Addr Buffers PerfCounters Machine Memory Wire QueuePair Net Infiniband Dispatcher Socket.

Definition IBV_WC_WR_FLUSH_ERR : Z := 5.
Definition IBV_WC_RETRY_EXC_ERR : Z := 12.
Definition IBV_WC_RECV : Z := 128.
Definition MAX_COMPLETIONS : Z := 8.
Definition IBV_EVENT_QP_FATAL : Z := 1.
Definition IBV_EVENT_QP_LAST_WQE_REACHED : Z := 16.

Module Polling.
Section polling_ops.
Context {W P : Type} `{!World W, !BoostPool P} (cfg : config).
Abbreviation M := (M W P).

(** ** Send completions *)

(** A send completion with an error: the counters and, for an unknown error,
    the fault of the socket, then [abort()]. *)
Definition tx_error {A} (response : wc) : M A :=
  (if wc_status response =? IBV_WC_RETRY_EXC_ERR then
     perf_inc l_msgr_rdma_tx_wc_retry_errors 1 ;;
     conn ← Dispatcher.get_conn_lockless (wc_qp_num response);
     if conn =? 0 then mret tt else get_sock conn ;; mret tt
   else if wc_status response =? IBV_WC_WR_FLUSH_ERR then
     perf_inc l_msgr_rdma_tx_wc_wr_flush_errors 1 ;;
     qp ← Dispatcher.get_qp_lockless (wc_qp_num response);
     dead ← (if qp =? 0 then mret false else QueuePair.get_state qp ;; QueuePair.is_dead qp);
     if dead : bool then mret tt else
     conn ← Dispatcher.get_conn_lockless (wc_qp_num response);
     if conn =? 0 then mret tt else get_sock conn ;; mret tt
   else
     conn ← Dispatcher.get_conn_lockless (wc_qp_num response);
     if conn =? 0 then mret tt else
     k ← get_sock conn;
     if connected k =? 0 then mret tt else QueuePair.get_state (s_qp k) ;; Socket.fault conn) ;;
  fail KAbort.

(** [conn->txc_callback(...)]: a null socket is dereferenced; calling an empty
    [std::function] throws. *)
Definition txc_callback (conn chunk : Z) : M unit :=
  k ← get_sock conn;
  if has_txc_callback k then sysret (c_txc_callback conn chunk) ;; mret tt else fail KAbort.

(** One completion; the result is the chunk to give back, if there is one. *)
Definition tx_one (response : wc) : M (option Z) :=
  if wr_id response =? BEACON_WRID then Dispatcher.enqueue_dead_qp (wc_qp_num response) ;; mret None else
  if negb (wc_status response =? IBV_WC_SUCCESS) then tx_error response else
  conn ← Dispatcher.get_conn_lockless (wc_qp_num response);
  txc_callback conn (wr_id response) ;;
  valid ← is_valid_chunk (wr_id response);
  if valid : bool then mret (Some (wr_id response)) else
  n ← QueuePair.get_local_qp_number (wr_id response);
  if n =? wc_qp_num response then mret None else fail KAbort.

Fixpoint tx_loop (cqe : list wc) (tx_chunks : list Z) : M (list Z) :=
  match cqe with
  | [] => mret tx_chunks
  | w :: cqe =>
    o ← tx_one w;
    tx_loop cqe (match o with Some c => tx_chunks ++ [c] | None => tx_chunks end)
  end.

Definition handle_tx_event (cqe : list wc) : M unit :=
  tx_chunks ← tx_loop cqe [];
  Dispatcher.post_tx_buffer tx_chunks.

(** ** Receive completions *)

(** [polled[conn].push_back(w)]: a [std::map] ordered by address *)
Fixpoint polled_add (polled : list (Z * list wc)) (conn : Z) (w : wc) : list (Z * list wc) :=
  match polled with
  | [] => [(conn, [w])]
  | (s, l) :: rest =>
    if conn =? s then (s, l ++ [w]) :: rest else
    if conn <? s then (conn, [w]) :: polled else (s, l) :: polled_add rest conn w
  end.

Definition rx_error {A} (response : wc) (conn qp : Z) : M A :=
  perf_inc l_msgr_rdma_rx_total_wc_errors 1 ;;
  (if wc_status response =? IBV_WC_WR_FLUSH_ERR then
     if qp =? 0 then mret tt else QueuePair.get_state qp ;; QueuePair.is_dead qp ;; mret tt
   else
     if conn =? 0 then mret tt else
     k ← get_sock conn;
     if connected k =? 0 then mret tt else Socket.fault conn) ;;
  recall_chunk_to_pool (wr_id response) ;;
  perf_dec l_msgr_rdma_rx_bufs_in_use 1 ;;
  fail KAbort.

Definition rx_one (response : wc) (polled : list (Z * list wc)) : M (list (Z * list wc)) :=
  let chunk := wr_id response in
  conn ← Dispatcher.get_conn_lockless (wc_qp_num response);
  qp ← Dispatcher.get_qp_lockless (wc_qp_num response);
  if wc_status response =? IBV_WC_SUCCESS then
    assert (wc_opcode response =? IBV_WC_RECV) ;;
    if conn =? 0 then recall_chunk_to_pool chunk ;; mret polled else
    Socket.post_chunks_to_rq cfg conn 1 ;;
    (if qp =? 0 then mret tt else
     k ← get_qp qp;
     if qp_srq k =? 0 then QueuePair.remove_rq_wr qp chunk ;; Chunk_clear_qp chunk else mret tt) ;;
    mret (polled_add polled conn response)
  else rx_error response conn qp.

Fixpoint rx_loop (cqe : list wc) (polled : list (Z * list wc)) : M (list (Z * list wc)) :=
  match cqe with
  | [] => mret polled
  | w :: cqe => polled ← rx_one w polled; rx_loop cqe polled
  end.

Definition handle_rx_event (cqe : list wc) : M unit :=
  polled ← rx_loop cqe [];
  for_each polled (λ '(s, l), Socket.pass_wc s l).

(** ** The thread *)

Definition poll_round : M bool :=
  d ← gets disp;
  '(tx_ret, txs) ← poll_cq (tx_cq d) MAX_COMPLETIONS;
  (if tx_ret >? 0 then handle_tx_event txs else mret tt) ;;
  '(rx_ret, rxs) ← poll_cq (rx_cq d) MAX_COMPLETIONS;
  (if rx_ret >? 0 then handle_rx_event rxs else mret tt) ;;
  if (tx_ret =? 0) && (rx_ret =? 0) then Dispatcher.poll_idle else mret false.

Fixpoint polling (rounds : nat) : M unit :=
  match rounds with
  | O => fail NoFuel
  | S rounds => stop ← poll_round; if stop : bool then mret tt else polling rounds
  end.

(** The answer to [ibv_get_async_event] holds the event and, for an event of a
    queue pair, its number. Events that are only printed change nothing. *)
Definition async_one (event_type qpn : Z) : M unit :=
  perf_inc l_msgr_rdma_total_async_events 1 ;;
  if event_type =? IBV_EVENT_QP_FATAL then
    qp ← Dispatcher.get_qp_lockless qpn; QueuePair.get_state qp ;; mret tt
  else if event_type =? IBV_EVENT_QP_LAST_WQE_REACHED then
    perf_inc l_msgr_rdma_async_last_wqe_events 1 ;;
    conn ← Dispatcher.get_conn_lockless qpn;
    qp ← Dispatcher.get_qp_lockless qpn;
    (if qp =? 0 then mret tt else
     dead ← QueuePair.is_dead qp;
     if dead : bool then mret tt else QueuePair.get_state qp ;; mret tt) ;;
    if conn =? 0 then mret tt else
    Socket.fault conn ;;
    if negb (qp =? 0) && negb (m_use_rdma_cm_ cfg) then Dispatcher.enqueue_dead_qp_lockless qpn else mret tt
  else mret tt.

Fixpoint handle_async_event (fuel : nat) : M unit :=
  ctxt ← device_ctxt;
  '(r, out) ← sys (ibv_get_async_event ctxt);
  if negb (r =? 0) then mret tt else
  match fuel with
  | O => fail NoFuel
  | S fuel =>
    async_one (default 0 (out !! 0%nat)) (default 0 (out !! 1%nat)) ;;
    sysret ibv_ack_async_event ;;
    handle_async_event fuel
  end.

(** ** The listening socket *)

Record server_socket := mkServer { server_setup_socket : Z; srv_addr : entity_addr_t }.

(** The label [err] of [listen] *)
Definition listen_err (fd rc : Z) (sa : entity_addr_t) : M (Z * server_socket) :=
  sysret (c_close fd) ;; mret (rc, mkServer (-1) sa).

Definition server_listen (sa : entity_addr_t) (opt : SocketOptions) : M (Z * server_socket) :=
  fd ← NetHandler.create_socket (Addr.get_family sa);
  if fd <? 0 then e ← errno; mret (- e, mkServer fd sa) else
  rc ← NetHandler.set_nonblock fd;
  if rc <? 0 then listen_err fd rc sa else
  rc ← NetHandler.set_socket_options fd (o_nodelay opt) (o_rcbuf_size opt);
  if rc <? 0 then listen_err fd rc sa else
  rc ← sysret (c_bind fd (Addr.get_sockaddr sa));
  if rc <? 0 then e ← errno; listen_err fd (- e) sa else
  rc ← sysret (c_listen fd (m_tcp_listen_backlog_ cfg));
  if rc <? 0 then e ← errno; listen_err fd (- e) sa else
  mret (0, mkServer fd sa).

(** [accept] for the worker [w]; the result is the return value, the new
    socket and the peer's address. The error paths read [errno] after
    [close]. *)
Definition server_accept (srv : server_socket) (opt : SocketOptions) (out : entity_addr_t) (w : Z) :
    M (Z * Z * entity_addr_t) :=
  '(sd, ss) ← sys (c_accept (server_setup_socket srv));
  if sd <? 0 then e ← errno; mret (- e, 0, out) else
  r ← NetHandler.set_nonblock sd;
  if r <? 0 then sysret (c_close sd) ;; e ← errno; mret (- e, 0, out) else
  r ← NetHandler.set_socket_options sd (o_nodelay opt) (o_rcbuf_size opt);
  if r <? 0 then sysret (c_close sd) ;; e ← errno; mret (- e, 0, out) else
  let out := (Addr.set_sockaddr ss (Addr.set_type (a_type (srv_addr srv)) out)).2 in
  NetHandler.set_priority sd (o_priority opt) (Addr.get_family out) ;;
  s ← Socket.create cfg w;
  k ← get_sock s;
  if s_qp k =? 0 then Socket.cleanup s ;; sysret (c_close sd) ;; mret (-1, 0, out) else
  Socket.set_accept_fd s sd ;;
  mret (0, s, out).

Definition abort_accept (srv : server_socket) : M unit :=
  if 0 <=? server_setup_socket srv then sysret (c_close (server_setup_socket srv)) ;; mret tt else mret tt.

(** ** The worker's entry points *)

Definition worker_listen (sa : entity_addr_t) (opt : SocketOptions) : M (Z * option server_socket) :=
  Infiniband_init cfg ;;
  Dispatcher.polling_start ;;
  '(r, p) ← server_listen sa opt;
  if r <? 0 then mret (r, None) else mret (0, Some p).

Definition worker_connect (w : Z) (addr : entity_addr_t) (opts : SocketOptions) (junk : list Z) : M (Z * Z) :=
  Infiniband_init cfg ;;
  Dispatcher.polling_start ;;
  p ← Socket.create cfg w;
  r ← Socket.try_connect cfg p addr opts junk;
  if r <? 0 then Socket.delete_socket p ;; mret (r, 0) else mret (0, p).

End polling_ops.
End Polling.

(** ** Facts *)

(** A successful send completion of a live connection *)
Definition tx_good {W P} (m : mach W P) (cl : cluster) (w : wc) : Prop :=
  wr_id w ≠ BEACON_WRID ∧ wc_status w = IBV_WC_SUCCESS ∧ is_Some (heap m !! wr_id w) ∧
  Cluster.is_valid_chunk cl (wr_id w) = true ∧
  ∃ q s kq k, qp_conns (disp m) !! wc_qp_num w = Some (q, s) ∧ qps m !! q = Some kq ∧ qp_dead kq = false ∧
    socks m !! s = Some k ∧ has_txc_callback k = true.

Section polling_facts.
Context {W P : Type} `{!World W, !BoostPool P} (cfg : config).
Implicit Types m : mach W P.

Lemma get_conn_eq m qpn q s kq : qp_conns (disp m) !! qpn = Some (q, s) → qps m !! q = Some kq →
  Dispatcher.get_conn_lockless qpn m = Ret (if qp_dead kq then 0 else s, m).
Proof.
  intros Hc Hq. unfold Dispatcher.get_conn_lockless, mbind, ST_bind, gets. rewrite Hc.
  unfold QueuePair.is_dead, mbind, ST_bind. by rewrite (get_qp_eq _ _ _ Hq).
Qed.

Lemma tx_one_ok m cl w : send_buffers (mm m) = Some cl → tx_good m cl w →
  ∃ w', Polling.tx_one w m = Ret (Some (wr_id w), set_world w' m).
Proof.
  intros Hcl (Hb&Hst&_&Hv&q&s&kq&k&Hc&Hq&Hd&Hs&Hcb). unfold Polling.tx_one.
  destruct (Z.eqb_spec (wr_id w) BEACON_WRID); [done|]. rewrite Hst. cbn [Z.eqb negb IBV_WC_SUCCESS].
  unfold mbind, ST_bind. rewrite (get_conn_eq m _ q s kq Hc Hq), Hd.
  unfold Polling.txc_callback, mbind, ST_bind. rewrite (get_sock_eq _ _ _ Hs), Hcb.
  destruct (sys_call (c_txc_callback s (wr_id w)) (world m)) as [[r o] w'] eqn:E.
  rewrite (sysret_eq _ _ _ _ _ E). unfold mret, ST_ret, is_valid_chunk, mbind, ST_bind.
  rewrite (get_cluster_eq _ cl) by done. unfold mret, ST_ret. rewrite Hv. by exists w'.
Qed.

Lemma tx_loop_ok cl l : ∀ m acc, send_buffers (mm m) = Some cl → Forall (tx_good m cl) l →
  ∃ w', Polling.tx_loop l acc m = Ret (acc ++ (wr_id <$> l), set_world w' m).
Proof.
  induction l as [|w l IH]; intros m acc Hcl Hall.
  { exists (world m). csimpl. rewrite app_nil_r. by destruct m. }
  apply Forall_cons in Hall as [Hw Hall]. cbn [Polling.tx_loop]. unfold mbind, ST_bind.
  destruct (tx_one_ok m cl w Hcl Hw) as (w1&->).
  destruct (IH (set_world w1 m) (acc ++ [wr_id w]) Hcl Hall) as (w2&->). exists w2. csimpl.
  by rewrite <-app_assoc.
Qed.
End polling_facts.

(** C16: a batch of successful send completions of live connections: every
    sender's callback runs, and afterwards exactly the completed chunks have
    been added to the free list, in the order they completed, each reset for
    writing; the number in flight goes down by the size of the batch. *)
Theorem handle_tx_event_returns_chunks {W P} `{!World W, !BoostPool P} (m : mach W P) cl cqe :
  cqe ≠ [] → send_buffers (mm m) = Some cl → Forall (tx_good m cl) cqe →
  ∃ m', Polling.handle_tx_event cqe m = Ret (tt, m') ∧
    send_buffers (mm m') = Some (set_free_chunks (free_chunks cl ++ (wr_id <$> cqe)) cl) ∧
    (∀ w x, w ∈ cqe → heap m !! wr_id w = Some x →
       heap m' !! wr_id w = Some (set_ck_bound (ck_bytes x) (set_ck_offset 0 x))) ∧
    (∀ c, c ∉ wr_id <$> cqe → heap m' !! c = heap m !! c) ∧
    inflight (disp m') = u64 (inflight (disp m) - Z.of_nat (length cqe)).
Proof.
  intros Hne Hcl Hall. unfold Polling.handle_tx_event, mbind, ST_bind.
  destruct (tx_loop_ok cl cqe m [] Hcl Hall) as (w'&->). cbn [app].
  unfold Dispatcher.post_tx_buffer. rewrite bool_decide_false by (by destruct cqe).
  unfold mbind, ST_bind, on_disp, modify, return_tx. rewrite length_fmap. set (m1 := set_disp _ _).
  destruct (take_back_spec (wr_id <$> cqe) m1 cl) as (m'&Heq&Hsb&Hin&Hnone); [done| |].
  { apply Forall_fmap. eapply Forall_impl; [exact Hall|]. by intros w (_&_&?&_). }
  exists m'. split; [exact Heq|]. split_and!; [done| | |].
  - intros w x Hw Hx. rewrite (Hin _ x) by done. by rewrite decide_True by by apply list_elem_of_fmap_2.
  - intros c Hc. destruct (heap m !! c) as [x|] eqn:E; [|by apply Hnone].
    rewrite (Hin c x) by done. by rewrite decide_False.
  - assert (frame disp (Cluster_take_back (W := W) (P := P) (wr_id <$> cqe))) as Hf by solve_frame.
    by rewrite (Hf _ _ _ Heq).
Qed.

(** A connection at 900 whose two chunks have been sent *)
Definition demo_tx : mach script list_pool :=
  set_disp (mkDisp true 1 2 3 4 false 1 {[ 17 := (100, 900) ]} [] 0 [] 2)
    (set_socks {[ 900 := set_has_txc_callback true demo_send_sock ]} demo_send).
Definition demo_cqe : list wc := [mkWC 8192 0 0 9 17; mkWC 8248 0 0 4 17].

Lemma handle_tx_event_returns_chunks_witness :
  ∃ m', Polling.handle_tx_event demo_cqe demo_tx = Ret (tt, m') ∧ inflight (disp m') = 0.
Proof.
  destruct (handle_tx_event_returns_chunks demo_tx demo_cluster demo_cqe) as (m'&H&_&_&_&Hi); [done|reflexivity| |].
  - repeat constructor; try done; eexists _, _, _, _; split_and!; reflexivity.
  - exists m'. split; [exact H|exact Hi].
Defined.

(** A send completion that arrives after its socket is gone is undefined
    behaviour: the socket [get_conn_lockless] no longer finds is called
    through a null pointer. *)
Theorem late_send_completion_undefined {W P} `{!World W, !BoostPool P} (m m' : mach W P) w qpn :
  table_inv m → socks m' !! 0 = None → wr_id w ≠ BEACON_WRID → wc_status w = IBV_WC_SUCCESS →
  wc_qp_num w = qpn → Dispatcher.schedule_qp_destroy qpn m = Ret (tt, m') →
  Polling.handle_tx_event [w] m' = Crash Undefined.
Proof.
  intros Hinv H0 Hb Hst Hq Hs. pose proof (schedule_unreachable m m' qpn Hinv Hs) as Hc.
  unfold Polling.handle_tx_event. cbn [Polling.tx_loop]. unfold Polling.tx_one.
  destruct (Z.eqb_spec (wr_id w) BEACON_WRID); [done|]. rewrite Hst. cbn [Z.eqb negb IBV_WC_SUCCESS].
  unfold mbind, ST_bind. rewrite Hq, Hc. unfold Polling.txc_callback, get_sock, mbind, ST_bind, gets. by rewrite H0.
Qed.

Lemma late_send_completion_undefined_witness :
  Polling.handle_tx_event [mkWC 8192 0 0 9 17] (run (Dispatcher.schedule_qp_destroy 17) demo_disp) = Crash Undefined.
Proof.
  apply (late_send_completion_undefined demo_disp _ _ 17); [by apply demo_inv|by vm_compute|done|reflexivity|reflexivity|].
  by vm_compute.
Defined.

(** ** The end of a queue pair *)

Section life.
Context {W P : Type} `{!World W, !BoostPool P}.
Implicit Types m : mach W P.


Lemma to_dead_rq q m : rq_ok m → wlp (QueuePair.to_dead q) (λ _ m', rq_ok m') m.
Proof.
  intros Hrq. unfold QueuePair.to_dead, QueuePair.modify_qp_to_error, get_qp, sysret, errno, on_qp, put_qp.
  wlp_auto; simpl; try done.
  intros q' k' c Hk' Hc. simpl in *. apply lookup_insert_Some in Hk' as [[<- <-]|[_ Hk']]; [|by eapply Hrq].
  simplify_eq. by eapply Hrq.
Qed.

Lemma schedule_ok_frame qpn m m' q s : table_inv m → qp_conns (disp m) !! qpn = Some (q, s) →
  rq_ok m → perf_ok m → Dispatcher.schedule_qp_destroy qpn m = Ret (tt, m') →
  rq_ok m' ∧ perf_ok m' ∧ is_Some (qps m' !! q) ∧
  (disp m' = Dispatcher.doom qpn q (disp m) ∨ disp m' = set_qp_conns (<[qpn := (q, 0)]> (qp_conns (disp m))) (disp m)).
Proof.
  intros Hinv Hs Hrq Hp. unfold Dispatcher.schedule_qp_destroy, mbind, ST_bind, gets. rewrite Hs.
  destruct (QueuePair.to_dead q m) as [[r m1]|] eqn:Hd; [|done].
  destruct (to_dead_frame q m r m1 Hd) as (Hd1&Hids&_&Hpf).
  pose proof (wlp_elim _ _ _ _ _ (to_dead_rq q m Hrq) Hd) as Hrq1.
  assert (is_Some (qps m1 !! q)) as Hq.
  { destruct Hinv as (_&_&Ht&_). destruct (Ht qpn q s Hs) as (_&k&Hk&_). destruct (Hids q k Hk) as (k'&Hk'&_). eauto. }
  assert (perf_ok m1) by (unfold perf_ok; by rewrite Hpf).
  destruct (r =? 0); simpl; intros [= <-]; rewrite <-Hd1; (split_and!; [exact Hrq1|done|exact Hq|]); [by right|by left].
Qed.
End life.

(** C2: the life of a queue pair ends as the comments promise. When its socket
    goes away, its queue pair is scheduled; the beacon's completion moves it to
    the list of the dead (or it is there already, when it could not be moved
    to the error state); and the next idle round destroys it. None of the
    three steps fails, afterwards the queue pair is gone and its number is
    free, and every other registration is as it was. *)
Theorem queue_pair_lifecycle {W P} `{!World W, !BoostPool P, !DestroyOk W} (m m1 : mach W P) qpn q s w :
  table_inv m → perf_ok m → rq_ok m → qp_conns (disp m) !! qpn = Some (q, s) →
  Dispatcher.schedule_qp_destroy qpn m = Ret (tt, m1) →
  wr_id w = BEACON_WRID → wc_qp_num w = qpn →
  ∃ m2 b m3, Polling.handle_tx_event [w] m1 = Ret (tt, m2) ∧ Dispatcher.poll_idle m2 = Ret (b, m3) ∧
    qps m3 !! q = None ∧ qp_conns (disp m3) = delete qpn (qp_conns (disp m)) ∧ table_inv m3.
Proof.
  intros Hinv Hp Hrq Hs Hsch Hw Hqn.
  destruct (schedule_ok_frame qpn m m1 q s Hinv Hs Hrq Hp Hsch) as (Hrq1&Hp1&Hq1&Hd1).
  pose proof (schedule_inv qpn m m1 Hinv Hsch) as Hinv1.
  set (m2 := match qp_conns (disp m1) !! qpn with
             | Some (q, _) => set_disp (Dispatcher.doom qpn q (disp m1)) m1 | None => m1 end).
  assert (Dispatcher.enqueue_dead_qp qpn m1 = Ret (tt, m2)) as Henq.
  { unfold Dispatcher.enqueue_dead_qp, Dispatcher.enqueue_dead_qp_lockless, mbind, ST_bind, gets, m2.
    by destruct (qp_conns (disp m1) !! qpn) as [[??]|]. }
  assert (qp_conns (disp m2) = delete qpn (qp_conns (disp m)) ∧ q ∈ dead_queue_pairs (disp m2)) as [Hc2 Hdead2].
  { unfold m2. destruct Hd1 as [E|E]; rewrite E; cbn [Dispatcher.doom Dispatcher.set_table qp_conns set_qp_conns
      set_num_qp_conn set_dead_queue_pairs].
    - rewrite lookup_delete_eq, E. simpl. split; [done|]. apply elem_of_app. right. apply list_elem_of_here.
    - rewrite lookup_insert_eq. simpl. rewrite delete_insert_eq. split; [done|].
      apply elem_of_app. right. apply list_elem_of_here. }
  assert (rq_ok m2) as Hrq2 by (unfold m2; by destruct (qp_conns (disp m1) !! qpn) as [[??]|]).
  assert (perf_ok m2) as Hp2 by (unfold m2; by destruct (qp_conns (disp m1) !! qpn) as [[??]|]).
  destruct (poll_idle_ok m2 (enqueue_inv qpn m1 m2 Hinv1 Henq) Hp2 Hrq2) as (b&m3&Hidle&Hinv3&_&_&Hd3&Hqs&_).
  exists m2, b, m3. split_and!; [|exact Hidle| |rewrite Hd3; exact Hc2|exact Hinv3].
  - unfold Polling.handle_tx_event. cbn [Polling.tx_loop]. unfold Polling.tx_one. rewrite Hw, Z.eqb_refl, Hqn.
    unfold mbind, ST_bind. by rewrite Henq.
  - rewrite Hqs. by rewrite decide_True.
Qed.

Lemma queue_pair_lifecycle_witness : ∃ m2 b m3,
  Polling.handle_tx_event [mkWC BEACON_WRID 5 0 0 17] (run (Dispatcher.schedule_qp_destroy 17) zero_disp) = Ret (tt, m2) ∧
  Dispatcher.poll_idle m2 = Ret (b, m3) ∧ qps m3 !! 100 = None.
Proof.
  destruct (queue_pair_lifecycle zero_disp (run (Dispatcher.schedule_qp_destroy 17) zero_disp) 17 100 900
    (mkWC BEACON_WRID 5 0 0 17)) as (m2&b&m3&H1&H2&H3&_);
    [by apply demo_inv|exact zero_disp_perf|exact zero_disp_rq|reflexivity|by vm_compute|reflexivity|reflexivity|].
  exists m2, b, m3. split_and!; [exact H1|exact H2|exact H3].
Defined.

(** C15: a successful receive completion of a live connection without a shared
    receive queue: one fresh buffer is taken from the pool and posted in its
    place, the chunk that was filled leaves the queue pair's receive queue and
    loses its mark, and the completion is queued behind those its socket
    already holds. *)
Theorem handle_rx_event_replaces {W P} `{!World W, !BoostPool P, !PoolLaws P} (cfg : config) (m : mach W P)
    w q s kq k x c' x' rest out w' :
  wc_status w = IBV_WC_SUCCESS → wc_opcode w = IBV_WC_RECV →
  qp_conns (disp m) !! wc_qp_num w = Some (q, s) → s ≠ 0 → q ≠ 0 →
  qps m !! q = Some kq → qp_dead kq = false → qp_srq kq = 0 → 1 ≤ max_recv_wr kq → support_srq (ib m) = false →
  wr_id w ∈ recv_queue kq → heap m !! wr_id w = Some x →
  socks m !! s = Some k → s_qp k = q → post_backlog k = 0 →
  rx_free m = c' :: rest → c' ≠ 0 → c' ≠ wr_id w → heap m !! c' = Some x' →
  sys_call (ibv_post_recv (qp_qp kq) [wr_of (heap m) c']) (world m) = (0, out, w') →
  ∃ m', Polling.handle_rx_event cfg [w] m = Ret (tt, m') ∧ rx_free m' = rest ∧
    qps m' = <[q := set_recv_queue (QueuePair.erase (wr_id w) (recv_queue kq ++ [c'])) kq]> (qps m) ∧
    socks m' = <[s := set_s_wc (s_wc k ++ [w]) k]> (socks m) ∧
    heap m' !! wr_id w = Some (set_ck_qp 0 x) ∧ heap m' !! c' = Some (set_ck_qp q x').
Proof.
  intros Hst Hop Hc Hs0 Hq0 Hq Hd Hsrq Hmax Hsup Hin Hx Hk Hkq Hbl Hfr Hc0 Hcne Hx' Hpost.
  unfold Polling.handle_rx_event. cbn [Polling.rx_loop]. unfold Polling.rx_one, mbind, ST_bind.
  rewrite (get_conn_eq m _ q s kq Hc Hq), Hd.
  unfold Dispatcher.get_qp_lockless, mbind, ST_bind, gets. rewrite Hc. unfold mret, ST_ret. rewrite Hst, Hop.
  cbn [Z.eqb IBV_WC_SUCCESS IBV_WC_RECV Pos.eqb assert]. unfold mret, ST_ret.
  destruct (Z.eqb_spec s 0); [done|].
  unfold Socket.post_chunks_to_rq, mbind, ST_bind. rewrite (get_sock_eq _ _ _ Hk), Hkq.
  destruct (post_chunks_eq cfg m q kq [c'] rest out w') as (m1&E1&R1&W1&Q1&H1&[= S1 D1 _]);
    [done|by apply NoDup_singleton|set_solver|done|repeat constructor; eauto|done|done|done|simpl; lia|done|].
  change (Z.of_nat (length [c'])) with 1 in E1. rewrite E1.
  rewrite (on_sock_eq m1 s k) by (by rewrite S1).
  replace (set_post_backlog (s32 (post_backlog k + (1 - 1))) k) with k by (clear -Hbl; destruct k; simpl in *; by rewrite Hbl).
  set (m2 := set_socks _ m1).
  assert (socks m2 = socks m) as S2 by (unfold m2; simpl; rewrite S1; by apply insert_id).
  destruct (Z.eqb_spec q 0); [done|]. set (kq1 := set_recv_queue (recv_queue kq ++ [c']) kq) in *.
  assert (qps m2 !! q = Some kq1) as Hq2 by (simpl; rewrite Q1; apply lookup_insert_eq).
  rewrite (get_qp_eq _ _ _ Hq2). change (qp_srq kq1) with (qp_srq kq). rewrite Hsrq. cbn [Z.eqb].
  rewrite (remove_rq_wr_eq m2 q kq1); [|done|done|simpl; set_solver]. unfold Chunk_clear_qp, Chunk_set_qp.
  set (m3 := set_qps _ m2).
  assert (heap m3 !! wr_id w = Some x) as Hx3.
  { simpl. rewrite (H1 _ _ Hx). rewrite decide_False; [done|]. set_solver. }
  rewrite (on_chunk_eq _ _ _ _ Hx3). cbn [Polling.polled_add for_each]. unfold mret, ST_ret, Socket.pass_wc, mbind, ST_bind.
  set (m4 := set_heap _ m3).
  rewrite (on_sock_eq m4 s k) by (change (socks m4) with (socks m2); by rewrite S2).
  eexists. split; [done|]. cbn [socks set_socks heap qps]. split_and!.
  - exact R1.
  - unfold m4, m3. simpl. rewrite Q1, insert_insert_eq. done.
  - change (socks m4) with (socks m2). by rewrite S2.
  - unfold m4. simpl. apply lookup_insert_eq.
  - unfold m4. simpl. rewrite lookup_insert_ne by done. change (heap m3) with (heap m1).
    rewrite (H1 _ _ Hx'). by rewrite decide_True by set_solver.
Qed.

(** A connection whose chunk at 6000 has been filled, and one buffer in the pool *)
Definition demo_rx_sock : socket := set_s_qp 100 demo_send_sock.
Definition demo_rx_qp : queue_pair := set_recv_queue [6000] demo_qp.
Definition demo_arrival : mach script list_pool :=
  set_disp (mkDisp true 1 2 3 4 false 1 {[ 17 := (100, 900) ]} [] 0 [] 0)
  (set_socks {[ 900 := demo_rx_sock ]}
  (set_mm (mkMM None 2 false false (mkPool [5000] 184 4))
  (set_heap {[ 5000 := demo_rxchunk 5000; 6000 := set_ck_qp 100 (demo_rxchunk 6000) ]}
  (set_ib demo_ib (set_qps {[ 100 := demo_rx_qp ]} (mach0 [])))))).

Lemma handle_rx_event_replaces_witness :
  ∃ m', Polling.handle_rx_event config0 [mkWC 6000 0 128 32 17] demo_arrival = Ret (tt, m') ∧ rx_free m' = [].
Proof.
  destruct (handle_rx_event_replaces config0 demo_arrival (mkWC 6000 0 128 32 17) 100 900 demo_rx_qp demo_rx_sock
    (set_ck_qp 100 (demo_rxchunk 6000)) 5000 (demo_rxchunk 5000) [] []
    (mkScript [] 0 [ibv_post_recv 60 [mkWR 5000 (Some (5040, 128, 77))]])) as (m'&H&Hr&_);
    try reflexivity; try done.
  - apply list_elem_of_here.
  - exists m'. split; [exact H|exact Hr].
Defined.
