(* ===== verification/Connection.v ===== *)
(** * Connections of the application layer
      (src/core/connection.h and .cc, and [NetworkStack::get_worker] and
      [Worker::release_worker] of src/network/Stack.h and .cc)

    A [Connection] drives one socket of the network stack through connecting
    or accepting, and hands it to the callbacks of its owner. The sockets, the
    event centres and the operating system are reached through calls answered
    by a [Transport]; a ConnectedSocket or ServerSocket is named by its
    descriptor. *)

From S2P Require Import Prelude State Addr Buffers Machine Socket.

(** ** Calls to the network stack and to Python *)

(** The [EventCallback] objects of this layer: [C_handle_read],
    [C_read_callback] and [C_write_callback] of a connection, and
    [Processor::C_processor_accept]. *)
Inductive handler :=
| C_handle_read (conn : Z)
| C_read_callback (conn : Z)
| C_write_callback (conn : Z)
| C_processor_accept (processor : nat).

#[global] Instance handler_eq_dec : EqDecision handler.
Proof. solve_decision. Defined.

Inductive tcall :=
| t_connect (worker : Z) (addr : entity_addr_t) (opts : SocketOptions)
| t_listen (worker : Z) (addr : entity_addr_t) (opts : SocketOptions)
| t_accept (fd : Z) (opts : SocketOptions) (worker : Z)
| t_abort_accept (fd : Z)
| t_is_connected (fd : Z)
| t_close (fd : Z)
| t_read (fd n : Z)
| t_write (fd : Z) (buf : list Z)
| t_send (fd : Z) (bl : BufferList.t) (more : bool)
| t_send_chunks (fd : Z) (chunks : list Z)
| t_drain (fd : Z)
| t_set_txc_callback (fd f : Z)
| t_create_file_event (worker fd mask : Z) (h : handler)
| t_delete_file_event (worker fd mask : Z)
| t_dispatch_event_external (worker : Z) (h : handler)
| t_nonblock_connect_need_writable_event
| t_is_ready
| t_start
| t_ready
| t_sleep (seconds : Z)
| t_junk (n : nat)
| t_rand
| Py_IsInitialized
| Py_Initialize
| PyRun_SimpleString (code : string)
| PyImport_ImportModule (name : string)
| PyEval_CallObject (name : string) (args : list Z).

(** What a call returns: for [t_connect] and [t_listen] the result and the
    descriptor of the socket made, for [t_accept] also the peer's address,
    for [t_read] the result and the bytes stored, for [t_write] the result and
    [errno]; [t_junk] stands for [n] bytes of memory never written. *)
Definition answer (c : tcall) : Type :=
  match c with
  | t_connect _ _ _ | t_listen _ _ _ | t_write _ _ => Z * Z
  | t_accept _ _ _ => Z * Z * entity_addr_t
  | t_read _ _ => Z * list Z
  | t_junk _ => list Z
  | _ => Z
  end.

Class Transport (W : Type) := t_call : ∀ c : tcall, W → answer c * W.

(** A transport that keeps the calls made *)
Class Recorded (W : Type) `{Transport W} := {
  trace : W → list tcall;
  trace_call c w : trace (t_call c w).2 = trace w ++ [c];
}.

(** ** State *)

(** The fields of [Config] this layer reads *)
Record app_config := mkAC {
  ac_tcp_priority : Z; ac_addr : entity_addr_t; ac_tcp_nodelay : bool; ac_tcp_rcvbuf : Z;
  ac_bind_retry_count : Z; ac_bind_retry_delay : Z; ac_listen_port : Z; ac_max_accept_failures : Z;
}.

Inductive conn_state :=
| STATE_NONE | STATE_CONNECTING | STATE_CONNECTING_RE | STATE_ACCEPTING
| STATE_CONNECTION_ESTABLISHED | STATE_CLOSED.

#[global] Instance conn_state_eq_dec : EqDecision conn_state.
Proof. solve_decision. Defined.

(** [cs] is the descriptor of the socket; a callback is the address of its
    [std::function], [None] while it was never assigned. *)
Record connection := mkConn {
  mc_id : Z;
  c_state : conn_state;
  cs : option Z;
  local_addr : entity_addr_t;
  peer_addr : entity_addr_t;
  c_worker : Z;
  read_callback : option Z;
  write_callback : option Z;
}.

Definition set_mc_id (v : Z) (k : connection) : connection :=
  mkConn (u32 v) (c_state k) (cs k) (local_addr k) (peer_addr k) (c_worker k) (read_callback k) (write_callback k).
Definition set_c_state (v : conn_state) (k : connection) : connection :=
  mkConn (mc_id k) v (cs k) (local_addr k) (peer_addr k) (c_worker k) (read_callback k) (write_callback k).
Definition set_cs (v : option Z) (k : connection) : connection :=
  mkConn (mc_id k) (c_state k) v (local_addr k) (peer_addr k) (c_worker k) (read_callback k) (write_callback k).
Definition set_addrs (l p : entity_addr_t) (k : connection) : connection :=
  mkConn (mc_id k) (c_state k) (cs k) l p (c_worker k) (read_callback k) (write_callback k).
Definition set_callbacks (r w : Z) (k : connection) : connection :=
  mkConn (mc_id k) (c_state k) (cs k) (local_addr k) (peer_addr k) (c_worker k) (Some r) (Some w).

(** [Processor] of network/processer.h: the listening socket is its
    descriptor and the address it was made with. *)
Record processor := mkProc {
  p_worker : Z;
  listen_socket : option (Z * entity_addr_t);
  is_started : bool;
}.

(** [Server] of core/server.h: [conns] is a map, [accepting_conns] a set; the
    four callback pointers are [None] until the application assigns them. *)
Record server := mkServer {
  conns : list (entity_addr_t * Z);
  accepting_conns : list Z;
  processors : list processor;
  conn_count : Z;
  sv_lock : bool;
  client_callbacks : option (Z * Z);  (* read, write *)
  server_callbacks : option (Z * Z);
}.

Section app.
Context {W D : Type}.

(** The application: the stack's workers by their [references], the
    connections by address (never freed), the server, and the data [D] of the
    class derived from it *)
Record app := mkApp {
  env : W;
  references : list Z;
  conn_heap : gmap Z connection;
  next_conn : Z;
  srv : server;
  data : D;
}.

Definition set_env (v : W) (s : app) : app :=
  mkApp v (references s) (conn_heap s) (next_conn s) (srv s) (data s).
Definition set_references (v : list Z) (s : app) : app :=
  mkApp (env s) v (conn_heap s) (next_conn s) (srv s) (data s).
Definition set_conn_heap (v : gmap Z connection) (s : app) : app :=
  mkApp (env s) (references s) v (next_conn s) (srv s) (data s).
Definition set_next_conn (v : Z) (s : app) : app :=
  mkApp (env s) (references s) (conn_heap s) v (srv s) (data s).
Definition set_srv (v : server) (s : app) : app :=
  mkApp (env s) (references s) (conn_heap s) (next_conn s) v (data s).
Definition set_data (v : D) (s : app) : app :=
  mkApp (env s) (references s) (conn_heap s) (next_conn s) (srv s) v.

Abbreviation A := (ST app).

Definition ask `{Transport W} (c : tcall) : A (answer c) := λ s,
  let '(a, w) := t_call c (env s) in Ret (a, set_env w s).
Definition tell `{Transport W} (c : tcall) : A unit := ask c ;; mret tt.

Definition get_conn (c : Z) : A connection := h ← gets conn_heap; the (h !! c).
Definition on_conn (c : Z) (f : connection → connection) : A unit :=
  k ← get_conn c; modify (λ s, set_conn_heap (<[c := f k]> (conn_heap s)) s).
Definition on_srv (f : server → server) : A unit := modify (λ s, set_srv (f (srv s)) s).
Definition on_data (f : D → D) : A unit := modify (λ s, set_data (f (data s)) s).

End app.
Arguments app : clear implicits.

Lemma wlp_ask {W D} `{Transport W} c (Q : answer c → app W D → Prop) s :
  (∀ a w, t_call c (env s) = (a, w) → Q a (set_env w s)) → wlp (ask c) Q s.
Proof. intros H1. unfold wlp, ask. destruct (t_call c (env s)) as [a w] eqn:E. by apply H1. Qed.
Lemma frame_ask {W D T} `{Transport W} (f : app W D → T) c :
  (∀ w s, f (set_env w s) = f s) → frame f (ask c).
Proof. intros Hf s a s'. unfold ask. destruct (t_call _ _). intros [= _ <-]. apply Hf. Qed.

Ltac frame_env_step ::= first [apply frame_sys; intros; reflexivity | apply frame_ask; intros; reflexivity].
Ltac wlp_env_step ::=
  match goal with
  | |- wlp (sys _) _ _ => apply wlp_sys; intros
  | |- wlp (ask ?c) ?Q ?s =>
    let a := fresh "a" in let w := fresh "w" in let E := fresh "E" in
    refine (wlp_ask c Q s _); intros a w E; cbn [answer] in a
  end.

(** ** The workers of the stack *)

Module Stack.
Section stack_ops.
Context {W D : Type}.
Abbreviation A := (ST (app W D)).

Definition INT_MAX : Z := 2147483647.

(** The loop of [get_worker]: the best worker so far and its load *)
Fixpoint least_loaded (i : nat) (l : list Z) (best : option nat) (min_load : Z) : option nat :=
  match l with
  | [] => best
  | load :: l => if load <? min_load then least_loaded (S i) l (Some i) load else least_loaded (S i) l best min_load
  end.

(** [NetworkStack::get_worker()]: a worker is named by its index. *)
Definition get_worker : A Z :=
  l ← gets references;
  match least_loaded 0 l None INT_MAX with
  | None => fail KAbort
  | Some i =>
    modify (set_references (<[i := u32 (default 0 (l !! i) + 1)]> l)) ;; mret (Z.of_nat i)
  end.

(** [Worker::release_worker]: [oldref] is an int. *)
Definition release_worker (w : nat) : A unit :=
  l ← gets references;
  r ← the (l !! w);
  modify (set_references (<[w := u32 (r - 1)]> l)) ;;
  assert (0 <? s32 r).

(** [--w->references] *)
Definition drop_reference (w : Z) : A unit :=
  l ← gets references;
  r ← the (l !! Z.to_nat w);
  modify (set_references (<[Z.to_nat w := u32 (r - 1)]> l)).

End stack_ops.
End Stack.

(** ** Connections *)

Module Connection.
Section connection_ops.
Context {W D : Type} `{!Transport W} (cfg : app_config).
Abbreviation A := (ST (app W D)).

(** [new Connection(context, server, w)] *)
Definition create (w : Z) : A Z :=
  c ← gets next_conn;
  jl ← ask (t_junk 20);
  jp ← ask (t_junk 20);
  let fresh j := Addr.create (mkAddr TYPE_SERVER 0 zero_u j) in
  modify (set_next_conn (c + 1)) ;;
  modify (λ s, set_conn_heap
    (<[c := mkConn 0 STATE_NONE None (fresh jl) (fresh jp) w None None]> (conn_heap s)) s) ;;
  mret c.

Definition connect (c : Z) (addr : entity_addr_t) : A unit :=
  on_conn c (λ k, set_c_state STATE_CONNECTING (set_addrs (local_addr k) addr k)) ;;
  k ← get_conn c;
  tell (t_dispatch_event_external (c_worker k) (C_handle_read c)).

(** [accept(socket, listen_addr, peer_addr)]: [socket] is a descriptor. *)
Definition accept (c : Z) (socket : option Z) (listen_addr peer : entity_addr_t) : A unit :=
  fd ← the socket;
  assert (0 <=? fd) ;;
  on_conn c (λ k, set_c_state STATE_ACCEPTING (set_addrs listen_addr peer (set_cs (Some fd) k))) ;;
  k ← get_conn c;
  tell (t_dispatch_event_external (c_worker k) (C_handle_read c)).

Definition process_connecting (c : Z) : A unit :=
  k ← get_conn c;
  match cs k with
  | Some fd =>
    tell (t_delete_file_event (c_worker k) fd (Z.lor EVENT_READABLE EVENT_WRITABLE)) ;;
    tell (t_close fd) ;;
    on_conn c (set_cs None)
  | None => mret tt
  end ;;
  let opts := mkOpts true true 0 (ac_tcp_priority cfg) (ac_addr cfg) in
  '(r, fd) ← ask (t_connect (c_worker k) (peer_addr k) opts);
  if r <? 0 then mret tt else
  on_conn c (set_cs (Some fd)) ;;
  i ← ask (t_is_connected fd);
  assert (i <=? 0) ;;
  tell (t_create_file_event (c_worker k) fd EVENT_READABLE (C_read_callback c)) ;;
  tell (t_create_file_event (c_worker k) fd EVENT_WRITABLE (C_handle_read c)) ;;
  on_conn c (set_c_state STATE_CONNECTING_RE).

Definition process_connecting_re (c : Z) : A unit :=
  k ← get_conn c;
  fd ← the (cs k);
  r ← ask (t_is_connected fd);
  if r <? 0 then mret tt else
  if r =? 0 then
    b ← ask t_nonblock_connect_need_writable_event;
    when (negb (b =? 0)) (tell (t_create_file_event (c_worker k) fd EVENT_WRITABLE (C_handle_read c)))
  else
    on_conn c (set_c_state STATE_CONNECTION_ESTABLISHED) ;;
    tell (t_delete_file_event (c_worker k) fd EVENT_WRITABLE) ;;
    tell (t_dispatch_event_external (c_worker k) (C_write_callback c)).

Definition process_accepting (c : Z) : A unit :=
  k ← get_conn c;
  fd ← the (cs k);
  tell (t_create_file_event (c_worker k) fd EVENT_READABLE (C_read_callback c)) ;;
  tell (t_dispatch_event_external (c_worker k) (C_write_callback c)) ;;
  on_conn c (set_c_state STATE_CONNECTION_ESTABLISHED).

Definition process (c : Z) : A unit :=
  k ← get_conn c;
  match c_state k with
  | STATE_NONE | STATE_CLOSED | STATE_CONNECTION_ESTABLISHED => mret tt
  | STATE_CONNECTING => process_connecting c
  | STATE_CONNECTING_RE => process_connecting_re c
  | STATE_ACCEPTING => process_accepting c
  end.

Definition Read (c n : Z) : A (Z * list Z) :=
  k ← get_conn c; fd ← the (cs k); ask (t_read fd n).
Definition write (c : Z) (buf : list Z) : A (Z * Z) :=
  k ← get_conn c; fd ← the (cs k); ask (t_write fd buf).
Definition Send (c : Z) (bl : BufferList.t) : A Z :=
  k ← get_conn c; fd ← the (cs k); ask (t_send fd bl false).
Definition Send_chunks (c : Z) (chunks : list Z) : A Z :=
  k ← get_conn c; fd ← the (cs k); ask (t_send_chunks fd chunks).
Definition set_txc_callback (c f : Z) : A unit :=
  k ← get_conn c; fd ← the (cs k); tell (t_set_txc_callback fd f).
Definition drain (c : Z) : A unit :=
  k ← get_conn c; fd ← the (cs k); tell (t_drain fd).

End connection_ops.
End Connection.

(** ** Choosing a worker *)

Section worker_facts.
Context {W D : Type}.

Lemma least_loaded_spec (l : list Z) : ∀ i best m,
  match Stack.least_loaded i l best m with
  | Some b =>
    (best = Some b ∧ Forall (λ r, m ≤ r) l) ∨
    (∃ k r, b = (i + k)%nat ∧ l !! k = Some r ∧ r < m ∧
      ∀ j r', l !! j = Some r' → r ≤ r' ∧ (r' = r → (k ≤ j)%nat))
  | None => best = None ∧ Forall (λ r, m ≤ r) l
  end.
Proof.
  induction l as [|x l IH]; intros i best m; simpl; [destruct best; naive_solver|].
  destruct (Z.ltb_spec x m) as [Hx|Hx].
  - specialize (IH (S i) (Some i) x). destruct (Stack.least_loaded (S i) l (Some i) x) as [b|]; [|naive_solver].
    right. destruct IH as [[[= <-] Hall]|(k&r&->&Hk&Hr&Hmin)].
    + exists 0%nat, x. split_and!; [lia|done|done|]. intros [|j] r' Hj; simplify_eq/=; [lia|].
      rewrite Forall_lookup in Hall. apply Hall in Hj. lia.
    + exists (S k), r. split_and!; [lia|done|lia|].
      intros [|j] r' Hj; simplify_eq/=; [lia|]. apply Hmin in Hj. lia.
  - specialize (IH (S i) best m). destruct (Stack.least_loaded (S i) l best m) as [b|].
    + destruct IH as [[-> Hall]|(k&r&->&Hk&Hr&Hmin)]; [left; by auto|right].
      exists (S k), r. split_and!; [lia|done|done|].
      intros [|j] r' Hj; simplify_eq/=; [lia|]. apply Hmin in Hj. lia.
    + naive_solver.
Qed.

(** Loads that differ by at most one *)
Definition balanced (l : list Z) : Prop := ∀ i j x y, l !! i = Some x → l !! j = Some y → x ≤ y + 1.

(** [get_worker] returns the first of the workers with the fewest
    references and counts one more reference for it, and aborts only when no
    worker has fewer than INT_MAX references. Loads that differ by at most one
    still do afterwards. *)
Theorem get_worker_least (s : app W D) :
  match Stack.get_worker s with
  | Ret (w, s') => ∃ i r,
      w = Z.of_nat i ∧ references s !! i = Some r ∧ r < Stack.INT_MAX ∧
      (∀ j r', references s !! j = Some r' → r ≤ r' ∧ (r' = r → (i ≤ j)%nat)) ∧
      s' = set_references (<[i := u32 (r + 1)]> (references s)) s ∧
      (Forall is_u32 (references s) → balanced (references s) → balanced (references s'))
  | Crash e => e = KAbort ∧ Forall (λ r, Stack.INT_MAX ≤ r) (references s)
  end.
Proof.
  unfold Stack.get_worker, mbind, ST_bind, gets. simpl.
  pose proof (least_loaded_spec (references s) 0 None Stack.INT_MAX) as H.
  destruct (Stack.least_loaded _ _ _ _) as [i|]; [|naive_solver].
  destruct H as [[? _]|(k&r&->&Hk&Hr&Hmin)]; [done|]. simpl. unfold mret, ST_ret.
  exists k, r. rewrite Hk. simpl. split_and!; [done..|]. intros Hall Hbal.
  rewrite Forall_lookup in Hall. specialize (Hall _ _ Hk).
  rewrite (u32_small (r + 1)) by (unfold Stack.INT_MAX in Hr; unfold is_u32 in *; lia).
  intros i j x y. rewrite !list_lookup_insert_Some.
  intros [(->&<-&?)|[? Hx]] [(->&<-&?)|[? Hy]]; [lia| | |by eapply Hbal].
  - apply Hmin in Hy. lia.
  - specialize (Hbal _ _ _ _ Hx Hk). lia.
Qed.

End worker_facts.

(** ** A connection announces itself once *)

Section once.
Context {W D : Type} `{!Transport W, !Recorded W} (cfg : app_config).

Definition is_write_callback (c : Z) (x : tcall) : bool :=
  match x with t_dispatch_event_external _ (C_write_callback c') => c =? c' | _ => false end.

(** How often the write callback of [c] was dispatched *)
Definition announced (c : Z) (l : list tcall) : nat := length (List.filter (is_write_callback c) l).

Lemma announced_snoc c l x : announced c (l ++ [x]) = (announced c l + if is_write_callback c x then 1 else 0)%nat.
Proof. unfold announced. rewrite List.filter_app, length_app. simpl. by destruct (is_write_callback c x). Qed.

(** The life of the connections: [connect] and [accept] are called on a
    connection just made; [process] runs whenever its event fires. *)
Inductive conn_step (s : app W D) : app W D → Prop :=
| cs_create w c s' : Connection.create w s = Ret (c, s') → conn_step s s'
| cs_connect c k addr s' : conn_heap s !! c = Some k → c_state k = STATE_NONE →
    Connection.connect c addr s = Ret (tt, s') → conn_step s s'
| cs_accept c k fd l p s' : conn_heap s !! c = Some k → c_state k = STATE_NONE →
    Connection.accept c fd l p s = Ret (tt, s') → conn_step s s'
| cs_process c s' : Connection.process cfg c s = Ret (tt, s') → conn_step s s'.

Definition established (h : gmap Z connection) (c : Z) : nat :=
  match h !! c with
  | Some k => if decide (c_state k = STATE_CONNECTION_ESTABLISHED) then 1 else 0
  | None => 0
  end.

Definition once_inv (s : app W D) : Prop :=
  (∀ c, next_conn s ≤ c → conn_heap s !! c = None) ∧
  ∀ c, announced c (trace (env s)) = established (conn_heap s) c.

Definition is_established (k : connection) : nat :=
  if decide (c_state k = STATE_CONNECTION_ESTABLISHED) then 1 else 0.

Lemma established_insert h c k c' :
  established (<[c := k]> h) c' = if decide (c = c') then is_established k else established h c'.
Proof.
  unfold established. destruct (decide (c = c')) as [->|].
  - by rewrite lookup_insert_eq.
  - by rewrite lookup_insert_ne.
Qed.

Lemma heap_insert_fresh (h : gmap Z connection) n c k k' : h !! c = Some k →
  (∀ x, n ≤ x → h !! x = None) → ∀ x, n ≤ x → <[c := k']> h !! x = None.
Proof. intros Hc Hn x Hx. rewrite lookup_insert_ne; [by apply Hn|]. intros ->. by rewrite Hn in Hc. Qed.

(** Turn the calls made into the trace they leave. *)
Ltac trace_eqs :=
  repeat match goal with
  | H : t_call ?c ?w0 = (?a, ?w) |- _ =>
    let T := fresh "T" in pose proof (trace_call c w0) as T; rewrite H in T; simpl in T; clear H
  end.
Ltac rewrite_traces := repeat match goal with T : trace _ = _ |- _ => rewrite T; clear T end.
Ltac once_auto :=
  wlp_auto; trace_eqs; simplify_eq/=; try done;
  (split; [simpl; repeat (eapply heap_insert_fresh; [by simplify_map_eq|]); by eauto|]);
  simpl; let x := fresh "x" in intros x; rewrite ?established_insert;
  rewrite_traces; rewrite ?announced_snoc; simpl;
  match goal with
  | Hc : ∀ c : Z, announced c _ = _ |- context [decide (?c = ?x)] =>
    rewrite Hc, ?Nat.add_0_r; destruct (decide (c = x)) as [<-|];
    [rewrite ?Z.eqb_refl; unfold established, is_established
    |rewrite ?(proj2 (Z.eqb_neq x c)) by done]
  | Hc : ∀ c : Z, announced c _ = _ |- _ => rewrite Hc
  end;
  simplify_map_eq; repeat case_decide; simplify_eq/=; try congruence; try lia.

Lemma process_once c s : once_inv s → wlp (Connection.process cfg c) (λ _, once_inv) s.
Proof. intros [Hn Hc]. once_auto. Qed.

Lemma connect_once c k addr s : conn_heap s !! c = Some k → c_state k = STATE_NONE →
  once_inv s → wlp (Connection.connect c addr) (λ _, once_inv) s.
Proof. intros Hk Hs [Hn Hc]. once_auto. Qed.

Lemma accept_once c k fd l p s : conn_heap s !! c = Some k → c_state k = STATE_NONE →
  once_inv s → wlp (Connection.accept c fd l p) (λ _, once_inv) s.
Proof. intros Hk Hs [Hn Hc]. once_auto. Qed.

Lemma create_once w s : once_inv s → wlp (Connection.create w) (λ _, once_inv) s.
Proof.
  intros [Hn Hc]. wlp_auto. trace_eqs. split; simpl.
  - intros c Hle. rewrite lookup_insert_ne by lia. apply Hn. lia.
  - intros c. rewrite established_insert. rewrite_traces. rewrite !announced_snoc, Hc, !Nat.add_0_r. simpl.
    destruct (decide (next_conn s = c)) as [<-|]; [|done].
    unfold established. by rewrite Hn.
Qed.

Lemma conn_step_once s s' : once_inv s → conn_step s s' → once_inv s'.
Proof.
  intros Hinv Hstep. destruct Hstep as [? ? ? E|? ? ? ? ? ? E|? ? ? ? ? ? ? ? E|? ? E].
  - by eapply (wlp_elim _ _ _ _ _ (create_once _ _ Hinv)).
  - by eapply (wlp_elim _ _ _ _ _ (connect_once _ _ _ _ ltac:(done) ltac:(done) Hinv)).
  - by eapply (wlp_elim _ _ _ _ _ (accept_once _ _ _ _ _ _ ltac:(done) ltac:(done) Hinv)).
  - by eapply (wlp_elim _ _ _ _ _ (process_once _ _ Hinv)).
Qed.

(** C19: However the events interleave, the write callback of a connection,
    which tells its owner that it is connected, is dispatched exactly once for
    a connection that has become established and never before. *)
Theorem write_callback_once s s' c :
  conn_heap s = ∅ → trace (env s) = [] → rtc conn_step s s' →
  announced c (trace (env s')) = established (conn_heap s') c ∧ (announced c (trace (env s')) ≤ 1)%nat.
Proof.
  intros Hh Ht Hrun. destruct (rtc_invariant conn_step once_inv s s') as [_ H]; [|split|done|].
  - intros. by eapply conn_step_once.
  - intros. by rewrite Hh.
  - intros x. unfold established. by rewrite Hh, Ht.
  - rewrite H. split; [done|]. unfold established. repeat case_match; lia.
Qed.
End once.

(** *** A concrete transport: every call succeeds at once, a connection is
    seen as established the second time it is asked about. *)

Definition calm_call (c : tcall) (l : list tcall) : answer c * list tcall :=
  (match c return answer c with
   | t_connect _ _ _ => (0, 7)
   | t_listen _ _ _ => (0, 3)
   | t_accept _ _ _ => (-11, 0, mkAddr TYPE_SERVER 0 zero_u [])
   | t_is_connected fd =>
     Z.of_nat (length (List.filter (λ x, match x with t_is_connected fd' => fd =? fd' | _ => false end) l))
   | t_read _ _ => (0, [])
   | t_write _ buf => (Z.of_nat (length buf), 0)
   | t_junk n => replicate n 0
   | _ => 0
   end, l ++ [c]).

#[global] Instance calm_transport : Transport (list tcall) := calm_call.
#[global] Instance calm_recorded : Recorded (list tcall).
Proof. by refine {| trace := id |}. Defined.

Definition addr0 : entity_addr_t := mkAddr TYPE_SERVER 0 zero_u (replicate 20 0).
Definition ac0 : app_config := mkAC 0 addr0 true 65536 8 1 5150 64.
Definition server0 : server := mkServer [] [] [] 0 false (Some (1, 2)) (Some (3, 4)).
Definition app0 : app (list tcall) unit := mkApp [] [0; 0] ∅ 1 server0 tt.

Definition after {W D B} (x : ST (app W D) B) (s : app W D) : app W D :=
  match x s with Ret (_, s') => s' | Crash _ => s end.

Definition app1 := after (Connection.create 0) app0.
Definition app2 := after (Connection.connect 1 addr0) app1.
Definition app3 := after (Connection.process ac0 1) app2.
Definition app4 := after (Connection.process ac0 1) app3.

Lemma write_callback_once_witness :
  announced 1 (trace (env app4)) = 1%nat ∧ (announced 1 (trace (env app4)) ≤ 1)%nat.
Proof.
  refine (write_callback_once ac0 app0 app4 1 eq_refl eq_refl _).
  eapply rtc_l; [by eapply (cs_create _ _ 0 1 app1)|].
  eapply rtc_l; [by eapply (cs_connect _ _ 1 _ addr0 app2)|].
  eapply rtc_l; [by eapply (cs_process _ _ 1 app3)|].
  apply rtc_once. by eapply (cs_process _ _ 1 app4).
Defined.
