(* ===== verification/Server.v ===== *)
(** * The server and its processors
      (src/core/server.h and .cc, src/network/processer.h and .cc)

    A [Server] owns one [Processor] per worker; a processor listens on a
    socket and hands the connections it accepts to the server. The lambdas
    passed to [submit_to] run to completion before it returns, so they are
    inlined. *)

From S2P Require Import Prelude State Addr Buffers Machine QueuePair Net Socket Connection.

Definition EBUSY : Z := 16.
Definition EMFILE : Z := 24.
Definition ENFILE : Z := 23.
Definition ECONNABORTED : Z := 103.

Definition set_conns (v : list (entity_addr_t * Z)) (r : server) : server :=
  mkServer v (accepting_conns r) (processors r) (conn_count r) (sv_lock r) (client_callbacks r) (server_callbacks r).
Definition set_accepting_conns (v : list Z) (r : server) : server :=
  mkServer (conns r) v (processors r) (conn_count r) (sv_lock r) (client_callbacks r) (server_callbacks r).
Definition set_processors (v : list processor) (r : server) : server :=
  mkServer (conns r) (accepting_conns r) v (conn_count r) (sv_lock r) (client_callbacks r) (server_callbacks r).
Definition set_conn_count (v : Z) (r : server) : server :=
  mkServer (conns r) (accepting_conns r) (processors r) v (sv_lock r) (client_callbacks r) (server_callbacks r).
Definition set_sv_lock (v : bool) (r : server) : server :=
  mkServer (conns r) (accepting_conns r) (processors r) (conn_count r) v (client_callbacks r) (server_callbacks r).

(** [conns[a] = c] *)
Fixpoint map_store (a : entity_addr_t) (c : Z) (l : list (entity_addr_t * Z)) : list (entity_addr_t * Z) :=
  match l with
  | [] => [(a, c)]
  | (a', c') :: l => if Addr.eqb a' a then (a', c) :: l else (a', c') :: map_store a c l
  end.

Fixpoint map_find (a : entity_addr_t) (l : list (entity_addr_t * Z)) : option Z :=
  match l with
  | [] => None
  | (a', c) :: l => if Addr.eqb a' a then Some c else map_find a l
  end.

(** [accepting_conns.insert(c)] *)
Definition set_add (c : Z) (l : list Z) : list Z := if bool_decide (c ∈ l) then l else l ++ [c].

Module Server.
Section server_ops.
Context {W D : Type} `{!Transport W} (cfg : app_config).
Abbreviation A := (ST (app W D)).

(** The constructor, after the stack was made: a processor for each worker *)
Definition create (workers : nat) (junk_count : Z) : server :=
  mkServer [] [] ((λ i, mkProc (Z.of_nat i) None false) <$> seq 0 workers) junk_count false None None.

Definition lock : A unit :=
  v ← gets srv; if sv_lock v then fail Blocked else on_srv (set_sv_lock true).
Definition unlock : A unit := on_srv (set_sv_lock false).

Definition get_processor (i : nat) : A processor := v ← gets srv; the (processors v !! i).
Definition put_processor (i : nat) (p : processor) : A unit :=
  on_srv (λ v, set_processors (<[i := p]> (processors v)) v).

(** The pointers are copied, not called: an application that never assigned
    them leaves the connection's unassigned. *)
Definition copy_callbacks (c : Z) (cbs : option (Z * Z)) : A unit :=
  match cbs with Some (r, w) => on_conn c (set_callbacks r w) | None => mret tt end.

(** [Server::accept] *)
Definition accept (w : Z) (cli_socket : option Z) (listen_addr peer : entity_addr_t) : A unit :=
  lock ;;
  c ← Connection.create w;
  v ← gets srv;
  copy_callbacks c (server_callbacks v) ;;
  Connection.accept c cli_socket listen_addr peer ;;
  on_srv (λ v, set_accepting_conns (set_add c (accepting_conns v)) v) ;;
  unlock.

(** [Server::create_connect] *)
Definition create_connect (addr : entity_addr_t) : A Z :=
  lock ;;
  w ← Stack.get_worker;
  c ← Connection.create w;
  v ← gets srv;
  copy_callbacks c (client_callbacks v) ;;
  Connection.connect c addr ;;
  on_srv (λ v, set_conns (map_store addr c (conns v)) v) ;;
  unlock ;;
  mret c.

End server_ops.
End Server.

Module Processor.
Section processor_ops.
Context {W D : Type} `{!Transport W} (cfg : app_config).
Abbreviation A := (ST (app W D)).

Definition set_listen_socket (v : option (Z * entity_addr_t)) (p : processor) : processor :=
  mkProc (p_worker p) v (is_started p).
Definition set_is_started (v : bool) (p : processor) : processor :=
  mkProc (p_worker p) (listen_socket p) v.

(** The attempts of [bind]: [first] is [i == 0], [r] the last result, [n] the
    attempts left. *)
Fixpoint bind_loop (n : nat) (first : bool) (i : nat) (listen_addr : entity_addr_t) (r : Z) : A (Z * entity_addr_t) :=
  match n with
  | O => mret (r, listen_addr)
  | S n =>
    when (negb first) (tell (t_sleep (ac_bind_retry_delay cfg))) ;;
    listen_addr ← (if Addr.get_port listen_addr =? 0
                   then lift (Addr.set_port (ac_listen_port cfg) listen_addr) else mret listen_addr);
    p ← Server.get_processor i;
    let opts := mkOpts true (ac_tcp_nodelay cfg) (ac_tcp_rcvbuf cfg) (-1) (Addr.create addr0) in
    '(r, fd) ← ask (t_listen (p_worker p) listen_addr opts);
    when (0 <=? r) (Server.put_processor i (set_listen_socket (Some (fd, listen_addr)) p)) ;;
    if r =? 0 then mret (r, listen_addr) else bind_loop n false i listen_addr r
  end.

(** [listen_socket.abort_accept()]: [_ssi] may be null. *)
Definition abort_accept (i : nat) : A unit :=
  p ← Server.get_processor i;
  '(fd, _) ← the (listen_socket p);
  tell (t_abort_accept fd) ;;
  Server.put_processor i (set_listen_socket None p).

Definition bind (i : nat) (bind_addr : entity_addr_t) : A (Z * entity_addr_t) :=
  '(r, listen_addr) ← bind_loop (Z.to_nat (ac_bind_retry_count cfg)) true i bind_addr (-1);
  if r <? 0 then abort_accept i ;; mret (r, listen_addr) else mret (0, listen_addr).

Definition start (i : nat) : A unit :=
  p ← Server.get_processor i;
  if is_started p then mret tt else
  match listen_socket p with
  | Some (fd, _) =>
    when (negb (fd =? -1))
      (tell (t_create_file_event (p_worker p) fd EVENT_READABLE (C_processor_accept i)))
  | None => mret tt
  end ;;
  Server.put_processor i (set_is_started true p).

Definition stop (i : nat) : A unit :=
  p ← Server.get_processor i;
  match listen_socket p with
  | Some (fd, _) => tell (t_delete_file_event (p_worker p) fd EVENT_READABLE) ;; abort_accept i
  | None => mret tt
  end ;;
  p ← Server.get_processor i;
  Server.put_processor i (set_is_started false p).

(** The loop of [Processor::accept]; [server_accept] is the virtual
    [Server::accept]. *)
Fixpoint accept_loop (server_accept : Z → option Z → entity_addr_t → entity_addr_t → A unit)
    (fuel : nat) (i : nat) (accept_error_num : Z) : A unit :=
  match fuel with
  | O => fail NoFuel
  | S fuel =>
    w ← Stack.get_worker;
    p ← Server.get_processor i;
    '(fd, listen_addr) ← the (listen_socket p);
    let opts := mkOpts true (ac_tcp_nodelay cfg) (ac_tcp_rcvbuf cfg) (ac_tcp_priority cfg) (Addr.create addr0) in
    '(r, sd, peer) ← ask (t_accept fd opts w);
    if r =? 0 then
      server_accept w (Some sd) listen_addr peer ;;
      accept_loop server_accept fuel i 0
    else
      Stack.drop_reference w ;;
      if r =? - EINTR then accept_loop server_accept fuel i accept_error_num else
      if r =? - EAGAIN then mret tt else
      if r =? - ECONNABORTED then accept_loop server_accept fuel i accept_error_num else
      let e := u32 (accept_error_num + 1) in
      if ac_max_accept_failures cfg <? e then fail KAbort else
      accept_loop server_accept fuel i e
  end.

Definition accept server_accept (fuel : nat) (i : nat) : A unit :=
  p ← Server.get_processor i;
  the (listen_socket p) ;;
  accept_loop server_accept fuel i 0.

End processor_ops.
End Processor.

Section server_top.
Context {W D : Type} `{!Transport W} (cfg : app_config).
Abbreviation A := (ST (app W D)).

(** [Server::bind]: a stack that is not ready makes it return before the
    unlock. [conn_count] is an int, converted to the type of [size()]. *)
Definition Server_bind (bind_addr : entity_addr_t) : A Z :=
  Server.lock ;;
  ready ← ask t_is_ready;
  if ready =? 0 then mret 0 else
  Server.unlock ;;
  v ← gets srv;
  if bool_decide (processors v = []) then fail Undefined else
  let i := Z.to_nat (u64 (conn_count v) mod Z.of_nat (length (processors v))) in
  p ← Server.get_processor i;
  if is_started p then mret (- EBUSY) else
  '(r, _) ← Processor.bind cfg i bind_addr;
  if negb (r =? 0) then mret r else
  Processor.start i ;;
  v ← gets srv;
  if conn_count v =? Stack.INT_MAX then fail Undefined else
  on_srv (set_conn_count (conn_count v + 1)) ;;
  mret 0.

(** [Server::read] *)
Definition Server_read (addr : entity_addr_t) (n : Z) : A (Z * list Z) :=
  v ← gets srv;
  assert (length (accepting_conns v) =? 1)%nat ;;
  c ← the (head (accepting_conns v));
  k ← get_conn c;
  assert (Addr.eqb addr (local_addr k)) ;;
  Connection.Read c n.

(** [Server::start] *)
Definition Server_start : A unit := tell t_start ;; tell t_ready.

(** [conns[dst]->]: an address without a connection is given a null pointer. *)
Definition conn_at (dst : entity_addr_t) : A Z :=
  v ← gets srv;
  match map_find dst (conns v) with
  | Some c => mret c
  | None => fail Undefined
  end.
(** [Server::send] of buffers and of chunks, [set_txc_callback] and [drain] *)
Definition Server_send (dst : entity_addr_t) (bl : BufferList.t) : A Z := c ← conn_at dst; Connection.Send c bl.
Definition Server_send_chunks (dst : entity_addr_t) (chunks : list Z) : A Z := c ← conn_at dst; Connection.Send_chunks c chunks.
Definition Server_set_txc_callback (dst : entity_addr_t) (f : Z) : A unit := c ← conn_at dst; Connection.set_txc_callback c f.
Definition Server_drain : A unit :=
  v ← gets srv;
  assert (length (accepting_conns v) =? 1)%nat ;;
  c ← the (head (accepting_conns v));
  Connection.drain c.

(** [do_request] of the event callbacks of this layer; [invoke f c] calls the
    [std::function] at [f] with the connection [c], [fuel] bounds the accepts
    of one event. *)
Definition do_request (invoke : Z → Z → A unit) server_accept (fuel : nat) (h : handler) : A unit :=
  match h with
  | C_handle_read c => Connection.process cfg c
  | C_read_callback c => k ← get_conn c; f ← the (read_callback k); invoke f c
  | C_write_callback c => k ← get_conn c; f ← the (write_callback k); invoke f c
  | C_processor_accept i => Processor.accept cfg server_accept fuel i
  end.

End server_top.

(** ** Accepting *)

(** A listening socket with a queue of results of [accept], the last of which
    has been taken when it answers EAGAIN *)
Class Listener (W : Type) `{Transport W} := {
  queue : W → list (Z * Z * entity_addr_t);
  queue_accept fd opts w0 w :
    t_call (t_accept fd opts w0) w =
      (match queue w with [] => (- EAGAIN, 0, addr0) | a :: _ => a end,
       (t_call (t_accept fd opts w0) w).2) ∧
    queue (t_call (t_accept fd opts w0) w).2 = tail (queue w);
  queue_other c w : match c with t_accept _ _ _ => False | _ => True end →
    queue (t_call c w).2 = queue w;
}.

(** The descriptors the queue delivers *)
Definition accepted (q : list (Z * Z * entity_addr_t)) : list Z :=
  (λ a, a.1.2) <$> filter (λ a, a.1.1 = 0) q.

Section accept_facts.
Context {W D : Type} `{!Transport W, !Listener W} (cfg : app_config).
Implicit Types s : app W D.

(** Run the monad and the calls of a concrete operation. *)
Ltac run_step :=
  unfold on_conn, get_conn, on_srv, tell, ask, assert, the;
  unfold gets, modify, mbind, ST_bind, mret, ST_ret; simpl.

Lemma create_eq w s : ∃ e jl jp,
  Connection.create w s = Ret (next_conn s,
    set_conn_heap (<[next_conn s := mkConn 0 STATE_NONE None jl jp w None None]> (conn_heap s))
      (set_next_conn (next_conn s + 1) (set_env e s))) ∧ queue e = queue (env s).
Proof.
  unfold Connection.create. run_step.
  destruct (t_call (t_junk 20) (env s)) as [j1 e1] eqn:E1. simpl.
  destruct (t_call (t_junk 20) e1) as [j2 e2] eqn:E2. simpl.
  pose proof (queue_other (t_junk 20) (env s) I) as Q1. pose proof (queue_other (t_junk 20) e1 I) as Q2.
  rewrite E1 in Q1. rewrite E2 in Q2. simpl in *. do 3 eexists. split; [done|]. by rewrite Q2.
Qed.

Lemma server_accept_ok w sd la peer s : sv_lock (srv s) = false → 0 ≤ sd →
  next_conn s ∉ accepting_conns (srv s) →
  ∃ s' k, Server.accept w (Some sd) la peer s = Ret (tt, s') ∧
    queue (env s') = queue (env s) ∧ references s' = references s ∧ next_conn s' = next_conn s + 1 ∧
    srv s' = set_accepting_conns (accepting_conns (srv s) ++ [next_conn s]) (srv s) ∧
    conn_heap s' = <[next_conn s := k]> (conn_heap s) ∧
    cs k = Some sd ∧ c_state k = STATE_ACCEPTING ∧ local_addr k = la ∧ peer_addr k = peer ∧ c_worker k = w.
Proof.
  intros Hl Hsd Hni. unfold Server.accept, Server.lock, Server.unlock, Server.copy_callbacks, Connection.accept.
  run_step. rewrite Hl. simpl.
  destruct (create_eq w (set_srv (set_sv_lock true (srv s)) s)) as (e&jl&jp&->&Hq). simpl in *.
  rewrite (proj2 (Z.leb_le 0 sd)) by done.
  destruct (server_callbacks (srv s)) as [[rb wb]|]; simpl;
    repeat (rewrite lookup_insert_eq; simpl);
    match goal with |- context [t_call ?c e] => destruct (t_call c e) as [x e'] eqn:Ec;
      pose proof (queue_other c e I) as Q; rewrite Ec in Q end; simpl in *;
    (eexists _, _; split; [done|]); simpl;
    rewrite ?insert_insert_eq; unfold set_add; simpl; rewrite bool_decide_false by done;
    (split_and!; [congruence|done|done|by destruct (srv s); simpl in *; subst|done..]).
Qed.
Lemma Zsum_insert (l : list Z) i r x : l !! i = Some r → Zsum (<[i := x]> l) = Zsum l + (x - r).
Proof.
  revert i. induction l as [|y l IH]; intros [|i] H; simplify_eq/=; [lia|]. rewrite (IH _ H). lia.
Qed.

Lemma get_worker_eq s : references s ≠ [] → Forall (λ r, 0 ≤ r < Stack.INT_MAX) (references s) →
  ∃ i r, references s !! i = Some r ∧
    Stack.get_worker s = Ret (Z.of_nat i, set_references (<[i := r + 1]> (references s)) s).
Proof.
  intros Hne Hall. pose proof (least_loaded_spec (references s) 0 None Stack.INT_MAX) as H.
  unfold Stack.get_worker. run_step.
  destruct (Stack.least_loaded _ _ _ _) as [i|].
  - destruct H as [[? _]|(k&r&->&Hk&Hr&_)]; [done|]. exists k, r. split; [done|]. simpl. rewrite Hk. simpl.
    rewrite Forall_lookup in Hall. apply Hall in Hk.
    rewrite u32_small by (unfold is_u32, Stack.INT_MAX in *; lia). done.
  - exfalso. destruct H as [_ H]. destruct (references s) as [|r l]; [done|].
    apply Forall_cons in H as [? _]. apply Forall_cons in Hall as [? _]. lia.
Qed.

(** What the loop has done when it has answered the queue [q] *)
Definition drained (la : entity_addr_t) (q : list (Z * Z * entity_addr_t)) s s' : Prop :=
  let n := Z.of_nat (length (accepted q)) in
  queue (env s') = [] ∧ Zsum (references s') = Zsum (references s) + n ∧
  srv s' = set_accepting_conns (accepting_conns (srv s) ++ seqZ (next_conn s) n) (srv s) ∧
  (∀ c, c < next_conn s → conn_heap s' !! c = conn_heap s !! c) ∧
  Forall2 (λ c sd, ∃ k, conn_heap s' !! c = Some k ∧ cs k = Some sd ∧ c_state k = STATE_ACCEPTING ∧
    local_addr k = la) (seqZ (next_conn s) n) (accepted q).

(** What it needs: a listening processor, an unlocked server, workers that can
    take a reference for every entry of the queue *)
Definition accept_ready (i : nat) (fd : Z) (la : entity_addr_t) (q : list (Z * Z * entity_addr_t)) s : Prop :=
  queue (env s) = q ∧ sv_lock (srv s) = false ∧
  (∃ p, processors (srv s) !! i = Some p ∧ listen_socket p = Some (fd, la)) ∧
  Forall (λ c, c < next_conn s) (accepting_conns (srv s)) ∧
  references s ≠ [] ∧
  Forall (λ r, 0 ≤ r ∧ r + Z.of_nat (length q) < Stack.INT_MAX) (references s) ∧
  Forall (λ a, a.1.1 ≠ - EAGAIN ∧ (a.1.1 = 0 → 0 ≤ a.1.2)) q.

(** One round up to the answer of [accept] *)
Lemma accept_round_eq server_accept fuel i fd la q s e : accept_ready i fd la q s →
  ∃ w r0 env', references s !! w = Some r0 ∧ queue env' = tail q ∧
    let s1 := set_env env' (set_references (<[w := r0 + 1]> (references s)) s) in
    let '(r, sd, peer) := match q with [] => (- EAGAIN, 0, addr0) | a :: _ => a end in
    Processor.accept_loop cfg server_accept (S fuel) i e s =
      (if r =? 0 then
         server_accept (Z.of_nat w) (Some sd) la peer ;; Processor.accept_loop cfg server_accept fuel i 0
       else
         Stack.drop_reference (Z.of_nat w) ;;
         if r =? - EINTR then Processor.accept_loop cfg server_accept fuel i e else
         if r =? - EAGAIN then mret tt else
         if r =? - ECONNABORTED then Processor.accept_loop cfg server_accept fuel i e else
         let e' := u32 (e + 1) in
         if ac_max_accept_failures cfg <? e' then fail KAbort else
         Processor.accept_loop cfg server_accept fuel i e') s1.
Proof.
  intros (Hq&Hlock&(p&Hp&Hls)&Hacc&Hne&Hrefs&Hgood).
  destruct (get_worker_eq s Hne) as (w&r0&Hw&Eg).
  { eapply Forall_impl; [done|]. simpl. lia. }
  cbn [Processor.accept_loop]. rewrite (bind_run _ _ _ _ _ Eg).
  assert (Server.get_processor i (set_references (<[w := r0 + 1]> (references s)) s) =
    Ret (p, set_references (<[w := r0 + 1]> (references s)) s)) as Eproc.
  { unfold Server.get_processor. run_step. by rewrite Hp. }
  rewrite (bind_run _ _ _ _ _ Eproc), Hls. unfold the. rewrite (bind_run _ _ _ (fd, la) _ eq_refl).
  unfold ask at 1. unfold mbind at 1, ST_bind at 1. simpl.
  match goal with |- context [t_call (t_accept fd ?o ?w1) (env s)] =>
    destruct (queue_accept fd o w1 (env s)) as [Ea Eq]; rewrite Ea; exists w, r0, (t_call (t_accept fd o w1) (env s)).2 end.
  rewrite Hq in *. split_and!; [done|done|]. by destruct q as [|[[r sd] peer] q].
Qed.

Lemma drop_reference_eq w r0 s env' : references s !! w = Some r0 → is_u32 r0 →
  Stack.drop_reference (Z.of_nat w) (set_env env' (set_references (<[w := r0 + 1]> (references s)) s)) =
    Ret (tt, set_env env' s).
Proof.
  intros Hw Hr. unfold Stack.drop_reference. run_step. rewrite Nat2Z.id, list_lookup_insert_eq by (by eapply lookup_lt_Some).
  simpl. unfold set_references, set_env. simpl. rewrite list_insert_insert_eq.
  replace (r0 + 1 - 1) with r0 by lia. by rewrite u32_small, list_insert_id.
Qed.

Lemma accept_ready_tail i fd la a q s env' : accept_ready i fd la (a :: q) s → queue env' = q →
  accept_ready i fd la q (set_env env' s).
Proof.
  intros (Hq&Hlock&Hp&Hacc&Hne&Hrefs&Hgood) Hq'. apply Forall_cons in Hgood as [_ Hgood].
  split_and!; try done. eapply Forall_impl; [done|]. simpl. lia.
Qed.

Lemma accept_ready_next i fd la a q s w r0 s1 : accept_ready i fd la (a :: q) s →
  references s !! w = Some r0 → queue (env s1) = q → references s1 = <[w := r0 + 1]> (references s) →
  next_conn s1 = next_conn s + 1 →
  srv s1 = set_accepting_conns (accepting_conns (srv s) ++ [next_conn s]) (srv s) →
  accept_ready i fd la q s1.
Proof.
  intros (Hq&Hlock&Hproc&Hacc&Hne&Hrefs&Hgood) Hw Hq1 Hr1 Hn1 Hs1. apply Forall_cons in Hgood as [_ Hgood].
  split_and!; [done|by rewrite Hs1|destruct Hproc as (p&?&?); exists p; by rewrite Hs1| | | |done].
  - rewrite Hs1, Hn1. simpl. apply Forall_app; split; [eapply Forall_impl; [done|simpl; lia]|].
    constructor; [lia|done].
  - rewrite Hr1. intros Hnil. apply (f_equal length) in Hnil. rewrite length_insert in Hnil.
    by destruct (references s).
  - rewrite Hr1. apply Forall_insert; [eapply Forall_impl; [done|simpl; lia]|].
    rewrite Forall_lookup in Hrefs. apply Hrefs in Hw. simpl in *. lia.
Qed.

Lemma drained_skip la r sd peer q s env' s' : r ≠ 0 → drained la q (set_env env' s) s' →
  drained la ((r, sd, peer) :: q) s s'.
Proof. intros Hr H. unfold drained, accepted in *. rewrite filter_cons_False by done. done. Qed.

Lemma drained_accept la sd peer q s s1 s2 k :
  references s1 = references s → next_conn s1 = next_conn s + 1 →
  srv s1 = set_accepting_conns (accepting_conns (srv s) ++ [next_conn s]) (srv s) →
  conn_heap s1 = <[next_conn s := k]> (conn_heap s) →
  cs k = Some sd → c_state k = STATE_ACCEPTING → local_addr k = la →
  ∀ s0, Zsum (references s) = Zsum (references s0) + 1 → next_conn s0 = next_conn s → srv s0 = srv s →
  conn_heap s0 = conn_heap s →
  drained la q s1 s2 → drained la ((0, sd, peer) :: q) s0 s2.
Proof.
  intros Er En Es Eh Hcs Hst Hla s0 Er0 En0 Es0 Eh0 (Hq&Hz&Hs&Hh&Hf). unfold drained, accepted in *.
  rewrite filter_cons_True by done. csimpl. set (n := length _) in *.
  assert (seqZ (next_conn s0) (Z.of_nat (S n)) = next_conn s0 :: seqZ (next_conn s0 + 1) (Z.of_nat n)) as ->.
  { rewrite seqZ_cons by lia. do 2 f_equal; lia. }
  rewrite En, Es, Eh, Er in *. split_and!.
  - done.
  - lia.
  - rewrite Hs, Es0, En0. simpl. by rewrite <-app_assoc.
  - intros c Hc. rewrite Hh, lookup_insert_ne, Eh0 by lia. done.
  - rewrite En0. constructor; [|done]. exists k. by rewrite Hh, lookup_insert_eq by lia.
Qed.

Lemma accept_loop_drains i fd la q : ∀ s e, accept_ready i fd la q s →
  0 ≤ e → e + Z.of_nat (length q) ≤ ac_max_accept_failures cfg < 4294967296 →
  ∃ s', Processor.accept_loop cfg Server.accept (S (length q)) i e s = Ret (tt, s') ∧ drained la q s s'.
Proof.
  induction q as [|[[r sd] peer] q IH]; intros s e Hrdy He Hmax;
    pose proof Hrdy as (Hq&Hlock&Hproc&Hacc&Hne&Hrefs&Hgood);
    [destruct (accept_round_eq Server.accept 0 i fd la [] s e Hrdy) as (w&r0&env'&Hw&Hq'&E)
    |destruct (accept_round_eq Server.accept (S (length q)) i fd la _ s e Hrdy) as (w&r0&env'&Hw&Hq'&E)];
    assert (is_u32 r0) by (rewrite Forall_lookup in Hrefs; apply Hrefs in Hw; unfold is_u32, Stack.INT_MAX in *; lia);
    cbn zeta iota in E; simpl length; rewrite E; clear E.
  - change (- EAGAIN =? 0) with false. cbn iota. rewrite (bind_run _ _ _ _ _ (drop_reference_eq w r0 s env' Hw ltac:(done))).
    exists (set_env env' s). split; [done|]. unfold drained, accepted. simpl. split_and!; try done; [lia|].
    rewrite app_nil_r. by destruct (srv s).
  - simpl in Hq'. destruct (Z.eqb_spec r 0) as [->|Hr].
    + apply Forall_cons in Hgood as [[_ Hsd] Hgood]. specialize (Hsd eq_refl). simpl in Hsd, Hmax.
      set (s0 := set_env env' (set_references (<[w := r0 + 1]> (references s)) s)).
      destruct (server_accept_ok (Z.of_nat w) sd la peer s0) as (s1&k&Ea&Hq1&Hr1&Hn1&Hs1&Hh1&Hcs&Hst&Hla&_); [done..| |].
      { simpl. intros Hin. rewrite Forall_forall in Hacc. apply Hacc in Hin. lia. }
      rewrite (bind_run _ _ _ _ _ Ea). simpl in *.
      assert (Zsum (<[w := r0 + 1]> (references s)) = Zsum (references s) + 1) as HZ.
      { rewrite (Zsum_insert _ _ r0) by done. lia. }
      destruct (IH s1 0) as (s2&E2&H2); [|lia|lia|].
      { eapply (accept_ready_next _ _ _ _ _ s w r0 s1); first [done|congruence]. }
      rewrite E2. exists s2. split; [done|]. by eapply (drained_accept la sd peer q s0 s1 s2 k).
    + rewrite (bind_run _ _ _ _ _ (drop_reference_eq w r0 s env' Hw ltac:(done))).
      apply Forall_cons in Hgood as [[Hag _] _]. simpl in Hag.
      pose proof (accept_ready_tail _ _ _ _ _ _ _ Hrdy Hq') as Hrdy'. simpl in Hmax.
      destruct (IH (set_env env' s) e Hrdy' He ltac:(lia)) as (s'&E1&H1).
      rewrite (proj2 (Z.eqb_neq r (- EAGAIN))) by done. cbv zeta.
      destruct (IH (set_env env' s) (u32 (e + 1)) Hrdy') as (s''&E2&H2); [|rewrite u32_small; [lia|unfold is_u32;lia]|].
      { pose proof (u32_range (e + 1)). unfold is_u32 in *. lia. }
      destruct (Z.ltb_spec (ac_max_accept_failures cfg) (u32 (e + 1))).
      { rewrite u32_small in * by (unfold is_u32; lia). lia. }
      repeat case_match; eexists; (split; [done|]); by eapply drained_skip.
Qed.

(** C18: When the listening socket becomes readable, [Processor::accept]
    returns once the queue is empty: every connection in it has become a
    [Connection] that is accepting on its descriptor and has joined the
    server's set, in order; the workers hold one more reference per connection
    accepted and none for the failed attempts. The fuel needed is one more
    than the length of the queue. *)
Theorem accept_drains i fd la q s : accept_ready i fd la q s →
  Z.of_nat (length q) ≤ ac_max_accept_failures cfg < 4294967296 →
  ∃ s', Processor.accept cfg Server.accept (S (length q)) i s = Ret (tt, s') ∧ drained la q s s'.
Proof.
  intros Hrdy Hmax. destruct (accept_loop_drains i fd la q s 0 Hrdy) as (s'&E&Hd); [lia..|].
  exists s'. split; [|done]. destruct Hrdy as (_&_&(p&Hp&Hls)&_).
  unfold Processor.accept, Server.get_processor. run_step. rewrite Hp. simpl. rewrite Hls. simpl. done.
Qed.
End accept_facts.

(** A transport with two connections to accept, one attempt failing between *)
Definition busy : Type := list (Z * Z * entity_addr_t).
Definition busy_call (c : tcall) (q : busy) : answer c * busy :=
  match c return answer c * busy with
  | t_accept _ _ _ => (match q with [] => (- EAGAIN, 0, addr0) | a :: _ => a end, tail q)
  | c => ((calm_call c []).1, q)
  end.
#[global] Instance busy_transport : Transport busy := busy_call.
#[global] Instance busy_listener : Listener busy.
Proof. by refine {| queue := id |}; [done|intros [] ?]. Defined.

Definition server1 : server :=
  mkServer [] [] [mkProc 0 (Some (3, addr0)) true] 0 false None (Some (3, 4)).
Definition app_busy : app busy unit :=
  mkApp [(0, 8, addr0); (- EMFILE, 0, addr0); (0, 9, addr0)] [0; 0] ∅ 1 server1 tt.

Lemma accept_drains_witness :
  ∃ s', Processor.accept ac0 Server.accept 4 0 app_busy = Ret (tt, s') ∧
    drained addr0 [(0, 8, addr0); (- EMFILE, 0, addr0); (0, 9, addr0)] app_busy s'.
Proof.
  apply (accept_drains ac0 0 3 addr0 [(0, 8, addr0); (- EMFILE, 0, addr0); (0, 9, addr0)] app_busy);
    [|simpl; lia].
  split_and!; [done|done|by eexists|by constructor|done|..];
    repeat constructor; simpl; unfold Stack.INT_MAX, EAGAIN, EMFILE; lia.
Defined.

(** ** Binding *)

Section bind_facts.
Context {W D : Type} `{!Transport W} (cfg : app_config).
Implicit Types s : app W D.

Lemma bind_loop_fails n i p addr :
  (∀ w a o (e : W), (t_call (t_listen w a o) e).1.1 < 0) → Addr.get_port addr ≠ 0 →
  ∀ first r s, processors (srv s) !! i = Some p → r < 0 →
  ∃ r' s', Processor.bind_loop cfg n first i addr r s = Ret (r', addr, s') ∧ r' < 0 ∧ srv s' = srv s.
Proof.
  intros Hfail Hport. induction n as [|n IH]; intros first r s Hp Hr; [by eexists _, _|].
  cbn [Processor.bind_loop]. rewrite (proj2 (Z.eqb_neq _ 0)) by done.
  assert (∃ e, when (negb first) (tell (t_sleep (ac_bind_retry_delay cfg))) s = Ret (tt, set_env e s)) as [e E0].
  { destruct first; simpl; [exists (env s); by destruct s|]. unfold tell, ask, mbind, ST_bind.
    destruct (t_call _ _) as [x e]. by exists e. }
  rewrite (bind_run _ _ _ _ _ E0). rewrite (bind_run _ _ _ addr (set_env e s) eq_refl).
  unfold Server.get_processor, gets, the, ask, mbind, ST_bind. simpl. rewrite Hp. simpl.
  match goal with |- context [t_call ?c e] => pose proof (Hfail (p_worker p) addr) as Hf;
    specialize (Hf _ e : (t_call c e).1.1 < 0); destruct (t_call c e) as [[r1 fd] e1] end.
  simpl in *. rewrite (proj2 (Z.leb_gt 0 r1)), (proj2 (Z.eqb_neq r1 0)) by lia. simpl.
  by apply (IH false r1 (set_env e1 (set_env e s))).
Qed.

(** When every attempt to listen fails, [Processor::bind] does not return
    the error: it calls [abort_accept] on the listening socket that was never
    made, through a null pointer. *)
Theorem bind_failure_undefined i p addr s :
  (∀ w a o (e : W), (t_call (t_listen w a o) e).1.1 < 0) → Addr.get_port addr ≠ 0 →
  processors (srv s) !! i = Some p → listen_socket p = None →
  Processor.bind cfg i addr s = Crash Undefined.
Proof.
  intros Hfail Hport Hp Hnone. unfold Processor.bind.
  destruct (bind_loop_fails (Z.to_nat (ac_bind_retry_count cfg)) i p addr Hfail Hport true (-1) s) as (r&s'&E&Hr&Hs);
    [done|lia|].
  rewrite (bind_run _ _ _ _ _ E), (proj2 (Z.ltb_lt r 0)) by done.
  unfold Processor.abort_accept, Server.get_processor, gets, the, mbind, ST_bind. simpl.
  rewrite Hs, Hp. simpl. by rewrite Hnone.
Qed.

(** When the stack is not ready, [Server::bind] reports success and leaves the
    server locked: the next connection waits for ever. *)
Theorem bind_not_ready_blocks addr w fd la peer s s' r :
  (t_call t_is_ready (env s)).1 = 0 → sv_lock (srv s) = false →
  Server_bind cfg addr s = Ret (r, s') → r = 0 ∧ Server.accept w fd la peer s' = Crash Blocked.
Proof.
  intros Hr Hl. unfold Server_bind, Server.lock, gets, on_srv, modify, ask, mbind, ST_bind. simpl. rewrite Hl. simpl.
  destruct (t_call t_is_ready (env s)) as [x e]. simpl in Hr. subst x. intros [= <- <-]. split; [done|].
  unfold Server.accept, Server.lock, gets, mbind, ST_bind. done.
Qed.

End bind_facts.

(** A transport on which nothing can be bound *)
Definition refusing_call (c : tcall) (u : unit) : answer c * unit :=
  match c return answer c * unit with t_listen _ _ _ => (-98, 0, u) | c => ((calm_call c []).1, u) end.
Definition refusing_transport : Transport unit := refusing_call.
Definition bind_addr0 : entity_addr_t :=
  mkAddr TYPE_SERVER 0 (le16 AF_INET ++ be16 5150 ++ replicate 24 0) (replicate 20 0).
Definition app_refused : app unit unit := mkApp tt [0] ∅ 1 (Server.create 1 0) tt.

Lemma bind_failure_undefined_witness :
  Processor.bind (Transport0 := refusing_transport) ac0 0 bind_addr0 app_refused = Crash Undefined.
Proof.
  apply (bind_failure_undefined (Transport0 := refusing_transport) ac0 0 (mkProc 0 None false)); try done.
Defined.

(** ** Sending through the server *)

Lemma eqb_wf a b : wf_addr a → wf_addr b → Addr.eqb a b = true ↔ a = b.
Proof.
  intros Ha Hb. unfold Addr.eqb. split; [|intros ->; by rewrite memcmp_refl].
  destruct (Addr.memcmp _ _) eqn:E; try done. intros _. apply raw_inj; [done..|]. apply memcmp_eq in E; [done|]. by rewrite !raw_length.
Qed.

Lemma map_find_store a b c l : wf_addr a → wf_addr b → Forall (λ x, wf_addr x.1) l →
  map_find b (map_store a c l) = if Addr.eqb a b then Some c else map_find b l.
Proof.
  intros Ha Hb Hl. induction Hl as [|[a' c'] l Ha' _ IH]; simpl; [done|]. simpl in Ha'. destruct (Addr.eqb a' a) eqn:E; simpl.
  - apply (eqb_wf _ _ Ha' Ha) in E as ->. by destruct (Addr.eqb a b).
  - destruct (Addr.eqb a' b) eqn:E'; [|done]. apply (eqb_wf _ _ Ha' Hb) in E' as ->. destruct (Addr.eqb a b) eqn:E2; [|done].
    apply (eqb_wf _ _ Ha Hb) in E2 as ->. rewrite (proj2 (eqb_wf b b Hb Hb)) in E; done.
Qed.

Section send_facts.
Context {W D : Type} `{!Transport W} (cfg : app_config).
Implicit Types s : app W D.

Lemma create_connect_stores addr s :
  wlp (Server.create_connect addr) (λ c s', conns (srv s') = map_store addr c (conns (srv s)) ∧ is_Some (conn_heap s' !! c)) s.
Proof.
  wlp_auto; repeat match goal with H : _ |- _ => progress simpl in H end; simpl; (split; [done|]); simplify_map_eq; eauto.
Qed.

(** [create_connect] makes the connection the one that [send] finds at its
    address and leaves the other addresses alone; from then on [send] hands
    the buffers to that connection's socket, and is undefined while it has
    none. *)
Theorem server_sends_to_peer addr s c s' :
  wf_addr addr → Forall (λ x, wf_addr x.1) (conns (srv s)) → Server.create_connect addr s = Ret (c, s') →
  map_find addr (conns (srv s')) = Some c ∧
  (∀ a, wf_addr a → a ≠ addr → map_find a (conns (srv s')) = map_find a (conns (srv s))) ∧
  ∀ (t : app W D) k bl, conns (srv t) = conns (srv s') → conn_heap t !! c = Some k →
    Server_send addr bl t =
      match cs k with
      | Some fd => Ret ((t_call (t_send fd bl false) (env t)).1, set_env (t_call (t_send fd bl false) (env t)).2 t)
      | None => Crash Undefined
      end.
Proof.
  intros Ha Hl Hc. destruct (wlp_elim _ _ _ _ _ (create_connect_stores addr s) Hc) as [E _].
  assert (map_find addr (conns (srv s')) = Some c) as Hf by (rewrite E, map_find_store by done; by rewrite (proj2 (eqb_wf addr addr Ha Ha))).
  split_and!; [done| |].
  - intros a Hwa Hne. rewrite E, map_find_store by done. destruct (Addr.eqb addr a) eqn:Ea; [|done]. by apply eqb_wf in Ea.
  - intros t k bl Ht Hk. unfold Server_send, conn_at, Connection.Send, get_conn, ask, the, gets, mbind, ST_bind. simpl.
    rewrite Ht, Hf. simpl. rewrite Hk. simpl. destruct (cs k) as [fd|]; simpl; [|done]. by destruct (t_call _ _).
Qed.

End send_facts.

Lemma server_sends_to_peer_witness :
  ∃ c s', Server.create_connect bind_addr0 app0 = Ret (c, s') ∧ map_find bind_addr0 (conns (srv s')) = Some c.
Proof.
  eexists _, _. split; [vm_compute; reflexivity|]. apply (server_sends_to_peer bind_addr0 app0).
  - split_and!; [by vm_compute..|]. by repeat constructor.
  - constructor.
  - by vm_compute.
Defined.

(** A peer whose connection was accepted is in no map that [send] looks at. *)
Lemma accepted_peer_unreachable {W D} `{!Transport W} addr bl (s : app W D) : map_find addr (conns (srv s)) = None → Server_send addr bl s = Crash Undefined.
Proof. intros H. unfold Server_send, conn_at, gets, mbind, ST_bind. simpl. by rewrite H. Qed.
