(* ===== verification/Multicast.v ===== *)
(** * The multicast daemon and the switch's control plane
      (src/multicast/multicast.h and .cc, src/controller/mc_control_plane.h and .cc)

    A client sends the daemon its handshake message with the addresses of the
    two members of a group. The daemon connects to both members, passes the
    client's meta data on to each, answers each reply with an acknowledgement,
    and when both are served writes the group into the switch and answers the
    client in the members' place.

    The handlers of different connections run in the threads of different
    workers. What a handler does under [data_lock] is one step. The branch
    that takes a client's acknowledgement holds no such lock: it is two steps,
    [client_message] and [client_ack_state], which other handlers may come
    between, also while one of them holds the lock and has written the answer
    but not yet recorded it. *)

From S2P Require Import Prelude State Addr Machine Memory Wire QueuePair Net Socket Connection Server.

Definition kNumMulticasts : nat := 2.

(** ** The control plane of the switch *)

Module SwitchTableWritter.
Section switch_ops.
Context {W D : Type} `{!Transport W}.
Abbreviation A := (ST (app W D)).

Definition MULTICAST_ID_MAX_NUM : nat := 1024.

(** The common part of the table functions: make sure of the interpreter,
    import the module and call the function. True when it was called. *)
Definition call_python (fn : string) (args : list Z) : A bool :=
  i ← ask Py_IsInitialized;
  when (i =? 0) (tell Py_Initialize) ;;
  i ← ask Py_IsInitialized;
  if i =? 0 then mret false else
  m ← ask (PyImport_ImportModule "control_plane_funcs");
  if m =? 0 then mret false else
  tell (PyEval_CallObject fn args) ;; mret true.

Definition multicast_group_add3 (src_addr dqp_num sqp_num dst_addr1 dqp1 dst_addr2 dqp2 dst_addr3 dqp3 : Z) : A Z :=
  let mcg_id := dqp_num in
  if mcg_id =? 2 then mret (u32 (-1)) else
  call_python "multicast_group_table_add"
    [mcg_id; src_addr; dqp_num; sqp_num; dst_addr1; dqp1; dst_addr2; dqp2; dst_addr3; dqp3] ;;
  mret mcg_id.

Definition multicast_group_add (src_addr dqp_num sqp_num dst_addr1 dqp1 dst_addr2 dqp2 : Z) : A Z :=
  let mcg_id := dqp_num in
  if mcg_id =? 2 then mret (u32 (-1)) else
  call_python "multicast_group_table_2_add"
    [mcg_id; src_addr; dqp_num; sqp_num; dst_addr1; dqp1; dst_addr2; dqp2] ;;
  mret mcg_id.

Definition multicast_group_del3 (mcg_id src_addr dqp_num sqp_num dst_addr1 dst_addr2 dst_addr3 : Z) : A Z :=
  b ← call_python "multicast_group_table_del"
    [mcg_id; src_addr; dqp_num; sqp_num; dst_addr1; dst_addr2; dst_addr3];
  mret (if b : bool then 0 else -1).

Definition multicast_group_del (mcg_id src_addr dqp_num sqp_num dst_addr1 dst_addr2 : Z) : A Z :=
  b ← call_python "multicast_group_table_2_del"
    [mcg_id; src_addr; dqp_num; sqp_num; dst_addr1; dst_addr2];
  mret (if b : bool then 0 else -1).

(** [init_switch_table]: the result and the cleared table [mcg_id_used] *)
Definition init_switch_table : A (Z * list Z) :=
  tell Py_Initialize ;;
  tell (PyRun_SimpleString "print('python init')") ;;
  tell (PyRun_SimpleString "import sys") ;;
  tell (PyRun_SimpleString "sys.path.append('./')") ;;
  i ← ask Py_IsInitialized;
  let ids := replicate MULTICAST_ID_MAX_NUM 0 in
  if i =? 0 then mret (-1, ids) else
  m ← ask (PyImport_ImportModule "control_plane_funcs");
  if m =? 0 then mret (-1, ids) else
  tell (PyEval_CallObject "table_init" []) ;; mret (0, ids).

End switch_ops.

(** The table of group numbers, [mcg_id_used] *)

Fixpoint first_free (i : nat) (l : list Z) : option nat :=
  match l with [] => None | x :: l => if x =? 0 then Some i else first_free (S i) l end.

Definition allocate_multicast_group_id (used : list Z) : Z * list Z :=
  match first_free 11 (drop 11 used) with
  | Some i => (Z.of_nat i, <[i := 1]> used)
  | None => (-1, used)
  end.

Definition free_multicast_group_id (mcg_id : Z) (used : list Z) : outcome (list Z) :=
  if (0 <=? mcg_id) && (Z.to_nat mcg_id <? length used)%nat
  then Ret (<[Z.to_nat mcg_id := 0]> used) else Crash Undefined.

End SwitchTableWritter.

(** ** State of the daemon *)

Inductive client_state :=
| CLIENT_INIT | CLIENT_HANDSHAKE_RECEIVED | CLIENT_HANDSHAKE_SENT | CLIENT_ACK_RECEIVED | CLIENT_ERROR.
Inductive server_state :=
| SERVER_INIT | SERVER_CONNECTED | SERVER_HANDSHAKE_SENT | SERVER_HANDSHAKE_ACK_SENT | SERVER_ERROR.

#[global] Instance client_state_eq_dec : EqDecision client_state.
Proof. solve_decision. Defined.
#[global] Instance server_state_eq_dec : EqDecision server_state.
Proof. solve_decision. Defined.

Record MCState := mkMC { cl_state : client_state; sv_state : list server_state }.
Definition MCState_create : MCState := mkMC CLIENT_INIT (replicate kNumMulticasts SERVER_INIT).

Definition set_cl_state (v : client_state) (m : MCState) : MCState := mkMC v (sv_state m).
Definition set_sv_state (i : nat) (v : server_state) (m : MCState) : MCState :=
  mkMC (cl_state m) (<[i := v]> (sv_state m)).

(** What one side of the group has told about itself: lid, local_qpn, psn,
    peer_qpn and gid of [multicast_cm_meta_t] *)
Record peer_meta := mkPM { pm_lid : Z; pm_local_qpn : Z; pm_psn : Z; pm_peer_qpn : Z; pm_gid : list Z }.
Definition peer_meta0 : peer_meta := mkPM 0 0 0 0 (replicate 16 0).

Record multicast_cm_meta_t := mkMeta { sender : peer_meta; receiver : list peer_meta }.
Definition meta0 : multicast_cm_meta_t := mkMeta peer_meta0 (replicate kNumMulticasts peer_meta0).

Definition set_sender (v : peer_meta) (m : multicast_cm_meta_t) : multicast_cm_meta_t := mkMeta v (receiver m).
Definition set_receiver (i : nat) (v : peer_meta) (m : multicast_cm_meta_t) : multicast_cm_meta_t :=
  mkMeta (sender m) (<[i := v]> (receiver m)).

(** Connections are addresses, 0 the null pointer: the client's and the
    members'. *)
Record daemon := mkDaemon {
  m_mc_id : Z;
  multicast_cm_meta : gmap Z multicast_cm_meta_t;
  multicast_state : gmap Z MCState;
  multicast_connections : gmap Z (list Z);
  multicast_addrs : gmap Z (list entity_addr_t);
}.

Definition set_m_mc_id (v : Z) (d : daemon) : daemon :=
  mkDaemon v (multicast_cm_meta d) (multicast_state d) (multicast_connections d) (multicast_addrs d).
Definition set_metas (v : gmap Z multicast_cm_meta_t) (d : daemon) : daemon :=
  mkDaemon (m_mc_id d) v (multicast_state d) (multicast_connections d) (multicast_addrs d).
Definition set_states (v : gmap Z MCState) (d : daemon) : daemon :=
  mkDaemon (m_mc_id d) (multicast_cm_meta d) v (multicast_connections d) (multicast_addrs d).
Definition set_connections (v : gmap Z (list Z)) (d : daemon) : daemon :=
  mkDaemon (m_mc_id d) (multicast_cm_meta d) (multicast_state d) v (multicast_addrs d).
Definition set_maddrs (v : gmap Z (list entity_addr_t)) (d : daemon) : daemon :=
  mkDaemon (m_mc_id d) (multicast_cm_meta d) (multicast_state d) (multicast_connections d) v.

(** The four callbacks, as the addresses connections hold *)
Definition mc_client_conn_read_callback : Z := 1.
Definition mc_client_conn_write_callback : Z := 2.
Definition mc_server_conn_read_callback : Z := 3.
Definition mc_server_conn_write_callback : Z := 4.

(** [inet_ntoa]: the four bytes in decimal, separated by dots *)
Definition dec_byte (b : Z) : list Z :=
  if b <? 10 then [48 + b] else
  if b <? 100 then [48 + b / 10; 48 + b mod 10] else [48 + b / 100; 48 + b / 10 mod 10; 48 + b mod 10].
Definition inet_ntoa (bytes : list Z) : list Z :=
  match dec_byte <$> bytes with
  | [a; b; c; d] => a ++ 46 :: b ++ 46 :: c ++ 46 :: d
  | _ => []
  end.

(** [htonl(a.in4_addr().sin_addr.s_addr)] *)
Definition host_order_ip (a : entity_addr_t) : Z := be32 (slice 4 4 (a_u a)).

Module MulticastDaemon.
Section daemon_ops.
Context {W : Type} `{!Transport W}.
Abbreviation A := (ST (app W daemon)).

(** The constructor's choice of the first group number: 32-bit arithmetic *)
Definition first_mc_id (s_addr rand : Z) : Z := u32 (u32 (s_addr * 4096) + rand) mod 10000.
Definition create (s_addr : Z) : A unit :=
  r ← ask t_rand; on_data (set_m_mc_id (first_mc_id s_addr r)) ;;
  r ← ask t_rand; on_data (set_m_mc_id (first_mc_id s_addr r)).

Definition accept (w : Z) (cli_socket : option Z) (listen_addr peer : entity_addr_t) : A unit :=
  Server.lock ;;
  c ← Connection.create w;
  Connection.accept c cli_socket listen_addr peer ;;
  on_srv (λ v, set_accepting_conns (set_add c (accepting_conns v)) v) ;;
  on_conn c (set_callbacks mc_client_conn_read_callback mc_client_conn_write_callback) ;;
  Server.unlock.

(** *** The maps: [operator[]] makes the entry it does not find. *)

Definition state_of (id : Z) : A MCState :=
  d ← gets data;
  match multicast_state d !! id with
  | Some m => mret m
  | None => on_data (λ d, set_states (<[id := MCState_create]> (multicast_state d)) d) ;; mret MCState_create
  end.
Definition meta_of (id : Z) : A multicast_cm_meta_t :=
  d ← gets data;
  match multicast_cm_meta d !! id with
  | Some m => mret m
  | None => on_data (λ d, set_metas (<[id := meta0]> (multicast_cm_meta d)) d) ;; mret meta0
  end.
Definition put_state (id : Z) (m : MCState) : A unit :=
  on_data (λ d, set_states (<[id := m]> (multicast_state d)) d).
Definition put_meta (id : Z) (m : multicast_cm_meta_t) : A unit :=
  on_data (λ d, set_metas (<[id := m]> (multicast_cm_meta d)) d).

Definition addrs_of (id : Z) : A (list entity_addr_t) :=
  d ← gets data;
  match multicast_addrs d !! id with
  | Some l => mret l
  | None =>
    let l := replicate kNumMulticasts (Addr.create addr0) in
    on_data (λ d, set_maddrs (<[id := l]> (multicast_addrs d)) d) ;; mret l
  end.
Definition connections_of (id : Z) : A (list Z) :=
  d ← gets data;
  match multicast_connections d !! id with
  | Some l => mret l
  | None =>
    let l := replicate (S kNumMulticasts) 0 in
    on_data (λ d, set_connections (<[id := l]> (multicast_connections d)) d) ;; mret l
  end.

(** The index of a member's connection, 2 when it is not one of the group's *)
Definition get_mc_index (id c : Z) : A nat :=
  d ← gets data;
  match multicast_connections d !! id with
  | None => fail KAbort
  | Some l =>
    mret (if bool_decide (l !! 1%nat = Some c) then 0 else if bool_decide (l !! 2%nat = Some c) then 1 else 2)%nat
  end.

(** *** Reading a message

    Every [Read] stores at the start of [msg]; a result other than an error
    different from EAGAIN is added to [read_size], a [uint32_t]. [conv] is the
    type of [read_bytes]: int for a client, ssize_t for a member. *)
Fixpoint read_loop (conv : Z → Z) (fuel : nat) (c : Z) (msg : list Z) (read_size : Z) : A (list Z) :=
  if read_size <? TCP_MSG_LEN then
    match fuel with
    | O => fail NoFuel
    | S fuel =>
      '(r, bytes) ← Connection.Read c (TCP_MSG_LEN - read_size);
      let read_bytes := conv r in
      let msg := bytes ++ drop (length bytes) msg in
      if (read_bytes <? 0) && negb (read_bytes =? - EAGAIN) then read_loop conv fuel c msg read_size
      else read_loop conv fuel c msg (u32 (read_size + read_bytes))
    end
  else mret msg.

Definition read_message (conv : Z → Z) (fuel : nat) (c : Z) : A (list Z) :=
  msg ← ask (t_junk (Z.to_nat TCP_MSG_LEN)); read_loop conv fuel c msg 0.

Definition meta_of_msg (x : cm_msg) : peer_meta :=
  mkPM (f_lid x) (f_local_qpn x) (f_psn x) (f_peer_qpn x) (f_gid x).

(** *** Writing a message, with at most three more attempts *)
Fixpoint write_retry (retries : nat) (c : Z) (msg : list Z) : A Z :=
  '(r, e) ← Connection.write c msg;
  if (r <? 0) && ((e =? EINTR) || (e =? EAGAIN)) then
    match retries with S n => write_retry n c msg | O => mret r end
  else mret r.

(** The messages: what goes to a member, and to the client *)
Definition server_msg (m : multicast_cm_meta_t) (i : nat) : cm_msg :=
  let s := sender m in
  mkMsg (pm_lid s) (pm_local_qpn s) (pm_psn s) (pm_local_qpn (default peer_meta0 (receiver m !! i)))
    (pm_local_qpn s) (pm_lid s) (pm_local_qpn s) (pm_lid s) (pm_gid s).
Definition client_msg (id : Z) (m : multicast_cm_meta_t) : cm_msg :=
  let s := sender m in
  let lid := pm_lid (default peer_meta0 (receiver m !! 0%nat)) in
  mkMsg lid id (pm_psn s) (pm_local_qpn s) (pm_psn s) lid (pm_psn s) lid
    (pm_gid (default peer_meta0 (receiver m !! 1%nat))).

Definition send_handshake_to_server (id : Z) (i : nat) : A unit :=
  l ← connections_of id;
  c ← the (l !! S i);
  st ← state_of id;
  m ← meta_of id;
  x ← the (sv_state st !! i);
  assert (bool_decide (x = SERVER_CONNECTED) || bool_decide (x = SERVER_HANDSHAKE_SENT)) ;;
  r ← write_retry 3 c (msg_buffer (print_mc (server_msg m i)) []);
  if r =? TCP_MSG_LEN then mret tt else
  st ← state_of id;
  put_state id (set_sv_state i SERVER_ERROR st) ;; fail KAbort.

(** The answer to the client, true when it was written *)
Definition answer_client (c id : Z) : A bool :=
  st ← state_of id;
  m ← meta_of id;
  if negb (bool_decide (cl_state st = CLIENT_HANDSHAKE_RECEIVED)) then mret false else
  if negb (bool_decide (sv_state st = replicate kNumMulticasts SERVER_HANDSHAKE_ACK_SENT)) then mret false else
  k ← get_conn c;
  addrs ← addrs_of id;
  a0 ← the (addrs !! 0%nat);
  a1 ← the (addrs !! 1%nat);
  SwitchTableWritter.multicast_group_add (host_order_ip (peer_addr k)) id (pm_local_qpn (sender m))
    (host_order_ip a0) (pm_local_qpn (default peer_meta0 (receiver m !! 0%nat)))
    (host_order_ip a1) (pm_local_qpn (default peer_meta0 (receiver m !! 1%nat))) ;;
  r ← write_retry 3 c (msg_buffer (print_mc (client_msg id m)) []);
  if r =? TCP_MSG_LEN then mret true else
  st ← state_of id;
  put_state id (set_cl_state CLIENT_ERROR st) ;; fail KAbort.

Definition client_sent (id : Z) : A unit :=
  st ← state_of id;
  put_state id (set_cl_state CLIENT_HANDSHAKE_SENT st).

Definition check_and_send_handshake_to_client (c id : Z) : A unit :=
  b ← answer_client c id;
  when b (client_sent id).

(** *** The client's side *)

(** [strcpy(a.ip_char, inet_ntoa(ip)); a.set_addr(a.ip_char, port)] on a fresh
    address: [inet_pton] reads back what [inet_ntoa] printed. *)
Definition member_addr (ip port : Z) (char_junk sin_junk : list Z) : entity_addr_t :=
  let text := inet_ntoa (le32 ip) ++ [0] in
  Addr.set_addr (Some (le32 ip)) port sin_junk
    (mkAddr TYPE_SERVER 0 zero_u (text ++ drop (length text) char_junk)).

(** One round of the loop that connects to the members *)
Definition connect_member (id : Z) (i : nat) : A unit :=
  addrs ← addrs_of id;
  target ← the (addrs !! i);
  w ← Stack.get_worker;
  n ← Connection.create w;
  on_conn n (set_callbacks mc_server_conn_read_callback mc_server_conn_write_callback) ;;
  Connection.connect n target ;;
  on_srv (λ v, set_conns (map_store target n (conns v)) v) ;;
  on_conn n (set_mc_id id) ;;
  l ← connections_of id;
  on_data (λ d, set_connections (<[id := <[S i := n]> l]> (multicast_connections d)) d).

(** A client's first message *)
Definition new_group (c : Z) (msg : list Z) : A unit :=
  d ← gets data;
  let id := m_mc_id d in
  on_data (set_m_mc_id (u32 (id + 1))) ;;
  on_conn c (set_mc_id id) ;;
  on_data (λ d, set_connections (<[id := [c; 0; 0]]> (multicast_connections d)) d) ;;
  put_state id MCState_create ;;
  d ← gets data;
  assert (bool_decide (multicast_cm_meta d !! id = None)) ;;
  put_meta id meta0 ;;
  x ← lift (parse_cm msg);
  c1 ← ask (t_junk 20);
  c2 ← ask (t_junk 20);
  s1 ← ask (t_junk 16);
  s2 ← ask (t_junk 16);
  on_data (λ d, set_maddrs (<[id := [member_addr (f_ip1 x) (f_port1 x) c1 s1;
                                     member_addr (f_ip2 x) (f_port2 x) c2 s2]]> (multicast_addrs d)) d) ;;
  put_meta id (set_sender (meta_of_msg x) meta0) ;;
  put_state id (set_cl_state CLIENT_HANDSHAKE_RECEIVED MCState_create) ;;
  for_each (seq 0 kNumMulticasts) (connect_member id).

(** A client's acknowledgement: it is scanned into the meta data, and then
    the state is checked and moved on. *)
Definition client_ack_meta (id : Z) (msg : list Z) : A unit :=
  state_of id ;;
  m ← meta_of id;
  x ← lift (parse_cm msg);
  put_meta id (set_sender (meta_of_msg x) m).
Definition client_ack_state (id : Z) : A unit :=
  st ← state_of id;
  m ← meta_of id;
  assert (bool_decide (cl_state st = CLIENT_HANDSHAKE_SENT)) ;;
  assert (pm_peer_qpn (sender m) =? id) ;;
  put_state id (set_cl_state CLIENT_ACK_RECEIVED st).

(** A client's message, and the group whose acknowledgement it is *)
Definition client_message (fuel : nat) (c : Z) : A (option Z) :=
  msg ← read_message s32 fuel c;
  k ← get_conn c;
  if mc_id k =? 0 then new_group c msg ;; mret None else
  client_ack_meta (mc_id k) msg ;; mret (Some (mc_id k)).

Definition process_client_readable (fuel : nat) (c : Z) : A unit :=
  r ← client_message fuel c;
  match r with Some id => client_ack_state id | None => mret tt end.

(** *** The members' side *)

Definition process_server_readable (fuel : nat) (c : Z) : A unit :=
  msg ← read_message id fuel c;
  k ← get_conn c;
  let id := mc_id k in
  state_of id ;;
  i ← get_mc_index id c;
  m ← meta_of id;
  x ← lift (parse_cm msg);
  the (receiver m !! i) ;;
  put_meta id (set_receiver i (meta_of_msg x) m) ;;
  st ← state_of id;
  v ← the (sv_state st !! i);
  match v with
  | SERVER_INIT => mret tt
  | SERVER_HANDSHAKE_SENT =>
    send_handshake_to_server id i ;;
    st ← state_of id;
    put_state id (set_sv_state i SERVER_HANDSHAKE_ACK_SENT st) ;;
    l ← connections_of id;
    cl ← the (l !! 0%nat);
    check_and_send_handshake_to_client cl id
  | _ => fail KAbort
  end.

(** The same up to the answer: the group whose answer has still to be recorded *)
Definition member_message (fuel : nat) (c : Z) : A (option Z) :=
  msg ← read_message id fuel c;
  k ← get_conn c;
  let id := mc_id k in
  state_of id ;;
  i ← get_mc_index id c;
  m ← meta_of id;
  x ← lift (parse_cm msg);
  the (receiver m !! i) ;;
  put_meta id (set_receiver i (meta_of_msg x) m) ;;
  st ← state_of id;
  v ← the (sv_state st !! i);
  match v with
  | SERVER_INIT => mret None
  | SERVER_HANDSHAKE_SENT =>
    send_handshake_to_server id i ;;
    st ← state_of id;
    put_state id (set_sv_state i SERVER_HANDSHAKE_ACK_SENT st) ;;
    l ← connections_of id;
    cl ← the (l !! 0%nat);
    b ← answer_client cl id;
    mret (if b : bool then Some id else None)
  | _ => fail KAbort
  end.

Definition process_client_writeable (c : Z) : A unit := mret tt.

Definition process_server_writeable (c : Z) : A unit :=
  k ← get_conn c;
  let id := mc_id k in
  state_of id ;;
  i ← get_mc_index id c;
  meta_of id ;;
  st ← state_of id;
  the (sv_state st !! i) ;;
  put_state id (set_sv_state i SERVER_CONNECTED st) ;;
  if bool_decide (cl_state st = CLIENT_HANDSHAKE_RECEIVED) then
    send_handshake_to_server id i ;;
    st ← state_of id;
    put_state id (set_sv_state i SERVER_HANDSHAKE_SENT st)
  else mret tt.

(** The [std::function] at an address, as [std::bind] made it *)
Definition invoke (fuel : nat) (f c : Z) : A unit :=
  if f =? mc_client_conn_read_callback then process_client_readable fuel c else
  if f =? mc_client_conn_write_callback then process_client_writeable c else
  if f =? mc_server_conn_read_callback then process_server_readable fuel c else
  if f =? mc_server_conn_write_callback then process_server_writeable c else fail Undefined.

End daemon_ops.
End MulticastDaemon.

(** ** No client is answered before its group is in place *)

Section quietness.
Context {W : Type} `{!Transport W, !Recorded W}.
Implicit Types s : app W daemon.

(** The three maps that make up the groups *)
Definition groups (d : daemon) := (multicast_state d, multicast_cm_meta d, multicast_connections d).

(** The groups are as they were and no call made is forgotten. *)
Definition mono s s' : Prop :=
  groups (data s') = groups (data s) ∧ trace (env s) `prefix_of` trace (env s').

Lemma mono_refl s : mono s s.
Proof. done. Qed.
Lemma mono_trans s1 s2 s3 : mono s1 s2 → mono s2 s3 → mono s1 s3.
Proof. intros [E1 T1] [E2 T2]. split; [congruence|by etrans]. Qed.

(** [quiet x]: [x] only makes calls and works on connections. *)
Definition quiet {B} (x : ST (app W daemon) B) : Prop := ∀ s, wlp x (λ _, mono s) s.

Lemma quiet_ret {B} (b : B) : quiet (mret b).
Proof. intros s. apply mono_refl. Qed.
Lemma quiet_fail {B} c : quiet (fail (A := B) c).
Proof. by intros s. Qed.
Lemma quiet_bind {B C} (x : ST (app W daemon) B) (k : B → ST (app W daemon) C) :
  quiet x → (∀ b, quiet (k b)) → quiet (x ≫= k).
Proof.
  intros Hx Hk s. apply wlp_bind. eapply wlp_mono; [apply Hx|]. intros b s1 H1.
  eapply wlp_mono; [apply Hk|]. intros c s2 H2. by apply (mono_trans s s1).
Qed.
(** Step over a quiet operation, keeping what it leaves of [s0]. *)
Lemma wlp_quiet_bind {B C} (x : ST (app W daemon) B) (k : B → ST (app W daemon) C) Q s0 s :
  mono s0 s → quiet x → (∀ b s', mono s0 s' → wlp (k b) Q s') → wlp (x ≫= k) Q s.
Proof.
  intros Hs Hx Hk. apply wlp_bind. eapply wlp_mono; [apply Hx|]. intros b s1 H1. apply Hk.
  by apply (mono_trans _ s).
Qed.
Lemma quiet_gets {B} (f : app W daemon → B) : quiet (gets f).
Proof. intros s. apply mono_refl. Qed.
Lemma quiet_the {B} (o : option B) : quiet (the o).
Proof. destruct o; [apply quiet_ret|apply quiet_fail]. Qed.
Lemma quiet_assert b : quiet (assert b).
Proof. destruct b; [apply quiet_ret|apply quiet_fail]. Qed.
Lemma quiet_lift {B} (o : outcome B) : quiet (lift o).
Proof. intros s. apply wlp_lift. intros. apply mono_refl. Qed.
Lemma quiet_modify f : (∀ s, groups (data (f s)) = groups (data s) ∧ env (f s) = env s) → quiet (modify f).
Proof. intros Hf s. destruct (Hf s) as [E1 E2]. apply wlp_modify. split; [done|]. by rewrite E2. Qed.
Lemma quiet_ask c : quiet (ask c).
Proof.
  intros s. refine (wlp_ask c _ s _). intros a w E. split; [done|]. simpl.
  pose proof (trace_call c (env s)) as T. rewrite E in T. simpl in T. rewrite T. by apply prefix_app_r.
Qed.
Lemma quiet_when b x : quiet x → quiet (when b x).
Proof. destruct b; [done|intros _; apply quiet_ret]. Qed.
End quietness.

Ltac quiet_step :=
  first
  [ apply quiet_bind; [|intros]
  | apply quiet_modify; intros; by split
  | apply quiet_ret | apply quiet_fail | apply quiet_gets | apply quiet_the | apply quiet_assert
  | apply quiet_lift
  | match goal with
    | |- quiet (ask ?c) => exact (quiet_ask c)
    | |- quiet (if ?b then _ else _) => destruct b
    | |- quiet (match ?x with _ => _ end) => destruct x
    | |- quiet (when _ _) => apply quiet_when
    | |- quiet ?x => let h := head_of x in progress unfold h
    end ].
Ltac solve_quiet := intros; repeat quiet_step.

Section invariant.
Context {W : Type} `{!Transport W, !Recorded W} (cfg : app_config).
Implicit Types s : app W daemon.
Abbreviation A := (ST (app W daemon)).

Lemma process_quiet c : quiet (Connection.process cfg c : A unit).
Proof. solve_quiet. Qed.
Lemma accept_quiet w fd la peer : quiet (MulticastDaemon.accept w fd la peer : A unit).
Proof. solve_quiet. Qed.
Lemma read_loop_quiet conv fuel c : ∀ msg n, quiet (MulticastDaemon.read_loop conv fuel c msg n : A (list Z)).
Proof. induction fuel as [|fuel IH]; intros msg n; simpl; repeat first [apply IH|quiet_step]. Qed.
Lemma read_message_quiet conv fuel c : quiet (MulticastDaemon.read_message conv fuel c : A (list Z)).
Proof. apply quiet_bind; [exact (quiet_ask _)|intros]. apply read_loop_quiet. Qed.
Lemma write_retry_quiet n c msg : quiet (MulticastDaemon.write_retry n c msg : A Z).
Proof. induction n; simpl; repeat first [assumption|quiet_step]. Qed.

(** *** The invariant

    [F] holds the members' connections whose write callback has run, [lk] the
    group whose answer has been written and not yet recorded, by the handler
    that holds [data_lock]. *)

Definition served (c : client_state) : Prop := c = CLIENT_HANDSHAKE_SENT ∨ c = CLIENT_ACK_RECEIVED.

(** The group is in the switch, under the queue pairs the members told and the
    one the client told, and after that the client was answered. *)
Definition answered_after_entry (id : Z) (m : multicast_cm_meta_t) (tr : list tcall) : Prop :=
  ∃ tr1 tr2 src ip0 ip1 snd fd,
    tr = tr1 ++ PyEval_CallObject "multicast_group_table_2_add"
      [id; src; id; pm_local_qpn snd; ip0; pm_local_qpn (default peer_meta0 (receiver m !! 0%nat));
       ip1; pm_local_qpn (default peer_meta0 (receiver m !! 1%nat))] :: tr2 ∧
    t_write fd (msg_buffer (print_mc (MulticastDaemon.client_msg id (set_sender snd m))) []) ∈ tr2.

(** What an answered client can rely on *)
Definition group_ready (tr : list tcall) (id : Z) (st : MCState) (m : multicast_cm_meta_t) : Prop :=
  sv_state st = replicate kNumMulticasts SERVER_HANDSHAKE_ACK_SENT ∧ (id ≠ 2 → answered_after_entry id m tr).

Record group_ok (F : gset Z) (lk : option Z) (tr : list tcall) (id : Z) (st : MCState) (m : multicast_cm_meta_t) (l : list Z) : Prop := {
  g_states : length (sv_state st) = kNumMulticasts;
  g_receivers : length (receiver m) = kNumMulticasts;
  g_fired i v : sv_state st !! i = Some v → v ≠ SERVER_INIT → ∃ c, l !! S i = Some c ∧ c ∈ F;
  g_served : served (cl_state st) ∨ lk = Some id → group_ready tr id st m;
}.

(** A number without connections has at most the entry [operator[]] makes. *)
Definition group_inv (F : gset Z) (lk : option Z) (tr : list tcall) (d : daemon) (id : Z) : Prop :=
  match multicast_connections d !! id with
  | Some l => ∃ st m, multicast_state d !! id = Some st ∧ multicast_cm_meta d !! id = Some m ∧ group_ok F lk tr id st m l
  | None => lk ≠ Some id ∧ ∀ st, multicast_state d !! id = Some st → cl_state st = CLIENT_INIT
  end.

Definition dinv (F : gset Z) (lk : option Z) s : Prop := ∀ id, group_inv F lk (trace (env s)) (data s) id.

Lemma answered_mono id m tr tr' : tr `prefix_of` tr' → answered_after_entry id m tr → answered_after_entry id m tr'.
Proof.
  intros [k ->] (tr1&tr2&src&ip0&ip1&snd&fd&->&Hin). exists tr1, (tr2 ++ k), src, ip0, ip1, snd, fd. split; [by rewrite <-app_assoc|].
  apply elem_of_app. by left.
Qed.

Lemma ready_mono tr tr' id st m : tr `prefix_of` tr' → group_ready tr id st m → group_ready tr' id st m.
Proof. intros Htr [? Hsw]. split; [done|]. intros Hid. by apply (answered_mono _ _ tr), Hsw. Qed.

Lemma group_ok_mono F lk tr tr' id st m l : tr `prefix_of` tr' → group_ok F lk tr id st m l → group_ok F lk tr' id st m l.
Proof. intros Htr [? ? ? Hs]. split; try done. intros H. by apply (ready_mono tr), Hs. Qed.

Lemma dinv_mono F lk s s' : mono s s' → dinv F lk s → dinv F lk s'.
Proof.
  intros [E T] H id. injection E as E1 E2 E3. specialize (H id). unfold group_inv in *. rewrite E1, E2, E3.
  case_match; [|done]. destruct H as (st&m&?&?&?). exists st, m. split_and!; [done..|]. by eapply group_ok_mono.
Qed.

Lemma quiet_dinv {B} (x : A B) F lk s : quiet x → dinv F lk s → wlp x (λ _, dinv F lk) s.
Proof. intros Hx Hs. eapply wlp_mono; [apply Hx|]. intros b s' Hm. by apply (dinv_mono F lk s). Qed.

(** A step that works on one group keeps the others. *)
Lemma dinv_update F F' lk lk' s s' id st m l :
  dinv F lk s → F ⊆ F' → (lk' = lk ∨ lk' = Some id ∨ lk' = None) → trace (env s) `prefix_of` trace (env s') →
  (∀ x, x ≠ id → multicast_state (data s') !! x = multicast_state (data s) !! x ∧
    multicast_cm_meta (data s') !! x = multicast_cm_meta (data s) !! x ∧
    multicast_connections (data s') !! x = multicast_connections (data s) !! x) →
  multicast_state (data s') !! id = Some st → multicast_cm_meta (data s') !! id = Some m →
  multicast_connections (data s') !! id = Some l → group_ok F' lk' (trace (env s')) id st m l → dinv F' lk' s'.
Proof.
  intros Hinv HF Hlk Htr Hx E1 E2 E3 Hok x. unfold group_inv. destruct (decide (x = id)) as [->|Hne].
  { rewrite E3. eauto. }
  destruct (Hx x Hne) as (->&->&->). specialize (Hinv x). unfold group_inv in Hinv.
  case_match; [|split; [|apply Hinv]; destruct Hinv as [? _], Hlk as [->|[->| ->]]; congruence].
  destruct Hinv as (st'&m'&?&?&Hinv). exists st', m'. split_and!; [done..|].
  eapply group_ok_mono; [done|]. destruct Hinv as [? ? Hf Hs]. split; try done.
  - intros i v Hi Hv. destruct (Hf i v Hi Hv) as (c&?&?). exists c. set_solver.
  - intros [?|E]; apply Hs; [by left|]. right. destruct Hlk as [<-|[->| ->]]; congruence.
Qed.

(** The maps at a group that exists *)
Record group_at s (id : Z) (st : MCState) (m : multicast_cm_meta_t) (l : list Z) : Prop := {
  ga_state : multicast_state (data s) !! id = Some st;
  ga_meta : multicast_cm_meta (data s) !! id = Some m;
  ga_conns : multicast_connections (data s) !! id = Some l;
}.

Lemma group_at_inv F lk s id l : dinv F lk s → multicast_connections (data s) !! id = Some l →
  ∃ st m, group_at s id st m l ∧ group_ok F lk (trace (env s)) id st m l.
Proof. intros H E. specialize (H id). unfold group_inv in H. rewrite E in H. destruct H as (st&m&?&?&?). by exists st, m. Qed.

Lemma group_at_mono s s' id st m l : mono s s' → group_at s id st m l → group_at s' id st m l.
Proof. intros [E _] [? ? ?]. injection E as E1 E2 E3. split; congruence. Qed.

Lemma state_of_eq s id st m l : group_at s id st m l → MulticastDaemon.state_of id s = Ret (st, s).
Proof. intros [E _ _]. unfold MulticastDaemon.state_of, gets, mbind, ST_bind. simpl. by rewrite E. Qed.
Lemma meta_of_eq s id st m l : group_at s id st m l → MulticastDaemon.meta_of id s = Ret (m, s).
Proof. intros [_ E _]. unfold MulticastDaemon.meta_of, gets, mbind, ST_bind. simpl. by rewrite E. Qed.
Lemma connections_of_eq s id st m l : group_at s id st m l → MulticastDaemon.connections_of id s = Ret (l, s).
Proof. intros [_ _ E]. unfold MulticastDaemon.connections_of, gets, mbind, ST_bind. simpl. by rewrite E. Qed.

Lemma wlp_run {B} (x : A B) Q s a s' : x s = Ret (a, s') → Q a s' → wlp x Q s.
Proof. unfold wlp. by intros ->. Qed.

(** Sending to a member leaves the group as it is. *)
Lemma send_server_mono s id i st m l : group_at s id st m l →
  wlp (MulticastDaemon.send_handshake_to_server id i) (λ _, mono s) s.
Proof.
  intros Hg. unfold MulticastDaemon.send_handshake_to_server.
  apply wlp_bind. eapply wlp_run; [by eapply connections_of_eq|].
  apply wlp_bind, wlp_the. intros c _.
  apply wlp_bind. eapply wlp_run; [by eapply state_of_eq|].
  apply wlp_bind. eapply wlp_run; [by eapply meta_of_eq|].
  apply wlp_bind, wlp_the. intros x _. apply wlp_bind, wlp_assert. intros _.
  apply wlp_bind. eapply wlp_mono; [apply write_retry_quiet|]. intros r s1 Hm. simpl in Hm.
  destruct (r =? TCP_MSG_LEN); [done|]. wlp_auto; done.
Qed.

Lemma put_state_at s id st st' m l :
  group_at s id st m l → group_at (set_data (set_states (<[id := st']> (multicast_state (data s))) (data s)) s) id st' m l.
Proof. intros [? ? ?]. split; simpl; [apply lookup_insert_eq|done..]. Qed.

Lemma dinv_put_state F F' lk lk' s id st st' m l : dinv F lk s → F ⊆ F' → (lk' = lk ∨ lk' = Some id ∨ lk' = None) →
  group_at s id st m l → group_ok F' lk' (trace (env s)) id st' m l →
  dinv F' lk' (set_data (set_states (<[id := st']> (multicast_state (data s))) (data s)) s).
Proof.
  intros Hinv HF Hlk Hg Hok. destruct (put_state_at s id st st' m l Hg) as [? ? ?].
  eapply dinv_update; eauto. intros x Hx. simpl. by rewrite lookup_insert_ne.
Qed.

Lemma put_meta_at s id st m m' l :
  group_at s id st m l → group_at (set_data (set_metas (<[id := m']> (multicast_cm_meta (data s))) (data s)) s) id st m' l.
Proof. intros [? ? ?]. split; simpl; [done|apply lookup_insert_eq|done]. Qed.

Lemma dinv_put_meta F lk s id st m m' l : dinv F lk s → group_at s id st m l →
  group_ok F lk (trace (env s)) id st m' l →
  dinv F lk (set_data (set_metas (<[id := m']> (multicast_cm_meta (data s))) (data s)) s).
Proof.
  intros Hinv Hg Hok. destruct (put_meta_at s id st m m' l Hg) as [? ? ?].
  eapply dinv_update; eauto. intros x Hx. simpl. by rewrite lookup_insert_ne.
Qed.

(** A group whose client was answered has no member in another state. *)
Lemma not_served F lk tr id st m l i v : group_ok F lk tr id st m l → sv_state st !! i = Some v →
  v ≠ SERVER_HANDSHAKE_ACK_SENT → ¬ served (cl_state st).
Proof.
  intros [_ _ _ Hs] Hi Hv Hc. destruct (Hs (or_introl Hc)) as [E _]. rewrite E in Hi.
  apply lookup_replicate in Hi as [-> _]. done.
Qed.

(** A member moves on: its callback has run, the client was not answered. *)
Lemma group_ok_move F tr id st m l i v c : group_ok F None tr id st m l →
  l !! S i = Some c → c ∈ F → ¬ served (cl_state st) → group_ok F None tr id (set_sv_state i v st) m l.
Proof.
  intros [Hl Hr Hf _] Hc HF Hs. split; simpl; [by rewrite length_insert|done| |by intros [|]].
  intros j w. rewrite list_lookup_insert_Some. intros [(->&->&_)|[_ Hj]] Hw; eauto.
Qed.

Lemma served_not_received : ¬ served CLIENT_HANDSHAKE_RECEIVED.
Proof. by intros [|]. Qed.

End invariant.

(** What the documentation of the interpreter says, and that the module of the
    control plane can be imported. The daemon does not start the interpreter:
    the first entry it writes does. *)
Class Interpreter (W : Type) `{Transport W} := {
  py_up : W → bool;
  py_is_initialized w : (t_call Py_IsInitialized w).1 ≠ 0 ↔ py_up w = true;
  py_asked w : py_up (t_call Py_IsInitialized w).2 = py_up w;
  py_initialize w : py_up (t_call Py_Initialize w).2 = true;
  py_import w : py_up w = true → (t_call (PyImport_ImportModule "control_plane_funcs") w).1 ≠ 0;
}.

Section invariant_steps.
Context {W : Type} `{!Transport W, !Recorded W, !Interpreter W} (cfg : app_config).
Implicit Types s : app W daemon.
Abbreviation A := (ST (app W daemon)).

Lemma ask_trace c s : wlp (ask c : A _) (λ _ s', trace (env s') = trace (env s) ++ [c]) s.
Proof. refine (wlp_ask c _ s _). intros a w E. simpl. pose proof (trace_call c (env s)) as T. by rewrite E in T. Qed.

(** The interpreter is started when it is not up. *)
Lemma python_started s :
  wlp (i ← ask Py_IsInitialized; when (i =? 0) (tell Py_Initialize) : A unit) (λ _ s', py_up (env s') = true) s.
Proof.
  apply wlp_bind. refine (wlp_ask Py_IsInitialized _ s _). intros i w E. pose proof (py_is_initialized (env s)) as H1. pose proof (py_asked (env s)) as H2.
  rewrite E in H1, H2. simpl in H1, H2. destruct (Z.eqb_spec i 0) as [->|Hi]; simpl.
  - apply wlp_bind. refine (wlp_ask Py_Initialize _ _ _). intros u w' E'. apply wlp_ret. simpl. pose proof (py_initialize w) as H3. simpl in E'. by rewrite E' in H3.
  - apply wlp_ret. simpl. rewrite H2. by apply H1.
Qed.

Lemma call_python_recorded fn args s :
  wlp (SwitchTableWritter.call_python fn args : A bool)
    (λ _ s', mono s s' ∧ ∃ tr, trace (env s') = tr ++ [PyEval_CallObject fn args]) s.
Proof using Type*.
  apply wlp_and; [revert s; change (quiet (SwitchTableWritter.call_python fn args : A bool)); solve_quiet|].
  assert (∀ s, SwitchTableWritter.call_python fn args s = ((i ← ask Py_IsInitialized; when (i =? 0) (tell Py_Initialize)) ;;
    i ← ask Py_IsInitialized; if i =? 0 then mret false else m ← ask (PyImport_ImportModule "control_plane_funcs");
    if m =? 0 then mret false else tell (PyEval_CallObject fn args) ;; mret true : A bool) s) as E.
  { intros s1. unfold SwitchTableWritter.call_python, mbind at 1, ST_bind at 1. unfold mbind at 5, ST_bind at 5. unfold mbind at 5, ST_bind at 5.
    by destruct (ask Py_IsInitialized s1) as [[i s2]|]. }
  unfold wlp. rewrite E. apply wlp_bind. eapply wlp_mono; [apply python_started|]. intros [] s1 Hup.
  apply wlp_bind. refine (wlp_ask Py_IsInitialized _ s1 _). intros i w Ei. pose proof (py_is_initialized (env s1)) as H1. pose proof (py_asked (env s1)) as H2.
  rewrite Ei in H1, H2. simpl in H1, H2. rewrite (proj2 (Z.eqb_neq _ _) (proj2 H1 Hup)).
  apply wlp_bind. refine (wlp_ask (PyImport_ImportModule _) _ _ _). intros r w' Er. simpl in Er. pose proof (py_import w) as H3. rewrite H2, Er in H3. simpl in H3.
  rewrite (proj2 (Z.eqb_neq _ _) (H3 Hup)). apply wlp_bind, wlp_bind. eapply wlp_mono; [apply ask_trace|]. intros ? s2 T. simpl in T. apply wlp_ret, wlp_ret. by eexists.
Qed.

Lemma group_add_recorded src id sqp ip0 q0 ip1 q1 s :
  wlp (SwitchTableWritter.multicast_group_add src id sqp ip0 q0 ip1 q1 : A Z)
    (λ _ s', mono s s' ∧ (id ≠ 2 → ∃ tr, trace (env s') = tr ++ [PyEval_CallObject "multicast_group_table_2_add"
       [id; src; id; sqp; ip0; q0; ip1; q1]])) s.
Proof using Type*.
  unfold SwitchTableWritter.multicast_group_add. destruct (Z.eqb_spec id 2).
  { apply wlp_ret. split; [apply mono_refl|done]. }
  apply wlp_bind. eapply wlp_mono; [apply call_python_recorded|]. intros b s1 [? ?]. by apply wlp_ret.
Qed.

Lemma addrs_of_quiet id : quiet (MulticastDaemon.addrs_of id : A (list entity_addr_t)).
Proof. solve_quiet. Qed.

(** A message goes out to the connection's descriptor at least once. *)
Lemma write_retry_recorded n c msg s :
  wlp (MulticastDaemon.write_retry n c msg : A Z)
    (λ _ s', mono s s' ∧ ∃ tr fd, trace (env s') = trace (env s) ++ tr ∧ t_write fd msg ∈ tr) s.
Proof.
  apply wlp_and; [apply write_retry_quiet|]. destruct n; simpl.
  all: apply wlp_bind, wlp_bind, wlp_bind, wlp_gets, wlp_the; intros k _; apply wlp_bind, wlp_the; intros fd _;
    eapply wlp_mono; [exact (ask_trace (t_write fd msg) s)|]; intros [r e] s1 T; case_match.
  all: try (apply wlp_ret; exists [t_write fd msg], fd; split; [done|by left]).
  eapply wlp_mono; [apply write_retry_quiet|]. intros r' s2 [_ [tr Htr]]. exists (t_write fd msg :: tr), fd.
  rewrite Htr, T, <-app_assoc. split; [done|by left].
Qed.

(** Answering the client: both members are served and the switch is written. *)
Lemma answer_client_inv F s c id st m l : dinv F None s → group_at s id st m l →
  wlp (MulticastDaemon.answer_client c id) (λ b, dinv F (if b : bool then Some id else None)) s.
Proof using Type*.
  intros Hinv Hg. unfold MulticastDaemon.answer_client.
  apply wlp_bind. eapply wlp_run; [by eapply state_of_eq|].
  apply wlp_bind. eapply wlp_run; [by eapply meta_of_eq|].
  case_bool_decide; [|done]. case_bool_decide as Hsv; [|done]. cbn [negb].
  apply wlp_bind, wlp_bind, wlp_gets, wlp_the. intros k _.
  apply wlp_bind. eapply wlp_mono; [apply addrs_of_quiet|]. intros addrs s1 H1.
  apply wlp_bind, wlp_the. intros a0 _. apply wlp_bind, wlp_the. intros a1 _.
  apply wlp_bind. eapply wlp_mono; [apply group_add_recorded|]. intros _ s2 [H2 Hsw].
  apply wlp_bind. eapply wlp_mono; [apply write_retry_recorded|]. intros r s3 (H3&tr&fd&Htr&Hin). simpl in H3.
  assert (mono s s3) as Hm by (apply (mono_trans _ s1); [done|by apply (mono_trans _ s2)]).
  pose proof (dinv_mono F None _ _ Hm Hinv) as Hinv3. pose proof (group_at_mono _ _ _ _ _ _ Hm Hg) as Hg3.
  destruct (r =? TCP_MSG_LEN); [|by wlp_auto]. apply wlp_ret.
  destruct (group_at_inv F None s3 id l Hinv3 (ga_conns _ _ _ _ _ Hg3)) as (st'&m'&[E1 E2 E3]&[? ? ? _]). destruct Hg3 as [E1' E2' E3']. simplify_eq.
  eapply (dinv_update F F None (Some id) s3 s3 id st m l); [done|done|by right; left|done|done|done|done|done|].
  split; [done..|]. intros _. split; [done|]. intros Hid. destruct (Hsw Hid) as [tr1 E]. rewrite Htr, E, <-app_assoc.
  exists tr1, tr, (host_order_ip (peer_addr k)), (host_order_ip a0), (host_order_ip a1), (sender m), fd. split; [done|]. by destruct m.
Qed.

(** The answer is recorded. *)
Lemma client_sent_inv F s id : dinv F (Some id) s → wlp (MulticastDaemon.client_sent id) (λ _, dinv F None) s.
Proof.
  intros Hinv. pose proof (Hinv id) as H. unfold group_inv in H. destruct (multicast_connections (data s) !! id) as [l|] eqn:E; [clear H|by destruct H]. destruct (group_at_inv F _ s id l Hinv E) as (st&m&Hg&[? ? ? Hs]). unfold MulticastDaemon.client_sent.
  apply wlp_bind. eapply wlp_run; [by eapply state_of_eq|]. apply wlp_modify.
  eapply (dinv_put_state F F (Some id) None); [done|done|by right; right|done|]. split; [done..|]. intros _. apply Hs. by right.
Qed.

(** The index found is that of a member with this connection, or out of range. *)
Lemma get_mc_index_spec id c s :
  wlp (MulticastDaemon.get_mc_index id c : A nat)
    (λ i s', s' = s ∧ ∃ l, multicast_connections (data s) !! id = Some l ∧
      (i < kNumMulticasts → l !! S i = Some c)%nat) s.
Proof.
  unfold MulticastDaemon.get_mc_index. apply wlp_bind, wlp_gets.
  destruct (multicast_connections (data s) !! id) as [l|] eqn:E; [|done].
  apply wlp_ret. split; [done|]. exists l. split; [done|].
  repeat case_bool_decide; intros; try done. unfold kNumMulticasts in *. lia.
Qed.

(** A member's handlers start by looking up their group: if it does not exist
    they abort. *)
Lemma find_group {B} F (c : Z) (id : Z) (k : nat → A B) (Q : B → app W daemon → Prop) s : dinv F None s →
  (∀ st m l i, group_at s id st m l → group_ok F None (trace (env s)) id st m l →
    ((i < kNumMulticasts)%nat → l !! S i = Some c) → wlp (k i) Q s) →
  wlp (MulticastDaemon.state_of id ;; i ← MulticastDaemon.get_mc_index id c; k i) Q s.
Proof.
  intros Hinv Hk. apply wlp_bind.
  destruct (multicast_connections (data s) !! id) as [l|] eqn:E.
  - destruct (group_at_inv F None s id l Hinv E) as (st&m&Hg&Hok).
    eapply wlp_run; [by eapply state_of_eq|]. apply wlp_bind.
    eapply wlp_mono; [apply get_mc_index_spec|]. intros i s' (->&l'&E'&Hi). simplify_eq. eauto.
  - eapply (wlp_mono _ (λ _ s', multicast_connections (data s') !! id = None)).
    + wlp_auto; done.
    + intros ? s' E'. apply wlp_bind. eapply wlp_mono; [apply get_mc_index_spec|].
      intros i s1 (->&l'&E2&_). congruence.
Qed.

Lemma member_message_inv F fuel c s : dinv F None s →
  wlp (MulticastDaemon.member_message fuel c) (dinv F) s.
Proof using Type*.
  intros Hinv. unfold MulticastDaemon.member_message. apply wlp_bind.
  eapply wlp_mono; [by apply quiet_dinv; [apply read_message_quiet|]|]. clear s Hinv. intros msg s Hinv.
  apply wlp_bind, wlp_bind, wlp_gets, wlp_the. intros k _. cbv zeta. set (id := mc_id k).
  apply (find_group F); [done|]. intros st m l i Hg Hok Hi.
  apply wlp_bind. eapply wlp_run; [by eapply meta_of_eq|].
  apply wlp_bind, wlp_lift. intros x _. apply wlp_bind, wlp_the. intros y _.
  apply wlp_bind, wlp_modify.
  set (m1 := set_receiver i (MulticastDaemon.meta_of_msg x) m).
  set (s1 := set_data _ _). assert (group_at s1 id st m1 l) as Hg1 by by eapply put_meta_at.
  apply wlp_bind. eapply wlp_run; [by eapply state_of_eq|].
  apply wlp_bind, wlp_the. intros v Hv.
  assert (i < kNumMulticasts)%nat as Hlt by (rewrite <-(g_states _ _ _ _ _ _ _ Hok); by eapply lookup_lt_Some).
  destruct v; try done.
  all: assert (¬ served (cl_state st)) as Hns by (by eapply not_served).
  all: assert (group_ok F None (trace (env s)) id st m1 l) as Hok1
    by (destruct Hok; split; simpl; [done|by rewrite length_insert|done|by intros [|]]).
  all: assert (dinv F None s1) as Hinv1 by by eapply dinv_put_meta.
  { by apply wlp_ret. }
  apply wlp_bind. eapply wlp_mono; [by eapply send_server_mono|]. intros u s2 Hm. simpl in Hm.
  pose proof (dinv_mono F None _ _ Hm Hinv1) as Hinv2. pose proof (group_at_mono _ _ _ _ _ _ Hm Hg1) as Hg2.
  apply wlp_bind. eapply wlp_run; [by eapply state_of_eq|].
  apply wlp_bind, wlp_modify.
  destruct (g_fired _ _ _ _ _ _ _ Hok i _ Hv ltac:(done)) as (c'&Hc'&HcF).
  eassert (group_at (set_data _ s2) id _ m1 l) as Hg3 by (by eapply put_state_at).
  eassert (dinv F None _) as Hinv3.
  { eapply (dinv_put_state F F None None); [done|done|by left|exact Hg2|].
    eapply (group_ok_move _ _ _ _ _ _ i); [|done|done|done]. eapply group_ok_mono; [apply Hm|exact Hok1]. }
  apply wlp_bind. eapply wlp_run; [by eapply connections_of_eq|].
  apply wlp_bind, wlp_the. intros cl _. apply wlp_bind.
  eapply wlp_mono; [by eapply answer_client_inv|]. intros b s4 H4. by apply wlp_ret.
Qed.

(** The handler is the message up to the answer, and then the record of it. *)
Lemma server_readable_split fuel c s :
  MulticastDaemon.process_server_readable fuel c s =
  (r ← MulticastDaemon.member_message fuel c; match r with Some id => MulticastDaemon.client_sent id | None => mret tt end : A unit) s.
Proof.
  unfold MulticastDaemon.process_server_readable, MulticastDaemon.member_message, MulticastDaemon.check_and_send_handshake_to_client, mbind, ST_bind.
  cbv zeta. repeat first [reflexivity|case_match; simplify_eq/=].
Qed.

Lemma server_writeable_inv F c s : dinv F None s → c ∉ F →
  wlp (MulticastDaemon.process_server_writeable c) (λ _, dinv ({[c]} ∪ F) None) s.
Proof.
  intros Hinv HF. unfold MulticastDaemon.process_server_writeable.
  apply wlp_bind, wlp_bind, wlp_gets, wlp_the. intros k _. cbv zeta. set (id := mc_id k).
  apply (find_group F); [done|]. intros st m l i Hg Hok Hi.
  apply wlp_bind. eapply wlp_run; [by eapply meta_of_eq|].
  apply wlp_bind. eapply wlp_run; [by eapply state_of_eq|].
  apply wlp_bind, wlp_the. intros v Hv.
  assert (l !! S i = Some c) as Hc
    by (apply Hi; rewrite <-(g_states _ _ _ _ _ _ _ Hok); by eapply lookup_lt_Some).
  assert (v = SERVER_INIT) as ->.
  { destruct (decide (v = SERVER_INIT)) as [|Hne]; [done|].
    destruct (g_fired _ _ _ _ _ _ _ Hok i v Hv Hne) as (c'&?&?). by simplify_eq. }
  assert (¬ served (cl_state st)) as Hns by (by eapply not_served).
  assert (group_ok ({[c]} ∪ F) None (trace (env s)) id st m l) as Hok'.
  { destruct Hok as [? ? Hf ?]. split; [done|done| |done]. intros j w Hj Hw.
    destruct (Hf j w Hj Hw) as (c'&?&?). exists c'. set_solver. }
  apply wlp_bind, wlp_modify. set (s1 := set_data _ _).
  assert (group_at s1 id (set_sv_state i SERVER_CONNECTED st) m l) as Hg1 by by eapply put_state_at.
  assert (dinv ({[c]} ∪ F) None s1) as Hinv1.
  { eapply (dinv_put_state F _ None None); [done|set_solver|by left|done|]. eapply group_ok_move; [done|done|set_solver|done]. }
  case_bool_decide; [|by apply wlp_ret].
  apply wlp_bind. eapply wlp_mono; [by eapply send_server_mono|]. intros u s2 Hm. simpl in Hm.
  pose proof (group_at_mono _ _ _ _ _ _ Hm Hg1) as Hg2. pose proof (dinv_mono _ _ _ _ Hm Hinv1) as Hinv2.
  apply wlp_bind. eapply wlp_run; [by eapply state_of_eq|]. apply wlp_modify.
  eapply (dinv_put_state ({[c]} ∪ F) _ None None); [done|done|by left|done|]. eapply group_ok_move; [|done|set_solver|done].
  eapply group_ok_move; [eapply group_ok_mono; [apply Hm|done]|done|set_solver|done].
Qed.

(** A number without connections: [operator[]] makes entries, and no more. *)
Lemma dinv_unconnected F lk s d id : dinv F lk s → multicast_connections (data s) !! id = None →
  multicast_connections d = multicast_connections (data s) →
  (∀ x, x ≠ id → multicast_state d !! x = multicast_state (data s) !! x ∧ multicast_cm_meta d !! x = multicast_cm_meta (data s) !! x) →
  (∀ st, multicast_state d !! id = Some st → cl_state st = CLIENT_INIT) → dinv F lk (set_data d s).
Proof.
  intros Hinv E Ec Hx Hst x. specialize (Hinv x). unfold group_inv in *. simpl. rewrite Ec. destruct (decide (x = id)) as [->|Hne].
  - rewrite E in *. by destruct Hinv.
  - destruct (Hx x Hne) as [-> ->]. done.
Qed.
Lemma state_of_unconnected F lk id s : dinv F lk s → multicast_connections (data s) !! id = None →
  wlp (MulticastDaemon.state_of id : A MCState)
    (λ st s', dinv F lk s' ∧ multicast_connections (data s') !! id = None ∧ cl_state st = CLIENT_INIT) s.
Proof.
  intros Hinv E. pose proof (Hinv id) as H. unfold group_inv in H. rewrite E in H. destruct H as [_ Hst].
  unfold MulticastDaemon.state_of. apply wlp_bind, wlp_gets. destruct (multicast_state (data s) !! id) as [st|] eqn:Es; [by apply wlp_ret; eauto|].
  apply wlp_bind, wlp_modify, wlp_ret. split_and!; [|done|done]. apply (dinv_unconnected _ _ _ _ id); [done|done|done| |]; simpl.
  - intros x Hx. by rewrite lookup_insert_ne.
  - intros st. rewrite lookup_insert_eq. by intros [= <-].
Qed.
Lemma put_meta_unconnected F lk id m s : dinv F lk s → multicast_connections (data s) !! id = None →
  wlp (MulticastDaemon.put_meta id m : A unit) (λ _ s', dinv F lk s' ∧ multicast_connections (data s') !! id = None) s.
Proof.
  intros Hinv E. pose proof (Hinv id) as H. unfold group_inv in H. rewrite E in H. destruct H as [_ Hst].
  apply wlp_modify. split; [|done]. apply (dinv_unconnected _ _ _ _ id); [done|done|done| |done]. intros x Hx. simpl. by rewrite lookup_insert_ne.
Qed.

(** The two steps of an acknowledgement, whoever holds the lock *)
Lemma client_ack_meta_inv F lk id msg s : dinv F lk s → wlp (MulticastDaemon.client_ack_meta id msg) (λ _, dinv F lk) s.
Proof.
  intros Hinv. unfold MulticastDaemon.client_ack_meta. destruct (multicast_connections (data s) !! id) as [l|] eqn:E.
  - destruct (group_at_inv F lk s id l Hinv E) as (st&m&Hg&Hok).
    apply wlp_bind. eapply wlp_run; [by eapply state_of_eq|].
    apply wlp_bind. eapply wlp_run; [by eapply meta_of_eq|].
    apply wlp_bind, wlp_lift. intros x _. apply wlp_modify. eapply dinv_put_meta; [done|done|].
    destruct Hok as [? ? ? Hs]. split; [done..|]. exact Hs.
  - apply wlp_bind. eapply wlp_mono; [by apply state_of_unconnected|]. clear s Hinv E. intros st s (Hinv&E&_).
    unfold MulticastDaemon.meta_of. apply wlp_bind, wlp_bind, wlp_gets. destruct (multicast_cm_meta (data s) !! id) as [m|].
    + apply wlp_ret, wlp_bind, wlp_lift. intros x _. eapply wlp_mono; [by apply put_meta_unconnected|]. by intros ? ? [].
    + apply wlp_bind. eapply wlp_mono; [exact (put_meta_unconnected F lk id meta0 s Hinv E)|]. intros [] s1 [Hinv1 E1].
      apply wlp_ret, wlp_bind, wlp_lift. intros x _. eapply wlp_mono; [by apply put_meta_unconnected|]. by intros ? ? [].
Qed.

Lemma client_ack_state_inv F lk id s : dinv F lk s → wlp (MulticastDaemon.client_ack_state id) (λ _, dinv F lk) s.
Proof.
  intros Hinv. unfold MulticastDaemon.client_ack_state. destruct (multicast_connections (data s) !! id) as [l|] eqn:E.
  - destruct (group_at_inv F lk s id l Hinv E) as (st&m&Hg&[? ? ? Hs]).
    apply wlp_bind. eapply wlp_run; [by eapply state_of_eq|].
    apply wlp_bind. eapply wlp_run; [by eapply meta_of_eq|].
    apply wlp_bind, wlp_assert. intros Hst%bool_decide_eq_true. apply wlp_bind, wlp_assert. intros _.
    apply wlp_modify. eapply (dinv_put_state F F lk lk); [done|done|by left|done|].
    split; simpl; [done..|]. intros _. apply Hs. by left; left.
  - apply wlp_bind. eapply wlp_mono; [by apply state_of_unconnected|]. intros st s1 (_&_&->). wlp_auto; done.
Qed.

(** [only id s s']: the step from [s] to [s'] works on the group [id]. *)
Definition only (id : Z) s s' : Prop :=
  (∀ x, x ≠ id → multicast_state (data s') !! x = multicast_state (data s) !! x ∧
    multicast_cm_meta (data s') !! x = multicast_cm_meta (data s) !! x ∧
    multicast_connections (data s') !! x = multicast_connections (data s) !! x) ∧
  trace (env s) `prefix_of` trace (env s').

Lemma connect_member_at id i s st m l : group_at s id st m l →
  wlp (MulticastDaemon.connect_member id i : A unit)
    (λ _ s', only id s s' ∧ ∃ l', group_at s' id st m l') s.
Proof.
  intros Hg. unfold MulticastDaemon.connect_member.
  do 8 (eapply (wlp_quiet_bind _ _ _ s); [first [exact (mono_refl s)|eassumption]|solve_quiet|]; intros ? ? ?).
  match goal with H : mono s ?s1 |- wlp _ _ ?s1 => rename s1 into sn, H into Hm end.
  pose proof (group_at_mono _ _ _ _ _ _ Hm Hg) as Hg1.
  apply wlp_bind. eapply wlp_run; [by eapply connections_of_eq|]. apply wlp_modify.
  destruct Hm as [E T]. injection E as E1 E2 E3. destruct Hg1 as [G1 G2 G3]. split; [split|].
  - intros x Hx. simpl. rewrite lookup_insert_ne by done. by rewrite E1, E2, E3.
  - done.
  - eexists. split; simpl; [done|done|apply lookup_insert_eq].
Qed.

Lemma only_trans id s1 s2 s3 : only id s1 s2 → only id s2 s3 → only id s1 s3.
Proof.
  intros [H1 T1] [H2 T2]. split; [|by etrans]. intros x Hx.
  destruct (H2 x Hx) as (->&->&->). by apply H1.
Qed.

Lemma put_state_only id st s :
  only id s (set_data (set_states (<[id := st]> (multicast_state (data s))) (data s)) s).
Proof. split; [|done]. intros x Hx. simpl. by rewrite lookup_insert_ne. Qed.

Lemma put_meta_only id m s :
  only id s (set_data (set_metas (<[id := m]> (multicast_cm_meta (data s))) (data s)) s).
Proof. split; [|done]. intros x Hx. simpl. by rewrite lookup_insert_ne. Qed.

Lemma mono_only id s s' : mono s s' → only id s s'.
Proof. intros [E T]. injection E as E1 E2 E3. split; [|done]. intros x _. by rewrite E1, E2, E3. Qed.

(** What follows the first half of [new_group], in which the group is made *)
Lemma connect_members_at id s st m l : group_at s id st m l →
  wlp (for_each (seq 0 kNumMulticasts) (MulticastDaemon.connect_member id) : A unit)
    (λ _ s', only id s s' ∧ ∃ l', group_at s' id st m l') s.
Proof.
  intros Hg. apply (wlp_for_each _ _ (λ s', only id s s' ∧ ∃ l', group_at s' id st m l')).
  - intros i s1 _ (H1&l1&Hg1). eapply wlp_mono; [by eapply connect_member_at|].
    intros u s2 (H2&l2&Hg2). split; [by apply (only_trans _ _ s1)|by exists l2].
  - split; [done|]. by exists l.
Qed.

Lemma new_group_inv F c msg s : dinv F None s → wlp (MulticastDaemon.new_group c msg) (λ _, dinv F None) s.
Proof.
  intros Hinv. unfold MulticastDaemon.new_group.
  apply wlp_bind, wlp_gets. cbv zeta. set (id := m_mc_id (data s)).
  apply wlp_bind, wlp_modify.
  eapply (wlp_quiet_bind _ _ _ s); [done|solve_quiet|]. intros [] s1 Hm1.
  apply wlp_bind, wlp_modify. apply wlp_bind, wlp_modify. apply wlp_bind, wlp_gets.
  apply wlp_bind, wlp_assert. intros Hnone%bool_decide_eq_true. simpl in Hnone.
  apply wlp_bind, wlp_modify. set (s2 := set_data _ _).
  assert (only id s s2) as H2.
  { destruct Hm1 as [E T]. injection E as E1 E2 E3. split; [|done]. intros x Hx. simpl.
    rewrite !lookup_insert_ne by done. by rewrite E1, E2, E3. }
  assert (group_at s2 id MCState_create meta0 [c; 0; 0]) as Hg2.
  { split; simpl; apply lookup_insert_eq. }
  clearbody s2. clear s1 Hm1 Hnone.
  do 6 (eapply (wlp_quiet_bind _ _ _ s2); [first [exact (mono_refl s2)|eassumption]|solve_quiet|]; intros ? ? ?).
  match goal with H : mono s2 ?s1 |- wlp _ _ ?s1 => rename s1 into s3, H into Hm end.
  pose proof (group_at_mono _ _ _ _ _ _ Hm Hg2) as Hg3.
  do 2 apply wlp_bind, wlp_modify.
  eapply wlp_mono; [eapply connect_members_at, put_state_at, put_meta_at; exact Hg3|].
  intros [] s4 (H5&l'&[G1 G2 G3]). eapply (dinv_update F F None None s); [done|done|by left| | |done|done|done|].
  1,2: apply (only_trans id s s2 s4 H2), (only_trans id s2 s3); [by apply mono_only|];
    eapply only_trans; [apply put_meta_only|]; eapply only_trans; [apply put_state_only|exact H5].
  split; simpl; [done|done| |by intros [[|]|]]. intros [|[|]]; simpl; intros ? [= <-]; done.
Qed.

(** A message of a client: when it makes a group, [data_lock] was free. *)
Lemma client_message_inv F lk fuel c s : dinv F lk s →
  wlp (MulticastDaemon.client_message fuel c) (λ r s', (r = None → lk = None) → dinv F lk s') s.
Proof.
  intros Hinv. unfold MulticastDaemon.client_message. apply wlp_bind.
  eapply wlp_mono; [by apply quiet_dinv; [apply read_message_quiet|]|]. intros msg s1 Hinv1.
  apply wlp_bind, wlp_bind, wlp_gets, wlp_the. intros k _. destruct (mc_id k =? 0); apply wlp_bind.
  - destruct lk as [id|]; [eapply (wlp_mono _ (λ _ _, True)); [|intros; apply wlp_ret; intros Hn; by specialize (Hn eq_refl)]|].
    { unfold wlp. by destruct (MulticastDaemon.new_group _ _ _) as [[]|]. }
    eapply wlp_mono; [by apply new_group_inv|]. intros ? s2 H2. by apply wlp_ret; intros _.
  - eapply wlp_mono; [exact (client_ack_meta_inv F lk _ msg s1 Hinv1)|]. intros ? s2 H2. by apply wlp_ret; intros _.
Qed.

(** The daemon with what its threads are doing: the members' connections whose
    write callback has run, the group whose answer the holder of [data_lock]
    has written and not recorded, and the groups whose acknowledgement has
    been scanned and not yet checked *)
Record dsys := mkSys { sy_app : app W daemon; sy_fired : gset Z; sy_lock : option Z; sy_acks : list Z }.

(** The daemon's steps: a connection is accepted, the event of a connection
    fires, a callback of a connection runs. A member's write callback runs
    once, which is what [Connection] promises of it. The members' callbacks
    and the creation of a group wait for [data_lock]; an acknowledgement does
    not. *)
Inductive dm_step : dsys → dsys → Prop :=
| ds_accept w fd la peer s s' F lk P :
    MulticastDaemon.accept w fd la peer s = Ret (tt, s') → dm_step (mkSys s F lk P) (mkSys s' F lk P)
| ds_process c s s' F lk P : Connection.process cfg c s = Ret (tt, s') → dm_step (mkSys s F lk P) (mkSys s' F lk P)
| ds_client_read fuel c k r s s' F lk P : conn_heap s !! c = Some k → read_callback k = Some mc_client_conn_read_callback →
    MulticastDaemon.client_message fuel c s = Ret (r, s') → (r = None → lk = None) →
    dm_step (mkSys s F lk P) (mkSys s' F lk (option_list r ++ P))
| ds_client_ack id P1 P2 s s' F lk : MulticastDaemon.client_ack_state id s = Ret (tt, s') →
    dm_step (mkSys s F lk (P1 ++ id :: P2)) (mkSys s' F lk (P1 ++ P2))
| ds_server_read fuel c k r s s' F P : conn_heap s !! c = Some k → read_callback k = Some mc_server_conn_read_callback →
    MulticastDaemon.member_message fuel c s = Ret (r, s') → dm_step (mkSys s F None P) (mkSys s' F r P)
| ds_server_sent id s s' F P : MulticastDaemon.client_sent id s = Ret (tt, s') → dm_step (mkSys s F (Some id) P) (mkSys s' F None P)
| ds_client_write c k s s' F lk P : conn_heap s !! c = Some k →
    write_callback k = Some mc_client_conn_write_callback →
    MulticastDaemon.process_client_writeable c s = Ret (tt, s') → dm_step (mkSys s F lk P) (mkSys s' F lk P)
| ds_server_write c k s s' F P : conn_heap s !! c = Some k →
    write_callback k = Some mc_server_conn_write_callback → c ∉ F →
    MulticastDaemon.process_server_writeable c s = Ret (tt, s') →
    dm_step (mkSys s F None P) (mkSys s' ({[c]} ∪ F) None P).

Definition sys_inv (x : dsys) : Prop := dinv (sy_fired x) (sy_lock x) (sy_app x).

Lemma dm_step_inv x y : sys_inv x → dm_step x y → sys_inv y.
Proof using Type*.
  unfold sys_inv. intros Hinv Hstep. destruct Hstep as [? ? ? ? ? ? ? ? ? E|? ? ? ? ? ? E|? ? ? ? ? ? ? ? ? _ _ E Hr|? ? ? ? ? ? ? E
    |? ? ? ? ? ? ? ? _ _ E|? ? ? ? ? E|? ? ? ? ? ? ? _ _ E|? ? ? ? ? ? _ _ HF E]; simpl in *.
  - by eapply (wlp_elim _ _ _ _ _ (quiet_dinv _ _ _ _ (accept_quiet _ _ _ _) Hinv)).
  - by eapply (wlp_elim _ _ _ _ _ (quiet_dinv _ _ _ _ (process_quiet _ _) Hinv)).
  - by eapply (wlp_elim _ _ _ _ _ (client_message_inv _ _ _ _ _ Hinv)).
  - by eapply (wlp_elim _ _ _ _ _ (client_ack_state_inv _ _ _ _ Hinv)).
  - by eapply (wlp_elim _ _ _ _ _ (member_message_inv _ _ _ _ Hinv)).
  - by eapply (wlp_elim _ _ _ _ _ (client_sent_inv _ _ _ Hinv)).
  - by injection E as <-.
  - by eapply (wlp_elim _ _ _ _ _ (server_writeable_inv _ _ _ Hinv HF)).
Qed.

End invariant_steps.

(** *** A concrete run: a client with queue pair 17 and two members

    The transport delivers the messages of [inbox] in order, one per read. *)

Record lan := mkLan { lan_log : list tcall; lan_inbox : list (list Z); lan_python : bool }.
Definition lan_logged (c : tcall) (w : lan) : lan := mkLan (lan_log w ++ [c]) (lan_inbox w) (lan_python w).

Definition lan_call (c : tcall) (w : lan) : answer c * lan :=
  match c return answer c * lan with
  | t_read fd n =>
    match lan_inbox w with
    | m :: l => ((Z.of_nat (length m), m), mkLan (lan_log w ++ [t_read fd n]) l (lan_python w))
    | [] => ((- EAGAIN, []), lan_logged (t_read fd n) w)
    end
  | t_is_connected fd => (0, lan_logged (t_is_connected fd) w)
  | Py_IsInitialized => ((if lan_python w then 1 else 0), lan_logged Py_IsInitialized w)
  | Py_Initialize => ((calm_call Py_Initialize (lan_log w)).1, mkLan (lan_log w ++ [Py_Initialize]) (lan_inbox w) true)
  | PyImport_ImportModule n => ((if lan_python w then 1 else 0), lan_logged (PyImport_ImportModule n) w)
  | c => ((calm_call c (lan_log w)).1, lan_logged c w)
  end.

#[global] Instance lan_transport : Transport lan := lan_call.
#[global] Instance lan_recorded : Recorded lan.
Proof.
  refine {| trace := lan_log |}. intros [] w; try reflexivity.
  unfold t_call, lan_transport, lan_call. by destruct (lan_inbox w).
Defined.
#[global] Instance lan_interpreter : Interpreter lan.
Proof. refine {| py_up := lan_python |}; intros w; [|done|done|]; cbn; destruct (lan_python w); done. Defined.

Definition demo_msg (lid qpn psn peer : Z) : list Z :=
  msg_buffer (print_mc (mkMsg lid qpn psn peer 1 5150 2 5150 (replicate 16 9))) [].
Definition demo_inbox : list (list Z) :=
  [demo_msg 1 17 3 0; demo_msg 2 18 4 17; demo_msg 3 19 5 17; demo_msg 1 17 3 7].

Definition daemon0 : daemon := mkDaemon 7 ∅ ∅ ∅ ∅.
Definition demo0 : app lan daemon := mkApp (mkLan [] demo_inbox false) [0; 0] ∅ 1 server0 daemon0.
Definition demo1 := Eval vm_compute in after (MulticastDaemon.accept 0 (Some 5) addr0 addr0) demo0.
Definition demo2 := Eval vm_compute in after (MulticastDaemon.process_client_readable 1 1) demo1.
Definition demo3 := Eval vm_compute in after (Connection.process ac0 2) demo2.
Definition demo4 := Eval vm_compute in after (Connection.process ac0 3) demo3.
Definition demo5 := Eval vm_compute in after (MulticastDaemon.process_server_writeable 2) demo4.
Definition demo6 := Eval vm_compute in after (MulticastDaemon.process_server_writeable 3) demo5.
Definition demo7 := Eval vm_compute in after (MulticastDaemon.process_server_readable 1 2) demo6.
(** The second member's message, up to the answer; the record of it; the
    client's acknowledgement *)
Definition demo8 := Eval vm_compute in after (MulticastDaemon.member_message 1 3) demo7.
Definition demo9 := Eval vm_compute in after (MulticastDaemon.client_sent 7) demo8.
Definition demo10 := Eval vm_compute in after (MulticastDaemon.client_message 1 1) demo9.
Definition demo11 := Eval vm_compute in after (MulticastDaemon.client_ack_state 7) demo10.

Definition demo_state : MCState := mkMC CLIENT_ACK_RECEIVED (replicate 2 SERVER_HANDSHAKE_ACK_SENT).
Definition demo_meta : multicast_cm_meta_t :=
  mkMeta (mkPM 1 17 3 7 (replicate 16 9)) [mkPM 2 18 4 17 (replicate 16 9); mkPM 3 19 5 17 (replicate 16 9)].

Ltac demo_step := vm_compute; reflexivity.

Definition demo_fired : gset Z := {[3]} ∪ ({[2]} ∪ ∅).
Lemma demo_reaches : rtc (dm_step ac0) (mkSys demo0 ∅ None []) (mkSys demo8 demo_fired (Some 7) []).
Proof.
  eapply rtc_l; [eapply (ds_accept _ 0 (Some 5) addr0 addr0 _ demo1); demo_step|].
  eapply rtc_l; [eapply (ds_client_read _ 1 1 _ None _ demo2); [demo_step|demo_step|demo_step|done]|]. cbn [option_list Datatypes.app].
  eapply rtc_l; [eapply (ds_process _ 2 _ demo3); demo_step|].
  eapply rtc_l; [eapply (ds_process _ 3 _ demo4); demo_step|].
  eapply rtc_l; [eapply (ds_server_write _ 2 _ _ demo5); [demo_step|demo_step|set_solver|demo_step]|].
  eapply rtc_l; [eapply (ds_server_write _ 3 _ _ demo6); [demo_step|demo_step|set_solver|demo_step]|].
  eapply rtc_l; [eapply (ds_server_read _ 1 2 _ None _ demo7); [demo_step|demo_step|demo_step]|].
  apply rtc_once. eapply (ds_server_read _ 1 3 _ (Some 7) _ demo8); [demo_step|demo_step|demo_step].
Qed.


(** The answer is written before it is recorded, and the branch that takes the
    acknowledgement does not wait for the lock: an acknowledgement that another
    worker reads in between finds the old state and aborts the daemon. *)
Theorem early_ack_aborts : ∃ y, rtc (dm_step ac0) (mkSys demo0 ∅ None []) y ∧ sy_lock y = Some 7 ∧ sy_acks y = [7] ∧
  MulticastDaemon.client_ack_state 7 (sy_app y) = Crash KAbort.
Proof.
  eexists. split; [|split; [|split]].
  - eapply rtc_r; [exact demo_reaches|]. eapply (ds_client_read _ 1 1 _ (Some 7)); [demo_step|demo_step|demo_step|done].
  - done.
  - done.
  - demo_step.
Qed.

(** ** Reading a message from a socket that has none *)

Section read_errors.
Context {W : Type} `{!Transport W}.
Implicit Types s : app W daemon.

Lemma Read_run c n s k fd : conn_heap s !! c = Some k → cs k = Some fd →
  (Connection.Read c n : ST (app W daemon) (Z * list Z)) s =
    Ret ((t_call (t_read fd n) (env s)).1, set_env (t_call (t_read fd n) (env s)).2 s).
Proof.
  intros Hk Hfd. unfold Connection.Read, get_conn, gets, the, ask, mbind, ST_bind. simpl. rewrite Hk. simpl.
  rewrite Hfd. simpl. by destruct (t_call _ _).
Qed.

(** What the daemon does when a connection has no message to give. A read
    that answers EAGAIN ends the loop at once, because -11 added to the
    unsigned count passes the length of a message: the buffer is scanned as it
    was, never written. A read that reports an error or the end of the stream
    is repeated for ever: no number of rounds suffices. *)
Theorem read_message_without_message conv c k fd s :
  conn_heap s !! c = Some k → cs k = Some fd → conv (- EAGAIN) = - EAGAIN →
  (∀ fuel e, (∀ n w, (t_call (t_read fd n) w).1 = (- EAGAIN, [])) →
    t_call (t_junk 93) (env s) = e →
    ∃ s', MulticastDaemon.read_message conv (S fuel) c s = Ret (e.1, s')) ∧
  (∀ fuel r, conv r ≤ 0 → conv r ≠ - EAGAIN → (∀ n w, (t_call (t_read fd n) w).1 = (r, [])) →
    MulticastDaemon.read_message conv fuel c s = Crash NoFuel).
Proof.
  intros Hk Hfd Hconv. split.
  - intros fuel e Hread He. unfold MulticastDaemon.read_message, ask, mbind, ST_bind.
    change (Z.to_nat TCP_MSG_LEN) with 93%nat. rewrite He. destruct e as [junk w]. cbn [MulticastDaemon.read_loop].
    change (0 <? TCP_MSG_LEN) with true. cbn iota.
    rewrite (bind_run _ _ _ _ _ (Read_run c _ (set_env w s) k fd Hk Hfd)), Hread, Hconv. simpl.
    destruct fuel; eexists; reflexivity.
  - intros fuel r Hr Hne Hread. unfold MulticastDaemon.read_message, ask, mbind, ST_bind.
    destruct (t_call (t_junk _) (env s)) as [msg w].
    assert (conn_heap (set_env w s) !! c = Some k) as Hk' by done. revert Hk' msg. generalize (set_env w s).
    clear s Hk w. intros s Hk msg. revert s msg Hk.
    induction fuel as [|fuel IH]; intros s msg Hk; cbn [MulticastDaemon.read_loop];
      change (0 <? TCP_MSG_LEN) with true; cbn iota; [done|].
    rewrite (bind_run _ _ _ _ _ (Read_run c _ s k fd Hk Hfd)). rewrite Hread. cbn [length drop Datatypes.app].
    destruct (Z.ltb_spec (conv r) 0).
    + rewrite (proj2 (Z.eqb_neq _ _)) by done. cbn [andb negb]. by apply IH.
    + cbn [andb]. replace (u32 (0 + conv r)) with 0; [by apply IH|]. replace (conv r) with 0 by lia. done.
Qed.
End read_errors.

Definition silent_call (r : Z) (c : tcall) (u : unit) : answer c * unit :=
  match c return answer c * unit with t_read _ _ => (r, [], u) | c => ((calm_call c []).1, u) end.
Definition app_silent : app unit daemon :=
  mkApp tt [0] {[1 := mkConn 0 STATE_CONNECTION_ESTABLISHED (Some 5) addr0 addr0 0 (Some 1) (Some 2)]} 2 server0 daemon0.

Lemma read_message_without_message_witness :
  (∃ s', MulticastDaemon.read_message (Transport0 := silent_call (- EAGAIN)) s32 3 1 app_silent = Ret (replicate 93 0, s')) ∧
  MulticastDaemon.read_message (Transport0 := silent_call (-104)) s32 3 1 app_silent = Crash NoFuel.
Proof.
  split.
  - by apply (proj1 (read_message_without_message (Transport0 := silent_call (- EAGAIN))
      s32 1 _ 5 app_silent eq_refl eq_refl eq_refl) 2%nat (replicate 93 0, tt)).
  - by apply (proj2 (read_message_without_message (Transport0 := silent_call (-104))
      s32 1 _ 5 app_silent eq_refl eq_refl eq_refl) 3%nat (-104)).
Defined.
