(* ===== verification/Event.v ===== *)
(** * The event centre and its epoll driver
      (src/network/Event.h and .cc, src/network/EventEpoll.h and .cc)

    A centre keeps the callbacks of file descriptors, timers and pollers and a
    queue of callbacks other threads have dispatched; its thread runs
    [process_events] in a loop. Time is counted in nanoseconds. The callbacks
    are a parameter of the operations that run them: they may work on the
    centre they are called from. *)

From Stdlib Require Import Sorting.Sorted.
From stdpp Require Import sorting.
From S2P Require Import Prelude State Machine QueuePair Socket.

Definition EVENT_NONE : Z := 0.
Definition EPOLLIN : Z := 1.
Definition EPOLLOUT : Z := 4.
Definition EPOLLERR : Z := 8.
Definition EPOLLHUP : Z := 16.
Definition EPOLLET : Z := 2147483648.
Definition EPOLL_CTL_ADD : Z := 1.
Definition EPOLL_CTL_DEL : Z := 2.
Definition EPOLL_CTL_MOD : Z := 3.
Definition INT_MAX : Z := 2147483647.

(** ** System calls: the return value, [errno] and the pairs stored *)

Inductive ecall :=
| e_clock_now
| e_epoll_create
| e_fcntl_cloexec (fd : Z)
| e_set_nonblock (fd : Z)
| e_epoll_ctl (epfd op fd events : Z)
| e_epoll_wait (epfd maxevents timeout : Z)
| e_pipe
| e_read (fd size : Z)
| e_write (fd : Z)
| e_close (fd : Z).

Definition reply : Type := Z * Z * list (Z * Z).
Class Kernel (W : Type) := k_call : ecall → W → reply * W.

(** ** State *)

(** Callbacks are addresses, 0 is NULL. *)
Record file_event := mkFE { fe_mask : Z; read_cb : Z; write_cb : Z }.
Definition file_event0 : file_event := mkFE 0 0 0.

Record time_event := mkTE { te_expire : Z; te_id : Z; time_cb : Z }.

Section center.
Context {W : Type}.

(** [EventCenter] with its [EpollDriver]. [time_events] is the multimap in
    its order; an iterator kept in [event_map] is the number of its event, so
    the map is the set of those numbers. [storage] counts the reallocations of
    [file_events]: a pointer to an entry is valid while it stands still. *)
Record center := mkCenter {
  kernel : W;
  nevent : Z;
  owner : Z;
  external_num_events : Z;
  external_events : list Z;
  file_events : list file_event;
  storage : nat;
  epfd : Z;
  d_nevent : Z;  (* the driver's [nevent]: the size of its array of events *)
  time_events : list time_event;
  event_map : gset Z;
  time_event_next_id : Z;
  pollers : list Z;
  slots : gmap Z Z;  (* of the pollers *)
  notify_receive_fd : Z;
  notify_send_fd : Z;
  notify_handler : Z;
  center_id : Z;
  global_centers : bool;
}.

Definition set_kernel (v : W) (r : center) : center :=
  mkCenter v (nevent r) (owner r) (external_num_events r) (external_events r) (file_events r)
    (storage r) (epfd r) (d_nevent r) (time_events r) (event_map r) (time_event_next_id r) (pollers
    r) (slots r) (notify_receive_fd r) (notify_send_fd r) (notify_handler r) (center_id r)
    (global_centers r).
Definition set_nevent (v : Z) (r : center) : center :=
  mkCenter (kernel r) v (owner r) (external_num_events r) (external_events r) (file_events r)
    (storage r) (epfd r) (d_nevent r) (time_events r) (event_map r) (time_event_next_id r) (pollers
    r) (slots r) (notify_receive_fd r) (notify_send_fd r) (notify_handler r) (center_id r)
    (global_centers r).
Definition set_owner (v : Z) (r : center) : center :=
  mkCenter (kernel r) (nevent r) v (external_num_events r) (external_events r) (file_events r)
    (storage r) (epfd r) (d_nevent r) (time_events r) (event_map r) (time_event_next_id r) (pollers
    r) (slots r) (notify_receive_fd r) (notify_send_fd r) (notify_handler r) (center_id r)
    (global_centers r).
Definition set_external_num_events (v : Z) (r : center) : center :=
  mkCenter (kernel r) (nevent r) (owner r) v (external_events r) (file_events r) (storage r) (epfd
    r) (d_nevent r) (time_events r) (event_map r) (time_event_next_id r) (pollers r) (slots r)
    (notify_receive_fd r) (notify_send_fd r) (notify_handler r) (center_id r) (global_centers r).
Definition set_external_events (v : list Z) (r : center) : center :=
  mkCenter (kernel r) (nevent r) (owner r) (external_num_events r) v (file_events r) (storage r)
    (epfd r) (d_nevent r) (time_events r) (event_map r) (time_event_next_id r) (pollers r) (slots r)
    (notify_receive_fd r) (notify_send_fd r) (notify_handler r) (center_id r) (global_centers r).
Definition set_file_events (v : list file_event) (r : center) : center :=
  mkCenter (kernel r) (nevent r) (owner r) (external_num_events r) (external_events r) v (storage r)
    (epfd r) (d_nevent r) (time_events r) (event_map r) (time_event_next_id r) (pollers r) (slots r)
    (notify_receive_fd r) (notify_send_fd r) (notify_handler r) (center_id r) (global_centers r).
Definition set_epfd (v : Z) (r : center) : center :=
  mkCenter (kernel r) (nevent r) (owner r) (external_num_events r) (external_events r) (file_events
    r) (storage r) v (d_nevent r) (time_events r) (event_map r) (time_event_next_id r) (pollers r)
    (slots r) (notify_receive_fd r) (notify_send_fd r) (notify_handler r) (center_id r)
    (global_centers r).
Definition set_d_nevent (v : Z) (r : center) : center :=
  mkCenter (kernel r) (nevent r) (owner r) (external_num_events r) (external_events r) (file_events
    r) (storage r) (epfd r) v (time_events r) (event_map r) (time_event_next_id r) (pollers r)
    (slots r) (notify_receive_fd r) (notify_send_fd r) (notify_handler r) (center_id r)
    (global_centers r).
Definition set_time_events (v : list time_event) (r : center) : center :=
  mkCenter (kernel r) (nevent r) (owner r) (external_num_events r) (external_events r) (file_events
    r) (storage r) (epfd r) (d_nevent r) v (event_map r) (time_event_next_id r) (pollers r) (slots
    r) (notify_receive_fd r) (notify_send_fd r) (notify_handler r) (center_id r) (global_centers r).
Definition set_event_map (v : gset Z) (r : center) : center :=
  mkCenter (kernel r) (nevent r) (owner r) (external_num_events r) (external_events r) (file_events
    r) (storage r) (epfd r) (d_nevent r) (time_events r) v (time_event_next_id r) (pollers r) (slots
    r) (notify_receive_fd r) (notify_send_fd r) (notify_handler r) (center_id r) (global_centers r).
Definition set_time_event_next_id (v : Z) (r : center) : center :=
  mkCenter (kernel r) (nevent r) (owner r) (external_num_events r) (external_events r) (file_events
    r) (storage r) (epfd r) (d_nevent r) (time_events r) (event_map r) v (pollers r) (slots r)
    (notify_receive_fd r) (notify_send_fd r) (notify_handler r) (center_id r) (global_centers r).
Definition set_pollers (v : list Z) (r : center) : center :=
  mkCenter (kernel r) (nevent r) (owner r) (external_num_events r) (external_events r) (file_events
    r) (storage r) (epfd r) (d_nevent r) (time_events r) (event_map r) (time_event_next_id r) v
    (slots r) (notify_receive_fd r) (notify_send_fd r) (notify_handler r) (center_id r)
    (global_centers r).
Definition set_slots (v : gmap Z Z) (r : center) : center :=
  mkCenter (kernel r) (nevent r) (owner r) (external_num_events r) (external_events r) (file_events
    r) (storage r) (epfd r) (d_nevent r) (time_events r) (event_map r) (time_event_next_id r)
    (pollers r) v (notify_receive_fd r) (notify_send_fd r) (notify_handler r) (center_id r)
    (global_centers r).
Definition set_notify_receive_fd (v : Z) (r : center) : center :=
  mkCenter (kernel r) (nevent r) (owner r) (external_num_events r) (external_events r) (file_events
    r) (storage r) (epfd r) (d_nevent r) (time_events r) (event_map r) (time_event_next_id r)
    (pollers r) (slots r) v (notify_send_fd r) (notify_handler r) (center_id r) (global_centers r).
Definition set_notify_send_fd (v : Z) (r : center) : center :=
  mkCenter (kernel r) (nevent r) (owner r) (external_num_events r) (external_events r) (file_events
    r) (storage r) (epfd r) (d_nevent r) (time_events r) (event_map r) (time_event_next_id r)
    (pollers r) (slots r) (notify_receive_fd r) v (notify_handler r) (center_id r) (global_centers
    r).
Definition set_notify_handler (v : Z) (r : center) : center :=
  mkCenter (kernel r) (nevent r) (owner r) (external_num_events r) (external_events r) (file_events
    r) (storage r) (epfd r) (d_nevent r) (time_events r) (event_map r) (time_event_next_id r)
    (pollers r) (slots r) (notify_receive_fd r) (notify_send_fd r) v (center_id r) (global_centers
    r).
Definition set_center_id (v : Z) (r : center) : center :=
  mkCenter (kernel r) (nevent r) (owner r) (external_num_events r) (external_events r) (file_events
    r) (storage r) (epfd r) (d_nevent r) (time_events r) (event_map r) (time_event_next_id r)
    (pollers r) (slots r) (notify_receive_fd r) (notify_send_fd r) (notify_handler r) v
    (global_centers r).
Definition set_global_centers (v : bool) (r : center) : center :=
  mkCenter (kernel r) (nevent r) (owner r) (external_num_events r) (external_events r) (file_events
    r) (storage r) (epfd r) (d_nevent r) (time_events r) (event_map r) (time_event_next_id r)
    (pollers r) (slots r) (notify_receive_fd r) (notify_send_fd r) (notify_handler r) (center_id r)
    v.
(** [file_events.resize(n); nevent = n] *)
Definition resized (n : Z) (l : list file_event) (r : center) : center :=
  mkCenter (kernel r) n (owner r) (external_num_events r) (external_events r) l (S (storage r))
    (epfd r) (d_nevent r) (time_events r) (event_map r) (time_event_next_id r) (pollers r) (slots r)
    (notify_receive_fd r) (notify_send_fd r) (notify_handler r) (center_id r) (global_centers r).

Abbreviation E := (ST center).

Definition kcall `{Kernel W} (c : ecall) : E reply := λ s,
  let '(r, w) := k_call c (kernel s) in Ret (r, set_kernel w s).

End center.
Arguments center : clear implicits.

(** ** The driver *)

Module EpollDriver.
Section driver_ops.
Context {W : Type} `{!Kernel W}.
Abbreviation E := (ST (center W)).

(** [calloc] is taken to succeed. *)
Definition init (n : Z) : E Z :=
  '(fd, err, _) ← kcall e_epoll_create;
  modify (set_epfd fd) ;;
  if fd =? -1 then mret (- err) else
  '(r, e, _) ← kcall (e_fcntl_cloexec fd);
  if r =? -1 then kcall (e_close fd) ;; mret (- e) else
  modify (set_d_nevent n) ;; mret 0.

(** The epoll events for a mask *)
Definition epoll_events (mask : Z) : Z :=
  Z.lor (Z.lor EPOLLET (if Z.land mask EVENT_READABLE =? 0 then 0 else EPOLLIN))
    (if Z.land mask EVENT_WRITABLE =? 0 then 0 else EPOLLOUT).

Definition add_event (fd cur_mask add_mask : Z) : E Z :=
  let op := if cur_mask =? EVENT_NONE then EPOLL_CTL_ADD else EPOLL_CTL_MOD in
  ep ← gets epfd;
  '(r, err, _) ← kcall (e_epoll_ctl ep op fd (epoll_events (Z.lor add_mask cur_mask)));
  mret (if r =? -1 then - err else 0).

Definition del_event (fd cur_mask delmask : Z) : E Z :=
  let mask := Z.land cur_mask (Z.lnot delmask) in
  ep ← gets epfd;
  '(r, err, _) ←
    (if negb (mask =? EVENT_NONE) then kcall (e_epoll_ctl ep EPOLL_CTL_MOD fd (epoll_events mask))
     else kcall (e_epoll_ctl ep EPOLL_CTL_DEL fd 0));
  mret (if r <? 0 then - err else 0).

Definition resize_events (newsize : Z) : E Z := mret 0.

(** The mask reported for the events of a descriptor *)
Definition fired_mask (events : Z) : Z :=
  let has b := negb (Z.land events b =? 0) in
  let both := Z.lor EVENT_READABLE EVENT_WRITABLE in
  let m := if has EPOLLIN then EVENT_READABLE else 0 in
  let m := if has EPOLLOUT then Z.lor m EVENT_WRITABLE else m in
  let m := if has EPOLLERR then Z.lor m both else m in
  if has EPOLLHUP then Z.lor m both else m.

(** [event_wait] for a timeout given as (seconds, microseconds): the events
    fired as (descriptor, mask). The kernel stores as many as it returns. *)
Definition event_wait (tv_sec tv_usec : Z) : E (list (Z * Z)) :=
  ep ← gets epfd;
  n ← gets d_nevent;
  '(retval, _, out) ← kcall (e_epoll_wait ep n (tv_sec * 1000 + tv_usec / 1000));
  mret (if 0 <? retval then (λ '(fd, ev), (fd, fired_mask ev)) <$> take (Z.to_nat retval) out else []).

End driver_ops.
End EpollDriver.

(** ** The centre *)

Module EventCenter.
Section center_ops.
Context {W : Type} `{!Kernel W}.
Abbreviation E := (ST (center W)).

(** The constructor *)
Definition create (w : W) : center W :=
  mkCenter w 0 0 0 [] [] 0 (-1) 0 [] ∅ 1 [] ∅ (-1) (-1) 0 0 false.

(** [pipe_cloexec]: the result, [errno] and the two descriptors *)
Definition pipe_cloexec : E (Z * Z * (Z * Z)) :=
  '(r, e, out) ← kcall e_pipe;
  if r =? -1 then mret (-1, e, (0, 0)) else
  fds ← the (head out);
  let failed e := kcall (e_close fds.1) ;; kcall (e_close fds.2) ;; mret (-1, e, fds) in
  '(r, e, _) ← kcall (e_fcntl_cloexec fds.1);
  if r <? 0 then failed e else
  '(r, e, _) ← kcall (e_fcntl_cloexec fds.2);
  if r <? 0 then failed e else mret (0, 0, fds).

Definition init (n id : Z) : E Z :=
  n0 ← gets nevent;
  assert (n0 =? 0) ;;
  modify (set_center_id id) ;;
  r ← EpollDriver.init n;
  if r <? 0 then mret r else
  modify (λ s, resized n (take (Z.to_nat n) (file_events s) ++
    replicate (Z.to_nat n - length (file_events s)) file_event0) s) ;;
  '(r, e, fds) ← pipe_cloexec;
  if r <? 0 then mret (- e) else
  modify (λ s, set_notify_send_fd fds.2 (set_notify_receive_fd fds.1 s)) ;;
  '(r, _, _) ← kcall (e_set_nonblock fds.1);
  if r <? 0 then mret r else
  '(r, _, _) ← kcall (e_set_nonblock fds.2);
  mret r.

(** [_get_file_event]: a negative index is outside of the vector. *)
Definition get_file_event (fd : Z) : E file_event :=
  n ← gets nevent;
  assert (fd <? n) ;;
  if fd <? 0 then fail Undefined else
  l ← gets file_events; the (l !! Z.to_nat fd).
Definition put_file_event (fd : Z) (e : file_event) : E unit :=
  modify (λ s, set_file_events (<[Z.to_nat fd := e]> (file_events s)) s).

(** [while (fd >= new_size) new_size <<= 2]: a shift past the width of [int]
    is [Undefined]. *)
Fixpoint grow (fuel : nat) (fd new_size : Z) : outcome Z :=
  if fd <? new_size then Ret new_size else
  match fuel with
  | O => Crash NoFuel
  | S fuel => if INT_MAX <? new_size * 4 then Crash Undefined else grow fuel fd (new_size * 4)
  end.

(** The table is enlarged for a descriptor it has no entry for. 16 rounds
    exceed the range of [int] for any size above 0. *)
Definition ensure_size (fd : Z) : E unit :=
  n ← gets nevent;
  if n <=? fd then
    if INT_MAX <? n * 4 then fail Undefined else
    new_size ← lift (grow 16 fd (n * 4));
    modify (λ s, resized new_size (file_events s ++
      replicate (Z.to_nat new_size - length (file_events s)) file_event0) s)
  else mret tt.

Definition create_file_event (self fd mask ctxt : Z) : E Z :=
  o ← gets owner;
  assert (self =? o) ;;
  ensure_size fd ;;
  e ← get_file_event fd;
  if fe_mask e =? mask then mret 0 else
  r ← EpollDriver.add_event fd (fe_mask e) mask;
  if r <? 0 then fail KAbort else
  put_file_event fd (mkFE (Z.lor (fe_mask e) mask)
    (if Z.land mask EVENT_READABLE =? 0 then read_cb e else ctxt)
    (if Z.land mask EVENT_WRITABLE =? 0 then write_cb e else ctxt)) ;;
  mret 0.

Definition delete_file_event (self fd mask : Z) : E unit :=
  o ← gets owner;
  assert ((self =? o) && (0 <=? fd)) ;;
  n ← gets nevent;
  if n <=? fd then mret tt else
  e ← get_file_event fd;
  if fe_mask e =? 0 then mret tt else
  r ← EpollDriver.del_event fd (fe_mask e) mask;
  if r <? 0 then fail KAbort else
  put_file_event fd (mkFE (Z.land (fe_mask e) (Z.lnot mask))
    (if Z.land mask EVENT_READABLE =? 0 then read_cb e else 0)
    (if Z.land mask EVENT_WRITABLE =? 0 then write_cb e else 0)).

(** The centre's own callback for its pipe has an address of its own. *)
Definition set_owner (self handler : Z) : E unit :=
  modify (set_owner self) ;;
  g ← gets global_centers;
  if g : bool then mret tt else
  modify (set_global_centers true) ;;
  modify (set_notify_handler handler) ;;
  fd ← gets notify_receive_fd;
  create_file_event self fd EVENT_READABLE handler ;;
  mret tt.

(** [C_handle_notify::do_request]: read until nothing is left *)
Fixpoint handle_notify (fuel : nat) (fd : Z) : E unit :=
  match fuel with
  | O => fail NoFuel
  | S fuel => '(r, _, _) ← kcall (e_read fd 256); if 0 <? r then handle_notify fuel fd else mret tt
  end.

(** *** Pollers *)

(** [Poller::Poller] *)
Definition add_poller (p : Z) : E unit :=
  l ← gets pollers;
  modify (λ s, set_slots (<[p := Z.of_nat (length l)]> (slots s)) (set_pollers (l ++ [p]) s)).

(** [Poller::~Poller] *)
Definition delete_poller (p : Z) : E unit :=
  sl ← gets slots;
  slot ← the (sl !! p);
  l ← gets pollers;
  back ← the (last l);
  if (slot <? 0) || negb (slot <? Z.of_nat (length l)) then fail Undefined else
  let l := <[Z.to_nat slot := back]> l in
  modify (λ s, set_slots (<[p := -1]> (<[back := slot]> (slots s)))
    (set_pollers (take (length l - 1) l) s)).

(** *** Timers *)

(** [time_events.insert]: after the events that expire at the same time *)
Fixpoint insert_time (e : time_event) (l : list time_event) : list time_event :=
  match l with
  | [] => [e]
  | x :: l' => if te_expire e <? te_expire x then e :: l else x :: insert_time e l'
  end.

Definition now : E Z := '(t, _, _) ← kcall e_clock_now; mret t.

Definition create_time_event (self microseconds ctxt : Z) : E Z :=
  o ← gets owner;
  assert (self =? o) ;;
  id ← gets time_event_next_id;
  modify (set_time_event_next_id (u64 (id + 1))) ;;
  t ← now;
  modify (λ s, set_event_map ({[id]} ∪ event_map s)
    (set_time_events (insert_time (mkTE (t + microseconds * 1000) id ctxt) (time_events s)) s)) ;;
  mret id.

Definition erase_time (id : Z) (l : list time_event) : list time_event := filter (λ e, te_id e ≠ id) l.

Definition delete_time_event (self id : Z) : E unit :=
  o ← gets owner;
  assert (self =? o) ;;
  next ← gets time_event_next_id;
  if (next <=? id) || (id =? 0) then mret tt else
  m ← gets event_map;
  if bool_decide (id ∈ m) then
    modify (λ s, set_event_map (event_map s ∖ {[id]}) (set_time_events (erase_time id (time_events s)) s))
  else mret tt.

(** *** Other threads *)

Definition wakeup : E unit :=
  l ← gets pollers;
  if negb (bool_decide (l = [])) then mret tt else
  fd ← gets notify_send_fd;
  '(n, err, _) ← kcall (e_write fd);
  if (n <? 0) && negb (err =? EAGAIN) then fail KAbort else mret tt.

(** [dispatch_event_external] in two parts: what is done under the lock,
    which returns the new count or 0 when nothing was queued, and the wakeup. *)
Definition enqueue_external (e : Z) : E Z :=
  n ← gets external_num_events;
  l ← gets external_events;
  if (0 <? n) && bool_decide (last l = Some e) then mret 0 else
  let num := u64 (n + 1) in
  modify (λ s, set_external_num_events num (set_external_events (l ++ [e]) s)) ;;
  mret num.

Definition dispatch_event_external (self e : Z) : E unit :=
  num ← enqueue_external e;
  o ← gets owner;
  if (num =? 1) && negb (self =? o) then wakeup else mret tt.

(** *** The loop *)

Section callbacks.
(** [do_request cb id] and [poll p] *)
Context (do_request : Z → Z → E unit) (poll : Z → E Z).

Definition call (cb id : Z) : E unit := if cb =? 0 then fail Undefined else do_request cb id.

Fixpoint time_loop (fuel : nat) (t processed : Z) : E Z :=
  l ← gets time_events;
  match l with
  | [] => mret processed
  | e :: l =>
    if te_expire e <=? t then
      match fuel with
      | O => fail NoFuel
      | S fuel =>
        modify (λ s, set_event_map (event_map s ∖ {[te_id e]}) (set_time_events l s)) ;;
        call (time_cb e) (te_id e) ;;
        time_loop fuel t (processed + 1)
      end
    else mret processed
  end.

Definition process_time_events (fuel : nat) : E Z := t ← now; time_loop fuel t 0.

(** One fired event. [event] is a pointer into the table: when the read
    callback has made the table larger it points to freed memory. *)
Definition process_fired (fd mask : Z) : E unit :=
  e ← get_file_event fd;
  g ← gets storage;
  let rfired := negb (Z.land (Z.land (fe_mask e) mask) EVENT_READABLE =? 0) in
  when rfired (call (read_cb e) fd) ;;
  g' ← gets storage;
  if negb (bool_decide (g' = g)) then fail Undefined else
  e ← get_file_event fd;
  if Z.land (Z.land (fe_mask e) mask) EVENT_WRITABLE =? 0 then mret tt else
  if rfired && (read_cb e =? write_cb e) then mret tt else call (write_cb e) fd.

(** The timeout: whether a timer falls due within it, and the seconds and
    microseconds handed to the driver *)
Definition wait_time (timeout t : Z) (timers : list time_event) (blocking : bool) : bool * (Z * Z) :=
  let '(trigger, us) :=
    match timers with
    | e :: _ =>
      if te_expire e <=? t + timeout * 1000 then
        (true, if t <? te_expire e then u32 ((te_expire e - t) / 1000) else 0)
      else (false, timeout)
    | [] => (false, timeout)
    end in
  let us := if blocking then us else 0 in
  (trigger, (us / 1000000, us mod 1000000)).

(** [for (i = 0; i < pollers.size(); i++) numevents += pollers[i]->poll()] *)
Fixpoint poll_loop (fuel : nat) (i : nat) (numevents : Z) : E Z :=
  l ← gets pollers;
  match l !! i with
  | None => mret numevents
  | Some p =>
    match fuel with
    | O => fail NoFuel
    | S fuel => r ← poll p; poll_loop fuel (S i) (numevents + r)
    end
  end.

(** Whether the round may sleep *)
Definition may_block : E bool :=
  ps ← gets pollers;
  num ← gets external_num_events;
  mret (bool_decide (ps = []) && (num =? 0)).

(** Under the lock, the queue of other threads' callbacks is taken over. *)
Definition take_external : E (list Z) :=
  cur ← gets external_events;
  modify (λ s, set_external_num_events 0 (set_external_events [] s)) ;;
  mret cur.

(** [fuel] bounds the timers run and the pollers asked in one round. *)
Definition process_events (fuel : nat) (timeout : Z) : E Z :=
  t ← now;
  timers ← gets time_events;
  blocking ← may_block;
  let '(trigger, (tv_sec, tv_usec)) := wait_time timeout t timers blocking in
  fired ← EpollDriver.event_wait tv_sec tv_usec;
  for_each fired (λ '(fd, mask), process_fired fd mask) ;;
  n1 ← (if trigger : bool then process_time_events fuel else mret 0);
  num ← gets external_num_events;
  n2 ← (if negb (num =? 0) then
          cur ← take_external;
          for_each cur (λ e, call e 0) ;;
          mret (Z.of_nat (length cur))
        else mret 0);
  let numevents := Z.of_nat (length fired) + n1 + n2 in
  if (numevents =? 0) && negb blocking then poll_loop fuel 0 0 else mret numevents.

(** The destructor: what other threads dispatched is still run. *)
Fixpoint drain_external (fuel : nat) : E unit :=
  l ← gets external_events;
  match l with
  | [] => mret tt
  | e :: _ =>
    match fuel with
    | O => fail NoFuel
    | S fuel =>
      when (negb (e =? 0)) (do_request e 0) ;;
      modify (λ s, set_external_events (tail (external_events s)) s) ;;
      drain_external fuel
    end
  end.

Definition destroy (fuel : nat) : E unit :=
  drain_external fuel ;;
  modify (set_time_events []) ;;
  r ← gets notify_receive_fd;
  when (0 <=? r) (kcall (e_close r) ;; mret tt) ;;
  w ← gets notify_send_fd;
  when (0 <=? w) (kcall (e_close w) ;; mret tt) ;;
  ep ← gets epfd;
  when (negb (ep =? -1)) (kcall (e_close ep) ;; mret tt).

End callbacks.
End center_ops.
End EventCenter.

(** ** Bounds *)

(** Enlarging the table stops: the sixteen rounds are enough for any size an
    int can hold, and the size found is the first of the sizes 4 times apart
    that has room for the descriptor. *)
Lemma grow_spec fuel fd : ∀ m, 1 ≤ m ≤ INT_MAX → INT_MAX < m * 4 ^ Z.of_nat fuel →
  match EventCenter.grow fuel fd m with
  | Ret n => fd < n ≤ INT_MAX ∧ ∃ k : nat, n = m * 4 ^ Z.of_nat k ∧ (k = 0%nat ∨ n / 4 ≤ fd)
  | Crash c => c = Undefined ∧ INT_MAX < (fd + 1) * 4
  end.
Proof.
  induction fuel as [|fuel IH]; intros m Hm Hf; cbn [EventCenter.grow];
    destruct (Z.ltb_spec fd m) as [|Hfd].
  - split; [lia|]. exists 0%nat. split; [lia|by left].
  - simpl in Hf. lia.
  - split; [lia|]. exists 0%nat. split; [lia|by left].
  - destruct (Z.ltb_spec INT_MAX (m * 4)); [split; [done|lia]|].
    specialize (IH (m * 4)). rewrite Nat2Z.inj_succ, Z.pow_succ_r in Hf by lia.
    specialize (IH ltac:(lia) ltac:(lia)). destruct (EventCenter.grow fuel fd (m * 4)) as [n|]; [|done].
    destruct IH as (?&k&->&Hk). split; [done|]. exists (S k).
    rewrite Nat2Z.inj_succ, Z.pow_succ_r by lia. split; [lia|]. right.
    destruct Hk as [->|Hk].
    + replace (m * 4 * 4 ^ Z.of_nat 0) with (m * 4) by (simpl; lia). by rewrite Z.div_mul.
    + done.
Qed.

(** [process_events] never sleeps past the earliest timer nor longer than
    it was asked to, and does not sleep at all when it must not block: the
    milliseconds given to epoll_wait end no later than the first timer expires.
    A timer that falls due within the timeout is always noticed. *)
Theorem wait_never_overshoots timeout t timers blocking trigger sec usec :
  is_u32 timeout → EventCenter.wait_time timeout t timers blocking = (trigger, (sec, usec)) →
  let ms := sec * 1000 + usec / 1000 in
  0 ≤ ms ∧ ms * 1000 ≤ timeout ∧ (blocking = false → ms = 0) ∧
  match timers with
  | [] => trigger = false
  | e :: _ => (te_expire e ≤ t + timeout * 1000 ↔ trigger = true) ∧ t + ms * 1000000 ≤ Z.max t (te_expire e)
  end.
Proof.
  intros Ht H ms. subst ms. unfold EventCenter.wait_time in H. unfold is_u32 in Ht.
  assert (∀ us, 0 ≤ us → us / 1000000 * 1000 + us mod 1000000 / 1000 = us / 1000) as Hms.
  { intros us ?. Z.to_euclidean_division_equations; lia. }
  assert (∀ us, us / 1000 * 1000 ≤ us) as Hdiv by (intros; Z.to_euclidean_division_equations; lia).
  assert (∀ a b us, trigger = a → (sec, usec) = (us / 1000000, us mod 1000000) → 0 ≤ us ≤ timeout →
    (us = 0 ∨ blocking = true) → t + us * 1000 ≤ Z.max t b →
    trigger = a ∧ let ms := sec * 1000 + usec / 1000 in
    0 ≤ ms ∧ ms * 1000 ≤ timeout ∧ (blocking = false → ms = 0) ∧ t + ms * 1000000 ≤ Z.max t b) as Hgen.
  { intros a b us -> [= -> ->] Hus Hb Hmax. cbv zeta. rewrite Hms by lia. pose proof (Hdiv us).
    split_and!; [done|apply Z.div_pos; lia|lia| |lia]. intros ->. by destruct Hb as [->|]. }
  destruct timers as [|e l]; [|destruct (Z.leb_spec (te_expire e) (t + timeout * 1000)) as [Hle|Hgt]].
  - destruct (Hgen false (t + timeout * 1000) (if blocking then timeout else 0)) as (->&?&?&?&_);
      [by destruct blocking; injection H|by destruct blocking; injection H as _ <- <-|
       destruct blocking; lia|destruct blocking; auto|destruct blocking; lia|done].
  - set (us := if t <? te_expire e then u32 ((te_expire e - t) / 1000) else 0) in *.
    assert (0 ≤ us ≤ timeout ∧ t + us * 1000 ≤ Z.max t (te_expire e)) as [? ?].
    { subst us. destruct (Z.ltb_spec t (te_expire e)); [|lia].
      rewrite u32_small; [|unfold is_u32]; Z.to_euclidean_division_equations; lia. }
    destruct (Hgen true (te_expire e) (if blocking then us else 0)) as (->&?&?&?&?);
      [by destruct blocking; injection H|by destruct blocking; injection H as _ <- <-|
       destruct blocking; lia|destruct blocking; auto|destruct blocking; lia|].
    by split_and!.
  - destruct (Hgen false (te_expire e) (if blocking then timeout else 0)) as (->&?&?&?&?);
      [by destruct blocking; injection H|by destruct blocking; injection H as _ <- <-|
       destruct blocking; lia|destruct blocking; auto|destruct blocking; lia|].
    split_and!; try done. split; [lia|done].
Qed.

Lemma wait_never_overshoots_witness :
  let ms := 0 * 1000 + 2500 / 1000 in
  0 ≤ ms ∧ ms * 1000 ≤ 30000000 ∧ (true = false → ms = 0) ∧
  ((7500000 ≤ 5000000 + 30000000 * 1000 ↔ true = true) ∧ 5000000 + ms * 1000000 ≤ Z.max 5000000 7500000).
Proof.
  refine (wait_never_overshoots 30000000 5000000 [mkTE 7500000 1 9] true true 0 2500 _ _);
    [unfold is_u32; lia|reflexivity].
Defined.

(** ** The table of descriptors and the kernel's interest list *)

(** What epoll_ctl does to the interest list: it fails on a descriptor added
    twice, and on one modified or removed that is not there. *)
Definition epoll_apply (op fd ev : Z) (m : gmap Z Z) : option (gmap Z Z) :=
  if op =? EPOLL_CTL_ADD then match m !! fd with None => Some (<[fd := ev]> m) | Some _ => None end else
  if op =? EPOLL_CTL_MOD then match m !! fd with Some _ => Some (<[fd := ev]> m) | None => None end else
  if op =? EPOLL_CTL_DEL then match m !! fd with Some _ => Some (delete fd m) | None => None end else None.

Class Epoll (W : Type) `{Kernel W} := {
  watched : W → gmap Z Z;
  epoll_ctl_spec ep op fd ev w :
    let '(r, err, _, w') := k_call (e_epoll_ctl ep op fd ev) w in
    match epoll_apply op fd ev (watched w) with
    | Some m => r = 0 ∧ watched w' = m
    | None => r = -1 ∧ 0 < err ∧ watched w' = watched w
    end;
}.

Section table.
Context {W : Type} `{!Kernel W, !Epoll W}.
Implicit Types s : center W.

(** The entry of a descriptor *)
Definition entry s (fd : Z) : option file_event :=
  if fd <? 0 then None else file_events s !! Z.to_nat fd.

(** The events the table wants the kernel to watch *)
Definition wanted (e : file_event) : option Z :=
  if fe_mask e =? 0 then None else Some (EpollDriver.epoll_events (fe_mask e)).

Definition mask_ok (m : Z) : Prop := 0 ≤ m ≤ 3.

Definition agree s : Prop :=
  nevent s = Z.of_nat (length (file_events s)) ∧
  (∀ fd e, entry s fd = Some e → mask_ok (fe_mask e)) ∧
  (∀ fd, watched (kernel s) !! fd = entry s fd ≫= wanted).

(** What the callers see: the callbacks for reading and for writing *)
Definition interest s (fd : Z) : option Z * option Z :=
  match entry s fd with
  | Some e => (if Z.land (fe_mask e) EVENT_READABLE =? 0 then None else Some (read_cb e),
               if Z.land (fe_mask e) EVENT_WRITABLE =? 0 then None else Some (write_cb e))
  | None => (None, None)
  end.

Lemma entry_put s fd e fd' : 0 ≤ fd → is_Some (entry s fd) →
  entry (set_file_events (<[Z.to_nat fd := e]> (file_events s)) s) fd' =
    if decide (fd' = fd) then Some e else entry s fd'.
Proof.
  intros Hfd [e0 He]. unfold entry in *. simpl. rewrite (proj2 (Z.ltb_ge fd 0)) in He by lia.
  destruct (Z.ltb_spec fd' 0); [case_decide; [lia|done]|].
  case_decide; subst.
  - by rewrite list_lookup_insert_eq by (by eapply lookup_lt_Some).
  - rewrite list_lookup_insert_ne; [done|]. intros ?%Z2Nat.inj; lia.
Qed.

Lemma get_file_event_run s fd e : agree s → entry s fd = Some e →
  EventCenter.get_file_event fd s = Ret (e, s).
Proof.
  intros (Hn&_) He. unfold entry in He. destruct (Z.ltb_spec fd 0) as [|H0]; [done|].
  assert (fd < nevent s) by (apply lookup_lt_Some in He; lia).
  unfold EventCenter.get_file_event, gets, mbind, ST_bind. simpl.
  rewrite (proj2 (Z.ltb_lt fd (nevent s))), (proj2 (Z.ltb_ge fd 0)) by lia. simpl. by rewrite He.
Qed.

(** Enlarging the table changes nothing that was in it. *)
Lemma ensure_size_run s fd : agree s → 1 ≤ nevent s → 0 ≤ fd → (fd + 1) * 4 ≤ INT_MAX →
  ∃ s', EventCenter.ensure_size fd s = Ret (tt, s') ∧ agree s' ∧
    entry s' fd = Some (default file_event0 (entry s fd)) ∧ (∀ x, interest s' x = interest s x).
Proof.
  intros Hag Hn Hfd Hmax. pose proof Hag as (Hlen&Hmask&Hw).
  unfold EventCenter.ensure_size, gets, mbind, ST_bind. cbn beta iota.
  destruct (Z.leb_spec (nevent s) fd) as [Hle|Hlt].
  - rewrite (proj2 (Z.ltb_ge _ _)) by lia. pose proof (grow_spec 16 fd (nevent s * 4)) as Hg.
    specialize (Hg ltac:(lia) ltac:(unfold INT_MAX in *; simpl; lia)). unfold lift.
    destruct (EventCenter.grow 16 fd (nevent s * 4)) as [n|]; [|lia]. destruct Hg as (Hn'&_).
    set (l := file_events s ++ replicate (Z.to_nat n - length (file_events s)) file_event0). exists (resized n l s).
    assert (length l = Z.to_nat n) as Hl by (subst l; rewrite length_app, length_replicate; lia).
    assert (∀ x, entry (resized n l s) x = match entry s x with Some e => Some e
      | None => if (0 <=? x) && (x <? n) then Some file_event0 else None end) as Hentry.
    { intros x. unfold entry, l. simpl. destruct (Z.ltb_spec x 0); [by rewrite (proj2 (Z.leb_gt 0 x))|].
      rewrite (proj2 (Z.leb_le 0 x)) by done. simpl.
      destruct (file_events s !! Z.to_nat x) eqn:Ex; [by rewrite lookup_app_l by (by eapply lookup_lt_Some)|].
      apply lookup_ge_None in Ex. rewrite lookup_app_r by done. destruct (Z.ltb_spec x n).
      - by rewrite lookup_replicate_2 by lia.
      - apply lookup_ge_None. rewrite length_replicate. lia. }
    split_and!; [reflexivity| | |].
    + split_and!; [simpl; lia| |].
      * intros x e. rewrite Hentry. destruct (entry s x) eqn:Ex; [intros [= <-]; by eapply Hmask|].
        destruct (_ && _); [|done]. intros [= <-]. unfold mask_ok. simpl. lia.
      * intros x. rewrite Hentry. simpl. rewrite Hw. destruct (entry s x); [done|]. by destruct (_ && _).
    + rewrite Hentry. unfold entry. rewrite (proj2 (Z.ltb_ge fd 0)) by lia.
      rewrite (proj2 (lookup_ge_None _ _)) by lia. by rewrite (proj2 (Z.leb_le 0 fd)), (proj2 (Z.ltb_lt fd n)) by lia.
    + intros x. unfold interest. rewrite Hentry. destruct (entry s x); [done|]. by destruct (_ && _).
  - exists s. destruct (entry s fd) as [e|] eqn:E; [done|].
    exfalso. unfold entry in E. rewrite (proj2 (Z.ltb_ge fd 0)) in E by lia. apply lookup_ge_None in E. lia.
Qed.

Lemma mask_cases m : mask_ok m → m = 0 ∨ m = 1 ∨ m = 2 ∨ m = 3.
Proof. unfold mask_ok. lia. Qed.

(** An epoll_ctl that the interest list allows *)
Lemma kcall_ctl_run s ep op fd ev m : epoll_apply op fd ev (watched (kernel s)) = Some m →
  ∃ err out w, kcall (e_epoll_ctl ep op fd ev) s = Ret (0, err, out, set_kernel w s) ∧ watched w = m.
Proof.
  intros Hm. pose proof (epoll_ctl_spec ep op fd ev (kernel s)) as H. unfold kcall.
  destruct (k_call _ _) as [[[r err] out] w]. rewrite Hm in H. destruct H as [-> H]. by eexists _, _, _.
Qed.

Lemma add_event_run s fd e mask : agree s → entry s fd = Some e →
  ∃ w, EpollDriver.add_event fd (fe_mask e) mask s = Ret (0, set_kernel w s) ∧
    watched w = <[fd := EpollDriver.epoll_events (Z.lor mask (fe_mask e))]> (watched (kernel s)).
Proof.
  intros (_&_&Hw) He. specialize (Hw fd). rewrite He in Hw. simpl in Hw.
  unfold EpollDriver.add_event. rewrite (bind_run _ _ _ (epfd s) s eq_refl).
  set (op := if fe_mask e =? EVENT_NONE then _ else _).
  edestruct (kcall_ctl_run s (epfd s) op fd) as (err&out&w&E&?);
    [|exists w; by rewrite (bind_run _ _ _ _ _ E)].
  unfold op, epoll_apply, wanted in *. destruct (Z.eqb_spec (fe_mask e) 0) as [E0|E0].
  - rewrite E0. change (EVENT_NONE =? 0) with true. simpl. by rewrite Hw.
  - rewrite (proj2 (Z.eqb_neq (fe_mask e) EVENT_NONE)) by done. simpl. by rewrite Hw.
Qed.

Lemma del_event_run s fd e mask : agree s → entry s fd = Some e → fe_mask e ≠ 0 →
  let m := Z.land (fe_mask e) (Z.lnot mask) in
  ∃ w, EpollDriver.del_event fd (fe_mask e) mask s = Ret (0, set_kernel w s) ∧
    watched w = if m =? 0 then delete fd (watched (kernel s))
                else <[fd := EpollDriver.epoll_events m]> (watched (kernel s)).
Proof.
  intros (_&_&Hw) He Hne m. specialize (Hw fd). rewrite He in Hw. simpl in Hw. unfold wanted in Hw.
  rewrite (proj2 (Z.eqb_neq (fe_mask e) 0)) in Hw by done.
  unfold EpollDriver.del_event. fold m. rewrite (bind_run _ _ _ (epfd s) s eq_refl).
  change EVENT_NONE with 0. destruct (m =? 0); cbn [negb].
  - edestruct (kcall_ctl_run s (epfd s) EPOLL_CTL_DEL fd 0) as (err&out&w&E&?);
      [unfold epoll_apply; simpl; by rewrite Hw|]. exists w. by rewrite (bind_run _ _ _ _ _ E).
  - edestruct (kcall_ctl_run s (epfd s) EPOLL_CTL_MOD fd (EpollDriver.epoll_events m)) as (err&out&w&E&?);
      [unfold epoll_apply; simpl; by rewrite Hw|]. exists w. by rewrite (bind_run _ _ _ _ _ E).
Qed.

(** A new entry for [fd] that the kernel has been told of *)
Lemma agree_put s fd e0 e w : agree s → entry s fd = Some e0 → mask_ok (fe_mask e) →
  (∀ x, watched w !! x = if decide (x = fd) then wanted e else watched (kernel s) !! x) →
  let s' := set_file_events (<[Z.to_nat fd := e]> (file_events s)) (set_kernel w s) in
  agree s' ∧ (∀ x, x ≠ fd → interest s' x = interest s x) ∧ entry s' fd = Some e.
Proof.
  intros (Hn&Hmask&Hw) He Hm Hwd s'.
  assert (0 ≤ fd) as Hfd by (unfold entry in He; destruct (Z.ltb_spec fd 0); [done|lia]).
  assert (∀ x, entry s' x = if decide (x = fd) then Some e else entry s x) as Hentry.
  { intros x. by apply (entry_put (set_kernel w s) fd e x Hfd). }
  split_and!.
  - split_and!; [simpl; by rewrite length_insert| |].
    + intros x e'. rewrite Hentry. case_decide; [by intros [= <-]|by apply Hmask].
    + intros x. rewrite Hentry. simpl. rewrite Hwd. case_decide; [done|apply Hw].
  - intros x Hx. unfold interest. rewrite Hentry. by rewrite decide_False.
  - rewrite Hentry. by rewrite decide_True.
Qed.

Ltac masks Hme Hmask :=
  destruct (mask_cases _ Hme) as [->|[->|[->| ->]]], (mask_cases _ Hmask) as [->|[->|[->| ->]]]; done.

Lemma create_file_event_run s fd mask ctxt :
  agree s → 0 ≤ fd → mask_ok mask → 1 ≤ nevent s → (fd + 1) * 4 ≤ INT_MAX →
  ∃ s', EventCenter.create_file_event (owner s) fd mask ctxt s = Ret (0, s') ∧ agree s' ∧
    (∀ x, x ≠ fd → interest s' x = interest s x) ∧
    interest s' fd =
      if fe_mask (default file_event0 (entry s fd)) =? mask then interest s fd
      else (if Z.land mask EVENT_READABLE =? 0 then (interest s fd).1 else Some ctxt,
            if Z.land mask EVENT_WRITABLE =? 0 then (interest s fd).2 else Some ctxt).
Proof.
  intros Hag Hfd Hmask Hn Hmax. destruct (ensure_size_run s fd Hag Hn Hfd Hmax) as (s1&E1&Hag1&He1&Hi1).
  set (e := default file_event0 (entry s fd)) in *.
  unfold EventCenter.create_file_event. rewrite (bind_run _ _ _ (owner s) s eq_refl), Z.eqb_refl.
  rewrite (bind_run _ _ _ tt s eq_refl), (bind_run _ _ _ _ _ E1).
  rewrite (bind_run _ _ _ _ _ (get_file_event_run s1 fd e Hag1 He1)).
  destruct (Z.eqb_spec (fe_mask e) mask) as [|Hne]; [exists s1; split_and!; auto|].
  destruct (add_event_run s1 fd e mask Hag1 He1) as (w&E2&Hw). rewrite (bind_run _ _ _ _ _ E2). simpl.
  pose proof (proj1 (proj2 Hag1) fd e He1) as Hme.
  set (e' := mkFE (Z.lor (fe_mask e) mask) _ _).
  destruct (agree_put s1 fd e e' w) as (Ha&Ho&Hen); [done..| | |].
  - simpl. masks Hme Hmask.
  - intros x. rewrite Hw, Z.lor_comm, lookup_insert. repeat case_decide; try done. unfold wanted. simpl.
    rewrite (proj2 (Z.eqb_neq _ 0)); [done|]. intros [? ?]%Z.lor_eq_0_iff. congruence.
  - exists (set_file_events (<[Z.to_nat fd := e']> (file_events s1)) (set_kernel w s1)).
    split; [reflexivity|]. split_and!; [done|intros x Hx; rewrite Ho by done; apply Hi1|].
    rewrite <-!Hi1. unfold interest at 1. rewrite Hen. unfold interest. rewrite He1. simpl.
    masks Hme Hmask.
Qed.

Lemma delete_file_event_run s fd mask : agree s → 0 ≤ fd → mask_ok mask →
  ∃ s', EventCenter.delete_file_event (owner s) fd mask s = Ret (tt, s') ∧ agree s' ∧
    (∀ x, x ≠ fd → interest s' x = interest s x) ∧
    interest s' fd =
      (if Z.land mask EVENT_READABLE =? 0 then (interest s fd).1 else None,
       if Z.land mask EVENT_WRITABLE =? 0 then (interest s fd).2 else None).
Proof.
  intros Hag Hfd Hmask.
  unfold EventCenter.delete_file_event. rewrite (bind_run _ _ _ (owner s) s eq_refl), Z.eqb_refl.
  rewrite (proj2 (Z.leb_le 0 fd)) by done. rewrite (bind_run _ _ _ tt s eq_refl).
  rewrite (bind_run _ _ _ (nevent s) s eq_refl).
  assert (∀ a b : option Z, a = None → b = None → (a, b) =
    (if Z.land mask EVENT_READABLE =? 0 then a else None, if Z.land mask EVENT_WRITABLE =? 0 then b else None)) as Hnone
    by (intros; repeat case_match; subst; done).
  destruct (entry s fd) as [e|] eqn:He.
  2: { rewrite (proj2 (Z.leb_le _ _)).
    - exists s. split_and!; try done. unfold interest. rewrite He. by apply Hnone.
    - unfold entry in He. rewrite (proj2 (Z.ltb_ge fd 0)) in He by lia. apply lookup_ge_None in He.
      destruct Hag as [-> _]. lia. }
  rewrite (proj2 (Z.leb_gt _ _)).
  2: { unfold entry in He. rewrite (proj2 (Z.ltb_ge fd 0)) in He by lia. apply lookup_lt_Some in He.
    destruct Hag as [-> _]. lia. }
  rewrite (bind_run _ _ _ _ _ (get_file_event_run s fd e Hag He)).
  destruct (Z.eqb_spec (fe_mask e) 0) as [E0|Hne].
  { exists s. split_and!; try done. unfold interest. rewrite He, E0. by apply Hnone. }
  destruct (del_event_run s fd e mask Hag He Hne) as (w&E2&Hw). rewrite (bind_run _ _ _ _ _ E2). simpl.
  pose proof (proj1 (proj2 Hag) fd e He) as Hme. set (e' := mkFE _ _ _).
  destruct (agree_put s fd e e' w) as (Ha&Ho&Hen); [done..| | |].
  - simpl. masks Hme Hmask.
  - intros x. rewrite Hw. unfold wanted. simpl. destruct (Z.land (fe_mask e) (Z.lnot mask) =? 0).
    * rewrite lookup_delete. repeat case_decide; congruence.
    * rewrite lookup_insert. repeat case_decide; congruence.
  - exists (set_file_events (<[Z.to_nat fd := e']> (file_events s)) (set_kernel w s)).
    split; [reflexivity|]. split_and!; [done..|].
    unfold interest at 1. rewrite Hen. unfold interest. rewrite He. simpl.
    masks Hme Hmask.
Qed.

(** C10: The table of the event centre and the kernel's interest list go
    together. For the owning thread, registering never aborts and grows the
    table as needed: the masks of all descriptors stay the ones epoll watches,
    other descriptors are untouched, and the callbacks asked for are the ones
    given, except that a registration for exactly the mask already there
    changes nothing, not even the callback. Deleting removes exactly the
    callbacks of the mask. *)
Theorem file_events_follow_epoll s fd mask :
  agree s → 0 ≤ fd → mask_ok mask →
  (∀ ctxt, 1 ≤ nevent s → (fd + 1) * 4 ≤ INT_MAX →
    ∃ s', EventCenter.create_file_event (owner s) fd mask ctxt s = Ret (0, s') ∧ agree s' ∧
      (∀ x, x ≠ fd → interest s' x = interest s x) ∧
      interest s' fd =
        if fe_mask (default file_event0 (entry s fd)) =? mask then interest s fd
        else (if Z.land mask EVENT_READABLE =? 0 then (interest s fd).1 else Some ctxt,
              if Z.land mask EVENT_WRITABLE =? 0 then (interest s fd).2 else Some ctxt)) ∧
  ∃ s', EventCenter.delete_file_event (owner s) fd mask s = Ret (tt, s') ∧ agree s' ∧
    (∀ x, x ≠ fd → interest s' x = interest s x) ∧
    interest s' fd =
      (if Z.land mask EVENT_READABLE =? 0 then (interest s fd).1 else None,
       if Z.land mask EVENT_WRITABLE =? 0 then (interest s fd).2 else None).
Proof.
  intros Hag Hfd Hmask. split; [intros; by apply create_file_event_run|by apply delete_file_event_run].
Qed.
End table.

(** A kernel that keeps an interest list and does nothing else *)
Definition epoll_kernel_call (c : ecall) (m : gmap Z Z) : reply * gmap Z Z :=
  match c with
  | e_epoll_ctl _ op fd ev => match epoll_apply op fd ev m with Some m' => (0, 0, [], m') | None => (-1, 17, [], m) end
  | _ => (0, 0, [], m)
  end.
#[global] Instance epoll_kernel : Kernel (gmap Z Z) := epoll_kernel_call.
#[global] Instance epoll_kernel_laws : Epoll (gmap Z Z).
Proof.
  refine {| watched := id |}. intros. unfold k_call, epoll_kernel, epoll_kernel_call. simpl.
  by destruct (epoll_apply op fd ev w).
Defined.

(** A centre with room for two descriptors, the first of which is watched *)
Definition center2 : center (gmap Z Z) :=
  resized 2 [mkFE 1 40 0; file_event0] (set_owner 9 (EventCenter.create {[0 := EpollDriver.epoll_events 1]})).

Lemma center2_agree : agree center2.
Proof.
  split_and!; [done| |].
  - intros fd e. unfold entry. destruct (fd <? 0); [done|]. unfold mask_ok.
    destruct (Z.to_nat fd) as [|[|]]; simpl; [intros [= <-]|intros [= <-]|done]; simpl; lia.
  - intros fd. unfold entry. destruct (Z.ltb_spec fd 0).
    + change (watched (kernel center2)) with ({[0 := EpollDriver.epoll_events 1]} : gmap Z Z).
      rewrite lookup_singleton_ne by lia. done.
    + destruct (Z.to_nat fd) as [|[|n]] eqn:E.
      * by replace fd with 0 by lia.
      * by replace fd with 1 by lia.
      * change (watched (kernel center2)) with ({[0 := EpollDriver.epoll_events 1]} : gmap Z Z).
        rewrite lookup_singleton_ne by lia. done.
Qed.

Lemma file_events_follow_epoll_witness : ∃ s',
  EventCenter.create_file_event 9 5 3 77 center2 = Ret (0, s') ∧ agree s' ∧
  (∀ x, x ≠ 5 → interest s' x = interest center2 x) ∧ interest s' 5 = (Some 77, Some 77).
Proof.
  refine (proj1 (file_events_follow_epoll center2 5 3 center2_agree _ _) 77 _ _);
    unfold mask_ok, INT_MAX; simpl; lia.
Defined.

(** ** Timers *)

Section timers.
Context {W : Type} `{!Kernel W}.
Implicit Types s : center W.

Definition earlier (a b : time_event) : Prop := te_expire a ≤ te_expire b.
Definition ids (l : list time_event) : list Z := te_id <$> l.

(** The timers are in order, their numbers distinct, given out before, and
    exactly those of [event_map]. *)
Record timers_ok s : Prop := {
  t_sorted : StronglySorted earlier (time_events s);
  t_nodup : NoDup (ids (time_events s));
  t_map : event_map s = list_to_set (ids (time_events s));
  t_given : Forall (λ i, 1 ≤ i < time_event_next_id s) (ids (time_events s));
}.

Lemma insert_time_perm e l : EventCenter.insert_time e l ≡ₚ e :: l.
Proof.
  induction l as [|x l IH]; simpl; [done|]. destruct (_ <? _); [done|]. rewrite IH. constructor.
Qed.

Lemma insert_time_sorted e l : StronglySorted earlier l → StronglySorted earlier (EventCenter.insert_time e l).
Proof.
  induction 1 as [|x l Hl IH Hx]; simpl; [repeat constructor|].
  destruct (Z.ltb_spec (te_expire e) (te_expire x)).
  - constructor; [by constructor|]. constructor; [unfold earlier; lia|].
    eapply Forall_impl; [done|]. unfold earlier. intros; lia.
  - constructor; [done|]. rewrite insert_time_perm. constructor; [done|done].
Qed.

Lemma filter_sorted (P : time_event → Prop) `{∀ x, Decision (P x)} l :
  StronglySorted earlier l → StronglySorted earlier (filter P l).
Proof.
  induction 1 as [|x l Hl IH Hx]; [constructor|]. rewrite filter_cons. case_decide; [|done].
  constructor; [done|]. by apply Forall_filter_keep.
Qed.

Lemma erase_time_ids i l : ids (EventCenter.erase_time i l) = filter (λ x, x ≠ i) (ids l).
Proof.
  unfold ids, EventCenter.erase_time. induction l as [|x l IH]; [done|].
  rewrite filter_cons, fmap_cons, filter_cons. repeat case_decide; try done. by rewrite fmap_cons, IH.
Qed.

Lemma timers_ok_create s self us ctxt : timers_ok s →
  1 ≤ time_event_next_id s < 18446744073709551615 →
  wlp (EventCenter.create_time_event self us ctxt) (λ id s', timers_ok s' ∧
    id = time_event_next_id s ∧ ∃ e, te_id e = id ∧ time_cb e = ctxt ∧ time_events s' ≡ₚ e :: time_events s) s.
Proof.
  intros [Hs Hn Hm Hg] Hnext. unfold EventCenter.create_time_event, EventCenter.now, kcall.
  apply wlp_bind, wlp_gets, wlp_bind, wlp_assert. intros _. apply wlp_bind, wlp_gets, wlp_bind, wlp_modify.
  unfold wlp, mbind, ST_bind. simpl. destruct (k_call e_clock_now (kernel s)) as [[[t ?] ?] w]. simpl.
  set (e := mkTE _ _ _). pose proof (insert_time_perm e (time_events s)) as Hp.
  rewrite u64_small by (unfold is_u64; lia). split; [split; simpl|split; [done|by exists e]].
  - by apply insert_time_sorted.
  - unfold ids. rewrite Hp. constructor; [|done]. intros Hin. rewrite Forall_forall in Hg. apply Hg in Hin. simpl in Hin. lia.
  - unfold ids. rewrite Hp. simpl. by rewrite Hm.
  - unfold ids. rewrite Hp. constructor; [simpl; lia|]. eapply Forall_impl; [done|]. simpl. lia.
Qed.

Lemma timers_ok_delete s self id : timers_ok s →
  wlp (EventCenter.delete_time_event self id) (λ _ s', timers_ok s' ∧
    time_events s' = EventCenter.erase_time id (time_events s)) s.
Proof.
  intros Hok. pose proof Hok as [Hs Hn Hm Hg]. unfold EventCenter.delete_time_event.
  assert (id ∉ ids (time_events s) → EventCenter.erase_time id (time_events s) = time_events s) as Hsame.
  { intros Hid. unfold EventCenter.erase_time. apply filter_all. intros e He <-. apply Hid. unfold ids.
    by apply list_elem_of_fmap_2. }
  apply wlp_bind, wlp_gets, wlp_bind, wlp_assert. intros _. apply wlp_bind, wlp_gets.
  destruct (_ || _) eqn:Hr.
  { apply wlp_ret. split; [done|]. rewrite Hsame; [done|]. intros Hin. rewrite Forall_forall in Hg.
    apply Hg in Hin. lia. }
  apply wlp_bind, wlp_gets. case_bool_decide as Hin.
  - apply wlp_modify. split; [|done]. split; simpl.
    + by apply filter_sorted.
    + rewrite erase_time_ids. by apply NoDup_filter.
    + rewrite erase_time_ids, Hm. apply set_eq. intros x.
      rewrite elem_of_difference, !elem_of_list_to_set, list_elem_of_filter, elem_of_singleton. tauto.
    + rewrite erase_time_ids. by apply Forall_filter_keep.
  - apply wlp_ret. split; [done|]. rewrite Hsame; [done|]. rewrite Hm in Hin. set_solver.
Qed.
End timers.

(** *** Running the timers that are due *)

Section due_facts.
Context {W : Type}.
Implicit Types s : center W.

Lemma timers_ok_tail s e l : timers_ok s → time_events s = e :: l →
  timers_ok (set_event_map (event_map s ∖ {[te_id e]}) (set_time_events l s)) ∧
  ∀ x, x ∈ l → te_expire e ≤ te_expire x.
Proof.
  intros [Hs Hn Hm Hg] E. rewrite E in *. apply StronglySorted_inv in Hs as [Hs Hall].
  unfold ids in *. rewrite fmap_cons in *. apply NoDup_cons in Hn as [Hni Hn]. apply Forall_cons in Hg as [_ Hg].
  split; [split; simpl; try done|by apply Forall_forall].
  rewrite Hm. simpl. unfold ids. set_solver.
Qed.

Definition due (t : Z) (l : list time_event) : list time_event := filter (λ e, te_expire e ≤ t) l.

Lemma due_cons t e l : te_expire e ≤ t → due t (e :: l) = e :: due t l.
Proof. intros. unfold due. by rewrite filter_cons_True. Qed.

Lemma due_none t l : (∀ x, x ∈ l → t < te_expire x) → due t l = [].
Proof.
  unfold due. induction l as [|x l IH]; intros Hl; [done|].
  rewrite filter_cons_False by (specialize (Hl x ltac:(set_solver)); lia). apply IH. set_solver.
Qed.
End due_facts.

Section due.
Context {W : Type} `{!Kernel W}.
Implicit Types s : center W.
Context (do_request : Z → Z → ST (center W) unit).

(** Callbacks that return, leave the timers alone and are recorded: [ran] is
    what has been called, with its argument. *)
Context (ran : W → list (Z * Z)).
Hypothesis callbacks_return : ∀ cb id s, ∃ s',
  do_request cb id s = Ret (tt, s') ∧ time_events s' = time_events s ∧ event_map s' = event_map s ∧
  time_event_next_id s' = time_event_next_id s ∧ ran (kernel s') = ran (kernel s) ++ [(cb, id)].
Hypothesis clock_silent : ∀ w, ran (k_call e_clock_now w).2 = ran w.

Lemma time_loop_run t l : ∀ fuel n s, time_events s = l → timers_ok s → Forall (λ e, time_cb e ≠ 0) l →
  (length l ≤ fuel)%nat →
  ∃ s', EventCenter.time_loop do_request fuel t n s = Ret (n + Z.of_nat (length (due t l)), s') ∧
    timers_ok s' ∧ time_events s' = filter (λ e, t < te_expire e) l ∧
    ran (kernel s') = ran (kernel s) ++ ((λ e, (time_cb e, te_id e)) <$> due t l).
Proof using callbacks_return.
  induction l as [|e l IH]; intros fuel n s El Hok Hcb Hf.
  - exists s. destruct fuel; cbn [EventCenter.time_loop]; rewrite (bind_run _ _ _ [] s) by (by unfold gets; rewrite El);
      simpl; rewrite Z.add_0_r, app_nil_r; done.
  - destruct (timers_ok_tail s e l Hok El) as [Hok1 Hlater]. apply Forall_cons in Hcb as [Hcb Hcbs].
    destruct fuel as [|fuel]; [simpl in Hf; lia|]. simpl in Hf. cbn [EventCenter.time_loop].
    rewrite (bind_run _ _ _ (e :: l) s) by (by unfold gets; rewrite El).
    destruct (Z.leb_spec (te_expire e) t) as [Hdue|Hnot].
    + set (s1 := set_event_map _ _) in Hok1. rewrite (bind_run _ _ _ tt s1 eq_refl).
      destruct (callbacks_return (time_cb e) (te_id e) s1) as (s2&E2&Et&Em&En&Er).
      assert (EventCenter.call do_request (time_cb e) (te_id e) s1 = Ret (tt, s2)) as Ec
        by (unfold EventCenter.call; by rewrite (proj2 (Z.eqb_neq _ 0))).
      rewrite (bind_run _ _ _ _ _ Ec).
      destruct (IH fuel (n + 1) s2) as (s3&E3&Hok3&Ht3&Hr3); [by rewrite Et| |done|lia|].
      { destruct Hok1. split; rewrite ?Et, ?Em, ?En; done. }
      exists s3. rewrite due_cons, filter_cons_False by lia. simpl. split_and!; [|done|done|].
      * rewrite E3. do 2 f_equal. lia.
      * rewrite Hr3, Er. simpl. by rewrite <-app_assoc.
    + exists s. assert (due t (e :: l) = []) as ->.
      { apply due_none. intros x [->|Hx]%elem_of_cons; [done|]. apply Hlater in Hx. lia. }
      simpl. rewrite Z.add_0_r, app_nil_r. split_and!; [done|done| |done].
      rewrite filter_all; [done|]. intros x [->|Hx]%elem_of_cons; [done|]. apply Hlater in Hx. lia.
Qed.

(** C26: [process_time_events] runs the callback of every timer that has
    expired at the time read, each once and in the order of their expiry,
    returns how many there were and keeps exactly the timers that have not. *)
Theorem due_timers_run s fuel : timers_ok s → Forall (λ e, time_cb e ≠ 0) (time_events s) →
  (length (time_events s) ≤ fuel)%nat →
  let t := (k_call e_clock_now (kernel s)).1.1.1 in
  ∃ s', EventCenter.process_time_events do_request fuel s = Ret (Z.of_nat (length (due t (time_events s))), s') ∧
    timers_ok s' ∧ time_events s' = filter (λ e, t < te_expire e) (time_events s) ∧
    ran (kernel s') = ran (kernel s) ++ ((λ e, (time_cb e, te_id e)) <$> due t (time_events s)).
Proof using callbacks_return clock_silent.
  intros Hok Hcb Hf t. unfold EventCenter.process_time_events.
  set (s1 := set_kernel (k_call e_clock_now (kernel s)).2 s).
  assert (EventCenter.now s = Ret (t, s1)) as En.
  { unfold EventCenter.now, kcall, mbind, ST_bind. subst t s1. by destruct (k_call e_clock_now (kernel s)) as [[[? ?] ?] ?]. }
  rewrite (bind_run _ _ _ _ _ En).
  destruct (time_loop_run t (time_events s) fuel 0 s1) as (s'&E&H1&H2&H3); [done| |done|done|].
  { by destruct Hok. }
  exists s'. split_and!; [done|done|done|]. rewrite H3. f_equal. apply clock_silent.
Qed.
End due.

(** A kernel whose clock reads 10 and that keeps a log of the callbacks *)
Definition clock_call (c : ecall) (l : list (Z * Z)) : reply * list (Z * Z) := (10, 0, [], l).
#[global] Instance clock_kernel : Kernel (list (Z * Z)) := clock_call.
Definition log_request (cb id : Z) : ST (center (list (Z * Z))) unit :=
  modify (λ s, set_kernel (kernel s ++ [(cb, id)]) s).
Definition center_timers : center (list (Z * Z)) :=
  set_time_event_next_id 4 (set_event_map {[1; 2; 3]}
    (set_time_events [mkTE 3 2 50; mkTE 8 3 60; mkTE 12 1 70] (EventCenter.create []))).

Lemma due_timers_run_witness : ∃ s',
  EventCenter.process_time_events log_request 3 center_timers = Ret (2, s') ∧ timers_ok s' ∧
  time_events s' = [mkTE 12 1 70] ∧ kernel s' = [(50, 2); (60, 3)].
Proof.
  refine (due_timers_run log_request id _ _ center_timers 3 _ _ _).
  - intros cb id s. by eexists.
  - done.
  - split; simpl.
    + repeat constructor; unfold earlier; simpl; lia.
    + refine (bool_decide_unpack _ _). by vm_compute.
    + refine (bool_decide_unpack _ _). by vm_compute.
    + repeat constructor; simpl; lia.
  - repeat constructor; done.
  - simpl. lia.
Defined.

(** ** Other threads wake the centre up *)

(** The pipe of a centre: a write that does not fail adds a byte, and fails
    with EAGAIN only when the pipe is full. *)
Class NotifyPipe (W : Type) `{Kernel W} := {
  pipe_bytes : W → nat;
  pipe_write fd w :
    let '(n, err, _, w') := k_call (e_write fd) w in
    (0 ≤ n → pipe_bytes w' = S (pipe_bytes w)) ∧
    (n < 0 → err = EAGAIN → (0 < pipe_bytes w)%nat ∧ pipe_bytes w' = pipe_bytes w);
}.

Section wakeups.
Context {W : Type} `{!Kernel W, !NotifyPipe W}.
Implicit Types s : center W.

(** The owning thread is between the calls of its loop, or has decided to
    sleep in epoll_wait. *)
Inductive phase := Running | Waiting.

(** The centre with its thread's phase and the number of other threads that
    have queued the first callback and not yet written to the pipe. The
    queue's length stays below what its counter holds. *)
Inductive wake_step : center W * phase * nat → center W * phase * nat → Prop :=
| ws_enqueue e num s s' p n : Z.of_nat (length (external_events s)) < 18446744073709551615 →
    EventCenter.enqueue_external e s = Ret (num, s') →
    wake_step (s, p, n) (s', p, if num =? 1 then S n else n)
| ws_wakeup s s' p n : EventCenter.wakeup s = Ret (tt, s') → wake_step (s, p, S n) (s', p, n)
| ws_enqueue_own e num s s' n : Z.of_nat (length (external_events s)) < 18446744073709551615 →
    EventCenter.enqueue_external e s = Ret (num, s') → wake_step (s, Running, n) (s', Running, n)
| ws_decide b s s' n : EventCenter.may_block s = Ret (b, s') →
    wake_step (s, Running, n) (s', if b : bool then Waiting else Running, n)
| ws_awake s n : wake_step (s, Waiting, n) (s, Running, n)
| ws_notified fuel fd s s' n : EventCenter.handle_notify fuel fd s = Ret (tt, s') →
    wake_step (s, Running, n) (s', Running, n)
| ws_take cur s s' n : EventCenter.take_external s = Ret (cur, s') → wake_step (s, Running, n) (s', Running, n)
| ws_pollers l s n : wake_step (s, Running, n) (set_pollers l s, Running, n).

Definition wake_inv (x : center W * phase * nat) : Prop :=
  let '(s, p, n) := x in
  external_num_events s = Z.of_nat (length (external_events s)) ∧
  (p = Waiting → pollers s = [] ∧ (external_events s ≠ [] → (0 < pipe_bytes (kernel s))%nat ∨ (0 < n)%nat)).

Lemma enqueue_spec e s : Z.of_nat (length (external_events s)) < 18446744073709551615 →
  external_num_events s = Z.of_nat (length (external_events s)) →
  wlp (EventCenter.enqueue_external e) (λ num s',
    kernel s' = kernel s ∧ pollers s' = pollers s ∧
    external_num_events s' = Z.of_nat (length (external_events s')) ∧
    (external_events s = [] → num = 1) ∧ (external_events s ≠ [] → num ≠ 1)) s.
Proof.
  intros Hlen Hnum. unfold EventCenter.enqueue_external. apply wlp_bind, wlp_gets, wlp_bind, wlp_gets.
  destruct (_ && _) eqn:E.
  - apply wlp_ret. split_and!; try done. intros El. rewrite El in Hnum. simpl in Hnum. rewrite Hnum in E. done.
  - apply wlp_bind, wlp_modify, wlp_ret. simpl. rewrite length_app. simpl.
    rewrite u64_small by (unfold is_u64; lia). split_and!; [done|done|lia|intros El; rewrite El in Hnum; simpl in *; lia|].
    destruct (external_events s); [done|]. simpl in *. lia.
Qed.

Lemma wakeup_spec s : pollers s = [] →
  wlp EventCenter.wakeup (λ _ s', (0 < pipe_bytes (kernel s'))%nat ∧ external_events s' = external_events s ∧
    external_num_events s' = external_num_events s ∧ pollers s' = pollers s) s.
Proof.
  intros Hp. unfold EventCenter.wakeup, kcall. apply wlp_bind, wlp_gets. rewrite Hp. simpl.
  apply wlp_bind, wlp_gets. unfold wlp, mbind, ST_bind. pose proof (pipe_write (notify_send_fd s) (kernel s)) as H.
  destruct (k_call _ _) as [[[n err] out] w]. destruct H as [H1 H2].
  destruct (_ && _) eqn:E; [done|]. simpl. split_and!; [|done|done|done].
  destruct (Z.ltb_spec n 0); [|rewrite H1 by done; lia].
  destruct (Z.eqb_spec err EAGAIN); [|done]. destruct H2 as [? ->]; done.
Qed.

(** [handle_notify] and an unneeded wakeup leave the queue alone. *)
Lemma handle_notify_frame fuel fd :
  frame (λ s : center W, (external_events s, external_num_events s)) (EventCenter.handle_notify fuel fd).
Proof.
  induction fuel as [|fuel IH]; simpl; [apply frame_fail|]. apply frame_bind.
  - intros s [[r err] out] s'. unfold kcall. destruct (k_call _ _) as [[[??]?]?]. by intros [= <- <- <- <-].
  - intros [[r err] out]. destruct (0 <? r); [done|apply frame_ret].
Qed.

Lemma wake_step_inv x y : wake_inv x → wake_step x y → wake_inv y.
Proof.
  intros Hinv Hstep. destruct Hstep as [e num s s' p n Hlen E|s s' p n E|e num s s' n Hlen E|b s s' n E|s n|fuel fd s s' n E|cur s s' n E|l s n];
    destruct Hinv as [Hnum Hw].
  - destruct (wlp_elim _ _ _ _ _ (enqueue_spec e s Hlen Hnum) E) as (Ek&Ep&En&H1&H2).
    split; [done|]. intros Hp. destruct (Hw Hp) as [Hpl Hq]. split; [congruence|]. intros _.
    rewrite Ek. destruct (external_events s) eqn:El.
    + rewrite H1 by done. right. simpl. lia.
    + destruct Hq as [?|?]; [done|by left|right]. destruct (num =? 1); lia.
  - destruct (decide (pollers s = [])) as [Hpl|Hpl].
    + destruct (wlp_elim _ _ _ _ _ (wakeup_spec s Hpl) E) as (Hb&Ee&En&Ep). split; [congruence|].
      intros _. split; [congruence|]. by left.
    + unfold EventCenter.wakeup, gets, mbind, ST_bind in E. rewrite bool_decide_false in E by done.
      injection E as <-. split; [done|]. intros Hp. destruct (Hw Hp) as [? _]. done.
  - destruct (wlp_elim _ _ _ _ _ (enqueue_spec e s Hlen Hnum) E) as (Ek&Ep&En&_). by split.
  - unfold EventCenter.may_block, gets, mbind, ST_bind, mret, ST_ret in E. injection E as <- <-.
    split; [done|]. case_bool_decide; simpl; [|done]. destruct (Z.eqb_spec (external_num_events s) 0) as [E0|]; [|done].
    intros _. split; [done|]. rewrite E0 in Hnum. destruct (external_events s); [done|simpl in Hnum; lia].
  - by split.
  - apply handle_notify_frame in E. injection E as E1 E2. split; [congruence|done].
  - injection E as <- <-. by split.
  - by split.
Qed.

(** C9: No wakeup is lost: however other threads' dispatches interleave with
    the loop of the owning thread, when the thread has decided to sleep and a
    callback is queued, then the pipe it sleeps on holds a byte as soon as no
    dispatching thread is between queueing and writing. *)
Theorem no_lost_wakeup s s' p n :
  external_events s = [] → external_num_events s = 0 → rtc wake_step (s, Running, 0%nat) (s', p, n) →
  external_num_events s' = Z.of_nat (length (external_events s')) ∧
  (p = Waiting → external_events s' ≠ [] → n = 0%nat → (0 < pipe_bytes (kernel s'))%nat).
Proof.
  intros He Hn Hrun.
  destruct (rtc_invariant wake_step wake_inv (s, Running, 0%nat) (s', p, n)) as [H1 H2];
    [apply wake_step_inv|split; [by rewrite Hn, He|done]|done|].
  split; [done|]. intros Hp Hq ->. destruct (H2 Hp) as [_ H]. destruct (H Hq); [done|lia].
Qed.
End wakeups.

(** A pipe that counts its bytes *)
Definition pipe_call (c : ecall) (n : nat) : reply * nat :=
  match c with e_write _ => (1, 0, [], S n) | _ => (0, 0, [], n) end.
#[global] Instance pipe_kernel : Kernel nat := pipe_call.
#[global] Instance pipe_laws : NotifyPipe nat.
Proof. refine {| pipe_bytes := id |}. intros fd w. simpl. split; [done|]. intros; lia. Defined.

Definition sleeper : center nat := EventCenter.create 0%nat.
Definition sleeper_queued : center nat :=
  set_external_num_events 1 (set_external_events [42] sleeper).

Lemma no_lost_wakeup_witness :
  external_num_events (set_kernel 1%nat sleeper_queued) = 1 ∧
  (Waiting = Waiting → [42] ≠ [] → 0%nat = 0%nat → (0 < 1)%nat).
Proof.
  refine (no_lost_wakeup sleeper (set_kernel 1%nat sleeper_queued) Waiting 0%nat eq_refl eq_refl _).
  eapply rtc_l; [apply (ws_decide true sleeper sleeper); done|].
  eapply rtc_l; [apply (ws_enqueue 42 1 sleeper sleeper_queued Waiting 0%nat); done|].
  apply rtc_once. by apply (ws_wakeup sleeper_queued (set_kernel 1%nat sleeper_queued) Waiting 0%nat).
Defined.

(** ** Pollers *)

Section pollers.
Context {W : Type}.
Implicit Types s : center W.

(** Every poller knows its place in the vector. *)
Definition slots_ok s : Prop := ∀ p i, pollers s !! i = Some p ↔ slots s !! p = Some (Z.of_nat i).

Lemma slots_ok_nodup s : slots_ok s → NoDup (pollers s).
Proof.
  intros H. apply NoDup_alt. intros i j p Hi Hj. apply H in Hi, Hj. rewrite Hi in Hj. simplify_eq. lia.
Qed.

(** The place of the removed poller is taken by the last one. *)
Lemma swap_remove (l : list Z) b i p : (l ++ [b]) !! i = Some p →
  take (length (<[i := b]> (l ++ [b])) - 1) (<[i := b]> (l ++ [b])) = if decide (i = length l) then l else <[i := b]> l.
Proof.
  intros Hi. rewrite length_insert, length_app. simpl. replace (length l + 1 - 1)%nat with (length l) by lia.
  apply lookup_lt_Some in Hi. rewrite length_app in Hi. simpl in Hi. case_decide.
  - subst. rewrite insert_app_r_alt by lia. rewrite take_app_length. done.
  - rewrite insert_app_l by lia. rewrite take_app_length'; [done|]. by rewrite length_insert.
Qed.

Lemma swap_remove_perm (l : list Z) b i p : (l ++ [b]) !! i = Some p →
  l ++ [b] ≡ₚ p :: if decide (i = length l) then l else <[i := b]> l.
Proof.
  intros Hi. case_decide as E.
  - subst. rewrite list_lookup_middle in Hi by done. injection Hi as <-. symmetry. apply Permutation_cons_append.
  - assert (i < length l)%nat as Hlt.
    { apply lookup_lt_Some in Hi. rewrite length_app in Hi. simpl in Hi. lia. }
    rewrite lookup_app_l in Hi by done. rewrite insert_take_drop by done.
    rewrite <-(take_drop_middle l i p Hi) at 1. rewrite <-app_assoc. simpl. rewrite <-Permutation_middle.
    constructor. apply Permutation_app_head. symmetry. apply Permutation_cons_append.
Qed.

Lemma swap_remove_slots s l b i p : slots_ok s → pollers s = l ++ [b] → (l ++ [b]) !! i = Some p →
  ∀ q j, (if decide (i = length l) then l else <[i := b]> l) !! j = Some q ↔
    (<[p := -1]> (<[b := Z.of_nat i]> (slots s)) : gmap Z Z) !! q = Some (Z.of_nat j).
Proof.
  intros Hok El Hi q j. pose proof (slots_ok_nodup s Hok) as Hnd. rewrite El in Hnd.
  apply NoDup_app in Hnd as (Hnl&Hb&_). assert (b ∉ l) as Hbl by (intros Hin; apply (Hb b Hin); by apply list_elem_of_singleton).
  assert (∀ x k, l !! k = Some x → slots s !! x = Some (Z.of_nat k)) as Hl.
  { intros x k Hk. apply Hok. rewrite El. by apply lookup_app_l_Some. }
  assert (∀ x k, slots s !! x = Some (Z.of_nat k) → x ≠ b → l !! k = Some x) as Hl'.
  { intros x k Hk%Hok Hx. rewrite El in Hk. apply lookup_app_Some in Hk as [?|[_ Hk]]; [done|].
    by apply list_lookup_singleton_Some in Hk as [_ ?]. }
  destruct (decide (i = length l)) as [->|E].
  - rewrite list_lookup_middle in Hi by done. injection Hi as <-. rewrite insert_insert_eq, lookup_insert.
    case_decide; subst; [|naive_solver].
    split; [intros Hj; by apply list_elem_of_lookup_2 in Hj|intros [= ?]; lia].
  - assert (i < length l)%nat as Hlt.
    { apply lookup_lt_Some in Hi. rewrite length_app in Hi. simpl in Hi. lia. }
    rewrite lookup_app_l in Hi by done. assert (p ≠ b) as Hpb by (intros ->; by apply list_elem_of_lookup_2 in Hi).
    rewrite list_lookup_insert_Some, !lookup_insert. repeat case_decide; subst.
    + split; [|intros [= ?]; lia]. intros [(?&?&_)|[Hne Hj]]; [done|].
      exfalso. apply Hne. by eapply NoDup_lookup.
    + split; [|intros [= ?%Nat2Z.inj]; subst; by left]. intros [(->&_)|[_ Hj]]; [done|].
      by apply list_elem_of_lookup_2 in Hj.
    + split; [intros [(?&?&_)|[_ Hj]]; [done|by apply Hl]|]. intros Hq. right. split; [|by apply Hl'].
      intros ->. apply Hl' in Hq; [|done]. congruence.
Qed.

(** A poller that is made is appended, one that is destroyed disappears, and
    all others keep knowing their places. *)
Theorem poller_places s p :
  slots_ok s →
  (p ∉ pollers s → ∃ s', EventCenter.add_poller p s = Ret (tt, s') ∧ slots_ok s' ∧ pollers s' = pollers s ++ [p]) ∧
  (p ∈ pollers s → ∃ s', EventCenter.delete_poller p s = Ret (tt, s') ∧ slots_ok s' ∧ pollers s ≡ₚ p :: pollers s').
Proof.
  intros Hok. split.
  - intros Hp. eexists. split; [reflexivity|]. split; [|done]. intros q i. simpl.
    rewrite lookup_insert. case_decide as Hq.
    + subst. split.
      * intros [Hi|[? Hi]]%lookup_app_Some; [by apply list_elem_of_lookup_2 in Hi|].
        apply list_lookup_singleton_Some in Hi as [? _]. f_equal. lia.
      * intros [= ?%Nat2Z.inj]. subst. by rewrite list_lookup_middle.
    + rewrite <-(Hok q i). split.
      * intros [Hi|[? Hi]]%lookup_app_Some; [done|]. by apply list_lookup_singleton_Some in Hi as [_ ?].
      * intros Hi. by apply lookup_app_l_Some.
  - intros [i Hi]%list_elem_of_lookup. pose proof (slots_ok_nodup s Hok) as Hnd.
    destruct (pollers s) as [|b l _] eqn:El using rev_ind; [done|].
    pose proof (proj1 (Hok p i)) as Hslot. rewrite El in Hslot. specialize (Hslot Hi).
    assert (i < length (l ++ [b]))%nat as Hlt by by eapply lookup_lt_Some.
    unfold EventCenter.delete_poller, gets, mbind, ST_bind. simpl. rewrite Hslot. simpl. rewrite El, last_snoc. simpl.
    rewrite (proj2 (Z.ltb_ge _ 0)), (proj2 (Z.ltb_lt _ _)) by lia. simpl. rewrite Nat2Z.id.
    eexists. split; [reflexivity|]. unfold slots_ok. simpl. rewrite (swap_remove l b i p Hi).
    split; [by apply swap_remove_slots|by apply swap_remove_perm].
Qed.
End pollers.
