(* ===== verification/EventSelect.v ===== *)
(** * The select driver (src/network/EventSelect.h and .cc)

    The driver keeps the descriptors to watch in two [fd_set]s. The answer of
    select is an argument of [event_wait]. *)

From S2P Require Import Prelude State Machine Socket Event.

Definition FD_SETSIZE : Z := 1024.

Module SelectDriver.

Record t := mk { rfds : gset Z; wfds : gset Z; max_fd : Z }.

Definition init : t := mk ∅ ∅ 0.

(** [FD_SET] and [FD_CLR] outside of the set write past it. *)
Definition in_set (fd : Z) : bool := (0 <=? fd) && (fd <? FD_SETSIZE).

Definition add_event (fd cur_mask add_mask : Z) (d : t) : outcome t :=
  let mask := Z.lor cur_mask add_mask in
  let r := negb (Z.land mask EVENT_READABLE =? 0) in
  let w := negb (Z.land mask EVENT_WRITABLE =? 0) in
  if (r || w) && negb (in_set fd) then Crash Undefined else
  Ret (mk (if r then {[fd]} ∪ rfds d else rfds d) (if w then {[fd]} ∪ wfds d else wfds d)
          (if max_fd d <? fd then fd else max_fd d)).

Definition del_event (fd cur_mask delmask : Z) (d : t) : outcome t :=
  let r := negb (Z.land delmask EVENT_READABLE =? 0) in
  let w := negb (Z.land delmask EVENT_WRITABLE =? 0) in
  if (r || w) && negb (in_set fd) then Crash Undefined else
  Ret (mk (if r then rfds d ∖ {[fd]} else rfds d) (if w then wfds d ∖ {[fd]} else wfds d) (max_fd d)).

Definition resize_events (newsize : Z) : Z := 0.

Definition fired_mask (r w : gset Z) (j : Z) : Z :=
  Z.lor (if bool_decide (j ∈ r) then EVENT_READABLE else 0) (if bool_decide (j ∈ w) then EVENT_WRITABLE else 0).

(** [retval], [r] and [w] are what select returned and left in the sets. *)
Definition event_wait (retval : Z) (r w : gset Z) (d : t) : list (Z * Z) :=
  if 0 <? retval then
    filter (λ x, x.2 ≠ 0) ((λ j, (j, fired_mask r w j)) <$> seqZ 0 (max_fd d + 1))
  else [].

(** ** Facts *)

(** What is watched lies between 0 and [max_fd]. *)
Definition ok (d : t) : Prop := ∀ fd, fd ∈ rfds d ∪ wfds d → 0 ≤ fd ≤ max_fd d ∧ max_fd d < FD_SETSIZE.

Lemma ok_add fd cur add d d' : ok d → max_fd d < FD_SETSIZE → add_event fd cur add d = Ret d' →
  fd < FD_SETSIZE → ok d' ∧ max_fd d' < FD_SETSIZE.
Proof.
  intros Hok Hmax H Hfd. unfold add_event in H.
  set (r := negb (Z.land _ EVENT_READABLE =? 0)) in H. set (w := negb (Z.land _ EVENT_WRITABLE =? 0)) in H.
  assert (max_fd d ≤ (if max_fd d <? fd then fd else max_fd d) ∧ fd ≤ (if max_fd d <? fd then fd else max_fd d) ∧
    (if max_fd d <? fd then fd else max_fd d) < FD_SETSIZE) as (Hm&Hf&Hs).
  { destruct (Z.ltb_spec (max_fd d) fd); lia. }
  assert (r || w = true → in_set fd = true) as Hset by (intros Hrw; rewrite Hrw in H; by destruct (in_set fd)).
  destruct (_ && _) in H; [done|]. injection H as <-. split; [|simpl; lia]. intros x Hx. simpl in *.
  destruct (decide (x ∈ rfds d ∪ wfds d)) as [Hin|Hnin]; [apply Hok in Hin; lia|].
  assert (x = fd ∧ r || w = true) as [-> Hrw] by (destruct r, w; set_solver).
  apply Hset in Hrw. unfold in_set in Hrw. lia.
Qed.

(** The driver reports each descriptor select has left in a set once, with the
    mask of the sets it is in, and no other. *)
Theorem event_wait_reports retval r w d fd m : ok d → r ⊆ rfds d → w ⊆ wfds d → 0 < retval →
  (fd, m) ∈ event_wait retval r w d ↔
  fd ∈ r ∪ w ∧ m = fired_mask r w fd.
Proof.
  intros Hok Hr Hw Hret. unfold event_wait. rewrite (proj2 (Z.ltb_lt 0 retval)) by done.
  rewrite list_elem_of_filter, list_elem_of_fmap. simpl. split.
  - intros (Hne&j&[= -> ->]&_). split; [|done]. unfold fired_mask in Hne.
    repeat case_bool_decide; set_solver.
  - intros [Hin ->]. assert (0 ≤ fd ≤ max_fd d ∧ max_fd d < FD_SETSIZE) by (apply Hok; set_solver). split.
    + unfold fired_mask. repeat case_bool_decide; simpl; try done. set_solver.
    + exists fd. split; [done|]. apply elem_of_seqZ. lia.
Qed.

End SelectDriver.
