(* ===== verification/Posix.v ===== *)
(** * The sockets of the operating system as a network stack
      (src/network/PosixStack.h and .cc)

    [PosixConnectedSocketImpl], [PosixServerSocketImpl] and [PosixWorker] over
    the system calls of a [World]. Gathering writes name the bytes they send
    by address. *)

From S2P Require Import Prelude State Addr Buffers PerfCounters Machine Memory QueuePair Net Socket.

Definition kPosixIOVMax : nat := 1024.

(** An [iovec]: base and length *)
Definition iovec : Type := Z * Z.

Module Posix.
Section posix_ops.
Context {W P : Type} `{!World W} (cfg : config).
Abbreviation M := (M W P).

Record connected_socket := mkSock { p_fd : Z; p_sa : entity_addr_t; p_connected : bool }.

(** The loop of [write]; [fuel] bounds the calls. A [continue] tests [size]. *)
Fixpoint write_loop (fuel : nat) (fd : Z) (buf : list Z) (sent : Z) : M Z :=
  match fuel with
  | O => fail NoFuel
  | S fuel =>
    r ← sysret (c_write fd buf);
    if r <? 0 then
      err ← errno;
      if err =? EINTR then (if bool_decide (buf = []) then mret sent else write_loop fuel fd buf sent) else
      if err =? EAGAIN then mret sent else mret (- err)
    else
      let sent := sent + r in
      let buf := drop (Z.to_nat r) buf in
      if bool_decide (buf = []) then mret sent else write_loop fuel fd buf sent
  end.
Definition write (fuel : nat) (s : connected_socket) (buf : list Z) : M Z := write_loop fuel (p_fd s) buf 0.

Definition is_connected (s : connected_socket) : M (Z * connected_socket) :=
  if p_connected s then mret (1, s) else
  r ← NetHandler.reconnect (p_sa s) (p_fd s);
  if r =? 0 then mret (1, mkSock (p_fd s) (p_sa s) true) else
  if r <? 0 then mret (r, s) else mret (0, s).

Definition read (s : connected_socket) (len : Z) : M (Z * list Z) :=
  '(r, out) ← sys (c_read (p_fd s) len);
  if r <? 0 then e ← errno; mret (- e, out) else mret (r, out).

(** What is left of the vector when [r] bytes of it were sent. Reading an
    entry past the last one is [Undefined]. *)
Fixpoint consume (r : Z) (iov : list iovec) : outcome (list iovec) :=
  if r <=? 0 then Ret iov else
  match iov with
  | [] => Crash Undefined
  | (base, len) :: rest => if len <=? r then consume (r - len) rest else Ret ((base + r, len - r) :: rest)
  end.

Fixpoint sendmsg_loop (fuel : nat) (fd : Z) (iov : list iovec) (len : Z) (more : bool) (sent : Z) : M Z :=
  match fuel with
  | O => fail NoFuel
  | S fuel =>
    r ← sysret (c_sendmsg fd iov more);
    if r <? 0 then
      err ← errno;
      if err =? EINTR then sendmsg_loop fuel fd iov len more sent else
      if err =? EAGAIN then mret sent else mret (- err)
    else
      let sent := sent + r in
      if len =? sent then mret sent else
      iov ← lift (consume r iov);
      sendmsg_loop fuel fd iov len more sent
  end.
Definition do_sendmsg (fuel : nat) (fd : Z) (iov : list iovec) (len : Z) (more : bool) : M Z :=
  sendmsg_loop fuel fd iov len more 0.

(** The vector for a batch of buffers, and its length on 32 bits *)
Definition iov_of (pbs : list Buffer.t) : list iovec := (λ b, (Buffer.get_buffer b, Buffer.get_len b)) <$> pbs.
Definition msglen (iov : list iovec) : Z := u32 (Zsum (iov.*2)).

(** The batches of at most [kPosixIOVMax] buffers; [rounds] bounds them. *)
Fixpoint send_loop (rounds fuel : nat) (fd : Z) (more : bool) (pbs : list Buffer.t) (sent_bytes : Z) : M Z :=
  match pbs with
  | [] => mret sent_bytes
  | _ =>
    match rounds with
    | O => fail NoFuel
    | S rounds =>
      let iov := iov_of (take kPosixIOVMax pbs) in
      let rest := drop kPosixIOVMax pbs in
      r ← do_sendmsg fuel fd iov (msglen iov) (negb (bool_decide (rest = [])) || more);
      if r <? 0 then mret r else
      if u32 r <? msglen iov then mret (sent_bytes + r) else
      send_loop rounds fuel fd more rest (sent_bytes + r)
    end
  end.

(** An error of a later batch replaces the count of the batches before. *)
Definition send (fuel : nat) (s : connected_socket) (bl : BufferList.t) (more : bool) : M (Z * BufferList.t) :=
  let pbs := BufferList.buffer_list bl in
  r ← send_loop (length pbs) fuel (p_fd s) more pbs 0;
  if r <=? 0 then mret (r, bl) else
  if r <? BufferList.get_len bl then '(_, bl) ← lift (BufferList.Move bl (u32 r)); mret (r, bl)
  else mret (r, BufferList.Clear bl).

Definition shutdown (s : connected_socket) : M unit := sysret (c_shutdown (p_fd s)) ;; mret tt.
Definition close (s : connected_socket) : M unit := sysret (c_close (p_fd s)) ;; mret tt.

(** [PosixServerSocketImpl] *)
Record server_socket := mkServerSock { ps_fd : Z; ps_addr : entity_addr_t }.

Definition accept (srv : server_socket) (opt : SocketOptions) (out : entity_addr_t) : M (Z * option connected_socket * entity_addr_t) :=
  '(sd, ss) ← sys (c_accept (ps_fd srv));
  if sd <? 0 then e ← errno; mret (- e, None, out) else
  r ← NetHandler.set_nonblock sd;
  if r <? 0 then sysret (c_close sd) ;; e ← errno; mret (- e, None, out) else
  r ← NetHandler.set_socket_options sd (o_nodelay opt) (o_rcbuf_size opt);
  if r <? 0 then sysret (c_close sd) ;; e ← errno; mret (- e, None, out) else
  let out := (Addr.set_sockaddr ss (Addr.set_type (a_type (ps_addr srv)) out)).2 in
  NetHandler.set_priority sd (o_priority opt) (Addr.get_family out) ;;
  mret (0, Some (mkSock sd out true), out).

Definition abort_accept (srv : server_socket) : M server_socket :=
  sysret (c_close (ps_fd srv)) ;; mret (mkServerSock (-1) (ps_addr srv)).

(** [PosixWorker] *)
Definition listen (sa : entity_addr_t) (opt : SocketOptions) : M (Z * option server_socket) :=
  sd ← NetHandler.create_socket (Addr.get_family sa);
  if sd <? 0 then e ← errno; mret (- e, None) else
  r ← NetHandler.set_nonblock sd;
  if r <? 0 then sysret (c_close sd) ;; e ← errno; mret (- e, None) else
  r ← NetHandler.set_socket_options sd (o_nodelay opt) (o_rcbuf_size opt);
  if r <? 0 then sysret (c_close sd) ;; e ← errno; mret (- e, None) else
  r ← sysret (c_bind sd (Addr.get_sockaddr sa));
  if r <? 0 then e ← errno; sysret (c_close sd) ;; mret (- e, None) else
  r ← sysret (c_listen sd (m_tcp_listen_backlog_ cfg));
  if r <? 0 then e ← errno; sysret (c_close sd) ;; mret (- e, None) else
  mret (0, Some (mkServerSock sd sa)).

Definition connect (addr : entity_addr_t) (opts : SocketOptions) : M (Z * option connected_socket) :=
  sd ← (if o_nonblock opts then NetHandler.nonblock_connect cfg addr (o_connect_bind_addr opts)
        else NetHandler.connect cfg addr (o_connect_bind_addr opts));
  if sd <? 0 then e ← errno; mret (- e, None) else
  NetHandler.set_priority sd (o_priority opts) (Addr.get_family addr) ;;
  mret (0, Some (mkSock sd addr (negb (o_nonblock opts)))).

End posix_ops.

(** ** What a gathering write sends *)

(** The addresses a vector names, in the order they are sent *)
Definition addrs (iov : list iovec) : list Z := iov ≫= λ '(base, len), seqZ base len.
#[global] Arguments addrs : simpl never.
Definition wf_iov (iov : list iovec) : Prop := Forall (λ v, 0 ≤ v.2) iov.

Lemma addrs_cons b l iov : addrs ((b, l) :: iov) = seqZ b l ++ addrs iov.
Proof. done. Qed.
Lemma addrs_length iov : wf_iov iov → Z.of_nat (length (addrs iov)) = Zsum (iov.*2).
Proof.
  induction 1 as [|[b l] iov Hl _ IH]; [done|]. csimpl. rewrite addrs_cons, length_app, length_seqZ.
  simpl in Hl. lia.
Qed.

(** Draining [r] bytes leaves the vector of the bytes that follow. *)
Lemma consume_spec iov : ∀ r, wf_iov iov → r ≤ Zsum (iov.*2) →
  ∃ iov', consume r iov = Ret iov' ∧ wf_iov iov' ∧ addrs iov' = drop (Z.to_nat r) (addrs iov).
Proof.
  induction iov as [|[b l] iov IH]; intros r Hw Hr; csimpl in *; (destruct (Z.leb_spec r 0) as [H0|H0];
    [eexists; split_and!; [done..|]; by replace (Z.to_nat r) with 0%nat by lia|]); [lia|].
  apply Forall_cons in Hw as [Hl Hw]. simpl in Hl. rewrite addrs_cons.
  destruct (Z.leb_spec l r).
  - destruct (IH (r - l)) as (iov'&->&?&E); [done|lia|]. exists iov'. split_and!; [done..|].
    rewrite E, drop_app_ge by (rewrite length_seqZ; lia). rewrite length_seqZ. f_equal. lia.
  - eexists. split_and!; [done|constructor; [simpl; lia|done]|].
    rewrite addrs_cons, drop_app_le by (rewrite length_seqZ; lia). f_equal.
    replace l with (r + (l - r)) at 2 by lia. rewrite seqZ_app by lia.
    by rewrite drop_app_length' by (rewrite length_seqZ; lia).
Qed.

(** What [sendmsg(2)] does on a stream: it takes some bytes off the front of
    the vector, at least one when there is one, or none and reports why; a
    signal interrupts it only so often. *)
Class Sink (W : Type) `{World W} := {
  gathered : W → list Z;
  signals : W → nat;
  sendmsg_spec fd iov more w :
    let '(r, _, w') := sys_call (c_sendmsg fd iov more) w in
    (r < 0 ∧ gathered w' = gathered w ∧ 0 < get_errno w' ∧ (signals w' ≤ signals w)%nat ∧
     (get_errno w' = EINTR → (signals w' < signals w)%nat)) ∨
    (0 ≤ r ≤ Zsum (iov.*2) ∧ (0 < Zsum (iov.*2) → 0 < r) ∧
     gathered w' = gathered w ++ take (Z.to_nat r) (addrs iov) ∧ (signals w' ≤ signals w)%nat);
}.

Section sink.
Context {W P : Type} `{!World W, !Sink W}.
Implicit Types m : mach W P.

(** The bytes sent by an operation: the first [k] of [l] *)
Definition sends (m m' : mach W P) (l : list Z) (k : Z) : Prop :=
  gathered (world m') = gathered (world m) ++ take (Z.to_nat k) l.

Lemma sends_trans m m1 m' l k1 k2 :
  0 ≤ k1 → 0 ≤ k2 → sends m m1 l k1 → sends m1 m' (drop (Z.to_nat k1) l) k2 → sends m m' l (k1 + k2).
Proof.
  unfold sends. intros ?? -> ->. rewrite <- app_assoc. f_equal.
  rewrite Z2Nat.inj_add by lia. by rewrite take_take_drop.
Qed.

Lemma sendmsg_loop_spec fuel fd more : ∀ iov len sent m,
  wf_iov iov → len = sent + Zsum (iov.*2) → 0 ≤ sent →
  (Z.to_nat (Zsum (iov.*2)) + signals (world m) < fuel)%nat →
  wp (sendmsg_loop fuel fd iov len more sent) (λ r m',
    (signals (world m') ≤ signals (world m))%nat ∧
    ∃ k, 0 ≤ k ∧ sends m m' (addrs iov) k ∧ (0 ≤ r → r = sent + k ∧ r ≤ len)) m.
Proof.
  induction fuel as [|fuel IH]; intros iov len sent m Hw Hlen Hs Hf; [lia|]. cbn [sendmsg_loop].
  assert (0 ≤ Zsum (iov.*2)) as Hnn by (rewrite <- addrs_length by done; lia).
  apply wp_bind, wp_bind, wp_sys. intros r out w' E. apply wp_ret. cbn [fst].
  pose proof (sendmsg_spec fd iov more (world m)) as Hspec. rewrite E in Hspec.
  destruct Hspec as [(Hr&Hg&He0&Hle&Hi)|(Hr&Hpos&Hg&Hi)].
  - destruct (Z.ltb_spec r 0); [|lia]. unfold errno. apply wp_bind, wp_bind, wp_gets, wp_ret. cbn [world set_world].
    assert (sends m (set_world w' m) (addrs iov) 0) as Hsame by (unfold sends; by rewrite app_nil_r).
    destruct (Z.eqb_spec (get_errno w') EINTR) as [He|He].
    { eapply wp_mono; [apply IH; simpl; try done; specialize (Hi He); lia|].
      intros r' m' (Hsig&k&?&Hk&?). simpl in Hsig. split; [specialize (Hi He); lia|].
      exists k. split_and!; [done| |done]. unfold sends in *. simpl in Hk. by rewrite Hk, Hg. }
    destruct (_ =? _); apply wp_ret; (split; [done|exists 0; split_and!; try done; lia]).
  - destruct (Z.ltb_spec r 0); [lia|].
    assert (sends m (set_world w' m) (addrs iov) r) as Hsent by done.
    destruct (Z.eqb_spec len (sent + r)); [apply wp_ret; split; [done|exists r; split_and!; try done; lia]|].
    destruct (consume_spec iov r) as (iov'&Hc&Hw'&Hd); [done|lia|].
    apply wp_bind. eapply wp_lift; [done|].
    assert (Zsum (iov'.*2) = Zsum (iov.*2) - r) as Hz.
    { pose proof (addrs_length iov Hw). pose proof (addrs_length iov' Hw') as E'.
      rewrite Hd, length_drop in E'. lia. }
    eapply wp_mono; [apply IH; simpl; try done; lia|].
    intros r' m' (Hsig&k&?&Hk&Hr'). simpl in Hsig. split; [lia|]. exists (r + k). split_and!; [lia| |lia].
    eapply sends_trans; [lia|done..|]. by rewrite <- Hd.
Qed.

(** A buffer is sent from its cursor on for its full length, so the vector is
    right when nothing of the buffers was consumed. *)
Definition fresh (b : Buffer.t) : Prop := Buffer.wf b ∧ Buffer.cur b = Buffer.start b.
Definition contents (l : list Buffer.t) : list Z := l ≫= λ b, seqZ (Buffer.cur b) (Buffer.remaining b).

Lemma iov_of_wf l : Forall fresh l → wf_iov (iov_of l).
Proof. intros Hl. apply Forall_fmap. eapply Forall_impl; [done|]. intros b [[Hb _] _]. unfold Buffer.get_len; simpl. word_lia. Qed.
Lemma iov_of_addrs l : Forall fresh l → addrs (iov_of l) = contents l.
Proof.
  unfold addrs, contents, iov_of. induction 1 as [|b l [_ Hb] _ IH]; [done|]. csimpl. rewrite IH. f_equal.
  unfold Buffer.get_buffer, Buffer.get_len, Buffer.remaining. f_equal. lia.
Qed.
Lemma contents_cons b l : contents (b :: l) = seqZ (Buffer.cur b) (Buffer.remaining b) ++ contents l.
Proof. done. Qed.
Lemma contents_app l k : contents (l ++ k) = contents l ++ contents k.
Proof. apply bind_app. Qed.
Lemma iov_of_sum l : Forall fresh l → Zsum ((iov_of l).*2) = Z.of_nat (length (contents l)).
Proof. intros Hl. rewrite <- addrs_length, iov_of_addrs; auto using iov_of_wf. Qed.

Lemma send_loop_spec rounds fuel fd more : ∀ pbs sent m,
  Forall fresh pbs → (length pbs ≤ rounds)%nat → 0 ≤ sent → Z.of_nat (length (contents pbs)) < 4294967296 →
  (length (contents pbs) + signals (world m) < fuel)%nat →
  wp (send_loop rounds fuel fd more pbs sent) (λ r m',
    ∃ k, 0 ≤ k ∧ sends m m' (contents pbs) k ∧ (0 ≤ r → r = sent + k ∧ k ≤ Z.of_nat (length (contents pbs)))) m.
Proof.
  induction rounds as [|rounds IH]; intros pbs sent m Hf Hlen Hs Hz Hfuel; (destruct pbs as [|b pbs];
    [apply wp_ret; exists 0; unfold sends; rewrite app_nil_r; split_and!; try done; simpl; lia|]);
    [simpl in Hlen; lia|].
  cbn [send_loop]. set (l := b :: pbs) in *.
  set (now := take kPosixIOVMax l) in *. set (rest := drop kPosixIOVMax l) in *.
  assert (contents l = contents now ++ contents rest) as Hsplit
    by (rewrite <- contents_app; unfold now, rest; by rewrite take_drop).
  assert (Forall fresh now ∧ Forall fresh rest) as [Hnow Hrest]
    by (split; [by apply Forall_take|by apply Forall_drop]).
  assert (length rest ≤ rounds)%nat as Hr by (unfold rest; rewrite length_drop; unfold kPosixIOVMax; simpl in *; lia).
  rewrite Hsplit, length_app in *.
  assert (msglen (iov_of now) = Z.of_nat (length (contents now))) as Hml
    by (unfold msglen; rewrite iov_of_sum by done; apply u32_small; word_lia).
  apply wp_bind. unfold do_sendmsg. eapply wp_mono;
    [apply sendmsg_loop_spec; [by apply iov_of_wf|rewrite iov_of_sum by done; lia|done|rewrite iov_of_sum by done; lia]|].
  intros r m1 (Hsig&k&Hk&Hsend&Hr0). cbn beta. rewrite iov_of_addrs in Hsend by done.
  assert (sends m m1 (contents now ++ contents rest) (Z.min k (Z.of_nat (length (contents now))))) as Hsend'.
  { unfold sends in *. rewrite Hsend. f_equal. rewrite take_app_le by lia.
    destruct (Z.min_spec k (Z.of_nat (length (contents now)))) as [[? ->]|[? ->]]; [done|].
    rewrite !take_ge by lia. done. }
  destruct (Z.ltb_spec r 0); [apply wp_ret; eexists; split_and!; [|done|]; lia|].
  destruct (Hr0 ltac:(lia)) as [-> Hle]. rewrite Hml, Z.min_l in * by lia.
  rewrite u32_small by word_lia.
  destruct (Z.ltb_spec (0 + k) (Z.of_nat (length (contents now))));
    [apply wp_ret; exists k; split_and!; try done; lia|].
  eapply wp_mono; [apply IH; try done; lia|]. intros r' m' (k'&?&Hs'&Hr').
  exists (k + k'). split_and!; [lia| |lia].
  eapply sends_trans; [lia|done..|]. by rewrite drop_app_length' by lia.
Qed.

(** Moving inside the front buffer, or to its end, removes what was sent. *)
Lemma Move_contents bl b rest size :
  BufferList.wf bl → BufferList.buffer_list bl = b :: rest → 0 < size ≤ Buffer.remaining b →
  size < BufferList.bytes bl →
  ∃ bl', BufferList.Move bl size = Ret (0, bl') ∧
    contents (BufferList.buffer_list bl') = drop (Z.to_nat size) (contents (b :: rest)).
Proof.
  intros (Hl&He&Hb) Hcons Hs Hlt. rewrite Hcons in Hl. apply Forall_cons in Hl as [Hbw _].
  assert (is_u32 size) as Hsu by word_lia.
  rewrite (BufferList.Move_cons _ _ _ _ Hcons) by word_lia.
  rewrite Buffer.GetRemainingLen_wf by (by apply Buffer.Move_wf).
  rewrite Buffer.Move_remaining, Z.min_l by (done || lia).
  destruct (Z.gtb_spec (BufferList.len bl) size); [|lia]. mstep. eexists; split; [done|].
  cbn [BufferList.buffer_list]. rewrite (contents_cons b), drop_app_le by (rewrite length_seqZ; lia).
  assert (Buffer.cur (Buffer.Move b size).2 = Buffer.cur b + size) as Hcur.
  { unfold Buffer.Move; simpl. unfold Buffer.remaining in Hs.
    destruct (Z.gtb_spec (Buffer.start b + Buffer.len b) (Buffer.cur b + size)); lia. }
  replace (Buffer.remaining b) with (size + (Buffer.remaining b - size)) at 2 by lia.
  rewrite seqZ_app, drop_app_length' by (rewrite ?length_seqZ; lia).
  destruct (Z.eqb_spec (Buffer.remaining b - size) 0) as [E|E]; [by rewrite E|]. rewrite contents_cons. f_equal.
  by rewrite Hcur, Buffer.Move_remaining, Z.min_l by (done || lia).
Qed.

(** C27: [send] of a list whose buffers were not consumed yet: it returns, the
    bytes that leave are a prefix of the list's bytes, in order and once each,
    however the system call splits them and however often it is interrupted;
    a count that is returned is the number of bytes sent; and when the count
    ends inside the front buffer, or is everything, what stays in the list is
    what was not sent. *)
Theorem send_gathers fuel s bl more m :
  BufferList.wf bl → Forall fresh (BufferList.buffer_list bl) →
  (Z.to_nat (BufferList.bytes bl) + signals (world m) < fuel)%nat →
  wp (send fuel s bl more) (λ '(r, bl') m',
    let all := contents (BufferList.buffer_list bl) in
    ∃ k, 0 ≤ k ∧ sends m m' all k ∧
    (r < 0 → bl' = bl) ∧
    (0 ≤ r → r = k ∧ r ≤ BufferList.bytes bl ∧
      ∀ b rest, BufferList.buffer_list bl = b :: rest → r ≤ Buffer.remaining b ∨ r = BufferList.bytes bl →
        contents (BufferList.buffer_list bl') = drop (Z.to_nat r) all)) m.
Proof.
  intros Hw Hf Hfuel. destruct (id Hw) as (_&He&Hu).
  assert (Z.of_nat (length (contents (BufferList.buffer_list bl))) = BufferList.bytes bl) as Hlen.
  { rewrite <- iov_of_sum by done. unfold iov_of, BufferList.bytes. rewrite <- list_fmap_compose. f_equal.
    apply list_fmap_ext. intros i b Hi. apply (Forall_lookup_1 _ _ _ _ Hf) in Hi as [_ Hi].
    unfold Buffer.remaining, Buffer.get_len; simpl. unfold Buffer.get_len. lia. }
  unfold send. apply wp_bind. eapply wp_mono; [apply send_loop_spec; try done; word_lia|].
  intros r m' (k&Hk&Hs&Hr). cbn beta.
  destruct (Z.leb_spec r 0) as [Hr0|Hr0].
  { apply wp_ret. exists k. split_and!; try done. intros Hge. destruct (Hr Hge) as [-> ?].
    split_and!; [lia|lia|]. intros b rest _ _. by replace (Z.to_nat (0 + k)) with 0%nat by lia. }
  destruct (Hr ltac:(lia)) as [-> Hle]. rewrite Hlen in Hle. unfold BufferList.get_len. rewrite He.
  destruct (Z.ltb_spec (0 + k) (BufferList.bytes bl)); cycle 1.
  { apply wp_ret. exists k. split_and!; [done..|lia|]. intros _. split_and!; [lia|lia|].
    intros b rest Hb _. symmetry. apply nil_length_inv. rewrite length_drop. lia. }
  rewrite u32_small by word_lia. apply wp_bind. rewrite Z.add_0_l in *.
  destruct (BufferList.buffer_list bl) as [|b rest] eqn:Hb; [simpl in *; lia|].
  destruct (decide (k ≤ Buffer.remaining b)) as [Hin|Hout].
  - destruct (Move_contents bl b rest k Hw Hb ltac:(lia) ltac:(lia)) as (bl'&E&Hc).
    eapply wp_lift; [exact E|]. apply wp_ret. exists k. split_and!; [done..|lia|]. intros _.
    split_and!; [lia|lia|]. by intros ?? [= -> ->] _.
  - rewrite (BufferList.Move_cons _ _ _ _ Hb), He by word_lia.
    destruct (Z.gtb_spec (BufferList.bytes bl) k); [|lia]. eapply wp_lift; [by mstep|].
    apply wp_ret. exists k. split_and!; [done..|lia|]. intros _. split_and!; [lia|lia|].
    intros ?? [= -> ->] [?|?]; lia.
Qed.

End sink.

(** ** A peer that takes at most [sk_room] bytes, [sk_step] at a time *)

Record stream := mkStream { sk_sent : list Z; sk_step : Z; sk_room : Z; sk_signals : nat; sk_errno : Z }.

Definition stream_call (c : call) (w : stream) : Z * list Z * stream :=
  match c with
  | c_sendmsg _ iov _ =>
    match sk_signals w with
    | S n => (-1, [], mkStream (sk_sent w) (sk_step w) (sk_room w) n EINTR)
    | O =>
      let r := Z.min (Zsum (iov.*2)) (Z.min (sk_room w) (sk_step w)) in
      if (0 <? r) || (Zsum (iov.*2) =? 0)
      then (Z.max 0 r, [], mkStream (sk_sent w ++ take (Z.to_nat (Z.max 0 r)) (addrs iov)) (sk_step w) (sk_room w - Z.max 0 r) 0 0)
      else (-1, [], mkStream (sk_sent w) (sk_step w) (sk_room w) 0 EAGAIN)
    end
  | _ => (0, [], w)
  end.

#[global] Instance stream_world : World stream := {| sys_call := stream_call; get_errno := sk_errno |}.
#[global] Program Instance stream_sink : Sink stream := {| gathered := sk_sent; signals := sk_signals |}.
Next Obligation.
  intros fd iov more w. simpl. destruct (sk_signals w) as [|n].
  - destruct (_ || _) eqn:E; simpl; [right|left; done].
    apply orb_true_iff in E as [E%Z.ltb_lt|E%Z.eqb_eq]; split_and!; try done; lia.
  - left. simpl. split_and!; try done; lia.
Qed.

Definition with_world {W} (w : W) : mach W list_pool :=
  mkMach w ∅ ∅ ∅ 0 (mkMM None 0 false false (mkPool [] 184 4)) ib0 ∅ ∅ ∅ disp0 (logger_of RDMADispatcher_logger) ∅ ∅.
Definition sock0 : connected_socket := mkSock 7 (mkAddr TYPE_SERVER 0 zero_u []) true.

Definition stream0 : mach stream list_pool := with_world (mkStream [] 2 3 1 0).
Definition one_buffer : BufferList.t := BufferList.mk [Buffer.of_raw 100 8] 8.

Lemma one_buffer_wf : BufferList.wf one_buffer ∧ Forall fresh (BufferList.buffer_list one_buffer).
Proof.
  split; [split_and!; [|done|by vm_compute]|]; repeat constructor; simpl; by vm_compute.
Defined.

Lemma send_gathers_witness :
  wp (send 20 sock0 one_buffer false) (λ '(r, bl') m', 0 ≤ r → ∃ k, r = k ∧ sends stream0 m' (seqZ 100 8) k) stream0.
Proof.
  eapply wp_mono; [apply (send_gathers 20 sock0 one_buffer false stream0);
    [apply one_buffer_wf|apply one_buffer_wf|vm_compute; lia]|].
  intros [r bl'] m' (k&_&Hs&_&Hr) H0. exists k. split; [by destruct (Hr H0)|exact Hs].
Defined.

(** The part of a buffer that was sent is not subtracted from the length of
    the vector entry. After a [send] that stopped inside a buffer, the next
    [send] of the same list reads as many bytes past the buffer's end as the
    first one sent: 3 of the 8 bytes at 100 are sent, then the 8 bytes at 103. *)
Theorem resend_overruns :
  ∃ bl1 m1, send 20 sock0 one_buffer false stream0 = Ret (3, bl1, m1) ∧ BufferList.get_len bl1 = 5 ∧
    gathered (world m1) = seqZ 100 3 ∧
    ∃ bl2 m2, send 20 sock0 bl1 false (set_world (mkStream (sk_sent (world m1)) 100 100 0 0) m1) = Ret (8, bl2, m2) ∧
      gathered (world m2) = seqZ 100 3 ++ seqZ 103 8.
Proof. do 2 eexists. split; [by vm_compute|]. split_and!; [done..|]. do 2 eexists. split; [by vm_compute|done]. Qed.

End Posix.
