(* ===== verification/Lifecycle.v ===== *)
(** * Worker threads of a network stack
      (src/network/Stack.h and Stack.cc, src/core/RDMAStack.cc, src/network/PosixStack.h)

    [NetworkStack::start], [stop] and [drain] against the threads of the
    workers, as a transition system: application threads that make these calls
    ([controller]) and the threads they create ([thread]) interleave step by
    step. A step is what is done under one lock, or one access to a flag. The
    event centre of a worker is what Event.v shows of it: a queue of callbacks
    of other threads, and a byte in a pipe that ends its wait. *)

From S2P Require Import Prelude.

Inductive api := api_start | api_stop | api_drain.

(** Where the thread of [add_thread] is: before [initialize], before
    [init_done], at the loop's test, before the wait of
    [process_events], in it with a zero timeout or blocked, running the callbacks of other threads, before the two
    assignments of [reset], before [destroy], returned. *)
Inductive wpc := Starting | Ready | Testing | Deciding | Polling | Sleeping | Running | Leaving | Left | Destroying | Finished.

(** Where an application thread is in its call: the loops of [start] over
    [spawn_worker] and [wait_for_init], of [stop] over [done], [wakeup] and
    [join_worker], of [drain] over the two parts of [dispatch_event_external],
    and its wait. *)
Inductive cpc := Idle | Scan (i : nat) | Await (i : nat) | Flag (i : nat) | Wake (i : nat) | Join (i : nat)
  | Put (i : nat) | Nudge (i : nat) | Draining.

(** The members of [Worker] the threads share; the queue holds the drains *)
Record wk := mkWk { w_init : bool; w_done : bool; w_byte : bool; w_queue : list nat }.
Record thread := mkThread { t_worker : nat; t_pc : wpc; t_joinable : bool }.
Record controller := mkCtl { c_todo : list api; c_pc : cpc; drain_count : nat }.

Record stack := mkStack {
  pool_spin : option nat;
  started : bool;
  wks : list wk;
  threads : list thread;
  ctls : list controller;
  aborted : bool;
}.

#[global] Instance wpc_eq : EqDecision wpc := ltac:(solve_decision).

(** ** Field updates *)

Definition set_init b w := mkWk b (w_done w) (w_byte w) (w_queue w).
Definition set_done b w := mkWk (w_init w) b (w_byte w) (w_queue w).
Definition set_byte b w := mkWk (w_init w) (w_done w) b (w_queue w).
Definition set_queue q w := mkWk (w_init w) (w_done w) (w_byte w) q.
Definition set_pc p t := mkThread (t_worker t) p (t_joinable t).
Definition unjoin t := mkThread (t_worker t) (t_pc t) false.
Definition set_cpc p c := mkCtl (c_todo c) p (drain_count c).
Definition count_down c := mkCtl (c_todo c) (c_pc c) (drain_count c - 1).

Definition on_wk j f s := mkStack (pool_spin s) (started s) (alter f j (wks s)) (threads s) (ctls s) (aborted s).
Definition on_thread i f s := mkStack (pool_spin s) (started s) (wks s) (alter f i (threads s)) (ctls s) (aborted s).
Definition on_ctl c f s := mkStack (pool_spin s) (started s) (wks s) (threads s) (alter f c (ctls s)) (aborted s).
Definition set_lock l s := mkStack l (started s) (wks s) (threads s) (ctls s) (aborted s).
Definition set_started b s := mkStack (pool_spin s) b (wks s) (threads s) (ctls s) (aborted s).
Definition abort s := mkStack (pool_spin s) (started s) (wks s) (threads s) (ctls s) true.

(** The members of [Worker] on its [init] flag; [reset] is two steps, since
    [done] is assigned after the lock is released. *)
Module WorkerInit.
Definition init_done (w : wk) : wk := set_init true w.
Definition is_init (w : wk) : bool := w_init w.
(** [None] while the thread waits for [init_cond] *)
Definition wait_for_init (w : wk) : option unit := if w_init w then Some tt else None.
Definition reset_init (w : wk) : wk := set_init false w.
Definition reset_done (w : wk) : wk := set_done false w.
End WorkerInit.

Module NetworkStack.
Import WorkerInit.

Definition get_num_worker (s : stack) : nat := length (wks s).

(** [spawn_worker(add_thread(worker))] *)
Definition spawn_worker (j : nat) (s : stack) : stack :=
  mkStack (pool_spin s) (started s) (wks s) (threads s ++ [mkThread j Starting true]) (ctls s) (aborted s).

(** [join_worker(i)]; [None] while the thread runs *)
Definition join_worker (i : nat) (s : stack) : option (stack * bool) :=
  match threads s !! i with
  | Some t => if negb (t_joinable t) then Some (abort s, false) else
              match t_pc t with Finished => Some (on_thread i unjoin s, true) | _ => None end
  | None => Some (abort s, false)
  end.

(** The calls *)
Definition begin (c : nat) (op : api) (s : stack) : option stack :=
  match pool_spin s with
  | Some _ => None
  | None =>
    match op with
    | api_start => if started s then Some s else Some (on_ctl c (set_cpc (Scan 0)) (set_lock (Some c) s))
    | api_stop => Some (on_ctl c (set_cpc (Flag 0)) (set_lock (Some c) s))
    | api_drain => Some (on_ctl c (λ k, mkCtl (c_todo k) (Put 0) (get_num_worker s)) (set_lock (Some c) s))
    end
  end.

Definition goto (c : nat) (p : cpc) : stack → stack := on_ctl c (set_cpc p).

(** [start]: the loop that spawns, with the end of the locked part, and the
    loop of [wait_for_init] *)
Definition start_spawn (c i : nat) (s : stack) : option stack :=
  match wks s !! i with
  | Some w => Some (goto c (Scan (S i)) (if is_init w then s else spawn_worker i s))
  | None => Some (goto c (Await 0) (set_lock None (set_started true s)))
  end.
Definition start_wait (c i : nat) (s : stack) : option stack :=
  match wks s !! i with
  | Some w => _ ← wait_for_init w; Some (goto c (Await (S i)) s)
  | None => Some (goto c Idle s)
  end.

(** [stop]: [done], [wakeup] and [join_worker] of worker [i] *)
Definition stop_flag (c i : nat) (s : stack) : option stack :=
  match wks s !! i with
  | Some _ => Some (goto c (Wake i) (on_wk i (set_done true) s))
  | None => Some (goto c Idle (set_lock None (set_started false s)))
  end.
Definition stop_wake (c i : nat) (s : stack) : option stack :=
  Some (goto c (Join i) (on_wk i (set_byte true) s)).
Definition stop_join (c i : nat) (s : stack) : option stack :=
  match join_worker i s with
  | Some (s, true) => Some (goto c (Flag (S i)) s)
  | Some (s, false) => Some s
  | None => None
  end.

(** [drain]: queueing the callback and the wakeup that may follow, and the wait *)
Definition drain_put (c i : nat) (s : stack) : option stack :=
  match wks s !! i with
  | Some w =>
    if bool_decide (last (w_queue w) = Some c) then Some (goto c (Put (S i)) s) else
    Some (goto c (if bool_decide (w_queue w = []) then Nudge i else Put (S i))
            (on_wk i (λ w, set_queue (w_queue w ++ [c]) w) s))
  | None => Some (goto c Draining (set_lock None s))
  end.
Definition drain_wake (c i : nat) (s : stack) : option stack :=
  Some (goto c (Put (S i)) (on_wk i (set_byte true) s)).
Definition drain_wait (c : nat) (k : controller) (s : stack) : option stack :=
  if bool_decide (drain_count k = 0%nat) then Some (goto c Idle s) else None.

(** The application thread [c] makes a step. *)
Definition control (c : nat) (s : stack) : option stack :=
  match ctls s !! c with
  | None => None
  | Some k =>
    match c_pc k with
    | Idle =>
      match c_todo k with
      | [] => None
      | op :: rest => begin c op (on_ctl c (λ k, mkCtl rest (c_pc k) (drain_count k)) s)
      end
    | Scan i => start_spawn c i s
    | Await i => start_wait c i s
    | Flag i => stop_flag c i s
    | Wake i => stop_wake c i s
    | Join i => stop_join c i s
    | Put i => drain_put c i s
    | Nudge i => drain_wake c i s
    | Draining => drain_wait c k s
    end
  end.

(** The body of [add_thread]: where the thread goes, what becomes of its
    worker, and the drains whose callback it runs; [None] while it waits *)
Definition turn (p : wpc) (w : wk) : option (wpc * wk * list nat) :=
  match p with
  | Starting => Some (Ready, w, [])
  | Ready => Some (Testing, init_done w, [])
  | Testing => Some (if w_done w then Leaving else Deciding, w, [])
  | Deciding => Some (if bool_decide (w_queue w = []) then Sleeping else Polling, w, [])
  | Polling => Some (Running, set_byte false w, [])
  | Sleeping => if w_byte w then Some (Running, set_byte false w, []) else None
  | Running => Some (Testing, set_queue [] w, w_queue w)
  | Leaving => Some (Left, reset_init w, [])
  | Left => Some (Destroying, reset_done w, [])
  | Destroying => Some (Finished, w, [])
  | Finished => None
  end.

(** Thread [i] makes a step; a drain callback counts down. *)
Definition work (i : nat) (s : stack) : option stack :=
  t ← threads s !! i;
  w ← wks s !! t_worker t;
  '(p, w, drains) ← turn (t_pc t) w;
  Some (foldr (λ c, on_ctl c count_down) (on_thread i (set_pc p) (on_wk (t_worker t) (λ _, w) s)) drains).

(** A wait that ends without a byte: a timeout or an event of a descriptor *)
Definition timeout (i : nat) (s : stack) : option stack :=
  match threads s !! i with
  | Some t => match t_pc t with Sleeping => Some (on_thread i (set_pc Running) s) | _ => None end
  | None => None
  end.

End NetworkStack.

Import NetworkStack.

Ltac unfold_control :=
  unfold control, start_spawn, start_wait, WorkerInit.is_init, WorkerInit.wait_for_init, stop_flag, stop_wake, stop_join, drain_put, drain_wake, drain_wait, goto.

(** The steps that happen without outside help, and all of them *)
Inductive own_step (s s' : stack) : Prop :=
  | own_control c : aborted s = false → control c s = Some s' → own_step s s'
  | own_work i : aborted s = false → work i s = Some s' → own_step s s'.
Inductive any_step (s s' : stack) : Prop :=
  | any_own : own_step s s' → any_step s s'
  | any_timeout i : aborted s = false → timeout i s = Some s' → any_step s s'.

(** [create] has made [n] workers; each program is run by its own thread. *)
Definition fresh_wk : wk := mkWk false false false [].
Definition stack0 (n : nat) (programs : list (list api)) : stack :=
  mkStack None false (replicate n fresh_wk) [] ((λ p, mkCtl p Idle 0) <$> programs) false.

(** [NetworkStack::create] with one application thread per program.
    [op_threads] is [m_op_threads_num_] and [center_init] the result of
    [EventCenter::init] for each worker; an error of it is thrown. *)
Definition MAX_EVENTCENTER : Z := 96.
Inductive creation := Created (s : stack) | Thrown (code : Z).
Fixpoint init_centers (center_init : nat → Z) (id n : nat) : option Z :=
  match n with
  | O => None
  | S n => if center_init id =? 0 then init_centers center_init (S id) n else Some (- center_init id)
  end.
Definition create (t : string) (op_threads : Z) (center_init : nat → Z) (programs : list (list api)) : outcome creation :=
  kassert (bool_decide (t = "posix"%string) || bool_decide (t = "rdma"%string)) ;;
  kassert (op_threads >? 0) ;;
  let num_workers := if op_threads >=? MAX_EVENTCENTER then MAX_EVENTCENTER else op_threads in
  match init_centers center_init 0 (Z.to_nat num_workers) with
  | Some code => Ret (Thrown code)
  | None => Ret (Created (stack0 (Z.to_nat num_workers) programs))
  end.

(** The identifier of every worker is an index of the table of centres. *)
Lemma create_bounds t op_threads center_init programs s :
  create t op_threads center_init programs = Ret (Created s) →
  1 ≤ Z.of_nat (get_num_worker s) ≤ MAX_EVENTCENTER.
Proof.
  unfold create, MAX_EVENTCENTER. intros H. inv_ret. destruct (init_centers _ _ _); simplify_eq.
  unfold get_num_worker; simpl. rewrite length_replicate. destruct (Z.gtb_spec op_threads 0), (Z.geb_spec op_threads 96); lia.
Qed.

(** ** One application thread: start, any number of drains, stop *)

Section lifecycle.
(** What the program does after the [stop] *)
Context (after : list api).
Implicit Types s : stack.

Definition in_loop (p : wpc) : bool :=
  match p with Testing | Deciding | Polling | Sleeping | Running | Leaving => true | _ => false end.
Definition serving (p : wpc) : bool :=
  match p with Starting | Ready | Testing | Deciding | Polling | Sleeping | Running => true | _ => false end.
Definition gone (p : wpc) : bool := match p with Destroying | Finished => true | _ => false end.

(** What [stop] has done to a worker so far *)
Inductive mark := Unmarked | Marked | Woken | Joined.
Definition marked m := match m with Unmarked => false | _ => true end.

(** A worker and its thread. [nudged]: a drain that was queued has its byte. *)
Definition pair_ok (m : mark) (nudged : bool) (w : wk) (t : thread) : Prop :=
  w_init w = in_loop (t_pc t) ∧ t_joinable t = match m with Joined => false | _ => true end ∧
  w_done w = marked m && negb (gone (t_pc t)) ∧
  match m with
  | Unmarked => serving (t_pc t) = true ∧ (w_queue w = [] ∨ w_queue w = [0%nat]) ∧
                (nudged = true → w_queue w = [0%nat] → t_pc t = Sleeping → w_byte w = true)
  | Marked => w_queue w = []
  | Woken => w_queue w = [] ∧ (t_pc t = Deciding ∨ t_pc t = Sleeping → w_byte w = true)
  | Joined => w_queue w = [] ∧ t_pc t = Finished
  end.

(** The workers whose thread exists, and what was done to worker [j] *)
Definition spawned (p : cpc) (j : nat) : bool := match p with Scan i => (j <? i)%nat | _ => true end.
Definition mark_of (p : cpc) (j : nat) : mark :=
  match p with
  | Flag i => if (j <? i)%nat then Joined else Unmarked
  | Wake i => if (j <? i)%nat then Joined else if (j =? i)%nat then Marked else Unmarked
  | Join i => if (j <? i)%nat then Joined else if (j =? i)%nat then Woken else Unmarked
  | _ => Unmarked
  end.
(** Worker [j] may have the drain in its queue. *)
Definition queued (p : cpc) (j : nat) : bool :=
  match p with Put i => (j <? i)%nat | Nudge i => (j <=? i)%nat | Draining => true | _ => false end.
Definition nudged (p : cpc) (j : nat) : bool := match p with Nudge i => negb (j =? i)%nat | _ => true end.
(** [start] has seen worker [j] initialised. *)
Definition awaited (p : cpc) (j : nat) : bool :=
  match p with Scan _ => false | Await i => (j <? i)%nat | _ => true end.

Definition worker_ok (p : cpc) (j : nat) (w : wk) (ot : option thread) : Prop :=
  if spawned p j then
    ∃ t, ot = Some t ∧ t_worker t = j ∧ pair_ok (mark_of p j) (nudged p j) w t ∧
      (queued p j = false → w_queue w = []) ∧ (awaited p j = true → t_pc t ≠ Starting ∧ t_pc t ≠ Ready)
  else w = fresh_wk ∧ ot = None.

Definition pairs (p : cpc) (ws : list wk) (ts : list thread) : Prop :=
  ∀ j w, ws !! j = Some w → worker_ok p j w (ts !! j).

(** The workers whose queue holds the drain *)
Definition pending (ws : list wk) : Z := Zsum ((λ w, if bool_decide (w_queue w = []) then 0 else 1) <$> ws).

Definition drain_left (p : cpc) (n : nat) (ws : list wk) : Z :=
  match p with
  | Put i => Z.of_nat (n - i) + pending ws
  | Nudge i => Z.of_nat (n - S i) + pending ws
  | _ => pending ws
  end.

Definition index_ok (p : cpc) (n : nat) : Prop :=
  match p with
  | Scan i | Await i | Flag i | Put i => (i ≤ n)%nat
  | Wake i | Join i | Nudge i => (i < n)%nat
  | Idle | Draining => True
  end.
Definition stopping (p : cpc) : bool := match p with Flag _ | Wake _ | Join _ => true | _ => false end.
Definition draining (p : cpc) : bool := match p with Put _ | Nudge _ | Draining => true | _ => false end.

(** Between the start and the end of the program *)
Record inv (n : nat) (k : controller) (s : stack) : Prop := {
  inv_alive : aborted s = false;
  inv_ctl : ctls s = [k];
  inv_workers : length (wks s) = n;
  inv_index : index_ok (c_pc k) n;
  inv_todo : if stopping (c_pc k) then c_todo k = after else ∃ d, c_todo k = replicate d api_drain ++ api_stop :: after;
  inv_started : started s = match c_pc k with Scan _ => false | _ => true end;
  inv_lock : pool_spin s = match c_pc k with Idle | Await _ | Draining => None | _ => Some 0%nat end;
  inv_threads : length (threads s) = match c_pc k with Scan i => i | _ => n end;
  inv_pairs : pairs (c_pc k) (wks s) (threads s);
  inv_count : draining (c_pc k) = true → Z.of_nat (drain_count k) = drain_left (c_pc k) n (wks s);
}.

(** Everything is as [start] found it, but the threads stay in the vector. *)
Definition stopped (n : nat) (s : stack) : Prop :=
  aborted s = false ∧ started s = false ∧ pool_spin s = None ∧ length (threads s) = n ∧
  (∃ d, ctls s = [mkCtl after Idle d]) ∧
  (∀ j t, threads s !! j = Some t → t_pc t = Finished ∧ t_joinable t = false) ∧
  length (wks s) = n ∧ ∀ j w, wks s !! j = Some w → w_init w = false ∧ w_done w = false ∧ w_queue w = [].

(** *** Updates *)

Lemma pairs_alter p p' j f g ws ts :
  pairs p ws ts →
  (∀ j' w, j' ≠ j → ws !! j' = Some w → worker_ok p j' w (ts !! j') → worker_ok p' j' w (ts !! j')) →
  (∀ w, ws !! j = Some w → worker_ok p j w (ts !! j) → worker_ok p' j (f w) (g <$> ts !! j)) →
  pairs p' (alter f j ws) (alter g j ts).
Proof.
  intros Hp Hne Hj j' w' Hw. destruct (decide (j' = j)) as [->|Hn].
  - rewrite list_lookup_alter_eq in Hw. rewrite list_lookup_alter_eq. destruct (ws !! j) as [w|] eqn:E; simplify_eq/=. eauto.
  - rewrite list_lookup_alter_ne in Hw by done. rewrite list_lookup_alter_ne by done. eauto.
Qed.

Lemma pending_alter f j ws w :
  ws !! j = Some w →
  pending (alter f j ws) = pending ws - (if bool_decide (w_queue w = []) then 0 else 1) +
    (if bool_decide (w_queue (f w) = []) then 0 else 1).
Proof.
  unfold pending. revert j. induction ws as [|w0 ws IH]; intros [|j] H; csimpl in *; simplify_eq; [lia|].
  rewrite (IH j) by done. lia.
Qed.
Lemma pending_pos ws : 0 < pending ws → ∃ j w, ws !! j = Some w ∧ w_queue w ≠ [].
Proof.
  unfold pending. induction ws as [|w ws IH]; csimpl; [lia|]. case_bool_decide as Hq; intros H.
  - destruct IH as (j&w'&?&?); [lia|]. by exists (S j), w'.
  - by exists 0%nat, w.
Qed.
Lemma pending_nonneg ws : 0 ≤ pending ws.
Proof. apply Zsum_nonneg, Forall_fmap, Forall_true. intros w. simpl. case_bool_decide; lia. Qed.

(** A step of a thread keeps what holds of its worker. *)
Lemma turn_ok p j w t p' w' cs :
  worker_ok p j w (Some t) → turn (t_pc t) w = Some (p', w', cs) →
  worker_ok p j w' (Some (set_pc p' t)) ∧
  (cs = [] ∧ (w_queue w' = [] ↔ w_queue w = []) ∨ cs = [0%nat] ∧ w_queue w = [0%nat] ∧ w_queue w' = []).
Proof.
  unfold worker_ok. destruct (spawned p j) eqn:Hs; [|naive_solver].
  intros (?&[= <-]&Hj&(Hi&Hjn&Hd&Hm)&Hq&Ha) Ht.
  destruct t as [tw tp tj], w as [wi wd wb wq]; simpl in *. subst.
  assert (wq = [] ∨ wq = [0%nat]) as Hwq by (destruct (mark_of p j); naive_solver).
  split.
  - eexists; split; [done|]. split; [done|]. unfold pair_ok. destruct tp; simpl in *; simplify_eq/=.
    all: destruct (mark_of p j); simpl in *; destruct_and?; try done.
    all: repeat case_bool_decide; repeat case_match; simplify_eq/=; split_and!; try naive_solver.
  - destruct tp; simpl in *; simplify_eq/=; try (left; done); destruct Hwq; subst; case_match; simplify_eq; auto.
Qed.

(** Thread [i] belongs to worker [i]. *)
Lemma inv_thread n k s i t :
  inv n k s → threads s !! i = Some t →
  ∃ w, wks s !! i = Some w ∧ t_worker t = i ∧ worker_ok (c_pc k) i w (Some t).
Proof.
  intros Hi Ht. pose proof (lookup_lt_Some _ _ _ Ht) as Hlt. rewrite (inv_threads _ _ _ Hi) in Hlt.
  assert (i < n)%nat as Hn by (pose proof (inv_index _ _ _ Hi); destruct (c_pc k); simpl in *; lia).
  destruct (lookup_lt_is_Some_2 (wks s) i) as [w Hw]; [by rewrite (inv_workers _ _ _ Hi)|].
  pose proof (inv_pairs _ _ _ Hi i w Hw) as Hok. rewrite Ht in Hok. exists w. split_and!; [done| |done].
  unfold worker_ok in Hok. destruct (spawned _ _); [by destruct Hok as (?&[= <-]&?&_)|naive_solver].
Qed.

(** A step of a thread keeps the invariant and leaves the application thread
    where it is. *)
Lemma inv_work n k s i s' :
  inv n k s → work i s = Some s' → ∃ d, inv n (mkCtl (c_todo k) (c_pc k) d) s'.
Proof.
  intros Hi. unfold work. destruct (threads s !! i) as [t|] eqn:Ht; [|done].
  destruct (inv_thread _ _ _ _ _ Hi Ht) as (w&Hw&Hj&Hok). simpl. rewrite Hj, Hw; simpl.
  destruct (turn (t_pc t) w) as [[[p' w'] cs]|] eqn:E; simpl; [|done]. intros [= <-].
  destruct (turn_ok _ _ _ _ _ _ _ Hok E) as [Hok' Hcs].
  assert (pairs (c_pc k) (alter (λ _, w') i (wks s)) (alter (set_pc p') i (threads s))) as Hp.
  { eapply pairs_alter; [apply Hi|done|]. intros w0 Hw0 _. by rewrite Ht. }
  pose proof (pending_alter (λ _, w') i _ _ Hw) as Hpen. pose proof (pending_nonneg (alter (λ _, w') i (wks s))).
  destruct Hi as [H1 H2 H3 H4 H5 H6 H7 H8 _ H10].
  destruct Hcs as [[-> Hq]|(->&Hq&Hq')].
  - exists (drain_count k). destruct k as [todo p d]; simpl in *. split; simpl; rewrite ?length_alter; try done.
    intros Hdr. rewrite H10 by done.
    assert (pending (alter (λ _, w') i (wks s)) = pending (wks s)) as Heq by (rewrite Hpen; repeat case_bool_decide; naive_solver lia).
    destruct p; simpl; lia.
  - exists (drain_count k - 1)%nat. rewrite Hq, Hq' in Hpen. simpl in Hpen.
    destruct k as [todo p d]; simpl in *. split; simpl; rewrite ?length_alter; try done.
    { by rewrite H2. }
    intros Hdr. rewrite Hpen in *. specialize (H10 Hdr).
    assert (1 ≤ pending (wks s)) by lia. destruct p; simpl in *; lia.
Qed.

Lemma inv_timeout n k s i s' : inv n k s → timeout i s = Some s' → inv n k s'.
Proof.
  intros Hi. unfold timeout. destruct (threads s !! i) as [t|] eqn:Ht; [|done].
  destruct (inv_thread _ _ _ _ _ Hi Ht) as (w&Hw&Hj&Hok).
  destruct (t_pc t) eqn:Hpc; try done. intros [= <-].
  assert (pairs (c_pc k) (wks s) (alter (set_pc Running) i (threads s))) as Hp.
  { rewrite <- (list_alter_id id (wks s) i) by done. eapply pairs_alter; [apply Hi|done|].
    intros w0 Hw0 _. rewrite Ht; simpl. simplify_eq. unfold worker_ok, pair_ok in *.
    destruct (spawned _ _); [|naive_solver]. destruct Hok as (?&[= <-]&?&(?&?&?&?)&?&?).
    rewrite Hpc in *. eexists; split_and!; try done. destruct (mark_of _ _); naive_solver. }
  destruct Hi as [H1 H2 H3 H4 H5 H6 H7 H8 _ H10]. split; simpl; rewrite ?length_alter; done.
Qed.

Lemma list_alter_same {A} (l : list A) i x : l !! i = Some x → alter (λ _, x) i l = l.
Proof. revert i. induction l as [|y l IH]; intros [|i] H; simplify_eq/=; [done|]. f_equal. auto. Qed.
Lemma list_alter_twice {A} (l : list A) i x y : alter (λ _, y) i (alter (λ _, x) i l) = alter (λ _, y) i l.
Proof. revert i. induction l as [|z l IH]; intros [|i]; simplify_eq/=; [done..|]. f_equal. auto. Qed.

Lemma inv_worker n k s i :
  inv n k s → (i < n)%nat → spawned (c_pc k) i = true →
  ∃ w t, wks s !! i = Some w ∧ threads s !! i = Some t ∧ t_worker t = i ∧ worker_ok (c_pc k) i w (Some t).
Proof.
  intros Hi Hn Hs. destruct (lookup_lt_is_Some_2 (wks s) i) as [w Hw]; [by rewrite (inv_workers _ _ _ Hi)|].
  pose proof (inv_pairs _ _ _ Hi i w Hw) as Hok. unfold worker_ok in Hok. rewrite Hs in Hok.
  destruct Hok as (t&Ht&Hj&Hrest). exists w, t. rewrite Ht in *. split_and!; try done.
  unfold worker_ok. rewrite Hs. eauto.
Qed.

(** While the application thread waits, thread [i] runs until [G] holds, when
    every step it makes before brings it nearer. *)
Lemma run_thread (rank : wpc → wk → nat) (G : wk → wpc → Prop) n i p :
  (i < n)%nat → spawned p i = true →
  (∀ w t, worker_ok p i w (Some t) →
    G w (t_pc t) ∨ ∃ q w' cs, turn (t_pc t) w = Some (q, w', cs) ∧ (rank q w' < rank (t_pc t) w)%nat) →
  ∀ k s, inv n k s → c_pc k = p →
  ∃ s' d w t, rtc own_step s s' ∧ inv n (mkCtl (c_todo k) p d) s' ∧ wks s' = alter (λ _, w) i (wks s) ∧
    wks s' !! i = Some w ∧ threads s' !! i = Some t ∧ G w (t_pc t).
Proof.
  intros Hn Hs Hstep k s Hi Hp.
  destruct (inv_worker n k s i) as (w&t&Hw&Ht&_&_); [done..|by rewrite Hp|].
  remember (rank (t_pc t) w) as r eqn:Hr. revert k s w t Hi Hp Hw Ht Hr.
  induction r as [r IH] using (well_founded_induction lt_wf); intros k s w t Hi Hp Hw Ht Hr.
  destruct (inv_thread _ _ _ _ _ Hi Ht) as (w0&Hw0&Hj&Hok). rewrite Hw in Hw0. injection Hw0 as <-.
  rewrite Hp in Hok. destruct (Hstep _ _ Hok) as [HG|(q&w'&cs&Hturn&Hlt)].
  { exists s, (drain_count k), w, t. split_and!; try done; [by subst; destruct k|].
    symmetry. by apply list_alter_same. }
  assert (∃ s1, work i s = Some s1 ∧ threads s1 = alter (set_pc q) i (threads s) ∧
    wks s1 = alter (λ _, w') i (wks s)) as (s1&Hwork&Hts&Hws).
  { unfold work. rewrite Ht; simpl. rewrite Hj, Hw; simpl. rewrite Hturn; simpl. eexists; split; [done|].
    destruct (turn_ok _ _ _ _ _ _ _ Hok Hturn) as [_ [[-> _]|(->&_)]]; done. }
  destruct (inv_work _ _ _ _ _ Hi Hwork) as [d Hi1].
  destruct (IH (rank q w')) with (k := mkCtl (c_todo k) (c_pc k) d) (s := s1) (w := w') (t := set_pc q t)
    as (s'&d'&w2&t2&Hrun&Hi2&Hws2&?&?&?); try done; [by subst| | |].
  - by rewrite Hws, list_lookup_alter_eq, Hw.
  - by rewrite Hts, list_lookup_alter_eq, Ht.
  - exists s', d', w2, t2. split_and!; try done.
    + eapply rtc_l; [|done]. eapply own_work; [apply Hi|done].
    + rewrite Hws2, Hws. apply list_alter_twice.
Qed.

(** *** The application thread *)

(** How far the program is from its end *)
Definition crank (n : nat) (k : controller) : nat :=
  length (c_todo k) * (4 * n + 10) +
  match c_pc k with
  | Idle => 0
  | Scan i => 2 * n + 3 - i
  | Await i => n + 1 - i
  | Flag i => 3 * (n - i) + 1
  | Wake i => 3 * (n - i)
  | Join i => 3 * (n - i) - 1
  | Put i => 2 * (n - i) + n + 3
  | Nudge i => 2 * (n - i) + n + 2
  | Draining => 1 + drain_count k
  end.

Lemma pending_le ws : pending ws ≤ Z.of_nat (length ws).
Proof. unfold pending. induction ws; csimpl; [done|]. case_bool_decide; lia. Qed.

Ltac ok_cases :=
  unfold worker_ok, pair_ok in *; simpl in *;
  repeat match goal with
  | |- context [Nat.ltb ?a ?b] => destruct (Nat.ltb_spec a b)
  | |- context [Nat.leb ?a ?b] => destruct (Nat.leb_spec a b)
  | |- context [Nat.eqb ?a ?b] => destruct (Nat.eqb_spec a b)
  | H : context [Nat.ltb ?a ?b] |- _ => destruct (Nat.ltb_spec a b)
  | H : context [Nat.leb ?a ?b] |- _ => destruct (Nat.leb_spec a b)
  | H : context [Nat.eqb ?a ?b] |- _ => destruct (Nat.eqb_spec a b)
  end; simpl in *; try lia; subst.

(** Another view of the same workers and threads *)
Lemma pairs_mono p p' ws ts :
  pairs p ws ts → (∀ j w, (j < length ws)%nat → ws !! j = Some w → worker_ok p j w (ts !! j) → worker_ok p' j w (ts !! j)) →
  pairs p' ws ts.
Proof. intros H1 H2 j w Hw. apply H2; [by eapply lookup_lt_Some|done|by apply H1]. Qed.
Lemma pairs_alter_wk p p' j f ws ts :
  pairs p ws ts →
  (∀ j' w, j' ≠ j → worker_ok p j' w (ts !! j') → worker_ok p' j' w (ts !! j')) →
  (∀ w, ws !! j = Some w → worker_ok p j w (ts !! j) → worker_ok p' j (f w) (ts !! j)) →
  pairs p' (alter f j ws) ts.
Proof.
  intros Hp H1 H2. rewrite <- (list_alter_id id ts j) by done. eapply pairs_alter; [done|eauto|].
  intros w Hw Hok. rewrite option_fmap_id. eauto.
Qed.

Definition moves (n : nat) (k : controller) (s' : stack) : Prop := ∃ k', inv n k' s' ∧ (crank n k' < crank n k)%nat.

Ltac start_control Hi :=
  destruct Hi as [Halive Hctl Hlen Hix Htodo Hst Hlock Hthr Hpairs Hcnt];
  simpl in *; rewrite Hctl in *; simpl in *.

Lemma start_ok n k s s' i :
  c_pc k = Scan i ∨ c_pc k = Await i → inv n k s → control 0 s = Some s' → moves n k s'.
Proof.
  intros Hpc Hi. destruct k as [todo p d]; simpl in Hpc. unfold_control. start_control Hi.
  destruct Hpc; subst p; simpl in *; (destruct (wks s !! i) as [w|] eqn:Hw;
    [apply lookup_lt_Some in Hw as Hlt|apply lookup_ge_None in Hw as Hge]).
  - pose proof (Hpairs _ _ Hw) as Hok. unfold worker_ok in Hok; simpl in Hok. rewrite Nat.ltb_irrefl in Hok.
    destruct Hok as [-> Hnone]. simpl. intros [= <-]. exists (mkCtl todo (Scan (S i)) d). split; [|unfold crank; simpl; lia].
    split; simpl; rewrite ?Hctl, ?length_app; simpl; try done; try lia.
    intros j w Hj. specialize (Hpairs _ _ Hj). destruct (decide (j = i)) as [->|].
    + rewrite lookup_app_r, Hthr, Nat.sub_diag by lia. simplify_eq/=. ok_cases. eexists; split_and!; naive_solver.
    + destruct (decide (j < i)%nat); [rewrite lookup_app_l by lia|rewrite (lookup_ge_None_2 (_ ++ _)) by (rewrite length_app; simpl; lia)];
        ok_cases; naive_solver.
  - intros [= <-]. exists (mkCtl todo (Await 0) d). split; [|unfold crank; simpl; lia].
    split; simpl; rewrite ?Hctl; try done; try lia.
    eapply pairs_mono; [done|]. intros j w Hj _. ok_cases. naive_solver.
  - pose proof (Hpairs _ _ Hw) as Hok. unfold worker_ok, pair_ok in Hok; simpl in Hok.
    destruct (w_init w) eqn:Hwi; [|done]. intros [= <-].
    exists (mkCtl todo (Await (S i)) d). split; [|unfold crank; simpl; lia].
    split; simpl; rewrite ?Hctl; try done; try lia.
    eapply pairs_mono; [done|]. intros j w' Hj Hjw. destruct (decide (j = i)) as [->|]; [|by ok_cases].
    rewrite Hw in Hjw. injection Hjw as <-. ok_cases.
    intros (t&Ht&Htw&(Hin&Hrest)&Hq&_). exists t. do 2 (split; [done|]). split; [by split|]. split; [done|].
    intros _. split; intros E; by rewrite E, Hwi in Hin.
  - intros [= <-]. exists (mkCtl todo Idle d). split; [|unfold crank; simpl; lia].
    split; simpl; rewrite ?Hctl; try done; try lia.
    eapply pairs_mono; [done|]. intros j w' Hj _. ok_cases. naive_solver.
Qed.

Lemma stop_ok n k s s' i :
  c_pc k = Flag i ∨ c_pc k = Wake i ∨ c_pc k = Join i → inv n k s → control 0 s = Some s' →
  stopped n s' ∨ moves n k s'.
Proof.
  intros Hpc Hi. destruct k as [todo p d]; simpl in Hpc. unfold_control. start_control Hi.
  destruct Hpc as [ -> |[ -> | -> ]]; simpl in *.
  - destruct (wks s !! i) as [w|] eqn:Hw;
      [apply lookup_lt_Some in Hw as Hlt|apply lookup_ge_None in Hw as Hge]; intros [= <-].
    + right. exists (mkCtl todo (Wake i) d). split; [|unfold crank; simpl; lia].
      split; simpl; rewrite ?Hctl, ?length_alter; try done; try lia.
      eapply pairs_alter_wk; [done|by intros; ok_cases|]. intros w' _. ok_cases.
      intros (t&Ht&?&(Hin&Hjn&?&Hser&?)&Hq&?). exists t. do 2 (split; [done|]).
      split_and!; try done; simpl; [by destruct (t_pc t)|naive_solver].
    + left. assert (i = n) as -> by lia. unfold stopped. simpl. rewrite Hctl; subst todo.
      assert (∀ j t, threads s !! j = Some t → t_pc t = Finished ∧ t_joinable t = false) as Hfin.
      { intros j t Ht. apply lookup_lt_Some in Ht as Hj. destruct (lookup_lt_is_Some_2 (wks s) j) as [w Hwj]; [lia|].
        specialize (Hpairs _ _ Hwj). rewrite Ht in Hpairs. ok_cases. naive_solver. }
      split_and!; try done; [by eexists|]. intros j w Hwj. apply lookup_lt_Some in Hwj as Hj.
      specialize (Hpairs _ _ Hwj). ok_cases. destruct Hpairs as (t&Ht&_&(Hin&_&Hdn&?&Hf)&_).
      rewrite Hf in *. by rewrite Hin, Hdn.
  - intros [= <-]. right. exists (mkCtl todo (Join i) d). split; [|unfold crank; simpl; lia].
    split; simpl; rewrite ?Hctl, ?length_alter; try done; try lia.
    eapply pairs_alter_wk; [done|by intros; ok_cases|]. intros w' _. ok_cases.
    intros (t&Ht&?&(?&?&?&?)&?&?). exists t. by split_and!.
  - unfold join_worker. destruct (lookup_lt_is_Some_2 (threads s) i) as [t Ht]; [lia|]. rewrite Ht.
    destruct (lookup_lt_is_Some_2 (wks s) i) as [w Hw]; [lia|].
    pose proof (Hpairs _ _ Hw) as Hok. rewrite Ht in Hok. unfold worker_ok, pair_ok in Hok; simpl in Hok.
    rewrite Nat.ltb_irrefl, Nat.eqb_refl in Hok. destruct Hok as (?&[= <-]&?&(?&Hjn&?&Hwoken)&?). rewrite Hjn; simpl.
    destruct (t_pc t) eqn:Hf; try done. intros [= <-]. right.
    exists (mkCtl todo (Flag (S i)) d). split; [|unfold crank; simpl; lia].
    split; simpl; rewrite ?Hctl, ?length_alter; try done; try lia.
    rewrite <- (list_alter_id id (wks s) i) by done. eapply pairs_alter; [done|by intros; ok_cases|].
    intros w' Hw' _. simplify_eq. rewrite Ht; simpl. ok_cases.
    destruct Hwoken as [Hq _]. eexists; split_and!; try done; simpl; by rewrite Hf.
Qed.

Lemma drain_ok n k s s' :
  draining (c_pc k) = true → inv n k s → control 0 s = Some s' → moves n k s'.
Proof.
  intros Hpc Hi. destruct k as [todo p d]; simpl in Hpc. unfold_control. start_control Hi.
  specialize (Hcnt Hpc). pose proof (pending_le (wks s)) as Hple. pose proof (pending_nonneg (wks s)).
  destruct p as [| | | | | |i|i|]; try done; simpl in *.
  - destruct (wks s !! i) as [w|] eqn:Hw;
      [apply lookup_lt_Some in Hw as Hlt|apply lookup_ge_None in Hw as Hge].
    + pose proof (Hpairs _ _ Hw) as Hok. unfold worker_ok in Hok; simpl in Hok. rewrite Nat.ltb_irrefl in Hok.
      destruct Hok as (t&Ht&?&?&Hq&?). rewrite Hq by done. simpl. intros [= <-].
      exists (mkCtl todo (Nudge i) d). split; [|unfold crank; simpl; lia].
      split; simpl; rewrite ?Hctl, ?length_alter; try done; try lia.
      * eapply pairs_alter_wk; [done|by intros; ok_cases|]. intros w' Hw' _. simplify_eq. rewrite Ht, (Hq eq_refl).
        ok_cases. exists t. destruct H1 as (?&?&?&?&?). split_and!; try done. by right.
      * intros _. rewrite (pending_alter _ _ _ _ Hw); simpl. rewrite (Hq eq_refl); simpl. lia.
    + intros [= <-]. exists (mkCtl todo Draining d). split; [|unfold crank; simpl; lia].
      split; simpl; rewrite ?Hctl; try done; try lia.
      eapply pairs_mono; [done|]. intros j w Hj _. ok_cases. naive_solver.
  - destruct (lookup_lt_is_Some_2 (wks s) i) as [w Hw]; [lia|]. intros [= <-].
    exists (mkCtl todo (Put (S i)) d). split; [|unfold crank; simpl; lia].
    split; simpl; rewrite ?Hctl, ?length_alter; try done; try lia.
    + eapply pairs_alter_wk; [done|by intros; ok_cases|]. intros w' _. ok_cases.
      intros (t&Ht&?&(?&?&?&?&?&?)&?&?). exists t. by split_and!.
    + intros _. rewrite (pending_alter _ _ _ _ Hw); simpl. lia.
  - case_bool_decide as Hd; [|done]. intros [= <-]. exists (mkCtl todo Idle d). split; [|unfold crank; simpl; lia].
    split; simpl; rewrite ?Hctl; try done.
    intros j w Hw. specialize (Hpairs _ _ Hw). ok_cases. destruct Hpairs as (t&?&?&?&_&?). exists t. do 3 (split; [done|]). split; [|done].
    intros _. pose proof (pending_alter (set_queue []) _ _ _ Hw) as E. pose proof (pending_nonneg (alter (set_queue []) j (wks s))).
    simpl in E. case_bool_decide; [done|lia].
Qed.

Lemma begin_ok n k s s' : c_pc k = Idle → inv n k s → control 0 s = Some s' → moves n k s'.
Proof.
  intros Hpc Hi. destruct k as [todo p d]; simpl in Hpc; subst p. unfold_control. start_control Hi.
  destruct Htodo as [m ->]. destruct m as [|m]; simpl; unfold begin; simpl; rewrite Hlock; intros [= <-].
  - exists (mkCtl after (Flag 0) d). split; [|unfold crank; simpl; lia].
    split; simpl; rewrite ?Hctl; try done; lia.
  - exists (mkCtl (replicate m api_drain ++ api_stop :: after) (Put 0) n). split.
    2: { unfold crank; simpl. rewrite length_app, length_replicate; simpl. lia. }
    unfold get_num_worker; simpl. split; simpl; rewrite ?Hctl, ?Hlen; simpl; rewrite ?Hlen; try done; try lia; [by exists m|].
    intros _. pose proof (pending_nonneg (wks s)). destruct (decide (0 < pending (wks s))) as [(j&w&Hw&Hq)%pending_pos|]; [|lia].
    exfalso. specialize (Hpairs _ _ Hw). ok_cases. naive_solver.
Qed.

Lemma control_ok n k s s' : inv n k s → control 0 s = Some s' → stopped n s' ∨ moves n k s'.
Proof.
  intros Hi Hc. destruct (c_pc k) eqn:E.
  all: first [right; by eapply begin_ok|right; eapply start_ok; eauto; fail|by eapply stop_ok; eauto
             |right; eapply drain_ok; eauto; by rewrite E].
Qed.

Lemma stopped_final n s s' : after = [] → stopped n s → ¬ any_step s s'.
Proof.
  intros Hafter (Hal&_&_&_&[d Hctl]&Hfin&_&_) Hstep. rewrite Hafter in Hctl.
  assert (∀ i, work i s = None ∧ timeout i s = None) as Hw.
  { intros i. unfold work, timeout. destruct (threads s !! i) as [t|] eqn:Ht; [|done].
    destruct (Hfin _ _ Ht) as [Hf _]. simpl. rewrite Hf. split; [|done]. by destruct (wks s !! _). }
  destruct Hstep as [[[|c] _ Hc|i _ Hc]|i _ Hc]; try (specialize (Hw i); naive_solver);
    by unfold control in Hc; rewrite Hctl in Hc.
Qed.

(** The whole program *)
Definition program (d : nat) : list api := api_start :: replicate d api_drain ++ api_stop :: after.

Definition reach (n d : nat) (s : stack) : Prop :=
  s = stack0 n [program d] ∨ (∃ k, inv n k s) ∨ stopped n s.

Lemma reach_begin n d s' : any_step (stack0 n [program d]) s' → ∃ k, inv n k s'.
Proof.
  intros [[[|c] _ Hc|i _ Hc]|i _ Hc]; try done. injection Hc as <-.
  exists (mkCtl (replicate d api_drain ++ api_stop :: after) (Scan 0) 0).
  split; simpl; rewrite ?length_replicate; try done; [lia|by exists d|].
  intros j w [-> Hj]%lookup_replicate. done.
Qed.

Lemma reach_step n d s s' : after = [] → reach n d s → any_step s s' → reach n d s'.
Proof.
  intros Hafter [->|[[k Hi]|Hst]] Hstep.
  - right; left. by eapply reach_begin.
  - right. destruct Hstep as [[c _ Hc|i _ Hc]|i _ Hc].
    + destruct c as [|c]; [|unfold control in Hc; by rewrite (inv_ctl _ _ _ Hi) in Hc].
      destruct (control_ok _ _ _ _ Hi Hc) as [|(k'&?&_)]; eauto.
    + destruct (inv_work _ _ _ _ _ Hi Hc); eauto.
    + left. exists k. by eapply inv_timeout.
  - by destruct (stopped_final n s s').
Qed.

(** *** No wait of the application thread lasts for ever *)

Definition init_rank (p : wpc) (_ : wk) : nat := match p with Starting => 2 | Ready => 1 | _ => 0 end.
Definition leave_rank (p : wpc) (_ : wk) : nat :=
  match p with
  | Starting => 11 | Ready => 10 | Deciding => 9 | Polling => 8 | Sleeping => 8 | Running => 7 | Testing => 6
  | Leaving => 5 | Left => 4 | Destroying => 3 | Finished => 0
  end.
Definition drain_rank (p : wpc) (w : wk) : nat :=
  if bool_decide (w_queue w = []) then 0 else
  match p with
  | Starting => 7 | Ready => 6 | Testing => 5 | Deciding => 4 | Polling => 3 | Sleeping => 3 | Running => 2 | _ => 1
  end.

Lemma await_runs i w t :
  worker_ok (Await i) i w (Some t) →
  w_init w = true ∨ ∃ q w' cs, turn (t_pc t) w = Some (q, w', cs) ∧ (init_rank q w' < init_rank (t_pc t) w)%nat.
Proof.
  unfold worker_ok, pair_ok; simpl. rewrite Nat.ltb_irrefl. intros (?&[= <-]&_&(Hin&_&_&Hser&_)&_).
  destruct (t_pc t); simpl in *; try done; auto; right; do 3 eexists; (split; [done|]); simpl; lia.
Qed.

Lemma join_runs i w t :
  worker_ok (Join i) i w (Some t) →
  t_pc t = Finished ∨ ∃ q w' cs, turn (t_pc t) w = Some (q, w', cs) ∧ (leave_rank q w' < leave_rank (t_pc t) w)%nat.
Proof.
  unfold worker_ok, pair_ok; simpl. rewrite Nat.ltb_irrefl, Nat.eqb_refl.
  intros (?&[= <-]&_&(_&_&Hdone&Hq&Hbyte)&_).
  destruct (t_pc t) eqn:Hpc; simpl in *; auto; right; rewrite ?Hdone, ?Hq, ?Hbyte by auto;
    do 3 eexists; (split; [done|]); simpl; try case_bool_decide; simpl; lia.
Qed.

Lemma drain_runs i w t :
  worker_ok Draining i w (Some t) →
  w_queue w = [] ∨ ∃ q w' cs, turn (t_pc t) w = Some (q, w', cs) ∧ (drain_rank q w' < drain_rank (t_pc t) w)%nat.
Proof.
  unfold worker_ok, pair_ok; simpl. intros (?&[= <-]&_&(_&_&Hdone&Hser&[Hq|Hq]&Hbyte)&_); [by left|right].
  unfold drain_rank. rewrite Hq in *. specialize (Hbyte eq_refl eq_refl).
  destruct (t_pc t) eqn:Hpc; simpl in *; try done; rewrite ?Hdone, ?Hq, ?Hbyte by auto;
    do 3 eexists; (split; [done|]); simpl; rewrite ?Hq; simpl; lia.
Qed.

Definition advances (n : nat) (k : controller) (s : stack) : Prop :=
  ∃ s', rtc own_step s s' ∧ (stopped n s' ∨ moves n k s').

Lemma control_advances n k s : inv n k s → is_Some (control 0 s) → advances n k s.
Proof.
  intros Hi [s' Hc]. exists s'. split; [|by eapply control_ok].
  apply rtc_once. eapply own_control; [apply Hi|done].
Qed.

(** The same, after the threads have run *)
Lemma advances_after n k s s1 d :
  rtc own_step s s1 → inv n (mkCtl (c_todo k) (c_pc k) d) s1 → (crank n (mkCtl (c_todo k) (c_pc k) d) ≤ crank n k)%nat →
  is_Some (control 0 s1) → advances n k s.
Proof.
  intros Hrun Hi Hle Hc. destruct (control_advances _ _ _ Hi Hc) as (s'&Hrun'&H).
  exists s'. split; [by etrans|]. destruct H as [|(k'&?&?)]; [by left|right]. exists k'. split; [done|lia].
Qed.

Lemma drain_advances n k s : c_pc k = Draining → inv n k s → advances n k s.
Proof.
  intros Hp Hi. destruct (decide (drain_count k = 0%nat)) as [H0|H0].
  { apply control_advances; [done|]. unfold_control. rewrite (inv_ctl _ _ _ Hi); simpl. rewrite Hp.
    rewrite bool_decide_eq_true_2 by done. by eexists. }
  pose proof (inv_count _ _ _ Hi) as Hc. rewrite Hp in Hc. specialize (Hc eq_refl). simpl in Hc.
  destruct (pending_pos (wks s)) as (i&w&Hw&Hq); [lia|].
  apply lookup_lt_Some in Hw as Hlt. rewrite (inv_workers _ _ _ Hi) in Hlt.
  destruct (run_thread drain_rank (λ w _, w_queue w = []) n i Draining Hlt eq_refl (drain_runs i) k s Hi Hp)
    as (s'&d&w'&t&Hrun&Hi'&Hws&_&_&Hq').
  exists s'. split; [done|]. right. exists (mkCtl (c_todo k) Draining d). split; [done|].
  pose proof (inv_count _ _ _ Hi' eq_refl) as Hc'. simpl in Hc'.
  rewrite Hws, (pending_alter _ _ _ _ Hw) in Hc'. rewrite Hq' in Hc'.
  rewrite bool_decide_eq_false_2 in Hc' by done. simpl in Hc'. unfold crank; simpl. rewrite Hp. lia.
Qed.

Lemma inv_advances n k s : inv n k s → advances n k s.
Proof.
  intros Hi. destruct (c_pc k) as [|i|i|i|i|i|i|i|] eqn:Hp; [..|by apply drain_advances].
  all: pose proof (inv_index _ _ _ Hi) as Hix; rewrite Hp in Hix; simpl in Hix.
  all: pose proof (inv_ctl _ _ _ Hi) as Hctl.
  1,2,4,5,7,8: apply control_advances; [done|]; unfold_control; rewrite Hctl; simpl; rewrite Hp.
  - pose proof (inv_todo _ _ _ Hi) as Ht. pose proof (inv_lock _ _ _ Hi) as Hl. rewrite Hp in Ht, Hl. destruct Ht as [d ->].
    destruct d; simpl; unfold begin; simpl; rewrite Hl; by eexists.
  - destruct (wks s !! i); by eexists.
  - destruct (wks s !! i); by eexists.
  - by eexists.
  - destruct (wks s !! i); [|by eexists]. case_bool_decide; by eexists.
  - by eexists.
  - destruct (wks s !! i) as [w|] eqn:Hw; cycle 1.
    { apply control_advances; [done|]. unfold_control. rewrite Hctl; simpl. rewrite Hp, Hw. by eexists. }
    apply lookup_lt_Some in Hw. rewrite (inv_workers _ _ _ Hi) in Hw.
    destruct (run_thread init_rank (λ w _, w_init w = true) n i (Await i) Hw eq_refl (await_runs i) k s Hi Hp)
      as (s'&d&w'&t&Hrun&Hi'&_&Hw'&_&Hin).
    rewrite <- Hp in Hi'. eapply advances_after; [done..|unfold crank; simpl; rewrite Hp; lia|].
    unfold_control. rewrite (inv_ctl _ _ _ Hi'); simpl. rewrite Hp, Hw', Hin. by eexists.
  - destruct (run_thread leave_rank (λ _ p, p = Finished) n i (Join i) Hix eq_refl (join_runs i) k s Hi Hp)
      as (s'&d&w'&t&Hrun&Hi'&_&_&Ht'&Hf).
    rewrite <- Hp in Hi'. eapply advances_after; [done..|unfold crank; simpl; rewrite Hp; lia|].
    unfold_control. rewrite (inv_ctl _ _ _ Hi'); simpl. rewrite Hp. unfold join_worker. rewrite Ht', Hf.
    destruct (negb _); by eexists.
Qed.

Lemma inv_completes n k s : inv n k s → ∃ s', rtc own_step s s' ∧ stopped n s'.
Proof.
  remember (crank n k) as r eqn:Hr. revert k s Hr.
  induction r as [r IH] using (well_founded_induction lt_wf); intros k s Hr Hi.
  destruct (inv_advances _ _ _ Hi) as (s1&Hrun&[Hst|(k'&Hi'&Hlt)]); [by exists s1|].
  destruct (IH (crank n k') ltac:(lia) k' s1 eq_refl Hi') as (s'&?&?). exists s'. split; [by etrans|done].
Qed.

(** Between two calls every worker is initialised and in its loop, and no
    drain is left in a queue. *)
Lemma inv_between n k s :
  inv n k s → c_pc k = Idle →
  ∀ j w, wks s !! j = Some w → w_init w = true ∧ w_done w = false ∧ w_queue w = [] ∧
    ∃ t, threads s !! j = Some t ∧ t_worker t = j ∧ t_joinable t = true ∧ in_loop (t_pc t) = true.
Proof.
  intros Hi Hp j w Hw. pose proof (inv_pairs _ _ _ Hi j w Hw) as Hok. rewrite Hp in Hok.
  unfold worker_ok, pair_ok in Hok; simpl in Hok. destruct Hok as (t&Ht&Htw&(Hin&Hjn&Hdn&Hser&_)&Hq&Ha).
  destruct (Ha eq_refl) as [Hs Hr].
  assert (in_loop (t_pc t) = true) as Hl by (destruct (t_pc t); done).
  rewrite Hin. split_and!; auto. by exists t.
Qed.

End lifecycle.

(** ** Theorems *)

Section theorems.
Implicit Types s : stack.

Lemma reach_all n d s : rtc any_step (stack0 n [program [] d]) s → reach [] n d s.
Proof.
  intros H. eapply (rtc_invariant any_step (reach [] n d)); [|by left|done].
  intros a b Ha Hab. by eapply reach_step.
Qed.

(** C7: One application thread that calls [start], any number of times [drain],
    and [stop] is never stuck: from every state that the interleaving of its
    calls with the threads of the workers can reach, the threads' own steps
    lead to the end of the program, without a timeout of a wait or an outside
    event, and without an abort. Then every thread has returned and was joined,
    and the flags are as they were before. *)
Theorem stop_completes n d s :
  rtc any_step (stack0 n [program [] d]) s →
  aborted s = false ∧ ∃ s', rtc own_step s s' ∧ stopped [] n s'.
Proof.
  intros [->|[[k Hi]|Hst]]%reach_all.
  - split; [done|].
    assert (∃ s1, own_step (stack0 n [program [] d]) s1) as [s1 H1] by (eexists; by apply (own_control _ _ 0)).
    destruct (reach_begin [] n d s1 (any_own _ _ H1)) as [k Hi].
    destruct (inv_completes _ _ _ _ Hi) as (s'&?&?). exists s'. split; [by eapply rtc_l|done].
  - split; [apply Hi|]. by eapply inv_completes.
  - split; [apply Hst|]. by exists s.
Qed.

(** When [start] or [drain] has returned to that thread, every worker is
    initialised, its thread is in its loop, and every drain it was given has
    been run. *)
Theorem workers_ready_between_calls n d s k :
  rtc any_step (stack0 n [program [] d]) s → started s = true → ctls s = [k] → c_pc k = Idle →
  length (wks s) = n ∧
  ∀ j w, wks s !! j = Some w → w_init w = true ∧ w_done w = false ∧ w_queue w = [] ∧
    ∃ t, threads s !! j = Some t ∧ t_worker t = j ∧ t_joinable t = true ∧ in_loop (t_pc t) = true.
Proof.
  intros [->|[[k' Hi]|Hst]]%reach_all Hs Hk Hp; [done| |by destruct Hst as (_&?&_); congruence].
  rewrite (inv_ctl _ _ _ _ Hi) in Hk. injection Hk as <-. split; [apply Hi|by eapply inv_between].
Qed.

(** *** Starting again *)

(** The first thread was joined before, and the second [stop] has not passed it. *)
Definition doomed s : Prop :=
  ∃ k t, ctls s = [k] ∧ threads s !! 0%nat = Some t ∧ t_joinable t = false ∧ wks s ≠ [] ∧
  match c_pc k with
  | Idle => c_todo k = [api_start; api_stop] ∨ c_todo k = [api_stop]
  | Scan _ | Await _ => c_todo k = [api_stop]
  | Flag i | Wake i | Join i => i = 0%nat
  | _ => False
  end.

Lemma doomed_control s s' c : doomed s → control c s = Some s' → doomed s'.
Proof.
  intros (k&t&Hk&Ht&Hj&Hw&Hp). unfold_control. destruct c as [|c]; rewrite Hk; [simpl|done].
  destruct k as [todo p d]; simpl in *. destruct (wks s) as [|w0 ws] eqn:Hws; [done|].
  destruct p as [|i|i|i|i|i|i|i|]; try done.
  - destruct Hp as [-> | ->]; unfold begin; simpl; (destruct (pool_spin s); [done|]); [destruct (started s)|];
      intros [= <-]; do 2 eexists; simpl; rewrite ?Hk, ?Hws; simpl; split_and!; try done; by right.
  - destruct ((w0 :: ws) !! i) as [w|]; [destruct (w_init w)|]; intros [= <-]; do 2 eexists; simpl; rewrite ?Hk, ?Hws;
      split_and!; try done; by apply lookup_app_l_Some.
  - destruct ((w0 :: ws) !! i) as [w|]; [destruct (w_init w); [|done]|]; intros [= <-]; do 2 eexists; simpl;
      rewrite ?Hk, ?Hws; split_and!; try done; by right.
  - subst i; simpl. intros [= <-]. do 2 eexists; simpl. rewrite Hk, Hws. by split_and!.
  - subst i; simpl. intros [= <-]. do 2 eexists; simpl. rewrite Hk, Hws. by split_and!.
  - subst i. unfold join_worker. rewrite Ht, Hj; simpl. intros [= <-]. do 2 eexists; simpl. rewrite Hk, Hws. by split_and!.
Qed.

Lemma doomed_ctl s k : doomed s → ctls s = [k] → c_todo k = [] → c_pc k ≠ Idle.
Proof. intros (k'&t&Hk&_&_&_&Hp) Hk' Ht Hi. rewrite Hk in Hk'. injection Hk' as ->. rewrite Hi, Ht in Hp. naive_solver. Qed.

Lemma doomed_step s s' : doomed s → any_step s s' → doomed s'.
Proof.
  intros Hd [[c _ Hc|i _ Hc]|i _ Hc]; [by eapply doomed_control| |]; destruct Hd as (k&t&Hk&Ht&Hj&Hw&Hp).
  - unfold work in Hc. destruct (threads s !! i) as [t'|]; simpl in Hc; [|done].
    destruct (wks s !! t_worker t') as [w|]; simpl in Hc; [|done].
    destruct (turn _ _) as [[[p w'] cs]|]; simpl in Hc; [|done]. injection Hc as <-.
    assert (∀ s0, doomed s0 → doomed (foldr (λ c, on_ctl c count_down) s0 cs)) as Hfold.
    { induction cs as [|c cs IH]; intros s0 Hs0; [done|]. simpl. destruct (IH s0 Hs0) as (k1&t1&Hk1&?&?&?&?).
      exists (match c with O => count_down k1 | S _ => k1 end), t1. simpl. rewrite Hk1. by destruct c. }
    apply Hfold. exists k, (match i with O => set_pc p t | S _ => t end). simpl. rewrite list_lookup_alter, Hk.
    split_and!; try done; [by destruct i; simplify_option_eq|by destruct i|]. by intros ?%(f_equal length); destruct (wks s); rewrite length_alter in *.
  - unfold timeout in Hc. destruct (threads s !! i) as [t'|]; [|done]. destruct (t_pc t'); try done. injection Hc as <-.
    exists k, (match i with O => set_pc Running t | S _ => t end). simpl. rewrite list_lookup_alter, Hk.
    split_and!; try done; [by destruct i; simplify_option_eq|by destruct i].
Qed.

(** A run by a list of choices *)
Inductive actor := C (c : nat) | T (i : nat).
Fixpoint exec (l : list actor) (s : stack) : option stack :=
  match l with
  | [] => Some s
  | a :: l => if aborted s then None else
              match a with C c => control c s | T i => work i s end ≫= exec l
  end.

Lemma exec_run l s s' : exec l s = Some s' → rtc own_step s s'.
Proof.
  revert s. induction l as [|a l IH]; intros s; simpl; [by intros [= ->]|].
  destruct (aborted s) eqn:Ha; [done|]. destruct a as [c|i].
  - destruct (control c s) as [s1|] eqn:E; simpl; [|done]. intros H. eapply rtc_l; [by eapply own_control|eauto].
  - destruct (work i s) as [s1|] eqn:E; simpl; [|done]. intros H. eapply rtc_l; [by eapply own_work|eauto].
Qed.

(** Starting and stopping twice *)
Definition again : list api := [api_start; api_stop].
Definition restarting (n : nat) s : Prop :=
  s = stack0 n [program again 0] ∨ (∃ k, inv again n k s) ∨ doomed s.

Lemma restarting_step n s s' : (0 < n)%nat → restarting n s → any_step s s' → restarting n s'.
Proof.
  intros Hn [->|[[k Hi]|Hd]] Hstep; [right; left; by eapply reach_begin| |right; right; by eapply doomed_step].
  destruct Hstep as [[c _ Hc|i _ Hc]|i _ Hc].
  - destruct c as [|c]; [|unfold control in Hc; by rewrite (inv_ctl _ _ _ _ Hi) in Hc].
    destruct (control_ok _ _ _ _ _ Hi Hc) as [Hst|(?&?&_)]; [|right; left; eauto]. right; right.
    destruct Hst as (_&_&_&Ht&[d Hk]&Hfin&Hw&_). destruct (lookup_lt_is_Some_2 (threads s') 0) as [t Ht0]; [lia|].
    exists (mkCtl again Idle d), t. split_and!; try done; [by eapply Hfin|intros E; rewrite E in Hw; simpl in Hw; lia|by left].
  - right; left. destruct (inv_work _ _ _ _ _ _ Hi Hc); eauto.
  - right; left. exists k. by eapply inv_timeout.
Qed.

(** C40: A stack that was stopped can be started again, but not stopped: the
    vector of threads keeps the joined ones at its front, so [join_worker(0)]
    finds a thread that is not joinable and aborts. *)
Theorem restart_never_stops n s k :
  (0 < n)%nat → rtc any_step (stack0 n [program again 0]) s →
  (ctls s = [k] → c_todo k = [] → c_pc k ≠ Idle) ∧
  ∃ s', rtc own_step (stack0 1 [program again 0]) s' ∧ aborted s' = true.
Proof.
  intros Hn Hrun. split.
  - assert (restarting n s) as Hs.
    { eapply (rtc_invariant any_step (restarting n)); [|by left|exact Hrun]. intros a b. by apply restarting_step. }
    intros Hk Ht Hp. destruct Hs as [->|[[k' Hi]|Hd]]; [by injection Hk as <-| |by eapply doomed_ctl].
    rewrite (inv_ctl _ _ _ _ Hi) in Hk. injection Hk as ->. pose proof (inv_todo _ _ _ _ Hi) as H. rewrite Hp, Ht in H.
    destruct H as [d Hd]. by destruct d.
  - eexists. split; [apply (exec_run ([C 0; C 0; C 0; T 0; T 0; C 0; C 0; C 0; C 0; C 0] ++ replicate 4 (T 0) ++
      [C 0; C 0; C 0; C 0; C 0] ++ [T 1; T 1; C 0; C 0; C 0; C 0; C 0; C 0])%nat); by vm_compute|done].
Qed.

(** A [stop] that runs beside a [start] can take a worker through its whole
    life before the [start] has looked at it: [init] is false again when it
    looks, nothing will set it, and the [start] waits for ever. *)
Theorem start_beside_stop_hangs :
  ∃ s, rtc own_step (stack0 1 [[api_start]; [api_stop]]) s ∧ aborted s = false ∧
    (∃ k, ctls s !! 0%nat = Some k ∧ c_pc k = Await 0) ∧ ∀ s', ¬ any_step s s'.
Proof.
  eexists. split; [apply (exec_run ([C 0; C 0; C 0; C 1; C 1; C 1] ++ replicate 6 (T 0) ++ [C 1; C 1])%nat); by vm_compute|].
  split; [done|]. split; [by eexists|].
  intros s' [[[|[|c]] _ Hc|[|i] _ Hc]|[|i] _ Hc]; done.
Qed.

Lemma stop_completes_witness :
  ∃ s s', rtc any_step (stack0 2 [program [] 1]) s ∧ rtc own_step s s' ∧ stopped [] 2 s'.
Proof.
  exists (stack0 2 [program [] 1]). destruct (stop_completes 2 1 (stack0 2 [program [] 1])) as (_&s'&?&?); [apply rtc_refl|].
  exists s'. split; [apply rtc_refl|by split].
Defined.

Lemma workers_ready_witness :
  ∃ s, rtc any_step (stack0 1 [program [] 1]) s ∧ length (wks s) = 1%nat.
Proof.
  destruct (exec ([C 0; C 0; C 0; T 0; T 0; C 0; C 0] ++ [C 0; C 0; C 0; C 0; T 0; T 0; T 0; T 0; C 0])%nat
    (stack0 1 [program [] 1])) as [s|] eqn:E; [|by vm_compute in E].
  assert (rtc any_step (stack0 1 [program [] 1]) s) as Hrun.
  { apply exec_run in E. eapply rtc_subrel; [|exact E]. intros. by apply any_own. }
  exists s. split; [done|]. vm_compute in E. injection E as <-.
  eapply (workers_ready_between_calls 1 1 _ _ Hrun); reflexivity.
Defined.

Lemma restart_never_stops_witness :
  ∃ s', rtc own_step (stack0 1 [program again 0]) s' ∧ aborted s' = true.
Proof.
  apply (restart_never_stops 1 (stack0 1 [program again 0]) (mkCtl [] Idle 0)); [lia|apply rtc_refl].
Defined.

End theorems.
