(* ===== verification/Text.v ===== *)
(** * Text

    Strings as lists of character codes, the literals of the program, and the
    decimal conversions of [operator<<] and [std::stoi]. *)

From S2P Require Import Prelude State Machine Wire.

(** A literal *)
Definition txt (s : string) : list Z := (λ a, Z.of_N (N_of_ascii a)) <$> String.list_ascii_of_string s.

Definition is_byte (c : Z) : Prop := 0 ≤ c < 256.

(** ** Decimal numbers *)

Definition is_digit (c : Z) : bool := (48 <=? c) && (c <=? 57).

Fixpoint dec_pad (k : nat) (n : Z) : list Z :=
  match k with O => [] | S k => dec_pad k (n / 10) ++ [48 + n mod 10] end.

(** [operator<<] of an unsigned and of a signed number of at most 64 bits *)
Definition dec_u (n : Z) : list Z := strip_zeros (dec_pad 20 n).
Definition dec_s (n : Z) : list Z := if n <? 0 then 45 :: dec_u (- n) else dec_u n.

Fixpoint scan_dec (acc : Z) (l : list Z) : Z * list Z :=
  match l with
  | [] => (acc, [])
  | c :: l' => if is_digit c then scan_dec (acc * 10 + (c - 48)) l' else (acc, l)
  end.

(** What [std::stoi] throws *)
Inductive stoi_result := Value (n : Z) | invalid_argument | out_of_range.

Definition stoi (l : list Z) : stoi_result :=
  let '(neg, l) := scan_sign (skip_spaces l) in
  match l with
  | c :: _ =>
    if is_digit c then
      let v := (scan_dec 0 l).1 in
      let v := if neg then - v else v in
      if (-2147483648 <=? v) && (v <=? 2147483647) then Value v else out_of_range
    else invalid_argument
  | [] => invalid_argument
  end.

Section decimal.

Lemma dec_pad_digits k n : Forall (λ c, is_digit c = true) (dec_pad k n).
Proof.
  revert n. induction k as [|k IH]; intros n; simpl; [constructor|]. apply Forall_app. split; [done|].
  constructor; [|constructor]. unfold is_digit. pose proof (Z.mod_pos_bound n 10). lia.
Qed.
Lemma dec_pad_length k n : length (dec_pad k n) = k.
Proof. revert n. induction k; intros n; simpl; [done|]. rewrite length_app, IHk; simpl. lia. Qed.

Lemma scan_dec_app acc l rest :
  Forall (λ c, is_digit c = true) l → scan_dec acc (l ++ rest) = scan_dec (scan_dec acc l).1 rest.
Proof.
  revert acc. induction l as [|c l IH]; intros acc Hl; simpl; [done|].
  apply Forall_cons in Hl as [-> Hl]. by apply IH.
Qed.

Lemma scan_dec_pad k n acc :
  0 ≤ n < 10 ^ Z.of_nat k → (scan_dec acc (dec_pad k n)).1 = acc * 10 ^ Z.of_nat k + n.
Proof.
  revert n acc. induction k as [|k IH]; intros n acc Hn; [simpl in *; lia|].
  rewrite Nat2Z.inj_succ, Z.pow_succ_r in * by lia. cbn [dec_pad].
  rewrite scan_dec_app by apply dec_pad_digits. pose proof (Z.mod_pos_bound n 10). pose proof (Z.div_mod n 10).
  rewrite IH by (split; [apply Z.div_pos; lia|apply Z.div_lt_upper_bound; lia]). simpl.
  assert (is_digit (48 + n mod 10) = true) as -> by (unfold is_digit; lia). simpl. lia.
Qed.

Lemma strip_zeros_cons c d l : strip_zeros (c :: d :: l) = if c =? 48 then strip_zeros (d :: l) else c :: d :: l.
Proof. done. Qed.
Lemma strip_zeros_scan l : l ≠ [] → (scan_dec 0 (strip_zeros l)).1 = (scan_dec 0 l).1.
Proof.
  induction l as [|c [|d l] IH]; intros H; [done..|]. rewrite strip_zeros_cons.
  destruct (Z.eqb_spec c 48) as [->|]; [|done]. rewrite IH by done. done.
Qed.
Lemma strip_zeros_nonempty l : l ≠ [] → strip_zeros l ≠ [].
Proof. induction l as [|c [|d l] IH]; intros H; [done..|]. rewrite strip_zeros_cons. destruct (_ =? _); [by apply IH|done]. Qed.
Lemma strip_zeros_Forall (P : Z → Prop) l : Forall P l → Forall P (strip_zeros l).
Proof.
  induction l as [|c [|d l] IH]; intros H; [done..|]. rewrite strip_zeros_cons.
  destruct (_ =? _); [|done]. apply IH. by apply Forall_cons in H as [_ ?].
Qed.

Lemma dec_u_digits n : Forall (λ c, is_digit c = true) (dec_u n).
Proof. apply strip_zeros_Forall, dec_pad_digits. Qed.
Lemma dec_u_nonempty n : dec_u n ≠ [].
Proof. apply strip_zeros_nonempty. intros H%(f_equal length). by rewrite dec_pad_length in H. Qed.
Lemma dec_u_scan n : 0 ≤ n < 10 ^ 20 → (scan_dec 0 (dec_u n)).1 = n.
Proof.
  intros Hn. unfold dec_u. rewrite strip_zeros_scan by (intros H%(f_equal length); by rewrite dec_pad_length in H).
  by rewrite scan_dec_pad.
Qed.

(** A printed [int] is read back. *)
Lemma stoi_dec n : -2147483648 ≤ n ≤ 2147483647 → stoi (dec_s n) = Value n.
Proof.
  intros Hn.
  assert (∀ m, 0 ≤ m ≤ 2147483648 → ∃ c l, dec_u m = c :: l ∧ is_digit c = true ∧ is_space c = false ∧
    c ≠ 45 ∧ c ≠ 43 ∧ (scan_dec 0 (c :: l)).1 = m) as Hu.
  { intros m Hm. pose proof (dec_u_digits m) as Hd. pose proof (dec_u_scan m ltac:(lia)) as Hs.
    pose proof (dec_u_nonempty m). destruct (dec_u m) as [|c l]; [done|]. apply Forall_cons in Hd as [Hc _].
    exists c, l. unfold is_digit, is_space in *. split_and!; try done; lia. }
  unfold stoi, dec_s. destruct (Z.ltb_spec n 0).
  - destruct (Hu (- n)) as (c&l&E&Hc&_&_&_&Hs); [lia|]. rewrite E.
    change (scan_sign (skip_spaces (45 :: c :: l))) with (true, c :: l). cbn iota zeta beta.
    rewrite Hc, Hs. destruct (Z.leb_spec (-2147483648) (- - n)), (Z.leb_spec (- - n) 2147483647); try lia. simpl. f_equal. lia.
  - destruct (Hu n) as (c&l&E&Hc&Hsp&H1&H2&Hs); [lia|]. rewrite E. cbn [skip_spaces]. rewrite Hsp. cbn [scan_sign].
    destruct (Z.eqb_spec c 45), (Z.eqb_spec c 43); try done. cbn iota zeta beta. rewrite Hc, Hs.
    destruct (Z.leb_spec (-2147483648) n), (Z.leb_spec n 2147483647); try lia. done.
Qed.

End decimal.

(** ** Padding and separators *)

(** [std::setw(k) << n] filled with '0' *)
Definition setw (k : nat) (n : Z) : list Z := replicate (k - length (dec_u n)) 48 ++ dec_u n.
(** A separator of a reader *)
Definition sep (c : Z) (l : list Z) : option (list Z) := match l with x :: l => if x =? c then Some l else None | [] => None end.

Lemma scan_dec_u n rest :
  0 ≤ n < 10 ^ 20 → match rest with c :: _ => is_digit c = false | [] => True end → scan_dec 0 (dec_u n ++ rest) = (n, rest).
Proof.
  intros Hn Hrest. rewrite scan_dec_app, dec_u_scan by (done || apply dec_u_digits).
  destruct rest as [|c rest]; [done|]. simpl. by rewrite Hrest.
Qed.

Lemma scan_setw k n rest :
  0 ≤ n < 10 ^ 20 → match rest with c :: _ => is_digit c = false | [] => True end → scan_dec 0 (setw k n ++ rest) = (n, rest).
Proof.
  intros Hn Hrest. unfold setw. rewrite <- app_assoc. induction (k - length (dec_u n))%nat as [|j IH]; [by apply scan_dec_u|]. exact IH.
Qed.

Lemma sep_here c r : sep c ([c] ++ r) = Some r.
Proof. simpl. by rewrite Z.eqb_refl. Qed.
