(* ===== verification/Escape.v ===== *)
(** * Escaping of text for XML and JSON (src/common/escape.h and escape.cc)

    Both kinds come in three parts: the size of the buffer that is needed, the
    escape into a buffer, and the escape onto a stream. Characters are bytes;
    a store outside the buffer is [Undefined]. *)

From S2P Require Import Prelude State Addr Machine Wire Text.

(** ** Into a buffer *)

(** What one character stores: a literal by [memcpy], a numeric reference that
    [snprintf] stores with its NUL, or itself *)
Inductive piece := Lit (l : list Z) | Ref (l : list Z) | Same.

(** The switches of [escape_xml_attr] and [escape_json_attr] *)
Definition xml_piece (c : Z) : piece :=
  if c =? 60 then Lit (txt "&lt;") else
  if c =? 38 then Lit (txt "&amp;") else
  if c =? 62 then Lit (txt "&gt;") else
  if c =? 39 then Lit (txt "&apos;") else
  if c =? 34 then Lit (txt "&quot;") else
  if ((c <? 32) && negb (c =? 9) && negb (c =? 10)) || (c =? 127) then Ref (txt "&#x" ++ hex_pad 2 c ++ [59])
  else Same.

Definition json_piece (c : Z) : piece :=
  if c =? 34 then Lit [92; 34] else
  if c =? 92 then Lit [92; 92] else
  if c =? 9 then Lit [92; 116] else
  if c =? 10 then Lit [92; 110] else
  if (c <? 32) || (c =? 127) then Ref (txt "\u" ++ hex_pad 4 c)
  else Same.

Definition piece_text (p : piece) (c : Z) : list Z := match p with Lit l | Ref l => l | Same => [c] end.
Fixpoint escaped (piece_of : Z → piece) (s : list Z) : list Z :=
  match s with [] => [] | c :: s => piece_text (piece_of c) c ++ escaped piece_of s end.

(** The switches of the two functions that give the lengths *)
Definition xml_width (c : Z) : Z :=
  if c =? 60 then 4 else if c =? 38 then 5 else if c =? 62 then 4 else if c =? 39 then 6 else if c =? 34 then 6 else
  if ((c <? 32) && negb (c =? 9) && negb (c =? 10)) || (c =? 127) then 6 else 1.
Definition json_width (c : Z) : Z :=
  if c =? 34 then 2 else if c =? 92 then 2 else if c =? 9 then 2 else if c =? 10 then 2 else
  if (c <? 32) || (c =? 127) then 6 else 1.

(** The characters before the NUL, and the first [n] of an array *)
Fixpoint c_string (buf : list Z) : outcome (list Z) :=
  match buf with
  | [] => Crash Undefined
  | c :: rest => if c =? 0 then Ret [] else s ← c_string rest; Ret (c :: s)
  end.
Definition c_array (n : nat) (buf : list Z) : outcome (list Z) :=
  if (n <=? length buf)%nat then Ret (take n buf) else Crash Undefined.

Definition escape_xml_attr_len (buf : list Z) : outcome Z := s ← c_string buf; Ret (Zsum (xml_width <$> s) + 1).
Definition escape_json_attr_len (buf : list Z) (src_len : nat) : outcome Z :=
  s ← c_array src_len buf; Ret (Zsum (json_width <$> s) + 1).

(** Stores into [out] *)
Definition store (o : nat) (l out : list Z) : outcome (list Z) :=
  if (o + length l <=? length out)%nat then Ret (splice o l out) else Crash Undefined.

(** The loop with the NUL at its end *)
Fixpoint escape_into (piece_of : Z → piece) (s : list Z) (o : nat) (out : list Z) : outcome (list Z) :=
  match s with
  | [] => store o [0] out
  | c :: s =>
    match piece_of c with
    | Lit l => out ← store o l out; escape_into piece_of s (o + length l) out
    | Ref l => out ← store o (l ++ [0]) out; escape_into piece_of s (o + length l) out
    | Same => out ← store o [c] out; escape_into piece_of s (o + 1) out
    end
  end.

Definition escape_xml_attr (buf out : list Z) : outcome (list Z) := s ← c_string buf; escape_into xml_piece s 0 out.
Definition escape_json_attr (buf : list Z) (src_len : nat) (out : list Z) : outcome (list Z) :=
  s ← c_array src_len buf; escape_into json_piece s 0 out.

(** ** Onto a stream

    What was written, the fill character, whether numbers are hexadecimal, and
    the width of the next field, which every insertion sets back to 0. The
    other flags are those of a new stream: padding goes to the left. *)
Record ostream := mkOs { os_text : list Z; os_fill : Z; os_hex : bool; os_width : nat }.
Definition ostream0 : ostream := mkOs [] 32 false 0.

Definition os_put (l : list Z) (o : ostream) : ostream :=
  mkOs (os_text o ++ replicate (os_width o - length l) (os_fill o) ++ l) (os_fill o) (os_hex o) 0.
Definition os_setw (n : nat) (o : ostream) : ostream := mkOs (os_text o) (os_fill o) (os_hex o) n.
(** [operator<<] of an [unsigned int] *)
Definition os_uint (n : Z) (o : ostream) : ostream := os_put (if os_hex o then hex n else dec_u n) o.

(** [boost::optional<hex_formatter>]: the fill and the base it will restore *)
Definition hex_formatter : Type := option (Z * bool).
Definition fmt_emplace (fmt : hex_formatter) (o : ostream) : hex_formatter * ostream :=
  match fmt with
  | Some _ => (fmt, o)
  | None => (Some (os_fill o, os_hex o), mkOs (os_text o) 48 true (os_width o))
  end.
Definition fmt_destroy (fmt : hex_formatter) (o : ostream) : ostream :=
  match fmt with Some (fill, hex) => mkOs (os_text o) fill hex (os_width o) | None => o end.

(** The switches of the two [operator<<] *)
Definition xml_put (p : hex_formatter * ostream) (c : Z) : hex_formatter * ostream :=
  let '(fmt, o) := p in
  if c =? 60 then (fmt, os_put (txt "&lt;") o) else
  if c =? 38 then (fmt, os_put (txt "&amp;") o) else
  if c =? 62 then (fmt, os_put (txt "&gt;") o) else
  if c =? 39 then (fmt, os_put (txt "&apos;") o) else
  if c =? 34 then (fmt, os_put (txt "&quot;") o) else
  if ((c <? 32) && negb (c =? 9) && negb (c =? 10)) || (c =? 127) then
    let '(fmt, o) := fmt_emplace fmt o in
    (fmt, os_put [59] (os_uint c (os_setw 2 (os_put (txt "&#x") o))))
  else (fmt, os_put [c] o).
Definition json_put (p : hex_formatter * ostream) (c : Z) : hex_formatter * ostream :=
  let '(fmt, o) := p in
  if c =? 34 then (fmt, os_put [92; 34] o) else
  if c =? 92 then (fmt, os_put [92; 92] o) else
  if c =? 9 then (fmt, os_put [92; 116] o) else
  if c =? 10 then (fmt, os_put [92; 110] o) else
  if (c <? 32) || (c =? 127) then
    let '(fmt, o) := fmt_emplace fmt o in
    (fmt, os_uint c (os_setw 4 (os_put (txt "\u") o)))
  else (fmt, os_put [c] o).

Definition put_all (put : hex_formatter * ostream → Z → hex_formatter * ostream) (s : list Z) (o : ostream) : ostream :=
  let '(fmt, o) := fold_left put s (None, o) in fmt_destroy fmt o.
Definition xml_insert (s : list Z) (o : ostream) : ostream := put_all xml_put s o.
Definition json_insert (s : list Z) (o : ostream) : ostream := put_all json_put s o.

(** The text that inserting an escaper gives *)
Definition xml_stream_escaper (s : list Z) : list Z := os_text (xml_insert s ostream0).
Definition json_stream_escaper (s : list Z) : list Z := os_text (json_insert s ostream0).

Section escape.

(** ** The buffers are long enough *)

Lemma hex_pad_len k n : length (hex_pad k n) = k.
Proof. revert n. induction k; intros n; simpl; [done|]. rewrite length_app, IHk; simpl. lia. Qed.

Lemma xml_width_piece c : xml_width c = Z.of_nat (length (piece_text (xml_piece c) c)).
Proof. unfold xml_width, xml_piece. repeat (case_match; [done|]). done. Qed.
Lemma json_width_piece c : json_width c = Z.of_nat (length (piece_text (json_piece c) c)).
Proof. unfold json_width, json_piece. repeat (case_match; [done|]). done. Qed.

Lemma splice_at (a b : list Z) l n : n = length a → (length l ≤ length b)%nat →
  splice n l (a ++ b) = (a ++ l) ++ drop (length l) b.
Proof.
  intros -> Hl. unfold splice. rewrite take_app_length. rewrite <- app_assoc. f_equal. f_equal.
  rewrite drop_app_ge by lia. f_equal. lia.
Qed.

(** What the buffer holds: the escaped text, the NUL, and what was there. *)
Lemma escape_into_spec piece_of s : ∀ done rest,
  (length (escaped piece_of s) < length rest)%nat →
  let text := escaped piece_of s in
  escape_into piece_of s (length done) (done ++ rest) = Ret (done ++ text ++ [0] ++ drop (S (length text)) rest).
Proof.
  induction s as [|c s IH]; intros pre rest Hlen; simpl in *.
  - unfold store. rewrite length_app. destruct (Nat.leb_spec (length pre + length [0]) (length pre + length rest)); [|simpl in *; lia].
    rewrite splice_at; [by rewrite <- app_assoc|done|simpl; lia].
  - rewrite length_app in Hlen.
    assert (∀ l tail, piece_text (piece_of c) c = l →
      tail = [] ∨ tail = [0] →
      (out ← store (length pre) (l ++ tail) (pre ++ rest); escape_into piece_of s (length pre + length l) out) =
      Ret (pre ++ ((l ++ (escaped piece_of s)) ++
        [0] ++ drop (S (length (l ++ (escaped piece_of s)))) rest))) as Hgo.
    { intros l tail Hl Ht. rewrite Hl in Hlen. unfold store. rewrite !length_app.
      assert (length tail ≤ 1)%nat by (destruct Ht as [-> | ->]; simpl; lia).
      destruct (Nat.leb_spec (length pre + (length l + length tail)) (length pre + length rest)); [|lia]. mstep.
      rewrite splice_at by (rewrite ?length_app; lia). rewrite (app_assoc pre l tail), <- !app_assoc.
      replace (length pre + length l)%nat with (length (pre ++ l)) by apply length_app.
      rewrite (app_assoc pre l). rewrite IH by (rewrite !length_app, length_drop; lia).
      rewrite <- !app_assoc. do 4 f_equal. simpl. f_equal.
      destruct Ht as [-> | ->]; simpl; rewrite ?app_nil_r, ?drop_drop; f_equal; rewrite ?length_app; simpl; lia. }
    destruct (piece_of c) as [l|l|] eqn:Ep; simpl in *.
    + specialize (Hgo l [] eq_refl (or_introl eq_refl)). by rewrite app_nil_r in Hgo.
    + apply (Hgo l [0] eq_refl). by right.
    + apply (Hgo [c] [] eq_refl). by left.
Qed.

Lemma Zsum_width (width : Z → Z) (piece_of : Z → piece) s :
  (∀ c, width c = Z.of_nat (length (piece_text (piece_of c) c))) →
  Zsum (width <$> s) = Z.of_nat (length (escaped piece_of s)).
Proof. intros Hw. induction s as [|c s IH]; [done|]. csimpl. rewrite length_app, Hw, IH. lia. Qed.

(** ** The streams *)

Lemma os_put_eq l o : os_width o = 0%nat → os_put l o = mkOs (os_text o ++ l) (os_fill o) (os_hex o) 0.
Proof. intros H. unfold os_put. by rewrite H. Qed.

(** Between two characters: no width is pending, and a formatter that exists
    has set the fill and the base. [base] is what the end will leave. *)
Definition between (fmt : hex_formatter) (o : ostream) : Prop :=
  os_width o = 0%nat ∧ (fmt ≠ None → os_fill o = 48 ∧ os_hex o = true).
Definition base (fmt : hex_formatter) (o : ostream) : Z * bool := default (os_fill o, os_hex o) fmt.

(** One character onto a new stream *)
Definition xml_text (c : Z) : list Z := os_text (xml_put (None, ostream0) c).2.
Definition json_text (c : Z) : list Z := os_text (json_put (None, ostream0) c).2.

(** A switch puts the same text whatever the stream's state, and leaves it as it was. *)
Definition appends (put : hex_formatter * ostream → Z → hex_formatter * ostream) (text : Z → list Z) : Prop :=
  ∀ fmt o c, between fmt o → ∃ fmt' o', put (fmt, o) c = (fmt', o') ∧ between fmt' o' ∧
    os_text o' = os_text o ++ text c ∧ base fmt' o' = base fmt o.

Lemma appends_put (fmt : hex_formatter) o l : between fmt o →
  between fmt (os_put l o) ∧ os_text (os_put l o) = os_text o ++ l ∧ base fmt (os_put l o) = base fmt o.
Proof. intros [Hw Hf]. rewrite os_put_eq by done. by split_and!. Qed.
Lemma appends_uint (fmt : hex_formatter) o n c : between fmt o → fmt ≠ None →
  let l := replicate (n - length (hex c)) 48 ++ hex c in
  let o' := os_uint c (os_setw n o) in between fmt o' ∧ os_text o' = os_text o ++ l ∧ base fmt o' = base fmt o.
Proof.
  intros [Hw Hf] Hn. destruct (Hf Hn) as [Hfill Hhex]. unfold os_uint, os_setw, os_put. cbn. rewrite Hhex, Hfill.
  split_and!; [|done|by destruct fmt]. split; [done|]. by intros _.
Qed.
Lemma emplace_ok (fmt : hex_formatter) o fmt' o' : between fmt o → fmt_emplace fmt o = (fmt', o') →
  between fmt' o' ∧ fmt' ≠ None ∧ os_text o' = os_text o ∧ base fmt' o' = base fmt o.
Proof. intros [Hw Hf]. destruct fmt as [[a b]|]; intros [= <- <-]; split_and!; try done; split; auto. Qed.

Lemma xml_put_appends : appends xml_put xml_text.
Proof.
  intros fmt o c Hb. unfold xml_text. cbn [xml_put snd].
  repeat (case_match; [by eexists _, _; split; [reflexivity|]; apply appends_put|]).
  case_match; [|by eexists _, _; split; [reflexivity|]; apply appends_put].
  destruct (fmt_emplace fmt o) as [f1 o1] eqn:E. destruct (emplace_ok _ _ _ _ Hb E) as (Hb1&Hn&T1&B1).
  destruct (appends_put f1 o1 (txt "&#x") Hb1) as (Hb2&T2&B2). destruct (appends_uint f1 _ 2 c Hb2 Hn) as (Hb3&T3&B3).
  destruct (appends_put f1 _ [59] Hb3) as (Hb4&T4&B4). eexists _, _. split_and!; [reflexivity|done| |congruence].
  rewrite T4, T3, T2, T1.
  match goal with |- ?x = _ => change (x = os_text o ++ ((txt "&#x" ++ replicate (2 - length (hex c)) 48 ++ hex c) ++ [59])) end. by rewrite <-!app_assoc.
Qed.
Lemma json_put_appends : appends json_put json_text.
Proof.
  intros fmt o c Hb. unfold json_text. cbn [json_put snd].
  repeat (case_match; [by eexists _, _; split; [reflexivity|]; apply appends_put|]).
  case_match; [|by eexists _, _; split; [reflexivity|]; apply appends_put].
  destruct (fmt_emplace fmt o) as [f1 o1] eqn:E. destruct (emplace_ok _ _ _ _ Hb E) as (Hb1&Hn&T1&B1).
  destruct (appends_put f1 o1 (txt "\u") Hb1) as (Hb2&T2&B2). destruct (appends_uint f1 _ 4 c Hb2 Hn) as (Hb3&T3&B3).
  eexists _, _. split_and!; [reflexivity|done| |congruence].
  rewrite T3, T2, T1.
  match goal with |- ?x = _ => change (x = os_text o ++ txt "\u" ++ replicate (4 - length (hex c)) 48 ++ hex c) end. by rewrite <-!app_assoc.
Qed.

(** Inserting an escaper appends its characters' texts and leaves the
    stream's fill and base as they were. *)
Lemma put_all_appends put text s o : appends put text → os_width o = 0%nat →
  put_all put s o = mkOs (os_text o ++ (s ≫= text)) (os_fill o) (os_hex o) 0.
Proof.
  intros Hput Hw. unfold put_all.
  assert (∀ fmt o, between fmt o → let '(fmt', o') := fold_left put s (fmt, o) in
    between fmt' o' ∧ os_text o' = os_text o ++ (s ≫= text) ∧ base fmt' o' = base fmt o) as H.
  { clear o Hw. induction s as [|c s IH]; intros fmt o Hb; cbn [fold_left]; [by rewrite app_nil_r|].
    destruct (Hput fmt o c Hb) as (f1&o1&->&H1&T1&B1). specialize (IH f1 o1 H1). destruct (fold_left put s (f1, o1)) as [f2 o2].
    destruct IH as (H2&T2&B2). split_and!; [done| |congruence]. rewrite T2, T1. csimpl. by rewrite <-app_assoc. }
  assert (between None o) as Hb by (by split). specialize (H None o Hb). destruct (fold_left put s (@None (Z * bool), o)) as [f1 o1] eqn:E.
  change (fold_left put s (None, o)) with (fold_left put s (@None (Z * bool), o)) in H. rewrite E in H. destruct H as ((Hw1&_)&T&B). destruct f1 as [[a b]|], o1; cbn in *; simplify_eq; done.
Qed.

Lemma xml_stream_text s : xml_stream_escaper s = s ≫= xml_text.
Proof. unfold xml_stream_escaper, xml_insert. by rewrite (put_all_appends _ _ _ _ xml_put_appends). Qed.
Lemma json_stream_text s : json_stream_escaper s = s ≫= json_text.
Proof. unfold json_stream_escaper, json_insert. by rewrite (put_all_appends _ _ _ _ json_put_appends). Qed.

(** Every byte, one by one *)
Lemma all_bytes (f : Z → bool) : forallb f (seqZ 0 256) = true → ∀ c, is_byte c → f c = true.
Proof. intros H c Hc. rewrite forallb_forall in H. apply H, list_elem_of_In, elem_of_seqZ. unfold is_byte in Hc. lia. Qed.

(** The two switches of each kind agree. *)
Lemma xml_text_piece c : is_byte c → xml_text c = piece_text (xml_piece c) c.
Proof.
  intros Hc. eapply bool_decide_unpack, Is_true_true. revert c Hc.
  apply (all_bytes (λ c, bool_decide (xml_text c = piece_text (xml_piece c) c))). by vm_compute.
Qed.
Lemma json_text_piece c : is_byte c → json_text c = piece_text (json_piece c) c.
Proof.
  intros Hc. eapply bool_decide_unpack, Is_true_true. revert c Hc.
  apply (all_bytes (λ c, bool_decide (json_text c = piece_text (json_piece c) c))). by vm_compute.
Qed.
Lemma bind_pieces (text : Z → list Z) piece_of s : (∀ c, is_byte c → text c = piece_text (piece_of c) c) → Forall is_byte s →
  s ≫= text = escaped piece_of s.
Proof. intros Ht. induction 1 as [|c s Hc _ IH]; [done|]. csimpl. by rewrite Ht, IH. Qed.

(** ** Reading escaped text back *)

Definition hex4 (a b c d : Z) : option Z :=
  x ← unhexc a; y ← unhexc b; z ← unhexc c; w ← unhexc d; Some (((x * 16 + y) * 16 + z) * 16 + w).

(** The letters of JSON after a backslash *)
Definition json_esc (e : Z) : option Z :=
  if (e =? 34) || (e =? 92) || (e =? 47) then Some e else
  if e =? 98 then Some 8 else if e =? 102 then Some 12 else if e =? 110 then Some 10 else
  if e =? 114 then Some 13 else if e =? 116 then Some 9 else None.

(** The inside of a JSON string up to its closing quote: the characters it
    stands for, and what follows. Control characters are not allowed raw; a
    reference outside ASCII is not read. *)
Fixpoint json_read (l : list Z) : option (list Z * list Z) :=
  match l with
  | [] => None
  | c :: l =>
    if c =? 34 then Some ([], l) else
    if c =? 92 then
      match l with
      | [] => None
      | e :: l =>
        if e =? 117 then
          match l with
          | h1 :: h2 :: h3 :: h4 :: l =>
            v ← hex4 h1 h2 h3 h4; '(s, r) ← json_read l; if v <? 128 then Some (v :: s, r) else None
          | _ => None
          end
        else d ← json_esc e; '(s, r) ← json_read l; Some (d :: s, r)
      end
    else if c <? 32 then None else '(s, r) ← json_read l; Some (c :: s, r)
  end.

Fixpoint strip_prefix (p l : list Z) : option (list Z) :=
  match p, l with
  | [], _ => Some l
  | a :: p, b :: l => if a =? b then strip_prefix p l else None
  | _, [] => None
  end.

Definition xml_entities : list (list Z * Z) :=
  [(txt "lt;", 60); (txt "amp;", 38); (txt "gt;", 62); (txt "apos;", 39); (txt "quot;", 34)].
Fixpoint xml_named (es : list (list Z * Z)) (l : list Z) : option (Z * list Z) :=
  match es with
  | [] => None
  | (name, c) :: es => match strip_prefix name l with Some l' => Some (c, l') | None => xml_named es l end
  end.
(** A reference after its ampersand *)
Definition xml_reference (l : list Z) : option (Z * list Z) :=
  match strip_prefix (txt "#x") l with
  | Some (a :: b :: s :: l) => v ← hex4 48 48 a b; if s =? 59 then Some (v, l) else None
  | Some _ => None
  | None => xml_named xml_entities l
  end.
(** The text of an attribute or element; [n] bounds its characters. *)
Fixpoint xml_read (n : nat) (l : list Z) : option (list Z) :=
  match n, l with
  | _, [] => Some []
  | O, _ => None
  | S n, c :: l =>
    if c =? 38 then '(d, l) ← xml_reference l; s ← xml_read n l; Some (d :: s) else
    if (c =? 60) || (c =? 62) || (c =? 34) || (c =? 39) then None else s ← xml_read n l; Some (c :: s)
  end.

(** The hexadecimal digits of a byte are read back. *)
Definition hex_ok (c : Z) : bool :=
  match hex_pad 4 c, hex_pad 2 c with
  | [a; b; d; e], [f; g] => bool_decide (hex4 a b d e = Some c) && bool_decide (hex4 48 48 f g = Some c)
  | _, _ => false
  end.
Lemma hex_read c : is_byte c →
  ∃ a b d e f g, hex_pad 4 c = [a; b; d; e] ∧ hex4 a b d e = Some c ∧ hex_pad 2 c = [f; g] ∧ hex4 48 48 f g = Some c.
Proof.
  intros Hc. assert (hex_ok c = true) as H by (apply all_bytes; [by vm_compute|done]). unfold hex_ok in H.
  destruct (hex_pad 4 c) as [|a [|b [|d [|e [|]]]]]; try done. destruct (hex_pad 2 c) as [|f [|g [|]]]; try done.
  apply andb_prop in H as [?%bool_decide_eq_true ?%bool_decide_eq_true]. by exists a, b, d, e, f, g.
Qed.

Lemma json_read_piece c l : is_byte c →
  json_read (piece_text (json_piece c) c ++ l) = ('(s, r) ← json_read l; Some (c :: s, r)).
Proof.
  intros Hc. unfold json_piece.
  destruct (Z.eqb_spec c 34) as [->|]; [done|]. destruct (Z.eqb_spec c 92) as [->|]; [done|].
  destruct (Z.eqb_spec c 9) as [->|]; [done|]. destruct (Z.eqb_spec c 10) as [->|]; [done|].
  destruct ((c <? 32) || (c =? 127)) eqn:E.
  - destruct (hex_read c Hc) as (a&b&d&e&_&_&Hp&Hv&_). unfold piece_text. rewrite Hp. simpl. rewrite Hv. simpl.
    destruct (json_read l) as [[s r]|]; simpl; [|done]. by destruct (Z.ltb_spec c 128); [|lia].
  - simpl. destruct (Z.eqb_spec c 34), (Z.eqb_spec c 92), (Z.ltb_spec c 32); try lia; try done.
Qed.

Lemma json_read_escaped s rest : Forall is_byte s → json_read (json_stream_escaper s ++ 34 :: rest) = Some (s, rest).
Proof.
  intros Hs. rewrite json_stream_text, (bind_pieces _ _ _ json_text_piece Hs). revert Hs.
  induction 1 as [|c s Hc _ IH]; [done|]. cbn [escaped]. rewrite <- app_assoc, json_read_piece, IH by done. done.
Qed.

Lemma xml_read_piece n c l : is_byte c →
  xml_read (S n) (piece_text (xml_piece c) c ++ l) = (s ← xml_read n l; Some (c :: s)).
Proof.
  intros Hc. unfold xml_piece.
  destruct (Z.eqb_spec c 60) as [->|]; [done|]. destruct (Z.eqb_spec c 38) as [->|]; [done|].
  destruct (Z.eqb_spec c 62) as [->|]; [done|]. destruct (Z.eqb_spec c 39) as [->|]; [done|].
  destruct (Z.eqb_spec c 34) as [->|]; [done|].
  destruct (_ || _) eqn:E.
  - destruct (hex_read c Hc) as (_&_&_&_&a&b&_&_&Hp&H).
    unfold piece_text. rewrite Hp.
    change (xml_read (S n) ((txt "&#x" ++ [a; b] ++ [59]) ++ l)) with
      ('(d, l) ← (v ← hex4 48 48 a b; Some (v, l)); s ← xml_read n l; Some (d :: s)). by rewrite H.
  - simpl. destruct (Z.eqb_spec c 38), (Z.eqb_spec c 60), (Z.eqb_spec c 62), (Z.eqb_spec c 34), (Z.eqb_spec c 39); done.
Qed.

Lemma xml_read_escaped s n : Forall is_byte s → (length s ≤ n)%nat → xml_read n (escaped xml_piece s) = Some s.
Proof.
  intros Hs. revert n. induction Hs as [|c s Hc _ IH]; intros [|n] Hn; simpl in Hn; try lia; [done..|].
  cbn [escaped]. rewrite xml_read_piece, IH by (done || lia). done.
Qed.

(** The characters of an array of bytes are bytes. *)
Lemma c_string_bytes buf s : Forall is_byte buf → c_string buf = Ret s → Forall is_byte s.
Proof.
  intros Hb. revert s. induction Hb as [|c buf Hc _ IH]; intros s; [done|]. cbn [c_string]. destruct (c =? 0); [by intros [= <-]|].
  destruct (c_string buf) as [t|]; [|done]. intros [= <-]. constructor; [done|]. by apply IH.
Qed.
Lemma c_array_bytes n buf s : Forall is_byte buf → c_array n buf = Ret s → Forall is_byte s.
Proof. intros Hb. unfold c_array. destruct (_ <=? _)%nat; [|done]. intros [= <-]. by apply Forall_take. Qed.

End escape.

Section theorems.

(** C32: The buffer form, the stream form and the length of both escapes agree,
    though each has a switch of its own. For any bytes: into a buffer of at
    least the length the length function gives, the buffer form stores exactly
    the text that the insertion of the escaper appends to a stream, then a NUL,
    and leaves the bytes behind alone; the NULs of [snprintf] stay inside. The
    stream may be in any state with no width pending, and gets back the fill
    character and the base it had. *)
Theorem escape_buffer_matches_stream buf out s n o :
  Forall is_byte buf → os_width o = 0%nat →
  (c_string buf = Ret s → escape_xml_attr_len buf = Ret n → n ≤ Z.of_nat (length out) →
    ∃ text, escape_xml_attr buf out = Ret (text ++ [0] ++ drop (Z.to_nat n) out) ∧
      xml_insert s o = mkOs (os_text o ++ text) (os_fill o) (os_hex o) 0 ∧ n = Z.of_nat (length text) + 1) ∧
  (∀ len, c_array len buf = Ret s → escape_json_attr_len buf len = Ret n → n ≤ Z.of_nat (length out) →
    ∃ text, escape_json_attr buf len out = Ret (text ++ [0] ++ drop (Z.to_nat n) out) ∧
      json_insert s o = mkOs (os_text o ++ text) (os_fill o) (os_hex o) 0 ∧ n = Z.of_nat (length text) + 1).
Proof.
  intros Hbuf Hw.
  assert (∀ piece_of t, (length (escaped piece_of t) < length out)%nat →
    escape_into piece_of t 0 out = Ret (escaped piece_of t ++ [0] ++ drop (S (length (escaped piece_of t))) out)) as Hgo.
  { intros piece_of t Ht. exact (escape_into_spec piece_of t [] out Ht). }
  split; [intros Hs|intros len Hs]; unfold escape_xml_attr_len, escape_json_attr_len, escape_xml_attr, escape_json_attr;
    rewrite Hs; mstep; intros [= <-] Hn.
  - rewrite (Zsum_width xml_width xml_piece) in * by apply xml_width_piece. exists (escaped xml_piece s).
    split_and!; [rewrite Hgo by lia; do 4 f_equal; lia| |done]. unfold xml_insert.
    by rewrite (put_all_appends _ _ _ _ xml_put_appends), (bind_pieces _ _ _ xml_text_piece (c_string_bytes _ _ Hbuf Hs)).
  - rewrite (Zsum_width json_width json_piece) in * by apply json_width_piece. exists (escaped json_piece s).
    split_and!; [rewrite Hgo by lia; do 4 f_equal; lia| |done]. unfold json_insert.
    by rewrite (put_all_appends _ _ _ _ json_put_appends), (bind_pieces _ _ _ json_text_piece (c_array_bytes _ _ _ Hbuf Hs)).
Qed.

(** Escaped text is read back: any bytes, escaped for JSON and followed by a
    quote, are a JSON string body that stands for these bytes; escaped for
    XML they are character data that stands for them. *)
Theorem escape_round_trip s rest :
  Forall is_byte s →
  json_read (json_stream_escaper s ++ 34 :: rest) = Some (s, rest) ∧
  xml_read (length (xml_stream_escaper s)) (xml_stream_escaper s) = Some s.
Proof.
  intros Hs. split; [by apply json_read_escaped|]. rewrite xml_stream_text, (bind_pieces _ _ _ xml_text_piece Hs).
  apply xml_read_escaped; [done|]. clear. induction s as [|c s IH]; [done|]. simpl. rewrite length_app.
  assert (1 ≤ length (piece_text (xml_piece c) c))%nat; [|lia].
  unfold xml_piece. repeat (case_match; [simpl; lia|]). done.
Qed.

Lemma escape_round_trip_witness :
  json_read (json_stream_escaper (txt "a<b" ++ [10; 7; 200]) ++ [34]) = Some (txt "a<b" ++ [10; 7; 200], []).
Proof.
  destruct (escape_round_trip (txt "a<b" ++ [10; 7; 200]) []) as [H _]; [|exact H].
  repeat constructor; by vm_compute.
Defined.

Lemma escape_buffer_witness : ∃ text,
  escape_json_attr [34; 65; 7] 3 (replicate 12 1) = Ret (text ++ [0] ++ [1; 1]) ∧
  json_insert [34; 65; 7] (mkOs (txt "x") 42 false 0) = mkOs (txt "x" ++ text) 42 false 0.
Proof.
  destruct (escape_buffer_matches_stream [34; 65; 7] (replicate 12 1) [34; 65; 7] 10 (mkOs (txt "x") 42 false 0)) as [_ H];
    [repeat constructor; by vm_compute|done|].
  destruct (H 3%nat) as (text&H1&H2&_); [done|by vm_compute|by vm_compute|]. by exists text.
Defined.

End theorems.
