(* ===== verification/Formatter.v ===== *)
(** * JSON output (src/common/formatter.h and formatter.cc, [JSONFormatter])

    The formatter writes a document while its caller opens and closes
    sections. The stack has its last element first. The virtual hooks
    [handle_value], [handle_open_section] and [handle_close_section] answer
    false, as the class defines them. *)

From S2P Require Import Prelude State Addr Machine Wire Text Escape.

Definition LARGE_SIZE : nat := 1024.

(** [vsnprintf(buf, LARGE_SIZE, ...)] of a text without NUL *)
Definition snprintf_large (text : list Z) : list Z := take (LARGE_SIZE - 1) text.

(** [fixed_u_to_string] and [fixed_to_string]: at least [scale + 1] digits,
    with a point before the last [scale] *)
Definition fill_zeros (width : nat) (l : list Z) : list Z := replicate (width - length l) 48 ++ l.
Definition fixed_u_to_string (num : Z) (scale : nat) : list Z :=
  let t := fill_zeros (S scale) (dec_u num) in
  take (length t - scale) t ++ [46] ++ drop (length t - scale) t.
(** The minimum of [int64_t] is its own negation. *)
Definition fixed_to_string (num : Z) (scale : nat) : list Z :=
  let neg := num <? 0 in
  let num := if neg && negb (num =? -9223372036854775808) then - num else num in
  let t := fill_zeros (S scale) (dec_s num) in
  (if neg then [45] else []) ++ take (length t - scale) t ++ [46] ++ drop (length t - scale) t.

(** [json_formatter_stack_entry_d] *)
Record entry := mkEntry { e_size : Z; e_is_array : bool }.

Record json := mkJson {
  m_pretty : bool;
  m_ss : list Z;
  m_pending_string : list Z;
  m_pending_name : list Z;
  m_stack : list entry;
  m_is_pending_string : bool;
  m_line_break_enabled : bool;
}.

Module JSONFormatter.
Implicit Types s : json.

(** [m_ss << l] *)
Definition put (l : list Z) s : json :=
  mkJson (m_pretty s) (m_ss s ++ l) (m_pending_string s) (m_pending_name s) (m_stack s) (m_is_pending_string s)
    (m_line_break_enabled s).
Definition set_stack (st : list entry) s : json :=
  mkJson (m_pretty s) (m_ss s) (m_pending_string s) (m_pending_name s) st (m_is_pending_string s) (m_line_break_enabled s).
Definition set_pending (b : bool) (name text : list Z) s : json :=
  mkJson (m_pretty s) (m_ss s) text name (m_stack s) b (m_line_break_enabled s).

(** [reset] clears neither the flag of a pending string nor its name. *)
Definition reset s : json :=
  mkJson (m_pretty s) [] [] (m_pending_name s) [] (m_is_pending_string s) (m_line_break_enabled s).
Definition create (p : bool) : json := reset (mkJson p [] [] [] [] false false).
Definition enable_line_break s : json :=
  mkJson (m_pretty s) (m_ss s) (m_pending_string s) (m_pending_name s) (m_stack s) (m_is_pending_string s) true.

(** One indentation per open section but the first *)
Definition indent (n : nat) : list Z := concat (replicate n (txt "    ")).

#[global] Arguments indent : simpl never.

Definition print_comma (e : entry) s : json :=
  let depth := indent (length (m_stack s) - 1) in
  let s :=
    if negb (e_size e =? 0) then
      if m_pretty s then put (txt "," ++ [10] ++ depth) s else put (txt ",") s
    else if m_pretty s then put ([10] ++ depth) s else s in
  if m_pretty s && e_is_array e then put (txt "    ") s else s.

Definition print_quoted_string (l : list Z) s : json := put ([34] ++ json_stream_escaper l ++ [34]) s.

(** [print_name] after its [finish_pending_string] *)
Definition print_name_now (name : list Z) s : json :=
  match m_stack s with
  | [] => s
  | e :: rest =>
    let s := print_comma e s in
    let s :=
      if negb (e_is_array e) then
        let s := if m_pretty s then put (txt "    ") s else s in
        let s := put ([34] ++ name ++ [34]) s in
        if m_pretty s then put (txt ": ") s else put (txt ":") s
      else s in
    set_stack (mkEntry (e_size e + 1) (e_is_array e) :: rest) s
  end.

(** [add_value] when no string is pending *)
Definition add_value_now (name val : list Z) (quoted : bool) s : json :=
  let s := print_name_now name s in
  if quoted then print_quoted_string val s else put val s.

(** The flag is lowered first, so the [finish_pending_string] inside
    [add_value] finds nothing. *)
Definition finish_pending_string s : json :=
  if m_is_pending_string s then
    let s' := add_value_now (m_pending_name s) (m_pending_string s) true
                (set_pending false (m_pending_name s) (m_pending_string s) s) in
    set_pending false (m_pending_name s') [] s'
  else s.

Definition print_name (name : list Z) s : json := print_name_now name (finish_pending_string s).
Definition add_value (name val : list Z) (quoted : bool) s : json :=
  let s := print_name name s in
  if quoted then print_quoted_string val s else put val s.

Definition open_section (name : list Z) (ns : option (list Z)) (is_array : bool) s : json :=
  let s := match ns with Some ns => print_name (name ++ txt " " ++ ns) s | None => print_name name s end in
  let s := put (if is_array then txt "[" else txt "{") s in
  set_stack (mkEntry 0 is_array :: m_stack s) s.
Definition open_array_section (name : list Z) : json → json := open_section name None true.
Definition open_array_section_in_ns (name ns : list Z) : json → json := open_section name (Some ns) true.
Definition open_object_section (name : list Z) : json → json := open_section name None false.
Definition open_object_section_in_ns (name ns : list Z) : json → json := open_section name (Some ns) false.

Definition close_section s : outcome json :=
  kassert (negb (bool_decide (m_stack s = []))) ;;
  let s := finish_pending_string s in
  match m_stack s with
  | [] => Crash Undefined
  | e :: rest =>
    let s := if m_pretty s && negb (e_size e =? 0) then put ([10] ++ indent (length (m_stack s) - 1)) s else s in
    let s := put (if e_is_array e then txt "]" else txt "}") s in
    let s := set_stack rest s in
    Ret (if m_pretty s && bool_decide (rest = []) then put [10] s else s)
  end.

Definition dump_unsigned (name : list Z) (u : Z) : json → json := add_value name (dec_u u) false.
Definition dump_int (name : list Z) (n : Z) : json → json := add_value name (dec_s n) false.
(** [text] is what [operator<<] prints for the number. *)
Definition dump_float (name text : list Z) : json → json := add_value name text false.
Definition dump_string (name l : list Z) : json → json := add_value name l true.
(** [dump_stream] and what the caller then writes to the stream *)
Definition dump_stream (name : list Z) s : json :=
  let s := finish_pending_string s in set_pending true name (m_pending_string s) s.
Definition stream_write (l : list Z) s : json :=
  set_pending (m_is_pending_string s) (m_pending_name s) (m_pending_string s ++ l) s.
(** [dump_format_va]; [text] is the formatted text. *)
Definition dump_format_va (name : list Z) (quoted : bool) (text : list Z) : json → json :=
  add_value name (snprintf_large text) quoted.
Definition dump_bool (name : list Z) (b : bool) : json → json :=
  dump_format_va name false (if b then txt "true" else txt "false").
Definition get_len s : Z := Z.of_nat (length (m_ss s)).
Definition write_raw_data (l : list Z) : json → json := put l.

(** [flush(os)]: what goes to [os] *)
Definition flush s : list Z * json :=
  let s := finish_pending_string s in
  (m_ss s ++ (if m_line_break_enabled s then [10] else []),
   mkJson (m_pretty s) [] (m_pending_string s) (m_pending_name s) (m_stack s) (m_is_pending_string s) (m_line_break_enabled s)).

End JSONFormatter.

Import JSONFormatter.

(** ** Documents *)

Inductive jval := JInt (n : Z) | JStr (s : list Z) | JArr (l : list jval) | JObj (l : list (list Z * jval)).

(** The calls that write a value *)
Fixpoint emit (name : list Z) (v : jval) (s : json) : outcome json :=
  match v with
  | JInt n => Ret (dump_int name n s)
  | JStr l => Ret (dump_string name l s)
  | JArr l =>
    let fix go (l : list jval) (s : json) : outcome json :=
      match l with [] => Ret s | v :: l => s ← emit [] v s; go l s end in
    s ← go l (open_array_section name s); close_section s
  | JObj l =>
    let fix go (l : list (list Z * jval)) (s : json) : outcome json :=
      match l with [] => Ret s | (k, v) :: l => s ← emit k v s; go l s end in
    s ← go l (open_object_section name s); close_section s
  end.

(** The text of a value in a document, [d] sections deep *)
Definition lead (p first : bool) (d : nat) : list Z :=
  (if first then [] else txt ",") ++ (if p then [10] ++ indent (S d) else []).
Definition key (p : bool) (k : list Z) : list Z := [34] ++ k ++ [34] ++ (if p then txt ": " else txt ":").
Definition tail_of {A} (p : bool) (d : nat) (l : list A) : list Z :=
  match l with [] => [] | _ => if p then [10] ++ indent d else [] end.
Definition last_line (p : bool) (d : nat) : list Z := if p && (d =? 0)%nat then [10] else [].

Fixpoint render (p : bool) (d : nat) (v : jval) : list Z :=
  match v with
  | JInt n => dec_s n
  | JStr l => [34] ++ json_stream_escaper l ++ [34]
  | JArr l =>
    let fix items (first : bool) (l : list jval) : list Z :=
      match l with [] => [] | v :: l => lead p first d ++ render p (S d) v ++ items false l end in
    txt "[" ++ items true l ++ tail_of p d l ++ txt "]" ++ last_line p d
  | JObj l =>
    let fix items (first : bool) (l : list (list Z * jval)) : list Z :=
      match l with [] => [] | (k, v) :: l => lead p first d ++ key p k ++ render p (S d) v ++ items false l end in
    txt "{" ++ items true l ++ tail_of p d l ++ txt "}" ++ last_line p d
  end.

Fixpoint emit_items (l : list jval) (s : json) : outcome json :=
  match l with [] => Ret s | v :: l => s ← emit [] v s; emit_items l s end.
Fixpoint emit_members (l : list (list Z * jval)) (s : json) : outcome json :=
  match l with [] => Ret s | (k, v) :: l => s ← emit k v s; emit_members l s end.
Section items.
Context (p : bool) (d : nat).
Fixpoint items (first : bool) (l : list jval) : list Z :=
  match l with [] => [] | v :: l => lead p first d ++ render p (S d) v ++ items false l end.
Fixpoint members (first : bool) (l : list (list Z * jval)) : list Z :=
  match l with [] => [] | (k, v) :: l => lead p first d ++ key p k ++ render p (S d) v ++ members false l end.
End items.

Section documents.

Lemma emit_arr name l s : emit name (JArr l) s = (s ← emit_items l (open_array_section name s); close_section s).
Proof. reflexivity. Qed.
Lemma emit_obj name l s : emit name (JObj l) s = (s ← emit_members l (open_object_section name s); close_section s).
Proof. reflexivity. Qed.
Lemma render_arr p d l : render p d (JArr l) = txt "[" ++ items p d true l ++ tail_of p d l ++ txt "]" ++ last_line p d.
Proof. reflexivity. Qed.
Lemma render_obj p d l : render p d (JObj l) = txt "{" ++ members p d true l ++ tail_of p d l ++ txt "}" ++ last_line p d.
Proof. reflexivity. Qed.

(** Induction over documents *)
Lemma jval_rect' (P : jval → Prop) :
  (∀ n, P (JInt n)) → (∀ s, P (JStr s)) → (∀ l, Forall P l → P (JArr l)) →
  (∀ l, Forall (λ kv, P kv.2) l → P (JObj l)) → ∀ v, P v.
Proof.
  intros Hi Hs Ha Ho. fix IH 1. intros [n|s|l|l]; [apply Hi|apply Hs|apply Ha|apply Ho].
  - induction l as [|v l IHl]; constructor; [apply IH|apply IHl].
  - induction l as [|[k v] l IHl]; constructor; [apply IH|apply IHl].
Qed.

(** No string pending, no extra line breaks, the mode [p], [l] written, the sections [st] open *)
Definition at_ (p : bool) (l : list Z) (st : list entry) (s : json) : Prop :=
  m_pretty s = p ∧ (m_is_pending_string s = false ∧ m_line_break_enabled s = false) ∧ m_ss s = l ∧ m_stack s = st.

(** What a value is preceded by, and the stack after it *)
Definition opening (p : bool) (name : list Z) (st : list entry) : list Z :=
  match st with
  | [] => []
  | e :: rest => lead p (e_size e =? 0) (length rest) ++ (if e_is_array e then [] else key p name)
  end.
Definition bump (st : list entry) : list entry :=
  match st with [] => [] | e :: rest => mkEntry (e_size e + 1) (e_is_array e) :: rest end.

Lemma indent_S n : indent (S n) = indent n ++ txt "    ".
Proof. unfold indent. by rewrite replicate_S_end, concat_app. Qed.

Lemma print_name_at p l st name s :
  at_ p l st s → at_ p (l ++ opening p name st) (bump st) (print_name name s).
Proof.
  destruct s as [pr ss ps pn st' pend lb]. intros (<-&[Hp Hlb]&<-&<-). simpl in Hp, Hlb; subst pend lb.
  unfold print_name, finish_pending_string, print_name_now, print_comma, opening, at_, lead, key. simpl.
  destruct st' as [|e rest]; simpl; [by rewrite app_nil_r|]. rewrite Nat.sub_0_r, indent_S.
  destruct pr, (e_size e =? 0), (e_is_array e); simpl; rewrite <- ?app_assoc; simpl; rewrite <- ?app_assoc; by rewrite ?app_nil_r.
Qed.

Lemma put_at p l st x s : at_ p l st s → at_ p (l ++ x) st (put x s).
Proof. intros (?&?&<-&?). done. Qed.

Lemma add_value_at p l st name val (quoted : bool) s :
  at_ p l st s →
  at_ p (l ++ opening p name st ++ (if quoted then [34] ++ json_stream_escaper val ++ [34] else val)) (bump st)
    (add_value name val quoted s).
Proof.
  intros H%(print_name_at _ _ _ name). unfold add_value, print_quoted_string. rewrite app_assoc.
  destruct quoted; by apply put_at.
Qed.

Lemma open_section_at p l st name (arr : bool) s :
  at_ p l st s →
  at_ p (l ++ opening p name st ++ (if arr then txt "[" else txt "{")) (mkEntry 0 arr :: bump st)
    (open_section name None arr s).
Proof.
  intros H%(print_name_at _ _ _ name). unfold open_section. rewrite app_assoc.
  destruct (put_at p _ _ (if arr then txt "[" else txt "{") _ H) as (?&[??]&?&Hst).
  split_and!; try done. simpl. by f_equal.
Qed.

Lemma close_section_at p l e st s :
  at_ p l (e :: st) s →
  ∃ s', close_section s = Ret s' ∧
    at_ p (l ++ (if p && negb (e_size e =? 0) then [10] ++ indent (length st) else []) ++
           (if e_is_array e then txt "]" else txt "}") ++ last_line p (length st)) st s'.
Proof.
  destruct s as [pr ss ps pn st' pend lb]. intros (<-&[Hp Hlb]&<-&Hst). simpl in *; subst pend lb st'.
  unfold close_section, finish_pending_string. simpl. eexists; split; [done|]. unfold at_, last_line. rewrite Nat.sub_0_r.
  destruct pr, (e_size e =? 0), (e_is_array e), st; simpl; rewrite <- ?app_assoc; simpl; by rewrite ?app_nil_r.
Qed.

(** The calls for a value write its text. *)
Definition emits (v : jval) : Prop := ∀ name p l st s,
  at_ p l st s → ∃ s', emit name v s = Ret s' ∧ at_ p (l ++ opening p name st ++ render p (length st) v) (bump st) s'.

Lemma emit_items_at p st ls : Forall emits ls → ∀ n l s,
  0 ≤ n → at_ p l (mkEntry n true :: st) s →
  ∃ s', emit_items ls s = Ret s' ∧
    at_ p (l ++ items p (length st) (n =? 0) ls) (mkEntry (n + Z.of_nat (length ls)) true :: st) s'.
Proof.
  induction 1 as [|v ls Hv _ IH]; intros n l s Hn Hs; cbn [emit_items items length].
  { exists s. split; [done|]. by rewrite app_nil_r, Z.add_0_r. }
  destruct (Hv [] p l _ s Hs) as (s1&->&Hs1). mstep. cbn [opening bump e_size e_is_array] in Hs1.
  destruct (IH (n + 1) _ s1 ltac:(lia) Hs1) as (s2&->&Hs2). exists s2. split; [done|].
  replace (n + 1 + Z.of_nat (length ls)) with (n + Z.of_nat (S (length ls))) in Hs2 by lia.
  destruct (Z.eqb_spec (n + 1) 0); [lia|]. rewrite app_nil_r in Hs2. by rewrite <- !app_assoc in Hs2.
Qed.

Lemma emit_members_at p st ls : Forall (λ kv, emits kv.2) ls → ∀ n l s,
  0 ≤ n → at_ p l (mkEntry n false :: st) s →
  ∃ s', emit_members ls s = Ret s' ∧
    at_ p (l ++ members p (length st) (n =? 0) ls) (mkEntry (n + Z.of_nat (length ls)) false :: st) s'.
Proof.
  induction 1 as [|[k v] ls Hv _ IH]; intros n l s Hn Hs; cbn [emit_members members length].
  { exists s. split; [done|]. by rewrite app_nil_r, Z.add_0_r. }
  destruct (Hv k p l _ s Hs) as (s1&E1&Hs1). cbn [snd] in E1, Hs1. rewrite E1. mstep. cbn [opening bump e_size e_is_array] in Hs1.
  destruct (IH (n + 1) _ s1 ltac:(lia) Hs1) as (s2&->&Hs2). exists s2. split; [done|].
  replace (n + 1 + Z.of_nat (length ls)) with (n + Z.of_nat (S (length ls))) in Hs2 by lia.
  destruct (Z.eqb_spec (n + 1) 0); [lia|]. by rewrite <- !app_assoc in Hs2.
Qed.

Lemma bump_length st : length (bump st) = length st.
Proof. by destruct st. Qed.

Lemma emit_renders v : emits v.
Proof.
  induction v as [n|x|ls IH|ls IH] using jval_rect'; intros name p l st s Hs.
  - eexists; split; [done|]. by apply (add_value_at p l st name (dec_s n) false).
  - eexists; split; [done|]. by apply (add_value_at p l st name x true).
  - rewrite emit_arr, render_arr. unfold open_array_section. apply (open_section_at p l st name true) in Hs.
    destruct (emit_items_at p (bump st) ls IH 0 _ _ ltac:(lia) Hs) as (s1&->&Hs1). mstep.
    destruct (close_section_at _ _ _ _ _ Hs1) as (s2&->&Hs2). exists s2. split; [done|].
    rewrite bump_length in Hs2. cbn [e_size e_is_array] in Hs2. rewrite <- !app_assoc in Hs2.
    destruct ls as [|v ls]; [by destruct p|]. destruct (Z.eqb_spec (0 + Z.of_nat (length (v :: ls))) 0); [simpl in *; lia|].
    by destruct p.
  - rewrite emit_obj, render_obj. unfold open_object_section. apply (open_section_at p l st name false) in Hs.
    destruct (emit_members_at p (bump st) ls IH 0 _ _ ltac:(lia) Hs) as (s1&->&Hs1). mstep.
    destruct (close_section_at _ _ _ _ _ Hs1) as (s2&->&Hs2). exists s2. split; [done|].
    rewrite bump_length in Hs2. cbn [e_size e_is_array] in Hs2. rewrite <- !app_assoc in Hs2.
    destruct ls as [|v ls]; [by destruct p|]. destruct (Z.eqb_spec (0 + Z.of_nat (length (v :: ls))) 0); [simpl in *; lia|].
    by destruct p.
Qed.

End documents.

(** ** Reading documents back *)

Definition minus (l : list Z) : bool * list Z :=
  match l with c :: l' => if c =? 45 then (true, l') else (false, l) | [] => (false, []) end.
Definition jnumber (l : list Z) : option (Z * list Z) :=
  let '(neg, l) := minus l in
  match l with
  | c :: _ => if is_digit c then let '(v, r) := scan_dec 0 l in Some (if neg then - v else v, r) else None
  | [] => None
  end.

(** The character expected next, after blanks *)
Definition expect (c : Z) (l : list Z) : option (list Z) :=
  match skip_spaces l with x :: l => if x =? c then Some l else None | [] => None end.

(** A parser for the documents; [n] bounds the nesting and the lengths. *)
Fixpoint jvalue (n : nat) (l : list Z) : option (jval * list Z) :=
  match n with
  | O => None
  | S n =>
    match skip_spaces l with
    | [] => None
    | c :: l =>
      if c =? 34 then '(s, l) ← json_read l; Some (JStr s, l) else
      if c =? 91 then '(vs, l) ← jitems n true l; Some (JArr vs, l) else
      if c =? 123 then '(vs, l) ← jmembers n true l; Some (JObj vs, l) else
      '(v, l) ← jnumber (c :: l); Some (JInt v, l)
    end
  end
with jitems (n : nat) (first : bool) (l : list Z) : option (list jval * list Z) :=
  match n with
  | O => None
  | S n =>
    match expect 93 l with
    | Some l => Some ([], l)
    | None =>
      l ← (if first then Some l else expect 44 l);
      '(v, l) ← jvalue n l; '(vs, l) ← jitems n false l; Some (v :: vs, l)
    end
  end
with jmembers (n : nat) (first : bool) (l : list Z) : option (list (list Z * jval) * list Z) :=
  match n with
  | O => None
  | S n =>
    match expect 125 l with
    | Some l => Some ([], l)
    | None =>
      l ← (if first then Some l else expect 44 l);
      l ← expect 34 l; '(k, l) ← json_read l; l ← expect 58 l;
      '(v, l) ← jvalue n l; '(vs, l) ← jmembers n false l; Some ((k, v) :: vs, l)
    end
  end.

(** Documents whose numbers fit an [int64_t], whose strings are bytes, and
    whose names need no escape *)
Definition plain (c : Z) : Prop := is_byte c ∧ 32 ≤ c ∧ c ≠ 34 ∧ c ≠ 92.
Inductive good : jval → Prop :=
  | good_int n : -9223372036854775808 ≤ n < 9223372036854775808 → good (JInt n)
  | good_str s : Forall is_byte s → good (JStr s)
  | good_arr l : Forall good l → good (JArr l)
  | good_obj l : Forall (λ kv, Forall plain kv.1 ∧ good kv.2) l → good (JObj l).

(** Fuel for a document *)
Fixpoint size (v : jval) : nat :=
  match v with
  | JInt _ | JStr _ => 1
  | JArr l => S ((fix go (l : list jval) : nat := match l with [] => 1%nat | v :: l => S (size v + go l) end) l)
  | JObj l => S ((fix go (l : list (list Z * jval)) : nat := match l with [] => 1%nat | kv :: l => S (size kv.2 + go l) end) l)
  end.
Fixpoint size_items (l : list jval) : nat := match l with [] => 1%nat | v :: l => S (size v + size_items l) end.
Fixpoint size_members (l : list (list Z * jval)) : nat :=
  match l with [] => 1%nat | kv :: l => S (size kv.2 + size_members l) end.

Section parsing.

Definition blanks (l : list Z) : Prop := Forall (λ c, is_space c = true) l.
Definition stops (l : list Z) : Prop := match l with c :: _ => is_digit c = false | [] => True end.

Lemma skip_blanks ws l : blanks ws → skip_spaces (ws ++ l) = skip_spaces l.
Proof. induction 1 as [|c ws Hc _ IH]; [done|]. simpl. by rewrite Hc. Qed.
Lemma indent_blanks n : blanks (indent n).
Proof. unfold indent. induction n; simpl; repeat constructor; done. Qed.
Lemma expect_blanks c ws x l : blanks ws → is_space x = false → expect c (ws ++ x :: l) = if x =? c then Some l else None.
Proof. intros Hw Hx. unfold expect. rewrite skip_blanks by done. simpl. by rewrite Hx. Qed.

(** The whitespace in front of an item *)
Definition gap (p : bool) (d : nat) : list Z := if p then [10] ++ indent d else [].
Lemma gap_blanks p d : blanks (gap p d).
Proof. destruct p; [constructor; [done|apply indent_blanks]|constructor]. Qed.
Lemma lead_gap p first d : lead p first d = (if first then [] else [44]) ++ gap p (S d).
Proof. by destruct first. Qed.

Lemma jnumber_dec n rest : -9223372036854775808 ≤ n < 9223372036854775808 → stops rest →
  jnumber (dec_s n ++ rest) = Some (n, rest).
Proof.
  intros Hn Hstop.
  assert (∀ m, 0 ≤ m ≤ 9223372036854775808 → ∃ c l, dec_u m = c :: l ∧ is_digit c = true ∧ c ≠ 45 ∧
    scan_dec 0 ((c :: l) ++ rest) = (m, rest)) as Hu.
  { intros m Hm. pose proof (dec_u_digits m) as Hd. pose proof (dec_u_scan m ltac:(lia)) as Hs.
    pose proof (dec_u_nonempty m). destruct (dec_u m) as [|c l]; [done|]. exists c, l.
    rewrite scan_dec_app, Hs by done. apply Forall_cons in Hd as [Hc _]. split_and!; try done; [intros ->; done|].
    destruct rest as [|r rest]; simpl in *; [done|by rewrite Hstop]. }
  unfold jnumber, dec_s. destruct (Z.ltb_spec n 0).
  - destruct (Hu (- n)) as (c&l&E&Hc&_&Hs); [lia|]. rewrite E.
    change (minus ((45 :: c :: l) ++ rest)) with (true, (c :: l) ++ rest). cbn iota beta. rewrite Hs.
    cbn [app]. rewrite Hc. do 2 f_equal. lia.
  - destruct (Hu n) as (c&l&E&Hc&H45&Hs); [lia|]. rewrite E.
    assert (minus ((c :: l) ++ rest) = (false, (c :: l) ++ rest)) as -> by (simpl; by destruct (Z.eqb_spec c 45)).
    rewrite Hs. cbn [app]. by rewrite Hc.
Qed.

Lemma json_read_plain k rest : Forall plain k → json_read (k ++ 34 :: rest) = Some (k, rest).
Proof.
  induction 1 as [|c k (_&H1&H2&H3) _ IH]; [done|]. simpl.
  destruct (Z.eqb_spec c 34), (Z.eqb_spec c 92), (Z.ltb_spec c 32); try lia. by rewrite IH.
Qed.

(** The first character of a value *)
Lemma render_first p d v : ∃ c l, render p d v = c :: l ∧ is_space c = false ∧ c ≠ 93 ∧ c ≠ 125.
Proof.
  destruct v as [n|s|l|l]; try by do 2 eexists; (split; [reflexivity|]); by split_and!.
  simpl. unfold dec_s. destruct (n <? 0); [by do 2 eexists; (split; [reflexivity|])|].
  pose proof (dec_u_digits n) as Hd. pose proof (dec_u_nonempty n). destruct (dec_u n) as [|c l]; [done|].
  apply Forall_cons in Hd as [Hc _]. exists c, l. unfold is_digit, is_space in *. split_and!; try done; lia.
Qed.

(** What follows a value in the text of its document *)
Definition trail (p : bool) (d : nat) (v : jval) : list Z :=
  match v with JArr _ | JObj _ => last_line p d | _ => [] end.

Definition parses (v : jval) : Prop := ∀ p d ws rest n,
  blanks ws → stops rest → (size v ≤ n)%nat →
  jvalue n (ws ++ render p d v ++ rest) = Some (v, trail p d v ++ rest).

Lemma tail_blanks {A} p d (l : list A) : blanks (tail_of p d l).
Proof. destruct l; [constructor|]. apply (gap_blanks p d). Qed.

(** After an item comes a comma, a blank or the closing bracket. *)
Lemma items_stop p d l tail x rest :
  blanks tail → is_digit x = false → stops (items p d false l ++ tail ++ x :: rest).
Proof.
  intros Ht Hx. destruct l as [|v l]; [|done]. destruct tail as [|c tail]; [done|]. simpl.
  apply Forall_cons in Ht as [Ht _]. unfold is_space, is_digit in *. lia.
Qed.
Lemma members_stop p d l tail x rest :
  blanks tail → is_digit x = false → stops (members p d false l ++ tail ++ x :: rest).
Proof.
  intros Ht Hx. destruct l as [|[k v] l]; [|done]. destruct tail as [|c tail]; [done|]. simpl.
  apply Forall_cons in Ht as [Ht _]. unfold is_space, is_digit in *. lia.
Qed.

Lemma items_parse p d rest : ∀ l, Forall parses l → ∀ first tail n,
  blanks tail → (size_items l ≤ n)%nat →
  jitems n first (items p d first l ++ tail ++ 93 :: rest) = Some (l, rest).
Proof.
  induction 1 as [|v l Hv _ IH]; intros first tail n Ht Hn; (destruct n as [|n]; [simpl in Hn; lia|]);
    cbn [items size_items jitems] in *; [by rewrite app_nil_l, expect_blanks|].
  destruct (render_first p (S d) v) as (c&l0&Hr&Hc&H93&_).
  assert (expect 93 ((lead p first d ++ render p (S d) v ++ items p d false l) ++ tail ++ 93 :: rest) = None) as ->.
  { rewrite lead_gap, Hr, <- !app_assoc. destruct first; [rewrite app_nil_l|].
    - cbn [app]. rewrite expect_blanks by (done || apply gap_blanks). by destruct (Z.eqb_spec c 93).
    - done. }
  assert ((l ← (if first then Some ((lead p first d ++ render p (S d) v ++ items p d false l) ++ tail ++ 93 :: rest)
                else expect 44 ((lead p first d ++ render p (S d) v ++ items p d false l) ++ tail ++ 93 :: rest)); Some l) =
    Some (gap p (S d) ++ render p (S d) v ++ items p d false l ++ tail ++ 93 :: rest)) as E.
  { rewrite lead_gap, <- !app_assoc. by destruct first. }
  destruct (if first then _ else _) as [l1|]; [|done]. simpl in E. injection E as ->. simpl.
  rewrite Hv by (done || lia || apply gap_blanks || by apply items_stop).
  assert (trail p (S d) v = []) as -> by (unfold trail, last_line; rewrite andb_false_r; by destruct v).
  cbn [mbind option_bind app]. rewrite (IH false tail n) by (done || lia). done.
Qed.

Lemma members_parse p d rest : ∀ l, Forall (λ kv, Forall plain kv.1 ∧ parses kv.2) l → ∀ first tail n,
  blanks tail → (size_members l ≤ n)%nat →
  jmembers n first (members p d first l ++ tail ++ 125 :: rest) = Some (l, rest).
Proof.
  induction 1 as [|[k v] l [Hk Hv] _ IH]; intros first tail n Ht Hn; (destruct n as [|n]; [simpl in Hn; lia|]);
    cbn [members size_members jmembers fst snd] in *; [by rewrite app_nil_l, expect_blanks|].
  set (text := members p d false l ++ tail ++ 125 :: rest).
  assert ((lead p first d ++ key p k ++ render p (S d) v ++ members p d false l) ++ tail ++ 125 :: rest =
    (if first then [] else [44]) ++ gap p (S d) ++ 34 :: k ++ 34 :: 58 :: (if p then [32] else []) ++ render p (S d) v ++ text) as ->.
  { unfold key, text. rewrite lead_gap, <- !app_assoc. by destruct p; rewrite <- ?app_assoc. }
  assert (expect 125 ((if first then [] else [44]) ++ gap p (S d) ++ 34 :: k ++ 34 :: 58 :: (if p then [32] else []) ++ render p (S d) v ++ text) = None) as ->.
  { destruct first; [|done]. rewrite app_nil_l, expect_blanks by (done || apply gap_blanks). done. }
  assert ((if first then Some ((if first then [] else [44]) ++ gap p (S d) ++ 34 :: k ++ 34 :: 58 :: (if p then [32] else []) ++ render p (S d) v ++ text)
     else expect 44 ((if first then [] else [44]) ++ gap p (S d) ++ 34 :: k ++ 34 :: 58 :: (if p then [32] else []) ++ render p (S d) v ++ text)) =
    Some (gap p (S d) ++ 34 :: k ++ 34 :: 58 :: (if p then [32] else []) ++ render p (S d) v ++ text)) as -> by (by destruct first).
  cbn [mbind option_bind]. rewrite expect_blanks by (done || apply gap_blanks). simpl (34 =? 34). cbn [mbind option_bind].
  rewrite json_read_plain by done. cbn [mbind option_bind]. change (expect 58 (58 :: ?l)) with (Some l). cbn [mbind option_bind].
  rewrite Hv by (done || lia || (by apply members_stop) || (destruct p; by repeat constructor)).
  assert (trail p (S d) v = []) as -> by (unfold trail, last_line; rewrite andb_false_r; by destruct v).
  cbn [mbind option_bind app]. unfold text. rewrite (IH false tail n) by (done || lia). done.
Qed.

Lemma render_parses v : good v → parses v.
Proof.
  induction v as [m|x|ls IH|ls IH] using jval_rect'; intros Hg p d ws rest n Hws Hst Hn;
    (destruct n as [|n]; [simpl in Hn; lia|]); inversion Hg; subst.
  - destruct (render_first p d (JInt m)) as (c&l&Hr&Hc&_). cbn [jvalue]. rewrite skip_blanks by done.
    pose proof (jnumber_dec m rest ltac:(done) Hst) as Hnum. cbn [render] in Hr |- *. rewrite Hr in Hnum |- *.
    simpl app in *. simpl skip_spaces. rewrite Hc.
    assert (c ≠ 34 ∧ c ≠ 91 ∧ c ≠ 123) as (?&?&?).
    { unfold dec_s in Hr. destruct (m <? 0); [by injection Hr as <- _|]. pose proof (dec_u_digits m) as Hd.
      rewrite Hr in Hd. apply Forall_cons in Hd as [Hd _]. unfold is_digit in Hd. lia. }
    destruct (Z.eqb_spec c 34), (Z.eqb_spec c 91), (Z.eqb_spec c 123); try done. by rewrite Hnum.
  - cbn [jvalue render]. rewrite skip_blanks, <- !app_assoc by done. simpl skip_spaces. simpl (34 =? 34). cbn iota.
    rewrite json_read_escaped by done. done.
  - rewrite render_arr. cbn [jvalue]. rewrite skip_blanks, <- !app_assoc by done. simpl skip_spaces. cbn [Z.eqb Pos.eqb].
    change (txt "]" ++ last_line p d ++ rest) with (93 :: last_line p d ++ rest).
    rewrite items_parse; [done| |apply tail_blanks|change (size (JArr ls)) with (S (size_items ls)) in Hn; lia].
    rewrite Forall_forall in *. auto.
  - rewrite render_obj. cbn [jvalue]. rewrite skip_blanks, <- !app_assoc by done. simpl skip_spaces. cbn [Z.eqb Pos.eqb].
    change (txt "}" ++ last_line p d ++ rest) with (125 :: last_line p d ++ rest).
    rewrite members_parse; [done| |apply tail_blanks|change (size (JObj ls)) with (S (size_members ls)) in Hn; lia].
    rewrite Forall_forall in *. naive_solver.
Qed.

End parsing.

Section theorems.

(** C30: A document written through the formatter, compact or pretty, and flushed
    is read back as the same document: sections are closed and separated
    rightly at any depth, strings of any bytes are escaped, numbers are exact.
    The names of members must need no escape. *)
Theorem json_document_round_trip p v :
  good v →
  ∃ s, emit [] v (create p) = Ret s ∧ m_stack s = [] ∧
    jvalue (size v) (flush s).1 = Some (v, trail p 0 v) ∧ m_ss (flush s).2 = [].
Proof.
  intros Hg. destruct (emit_renders v [] p [] [] (create p)) as (s&He&(Hp&[Hpend Hlb]&Hss&Hst)); [done|].
  exists s. unfold flush, finish_pending_string. rewrite Hpend, Hlb, Hss. cbn [fst snd m_ss opening app]. rewrite app_nil_r.
  split_and!; try done. pose proof (render_parses v Hg p 0%nat [] [] (size v)) as H. rewrite !app_nil_r in H.
  apply H; [constructor|done|lia].
Qed.

Definition sample : jval :=
  JObj [(txt "worker", JInt (-3)); (txt "names", JArr [JStr (txt "a" ++ [34; 10; 1]); JArr []]); (txt "x", JObj [])].

Lemma json_document_witness :
  ∃ s, emit [] sample (create true) = Ret s ∧ jvalue (size sample) (flush s).1 = Some (sample, [10]).
Proof.
  destruct (json_document_round_trip true sample) as (s&H1&_&H2&_).
  - repeat first [constructor | done | (vm_compute; congruence)].
  - exists s. split; [exact H1|exact H2].
Defined.

(** [reset] keeps the flag of a string that [dump_stream] announced: a fresh
    document then starts with an empty string that nobody asked for. *)
Theorem reset_keeps_pending_string p name l :
  (flush (reset (stream_write l (dump_stream name (create p))))).1 = [34; 34] ∧ (flush (create p)).1 = [].
Proof. done. Qed.

(** Names are written without escapes: a name with a quote breaks the document. *)
Example names_not_escaped :
  match emit [] (JObj [(txt "a" ++ [34], JInt 1)]) (create false) with
  | Ret s => jvalue 10 (flush s).1 = None
  | Crash _ => False
  end.
Proof. by vm_compute. Qed.

End theorems.
