(* ===== verification/FormatterXml.v ===== *)
(** * XML output (src/common/formatter.h and formatter.cc, [FormatterAttrs], [XMLFormatter])

    The sections have their last element first. Text of an operation that
    prints a number is an argument, see Text.v for the decimal ones. *)

From S2P Require Import Prelude State Addr Machine Wire Text Escape Formatter.

(** [FormatterAttrs(attr, ...)]: the variable arguments, [None] is NULL;
    running past them is [Undefined]. *)
Fixpoint FormatterAttrs (s : list Z) (args : list (option (list Z))) : outcome (list (list Z * list Z)) :=
  match args with
  | None :: _ => Ret []
  | Some val :: Some s' :: rest => l ← FormatterAttrs s' rest; Ret ((s, val) :: l)
  | Some val :: None :: _ => Ret [(s, val)]
  | _ => Crash Undefined
  end.

(** [get_attrs_str] *)
Definition get_attrs_str (attrs : list (list Z * list Z)) : list Z :=
  attrs ≫= λ '(k, v), txt " " ++ k ++ txt "=" ++ [34] ++ v ++ [34].

Record xml := mkXml {
  x_ss : list Z;
  x_pending_string : list Z;
  x_sections : list (list Z);
  x_pretty : bool;
  x_lowercased : bool;
  x_underscored : bool;
  x_pending_string_name : list Z;
  x_header_done : bool;
  x_line_break_enabled : bool;
}.

Module XMLFormatter.
Implicit Types s : xml.

Definition put (l : list Z) s : xml :=
  mkXml (x_ss s ++ l) (x_pending_string s) (x_sections s) (x_pretty s) (x_lowercased s) (x_underscored s)
    (x_pending_string_name s) (x_header_done s) (x_line_break_enabled s).
Definition set_sections (l : list (list Z)) s : xml :=
  mkXml (x_ss s) (x_pending_string s) l (x_pretty s) (x_lowercased s) (x_underscored s)
    (x_pending_string_name s) (x_header_done s) (x_line_break_enabled s).
Definition set_pending (name text : list Z) s : xml :=
  mkXml (x_ss s) text (x_sections s) (x_pretty s) (x_lowercased s) (x_underscored s) name (x_header_done s)
    (x_line_break_enabled s).
Definition set_header b s : xml :=
  mkXml (x_ss s) (x_pending_string s) (x_sections s) (x_pretty s) (x_lowercased s) (x_underscored s)
    (x_pending_string_name s) b (x_line_break_enabled s).

Definition reset s : xml :=
  mkXml [] [] [] (x_pretty s) (x_lowercased s) (x_underscored s) [] false (x_line_break_enabled s).
Definition create (pretty lowercased underscored : bool) : xml :=
  reset (mkXml [] [] [] pretty lowercased underscored [] false false).
Definition enable_line_break s : xml :=
  mkXml (x_ss s) (x_pending_string s) (x_sections s) (x_pretty s) (x_lowercased s) (x_underscored s)
    (x_pending_string_name s) (x_header_done s) true.

Definition XML_1_DTD : list Z :=
  txt "<?xml version=" ++ [34] ++ txt "1.0" ++ [34] ++ txt " encoding=" ++ [34] ++ txt "UTF-8" ++ [34] ++ txt "?>".

Definition newline s : xml := if x_pretty s then put [10] s else s.

Definition tolower (c : Z) : Z := if (65 <=? c) && (c <=? 90) then c + 32 else c.
Definition to_lower_underscore s (c : Z) : Z :=
  if x_underscored s && (c =? 32) then 95 else if x_lowercased s then tolower c else c.
Definition transform s (name : list Z) : list Z := to_lower_underscore s <$> name.

Definition write_raw_data (l : list Z) : xml → xml := put l.
Definition write_bin_data (l : list Z) : xml → xml := put l.
Definition get_len s : Z := Z.of_nat (length (x_ss s)).

Definition finish_pending_string s : xml :=
  if bool_decide (x_pending_string_name s = []) then s else
  newline (set_pending [] [] (put (xml_stream_escaper (x_pending_string s) ++ txt "</" ++ x_pending_string_name s ++ txt ">") s)).

Definition print_spaces s : xml :=
  let s := finish_pending_string s in
  if x_pretty s then put (replicate (length (x_sections s)) 32) s else s.

Definition output_header s : xml :=
  if x_header_done s then s else newline (write_raw_data XML_1_DTD (set_header true s)).

Definition close_section s : outcome xml :=
  kassert (negb (bool_decide (x_sections s = []))) ;;
  let s := finish_pending_string s in
  match x_sections s with
  | [] => Crash Undefined
  | name :: rest =>
    let section := transform s name in
    Ret (newline (put (txt "</" ++ section ++ txt ">") (print_spaces (set_sections rest s))))
  end.

(** The loop of [output_footer] closes what is open. *)
Fixpoint close_all (n : nat) s : outcome xml :=
  match n with O => Ret s | S n => s ← close_section s; close_all n s end.
Definition output_footer s : outcome xml := close_all (length (x_sections s)) s.

Definition open_section_in_ns (name : list Z) (ns : option (list Z)) (attrs : option (list (list Z * list Z))) s : xml :=
  let s := print_spaces s in
  let attrs_str := match attrs with Some a => get_attrs_str a | None => [] end in
  let e := transform s name in
  let s :=
    match ns with
    | Some ns => put (txt "<" ++ e ++ attrs_str ++ txt " xmlns=" ++ [34] ++ ns ++ [34] ++ txt ">") s
    | None => put (txt "<" ++ e ++ attrs_str ++ txt ">") s
    end in
  let s := newline s in
  set_sections (name :: x_sections s) s.
Definition open_object_section (name : list Z) : xml → xml := open_section_in_ns name None None.
Definition open_object_section_with_attrs (name : list Z) attrs : xml → xml := open_section_in_ns name None (Some attrs).
Definition open_object_section_in_ns (name ns : list Z) : xml → xml := open_section_in_ns name (Some ns) None.
Definition open_array_section (name : list Z) : xml → xml := open_section_in_ns name None None.
Definition open_array_section_with_attrs (name : list Z) attrs : xml → xml := open_section_in_ns name None (Some attrs).
Definition open_array_section_in_ns (name ns : list Z) : xml → xml := open_section_in_ns name (Some ns) None.

(** One element with its text *)
Definition element (e attrs_str text : list Z) : list Z := txt "<" ++ e ++ attrs_str ++ txt ">" ++ text ++ txt "</" ++ e ++ txt ">".

Definition add_value (name val : list Z) s : xml :=
  let e := transform s name in newline (put (element e [] val) (print_spaces s)).
Definition dump_unsigned (name : list Z) (u : Z) : xml → xml := add_value name (dec_u u).
Definition dump_int (name : list Z) (n : Z) : xml → xml := add_value name (dec_s n).
Definition dump_float (name text : list Z) : xml → xml := add_value name text.
Definition dump_string (name l : list Z) s : xml :=
  let e := transform s name in newline (put (element e [] (xml_stream_escaper l)) (print_spaces s)).
Definition dump_string_with_attrs (name l : list Z) attrs s : xml :=
  let e := transform s name in newline (put (element e (get_attrs_str attrs) (xml_stream_escaper l)) (print_spaces s)).

(** The name of a stream is written as it is. *)
Definition dump_stream (name : list Z) s : xml :=
  let s := print_spaces s in
  put (txt "<" ++ name ++ txt ">") (set_pending name (x_pending_string s) s).
Definition stream_write (l : list Z) s : xml := set_pending (x_pending_string_name s) (x_pending_string s ++ l) s.

(** [dump_format_va]: the view is as long as the text [vsnprintf] wanted to
    write, the array holds at most [LARGE_SIZE] of it with the NUL. *)
Definition dump_format_va (name : list Z) (ns : option (list Z)) (text : list Z) s : outcome xml :=
  let len := length text in
  if (len <=? LARGE_SIZE)%nat then
    let view := take len (snprintf_large text ++ [0]) in
    let e := transform s name in
    let s := print_spaces s in
    Ret (newline (match ns with
      | Some ns => put (element e (txt " xmlns=" ++ [34] ++ ns ++ [34]) (xml_stream_escaper view)) s
      | None => put (element e [] (xml_stream_escaper view)) s
      end))
  else Crash Undefined.

Definition flush s : list Z * xml :=
  let s := finish_pending_string s in
  (x_ss s ++ (if x_pretty s && negb (bool_decide (x_ss s = [])) then [10] else if x_line_break_enabled s then [10] else []),
   mkXml [] (x_pending_string s) (x_sections s) (x_pretty s) (x_lowercased s) (x_underscored s)
     (x_pending_string_name s) (x_header_done s) (x_line_break_enabled s)).

End XMLFormatter.

Import XMLFormatter.

(** ** A reader of tags *)

Inductive mode := Outside | Inside (tag : list Z).
(** The open elements, last first *)
Definition reader : Type := mode * list (list Z).

Fixpoint until_space (l : list Z) : list Z := match l with c :: l => if c =? 32 then [] else c :: until_space l | [] => [] end.

(** A tag between its brackets *)
Definition tag_end (tag : list Z) (st : list (list Z)) : option (list (list Z)) :=
  match tag with
  | [] => None
  | c :: l =>
    if c =? 47 then match st with e :: st => if bool_decide (e = l) then Some st else None | [] => None end else
    if c =? 63 then Some st else Some (until_space tag :: st)
  end.
Definition read_char (r : option reader) (c : Z) : option reader :=
  '(m, st) ← r;
  match m with
  | Outside => if c =? 60 then Some (Inside [], st) else if c =? 62 then None else Some (Outside, st)
  | Inside tag =>
    if c =? 60 then None else
    if c =? 62 then st ← tag_end tag st; Some (Outside, st) else Some (Inside (tag ++ [c]), st)
  end.
Definition read_xml (l : list Z) (r : option reader) : option reader := foldl read_char r l.

(** ** Calls *)

Inductive xcall :=
  | XOpen (name : list Z) (ns : option (list Z)) (attrs : option (list (list Z * list Z)))
  | XClose | XHeader | XFooter
  | XValue (name text : list Z)
  | XString (name l : list Z) (attrs : option (list (list Z * list Z)))
  | XStream (name : list Z) | XWrite (l : list Z)
  | XFormat (name : list Z) (ns : option (list Z)) (text : list Z)
  | XFlush.

(** One call: what it sends to the output, and the formatter after it *)
Definition xdo (c : xcall) (s : xml) : outcome (list Z * xml) :=
  match c with
  | XOpen name ns attrs => Ret ([], open_section_in_ns name ns attrs s)
  | XClose => s ← close_section s; Ret ([], s)
  | XHeader => Ret ([], output_header s)
  | XFooter => s ← output_footer s; Ret ([], s)
  | XValue name text => Ret ([], add_value name text s)
  | XString name l None => Ret ([], dump_string name l s)
  | XString name l (Some attrs) => Ret ([], dump_string_with_attrs name l attrs s)
  | XStream name => Ret ([], dump_stream name s)
  | XWrite l => Ret ([], stream_write l s)
  | XFormat name ns text => s ← dump_format_va name ns text s; Ret ([], s)
  | XFlush => Ret (flush s)
  end.
Fixpoint xrun (l : list xcall) (out : list Z) (s : xml) : outcome (list Z * xml) :=
  match l with [] => Ret (out, s) | c :: l => '(o, s) ← xdo c s; xrun l (out ++ o) s end.

(** Names that can be tags, and text that is written as it is *)
Definition no_angle (c : Z) : Prop := c ≠ 60 ∧ c ≠ 62.
Definition tag_ok (e : list Z) : Prop :=
  Forall (λ c, no_angle c ∧ c ≠ 32) e ∧ match e with [] => False | c :: _ => c ≠ 47 ∧ c ≠ 63 end.
Definition attrs_ok (attrs : list (list Z * list Z)) : Prop :=
  Forall (λ kv, Forall no_angle kv.1 ∧ Forall no_angle kv.2) attrs.
Definition call_ok (lower under : bool) (c : xcall) : Prop :=
  let tr := transform (create false lower under) in
  match c with
  | XOpen name ns attrs => tag_ok (tr name) ∧ from_option (Forall no_angle) True ns ∧ from_option attrs_ok True attrs
  | XValue name text => tag_ok (tr name) ∧ Forall no_angle text
  | XString name _ attrs => tag_ok (tr name) ∧ from_option attrs_ok True attrs
  | XStream name => tag_ok name
  | XFormat name ns _ => tag_ok (tr name) ∧ from_option (Forall no_angle) True ns
  | XClose | XHeader | XFooter | XWrite _ | XFlush => True
  end.

Section balance.

Lemma read_app a b r : read_xml (a ++ b) r = read_xml b (read_xml a r).
Proof. apply foldl_app. Qed.

Lemma read_text t st : Forall no_angle t → read_xml t (Some (Outside, st)) = Some (Outside, st).
Proof.
  induction 1 as [|c t [H1 H2] _ IH]; [done|]. cbn [read_xml foldl]. unfold read_char at 2. simpl.
  destruct (Z.eqb_spec c 60), (Z.eqb_spec c 62); done.
Qed.
Lemma read_inside t tag st : Forall no_angle t → read_xml t (Some (Inside tag, st)) = Some (Inside (tag ++ t), st).
Proof.
  intros Ht. revert tag. induction Ht as [|c t [H1 H2] _ IH]; intros tag; [by rewrite app_nil_r|].
  cbn [read_xml foldl]. unfold read_char at 2. simpl. destruct (Z.eqb_spec c 60), (Z.eqb_spec c 62); try done.
  rewrite (cons_middle c tag t), app_assoc. apply IH.
Qed.

Lemma until_space_app e l : Forall (λ c, no_angle c ∧ c ≠ 32) e → match l with [] => True | c :: _ => c = 32 end → until_space (e ++ l) = e.
Proof.
  intros He Hl. induction He as [|c e [_ Hc] _ IH]; simpl; [destruct l; [done|]; by subst|].
  destruct (Z.eqb_spec c 32); [done|]. by rewrite IH.
Qed.

(** An opening tag with its attributes, and a closing one *)
Lemma read_open e a st :
  tag_ok e → Forall no_angle a → match a with [] => True | c :: _ => c = 32 end →
  read_xml (txt "<" ++ e ++ a ++ txt ">") (Some (Outside, st)) = Some (Outside, e :: st).
Proof.
  intros [He Hh] Ha Hsp. rewrite !read_app. change (read_xml (txt "<") (Some (Outside, st))) with (Some (Inside [], st)).
  rewrite (read_inside e) by (eapply Forall_impl; [done|naive_solver]). rewrite (read_inside a), app_nil_l by done.
  change (read_xml (txt ">") (Some (Inside (e ++ a), st))) with (st ← tag_end (e ++ a) st; Some (Outside, st)).
  destruct e as [|c e]; [done|]. destruct Hh as [H1 H2]. cbn [app tag_end].
  destruct (Z.eqb_spec c 47), (Z.eqb_spec c 63); try done. change (c :: e ++ a) with ((c :: e) ++ a).
  by rewrite until_space_app.
Qed.
Lemma read_close e st : Forall no_angle e → read_xml (txt "</" ++ e ++ txt ">") (Some (Outside, e :: st)) = Some (Outside, st).
Proof.
  intros He. rewrite !read_app. change (read_xml (txt "</") (Some (Outside, e :: st))) with (Some (Inside [47], e :: st)).
  rewrite read_inside by done. simpl. by rewrite bool_decide_eq_true_2.
Qed.

Lemma hex_pad_no_angle k n : Forall no_angle (hex_pad k n).
Proof.
  revert n. induction k as [|k IH]; intros n; [constructor|]. cbn [hex_pad]. apply Forall_app. split; [done|]. constructor; [|constructor].
  pose proof (Z.mod_pos_bound n 16). unfold no_angle, hexc. case_match; lia.
Qed.
Lemma xml_text_no_angle c : Forall no_angle (xml_text c).
Proof.
  unfold xml_text, xml_put.
  destruct (Z.eqb_spec c 60); [cbn; by repeat constructor|]. destruct (Z.eqb_spec c 38); [cbn; by repeat constructor|].
  destruct (Z.eqb_spec c 62); [cbn; by repeat constructor|]. destruct (Z.eqb_spec c 39); [cbn; by repeat constructor|].
  destruct (Z.eqb_spec c 34); [cbn; by repeat constructor|]. destruct (_ || _); [|cbn; by repeat constructor].
  match goal with |- Forall _ ?x => change x with ((txt "&#x" ++ replicate (2 - length (hex c)) 48 ++ hex c) ++ [59]) end.
  repeat (apply Forall_app; split); [by repeat constructor| | |by repeat constructor].
  - by apply Forall_replicate.
  - apply strip_zeros_Forall, hex_pad_no_angle.
Qed.
Lemma escaped_no_angle s : Forall no_angle (xml_stream_escaper s).
Proof. rewrite xml_stream_text. apply Forall_bind, Forall_true, xml_text_no_angle. Qed.

Lemma get_attrs_no_angle attrs : attrs_ok attrs → Forall no_angle (get_attrs_str attrs).
Proof.
  induction 1 as [|[k v] attrs [Hk Hv] _ IH]; [constructor|]. cbn [get_attrs_str mbind list_bind].
  repeat (apply Forall_app; split); try done; by repeat constructor.
Qed.
Lemma get_attrs_space attrs : match get_attrs_str attrs with [] => True | c :: _ => c = 32 end.
Proof. destruct attrs as [|[k v] l]; done. Qed.

Lemma xmlns_no_angle ns : Forall no_angle ns → Forall no_angle (txt " xmlns=" ++ [34] ++ ns ++ [34]).
Proof. intros Hns. repeat (apply Forall_app; split); try done; by repeat constructor. Qed.

Lemma read_element e a t st :
  tag_ok e → Forall no_angle a → match a with [] => True | c :: _ => c = 32 end → Forall no_angle t →
  read_xml (element e a t) (Some (Outside, st)) = Some (Outside, st).
Proof.
  intros He Ha Hsp Ht. unfold element.
  assert (txt "<" ++ e ++ a ++ txt ">" ++ t ++ txt "</" ++ e ++ txt ">" =
    (txt "<" ++ e ++ a ++ txt ">") ++ t ++ (txt "</" ++ e ++ txt ">")) as -> by (by rewrite <- !app_assoc).
  rewrite (read_app (txt "<" ++ _)), read_open by done. rewrite read_app, read_text by done.
  apply read_close. destruct He as [He _]. eapply Forall_impl; [done|naive_solver].
Qed.

End balance.

(** ** The tags that are open *)

Section sections.
Context (lower under : bool) (out : list Z).

Definition tr : list Z → list Z := transform (create false lower under).
Definition open_tags (s : xml) : list (list Z) :=
  (if bool_decide (x_pending_string_name s = []) then [] else [x_pending_string_name s]) ++ (tr <$> x_sections s).

(** What was sent ([out]) and what is in the formatter's buffer leave exactly
    the formatter's sections and its stream open. *)
Record sound (s : xml) : Prop := {
  snd_lower : x_lowercased s = lower;
  snd_under : x_underscored s = under;
  snd_read : read_xml (out ++ x_ss s) (Some (Outside, [])) = Some (Outside, open_tags s);
  snd_pending : x_pending_string_name s ≠ [] → tag_ok (x_pending_string_name s);
  snd_sections : Forall (λ n, tag_ok (tr n)) (x_sections s);
}.

Lemma transform_tr s name : sound s → transform s name = tr name.
Proof. intros [Hl Hu _ _ _]. unfold transform, tr, to_lower_underscore. by rewrite Hl, Hu. Qed.

(** Writing [l] takes the reader from the tags open before to those after. *)
Lemma sound_write s s' l :
  sound s → x_lowercased s' = x_lowercased s → x_underscored s' = x_underscored s → x_ss s' = x_ss s ++ l →
  read_xml l (Some (Outside, open_tags s)) = Some (Outside, open_tags s') →
  (x_pending_string_name s' ≠ [] → tag_ok (x_pending_string_name s')) →
  Forall (λ n, tag_ok (tr n)) (x_sections s') → sound s'.
Proof.
  intros [Hl Hu Hr _ _] Hl' Hu' Hss Hread Hp Hs. split; try done; [by rewrite Hl'|by rewrite Hu'|].
  by rewrite Hss, app_assoc, read_app, Hr.
Qed.
Lemma sound_text s l : sound s → Forall no_angle l → sound (put l s).
Proof. intros Hs Hl. eapply (sound_write s _ l); try done; [by apply read_text|apply Hs|apply Hs]. Qed.
Lemma sound_newline s : sound s → sound (newline s).
Proof. intros Hs. unfold newline. destruct (x_pretty s); [|done]. apply sound_text; [done|]. by repeat constructor. Qed.
Lemma sound_element s e a t :
  sound s → tag_ok e → Forall no_angle a → match a with [] => True | c :: _ => c = 32 end → Forall no_angle t →
  sound (put (element e a t) s).
Proof. intros Hs ????. eapply (sound_write s _ (element e a t)); try done; [by apply read_element|apply Hs|apply Hs]. Qed.

Lemma newline_same s : x_pending_string_name (newline s) = x_pending_string_name s ∧ x_sections (newline s) = x_sections s.
Proof. unfold newline. by destruct (x_pretty s). Qed.

Lemma newline_sections l s : set_sections l (newline s) = newline (set_sections l s).
Proof. unfold newline. simpl. by destruct (x_pretty s). Qed.

Lemma sound_finish s :
  sound s → sound (finish_pending_string s) ∧ x_pending_string_name (finish_pending_string s) = [] ∧
    x_sections (finish_pending_string s) = x_sections s.
Proof.
  intros Hs. unfold finish_pending_string. case_bool_decide as Hp; [done|].
  pose proof (snd_pending _ Hs Hp) as Hok. split; [|by split; rewrite ?(proj1 (newline_same _)), ?(proj2 (newline_same _))].
  apply sound_newline.
  eapply (sound_write s _ (xml_stream_escaper (x_pending_string s) ++ (txt "</" ++ x_pending_string_name s ++ txt ">"))); try done; [|apply Hs].
  unfold open_tags. rewrite (bool_decide_eq_false_2 (x_pending_string_name s = [])) by done. cbn [x_pending_string_name set_pending put].
  rewrite (bool_decide_eq_true_2 ([] = [])) by done. cbn [app x_sections].
  rewrite read_app, read_text by apply escaped_no_angle. apply read_close.
  destruct Hok as [Hok _]. eapply Forall_impl; [done|naive_solver].
Qed.
Lemma sound_spaces s :
  sound s → sound (print_spaces s) ∧ x_pending_string_name (print_spaces s) = [] ∧ x_sections (print_spaces s) = x_sections s.
Proof.
  intros Hs. destruct (sound_finish s Hs) as (H1&H2&H3). unfold print_spaces.
  destruct (x_pretty (finish_pending_string s)); [|done]. split; [|done]. apply sound_text; [done|].
  apply Forall_replicate. done.
Qed.

Lemma sound_open name ns attrs s :
  sound s → tag_ok (tr name) → from_option (Forall no_angle) True ns → from_option attrs_ok True attrs →
  sound (open_section_in_ns name ns attrs s).
Proof.
  intros Hs Hn Hns Hat. destruct (sound_spaces s Hs) as (H1&H2&H3). unfold open_section_in_ns. rewrite (transform_tr _ name H1).
  set (a := match attrs with Some a => get_attrs_str a | None => [] end).
  assert (Forall no_angle a ∧ match a with [] => True | c :: _ => c = 32 end) as [Ha Hsp].
  { destruct attrs; [|done]. split; [by apply get_attrs_no_angle|apply get_attrs_space]. }
  set (a' := match ns with Some ns => a ++ txt " xmlns=" ++ [34] ++ ns ++ [34] | None => a end).
  assert (Forall no_angle a' ∧ match a' with [] => True | c :: _ => c = 32 end) as [Ha' Hsp'].
  { destruct ns as [ns|]; [|done]. split; [|by unfold a'; destruct a]. apply Forall_app. split; [done|by apply xmlns_no_angle]. }
  assert (match ns with
    | Some ns => put (txt "<" ++ tr name ++ a ++ txt " xmlns=" ++ [34] ++ ns ++ [34] ++ txt ">") (print_spaces s)
    | None => put (txt "<" ++ tr name ++ a ++ txt ">") (print_spaces s)
    end = put (txt "<" ++ tr name ++ a' ++ txt ">") (print_spaces s)) as ->.
  { destruct ns; unfold a'; [|done]. by rewrite <- !app_assoc. }
  set (s1 := put _ (print_spaces s)).
  assert (sound (set_sections (name :: x_sections s1) s1)) as Hs1.
  { eapply (sound_write (print_spaces s) _ (txt "<" ++ tr name ++ a' ++ txt ">")); try done;
      [|constructor; [done|]; simpl; rewrite H3; apply Hs].
    unfold open_tags. simpl. rewrite H2. simpl. by apply read_open. }
  rewrite (proj2 (newline_same s1)), newline_sections. by apply sound_newline.
Qed.

Lemma sound_close s s' : sound s → close_section s = Ret s' → sound s' ∧ S (length (x_sections s')) = length (x_sections s).
Proof.
  intros Hs. unfold close_section. case_bool_decide; [done|]. mstep.
  destruct (sound_finish s Hs) as (H1&H2&H3). destruct (x_sections (finish_pending_string s)) as [|name rest] eqn:E; [done|].
  intros [= <-]. rewrite (transform_tr _ name H1).
  pose proof (snd_sections _ H1) as Hsec. rewrite E in Hsec. apply Forall_cons in Hsec as [Hn Hrest].
  set (f := finish_pending_string s) in *.
  assert (print_spaces (set_sections rest f) = (if x_pretty f then put (replicate (length rest) 32) (set_sections rest f) else set_sections rest f)) as ->.
  { unfold print_spaces, finish_pending_string. simpl. by rewrite H2. }
  split; [|rewrite (proj2 (newline_same _)), <- H3; by destruct (x_pretty f)].
  apply sound_newline. set (sp := if x_pretty f then replicate (length rest) 32 else []).
  assert (Forall no_angle sp) as Hsp by (unfold sp; destruct (x_pretty f); [by apply Forall_replicate|constructor]).
  eapply (sound_write f _ (sp ++ (txt "</" ++ tr name ++ txt ">"))); try done; unfold sp;
    try (destruct (x_pretty f); simpl; rewrite ?H2; done).
  - destruct (x_pretty f); simpl; by rewrite <- ?app_assoc.
  - unfold open_tags. rewrite H2, E. fold sp. rewrite read_app, read_text by done.
    destruct (x_pretty f); simpl; rewrite H2; simpl; apply read_close; destruct Hn as [Hn _]; (eapply Forall_impl; [done|naive_solver]).
Qed.

End sections.

Section theorems.
Context (lower under : bool).

Lemma close_section_ret s : x_sections s ≠ [] → is_Some (match close_section s with Ret s' => Some s' | Crash _ => None end).
Proof.
  intros Hne. unfold close_section. rewrite bool_decide_eq_false_2 by done. mstep.
  assert (x_sections (finish_pending_string s) = x_sections s) as ->.
  { unfold finish_pending_string. case_bool_decide; [done|]. by rewrite (proj2 (newline_same _)). }
  destruct (x_sections s); [done|by eexists].
Qed.

Lemma sound_close_all out n : ∀ s, n = length (x_sections s) → sound lower under out s →
  ∃ s', close_all n s = Ret s' ∧ sound lower under out s' ∧ x_sections s' = [].
Proof.
  induction n as [|n IH]; intros s Hn Hs; simpl; [exists s; by destruct (x_sections s)|].
  destruct (close_section_ret s) as [s1 E]; [by destruct (x_sections s)|].
  destruct (close_section s) as [s2|] eqn:E2; simplify_eq. mstep.
  destruct (sound_close _ _ _ _ _ Hs E2) as [Hs1 Hl]. apply IH; [lia|done].
Qed.

Lemma sound_flush out s : sound lower under out s → sound lower under (out ++ (flush s).1) (flush s).2.
Proof.
  intros Hs. destruct (sound_finish _ _ _ s Hs) as ([Hl Hu Hr Hp Hsec]&H2&H3). unfold flush. set (f := finish_pending_string s) in *.
  split; try done. simpl. rewrite app_nil_r, app_assoc, read_app, Hr.
  apply read_text. destruct (_ && _); [by repeat constructor|]. destruct (x_line_break_enabled f); by repeat constructor.
Qed.

Lemma sound_do out c s o s' :
  sound lower under out s → call_ok lower under c → xdo c s = Ret (o, s') → sound lower under (out ++ o) s'.
Proof.
  intros Hs Hc H. assert (∀ s, sound lower under out s → sound lower under (out ++ []) s) as Hnil by (intros; by rewrite app_nil_r).
  destruct (sound_spaces _ _ _ s Hs) as (Hsp&Hp&Hsec).
  destruct c as [name ns attrs| | | |name text|name l [attrs|]|name|l|name ns text|]; simpl in H, Hc; inv_ret.
  - apply Hnil. destruct Hc as (?&?&?). by apply sound_open.
  - apply Hnil. match goal with H : close_section _ = Ret _ |- _ => by destruct (sound_close _ _ _ _ _ Hs H) end.
  - apply Hnil. unfold output_header. destruct (x_header_done s); [done|]. apply sound_newline.
    eapply (sound_write _ _ _ s _ XML_1_DTD); try done; apply Hs.
  - apply Hnil. destruct (sound_close_all out _ s eq_refl Hs) as (s1&E&?&_). unfold output_footer in *. congruence.
  - apply Hnil, sound_newline. rewrite (transform_tr _ _ _ _ _ Hs). destruct Hc. by apply sound_element.
  - apply Hnil, sound_newline. rewrite (transform_tr _ _ _ _ _ Hs). destruct Hc.
    apply sound_element; [done|done|by apply get_attrs_no_angle|apply get_attrs_space|apply escaped_no_angle].
  - apply Hnil, sound_newline. rewrite (transform_tr _ _ _ _ _ Hs). destruct Hc.
    apply sound_element; [done|done|constructor|done|apply escaped_no_angle].
  - apply Hnil. eapply (sound_write _ _ _ (print_spaces s) _ (txt "<" ++ name ++ txt ">")); try done; [|apply Hsp].
    unfold open_tags. simpl. rewrite Hp. simpl. destruct name as [|c name]; [by destruct Hc|]. simpl.
    apply (read_open (c :: name) []); [done|constructor|done].
  - apply Hnil. destruct Hs. by split.
  - apply Hnil. unfold dump_format_va in *. destruct (_ <=? _)%nat; [|done]. inv_ret. apply sound_newline.
    rewrite (transform_tr _ _ _ _ _ Hs). destruct Hc as [Hn Hns].
    destruct ns as [ns|]; (apply sound_element; [done|done| |done|apply escaped_no_angle]); [|constructor].
    by apply (xmlns_no_angle ns).
  - by apply sound_flush.
Qed.

Lemma sound_run calls : ∀ out s out' s',
  sound lower under out s → Forall (call_ok lower under) calls → xrun calls out s = Ret (out', s') → sound lower under out' s'.
Proof.
  induction calls as [|c calls IH]; intros out s out' s' Hs Hc H; simpl in H; [by simplify_eq|].
  apply Forall_cons in Hc as [Hc Hcs]. apply bind_Ret in H as ([o s1]&H1&H). eapply IH; [by eapply sound_do|done|done].
Qed.

(** C31: Whatever calls are made, with names that can be tags, every closing tag
    that was written names the element open at that point, and the elements
    open are the formatter's sections and its stream; [output_footer] and
    [flush] then complete a document in which every element is closed. *)
Theorem xml_tags_balanced p calls out s :
  Forall (call_ok lower under) calls → xrun calls [] (create p lower under) = Ret (out, s) →
  read_xml (out ++ x_ss s) (Some (Outside, [])) = Some (Outside, open_tags lower under s) ∧
  ∃ out' s', xrun [XFooter; XFlush] out s = Ret (out', s') ∧ read_xml out' (Some (Outside, [])) = Some (Outside, []).
Proof.
  intros Hc Hrun. assert (sound lower under out s) as Hs.
  { eapply sound_run; [|done|exact Hrun]. by split. }
  split; [apply Hs|]. destruct (sound_close_all out _ s eq_refl Hs) as (s1&E&Hs1&Hsec). cbn [xrun xdo].
  unfold output_footer. rewrite E. mstep. rewrite app_nil_r. pose proof (sound_flush _ _ Hs1) as Hf.
  destruct (sound_finish _ _ _ _ Hs1) as (_&Hp&Hsec'). unfold flush in Hf |- *. mstep. do 2 eexists. split; [done|].
  apply snd_read in Hf. simpl in Hf. rewrite app_nil_r in Hf. rewrite Hf. unfold open_tags. simpl. by rewrite Hp, Hsec', Hsec.
Qed.

End theorems.

(** A text of more than [LARGE_SIZE] characters is read past the array. *)
Lemma dump_format_overruns name ns text s : (LARGE_SIZE < length text)%nat → dump_format_va name ns text s = Crash Undefined.
Proof. intros H. unfold dump_format_va. by destruct (Nat.leb_spec (length text) LARGE_SIZE); [lia|]. Qed.

Definition sample_calls : list xcall :=
  [XHeader; XOpen (txt "Daemon Stats") None (Some [(txt "id", txt "7")]); XValue (txt "Count") (dec_u 12);
   XStream (txt "note"); XWrite (txt "a<b"); XOpen (txt "inner") (Some (txt "urn:x")) None; XString (txt "s") (txt "x&y") None].

Lemma xml_tags_balanced_witness :
  ∃ out s, xrun sample_calls [] (create true true true) = Ret (out, s) ∧
    read_xml (out ++ x_ss s) (Some (Outside, [])) = Some (Outside, [txt "inner"; txt "daemon_stats"]).
Proof.
  destruct (xrun sample_calls [] (create true true true)) as [[out s]|] eqn:E; [|by vm_compute in E].
  exists out, s. split; [done|].
  destruct (xml_tags_balanced true true true sample_calls out s) as [H _]; [|exact E|].
  - repeat constructor; vm_compute; congruence.
  - rewrite H. vm_compute in E. injection E as <- <-. reflexivity.
Defined.
