(* ===== verification/FormatterTable.v ===== *)
(** * Tables (src/common/formatter.h and formatter.cc, [TableFormatter])

    Rows of (label, value) pairs that [flush] prints, either as a framed table
    or as key="value" pairs. An access outside a vector is [Undefined]. *)

From S2P Require Import Prelude State Addr Machine Wire Text Escape Formatter FormatterXml.

Abbreviation cell := (list Z * list Z)%type.

Record table := mkTable {
  t_vec : list (list cell);
  t_ss : list Z;
  t_pending_name : list Z;
  t_keyval : bool;
  t_section_open : Z;
  t_section : list (list Z);
  t_section_cnt : gmap (list Z) Z;
  t_column_size : list nat;
  t_column_name : list (list Z);
}.

Module TableFormatter.
Implicit Types s : table.

Definition set_vec v s : table :=
  mkTable v (t_ss s) (t_pending_name s) (t_keyval s) (t_section_open s) (t_section s) (t_section_cnt s) (t_column_size s) (t_column_name s).
Definition set_ss l s : table :=
  mkTable (t_vec s) l (t_pending_name s) (t_keyval s) (t_section_open s) (t_section s) (t_section_cnt s) (t_column_size s) (t_column_name s).
Definition set_pending_name l s : table :=
  mkTable (t_vec s) (t_ss s) l (t_keyval s) (t_section_open s) (t_section s) (t_section_cnt s) (t_column_size s) (t_column_name s).
Definition set_sections n l c s : table :=
  mkTable (t_vec s) (t_ss s) (t_pending_name s) (t_keyval s) n l c (t_column_size s) (t_column_name s).

(** [reset] keeps the rows, the open sections and a pending name. *)
Definition reset s : table :=
  mkTable (t_vec s) [] (t_pending_name s) (t_keyval s) 0 (t_section s) ∅ [] (t_column_name s).
Definition create (keyval : bool) : table := reset (mkTable [] [] [] keyval 0 [] ∅ [] []).

Definition open_section_in_ns (name : list Z) s : table :=
  set_sections (t_section_open s + 1) (t_section s ++ [name]) (t_section_cnt s) s.
Definition close_section s : table :=
  match pop_back (t_section s) with
  | Some (name, rest) => set_sections (t_section_open s - 1) rest (<[name := 0]> (t_section_cnt s)) s
  | None => set_sections (t_section_open s - 1) (t_section s) (t_section_cnt s) s
  end.

(** The row a value goes to: a new one when the first label of the last row
    is the name. *)
Definition m_vec_index (name : list Z) s : nat * table :=
  let i := (length (t_vec s) - 1)%nat in
  let v := match t_vec s with [] => [[]] | v => v end in
  match v !! i with
  | Some ((label, _) :: _) =>
    if bool_decide (label = name) then (S i, set_vec (v ++ [[]]) s) else (i, set_vec v s)
  | _ => (i, set_vec v s)
  end.

(** The label: the sections, the last one first, and a counter per label
    while a section is open *)
Definition get_section_name (name : list Z) s : list Z * table :=
  let t_name := foldl (λ t sec, sec ++ txt ":" ++ t) name (t_section s) in
  if negb (t_section_open s =? 0) then
    let n := default 0 (t_section_cnt s !! t_name) in
    (t_name ++ txt "[" ++ dec_s n ++ txt "]",
     set_sections (t_section_open s) (t_section s) (<[t_name := n + 1]> (t_section_cnt s)) s)
  else (t_name, s).

(** [add_value], [dump_string] and the like when no stream is pending: the
    stream [m_ss] gets [text] and becomes the value. *)
Definition add_now (name text : list Z) s : table :=
  let '(i, s) := m_vec_index name s in
  let '(label, s) := get_section_name name s in
  set_ss [] (set_vec (alter (λ row, row ++ [(label, t_ss s ++ text)]) i (t_vec s)) s).

Definition finish_pending_string s : table :=
  if bool_decide (t_pending_name s = []) then s else
  let ss := t_ss s in
  add_now (t_pending_name s) ss (set_pending_name [] (set_ss [] s)).

Definition add_value (name text : list Z) s : table := add_now name text (finish_pending_string s).
Definition dump_unsigned (name : list Z) (u : Z) : table → table := add_value name (dec_u u).
Definition dump_int (name : list Z) (n : Z) : table → table := add_value name (dec_s n).
Definition dump_float (name text : list Z) : table → table := add_value name text.
Definition dump_string (name l : list Z) : table → table := add_value name l.
Definition dump_string_with_attrs (name l : list Z) attrs : table → table := add_value name (get_attrs_str attrs ++ l).
Definition dump_format_va (name : list Z) (ns : option (list Z)) (text : list Z) : table → table :=
  let buf := snprintf_large text in
  add_value name (match ns with Some ns => ns ++ txt "." ++ buf | None => buf end).
Definition dump_stream (name : list Z) s : table := set_pending_name name (finish_pending_string s).
Definition stream_write (l : list Z) s : table := set_ss (t_ss s ++ l) s.

(** *** [flush] *)

(** [vector::resize] *)
Definition resize {A} (n : nat) (x : A) (l : list A) : list A := take n l ++ replicate (n - length l) x.

Definition store_at {A} (i : nat) (x : A) (l : list A) : outcome (list A) :=
  if (i <? length l)%nat then Ret (<[i := x]> l) else Crash Undefined.

(** The widths, the names and the rows that need a header *)
Record layout := mkLayout { l_size : list nat; l_name : list (list Z); l_header : list nat }.

(** One cell of the auto-sizing loop *)
Definition size_cell (prev : option (list cell)) (i w j : nat) (c : cell) (y : layout) : outcome layout :=
  let size := resize w 0%nat (l_size y) in
  let name := resize w [] (l_name y) in
  '(name, header) ← match prev with
    | Some row =>
      p ← deref (row !! j);
      if bool_decide (p = c) then Ret (name, l_header y) else
      name ← store_at i c.1 name; Ret (name, i :: l_header y)
    | None => name ← store_at i c.1 name; Ret (name, l_header y)
    end;
  old ← deref (size !! j);
  size ← store_at j (Nat.max (Nat.max old (length c.2)) (length c.1)) size;
  Ret (mkLayout size name header).

Fixpoint size_row (prev : option (list cell)) (i w j : nat) (row : list cell) (y : layout) : outcome layout :=
  match row with [] => Ret y | c :: row => y ← size_cell prev i w j c y; size_row prev i w (S j) row y end.
Fixpoint size_rows (prev : option (list cell)) (i : nat) (rows : list (list cell)) (y : layout) : outcome layout :=
  match rows with
  | [] => Ret y
  | row :: rows => y ← size_row prev i (length row) 0 row y; size_rows (Some row) (S i) rows y
  end.

(** A horizontal line of the frame *)
Fixpoint rule (sizes : list nat) (row : list cell) : outcome (list Z) :=
  match row, sizes with
  | [], _ => Ret []
  | _ :: row, n :: sizes => l ← rule sizes row; Ret (replicate (n + 3) 45 ++ txt "+" ++ l)
  | _ :: _, [] => Crash Undefined
  end.
Definition frame_line (sizes : list nat) (row : list cell) : outcome (list Z) :=
  l ← rule sizes row; Ret (txt "+" ++ l ++ [10]).

(** A row as pairs; in a table only the blanks before the values are
    printed, the calls that format the values are commented out. *)
Definition kv_row (row : list cell) : list Z :=
  (row ≫= λ '(k, v), txt "key::" ++ k ++ txt "=" ++ [34] ++ v ++ [34] ++ txt " ") ++ [10].
Definition table_row (row : list cell) : list Z := txt "|" ++ replicate (length row) 32 ++ [10].

Fixpoint print_rows (keyval header : bool) (sizes : list nat) (rows : list (list cell)) : outcome (list Z) :=
  match rows with
  | [] => Ret []
  | row :: rest =>
    head ← (if header && negb keyval then
              l ← frame_line sizes row; Ret (l ++ txt "|" ++ [10] ++ l)
            else Ret []);
    let body := if keyval then kv_row row else table_row row in
    trailer ← (if negb keyval && bool_decide (rest = []) then frame_line sizes row else Ret []);
    tail ← print_rows keyval false sizes rest;
    Ret (head ++ body ++ trailer ++ tail)
  end.

Definition flush s : outcome (list Z * table) :=
  let s := finish_pending_string s in
  y ← size_rows None 0 (t_vec s) (mkLayout (t_column_size s) (t_column_name s) []);
  let need_header := negb (bool_decide (l_size y = t_column_size s)) in
  out ← print_rows (t_keyval s) need_header (l_size y) (t_vec s);
  Ret (out, mkTable [] (t_ss s) (t_pending_name s) (t_keyval s) (t_section_open s) (t_section s) (t_section_cnt s)
    (l_size y) (t_column_name s)).

End TableFormatter.

Import TableFormatter.

Section theorems.

Lemma resize_length {A} n (x : A) l : length (resize n x l) = n.
Proof. unfold resize. rewrite length_app, length_take, length_replicate. lia. Qed.
Lemma store_at_ret {A} i (x : A) l : (i < length l)%nat → store_at i x l = Ret (<[i := x]> l).
Proof. intros H. unfold store_at. by destruct (Nat.ltb_spec i (length l)); [|lia]. Qed.

(** Rows of one width, at most as many as columns, are sized without an
    access outside a vector. *)
Lemma size_row_ret prev i w row : ∀ j y,
  (j + length row = w)%nat → (i < w)%nat → match prev with Some r => length r = w | None => True end →
  ∃ y', size_row prev i w j row y = Ret y'.
Proof.
  induction row as [|c row IH]; intros j y Hj Hi Hp; simpl in *; [by exists y|].
  assert (∃ y1, size_cell prev i w j c y = Ret y1) as [y1 ->]; [|mstep; apply IH; [lia|done|done]].
  unfold size_cell.
  assert (∀ nh : list (list Z) * list nat, ∃ y1, (let '(name, header) := nh in
    old ← deref (resize w 0%nat (l_size y) !! j); size ← store_at j (Nat.max (Nat.max old (length c.2)) (length c.1)) (resize w 0%nat (l_size y));
    Ret (mkLayout size name header)) = Ret y1) as Hrest.
  { intros [name header]. destruct (lookup_lt_is_Some_2 (resize w 0%nat (l_size y)) j) as [n ->]; [rewrite resize_length; lia|].
    mstep. rewrite store_at_ret by (rewrite resize_length; lia). mstep. by eexists. }
  destruct prev as [r|].
  - destruct (lookup_lt_is_Some_2 r j) as [q ->]; [lia|]. mstep. case_bool_decide; [mstep; apply (Hrest (_, _))|].
    rewrite store_at_ret by (by rewrite resize_length). mstep. apply (Hrest (_, _)).
  - rewrite store_at_ret by (by rewrite resize_length). mstep. apply (Hrest (_, _)).
Qed.

Lemma size_rows_ret w rows : ∀ prev i y,
  Forall (λ row, length row = w) rows → (i + length rows ≤ w)%nat → match prev with Some r => length r = w | None => True end →
  ∃ y', size_rows prev i rows y = Ret y'.
Proof.
  induction rows as [|row rows IH]; intros prev i y Hrows Hi Hp; [by exists y|]. simpl in *.
  apply Forall_cons in Hrows as [Hrow Hrows].
  destruct (size_row_ret prev i (length row) row 0 y) as [y1 ->]; [done|lia|by rewrite Hrow|]. mstep.
  apply IH; [done|lia|done].
Qed.

Lemma print_rows_kv sizes header rows : print_rows true header sizes rows = Ret (rows ≫= kv_row).
Proof.
  revert header. induction rows as [|row rows IH]; intros header; [done|]. cbn [print_rows]. rewrite andb_false_r. cbn [negb andb].
  mstep. rewrite IH. mstep. done.
Qed.

(** In pair mode a table with at least as many columns as rows, all rows of
    the same width, is printed row by row with every label and value, and is
    empty afterwards. *)
Theorem table_flush_pairs s w :
  t_keyval s = true → t_pending_name s = [] → Forall (λ row, length row = w) (t_vec s) → (length (t_vec s) ≤ w)%nat →
  ∃ s', flush s = Ret (t_vec s ≫= kv_row, s') ∧ t_vec s' = [].
Proof.
  intros Hk Hp Hrows Hlen. unfold flush, finish_pending_string. rewrite bool_decide_eq_true_2 by done.
  destruct (size_rows_ret w (t_vec s) None 0 (mkLayout (t_column_size s) (t_column_name s) [])) as [y ->]; [done|lia|done|].
  mstep. rewrite Hk, print_rows_kv. mstep. by eexists.
Qed.

Definition two_values : table := dump_int (txt "b") 2 (dump_int (txt "a") 1 (create true)).
Lemma table_flush_pairs_witness : ∃ s', flush two_values = Ret (t_vec two_values ≫= kv_row, s').
Proof.
  destruct (table_flush_pairs two_values 2) as (s'&H&_); [done|done|by repeat constructor|vm_compute; lia|]. by exists s'.
Defined.

(** A table outside sections after one and two values with the same name *)
Lemma add_first keyval name u : add_value name u (create keyval) = mkTable [[(name, u)]] [] [] keyval 0 [] ∅ [] [].
Proof. done. Qed.
Lemma add_second keyval name u v :
  add_value name v (mkTable [[(name, u)]] [] [] keyval 0 [] ∅ [] []) =
  mkTable [[(name, u)]; [(name, v)]] [] [] keyval 0 [] ∅ [] [].
Proof.
  unfold add_value, finish_pending_string. simpl. unfold add_now, m_vec_index. simpl. by rewrite bool_decide_eq_true_2.
Qed.

(** The column name is stored at the index of the row: a column of two
    different values makes [flush] write outside the vector. *)
Theorem table_flush_overruns keyval name a b :
  dec_s a ≠ dec_s b → flush (dump_int name b (dump_int name a (create keyval))) = Crash Undefined.
Proof.
  intros Hne. unfold dump_int. rewrite add_first, add_second. unfold flush, finish_pending_string. simpl.
  unfold size_cell. simpl. rewrite bool_decide_eq_false_2; [done|]. intros E. apply Hne. by injection E.
Qed.

Lemma table_flush_overruns_witness : flush (dump_int (txt "n") 2 (dump_int (txt "n") 1 (create true))) = Crash Undefined.
Proof. apply (table_flush_overruns true (txt "n") 1 2). vm_compute. congruence. Defined.

(** As a table, values of the same length print the same. *)
Theorem table_prints_no_values name u v s1 s2 o1 o2 :
  length u = length v →
  flush (dump_string name u (create false)) = Ret (o1, s1) → flush (dump_string name v (create false)) = Ret (o2, s2) →
  o1 = o2.
Proof.
  intros Hl. unfold dump_string. rewrite !add_first. unfold flush, finish_pending_string. simpl.
  unfold size_cell. simpl. rewrite Hl. intros [= <- _] [= <- _]. done.
Qed.

End theorems.

(** ** The choice of a formatter: [Formatter::create] *)

Inductive formatter := F_json (s : json) | F_xml (s : xml) | F_table (s : table).

Definition formatter_named (t : string) : option formatter :=
  if bool_decide (t = "json"%string) then Some (F_json (JSONFormatter.create false)) else
  if bool_decide (t = "json-pretty"%string) then Some (F_json (JSONFormatter.create true)) else
  if bool_decide (t = "xml"%string) then Some (F_xml (XMLFormatter.create false false true)) else
  if bool_decide (t = "xml-pretty"%string) then Some (F_xml (XMLFormatter.create true false true)) else
  if bool_decide (t = "table"%string) then Some (F_table (TableFormatter.create false)) else
  if bool_decide (t = "table-kv"%string) then Some (F_table (TableFormatter.create true)) else None.

(** The call for the fallback has no fallback of its own. *)
Definition Formatter_create (type default_type fallback : string) : option formatter :=
  let mytype := if bool_decide (type = ""%string) then default_type else type in
  match formatter_named mytype with
  | Some f => Some f
  | None => if bool_decide (fallback = ""%string) then None else formatter_named fallback
  end.
