(* ===== verification/Config.v ===== *)
(** * The configuration file (src/common/context.h)

    [Config] reads pairs of words from a text file. The members the program
    never sets keep the values of their initialisers; [config] of Machine.v is
    the part the RDMA core reads. [inet_pton] is a parameter: [None] when the
    text is not an address, and then the memory it should have filled keeps
    what it held. Every reading of an address has an uninitialised [sockaddr_in]
    of its own: [junk] is what one of them held, [junks i] what that of the
    [i]-th reading of the file did. *)

From S2P Require Import Prelude State Addr Machine Wire Text.

Record Config := mkCfg {
  core : config;
  m_use_rdma_ : bool;
  m_op_threads_num_ : Z;
  m_ip_addr : list Z;
  m_listen_port : Z;
  m_addr : entity_addr_t;
  m_request_size : Z;
  m_request_num : Z;
  m_cpu_id : Z;
  m_cr_role : Z;
}.

(** The initialisers; [raw] is what the other members held. *)
Definition Config_default (raw : Config) : Config :=
  let r := core raw in
  mkCfg (mkConfig false false false (txt "mlx5_0") 3 0 0 1 131072 128 67108864 256 128 true 65536 true
           (ip_addr_member_1 r) (port_member_1 r) (ip_addr_member_2 r) (port_member_2 r))
    true 1 [] (m_listen_port raw) (Addr.create (m_addr raw)) (m_request_size raw) (m_request_num raw) (m_cpu_id raw) (m_cr_role raw).

(** ** Field updates *)

Section setters.
Implicit Types c : Config.

Definition on_core f c : Config :=
  mkCfg (f (core c)) (m_use_rdma_ c) (m_op_threads_num_ c) (m_ip_addr c) (m_listen_port c) (m_addr c) (m_request_size c)
    (m_request_num c) (m_cpu_id c) (m_cr_role c).
Definition set_use_rdma b c : Config :=
  mkCfg (core c) b (m_op_threads_num_ c) (m_ip_addr c) (m_listen_port c) (m_addr c) (m_request_size c)
    (m_request_num c) (m_cpu_id c) (m_cr_role c).
Definition set_threads n c : Config :=
  mkCfg (core c) (m_use_rdma_ c) n (m_ip_addr c) (m_listen_port c) (m_addr c) (m_request_size c)
    (m_request_num c) (m_cpu_id c) (m_cr_role c).
Definition set_ip l c : Config :=
  mkCfg (core c) (m_use_rdma_ c) (m_op_threads_num_ c) l (m_listen_port c) (m_addr c) (m_request_size c)
    (m_request_num c) (m_cpu_id c) (m_cr_role c).
Definition set_listen_port n c : Config :=
  mkCfg (core c) (m_use_rdma_ c) (m_op_threads_num_ c) (m_ip_addr c) n (m_addr c) (m_request_size c)
    (m_request_num c) (m_cpu_id c) (m_cr_role c).
Definition set_m_addr a c : Config :=
  mkCfg (core c) (m_use_rdma_ c) (m_op_threads_num_ c) (m_ip_addr c) (m_listen_port c) a (m_request_size c)
    (m_request_num c) (m_cpu_id c) (m_cr_role c).
Definition set_requests n m c : Config :=
  mkCfg (core c) (m_use_rdma_ c) (m_op_threads_num_ c) (m_ip_addr c) (m_listen_port c) (m_addr c) n m (m_cpu_id c) (m_cr_role c).
Definition set_cpu n c : Config :=
  mkCfg (core c) (m_use_rdma_ c) (m_op_threads_num_ c) (m_ip_addr c) (m_listen_port c) (m_addr c) (m_request_size c)
    (m_request_num c) n (m_cr_role c).
Definition set_role n c : Config :=
  mkCfg (core c) (m_use_rdma_ c) (m_op_threads_num_ c) (m_ip_addr c) (m_listen_port c) (m_addr c) (m_request_size c)
    (m_request_num c) (m_cpu_id c) n.

Implicit Types k : config.
Definition set_flags cm huge srq k : config :=
  mkConfig cm huge srq (m_rdma_device_name_ k) (m_gid_index_ k) (m_rdma_dscp_ k) (m_rdma_sl_ k) (m_rdma_port_num_ k)
    (m_rdma_buffer_size_bytes_ k) (m_rdma_send_queue_len_ k) (m_rdma_receive_buffers_bytes_ k) (m_rdma_receive_queue_len_ k)
    (m_tcp_listen_backlog_ k) (m_tcp_nodelay_ k) (m_tcp_rcvbuf_bytes_ k) (m_bind_before_connect_ k)
    (ip_addr_member_1 k) (port_member_1 k) (ip_addr_member_2 k) (port_member_2 k).
Definition set_device name gid k : config :=
  mkConfig (m_use_rdma_cm_ k) (m_rdma_enable_hugepage_ k) (m_rdma_support_srq_ k) name gid (m_rdma_dscp_ k) (m_rdma_sl_ k)
    (m_rdma_port_num_ k) (m_rdma_buffer_size_bytes_ k) (m_rdma_send_queue_len_ k) (m_rdma_receive_buffers_bytes_ k)
    (m_rdma_receive_queue_len_ k) (m_tcp_listen_backlog_ k) (m_tcp_nodelay_ k) (m_tcp_rcvbuf_bytes_ k) (m_bind_before_connect_ k)
    (ip_addr_member_1 k) (port_member_1 k) (ip_addr_member_2 k) (port_member_2 k).
Definition set_group ip1 p1 ip2 p2 k : config :=
  mkConfig (m_use_rdma_cm_ k) (m_rdma_enable_hugepage_ k) (m_rdma_support_srq_ k) (m_rdma_device_name_ k) (m_gid_index_ k)
    (m_rdma_dscp_ k) (m_rdma_sl_ k) (m_rdma_port_num_ k) (m_rdma_buffer_size_bytes_ k) (m_rdma_send_queue_len_ k)
    (m_rdma_receive_buffers_bytes_ k) (m_rdma_receive_queue_len_ k) (m_tcp_listen_backlog_ k) (m_tcp_nodelay_ k)
    (m_tcp_rcvbuf_bytes_ k) (m_bind_before_connect_ k) ip1 p1 ip2 p2.

End setters.

(** ** One pair *)

(** [parse] returns, or [std::stoi] threw. *)
Inductive parsed := Parsed (c : Config) | Threw (e : stoi_result).

Definition with_int (val : list Z) (f : Z → Config) : parsed :=
  match stoi val with Value n => Parsed (f n) | e => Threw e end.

Section parse.
Context (pton : list Z → option (list Z)) (junk : list Z).

(** [sa.sin_addr.s_addr] after [inet_pton]: four bytes, least significant first *)
Definition member_ip (val : list Z) : Z := of_le32 0 (default (slice 4 4 junk) (pton val)).

(** The [sockaddr_in] of the key IP, with the port the address has *)
Definition ip_sockaddr (val : list Z) (a : entity_addr_t) : list Z :=
  le16 AF_INET ++ slice 2 2 (a_u a) ++ default (slice 4 4 junk) (pton val) ++ slice 8 8 junk.
Definition set_ip_addr (val : list Z) (a : entity_addr_t) : entity_addr_t :=
  let a := Addr.set_family AF_INET (Addr.set_nonce 0 a) in (Addr.set_sockaddr (ip_sockaddr val a) a).2.
(** [m_addr.u.sin.sin_port = htons(...)] *)
Definition set_sin_port (port : Z) (a : entity_addr_t) : entity_addr_t := with_u (splice 2 (be16 (u16 port)) (a_u a)) a.

Definition is_true (val : list Z) : bool := bool_decide (val = txt "true").

Definition parse (key val : list Z) (c : Config) : parsed :=
  let k := core c in
  let named s := bool_decide (key = txt s) in
  if named "USE_RDMA"%string then Parsed (set_use_rdma (is_true val) c) else
  if named "RDMA_CM"%string then
    Parsed (on_core (set_flags (is_true val) (m_rdma_enable_hugepage_ k) (m_rdma_support_srq_ k)) c) else
  if named "RDMA_ENABLE_HUGE_PAGE"%string then
    Parsed (on_core (set_flags (m_use_rdma_cm_ k) (is_true val) (m_rdma_support_srq_ k)) c) else
  if named "RDMA_SURRPORT_SRQ"%string then
    Parsed (on_core (set_flags (m_use_rdma_cm_ k) (m_rdma_enable_hugepage_ k) (is_true val)) c) else
  if named "IP"%string then Parsed (set_m_addr (set_ip_addr val (m_addr c)) (set_ip val c)) else
  if named "LISTEN_PORT"%string then
    with_int val (λ n, set_m_addr (set_sin_port (u16 n) (m_addr c)) (set_listen_port (u16 n) c)) else
  if named "RDMA_DEVICE_NAME"%string then Parsed (on_core (set_device val (m_gid_index_ k)) c) else
  if named "RDMA_THREADS_NUM"%string then with_int val (λ n, set_threads (u16 n) c) else
  if named "MULTICAST_GROUP_IP1"%string then
    Parsed (on_core (set_group (member_ip val) (port_member_1 k) (ip_addr_member_2 k) (port_member_2 k)) c) else
  if named "MULTICAST_GROUP_IP2"%string then
    Parsed (on_core (set_group (ip_addr_member_1 k) (port_member_1 k) (member_ip val) (port_member_2 k)) c) else
  if named "MULTICAST_GROUP_PORT1"%string then
    with_int val (λ n, on_core (set_group (ip_addr_member_1 k) (u16 n) (ip_addr_member_2 k) (port_member_2 k)) c) else
  if named "MULTICAST_GROUP_PORT2"%string then
    with_int val (λ n, on_core (set_group (ip_addr_member_1 k) (port_member_1 k) (ip_addr_member_2 k) (u16 n)) c) else
  if named "GID_INDEX"%string then with_int val (λ n, on_core (set_device (m_rdma_device_name_ k) (u8 (u16 n))) c) else
  if named "REQUEST_SIZE"%string then with_int val (λ n, set_requests (u32 n) (m_request_num c) c) else
  if named "REQUEST_NUM"%string then with_int val (λ n, set_requests (m_request_size c) (u32 n) c) else
  if named "CPU_ID"%string then with_int val (λ n, set_cpu (u8 n) c) else
  if named "CR_ROLE"%string then with_int val (λ n, set_role (u16 n) c) else
  Parsed c.

(** ** Addresses *)

Definition sane (c : Config) : Prop := length (a_u (m_addr c)) = 28%nat.
Lemma set_sin_port_idem port a : length (a_u a) = 28%nat → set_sin_port port (set_sin_port port a) = set_sin_port port a.
Proof.
  intros Hl. unfold set_sin_port, with_u. cbn [a_u a_type a_nonce ip_char]. f_equal. apply list_eq. intros j.
  rewrite !splice_lookup by (rewrite ?splice_length; simpl; lia). by repeat case_decide.
Qed.

Hypothesis junk_length : length junk = 16%nat.
Hypothesis pton_length : ∀ val ip, pton val = Some ip → length ip = 4%nat.

Lemma ip_length val : length (default (slice 4 4 junk) (pton val)) = 4%nat.
Proof using junk_length pton_length.
  destruct (pton val) as [ip|] eqn:E; simpl; [by eapply pton_length|]. unfold slice. rewrite length_take, length_drop. lia.
Qed.

(** The address after the key IP *)
Lemma set_ip_addr_u val a :
  length (a_u a) = 28%nat →
  set_ip_addr val a = mkAddr (a_type a) 0
    (le16 AF_INET ++ slice 2 2 (a_u a) ++ default (slice 4 4 junk) (pton val) ++ slice 8 8 junk ++ replicate 12 0) (ip_char a).
Proof using junk_length pton_length.
  intros Hl. unfold set_ip_addr, Addr.set_sockaddr, ip_sockaddr. cbn [a_u Addr.set_family Addr.set_nonce with_u].
  pose proof (ip_length val) as Hip.
  rewrite splice_slice by (simpl; lia).
  change (sa_family (le16 AF_INET ++ ?l) =? AF_INET) with true. cbn [snd]. unfold with_u. cbn [a_type a_nonce ip_char]. f_equal.
  assert (length (slice 2 2 (a_u a)) = 2%nat ∧ length (slice 8 8 junk) = 8%nat) as [H1 H2]
    by (unfold slice; rewrite !length_take, !length_drop; lia).
  unfold splice. rewrite take_0, app_nil_l. rewrite take_ge by (rewrite !length_app; simpl; unfold sizeof_sin; lia).
  rewrite !length_app, H1, H2, Hip. rewrite <- !app_assoc. done.
Qed.

Lemma set_ip_addr_idem val a : length (a_u a) = 28%nat → set_ip_addr val (set_ip_addr val a) = set_ip_addr val a.
Proof using junk_length pton_length.
  intros Hl. pose proof (ip_length val) as Hip.
  assert (length (slice 2 2 (a_u a)) = 2%nat ∧ length (slice 8 8 junk) = 8%nat) as [H1 H2]
    by (unfold slice; rewrite !length_take, !length_drop; lia).
  rewrite (set_ip_addr_u val a Hl). rewrite set_ip_addr_u by (cbn [a_u]; rewrite !length_app, H1, H2, Hip; done).
  cbn [a_u a_type ip_char]. do 2 f_equal. unfold slice at 1.
  rewrite drop_app_length' by done. by rewrite take_app_length' by done.
Qed.

(** Address and port can come in either order. *)
Lemma ip_port_commute val port a :
  length (a_u a) = 28%nat → set_sin_port port (set_ip_addr val a) = set_ip_addr val (set_sin_port port a).
Proof using junk_length pton_length.
  intros Hl. pose proof (ip_length val) as Hip.
  assert (length (slice 2 2 (a_u a)) = 2%nat ∧ length (slice 8 8 junk) = 8%nat) as [H1 H2]
    by (unfold slice; rewrite !length_take, !length_drop; lia).
  rewrite (set_ip_addr_u val a Hl). rewrite set_ip_addr_u by (unfold set_sin_port, with_u; cbn [a_u]; rewrite splice_length; simpl; lia).
  unfold set_sin_port, with_u. cbn [a_u a_type a_nonce ip_char]. f_equal.
  assert (slice 2 2 (splice 2 (be16 (u16 port)) (a_u a)) = be16 (u16 port)) as ->.
  { apply list_eq. intros [|[|j]]; unfold slice; rewrite ?lookup_take_lt, ?lookup_drop, ?splice_lookup by (simpl; lia); try done.
    rewrite lookup_take_ge by lia. done. }
  unfold splice at 1. change (2 + length (be16 (u16 port)))%nat with 4%nat.
  rewrite take_app_length' by done. f_equal. f_equal.
  rewrite (drop_app_ge (le16 AF_INET)) by (simpl; lia). change (4 - length (le16 AF_INET))%nat with 2%nat.
  by rewrite drop_app_length' by done.
Qed.

Lemma set_ip_addr_length val a : length (a_u a) = 28%nat → length (a_u (set_ip_addr val a)) = 28%nat.
Proof using junk_length pton_length.
  intros Hl. rewrite set_ip_addr_u by done. cbn [a_u]. pose proof (ip_length val) as Hip.
  rewrite !length_app, Hip. unfold slice. rewrite !length_take, !length_drop, length_replicate.
  change (length (le16 AF_INET)) with 2%nat. lia.
Qed.

End parse.

Section file.
Context (pton : list Z → option (list Z)) (junks : nat → list Z).

(** ** The file *)

Fixpoint word (l : list Z) : list Z := match l with c :: l => if is_space c then [] else c :: word l | [] => [] end.
Fixpoint after_word (l : list Z) : list Z := match l with c :: l' => if is_space c then l else after_word l' | [] => [] end.

(** What is left of the file, and [eofbit] *)
Definition stream : Type := list Z * bool.

(** [configFile >> w]: at the end of the file the word keeps its value. *)
Definition extract (w : list Z) (st : stream) : list Z * stream :=
  if st.2 then (w, st) else
  match skip_spaces st.1 with
  | [] => (w, ([], true))
  | l => (word l, (after_word l, bool_decide (after_word l = [])))
  end.

(** The loop of the constructor; [fuel] bounds the pairs, and [i] is how many
    were read. *)
Fixpoint load_loop (fuel i : nat) (key val : list Z) (st : stream) (c : Config) : outcome parsed :=
  if st.2 then Ret (Parsed c) else
  match fuel with
  | O => Crash NoFuel
  | S fuel =>
    let '(key, st) := extract key st in
    let '(val, st) := extract val st in
    match parse pton (junks i) key val c with
    | Parsed c => load_loop fuel (S i) key val st c
    | Threw e => Ret (Threw e)
    end
  end.
Definition load (file : list Z) (raw : Config) : outcome parsed :=
  load_loop (S (length file)) 0 [] [] (file, false) (Config_default raw).

(** The pairs, one after the other *)
Fixpoint parse_all (i : nat) (l : list (list Z * list Z)) (c : Config) : parsed :=
  match l with
  | [] => Parsed c
  | (key, val) :: l => match parse pton (junks i) key val c with Parsed c => parse_all (S i) l c | e => e end
  end.

(** *** The loop reads the lines *)

Definition word_ok (w : list Z) : Prop := w ≠ [] ∧ Forall (λ c, is_space c = false) w.
Definition line (kv : list Z * list Z) : list Z := kv.1 ++ [32] ++ kv.2 ++ [10].

Lemma extract_word w0 w sep rest :
  word_ok w → is_space sep = true → extract w0 (w ++ sep :: rest, false) = (w, (sep :: rest, false)).
Proof.
  intros [Hne Hw] Hsep. unfold extract. cbn [fst snd].
  assert (skip_spaces (w ++ sep :: rest) = w ++ sep :: rest) as ->.
  { destruct w as [|c w]; [done|]. apply Forall_cons in Hw as [Hc _]. simpl. by rewrite Hc. }
  assert (word (w ++ sep :: rest) = w ∧ after_word (w ++ sep :: rest) = sep :: rest) as [E1 E2].
  { clear Hne. induction Hw as [|c w Hc _ [IH1 IH2]]; simpl; [by rewrite Hsep|]. rewrite Hc. by rewrite IH1, IH2. }
  destruct (w ++ sep :: rest) eqn:E; [by destruct w|]. by rewrite E1, E2.
Qed.
Lemma extract_after w0 w sep rest :
  is_space sep = true → extract w0 (sep :: w ++ rest, false) = extract w0 (w ++ rest, false).
Proof. intros Hsep. unfold extract. cbn [fst snd skip_spaces]. by rewrite Hsep. Qed.

(** The words of the last pair stay where they are at the end of the file, and
    are parsed once more. *)
Lemma load_loop_lines tail l : Forall (λ c, is_space c = true) tail →
  ∀ fuel i k v c, Forall (λ kv, word_ok kv.1 ∧ word_ok kv.2) l → (length l < fuel)%nat → ∀ sep, is_space sep = true →
  load_loop fuel i k v (sep :: concat (line <$> l) ++ tail, false) c = Ret (parse_all i (l ++ [default (k, v) (last l)]) c).
Proof.
  intros Htail. induction l as [|[k1 v1] l IH]; intros fuel i k v c Hl Hf sep Hsep;
    (destruct fuel as [|fuel]; [simpl in Hf; lia|]); cbn [load_loop snd].
  - assert (∀ w, extract w (sep :: concat (line <$> []) ++ tail, false) = (w, ([], true))) as E.
    { intros w. unfold extract. cbn [fst snd fmap list_fmap concat app]. simpl. rewrite Hsep.
      assert (skip_spaces tail = []) as ->; [|done]. clear -Htail. induction Htail as [|x t Hx _ IH]; [done|]. simpl. by rewrite Hx. }
    rewrite E. cbn [extract snd app last default parse_all from_option]. destruct (parse pton (junks i) k v c); [by destruct fuel|done].
  - apply Forall_cons in Hl as [[Hk1 Hv1] Hl]. cbn [fst snd] in *.
    assert (sep :: concat (line <$> (k1, v1) :: l) ++ tail = sep :: k1 ++ 32 :: v1 ++ 10 :: concat (line <$> l) ++ tail) as ->.
    { csimpl. unfold line. cbn [fst snd]. by rewrite <- !app_assoc. }
    rewrite extract_after, extract_word by done. rewrite (extract_after v v1 32), extract_word by done. cbn [app parse_all].
    destruct (parse pton (junks i) k1 v1 c) as [c1|e] eqn:E; [|done]. rewrite IH; [|done|simpl in Hf; lia|done].
    do 3 f_equal. destruct l as [|kv l]; [done|]. rewrite last_cons_cons. by destruct (last (kv :: l)) eqn:El; [|by apply last_None in El].
Qed.

Lemma load_lines l tail raw : Forall (λ kv, word_ok kv.1 ∧ word_ok kv.2) l → Forall (λ c, is_space c = true) tail →
  load (concat (line <$> l) ++ tail) raw = Ret (parse_all 0 (l ++ [default ([], []) (last l)]) (Config_default raw)).
Proof.
  intros Hl Ht. assert (length l ≤ length (concat (line <$> l)))%nat as Hlen.
  { clear. induction l as [|[k v] l IH]; [done|]. csimpl. rewrite length_app. unfold line at 1. rewrite !length_app. simpl. lia. }
  assert (load (concat (line <$> l) ++ tail) raw =
    load_loop (S (length (concat (line <$> l) ++ tail))) 0 [] [] (32 :: concat (line <$> l) ++ tail, false) (Config_default raw)) as ->.
  { unfold load. cbn [load_loop snd].
    assert (∀ w, extract w (32 :: concat (line <$> l) ++ tail, false) = extract w (concat (line <$> l) ++ tail, false)) as E by done.
    by rewrite E. }
  apply load_loop_lines; try done. rewrite length_app. lia.
Qed.

Lemma parse_all_app i l l' c : parse_all i (l ++ l') c =
  match parse_all i l c with Parsed c => parse_all (i + length l) l' c | e => e end.
Proof.
  revert i c. induction l as [|[k v] l IH]; intros i c; cbn [app parse_all length]; [by rewrite Nat.add_0_r|].
  destruct (parse pton (junks i) k v c); [|done]. rewrite IH. by rewrite Nat.add_succ_r.
Qed.

(** *** Every file is read *)

(** An extraction uses up a character or meets the end of the file. *)
Lemma extract_shorter w st : st.2 = false → (extract w st).2.2 = true ∨ (length (extract w st).2.1 < length st.1)%nat.
Proof.
  destruct st as [l e]. cbn [fst snd]. intros ->. unfold extract. cbn [fst snd].
  assert (∀ l, length (skip_spaces l) ≤ length l)%nat as Hs by (clear; induction l as [|c l IH]; simpl; [lia|destruct (is_space c); simpl; lia]).
  assert (∀ l, length (after_word l) ≤ length l)%nat as Ha by (clear; induction l as [|c l IH]; simpl; [lia|destruct (is_space c); simpl; lia]).
  destruct (skip_spaces l) as [|c l'] eqn:E; [by left|]. right. cbn [fst snd].
  assert (is_space c = false) as Hc.
  { clear -E. revert E. induction l as [|x l IH]; simpl; [done|]. destruct (is_space x) eqn:Ex; [done|]. by intros [= <- _]. }
  pose proof (Hs l) as Hsl. rewrite E in Hsl. simpl in *. rewrite Hc. pose proof (Ha l'). lia.
Qed.

(** The constructor ends on every file, whatever it holds: every pass takes a
    character or meets the end. *)
Lemma load_loop_returns fuel : ∀ i key val st c, (length st.1 < fuel)%nat ∨ st.2 = true → ∃ r, load_loop fuel i key val st c = Ret r.
Proof.
  induction fuel as [|fuel IH]; intros i key val st c Hf; cbn [load_loop]; destruct (st.2) eqn:E; try (by eexists).
  { destruct Hf as [Hf|Hf]; [lia|done]. }
  destruct Hf as [Hf|Hf]; [|done]. pose proof (extract_shorter key st E) as H1. destruct (extract key st) as [key1 st1]. cbn [fst snd] in H1.
  destruct (extract val st1) as [val1 st2] eqn:E2.
  assert ((length st2.1 < fuel)%nat ∨ st2.2 = true) as Hf2.
  { destruct (st1.2) eqn:E1.
    - unfold extract in E2. rewrite E1 in E2. injection E2 as _ <-. by right.
    - pose proof (extract_shorter val st1 E1) as H2. rewrite E2 in H2. cbn [fst snd] in H2. destruct H1, H2; (by right) || (left; lia) || done. }
  destruct (parse pton (junks i) key1 val1 c) as [c1|e]; [by apply IH|by eexists].
Qed.
Theorem config_load_returns file raw : ∃ r, load file raw = Ret r.
Proof. apply load_loop_returns. left. apply Nat.lt_succ_diag_r. Qed.

End file.

(** ** What a file sets *)

(** The value of the last pair with a key *)
Definition last_of (key : string) (l : list (list Z * list Z)) : option (list Z) := last ((filter (λ kv, kv.1 = txt key) l).*2).
Definition int_of (val : list Z) : Z := match stoi val with Value n => n | _ => 0 end.
(** A member: the value of the last pair with its key, or what it was *)
Definition member {A} (key : string) (f : list Z → A) (old : A) (l : list (list Z * list Z)) : A := from_option f old (last_of key l).

(** What the keys stand for: every member, converted to its width *)
Record file_sets (l : list (list Z * list Z)) (c c' : Config) : Prop := {
  fs_use_rdma : m_use_rdma_ c' = member "USE_RDMA" is_true (m_use_rdma_ c) l;
  fs_cm : m_use_rdma_cm_ (core c') = member "RDMA_CM" is_true (m_use_rdma_cm_ (core c)) l;
  fs_hugepage : m_rdma_enable_hugepage_ (core c') = member "RDMA_ENABLE_HUGE_PAGE" is_true (m_rdma_enable_hugepage_ (core c)) l;
  fs_srq : m_rdma_support_srq_ (core c') = member "RDMA_SURRPORT_SRQ" is_true (m_rdma_support_srq_ (core c)) l;
  fs_ip : m_ip_addr c' = member "IP" id (m_ip_addr c) l;
  fs_port : m_listen_port c' = member "LISTEN_PORT" (λ v, u16 (int_of v)) (m_listen_port c) l;
  fs_device : m_rdma_device_name_ (core c') = member "RDMA_DEVICE_NAME" id (m_rdma_device_name_ (core c)) l;
  fs_threads : m_op_threads_num_ c' = member "RDMA_THREADS_NUM" (λ v, u16 (int_of v)) (m_op_threads_num_ c) l;
  fs_port1 : port_member_1 (core c') = member "MULTICAST_GROUP_PORT1" (λ v, u16 (int_of v)) (port_member_1 (core c)) l;
  fs_port2 : port_member_2 (core c') = member "MULTICAST_GROUP_PORT2" (λ v, u16 (int_of v)) (port_member_2 (core c)) l;
  fs_gid : m_gid_index_ (core c') = member "GID_INDEX" (λ v, u8 (u16 (int_of v))) (m_gid_index_ (core c)) l;
  fs_request_size : m_request_size c' = member "REQUEST_SIZE" (λ v, u32 (int_of v)) (m_request_size c) l;
  fs_request_num : m_request_num c' = member "REQUEST_NUM" (λ v, u32 (int_of v)) (m_request_num c) l;
  fs_cpu : m_cpu_id c' = member "CPU_ID" (λ v, u8 (int_of v)) (m_cpu_id c) l;
  fs_role : m_cr_role c' = member "CR_ROLE" (λ v, u16 (int_of v)) (m_cr_role c) l;
}.

Lemma last_of_nil key : last_of key [] = None.
Proof. done. Qed.
Lemma last_of_snoc key l k v : last_of key (l ++ [(k, v)]) = if bool_decide (k = txt key) then Some v else last_of key l.
Proof.
  unfold last_of. rewrite filter_app. case_bool_decide as H.
  - rewrite (filter_cons_True _ (k, v)) by done. rewrite filter_nil, fmap_app. apply last_snoc.
  - rewrite (filter_cons_False _ (k, v)) by done. by rewrite filter_nil, app_nil_r.
Qed.
Lemma member_snoc {A} key (f : list Z → A) old l k v :
  member key f old (l ++ [(k, v)]) = if bool_decide (k = txt key) then f v else member key f old l.
Proof. unfold member. rewrite last_of_snoc. by case_bool_decide. Qed.
(** Repeating the last pair changes nothing. *)
Lemma member_again {A} key (f : list Z → A) old l : [] ≠ txt key → member key f old (l ++ [default ([], []) (last l)]) = member key f old l.
Proof.
  intros Hk. destruct l as [|[k v] l _] using rev_ind; [pose proof (member_snoc key f old [] [] []) as E; rewrite bool_decide_eq_false_2 in E by done; exact E|]. rewrite last_snoc. change (default ([], []) (Some (k, v))) with (k, v). rewrite !member_snoc.
  by destruct (bool_decide _).
Qed.

Lemma file_sets_again l c c' : file_sets (l ++ [default ([], []) (last l)]) c c' → file_sets l c c'.
Proof. intros []. split; match goal with H : ?x = member _ _ _ _ |- ?x = _ => rewrite H; by apply member_again end. Qed.

Section sets.
Context (pton : list Z → option (list Z)) (junks : nat → list Z).

(** One more pair sets its member and leaves the others. *)
Lemma parse_sets junk l k v c c1 c2 : file_sets l c c1 → parse pton junk k v c1 = Parsed c2 → file_sets (l ++ [(k, v)]) c c2.
Proof.
  intros [H1 H2 H3 H4 H5 H6 H7 H8 H9 H10 H11 H12 H13 H14 H15]. unfold parse, with_int.
  repeat (case_bool_decide; [match goal with E : k = txt _ |- _ => subst k end; intros Hp; try (destruct (stoi v) eqn:Ev; [|done..]); injection Hp as <-;
    split; rewrite member_snoc; cbn; rewrite ?H1, ?H2, ?H3, ?H4, ?H5, ?H6, ?H7, ?H8, ?H9, ?H10, ?H11, ?H12, ?H13, ?H14, ?H15; unfold int_of; rewrite ?Ev; done|]).
  intros [= <-]. split; rewrite member_snoc, bool_decide_eq_false_2 by done; done.
Qed.
Lemma parse_all_sets l i c c' : parse_all pton junks i l c = Parsed c' → file_sets l c c'.
Proof.
  revert c'. induction l as [|[k v] l IH] using rev_ind; intros c'; [intros [= <-]; by split|].
  rewrite parse_all_app. destruct (parse_all pton junks i l c) as [c1|e] eqn:E; [|done]. cbn [parse_all].
  destruct (parse _ _ k v c1) as [c2|e] eqn:E2; [|done]. intros [= <-]. by eapply parse_sets; [apply IH|].
Qed.

(** *** The last pair once more *)

(** The bytes of the address the program never sets: [sin_zero] *)
Definition clear_padding (c : Config) : Config := set_m_addr (with_u (splice 8 (replicate 8 0) (a_u (m_addr c))) (m_addr c)) c.
Definition addr_key (key : list Z) : bool := bool_decide (key ∈ [txt "IP"; txt "MULTICAST_GROUP_IP1"; txt "MULTICAST_GROUP_IP2"]).

Hypothesis pton_length : ∀ val ip, pton val = Some ip → length ip = 4%nat.

(** Without [sin_zero] the address is what was set. *)
Lemma clear_set_ip j val ip a : length j = 16%nat → length (a_u a) = 28%nat → pton val = Some ip →
  splice 8 (replicate 8 0) (a_u (set_ip_addr pton j val a)) = le16 AF_INET ++ slice 2 2 (a_u a) ++ ip ++ replicate 20 0.
Proof using pton_length.
  intros Lj La Ep. rewrite (set_ip_addr_u pton j Lj pton_length) by done. cbn [a_u]. rewrite Ep. change (default (slice 4 4 j) (Some ip)) with ip.
  pose proof (pton_length _ _ Ep) as Lip. assert (length (slice 8 8 j) = 8%nat) as Lz by (unfold slice; rewrite length_take, length_drop; lia).
  assert (length (slice 2 2 (a_u a)) = 2%nat) as Lp by (unfold slice; rewrite length_take, length_drop; lia). revert Lp. generalize (slice 2 2 (a_u a)). intros p Lp.
  unfold splice. rewrite (app_assoc p), (app_assoc (le16 AF_INET)). rewrite take_app_length' by (rewrite !length_app; cbn; lia).
  change (8 + length (replicate 8 0))%nat with 16%nat. rewrite drop_app_ge by (rewrite !length_app; cbn; lia). rewrite !length_app, Lp, Lip. cbn [length le16 Nat.add Nat.sub].
  rewrite drop_app_length' by (cbn; lia). by rewrite <-!app_assoc.
Qed.
Lemma ip_keeps_port j val a : length j = 16%nat → length (a_u a) = 28%nat → slice 2 2 (a_u (set_ip_addr pton j val a)) = slice 2 2 (a_u a).
Proof using pton_length.
  intros Lj La. rewrite (set_ip_addr_u pton j Lj pton_length) by done. cbn [a_u]. unfold slice at 1. rewrite drop_app_length' by done.
  by rewrite take_app_length' by (unfold slice; rewrite length_take, length_drop; lia).
Qed.
Lemma clear_ip_addr j1 j2 val a : length j1 = 16%nat → length j2 = 16%nat → length (a_u a) = 28%nat → pton val ≠ None →
  splice 8 (replicate 8 0) (a_u (set_ip_addr pton j2 val (set_ip_addr pton j1 val a))) = splice 8 (replicate 8 0) (a_u (set_ip_addr pton j1 val a)).
Proof using pton_length.
  intros L1 L2 La Hv. destruct (pton val) as [ip|] eqn:Ep; [|done]. pose proof (set_ip_addr_length pton j1 L1 pton_length val a La) as L3.
  by rewrite (clear_set_ip j2 val ip), (clear_set_ip j1 val ip), ip_keeps_port.
Qed.

Lemma parse_sane j k v c c' : length j = 16%nat → sane c → parse pton j k v c = Parsed c' → sane c'.
Proof using pton_length.
  intros Hj. unfold sane, parse, with_int. destruct c as [co u t ip lp ad rs rn cpu cr]. cbn [m_addr core]. intros Hs.
  repeat (case_bool_decide; [intros Hp; try (destruct (stoi v); [|done..]); injection Hp as <-;
    first [exact Hs | by apply (set_ip_addr_length pton j Hj pton_length)
          | cbn [m_addr set_m_addr set_sin_port with_u a_u]; rewrite splice_length; [exact Hs|simpl in *; lia]]|]).
  by intros [= <-].
Qed.
Lemma parse_all_sane i l c c' : (∀ i, length (junks i) = 16%nat) → sane c → parse_all pton junks i l c = Parsed c' → sane c'.
Proof using pton_length.
  intros Hj. revert i c. induction l as [|[k v] l IH]; intros i c Hs; cbn [parse_all]; [by intros [= <-]|].
  destruct (parse pton (junks i) k v c) as [c1|e] eqn:E; [|done]. apply IH. by eapply parse_sane.
Qed.

(** What a second reading of a pair can change: nothing, but the bytes that an
    address takes over from uninitialised memory *)
Lemma parse_again j1 j2 k v c0 c : length j1 = 16%nat → length j2 = 16%nat → sane c0 → parse pton j1 k v c0 = Parsed c →
  ∃ c', parse pton j2 k v c = Parsed c' ∧ (addr_key k = false → c' = c) ∧ (pton v ≠ None → clear_padding c' = clear_padding c).
Proof using pton_length.
  intros L1 L2 Hs. unfold sane in Hs. unfold parse, with_int. destruct c0 as [co u t ip lp ad rs rn cpu cr]. cbn [core m_addr] in *.
  repeat (case_bool_decide; [intros Hpr; try (destruct (stoi v); [|done..]); injection Hpr as <-; eexists; (split; [reflexivity|]);
    cbn [core m_addr set_m_addr set_ip set_listen_port]; rewrite ?set_sin_port_idem by done; first [by destruct co|match goal with E : k = txt _ |- _ => subst k end]; (split; [done|]); intros Hv|]).
  - pose proof (set_ip_addr_length pton j1 L1 pton_length v ad Hs) as L3. unfold clear_padding, set_m_addr, set_ip, with_u.
    cbn [m_addr core m_use_rdma_ m_op_threads_num_ m_ip_addr m_listen_port m_request_size m_request_num m_cpu_id m_cr_role].
    rewrite (clear_ip_addr j1 j2 v ad L1 L2 Hs Hv). rewrite (set_ip_addr_u pton j2 L2 pton_length v (set_ip_addr pton j1 v ad) L3).
    by rewrite (set_ip_addr_u pton j1 L1 pton_length v ad Hs).
  - unfold member_ip. by destruct (pton v), co.
  - unfold member_ip. by destruct (pton v), co.
  - intros [= <-]. eexists. by split.
Qed.

(** C24: A file of lines "KEY value", with any blanks at its end, is read to its
    end. A number that [std::stoi] rejects ends the reading with its exception.
    Otherwise every flag, number and name has the value of the last pair with
    its key, converted to the width of the member, or the value it had without
    one. The loop reads the last pair twice, because the end of the file shows
    only after it: when that pair is no address, the configuration is the one
    its pairs set one after the other, and when it is an address that
    [inet_pton] accepts, it is that one up to the bytes [sin_zero], which are
    taken from another uninitialised [sockaddr_in] each time. *)
Theorem config_file_semantics l tail raw :
  (∀ i, length (junks i) = 16%nat) →
  Forall (λ kv, word_ok kv.1 ∧ word_ok kv.2) l → Forall (λ c, is_space c = true) tail →
  let kv := default ([], []) (last l) in
  match parse_all pton junks 0 l (Config_default raw) with
  | Threw e => load pton junks (concat (line <$> l) ++ tail) raw = Ret (Threw e)
  | Parsed c => ∃ c', load pton junks (concat (line <$> l) ++ tail) raw = Ret (Parsed c') ∧ file_sets l (Config_default raw) c' ∧
      (addr_key kv.1 = false → c' = c) ∧ (pton kv.2 ≠ None → clear_padding c' = clear_padding c)
  end.
Proof using pton_length.
  intros Hj Hl Ht kv. rewrite load_lines by done. rewrite parse_all_app. destruct (parse_all pton junks 0 l (Config_default raw)) as [c|e] eqn:E; [|done].
  assert (∃ c', parse pton (junks (0 + length l)) kv.1 kv.2 c = Parsed c' ∧ (addr_key kv.1 = false → c' = c) ∧ (pton kv.2 ≠ None → clear_padding c' = clear_padding c)) as (c'&Ec&H1&H2).
  { unfold kv. destruct l as [|[k v] l _] using rev_ind; [by exists c|]. rewrite last_snoc. cbn [default from_option fst snd]. unfold id.
    rewrite parse_all_app in E. destruct (parse_all pton junks 0 l (Config_default raw)) as [c0|] eqn:E0; [|done]. cbn [parse_all] in E.
    destruct (parse pton (junks (0 + length l)) k v c0) as [c1|] eqn:E1; [|done]. injection E as ->.
    eapply parse_again; [apply Hj|apply Hj|by apply (parse_all_sane 0 l (Config_default raw) c0 Hj)|exact E1]. }
  exists c'. fold kv. destruct kv as [k v] eqn:Ekv. cbn [fst snd] in *. cbn [parse_all]. rewrite Ec. split_and!; [done| |done|done].
  pose proof (parse_sets (junks (0 + length l)) l k v (Config_default raw) c c' (parse_all_sets l 0 _ _ E) Ec) as Hf.
  rewrite <-Ekv in Hf. by apply file_sets_again.
Qed.

(** The address and the port may come in either order: both give the same
    configuration, up to [sin_zero], whose address has the port of the file. *)
Theorem config_address_order ip port n c c1 c2 : (∀ i, length (junks i) = 16%nat) → pton ip ≠ None → sane c → stoi port = Value n →
  parse_all pton junks 0 [(txt "IP", ip); (txt "LISTEN_PORT", port)] c = Parsed c1 →
  parse_all pton junks 0 [(txt "LISTEN_PORT", port); (txt "IP", ip)] c = Parsed c2 →
  clear_padding c1 = clear_padding c2 ∧ m_listen_port c1 = u16 n ∧ Addr.get_port (m_addr c1) = u16 n.
Proof using pton_length.
  intros Hj Hip Hs Hn. destruct (pton ip) as [b|] eqn:Ep; [|done]. clear Hip.
  assert (∀ j c, parse pton j (txt "IP") ip c = Parsed (set_m_addr (set_ip_addr pton j ip (m_addr c)) (set_ip ip c))) as E1 by done.
  assert (∀ j c, parse pton j (txt "LISTEN_PORT") port c =
    with_int port (λ n, set_m_addr (set_sin_port (u16 n) (m_addr c)) (set_listen_port (u16 n) c))) as E2 by done.
  cbn [parse_all]. rewrite E1. cbn beta iota. rewrite !E2. unfold with_int. rewrite Hn. cbn beta iota. rewrite E1.
  cbn [m_addr set_m_addr set_ip set_listen_port]. intros [= <-] [= <-]. unfold sane in Hs. rewrite (ip_port_commute pton (junks 0) (Hj 0%nat) pton_length) by done.
  set (a := set_sin_port (u16 n) (m_addr c)). assert (length (a_u a) = 28%nat) as Ha by (unfold a, set_sin_port, with_u; cbn [a_u]; rewrite splice_length; [exact Hs|simpl; lia]).
  assert (slice 2 2 (a_u a) = be16 (u16 (u16 n))) as Hport.
  { unfold a, set_sin_port, with_u. cbn [a_u].
    apply list_eq. intros [|[|j]]; unfold slice; rewrite ?lookup_take_lt, ?lookup_drop, ?splice_lookup by (simpl; lia); try done.
    rewrite lookup_take_ge by lia. done. }
  clearbody a. split_and!; [|done|].
  - unfold clear_padding, set_m_addr, with_u. cbn [m_addr core m_use_rdma_ m_op_threads_num_ m_ip_addr m_listen_port m_request_size m_request_num m_cpu_id m_cr_role].
    rewrite !(clear_set_ip _ ip b) by done. by rewrite !(set_ip_addr_u pton _ (Hj _) pton_length) by done.
  - cbn [m_addr]. rewrite (set_ip_addr_u pton _ (Hj _) pton_length), Hport by done.
    unfold Addr.get_port, Addr.get_family. cbn [a_u m_addr set_m_addr].
    change (sa_family (le16 AF_INET ++ ?l) =? AF_INET) with true. cbn [orb].
    change (of_be16 2 (le16 AF_INET ++ be16 (u16 (u16 n)) ++ ?l)) with (256 * u8 (u16 (u16 n) / 256) + u8 (u16 (u16 n))).
    unfold u8, u16. pose proof (Z.mod_pos_bound n 65536). rewrite Z.mod_mod by lia.
    rewrite (Z.mod_small (n mod 65536 / 256)) by (split; [apply Z.div_pos; lia|apply Z.div_lt_upper_bound; lia]).
    pose proof (Z.div_mod (n mod 65536) 256). lia.
Qed.
End sets.

(** ** Witnesses: an [inet_pton] that knows one address; memory that holds
    something else at every reading *)

Definition no_address (val : list Z) : option (list Z) := None.
Definition one_address (val : list Z) : option (list Z) := if bool_decide (val = txt "10.0.0.1") then Some [10; 0; 0; 1] else None.
Definition demo_junks (i : nat) : list Z := replicate 16 (Z.of_nat i).
Definition raw0 : Config := mkCfg config0 false 0 [] 0 (mkAddr TYPE_ANY 9 zero_u (replicate 20 7)) 0 0 0 0.

Lemma one_address_length val ip : one_address val = Some ip → length ip = 4%nat.
Proof. unfold one_address. case_bool_decide; [by intros [= <-]|done]. Qed.

(** The last pair is an address: it is read with the third [sockaddr_in], and
    again with the fourth, whose bytes stay. *)
Lemma config_file_semantics_witness :
  ∃ c', load one_address demo_junks (txt "RDMA_CM true" ++ [10] ++ txt "GID_INDEX 259" ++ [10] ++ txt "IP 10.0.0.1" ++ [10]) raw0 = Ret (Parsed c') ∧
    m_gid_index_ (core c') = 3 ∧ m_use_rdma_cm_ (core c') = true ∧ slice 4 12 (a_u (m_addr c')) = [10; 0; 0; 1] ++ replicate 8 3.
Proof.
  pose proof (config_file_semantics one_address demo_junks one_address_length
    [(txt "RDMA_CM", txt "true"); (txt "GID_INDEX", txt "259"); (txt "IP", txt "10.0.0.1")] [] raw0 ltac:(done)) as H.
  specialize (H ltac:(repeat constructor; done) ltac:(constructor)). cbv zeta in H.
  match type of H with match ?x with _ => _ end => destruct x as [c|e] eqn:E end; [|by vm_compute in E].
  destruct H as (c'&Hl&[_ H2 _ _ _ _ _ _ _ _ H11 _ _ _ _]&_). exists c'. split; [exact Hl|]. rewrite H2, H11. split; [done|]. split; [done|].
  vm_compute in Hl. injection Hl as <-. done.
Defined.

Lemma config_address_order_witness :
  ∃ c, parse_all one_address demo_junks 0 [(txt "IP", txt "10.0.0.1"); (txt "LISTEN_PORT", txt "70000")] (Config_default raw0) = Parsed c ∧
    Addr.get_port (m_addr c) = 4464.
Proof.
  eexists. split; [by vm_compute|].
  eapply (config_address_order one_address demo_junks one_address_length (txt "10.0.0.1") (txt "70000") 70000 (Config_default raw0)); by vm_compute.
Defined.
