(* ===== verification/Clock.v ===== *)
(** * Clocks and spans (src/common/common_time.h and common_time.cc)

    A [timespan] and the time points of the clocks are counts of nanoseconds
    in a [uint64_t], a [signedspan] is one in an [int64_t]. The readings of the
    system clocks are arguments; conversions through [double] are in Cycles.v,
    and the text of a [float] is an argument. *)

From S2P Require Import Prelude State Machine Wire Text Utime.

Definition NS : Z := 1000000000.

(** Conversion to [int64_t] *)
Definition s64 (z : Z) : Z := let r := u64 z in if r <? 9223372036854775808 then r else r - 18446744073709551616.

(** [to_timeval] of a signed duration *)
Definition to_timeval (d : Z) : Z * Z := let sec := Z.quot d NS in (sec, Z.quot (d - sec * NS) 1000).

Module real_clock.

Definition zero : Z := 0.
Definition is_zero (t : Z) : bool := t =? zero.
(** The sum is made in [int64_t] nanoseconds, exact below 2^63. *)
Definition from_timespec (ts : Z * Z) : Z := u64 (ts.1 * NS + ts.2).
(** [now], given what [clock_gettime] stored *)
Definition now (ts : Z * Z) : Z := from_timespec ts.
Definition to_time_t (t : Z) : Z := s64 (t / NS).
Definition from_time_t (s : Z) : Z := u64 (s * NS).
Definition to_timespec (t : Z) : Z * Z := (to_time_t t, t mod NS).
Definition from_timeval (tv : Z * Z) : Z := u64 (tv.1 * NS + tv.2 * 1000).
Definition to_timeval (t : Z) : Z * Z := (to_time_t t, t mod NS / 1000).

End real_clock.

(** The coarse clock has the same members over another system clock. *)
Module coarse_real_clock.

Definition zero : Z := 0.
Definition is_zero (t : Z) : bool := t =? zero.
Definition from_timespec (ts : Z * Z) : Z := u64 (ts.1 * NS + ts.2).
Definition now (ts : Z * Z) : Z := from_timespec ts.
Definition to_time_t (t : Z) : Z := s64 (t / NS).
Definition from_time_t (s : Z) : Z := u64 (s * NS).
Definition to_timespec (t : Z) : Z * Z := (to_time_t t, t mod NS).
Definition from_timeval (tv : Z * Z) : Z := u64 (tv.1 * NS + tv.2 * 1000).
Definition to_timeval (t : Z) : Z * Z := (to_time_t t, t mod NS / 1000).

End coarse_real_clock.

Module mono_clock.
Definition now (ts : Z * Z) : Z := u64 (ts.1 * NS + ts.2).
Definition is_zero (t : Z) : bool := t =? 0.
Definition zero : Z := 0.
End mono_clock.

Module coarse_mono_clock.
Definition now (ts : Z * Z) : Z := u64 (ts.1 * NS + ts.2).
Definition is_zero (t : Z) : bool := t =? 0.
Definition zero : Z := 0.
End coarse_mono_clock.

(** ** Spans *)

(** [time_detail::difference], the [operator-] of the time points: the counts
    are converted to [int64_t] and subtracted there *)
Definition difference (minuend subtrahend : Z) : Z := s64 (s64 minuend - s64 subtrahend).

Definition floor (d precision : Z) : Z := u64 (d - d mod precision).
Definition ceil (d precision : Z) : Z :=
  let tmod := d mod precision in u64 (d - tmod + (if tmod >? 0 then 1 else 0) * precision).

Definition abs (z : Z) : Z := if z >? 0 then u64 z else u64 (- z).
Definition to_timespan (z : Z) : Z := u64 (if z <? 0 then 0 else z).

(** ** Text *)

Section text.
(** [float_text n d]: what [operator<<] prints for the [float] n / 10^9 + d *)
Context (float_text : Z → Z → list Z).

(** The unit [timespan_str] chooses: the count, the unit in nanoseconds and
    its letter; [None] below two seconds *)
Definition timespan_unit (nsec : Z) : option (Z * Z * list Z) :=
  if nsec <? 2000000000 then None else
  let sec := nsec / NS in
  if sec <? 120 then Some (sec, NS, txt "s") else
  let min := sec / 60 in
  if min <? 120 then Some (min, 60 * NS, txt "m") else
  let hr := min / 60 in
  if hr <? 48 then Some (hr, 3600 * NS, txt "h") else
  let day := hr / 24 in
  if day <? 14 then Some (day, 86400 * NS, txt "d") else
  let wk := day / 7 in
  if wk <? 12 then Some (wk, 604800 * NS, txt "w") else
  let mn := day / 30 in
  if mn <? 24 then Some (mn, 2592000 * NS, txt "M") else
  let yr := day / 365 in Some (yr, 31536000 * NS, txt "y").
Definition timespan_str (nsec : Z) : list Z :=
  match timespan_unit nsec with
  | Some (n, _, letter) => dec_u n ++ letter
  | None => float_text nsec 0 ++ txt "s"
  end.

(** One unit of [exact_timespan_str]: it is used from [least] on. *)
Definition take_unit (least unit_ : Z) (label : list Z) (p : list (Z * Z * list Z) * Z) : list (Z * Z * list Z) * Z :=
  let '(parts, sec) := p in
  let n := sec / unit_ in
  if n >=? least then (parts ++ [(n, unit_, label)], sec - n * unit_) else (parts, sec).
Definition exact_parts (sec : Z) : list (Z * Z * list Z) * Z :=
  take_unit 2 60 (txt "m") (take_unit 2 3600 (txt "h") (take_unit 2 86400 (txt "d") (take_unit 2 604800 (txt "w")
    (take_unit 3 2592000 (txt "mo") (take_unit 1 31536000 (txt "y") ([], sec)))))).
Definition print_parts (parts : list (Z * Z * list Z)) : list Z := parts ≫= λ '(n, _, label), dec_u n ++ label.
Definition exact_timespan_str (t : Z) : list Z :=
  let sec := t / NS in
  let nsec := t mod NS in
  let '(parts, sec) := exact_parts sec in
  print_parts parts ++
  (if (sec =? 0) && (nsec =? 0) then [] else
   if negb (nsec =? 0) then float_text nsec sec ++ txt "s" else dec_u sec ++ txt "s").

End text.

(** ** Reading an exact span back *)

Definition unit_of (l : list Z) : option (Z * list Z) :=
  match l with
  | [] => None
  | c :: l =>
    if c =? 121 then Some (31536000, l) else
    if c =? 109 then match l with o :: l' => if o =? 111 then Some (2592000, l') else Some (60, l) | [] => Some (60, []) end else
    if c =? 119 then Some (604800, l) else if c =? 100 then Some (86400, l) else if c =? 104 then Some (3600, l) else
    if c =? 115 then Some (1, l) else None
  end.
(** [n] bounds the parts. *)
Fixpoint read_span (n : nat) (l : list Z) : option Z :=
  match n, l with
  | _, [] => Some 0
  | O, _ => None
  | S n, _ => let '(v, l) := scan_dec 0 l in '(u, l) ← unit_of l; r ← read_span n l; Some (v * u + r)
  end.

Section theorems.

(** Time points and their two-part forms determine each other, on both real
    clocks, for every time a signed 64-bit count of nanoseconds can hold. *)
Theorem clock_round_trips t sec nsec :
  0 ≤ t < 9223372036854775808 → 0 ≤ sec → 0 ≤ nsec < NS → sec * NS + nsec < 9223372036854775808 →
  real_clock.from_timespec (real_clock.to_timespec t) = t ∧
  real_clock.to_timespec (real_clock.from_timespec (sec, nsec)) = (sec, nsec) ∧
  coarse_real_clock.from_timespec (coarse_real_clock.to_timespec t) = t ∧
  real_clock.to_timeval (real_clock.from_timeval (sec, nsec / 1000)) = (sec, nsec / 1000) ∧
  real_clock.to_time_t (real_clock.from_time_t sec) = sec.
Proof.
  intros Ht Hs Hn Hlt. unfold NS in *.
  assert (∀ x, 0 ≤ x < 18446744073709551616 → s64 (x / 1000000000) = x / 1000000000) as Hdiv.
  { intros x Hx. unfold s64, u64. rewrite Z.mod_small by (split; [apply Z.div_pos; lia|apply Z.div_lt_upper_bound; lia]).
    destruct (Z.ltb_spec (x / 1000000000) 9223372036854775808) as [|H]; [done|]. exfalso.
    assert (x / 1000000000 < 18446744074) by (apply Z.div_lt_upper_bound; lia). lia. }
  assert (∀ n, 0 ≤ n < 1000000000 → sec * 1000000000 + n < 18446744073709551616 →
    u64 (sec * 1000000000 + n) / 1000000000 = sec ∧ u64 (sec * 1000000000 + n) mod 1000000000 = n) as Hsplit.
  { intros n Hn' Hl. unfold u64. rewrite Z.mod_small by lia.
    split; [rewrite Z.div_add_l, Z.div_small by lia; lia|]. by rewrite Z.add_comm, Z.mod_add, Z.mod_small by lia. }
  assert (u64 (s64 (t / 1000000000) * 1000000000 + t mod 1000000000) = t) as Hback.
  { rewrite Hdiv by lia. pose proof (Z.div_mod t 1000000000). unfold u64. rewrite Z.mod_small; lia. }
  pose proof (Z.mod_pos_bound nsec 1000). pose proof (Z.div_mod nsec 1000).
  assert (0 ≤ nsec / 1000 * 1000 < 1000000000 ∧ sec * 1000000000 + nsec / 1000 * 1000 < 18446744073709551616) as [Hu1 Hu2] by lia.
  unfold real_clock.from_timespec, real_clock.to_timespec, coarse_real_clock.from_timespec, coarse_real_clock.to_timespec,
    real_clock.to_timeval, real_clock.from_timeval, real_clock.to_time_t, coarse_real_clock.to_time_t, real_clock.from_time_t, NS.
  cbn [fst snd]. destruct (Hsplit nsec Hn ltac:(lia)) as [E1 E2]. destruct (Hsplit _ Hu1 Hu2) as [E3 E4].
  destruct (Hsplit 0 ltac:(lia) ltac:(lia)) as [E5 _]. rewrite Z.add_0_r in E5.
  assert (∀ n, 0 ≤ u64 n < 18446744073709551616) as Hr by (intros n; unfold u64; apply Z.mod_pos_bound; lia).
  rewrite !Hdiv by (apply Hr || lia). rewrite E1, E2, E3, E4, E5, Z.div_mul by lia.
  split_and!; try done; rewrite Hdiv in Hback by lia; done.
Qed.

Lemma clock_round_trips_witness : real_clock.to_timespec (real_clock.from_timespec (1700000000, 123456789)) = (1700000000, 123456789).
Proof. apply (clock_round_trips 5 1700000000 123456789); by vm_compute. Defined.

(** *** Spans in text *)

Definition starts_number (l : list Z) : Prop := match l with c :: _ => is_digit c = true | [] => True end.
Definition part_ok (p : Z * Z * list Z) : Prop :=
  let '(n, u, label) := p in
  0 ≤ n < 10 ^ 20 ∧ (∀ rest, starts_number rest → unit_of (label ++ rest) = Some (u, rest)) ∧
  match label with c :: _ => is_digit c = false | [] => False end.
Definition total (parts : list (Z * Z * list Z)) : Z := Zsum ((λ p, p.1.1 * p.1.2) <$> parts).

(** What a conversion keeps: the seconds are split between the parts and the rest. *)
Definition split_of (sec : Z) (p : list (Z * Z * list Z) * Z) : Prop :=
  Forall part_ok p.1 ∧ total p.1 + p.2 = sec ∧ 0 ≤ p.2 < 10 ^ 20.

Lemma take_unit_split sec least u label p :
  0 < u → (∀ rest, starts_number rest → unit_of (label ++ rest) = Some (u, rest)) →
  match label with c :: _ => is_digit c = false | [] => False end →
  split_of sec p → split_of sec (take_unit least u label p).
Proof.
  destruct p as [parts r]. intros Hu Hl Hc (Hp&Ht&Hr). unfold take_unit. cbn [fst snd] in *.
  pose proof (Z.mod_pos_bound r u Hu). pose proof (Z.div_mod r u ltac:(lia)).
  assert (0 ≤ r / u) by (apply Z.div_pos; lia). assert (r / u ≤ r) by (apply Z.div_le_upper_bound; nia).
  unfold split_of. destruct (r / u >=? least); [|exact (conj Hp (conj Ht Hr))]. cbn [fst snd]. split_and!; try lia.
  - apply Forall_app. split; [done|]. constructor; [|done]. split_and!; try done; lia.
  - unfold total in *. rewrite fmap_app, Zsum_app. csimpl. lia.
Qed.

Lemma exact_parts_split sec : 0 ≤ sec < 10 ^ 20 → split_of sec (exact_parts sec).
Proof.
  intros Hs. unfold exact_parts.
  repeat (refine (take_unit_split _ _ _ _ _ _ _ _ _); [lia| |done|]); [..|unfold split_of, total; simpl; split_and!; (done || lia)].
  all: intros [|c rest] Hc; [done|try done]. cbn in *. destruct (Z.eqb_spec c 111) as [->|]; done.
Qed.

Lemma dec_u_starts n l : starts_number (dec_u n ++ l).
Proof.
  pose proof (dec_u_digits n) as Hd. pose proof (dec_u_nonempty n). destruct (dec_u n); [done|].
  by apply Forall_cons in Hd as [? _].
Qed.

Lemma read_part k n u label rest :
  part_ok (n, u, label) → starts_number rest →
  read_span (S k) (dec_u n ++ label ++ rest) = (r ← read_span k rest; Some (n * u + r)).
Proof.
  intros (Hn&Hl&Hc) Hrest.
  assert (scan_dec 0 (dec_u n ++ label ++ rest) = (n, label ++ rest)) as E.
  { rewrite scan_dec_app, dec_u_scan by (done || apply dec_u_digits). destruct label as [|c label]; [done|]. simpl. by rewrite Hc. }
  pose proof (dec_u_nonempty n). cbn [read_span]. destruct (dec_u n ++ label ++ rest) eqn:E2; [by destruct (dec_u n)|].
  rewrite E. by rewrite Hl by done.
Qed.

Lemma read_parts k parts rest :
  Forall part_ok parts → starts_number rest →
  read_span (length parts + k) (print_parts parts ++ rest) = (r ← read_span k rest; Some (total parts + r)).
Proof.
  intros Hp Hrest. induction Hp as [|[[n u] label] parts Hp1 _ IH].
  { change (length [] + k)%nat with k. change (print_parts [] ++ rest) with rest. by destruct (read_span k rest). }
  change (length ((n, u, label) :: parts) + k)%nat with (S (length parts + k)).
  change (print_parts ((n, u, label) :: parts)) with ((dec_u n ++ label) ++ print_parts parts).
  change (total ((n, u, label) :: parts)) with (n * u + total parts).
  rewrite <- !app_assoc. rewrite (read_part _ _ u); [|done|].
  - rewrite IH. destruct (read_span k rest) as [r|]; [|done]. cbn. f_equal. lia.
  - destruct parts as [|[[n2 u2] l2] parts]; [done|].
    change (print_parts ((n2, u2, l2) :: parts)) with ((dec_u n2 ++ l2) ++ print_parts parts).
    rewrite <- !app_assoc. apply dec_u_starts.
Qed.

(** The exact text of a whole number of seconds says that number: the years,
    months, weeks, days, hours, minutes and seconds it prints add up to it. *)
Theorem exact_timespan_round_trip float_text sec :
  0 ≤ sec → sec * NS < 18446744073709551616 →
  read_span 7 (exact_timespan_str float_text (sec * NS)) = Some sec.
Proof.
  intros H0 Hs. unfold NS in *. pose proof (exact_parts_split sec ltac:(lia)) as Hsplit.
  unfold exact_timespan_str, NS. rewrite Z.div_mul, Z.mod_mul by lia.
  assert (length (exact_parts sec).1 ≤ 6)%nat as Hlen.
  { unfold exact_parts, take_unit. repeat case_match; simplify_eq/=; lia. }
  destruct (exact_parts sec) as [parts r]. destruct Hsplit as (Hp&Ht&Hr). cbn [fst snd] in *.
  replace 7%nat with (length parts + (7 - length parts))%nat by lia.
  destruct (Z.eqb_spec r 0) as [->|Hne]; cbn [andb negb Z.eqb].
  - rewrite read_parts by done. destruct (7 - length parts)%nat; simpl; f_equal; lia.
  - rewrite read_parts by (done || apply dec_u_starts). destruct (7 - length parts)%nat as [|k] eqn:E; [lia|].
    pose proof (read_part k r 1 (txt "s") []) as Hlast. rewrite app_nil_r in Hlast. rewrite Hlast; [|split; [done|split; [intros [|c rest] Hc; done|done]]|done].
    destruct k; simpl; f_equal; lia.
Qed.

Lemma exact_timespan_witness : read_span 7 (exact_timespan_str (λ _ _, []) (34819384 * NS)) = Some 34819384.
Proof. apply exact_timespan_round_trip; by vm_compute. Defined.

(** The short text rounds down to its unit. *)
Theorem timespan_unit_bounds t n u letter :
  0 ≤ t → timespan_unit t = Some (n, u, letter) → 0 < n ∧ n * u ≤ t < (n + 1) * u.
Proof.
  intros H0. unfold timespan_unit, NS. rewrite !Z.div_div by lia. cbn [Z.mul Pos.mul].
  assert (∀ q d, 0 < d → 0 < q → q = t / d → 0 < q ∧ q * d ≤ t < (q + 1) * d) as Hgo.
  { intros q d Hd Hq ->. pose proof (Z.div_mod t d). pose proof (Z.mod_pos_bound t d). nia. }
  assert (∀ d m, 0 < d → m * d ≤ t → m ≤ t / d) as Hle by (intros d m ??; apply Z.div_le_lower_bound; lia).
  destruct (Z.ltb_spec t 2000000000); [done|].
  pose proof (Hle 1000000000 2). 
  repeat (case_match; [intros [= <- <- <-]; apply Hgo; [done| |done]; Z.div_mod_to_equations; lia|]).
  intros [= <- <- <-]. apply Hgo; [done| |done]. Z.div_mod_to_equations; lia.
Qed.

Lemma timespan_unit_witness : 0 < 3 ∧ 3 * (3600 * NS) ≤ 12345000000000 < (3 + 1) * (3600 * NS).
Proof. apply (timespan_unit_bounds 12345000000000 3 (3600 * NS) (txt "h")); by vm_compute. Defined.

(** Rounding to a precision *)
Theorem floor_ceil_spec d precision :
  0 ≤ d → 0 < precision → d + precision < 18446744073709551616 →
  floor d precision ≤ d ≤ ceil d precision ∧ ceil d precision - floor d precision ≤ precision ∧
  floor d precision mod precision = 0 ∧ ceil d precision mod precision = 0.
Proof.
  intros Hd Hp Hlt. pose proof (Z.mod_pos_bound d precision Hp). pose proof (Z.div_mod d precision ltac:(lia)) as Hdm.
  assert (0 ≤ d / precision) by (apply Z.div_pos; lia).
  unfold floor, ceil, u64. set (q := d / precision) in *. set (m := d mod precision) in *.
  rewrite (Z.mod_small (d - m)) by nia.
  destruct (Z.gtb_spec m 0); rewrite (Z.mod_small (d - m + _)) by nia; split_and!; try nia.
  - replace (d - m) with (q * precision) by lia. by apply Z.mod_mul; lia.
  - replace (d - m + 1 * precision) with ((q + 1) * precision) by lia. by apply Z.mod_mul; lia.
  - replace (d - m) with (q * precision) by lia. by apply Z.mod_mul; lia.
  - replace (d - m + 0 * precision) with (q * precision) by lia. by apply Z.mod_mul; lia.
Qed.

(** The difference of two time points of less than 2^63 is exact and signed. *)
Lemma difference_exact a b : 0 ≤ a < 9223372036854775808 → 0 ≤ b < 9223372036854775808 → difference a b = a - b.
Proof.
  intros Ha Hb. unfold difference, s64, u64. rewrite (Z.mod_small a), (Z.mod_small b) by lia.
  destruct (Z.ltb_spec a 9223372036854775808), (Z.ltb_spec b 9223372036854775808); try lia.
  destruct (decide (0 ≤ a - b)).
  - rewrite Z.mod_small by lia. destruct (Z.ltb_spec (a - b) 9223372036854775808); lia.
  - rewrite <- (Z.mod_add _ 1), Z.mod_small by lia. destruct (Z.ltb_spec (a - b + 1 * 18446744073709551616) 9223372036854775808); lia.
Qed.

End theorems.
