(* ===== verification/Statistic.v ===== *)
(** * Loggers (src/common/statistic.h)

    A [Logger] is a file stream, a term collects values and writes them to its
    logger. The templates are instantiated the way the program does: numeric
    terms over [uint64_t], container terms over a class of containers whose
    instance is [TimeRecords]. The locked variants, and the threads
    that share them, are in Locked.v.
    The text of a [double] and the order in which an [unordered_map] is
    traversed are parameters. *)

From S2P Require Import Prelude State Machine Wire Text.

(** ** The file behind a logger *)

(** The files written so far, and the stream *)
Record Logger := mkLogger { m_logger_name : list Z; m_is_open : bool; m_files : gmap (list Z) (list Z) }.

Section logger.
(** Whether [open] succeeds on a name *)
Context (openable : list Z → bool).

Definition AssureOpen (l : Logger) : Logger :=
  if m_is_open l then l else
  if openable (m_logger_name l) then mkLogger (m_logger_name l) true (<[m_logger_name l := []]> (m_files l)) else l.
Definition SetLoggerName (name : list Z) (l : Logger) : Logger := AssureOpen (mkLogger name false (m_files l)).
(** [m_output << text]: a stream that is not open drops it. *)
Definition put (text : list Z) (l : Logger) : Logger :=
  if m_is_open l then mkLogger (m_logger_name l) true (<[m_logger_name l := default [] (m_files l !! m_logger_name l) ++ text]> (m_files l))
  else l.
Definition logged (l : Logger) : list Z := default [] (m_files l !! m_logger_name l).
End logger.

(** ** Numeric terms *)

Module NumericLoggerTerm.
Record t := mk { m_sum : Z; m_name : list Z }.
Definition create (name : list Z) : t := mk 0 name.
Definition should_flush (n : t) : bool := false.
Definition flush (n : t) (l : Logger) : Logger := put [10] (put (m_name n ++ [9] ++ dec_u (m_sum n) ++ [10]) l).
Definition Add (value : Z) (n : t) (l : Logger) : t * Logger :=
  let n := mk (u64 (m_sum n + value)) (m_name n) in
  let l := if should_flush n then flush n l else l in
  (mk 0 (m_name n), l).
End NumericLoggerTerm.

Module AverageLoggerTerm.
Record t := mk { m_name : list Z; m_record_frequency : Z; m_index : Z; m_sum : Z }.
Definition create (name : list Z) (max_record : Z) : t := mk name max_record 0 0.
Definition line (name : list Z) (mean : Z) : list Z := name ++ [9] ++ dec_u mean ++ [10].
Definition Add (value : Z) (a : t) (l : Logger) : outcome (t * Logger) :=
  let sum := u64 (m_sum a + value) in
  let index := u32 (m_index a + 1) in
  if index =? m_record_frequency a then
    if index =? 0 then Crash Undefined
    else Ret (mk (m_name a) (m_record_frequency a) 0 0, put (line (m_name a) (sum / index)) l)
  else Ret (mk (m_name a) (m_record_frequency a) index sum, l).
End AverageLoggerTerm.

Module TimeAverageLoggerTerm.
Record t := mk { m_name : list Z; m_record_duration : Z; m_sum : Z; last_cycle : Z }.
(** [last_cycle] is not initialised. *)
Definition create (name : list Z) (record_duration garbage : Z) : t := mk name record_duration 0 garbage.
Definition SetLoggerInterval (value : Z) (a : t) : t := mk (m_name a) value (m_sum a) (last_cycle a).
Definition Add (value : Z) (a : t) : t := mk (m_name a) (m_record_duration a) (u64 (m_sum a + value)) (last_cycle a).
Section output.
(** What is printed for a sum over a number of cycles *)
Context (rate_text : Z → Z → list Z).
(** One round of the loop of [DoOutput], with the reading [now] *)
Definition DoOutput_round (now : Z) (a : t) (l : Logger) : t * Logger :=
  (mk (m_name a) (m_record_duration a) 0 now,
   put (m_name a ++ [9] ++ rate_text (m_sum a) (u64 (now - last_cycle a)) ++ [10]) l).
Definition DoOutput_start (openable : list Z → bool) (l : Logger) : Logger := AssureOpen openable l.
End output.
End TimeAverageLoggerTerm.

(** ** Container terms *)

(** What a container term asks of its container *)
Class Container (C T : Type) := {
  c_new : C;
  c_push : T → C → outcome C;
  c_resize : Z → C → C;
  c_size : C → Z;
  c_clear : C → C;
  c_show : C → list Z;
}.

Module OriginalLoggerTerm.
Section term.
Context {C T} `{Container C T}.

Record t := mk { m_sum : C; m_name : list Z; max_flushtime : Z }.
Definition create (name : list Z) (max_size : Z) : t := mk (c_resize max_size c_new) name (u32 (max_size / 2)).
Definition SetFlushTime (flush_time : Z) (o : t) : t := mk (m_sum o) (m_name o) flush_time.
Definition should_flush (o : t) : bool := max_flushtime o =? c_size (m_sum o).
Definition flush (o : t) (l : Logger) : t * Logger :=
  (mk (c_clear (m_sum o)) (m_name o) (max_flushtime o), put (c_show (m_sum o) ++ [10]) l).
Definition Add (value : T) (o : t) (l : Logger) : outcome (t * Logger) :=
  c ← c_push value (m_sum o);
  let o := mk c (m_name o) (max_flushtime o) in
  if should_flush o then Ret (flush o l) else Ret (o, l).
Definition Flush (o : t) (l : Logger) : t * Logger := flush o l.

(** A sequence of calls of [Add] *)
Fixpoint Adds (values : list T) (o : t) (l : Logger) : outcome (t * Logger) :=
  match values with
  | [] => Ret (o, l)
  | v :: values => '(o, l) ← Add v o l; Adds values o l
  end.
End term.
Arguments t : clear implicits.
End OriginalLoggerTerm.

(** ** Time records *)

Record TimeRecordTerm := mkTerm { id_ : Z; index_ : Z; timestamp_ : Z }.
Abbreviation TimeRecords := (gmap Z (list Z)).

Module Records.
(** [records[id][index] = timestamp]: the vector has five elements. *)
Definition push_back (term : TimeRecordTerm) (r : TimeRecords) : outcome TimeRecords :=
  let v := default (replicate 5 0) (r !! id_ term) in
  if (0 <=? index_ term) && (index_ term <? Z.of_nat (length v))
  then Ret (<[id_ term := <[Z.to_nat (index_ term) := timestamp_ term]> v]> r)
  else Crash Undefined.
Definition resize (n : Z) (r : TimeRecords) : TimeRecords := r.
Definition size (r : TimeRecords) : Z := Z.of_nat (stdpp.base.size r).
Definition clear (r : TimeRecords) : TimeRecords := ∅.

Definition show_record (rec : Z * list Z) : list Z :=
  txt "id: " ++ dec_u rec.1 ++ txt " timestamps:" ++ (rec.2 ≫= λ x, 32 :: dec_u x).
(** [operator<<] of one record ends the line. *)
Definition show_pair (rec : Z * list Z) : list Z := show_record rec ++ [10].

(** The latency of a record, and the two sums of [operator<<] of the records *)
Definition latency (v : list Z) : Z := u64 (default 0 (v !! 3%nat) - default 0 (v !! 1%nat)).
Definition counted (lat : Z) : bool := (lat >? 0) && (lat <? 10000).
Definition sums (recs : list (Z * list Z)) : Z * Z :=
  foldl (λ s rec, let lat := latency rec.2 in if counted lat then (s.1 + lat, u32 (s.2 + 1)) else s) (0, 0) recs.

Section show.
(** The traversal of the map, and the text of the quotient of the sums *)
Context (order : TimeRecords → list (Z * list Z)) (average_text : Z → Z → list Z).
Definition show (r : TimeRecords) : list Z :=
  (order r ≫= show_pair) ++ txt "average compeletion latency: " ++
  average_text (sums (order r)).1 (sums (order r)).2 ++ [10; 10].
#[global] Instance records_container : Container TimeRecords TimeRecordTerm :=
  {| c_new := ∅; c_push := push_back; c_resize := resize; c_size := size; c_clear := clear; c_show := show |}.
End show.
End Records.

(** ** What reaches the file *)

Definition puts (texts : list (list Z)) (l : Logger) : Logger := foldl (λ l text, put text l) l texts.

Lemma puts_logged texts l : m_is_open l = true → logged (puts texts l) = logged l ++ concat texts ∧ m_is_open (puts texts l) = true.
Proof.
  revert l. induction texts as [|x texts IH]; intros l Hl; simpl; [by rewrite app_nil_r|].
  destruct (IH (put x l)) as [E ?]; [unfold put; by rewrite Hl|]. split; [|done]. rewrite E.
  unfold put, logged. rewrite Hl. cbn [m_files m_logger_name]. rewrite lookup_insert_eq. cbn. by rewrite app_assoc.
Qed.

Lemma puts_closed texts l : m_is_open l = false → puts texts l = l.
Proof. intros Hl. induction texts as [|x texts IH]; simpl; [done|]. unfold put. by rewrite Hl. Qed.

Section average.
Import AverageLoggerTerm.

Fixpoint Averages (values : list Z) (a : t) (l : Logger) : outcome (t * Logger) :=
  match values with [] => Ret (a, l) | v :: values => '(a, l) ← Add v a l; Averages values a l end.

Lemma Averages_app vs ws a l : Averages (vs ++ ws) a l = ('(a, l) ← Averages vs a l; Averages ws a l).
Proof. revert a l. induction vs as [|v vs IH]; intros a l; simpl; [done|]. destruct (Add v a l) as [[a' l']|]; [|done]. simpl. apply IH. Qed.

Lemma Averages_short name r vs i s l :
  0 ≤ i → i + Z.of_nat (length vs) < r → r < 4294967296 →
  Averages vs (mk name r i (u64 s)) l = Ret (mk name r (i + Z.of_nat (length vs)) (u64 (s + Zsum vs)), l).
Proof.
  revert i s. induction vs as [|v vs IH]; intros i s Hi Hlt Hr; simpl in *; [do 3 f_equal; f_equal; lia|].
  unfold Add. cbn [m_index m_sum m_record_frequency m_name]. rewrite u32_small by (unfold is_u32; lia).
  destruct (Z.eqb_spec (i + 1) r); [lia|]. cbn -[u64]. rewrite u64_add_l.
  rewrite IH by lia. do 3 f_equal; [lia|]. f_equal. lia.
Qed.

Lemma Averages_block name r vs l :
  Z.of_nat (length vs) = r → 0 < r < 4294967296 →
  Averages vs (mk name r 0 0) l = Ret (mk name r 0 0, put (line name (u64 (Zsum vs) / r)) l).
Proof.
  intros Hlen Hr. destruct vs as [|v vs _] using rev_ind; [simpl in Hlen; lia|]. rewrite length_app in Hlen. simpl in Hlen.
  rewrite Averages_app. change 0 with (u64 0) at 2. rewrite Averages_short by lia. cbn -[u64 u32 Zsum]. unfold Add.
  cbn [m_index m_sum m_record_frequency m_name]. rewrite u32_small by (unfold is_u32; lia).
  replace (0 + Z.of_nat (length vs) + 1) with r by lia. rewrite Z.eqb_refl. destruct (Z.eqb_spec r 0); [lia|]. cbn -[u64].
  rewrite u64_add_l, Zsum_app. cbn [Zsum foldr]. replace (0 + Zsum vs + v) with (Zsum vs + (v + 0)) by lia. done.
Qed.

(** A term that averages [r] values writes, for every [r] values it is given,
    one line with their mean, and keeps the sum and the number of the values
    after the last full block. *)
Theorem average_blocks name r (blocks : list (list Z)) rest l :
  0 < r < 4294967296 → Forall (λ b, Z.of_nat (length b) = r) blocks → Z.of_nat (length rest) < r →
  Averages (concat blocks ++ rest) (create name r) l =
    Ret (mk name r (Z.of_nat (length rest)) (u64 (Zsum rest)), puts ((λ b, line name (u64 (Zsum b) / r)) <$> blocks) l).
Proof.
  intros Hr Hb Hrest. unfold create. revert l. induction Hb as [|b blocks Hlen _ IH]; intros l; simpl.
  - change 0 with (u64 0) at 2. by rewrite Averages_short by lia.
  - rewrite <- app_assoc, Averages_app, Averages_block by done. cbn. apply IH.
Qed.

Lemma average_blocks_witness : ∃ a,
  Averages [10; 20; 30; 7] (create (txt "lat") 3) (SetLoggerName (λ _, true) (txt "f") (mkLogger [] false ∅)) =
    Ret (a, mkLogger (txt "f") true {[ txt "f" := txt "lat" ++ [9] ++ txt "20" ++ [10] ]}) ∧ m_sum a = 7.
Proof.
  eexists. split; [|shelve].
  pose proof (average_blocks (txt "lat") 3 [[10; 20; 30]] [7] (SetLoggerName (λ _, true) (txt "f") (mkLogger [] false ∅))
    ltac:(lia) ltac:(by repeat constructor) ltac:(done)) as H. cbn [concat app] in H. rewrite H. by vm_compute. Unshelve. done.
Defined.

End average.

(** ** Epochs of time records *)

Section epochs.
Import OriginalLoggerTerm.
Context (order : TimeRecords → list (Z * list Z)) (average_text : Z → Z → list Z).
#[local] Abbreviation show := (Records.show order average_text).
#[local] Instance the_container : Container TimeRecords TimeRecordTerm := Records.records_container order average_text.

Definition vector_of (r : gmap Z (list Z)) (id : Z) : list Z := default (replicate 5 0) (r !! id).
Definition store (r : gmap Z (list Z)) (term : TimeRecordTerm) : gmap Z (list Z) :=
  <[id_ term := <[Z.to_nat (index_ term) := timestamp_ term]> (vector_of r (id_ term))]> r.
(** The map that a sequence of terms makes *)
Definition group (terms : list TimeRecordTerm) : gmap Z (list Z) := foldl store ∅ terms.

Definition term_ok (t : TimeRecordTerm) : Prop := 0 ≤ index_ t < 5.
Definition five (r : gmap Z (list Z)) : Prop := map_Forall (λ _ v, length v = 5%nat) r.

Lemma store_five r t : five r → five (store r t).
Proof.
  intros Hr. apply map_Forall_insert_2; [|done]. rewrite length_insert. unfold vector_of.
  destruct (r !! id_ t) eqn:E; [by eapply Hr|done].
Qed.
Lemma group_snoc ts t : group (ts ++ [t]) = store (group ts) t.
Proof. unfold group. by rewrite foldl_app. Qed.
Lemma group_five ts : five (group ts).
Proof. induction ts as [|t ts IH] using rev_ind; [apply map_Forall_empty|]. rewrite group_snoc. by apply store_five. Qed.

Lemma push_store r t : five r → term_ok t → Records.push_back t r = Ret (store r t).
Proof.
  intros Hr [H1 H2]. unfold Records.push_back. fold (vector_of r (id_ t)).
  assert (length (vector_of r (id_ t)) = 5%nat) as ->.
  { unfold vector_of. destruct (r !! id_ t) eqn:E; [by eapply Hr|done]. }
  destruct (Z.leb_spec 0 (index_ t)), (Z.ltb_spec (index_ t) (Z.of_nat 5)); [done|lia..].
Qed.

Lemma store_size r t : size (store r t) = size r ∨ size (store r t) = S (size r).
Proof.
  unfold store. destruct (r !! id_ t) eqn:E; [left; eapply map_size_insert_Some|right; by apply map_size_insert_None]. done.
Qed.

Lemma group_nil : size (group []) = 0%nat.
Proof. done. Qed.

(** A term made for [2 * k] records divides the time stamps it is given
    into runs with [k] different requests each: every full run is written out
    as the map of its stamps, and what is kept is the map of the stamps after
    the last flush, with fewer than [k] requests. *)
Theorem records_in_epochs name max_size k terms l :
  max_size / 2 = k → 0 < k < 4294967296 → Forall term_ok terms →
  ∃ epochs rest, terms = concat epochs ++ rest ∧
    Forall (λ e, Z.of_nat (size (group e)) = k) epochs ∧ Z.of_nat (size (group rest)) < k ∧
    Adds terms (create name max_size) l =
      Ret (mk (group rest) name k, puts ((λ e, show (group e) ++ [10]) <$> epochs) l).
Proof.
  intros Hm Hk Hok.
  assert (create name max_size = mk (group []) name k) as ->.
  { unfold create. rewrite Hm, u32_small by (unfold is_u32; lia). done. }
  assert (∀ pre, Z.of_nat (size (group pre)) < k → ∃ epochs rest, pre ++ terms = concat epochs ++ rest ∧
    Forall (λ e, Z.of_nat (size (group e)) = k) epochs ∧ Z.of_nat (size (group rest)) < k ∧
    Adds terms (mk (group pre) name k) l = Ret (mk (group rest) name k, puts ((λ e, show (group e) ++ [10]) <$> epochs) l)) as Hgen.
  2: { apply (Hgen []). rewrite group_nil. lia. }
  revert l. induction Hok as [|t terms Ht _ IH]; intros l pre Hpre.
  { exists [], pre. by rewrite app_nil_r. }
  assert (Adds (t :: terms) (mk (group pre) name k) l =
    ('(o, l) ← (if k =? Z.of_nat (size (group (pre ++ [t]))) then Ret (flush (mk (group (pre ++ [t])) name k) l)
       else Ret (mk (group (pre ++ [t])) name k, l)); Adds terms o l)) as ->.
  { cbn [Adds]. unfold Add. cbn [m_sum m_name max_flushtime]. change (c_push t (group pre)) with (Records.push_back t (group pre)).
    rewrite push_store by (done || apply group_five). rewrite <- group_snoc. done. }
  destruct (Z.eqb_spec k (Z.of_nat (size (group (pre ++ [t]))))) as [Heq|Hne].
  - destruct (IH (put (show (group (pre ++ [t])) ++ [10]) l) []) as (epochs&rest&E&He&Hr&Hrun).
    { rewrite group_nil. lia. }
    exists ((pre ++ [t]) :: epochs), rest. split_and!; [|by constructor|done|exact Hrun].
    simpl in *. rewrite <- !app_assoc. simpl. by rewrite E.
  - destruct (IH l (pre ++ [t])) as (epochs&rest&E&He&Hr&Hrun).
    { destruct (store_size (group pre) t) as [E|E]; rewrite <- group_snoc in E; lia. }
    exists epochs, rest. rewrite <- app_assoc in E. done.
Qed.

End epochs.

(** The map of a sequence has its requests, and each slot holds the last stamp
    given for it. *)
Lemma group_dom ts : dom (group ts) = list_to_set (id_ <$> ts) :> gset Z.
Proof.
  induction ts as [|t ts IH] using rev_ind; [by apply dom_empty_L|].
  rewrite group_snoc, fmap_app, list_to_set_app_L. unfold store.
  rewrite (dom_insert_L (M := gmap Z) (D := gset Z)), IH. set_solver.
Qed.

Definition last_stamp (id i : Z) (ts : list TimeRecordTerm) : Z :=
  foldl (λ x t, if (id_ t =? id) && (index_ t =? i) then timestamp_ t else x) 0 ts.

Lemma group_slot id i ts :
  Forall term_ok ts → 0 ≤ i < 5 → vector_of (group ts) id !! Z.to_nat i = Some (last_stamp id i ts).
Proof.
  intros Hok Hi. induction ts as [|t ts IH] using rev_ind.
  { unfold last_stamp, vector_of, group. cbn [foldl]. rewrite lookup_empty. apply lookup_replicate. split; [done|lia]. }
  apply Forall_app in Hok as [Hok Ht]. apply Forall_cons in Ht as [Ht _]. specialize (IH Hok).
  unfold last_stamp. rewrite foldl_app. cbn [foldl]. fold (last_stamp id i ts). rewrite group_snoc. unfold store, vector_of at 1.
  unfold term_ok in Ht. destruct (Z.eqb_spec (id_ t) id) as [->|Hne].
  - rewrite lookup_insert_eq. cbn [default andb Datatypes.id from_option]. unfold Datatypes.id. destruct (Z.eqb_spec (index_ t) i) as [->|Hi'].
    + apply list_lookup_insert_eq. by apply lookup_lt_Some in IH.
    + rewrite list_lookup_insert_ne by lia. done.
  - rewrite lookup_insert_ne by done. done.
Qed.

Lemma records_in_epochs_witness :
  ∃ epochs rest, [mkTerm 1 1 100; mkTerm 2 1 200; mkTerm 1 3 150; mkTerm 3 1 300] = concat epochs ++ rest ∧
    Forall (λ e, Z.of_nat (size (group e)) = 2) epochs ∧ Z.of_nat (size (group rest)) < 2.
Proof.
  destruct (records_in_epochs map_to_list (λ _ _, []) (txt "r") 5 2 [mkTerm 1 1 100; mkTerm 2 1 200; mkTerm 1 3 150; mkTerm 3 1 300] (mkLogger [] false ∅))
    as (epochs&rest&E&He&Hr&_); [done|lia|by repeat constructor|by exists epochs, rest].
Defined.

(** ** The average *)

Definition latencies (recs : list (Z * list Z)) : list Z := filter (λ x, Records.counted x = true) ((λ rec, Records.latency rec.2) <$> recs).

Lemma sums_spec recs : Records.sums recs = (Zsum (latencies recs), u32 (Z.of_nat (length (latencies recs)))).
Proof.
  induction recs as [|rec recs IH] using rev_ind; [done|]. unfold Records.sums in *. rewrite foldl_app. cbn [foldl]. rewrite IH.
  unfold latencies. rewrite fmap_app, filter_app. cbn [fmap list_fmap]. rewrite filter_cons, filter_nil.
  destruct (decide (Records.counted (Records.latency rec.2) = true)) as [E|E].
  - rewrite E. cbn [fst snd]. rewrite Zsum_app, length_app, u32_add_l. f_equal; [simpl; lia|f_equal; simpl; lia].
  - apply not_true_is_false in E. rewrite E. by rewrite app_nil_r.
Qed.

(** The average that is printed does not depend on the order in which the
    hash table is traversed. *)
Lemma sums_order (order : TimeRecords → list (Z * list Z)) r :
  order r ≡ₚ map_to_list r → Records.sums (order r) = Records.sums (map_to_list r).
Proof.
  intros Hp. rewrite !sums_spec.
  assert (latencies (order r) ≡ₚ latencies (map_to_list r)) as Hl by (unfold latencies; by rewrite Hp).
  by rewrite Hl.
Qed.

(** A request whose completion was stamped after a flush is printed twice and
    counted in neither average, for time stamps from ten milliseconds on. *)
Lemma split_record_not_counted stamp :
  10000 ≤ stamp → stamp ≤ 18446744073709541616 →
  Records.counted (Records.latency [0; stamp; 0; 0; 0]) = false ∧ Records.counted (Records.latency [0; 0; 0; stamp; 0]) = false.
Proof.
  intros H1 H2. unfold Records.latency, Records.counted. cbn [lookup list_lookup default]. unfold Datatypes.id.
  split; [replace (u64 (0 - stamp)) with (18446744073709551616 - stamp)|rewrite u64_small by (unfold is_u64; lia)].
  2: { unfold u64. rewrite <- (Z.mod_add _ 1), Z.mod_small by lia. lia. }
  all: apply andb_false_iff; right; apply Z.ltb_ge; lia.
Qed.

(** A logger that was never given a name is not open, and what is written to it is lost. *)
Lemma unnamed_logger_loses name max_record values a l :
  Averages values (AverageLoggerTerm.create name max_record) (mkLogger [] false ∅) = Ret (a, l) → l = mkLogger [] false ∅.
Proof.
  generalize (AverageLoggerTerm.create name max_record) as b. induction values as [|v vs IH]; intros b; simpl; [by intros [= _ <-]|].
  unfold AverageLoggerTerm.Add. repeat case_match; simpl; (done || apply IH).
Qed.
