(* ===== verification/Calendar.v ===== *)
(** * Time values as text (src/common/common_time.h, common_time.cc)

    [utime_t] prints values of less than ten years as seconds and later ones
    as dates. [gmtime_r] is the proleptic Gregorian calendar; the local zone,
    [localtime_r] with [mktime], is a parameter. *)

From S2P Require Import Prelude State Machine Wire Text Utime Clock.

(** ** Broken-down time *)

Record tm := mkTm { tm_year : Z; tm_mon : Z; tm_mday : Z; tm_hour : Z; tm_min : Z; tm_sec : Z; tm_wday : Z }.

(** Year, month and day of a number of days since 1970, by eras of 400 years
    that begin in March *)
Definition civil (days : Z) : Z * Z * Z :=
  let z := days + 719468 in
  let era := z / 146097 in
  let doe := z mod 146097 in
  let yoe := (doe - doe / 1460 + doe / 36524 - doe / 146096) / 365 in
  let doy := doe - (365 * yoe + yoe / 4 - yoe / 100) in
  let mp := (5 * doy + 2) / 153 in
  let m := if mp <? 10 then mp + 3 else mp - 9 in
  (yoe + era * 400 + (if m <=? 2 then 1 else 0), m, doy - (153 * mp + 2) / 5 + 1).
Definition days_of (y m d : Z) : Z :=
  let y := if m <=? 2 then y - 1 else y in
  let era := y / 400 in
  let yoe := y mod 400 in
  let doy := (153 * (if m >? 2 then m - 3 else m + 9) + 2) / 5 + d - 1 in
  era * 146097 + (yoe * 365 + yoe / 4 - yoe / 100 + doy) - 719468.

Definition gmtime_r (tt : Z) : tm :=
  let days := tt / 86400 in
  let s := tt mod 86400 in
  let '(y, m, d) := civil days in
  mkTm (y - 1900) (m - 1) d (s / 3600) (s mod 3600 / 60) (s mod 60) ((days + 4) mod 7).
Definition timegm (t : tm) : Z :=
  days_of (tm_year t + 1900) (tm_mon t + 1) (tm_mday t) * 86400 + tm_hour t * 3600 + tm_min t * 60 + tm_sec t.

(** ** Text *)

Definition ten_years : Z := 60 * 60 * 24 * 365 * 10.
Definition raw_seconds (u : utime.t) : list Z := dec_s (utime.sec u) ++ txt "." ++ setw 6 (utime.usec u).
Definition show_date (t : tm) : list Z := setw 4 (tm_year t + 1900) ++ txt "-" ++ setw 2 (tm_mon t + 1) ++ txt "-" ++ setw 2 (tm_mday t).
Definition show_clock (t : tm) : list Z := setw 2 (tm_hour t) ++ txt ":" ++ setw 2 (tm_min t) ++ txt ":" ++ setw 2 (tm_sec t).

Module utime_text.

Definition gmtime (legacy_form : bool) (u : utime.t) : list Z :=
  if utime.sec u <? ten_years then raw_seconds u else
  let bdt := gmtime_r (utime.sec u) in
  show_date bdt ++ (if legacy_form then txt " " else txt "T") ++ show_clock bdt ++ txt "." ++ setw 6 (utime.usec u) ++ txt "Z".

Definition gmtime_nsec (u : utime.t) : list Z :=
  if utime.sec u <? ten_years then raw_seconds u else
  let bdt := gmtime_r (utime.sec u) in
  show_date bdt ++ txt "T" ++ show_clock bdt ++ txt "." ++ setw 9 (utime.nsec u) ++ txt "Z".

Definition wday_name (n : Z) : list Z :=
  match n with 0 => txt "Sun" | 1 => txt "Mon" | 2 => txt "Tue" | 3 => txt "Wed" | 4 => txt "Thu" | 5 => txt "Fri" | _ => txt "Sat" end.
Definition mon_name (n : Z) : list Z :=
  match n with
  | 0 => txt "Jan" | 1 => txt "Feb" | 2 => txt "Mar" | 3 => txt "Apr" | 4 => txt "May" | 5 => txt "Jun"
  | 6 => txt "Jul" | 7 => txt "Aug" | 8 => txt "Sep" | 9 => txt "Oct" | 10 => txt "Nov" | _ => txt "Dec"
  end.
Definition blank_pad (k : nat) (n : Z) : list Z := replicate (k - length (dec_u n)) 32 ++ dec_u n.
(** [asctime_r] *)
Definition asctime_r (t : tm) : list Z :=
  wday_name (tm_wday t) ++ txt " " ++ mon_name (tm_mon t) ++ blank_pad 3 (tm_mday t) ++ txt " " ++ show_clock t ++ txt " " ++
  dec_u (tm_year t + 1900) ++ [10].
Definition drop_newline (buf : list Z) : list Z :=
  match last buf with Some c => if c =? 10 then take (length buf - 1) buf else buf | None => buf end.
Definition asctime (u : utime.t) : list Z :=
  if utime.sec u <? ten_years then raw_seconds u else drop_newline (asctime_r (gmtime_r (utime.sec u))).

Section local.
(** The local zone: [localtime_r] with the text of [%z], and [mktime] *)
Context (localtime_r : Z → tm) (zone_text : Z → list Z) (mktime : tm → Z).

Definition localtime (legacy_form : bool) (u : utime.t) : list Z :=
  if utime.sec u <? ten_years then raw_seconds u else
  let bdt := localtime_r (utime.sec u) in
  show_date bdt ++ (if legacy_form then txt " " else txt "T") ++ show_clock bdt ++ txt "." ++ setw 6 (utime.usec u) ++
  (if legacy_form then [] else zone_text (utime.sec u)).

(** [operator<<] of a time point of a clock that is not steady *)
Definition show_time_point (t : Z) : list Z :=
  let tt := real_clock.to_time_t t in
  let bdt := localtime_r tt in
  show_date bdt ++ txt "T" ++ show_clock bdt ++ txt "." ++ setw 6 (t mod NS / 1000) ++ zone_text tt.

Definition at_clock (h m : Z) (t : tm) : tm := mkTm (tm_year t) (tm_mon t) (tm_mday t) h m 0 (tm_wday t).
Definition round_to_minute (u : utime.t) : utime.t :=
  let bdt := localtime_r (utime.sec u) in utime.make (mktime (at_clock (tm_hour bdt) (tm_min bdt) bdt)) 0.
Definition round_to_hour (u : utime.t) : utime.t :=
  let bdt := localtime_r (utime.sec u) in utime.make (mktime (at_clock (tm_hour bdt) 0 bdt)) 0.
Definition round_to_day (u : utime.t) : utime.t :=
  let bdt := localtime_r (utime.sec u) in utime.make (mktime (at_clock 0 0 bdt)) 0.
End local.

(** The conversions to and from the clocks *)
Definition of_time_point (t : Z) : utime.t := let '(s, n) := real_clock.to_timespec t in utime.of_timespec s n.
Definition to_real_time (u : utime.t) : Z := real_clock.from_timespec (utime.to_timespec u).

End utime_text.

(** ** Reading a text back: the seconds and the fraction as printed *)

Definition read_date (y : Z) (sep_c : Z) (l : list Z) : option (Z * Z) :=
  l ← sep 45 l; let '(m, l) := scan_dec 0 l in
  l ← sep 45 l; let '(d, l) := scan_dec 0 l in
  l ← sep sep_c l; let '(h, l) := scan_dec 0 l in
  l ← sep 58 l; let '(mi, l) := scan_dec 0 l in
  l ← sep 58 l; let '(s, l) := scan_dec 0 l in
  l ← sep 46 l; let '(f, l) := scan_dec 0 l in
  l ← sep 90 l;
  Some (timegm (mkTm (y - 1900) (m - 1) d h mi s 0), f).
Definition read_time (sep_c : Z) (l : list Z) : option (Z * Z) :=
  let '(a, l) := scan_dec 0 l in
  match l with
  | c :: l' => if c =? 46 then Some (a, (scan_dec 0 l').1) else read_date a sep_c l
  | [] => None
  end.

Example gmtime_example :
  utime_text.gmtime false (utime.mk 1700000000 1234000) = txt "2023-11-14T22:13:20.001234Z" ∧
  utime_text.asctime (utime.mk 1709251200 0) = txt "Fri Mar  1 00:00:00 2024".
Proof. by vm_compute. Qed.

(** ** The calendar *)

Example civil_examples :
  civil 0 = (1970, 1, 1) ∧ civil 11016 = (2000, 2, 29) ∧ civil 11017 = (2000, 3, 1) ∧ civil 11322 = (2000, 12, 31) ∧
  civil 47540 = (2100, 2, 28) ∧ civil 47541 = (2100, 3, 1) ∧ civil 49710 = (2106, 2, 7).
Proof. by vm_compute. Qed.

Definition year_start (yoe : Z) : Z := 365 * yoe + yoe / 4 - yoe / 100.
Definition year_of (doe : Z) : Z := (doe - doe / 1460 + doe / 36524 - doe / 146096) / 365.
Definition year_end (yoe : Z) : Z := if yoe =? 399 then 146096 else year_start (yoe + 1) - 1.

Lemma year_of_mono a b : 0 ≤ a ≤ b → year_of a ≤ year_of b.
Proof.
  intros H. unfold year_of. apply Z.div_le_mono; [lia|].
  assert (∀ x, x / 146096 = x / 36524 / 4) as E by (intros x; by rewrite Z.div_div). rewrite !E.
  assert (a / 36524 ≤ b / 36524) by (apply Z.div_le_mono; lia).
  assert (a / 36524 - a / 36524 / 4 ≤ b / 36524 - b / 36524 / 4)
    by (generalize dependent (b / 36524); generalize dependent (a / 36524); intros; word_lia).
  assert (a - a / 1460 ≤ b - b / 1460) by (clear -H; word_lia). lia.
Qed.

(** The first and the last day of each of the 400 years of an era *)
Definition year_ok (y : Z) : bool :=
  (year_of (year_start y) =? y) && (year_of (year_end y) =? y) && (0 <=? year_start y) && (year_end y - year_start y <=? 365).
Lemma years_ok y : 0 ≤ y < 400 → year_ok y = true.
Proof.
  assert (forallb year_ok (seqZ 0 400) = true) as H by (vm_compute; reflexivity).
  intros Hy. rewrite forallb_forall in H. apply H, list_elem_of_In, elem_of_seqZ. lia.
Qed.

(** Month and day of a day of the year, counted from March *)
Definition mp_of (doy : Z) : Z := (5 * doy + 2) / 153.
Definition month_ok (doy : Z) : bool :=
  let mp := mp_of doy in
  let m := if mp <? 10 then mp + 3 else mp - 9 in
  let d := doy - (153 * mp + 2) / 5 + 1 in
  (1 <=? m) && (m <=? 12) && (1 <=? d) && (d <=? 31) && ((153 * (if m >? 2 then m - 3 else m + 9) + 2) / 5 + d - 1 =? doy).
Lemma months_ok doy : 0 ≤ doy ≤ 365 → month_ok doy = true.
Proof.
  assert (forallb month_ok (seqZ 0 366) = true) as H by (vm_compute; reflexivity).
  intros Hy. rewrite forallb_forall in H. apply H, list_elem_of_In, elem_of_seqZ. lia.
Qed.

Lemma year_of_spec doe :
  0 ≤ doe < 146097 → 0 ≤ year_of doe < 400 ∧ 0 ≤ doe - year_start (year_of doe) ≤ 365.
Proof.
  intros Hd. assert (0 ≤ year_of doe < 400) as Hy.
  { split; [change 0 with (year_of 0)|apply (Z.le_lt_trans _ (year_of 146096)); [|done]]; apply year_of_mono; lia. }
  split; [done|]. set (y := year_of doe) in *.
  pose proof (years_ok y Hy) as Hok. unfold year_ok in Hok. rewrite !andb_true_iff, !Z.eqb_eq, !Z.leb_le in Hok.
  destruct Hok as [[[E1 E2] H0] H365].
  assert (year_start y ≤ doe).
  { apply Z.nlt_ge. intros Hlt. destruct (decide (y = 0)) as [E|]; [rewrite E in Hlt; change (year_start 0) with 0 in Hlt; lia|].
    pose proof (years_ok (y - 1) ltac:(lia)) as Hok. unfold year_ok in Hok. rewrite !andb_true_iff, !Z.eqb_eq, !Z.leb_le in Hok.
    destruct Hok as [[[_ E3] _] _]. unfold year_end in E3. destruct (Z.eqb_spec (y - 1) 399); [lia|].
    replace (y - 1 + 1) with y in E3 by lia. pose proof (year_of_mono doe (year_start y - 1) ltac:(lia)). lia. }
  assert (doe ≤ year_end y); [|lia].
  apply Z.nlt_ge. intros Hlt. unfold year_end in Hlt. destruct (Z.eqb_spec y 399); [lia|].
  pose proof (years_ok (y + 1) ltac:(lia)) as Hok. unfold year_ok in Hok. rewrite !andb_true_iff, !Z.eqb_eq, !Z.leb_le in Hok.
  destruct Hok as [[[E3 _] H1] _]. pose proof (year_of_mono (year_start (y + 1)) doe ltac:(lia)). lia.
Qed.

(** A date has the parts of a date, and its day is the one it was made from. *)
Lemma civil_spec days y m d : civil days = (y, m, d) →
  1 ≤ m ≤ 12 ∧ 1 ≤ d ≤ 31 ∧ days_of y m d = days ∧
  400 * ((days + 719468) / 146097) ≤ y ≤ 400 * ((days + 719468) / 146097) + 400.
Proof.
  unfold civil. set (z := days + 719468). pose proof (Z.mod_pos_bound z 146097 ltac:(lia)) as Hdoe.
  pose proof (Z.div_mod z 146097 ltac:(lia)) as Hz. destruct (year_of_spec _ Hdoe) as [Hy Hdoy].
  fold (year_of (z mod 146097)). fold (year_start (year_of (z mod 146097))).
  set (doe := z mod 146097) in *. set (yoe := year_of doe) in *. set (doy := doe - year_start yoe) in *.
  pose proof (months_ok doy Hdoy) as Hok. unfold month_ok in Hok. cbv zeta in Hok. fold (mp_of doy).
  set (mp := mp_of doy) in *. set (m' := if mp <? 10 then mp + 3 else mp - 9) in *. set (d' := doy - (153 * mp + 2) / 5 + 1) in *.
  rewrite !andb_true_iff, !Z.leb_le, Z.eqb_eq in Hok. destruct Hok as [[[[H1 H2] H3] H4] H5].
  set (era := z / 146097) in *. intros E. injection E as <- <- <-.
  split_and!; try done; try (destruct (m' <=? 2); lia). unfold days_of.
  assert ((if m' <=? 2 then yoe + era * 400 + (if m' <=? 2 then 1 else 0) - 1 else yoe + era * 400 + (if m' <=? 2 then 1 else 0)) =
    yoe + era * 400) as -> by (destruct (m' <=? 2); lia).
  rewrite H5, Z.div_add, Z.mod_add, Z.div_small, Z.mod_small by lia.
  unfold doy, year_start in *. lia.
Qed.

Lemma gmtime_timegm tt : timegm (gmtime_r tt) = tt.
Proof.
  unfold gmtime_r. destruct (civil (tt / 86400)) as [[y m] d] eqn:E. destruct (civil_spec _ _ _ _ E) as (_&_&Hd&_).
  unfold timegm. cbn [tm_year tm_mon tm_mday tm_hour tm_min tm_sec].
  replace (y - 1900 + 1900) with y by lia. replace (m - 1 + 1) with m by lia. rewrite Hd. clear. word_lia.
Qed.

(** ** Reading the texts *)

Lemma read_date_text sep_c k f t :
  is_digit sep_c = false → 0 ≤ tm_mon t < 12 → 1 ≤ tm_mday t ≤ 31 → 0 ≤ tm_hour t < 24 → 0 ≤ tm_min t < 60 → 0 ≤ tm_sec t < 60 →
  0 ≤ f < 10 ^ 10 →
  ∀ y, read_date y sep_c ([45] ++ setw 2 (tm_mon t + 1) ++ [45] ++ setw 2 (tm_mday t) ++ [sep_c] ++ setw 2 (tm_hour t) ++ [58] ++
    setw 2 (tm_min t) ++ [58] ++ setw 2 (tm_sec t) ++ [46] ++ setw k f ++ [90]) =
    Some (timegm (mkTm (y - 1900) (tm_mon t) (tm_mday t) (tm_hour t) (tm_min t) (tm_sec t) 0), f).
Proof.
  intros Hc Hmo Hd Hh Hmi Hs Hf y. unfold read_date.
  repeat (rewrite sep_here; cbn [mbind option_bind]; rewrite scan_setw by (lia || done)).
  cbn. by rewrite Z.add_simpl_r.
Qed.

(** C33: The printed forms in UTC can be read back: the seconds and the
    microseconds from [gmtime] in both forms, and the nanoseconds from
    [gmtime_nsec] for a date. *)
Theorem gmtime_round_trip (legacy_form : bool) u :
  utime.wf u →
  read_time (if legacy_form then 32 else 84) (utime_text.gmtime legacy_form u) = Some (utime.sec u, utime.usec u) ∧
  (ten_years ≤ utime.sec u → read_time 84 (utime_text.gmtime_nsec u) = Some (utime.sec u, utime.nsec u)).
Proof.
  intros Hwf. pose proof (utime.nsec_small u Hwf) as Hns. destruct Hwf as [Hs Hn].
  unfold utime_text.gmtime, utime_text.gmtime_nsec. rewrite Hns. unfold utime.sec, utime.usec, is_u32, utime.billion in *.
  set (s := utime.tv_sec u) in *. set (n := utime.tv_nsec u) in *.
  assert (0 ≤ n / 1000 < 1000000) as Hus by (split; [apply Z.div_pos; lia|apply Z.div_lt_upper_bound; lia]).
  assert (∀ (sep_c : Z) (k : nat) (f : Z), is_digit sep_c = false → 0 ≤ f < 10 ^ 10 →
    read_time sep_c (show_date (gmtime_r s) ++ [sep_c] ++ show_clock (gmtime_r s) ++ [46] ++ setw k f ++ [90]) = Some (s, f)) as Hdate.
  { intros sep_c k f Hc Hf. pose proof (gmtime_timegm s) as Hback. unfold gmtime_r in *.
    destruct (civil (s / 86400)) as [[y m] d] eqn:E. destruct (civil_spec _ _ _ _ E) as (Hm&Hd&_&Hy).
    assert (4 ≤ (s / 86400 + 719468) / 146097 ≤ 5) as Hera by (clear -Hs; word_lia).
    assert (0 ≤ s mod 86400 < 86400) by (apply Z.mod_pos_bound; lia).
    unfold read_time, show_date, show_clock. cbn [tm_year tm_mon tm_mday tm_hour tm_min tm_sec] in *. rewrite <- !app_assoc.
    rewrite scan_setw by (done || lia). change (txt "-") with [45]. change (txt ":") with [58]. cbn [app]. change (45 =? 46) with false. cbn iota.
    etrans; [refine (read_date_text sep_c k f (mkTm (y - 1900) (m - 1) d (s mod 86400 / 3600) (s mod 86400 mod 3600 / 60) (s mod 86400 mod 60) 0) _ _ _ _ _ _ _ _); cbn; clear -Hm Hd Hc Hf; try done; word_lia|].
    do 2 f_equal. rewrite Z.add_simpl_r. exact Hback. }
  assert ((s <? ten_years) = true → read_time (if legacy_form then 32 else 84) (raw_seconds u) = Some (s, n / 1000)) as Hraw.
  { intros _. unfold raw_seconds, dec_s, utime.sec, utime.usec. fold s n. destruct (Z.ltb_spec s 0); [lia|].
    unfold read_time. rewrite scan_dec_u by (done || lia). change (txt ".") with [46]. cbn [app]. change (46 =? 46) with true. cbn iota.
    rewrite <- (app_nil_r (setw 6 (n / 1000))), scan_setw by (done || lia). done. }
  split.
  - destruct (s <? ten_years) eqn:Es; [by apply Hraw|].
    destruct legacy_form; [apply (Hdate 32 6%nat)|apply (Hdate 84 6%nat)]; (done || lia).
  - intros Hlate. destruct (Z.ltb_spec s ten_years); [lia|]. apply (Hdate 84 9%nat); (done || lia).
Qed.

Lemma gmtime_round_trip_witness :
  read_time 84 (utime_text.gmtime false (utime.mk 1700000000 1234567)) = Some (1700000000, 1234) ∧
  read_time 84 (utime_text.gmtime_nsec (utime.mk 1700000000 1234567)) = Some (1700000000, 1234567).
Proof.
  destruct (gmtime_round_trip false (utime.mk 1700000000 1234567)) as [H1 H2]; [by vm_compute|].
  split; [exact H1|apply H2; by vm_compute].
Defined.

(** ** Rounding and conversions *)

(** In a zone with the constant offset [off] the three roundings give the
    start of the local minute, hour and day. *)
Theorem rounding_spec off localtime_r mktime u :
  (∀ tt, localtime_r tt = gmtime_r (tt + off)) → (∀ t, mktime t = timegm t - off) →
  utime.wf u → 86400 ≤ utime.sec u →
  utime_text.round_to_minute localtime_r mktime u = utime.mk (utime.sec u - (utime.sec u + off) mod 60) 0 ∧
  utime_text.round_to_hour localtime_r mktime u = utime.mk (utime.sec u - (utime.sec u + off) mod 3600) 0 ∧
  utime_text.round_to_day localtime_r mktime u = utime.mk (utime.sec u - (utime.sec u + off) mod 86400) 0.
Proof.
  intros Hlocal Hmk [Hs _] Hday. unfold utime.sec in *. set (s := utime.tv_sec u) in *.
  assert (∀ h m, mktime (utime_text.at_clock h m (localtime_r s)) = s - (s + off) mod 86400 + h * 3600 + m * 60) as E.
  { intros h m. rewrite Hmk, Hlocal. pose proof (gmtime_timegm (s + off)) as Hback. unfold gmtime_r in *.
    destruct (civil ((s + off) / 86400)) as [[y mo] d]. unfold timegm in *. cbn [utime_text.at_clock tm_year tm_mon tm_mday tm_hour tm_min tm_sec] in *.
    revert Hback. generalize (days_of (y - 1900 + 1900) (mo - 1 + 1) d). clear. intros D. word_lia. }
  unfold utime_text.round_to_minute, utime_text.round_to_hour, utime_text.round_to_day, utime.sec. fold s. rewrite !E, !Hlocal.
  assert (tm_hour (gmtime_r (s + off)) = (s + off) mod 86400 / 3600 ∧ tm_min (gmtime_r (s + off)) = (s + off) mod 86400 mod 3600 / 60) as [-> ->]
    by (unfold gmtime_r; by destruct (civil ((s + off) / 86400)) as [[? ?] ?]).
  assert (∀ x, s - 86400 < x ≤ s → utime.make x 0 = utime.mk x 0) as Hmake.
  { intros x Hx. apply utime.make_wf_id; unfold is_u32, utime.billion in *; lia. }
  split_and!; (etrans; [apply Hmake; clear; word_lia|f_equal; clear; word_lia]).
Qed.

Lemma rounding_witness :
  utime_text.round_to_day (λ tt, gmtime_r (tt + 28800)) (λ t, timegm t - 28800) (utime.mk 1700000000 5) = utime.mk 1699977600 0.
Proof. apply (rounding_spec 28800 _ _ (utime.mk 1700000000 5)); (done || by vm_compute). Defined.

(** A time of the real clock before 2106 survives the conversion to [utime_t] and back. *)
Lemma time_point_round_trip t : 0 ≤ t < 4294967296 * NS → utime_text.to_real_time (utime_text.of_time_point t) = t.
Proof.
  unfold NS. intros Ht. unfold utime_text.of_time_point, utime_text.to_real_time, real_clock.to_timespec, real_clock.to_time_t, NS, utime.of_timespec, utime.to_timespec.
  cbn [utime.tv_sec utime.tv_nsec]. pose proof (Z.mod_pos_bound t 1000000000 ltac:(lia)). pose proof (Z.div_mod t 1000000000 ltac:(lia)).
  assert (0 ≤ t / 1000000000 < 4294967296) by (split; [apply Z.div_pos; lia|apply Z.div_lt_upper_bound; lia]).
  assert (s64 (t / 1000000000) = t / 1000000000) as ->.
  { unfold s64, u64. rewrite Z.mod_small by lia. destruct (Z.ltb_spec (t / 1000000000) 9223372036854775808); lia. }
  rewrite !u32_small by (unfold is_u32; lia). unfold real_clock.from_timespec, NS. cbn [fst snd]. rewrite u64_small by (unfold is_u64; lia). lia.
Qed.
