(* ===== verification/AddrText.v ===== *)
(** * Addresses as text (src/common/types.cc)

    [inet_ntop] of an IPv4 address is the dotted decimal text; of an IPv6
    address it is a parameter. *)

From S2P Require Import Prelude State Addr Machine Wire Text.

Section show.
Context (ntop6 : list Z → list Z).

Definition inet_ntop4 (u : list Z) : list Z :=
  dec_u (byte_at 4 u) ++ [46] ++ dec_u (byte_at 5 u) ++ [46] ++ dec_u (byte_at 6 u) ++ [46] ++ dec_u (byte_at 7 u).

(** [operator<<] of a [sockaddr] *)
Definition show_sockaddr (psa : list Z) : list Z :=
  if sa_family psa =? AF_INET then inet_ntop4 psa ++ [58] ++ dec_u (of_be16 2 psa) else
  if sa_family psa =? AF_INET6 then [91] ++ ntop6 (slice 8 16 psa) ++ txt "]:" ++ dec_u (of_be16 2 psa) else
  txt "(unrecognized address family " ++ dec_u (sa_family psa) ++ txt ")".

(** [operator<<] of an address *)
Definition show_addr (a : entity_addr_t) : list Z :=
  (if Addr.is_any a then [] else txt (get_type_name (a_type a)) ++ [58]) ++ show_sockaddr (a_u a) ++ [47] ++ dec_u (a_nonce a).

Definition ip_only_to_str (a : entity_addr_t) : list Z :=
  if Addr.get_family a =? AF_INET then inet_ntop4 (a_u a) else
  if Addr.get_family a =? AF_INET6 then ntop6 (slice 8 16 (a_u a)) else [].

End show.

(** ** Reading *)

Fixpoint strip (p l : list Z) : option (list Z) :=
  match p, l with
  | [], _ => Some l
  | x :: p, y :: l => if x =? y then strip p l else None
  | _ :: _, [] => None
  end.
Definition read_type (l : list Z) : type_t * list Z :=
  match strip (txt "Server:") l with Some l => (TYPE_SERVER, l) | None =>
  match strip (txt "Client:") l with Some l => (TYPE_CLIENT, l) | None =>
  match strip (txt "Switch:") l with Some l => (TYPE_SWITCH, l) | None => (TYPE_ANY, l) end end end.
Definition read_quad (l : list Z) : option (list Z * list Z) :=
  let '(a, l) := scan_dec 0 l in l ← sep 46 l;
  let '(b, l) := scan_dec 0 l in l ← sep 46 l;
  let '(c, l) := scan_dec 0 l in l ← sep 46 l;
  let '(d, l) := scan_dec 0 l in Some ([a; b; c; d], l).
(** Type, IPv4 address, port and nonce *)
Definition read_addr (l : list Z) : option (type_t * list Z * Z * Z) :=
  let '(t, l) := read_type l in
  '(ip, l) ← read_quad l; l ← sep 58 l;
  let '(port, l) := scan_dec 0 l in l ← sep 47 l;
  Some (t, ip, port, (scan_dec 0 l).1).

Lemma byte_at_range u i : Forall is_byte u → 0 ≤ byte_at i u < 256.
Proof. intros Hb. unfold byte_at. destruct (u !! i) eqn:E; [exact (Forall_lookup_1 _ _ _ _ Hb E)|done]. Qed.

Lemma read_quad_text u rest :
  Forall is_byte u → match rest with c :: _ => is_digit c = false | [] => True end → length u = 28%nat →
  read_quad (inet_ntop4 u ++ rest) = Some (slice 4 4 u, rest).
Proof.
  intros Hb Hrest Hlen.
  assert (∀ i, 0 ≤ byte_at i u < 10 ^ 20) as Hi by (intros i; pose proof (byte_at_range u i Hb); lia).
  unfold read_quad, inet_ntop4. rewrite <- !app_assoc.
  do 3 (rewrite scan_dec_u by done; rewrite sep_here; cbn [mbind option_bind]).
  rewrite scan_dec_u by done. by do 8 (destruct u as [|? u]; [done|]).
Qed.

Lemma not_named_digit c l : is_digit c = true → read_type (c :: l) = (TYPE_ANY, c :: l).
Proof.
  intros Hc. unfold is_digit in Hc. rewrite andb_true_iff, !Z.leb_le in Hc. unfold read_type.
  assert (∀ x p, 58 ≤ x → strip (x :: p) (c :: l) = None) as E.
  { intros x p Hx. simpl. destruct (Z.eqb_spec x c); [lia|done]. }
  change (txt "Server:") with (83 :: txt "erver:"). change (txt "Client:") with (67 :: txt "lient:").
  change (txt "Switch:") with (83 :: txt "witch:"). by rewrite !E by lia.
Qed.

(** The text of an IPv4 address says its type, its four bytes, its port and
    its nonce. *)
Theorem addr_text_round_trip ntop6 a :
  Forall is_byte (a_u a) → length (a_u a) = 28%nat → is_u32 (a_nonce a) → Addr.is_ipv4 a = true →
  read_addr (show_addr ntop6 a) = Some (a_type a, slice 4 4 (a_u a), Addr.get_port a, a_nonce a).
Proof.
  intros Hb Hlen Hn H4. unfold Addr.is_ipv4, Addr.get_family in H4.
  assert (read_type (show_addr ntop6 a) = (a_type a, show_sockaddr ntop6 (a_u a) ++ [47] ++ dec_u (a_nonce a))) as Ht.
  { unfold show_addr, Addr.is_any. destruct (a_type a); try done. rewrite app_nil_l.
    unfold show_sockaddr. rewrite H4. unfold inet_ntop4. pose proof (dec_u_digits (byte_at 4 (a_u a))) as Hd.
    pose proof (dec_u_nonempty (byte_at 4 (a_u a))). destruct (dec_u (byte_at 4 (a_u a))) as [|c l]; [done|].
    apply Forall_cons in Hd as [Hc _]. by apply not_named_digit. }
  unfold read_addr. rewrite Ht. unfold show_sockaddr. rewrite H4, <- !app_assoc, read_quad_text by done. cbn [mbind option_bind].
  rewrite sep_here. cbn [mbind option_bind].
  assert (0 ≤ of_be16 2 (a_u a) < 65536)
    by (unfold of_be16; pose proof (byte_at_range _ 2 Hb); pose proof (byte_at_range _ 3 Hb); lia).
  rewrite scan_dec_u by (done || lia). rewrite sep_here. cbn [mbind option_bind].
  rewrite <- (app_nil_r (dec_u (a_nonce a))), scan_dec_u by (done || (unfold is_u32 in Hn; lia)).
  unfold Addr.get_port, Addr.get_family. by rewrite H4.
Qed.

Lemma addr_text_witness :
  read_addr (show_addr (λ _, []) demo_addr) = Some (a_type demo_addr, slice 4 4 (a_u demo_addr), Addr.get_port demo_addr, a_nonce demo_addr).
Proof. apply addr_text_round_trip; [by repeat constructor|done|by vm_compute|by vm_compute]. Defined.
