(* ===== verification/Spinlock.v ===== *)
(** * The spinlock (src/common/common.h)

    [NetworkStack] guards its workers with a [common::spinlock]. The other
    files take the section between [lock] and [unlock] as one step; here its
    operations are the atomic accesses they make to the flag, by any number
    of threads in any order, and they implement a lock that has at most one
    owner. *)

From S2P Require Import Prelude.

(** What a thread is doing *)
Inductive phase := Outside | Spinning | Holding.
#[global] Instance phase_eq_dec : EqDecision phase.
Proof. solve_decision. Defined.

Module spinlock.

(** [std::atomic_flag], and what every thread is doing *)
Record t := mk { af : bool; threads : gmap nat phase }.

(** [test_and_set] stores true and returns what was there. *)
Definition test_and_set (s : t) : bool * t := (af s, mk true (threads s)).
Definition clear (s : t) : t := mk false (threads s).
Definition set_phase (i : nat) (p : phase) (s : t) : t := mk (af s) (<[i := p]> (threads s)).

(** One iteration of the loop of [spin_lock]: the loop ends when the flag was clear. *)
Definition spin_lock_turn (i : nat) (s : t) : t :=
  let '(old, s) := test_and_set s in if old then s else set_phase i Holding s.
Definition spin_unlock (i : nat) (s : t) : t := set_phase i Outside (clear s).

Definition init (n : nat) : t := mk false (gset_to_gmap Outside (list_to_set (seq 0 n))).

Inductive step : t → t → Prop :=
  | step_lock i s : threads s !! i = Some Outside → step s (set_phase i Spinning s)
  | step_turn i s : threads s !! i = Some Spinning → step s (spin_lock_turn i s)
  | step_unlock i s : threads s !! i = Some Holding → step s (spin_unlock i s).

End spinlock.

(** ** The lock it implements *)

Module lock.
(** The owner, and the threads that have asked for the lock *)
Record t := mk { owner : option nat; waiting : gset nat }.
Inductive step : t → t → Prop :=
  | ask i s : owner s ≠ Some i → i ∉ waiting s → step s (mk (owner s) ({[i]} ∪ waiting s))
  | grant i s : owner s = None → i ∈ waiting s → step s (mk (Some i) (waiting s ∖ {[i]}))
  | release i s : owner s = Some i → step s (mk None (waiting s)).
End lock.

Section refinement.
Import spinlock.

(** The flag is set exactly when there is an owner; the owner is the thread
    that holds the lock, the others wait or are outside. *)
Record rel (s : t) (a : lock.t) : Prop := {
  rel_flag : af s = true ↔ is_Some (lock.owner a);
  rel_holding : ∀ i, threads s !! i = Some Holding ↔ lock.owner a = Some i;
  rel_waiting : ∀ i, threads s !! i = Some Spinning ↔ i ∈ lock.waiting a;
}.

Lemma rel_init n : rel (init n) (lock.mk None ∅).
Proof.
  split; cbn [af lock.owner lock.waiting threads init].
  - split; [done|by intros []].
  - intros i. rewrite lookup_gset_to_gmap_Some. split; [by intros []|done].
  - intros i. rewrite lookup_gset_to_gmap_Some. split; [by intros []|set_solver].
Qed.

Lemma rel_step s a s' : rel s a → step s s' → rel s' a ∨ ∃ a', lock.step a a' ∧ rel s' a'.
Proof.
  intros [Hf Hh Hw] Hstep. destruct Hstep as [i s Hi|i s Hi|i s Hi].
  - right. exists (lock.mk (lock.owner a) ({[i]} ∪ lock.waiting a)). split.
    + apply lock.ask; [|rewrite <- Hw]; rewrite <- ?Hh; by rewrite Hi.
    + split; cbn; [done|intros j|intros j]; (destruct (decide (j = i)) as [->|]; [rewrite lookup_insert_eq|rewrite lookup_insert_ne by done]).
      * split; [done|]. rewrite <- Hh. by rewrite Hi.
      * apply Hh.
      * split; [set_solver|done].
      * rewrite Hw. set_solver.
  - unfold spin_lock_turn, test_and_set. destruct (af s) eqn:E.
    + left. split; cbn; [naive_solver|done|done].
    + right. assert (lock.owner a = None) as Hn by (apply eq_None_not_Some; rewrite <- Hf; done).
      exists (lock.mk (Some i) (lock.waiting a ∖ {[i]})). split; [apply lock.grant; [done|by apply Hw]|].
      split; cbn; [done|intros j|intros j]; (destruct (decide (j = i)) as [->|]; [rewrite lookup_insert_eq|rewrite lookup_insert_ne by done]).
      * done.
      * rewrite Hh, Hn. split; [done|by intros [= ->]].
      * split; [done|set_solver].
      * rewrite Hw. set_solver.
  - right. assert (lock.owner a = Some i) as Ho by by apply Hh.
    exists (lock.mk None (lock.waiting a)). split; [by eapply lock.release|].
    split; cbn; [split; [done|by intros []]|intros j|intros j];
      (destruct (decide (j = i)) as [->|]; [rewrite lookup_insert_eq|rewrite lookup_insert_ne by done]).
    + done.
    + rewrite Hh, Ho. split; [|done]. by intros [= ->].
    + split; [done|]. rewrite <- Hw. by rewrite Hi.
    + apply Hw.
Qed.

(** C25: Whatever the threads do, the flag implements a lock with one owner: every
    reachable state stands for a state the lock can reach, no two threads are
    past [lock] together, and while nobody is, the next iteration of any
    spinning thread takes the lock. *)
Theorem spinlock_refines_lock n s :
  rtc step (init n) s →
  ∃ a, rtc lock.step (lock.mk None ∅) a ∧ rel s a ∧
    (∀ i j, threads s !! i = Some Holding → threads s !! j = Some Holding → i = j) ∧
    ((∀ j, threads s !! j ≠ Some Holding) →
      ∀ i, threads s !! i = Some Spinning → threads (spin_lock_turn i s) !! i = Some Holding).
Proof.
  intros Hr. assert (∃ a, rtc lock.step (lock.mk None ∅) a ∧ rel s a) as (a&Ha&Hrel).
  { revert Hr. apply (rtc_ind_r (λ s, ∃ a, rtc lock.step (lock.mk None ∅) a ∧ rel s a)); [eexists; split; [done|apply rel_init]|].
    clear s. intros s s' _ Hs (a&Ha&Hrel). destruct (rel_step s a s' Hrel Hs) as [?|(a'&Hstep&?)]; [by exists a|]. exists a'. split; [by eapply rtc_r|done]. }
  exists a. split_and!; try done.
  - intros i j. rewrite !(rel_holding _ _ Hrel). congruence.
  - intros Hfree i _. unfold spin_lock_turn, test_and_set. destruct (af s) eqn:E.
    + apply (rel_flag _ _ Hrel) in E as [j Hj]. apply (rel_holding _ _ Hrel) in Hj. by destruct (Hfree j).
    + apply lookup_insert_eq.
Qed.

Definition two_threads : t := spin_lock_turn 1 (spin_lock_turn 0 (set_phase 1 Spinning (set_phase 0 Spinning (init 2)))).
Lemma spinlock_witness : ∃ a, rel two_threads a ∧ lock.owner a = Some 0%nat.
Proof.
  destruct (spinlock_refines_lock 2 two_threads) as (a&_&Hrel&_).
  - repeat (eapply rtc_l; [first [by eapply (step_lock 0) | by eapply (step_lock 1)]|]).
    eapply rtc_l; [by eapply (step_turn 0)|]. eapply rtc_l; [by eapply (step_turn 1)|]. done.
  - exists a. split; [done|]. by apply (rel_holding _ _ Hrel).
Defined.

End refinement.
