(* ===== verification/Submit.v ===== *)
(** * Work for another event centre (src/network/Event.h, [submit_to] and [C_submit_event])

    [submit_to] runs a function in the thread of a centre: at once when it is
    called from that thread, otherwise through the centre's queue of external
    events, and then either waits for it or not. First the event itself, at
    the level of its mutex and condition variable; then any number of centres
    and other threads that submit work to each other, where the event is the
    two steps that the first part shows it to be: the work is done, and the
    wait ends. *)

From S2P Require Import Prelude.

(** ** One event *)

Module C_submit_event.

(** The thread in [wait], and the one in [do_request] *)
Inductive waiter := Wants | Tests | Sleeps | Returned.
Inductive runner := Queued | Ran | Locked | Notified | Marked | Left.
#[global] Instance waiter_eq_dec : EqDecision waiter.
Proof. solve_decision. Defined.
#[global] Instance runner_eq_dec : EqDecision runner.
Proof. solve_decision. Defined.

Record t := mk { wt : waiter; rn : runner; done : bool; locked : bool }.

(** The event after [dispatch_event_external] *)
Definition init : t := mk Wants Queued false false.

Inductive step : t → t → Prop :=
  (* wait: the mutex is taken, also after a wake-up *)
  | wait_lock s : wt s = Wants → locked s = false → step s (mk Tests (rn s) (done s) true)
  | wait_done s : wt s = Tests → done s = true → step s (mk Returned (rn s) (done s) false)
  | wait_sleep s : wt s = Tests → done s = false → step s (mk Sleeps (rn s) (done s) false)
  | wait_spurious s : wt s = Sleeps → step s (mk Wants (rn s) (done s) (locked s))
  (* do_request *)
  | run_f s : rn s = Queued → step s (mk (wt s) Ran (done s) (locked s))
  | run_lock s : rn s = Ran → locked s = false → step s (mk (wt s) Locked (done s) true)
  | run_notify s : rn s = Locked →
      step s (mk (match wt s with Sleeps => Wants | w => w end) Notified (done s) (locked s))
  | run_mark s : rn s = Notified → step s (mk (wt s) Marked true (locked s))
  | run_unlock s : rn s = Marked → step s (mk (wt s) Left (done s) false).

End C_submit_event.

Section event.
Import C_submit_event.

(** The mutex is held by one of the two, [done] is set at the end of
    [do_request], and nobody sleeps once it is set. *)
Definition ok (s : t) : bool :=
  match wt s, rn s, done s, locked s with
  | Wants, (Queued | Ran), false, false | Wants, (Locked | Notified), false, true | Wants, Marked, true, true | Wants, Left, true, false
  | Tests, (Queued | Ran), false, true | Tests, Left, true, true
  | Sleeps, (Queued | Ran), false, false | Sleeps, Locked, false, true
  | Returned, Left, true, false => true
  | _, _, _, _ => false
  end.

Lemma ok_step s s' : ok s = true → step s s' → ok s' = true.
Proof.
  intros Hok Hs. destruct Hs; destruct s as [w r d l]; cbn in *; subst; cbn in *;
    repeat match goal with x : waiter |- _ => destruct x | x : runner |- _ => destruct x | x : bool |- _ => destruct x end; done.
Qed.

(** A schedule: the thread in [wait] when it holds the mutex, then the one in
    [do_request], then [wait] again *)
Definition go (s : t) : t :=
  match wt s with
  | Tests => if done s then mk Returned (rn s) (done s) false else mk Sleeps (rn s) (done s) false
  | Returned => s
  | w =>
    match rn s with
    | Queued => mk w Ran (done s) (locked s)
    | Ran => mk w Locked (done s) true
    | Locked => mk (match w with Sleeps => Wants | w => w end) Notified (done s) (locked s)
    | Notified => mk w Marked true (locked s)
    | Marked => mk w Left (done s) false
    | Left => mk Tests Left (done s) true
    end
  end.

Lemma go_step s : ok s = true → rtc step s (go s).
Proof.
  intros Hok. destruct s as [w r d l]. destruct w, r, d, l; try done; apply rtc_once || (by apply rtc_refl);
    first [by apply wait_lock | by apply wait_done | by apply wait_sleep | by apply run_f | by apply run_lock
          | by apply run_mark | by apply run_unlock | idtac].
  all: match goal with |- step ?s _ => exact (run_notify s eq_refl) end.
Qed.

Lemma go_iter n s : ok s = true → rtc step s (Nat.iter n go s) ∧ ok (Nat.iter n go s) = true.
Proof.
  intros Hok. induction n as [|n [IH1 IH2]]; [done|]. pose proof (go_step _ IH2) as Hgo. cbn [Nat.iter]. split; [by etrans|].
  exact (rtc_invariant step (λ s, ok s = true) _ _ ok_step IH2 Hgo).
Qed.

(** A wait returns only after [do_request] has run the function, set [done]
    and given the mutex back for the last time, so the event, which lives on
    the stack of the thread that waits, is not used any more; it never sleeps
    once [do_request] has left; and from every point the two threads can go on
    until the wait has returned. *)
Theorem submit_event_waits s :
  rtc step init s →
  (wt s = Returned → rn s = Left ∧ done s = true) ∧ (rn s = Left → wt s ≠ Sleeps) ∧
  ∃ s', rtc step s s' ∧ wt s' = Returned.
Proof.
  intros Hr. assert (ok s = true) as Hok by (refine (rtc_invariant step (λ s, ok s = true) init s ok_step _ Hr); done).
  destruct (go_iter 8 s Hok) as [Hgo _]. clear Hr. split_and!.
  - destruct s as [[] [] [] []]; done.
  - destruct s as [[] [] [] []]; done.
  - exists (Nat.iter 8 go s). split; [done|]. destruct s as [[] [] [] []]; done.
Qed.

Lemma submit_event_witness : ∃ s', rtc step (mk Sleeps Locked false true) s' ∧ wt s' = Returned.
Proof.
  apply (submit_event_waits (mk Sleeps Locked false true)).
  eapply rtc_l; [by apply wait_lock|]. eapply rtc_l; [by apply wait_sleep|]. eapply rtc_l; [by apply run_f|].
  eapply rtc_l; [by apply run_lock|]. done.
Defined.

End event.

(** ** Centres and threads *)

Module Submit.

(** A function given to [submit_to]: it does its own work, named by a number,
    and then calls [submit_to] for the functions of its list, each with the
    centre and [always_async]. *)
Inductive task := Task (id : nat) (calls : list (nat * bool * task)).
Definition id_of (t : task) : nat := let 'Task i _ := t in i.
Definition calls_of (t : task) : list (nat * bool * task) := let 'Task _ l := t in l.

(** What a thread still has to do: call [submit_to], mark an event as done
    ([do_request] after [f()]), or wait for one *)
Inductive act := Call (i : nat) (always_async : bool) (t : task) | Finish (e : nat) | Wait (e : nat).
Definition acts (l : list (nat * bool * task)) : list act := (λ '(i, a, t), Call i a t) <$> l.
Definition acts_of (t : task) : list act := acts (calls_of t).

(** The first threads are those of the centres, which have a queue each; the
    others are outside. *)
Record st := mk {
  stacks : list (list act);
  queues : list (list (nat * task));
  done_ : list nat;
  next_event : nat;
  ran : list nat;
}.

Definition set_stack (h : nat) (k : list act) (s : st) : st := mk (<[h := k]> (stacks s)) (queues s) (done_ s) (next_event s) (ran s).
Definition set_queue (i : nat) (q : list (nat * task)) (s : st) : st := mk (stacks s) (<[i := q]> (queues s)) (done_ s) (next_event s) (ran s).
Definition set_done (e : nat) (s : st) : st := mk (stacks s) (queues s) (e :: done_ s) (next_event s) (ran s).
Definition log (i : nat) (s : st) : st := mk (stacks s) (queues s) (done_ s) (next_event s) (ran s ++ [i]).

(** [c->dispatch_event_external] of a new event *)
Definition dispatch (i : nat) (t : task) (q : list (nat * task)) (s : st) : st :=
  mk (stacks s) (<[i := q ++ [(next_event s, t)]]> (queues s)) (done_ s) (S (next_event s)) (ran s).

(** [submit_to] of thread [h], which goes on with [k] *)
Definition submit_to (h i : nat) (always_async : bool) (t : task) (k : list act) (s : st) : outcome st :=
  q ← match queues s !! i with Some q => Ret q | None => Crash KAbort end;
  if always_async then Ret (set_stack h k (dispatch i t q s))
  else if bool_decide (i = h) then Ret (log (id_of t) (set_stack h (acts_of t ++ k) s))
  else Ret (set_stack h (Wait (next_event s) :: k) (dispatch i t q s)).

(** One step of a thread; [None] when it waits *)
Definition turn (h : nat) (s : st) : option (outcome st) :=
  match stacks s !! h with
  | Some (Call i a t :: k) => Some (submit_to h i a t k s)
  | Some (Finish e :: k) => Some (Ret (set_stack h k (set_done e s)))
  | Some (Wait e :: k) => if bool_decide (e ∈ done_ s) then Some (Ret (set_stack h k s)) else None
  | Some [] =>
    match queues s !! h with
    | Some ((e, t) :: q) => Some (Ret (log (id_of t) (set_stack h (acts_of t ++ [Finish e]) (set_queue h q s))))
    | _ => None
    end
  | None => None
  end.

Inductive step : st → st → Prop := step_turn h s s' : turn h s = Some (Ret s') → step s s'.

(** Centres with empty queues; the threads outside run the given calls. *)
Definition init (centres : nat) (programs : list (list (nat * bool * task))) : st :=
  mk (replicate centres [] ++ (acts <$> programs)) (replicate centres []) [] 0 [].

End Submit.

Section submit.
Import Submit.

(** *** The steps, one by one *)

Variant move (h : nat) (s : st) : st → Prop :=
  | move_take e t q : stacks s !! h = Some [] → queues s !! h = Some ((e, t) :: q) →
      move h s (log (id_of t) (set_stack h (acts_of t ++ [Finish e]) (set_queue h q s)))
  | move_async i t k q : stacks s !! h = Some (Call i true t :: k) → queues s !! i = Some q →
      move h s (set_stack h k (dispatch i t q s))
  | move_here t k q : stacks s !! h = Some (Call h false t :: k) → queues s !! h = Some q →
      move h s (log (id_of t) (set_stack h (acts_of t ++ k) s))
  | move_sync i t k q : i ≠ h → stacks s !! h = Some (Call i false t :: k) → queues s !! i = Some q →
      move h s (set_stack h (Wait (next_event s) :: k) (dispatch i t q s))
  | move_finish e k : stacks s !! h = Some (Finish e :: k) → move h s (set_stack h k (set_done e s))
  | move_wake e k : stacks s !! h = Some (Wait e :: k) → e ∈ done_ s → move h s (set_stack h k s).

Lemma turn_move h s s' : turn h s = Some (Ret s') → move h s s'.
Proof.
  unfold turn. intros Ht. destruct (stacks s !! h) as [[|[i a t|e|e] k]|] eqn:Ek; [| | | |done].
  - destruct (queues s !! h) as [[|[e t] q]|] eqn:Eq; [done| |done]. injection Ht as <-. by apply move_take.
  - injection Ht as Ht. unfold submit_to in Ht. destruct (queues s !! i) as [q|] eqn:Eq; [|done]. cbn [mbind outcome_bind] in Ht.
    destruct a; [|case_bool_decide as Hi]; injection Ht as <-; [by eapply move_async| |by eapply move_sync]. subst i. by eapply move_here.
  - injection Ht as <-. by apply move_finish.
  - case_bool_decide; [|done]. injection Ht as <-. by eapply move_wake.
Qed.

(** *** Every step uses up work *)

Fixpoint size (t : task) : nat :=
  let 'Task _ l := t in S ((fix go l := match l with [] => O | (_, _, t) :: l => (size t + 3 + go l)%nat end) l).
Definition act_weight (a : act) : nat := match a with Call _ _ t => size t + 3 | _ => 1 end.
Fixpoint stack_weight (k : list act) : nat := match k with [] => O | a :: k => (act_weight a + stack_weight k)%nat end.
Fixpoint queue_weight (q : list (nat * task)) : nat := match q with [] => O | et :: q => (S (size et.2) + queue_weight q)%nat end.
Definition weight (s : st) : nat := sum_list (stack_weight <$> stacks s) + sum_list (queue_weight <$> queues s).

Lemma stack_weight_app k k' : stack_weight (k ++ k') = (stack_weight k + stack_weight k')%nat.
Proof. induction k as [|a k IH]; [done|]. cbn [app stack_weight]. lia. Qed.
Lemma queue_weight_app q q' : queue_weight (q ++ q') = (queue_weight q + queue_weight q')%nat.
Proof. induction q as [|a q IH]; [done|]. cbn [app queue_weight]. lia. Qed.
Lemma acts_weight t : size t = S (stack_weight (acts_of t)).
Proof. destruct t as [i l]. simpl. f_equal. induction l as [|[[j a] t] l IH]; [done|]. csimpl. rewrite IH. done. Qed.

Lemma sum_insert {A} (f : A → nat) (l : list A) i x y :
  l !! i = Some x → (sum_list (f <$> <[i := y]> l) + f x = sum_list (f <$> l) + f y)%nat.
Proof. revert i. induction l as [|z l IH]; intros [|i] H; simplify_eq/=; [lia|]. specialize (IH i H). lia. Qed.

Lemma step_weight s s' : step s s' → (weight s' < weight s)%nat.
Proof.
  intros [h s1 s2 Ht]. apply turn_move in Ht.
  destruct Ht as [e t q Ek Eq|i t k q Ek Eq|t k q Ek Eq|i t k q _ Ek Eq|e k Ek|e k Ek _];
    pose proof (λ k', sum_insert stack_weight _ h _ k' Ek) as H1; try pose proof (λ q', sum_insert queue_weight _ _ _ q' Eq) as H2;
    unfold weight; cbn [stacks queues log set_stack set_queue set_done dispatch stack_weight queue_weight act_weight snd] in *.
  - specialize (H1 (acts_of t ++ [Finish e])). specialize (H2 q). rewrite stack_weight_app in H1. pose proof (acts_weight t).
    cbn [stack_weight act_weight] in H1. lia.
  - specialize (H1 k). specialize (H2 (q ++ [(next_event s1, t)])). rewrite queue_weight_app in H2. cbn [queue_weight snd] in H2. lia.
  - specialize (H1 (acts_of t ++ k)). rewrite stack_weight_app in H1. pose proof (acts_weight t). lia.
  - specialize (H1 (Wait (next_event s1) :: k)). specialize (H2 (q ++ [(next_event s1, t)])). rewrite queue_weight_app in H2.
    cbn [queue_weight stack_weight act_weight snd] in *. lia.
  - specialize (H1 k). lia.
  - specialize (H1 k). lia.
Qed.

Lemma runs_bounded n s s' : nsteps step n s s' → (n + weight s' ≤ weight s)%nat.
Proof. induction 1 as [|n s s1 s' H1 _ IH]; [lia|]. apply step_weight in H1. lia. Qed.

(** *** Every function runs once *)

Fixpoint ids (t : task) : list nat :=
  let 'Task i l := t in i :: (fix go l := match l with [] => [] | (_, _, t) :: l => ids t ++ go l end) l.
Definition act_ids (a : act) : list nat := match a with Call _ _ t => ids t | _ => [] end.
Definition stack_ids (k : list act) : list nat := k ≫= act_ids.
Definition queue_ids (q : list (nat * task)) : list nat := q ≫= λ et, ids et.2.
(** What is still to run *)
Definition pending (s : st) : list nat := (stacks s ≫= stack_ids) ++ (queues s ≫= queue_ids).

Lemma ids_acts t : ids t = id_of t :: stack_ids (acts_of t).
Proof. destruct t as [i l]. cbn. f_equal. induction l as [|[[j a] t] l IH]; [done|]. cbn. by rewrite IH. Qed.

Definition occ (x : nat) (l : list nat) : nat := count_occ Nat.eq_dec l x.
Lemma occ_app x l l' : occ x (l ++ l') = (occ x l + occ x l')%nat.
Proof. apply count_occ_app. Qed.
Lemma occ_insert {A} x (f : A → list nat) (l : list A) i y z :
  l !! i = Some y → (occ x (<[i := z]> l ≫= f) + occ x (f y) = occ x (l ≫= f) + occ x (f z))%nat.
Proof.
  revert i. induction l as [|a l IH]; intros [|i] H; simplify_eq/=; rewrite !occ_app; [lia|]. specialize (IH i H). lia.
Qed.
Lemma stack_ids_app k k' : stack_ids (k ++ k') = stack_ids k ++ stack_ids k'.
Proof. apply bind_app. Qed.
Lemma queue_ids_app q q' : queue_ids (q ++ q') = queue_ids q ++ queue_ids q'.
Proof. apply bind_app. Qed.
Lemma stack_ids_cons a k : stack_ids (a :: k) = act_ids a ++ stack_ids k.
Proof. done. Qed.

Lemma step_runs s s' : step s s' → ran s' ++ pending s' ≡ₚ ran s ++ pending s.
Proof.
  intros [h s1 s2 Ht]. apply turn_move in Ht. unfold pending. apply (Permutation_count_occ Nat.eq_dec). intros x.
  change (occ x (ran s2 ++ (stacks s2 ≫= stack_ids) ++ (queues s2 ≫= queue_ids)) = occ x (ran s1 ++ (stacks s1 ≫= stack_ids) ++ (queues s1 ≫= queue_ids))).
  destruct Ht as [e t q Ek Eq|i t k q Ek Eq|t k q Ek Eq|i t k q _ Ek Eq|e k Ek|e k Ek _];
    pose proof (λ k', occ_insert x stack_ids _ h _ k' Ek) as H1; try pose proof (λ q', occ_insert x queue_ids _ _ _ q' Eq) as H2;
    cbn [stacks queues ran log set_stack set_queue set_done dispatch] in *; rewrite !occ_app;
    try (pose proof (f_equal (occ x) (ids_acts t)) as Hids; change (id_of t :: ?l) with ([id_of t] ++ l) in Hids; rewrite occ_app in Hids);
    try change (queue_ids ((e, t) :: q)) with (ids t ++ queue_ids q) in H2;
    rewrite ?stack_ids_cons in H1; cbn [act_ids app] in H1.
  - specialize (H1 (acts_of t ++ [Finish e])). specialize (H2 q). rewrite stack_ids_app in H1. rewrite !occ_app in *.
    change (occ x (stack_ids [Finish e])) with 0%nat in H1. change (occ x (stack_ids [])) with 0%nat in H1. lia.
  - specialize (H1 k). specialize (H2 (q ++ [(next_event s1, t)])). rewrite queue_ids_app in H2. rewrite !occ_app in *.
    change (queue_ids [(next_event s1, t)]) with (ids t ++ []) in H2. rewrite app_nil_r in H2. lia.
  - specialize (H1 (acts_of t ++ k)). rewrite stack_ids_app in H1. rewrite !occ_app in *. lia.
  - specialize (H1 (Wait (next_event s1) :: k)). specialize (H2 (q ++ [(next_event s1, t)])). rewrite queue_ids_app in H2.
    rewrite stack_ids_cons in H1. cbn [act_ids app] in H1. rewrite !occ_app in *.
    change (queue_ids [(next_event s1, t)]) with (ids t ++ []) in H2. rewrite app_nil_r in H2. lia.
  - specialize (H1 k). lia.
  - specialize (H1 k). lia.
Qed.

(** *** Nobody waits for ever *)

Section progress.
Context (n : nat).

(** A function that may run at centre [i] of [n]: it waits for no other
    centre, and neither do the functions it submits. *)
Inductive fits : nat → task → Prop :=
  fits_task i id l : Forall (λ c, (c.1.2 = true ∨ c.1.1 = i) ∧ (c.1.1 < n)%nat ∧ fits c.1.1 c.2) l → fits i (Task id l).

Definition act_fits (h : nat) (a : act) : Prop :=
  match a with
  | Call j async t => ((h < n)%nat → async = true ∨ j = h) ∧ (j < n)%nat ∧ fits j t
  | Finish _ => (h < n)%nat
  | Wait _ => (n ≤ h)%nat
  end.

Definition fins (k : list act) : list nat := k ≫= λ a, match a with Finish e => [e] | _ => [] end.
Definition waits (k : list act) : list nat := k ≫= λ a, match a with Wait e => [e] | _ => [] end.
(** How often an event is done, queued or being run *)
Definition total (e : nat) (s : st) : nat := occ e (done_ s) + occ e (queues s ≫= fmap fst) + occ e (stacks s ≫= fins).

Record inv (s : st) : Prop := {
  inv_queues : length (queues s) = n;
  inv_stacks : (n ≤ length (stacks s))%nat;
  inv_fit : ∀ h k, stacks s !! h = Some k → Forall (act_fits h) k;
  inv_queue : ∀ i q, queues s !! i = Some q → Forall (λ et, fits i et.2) q;
  inv_total : ∀ e, total e s = if decide (e < next_event s)%nat then 1%nat else 0%nat;
  inv_wait : ∀ h k e, stacks s !! h = Some k → e ∈ waits k → (e < next_event s)%nat;
}.

Lemma acts_fit i t h : fits i t → (h < n → h = i)%nat → Forall (act_fits h) (acts_of t).
Proof.
  intros Hf Hh. destruct Hf as [i id l Hl]. unfold acts_of, acts. cbn [calls_of]. apply Forall_fmap.
  eapply Forall_impl; [exact Hl|]. intros [[j a] t'] (H1&H2&H3). cbn in *. split_and!; try done. intros Hlt. rewrite Hh by done. done.
Qed.

Lemma acts_no_fins t : fins (acts_of t) = [].
Proof. destruct t as [i l]. unfold acts_of, acts. cbn [calls_of]. induction l as [|[[j a] t] l IH]; [done|]. exact IH. Qed.
Lemma acts_no_waits t : waits (acts_of t) = [].
Proof. destruct t as [i l]. unfold acts_of, acts. cbn [calls_of]. induction l as [|[[j a] t] l IH]; [done|]. exact IH. Qed.
Lemma fins_app k k' : fins (k ++ k') = fins k ++ fins k'.
Proof. apply bind_app. Qed.
Lemma waits_app k k' : waits (k ++ k') = waits k ++ waits k'.
Proof. apply bind_app. Qed.

(** A stack of a thread changes to one that fits, with waits of old events or of the new one *)
Lemma inv_put s s' h k0 k' :
  inv s → stacks s !! h = Some k0 → stacks s' = <[h := k']> (stacks s) → (next_event s ≤ next_event s')%nat →
  Forall (act_fits h) k' → (∀ e, e ∈ waits k' → e ∈ waits k0 ∨ (e < next_event s')%nat) →
  length (queues s') = n → (∀ i q, queues s' !! i = Some q → Forall (λ et, fits i et.2) q) →
  (∀ e, total e s' = if decide (e < next_event s')%nat then 1%nat else 0%nat) → inv s'.
Proof.
  intros [Hq Hs Hf Hqf Ht Hw] Hk Es Hn Hfit Hwait Hlen Hq' Htot. split; [done| | |done|done|]; rewrite Es.
  - by rewrite length_insert.
  - intros h' k Hh'. apply list_lookup_insert_Some in Hh' as [(->&->&_)|(_&Hh')]; [done|by eapply Hf].
  - intros h' k e Hh' He. apply list_lookup_insert_Some in Hh' as [(->&->&_)|(_&Hh')].
    + destruct (Hwait e He) as [H|H]; [|done]. specialize (Hw _ _ _ Hk H). lia.
    + specialize (Hw _ _ _ Hh' He). lia.
Qed.

Lemma queues_put s i q q' : inv s → queues s !! i = Some q → Forall (λ et, fits i et.2) q' →
  length (<[i := q']> (queues s)) = n ∧ ∀ i' q0, <[i := q']> (queues s) !! i' = Some q0 → Forall (λ et, fits i' et.2) q0.
Proof.
  intros Hi Hq Hq'. rewrite length_insert. split; [apply (inv_queues _ Hi)|]. intros i' q0 H.
  apply list_lookup_insert_Some in H as [(->&->&_)|(_&H)]; [done|by eapply (inv_queue _ Hi)].
Qed.
Lemma total_stack e s h k0 k' s' :
  stacks s !! h = Some k0 → stacks s' = <[h := k']> (stacks s) → queues s' = queues s → done_ s' = done_ s →
  (total e s' + occ e (fins k0) = total e s + occ e (fins k'))%nat.
Proof. intros Hk Es Eq Ed. pose proof (occ_insert e fins _ h _ k' Hk) as H. unfold total. rewrite Es, Eq, Ed. lia. Qed.
Lemma total_queue e s i q0 q' s' :
  queues s !! i = Some q0 → queues s' = <[i := q']> (queues s) → stacks s' = stacks s → done_ s' = done_ s →
  (total e s' + occ e (q0.*1) = total e s + occ e (q'.*1))%nat.
Proof. intros Hq Eq Es Ed. pose proof (occ_insert e (fmap fst) _ i _ q' Hq) as H. unfold total. rewrite Es, Eq, Ed. lia. Qed.

Lemma occ_one e x : occ e [x] = if decide (e = x) then 1%nat else 0%nat.
Proof. unfold occ. cbn. destruct (Nat.eq_dec x e), (decide (e = x)); congruence. Qed.

Lemma total_dispatch e s i t q :
  queues s !! i = Some q → total e (dispatch i t q s) = (total e s + if decide (e = next_event s) then 1 else 0)%nat.
Proof.
  intros Hq. pose proof (total_queue e s i q (q ++ [(next_event s, t)]) (dispatch i t q s) Hq eq_refl eq_refl eq_refl) as H.
  rewrite fmap_app, occ_app in H. cbn [fmap list_fmap fst] in H. rewrite occ_one in H. lia.
Qed.

Ltac deal_lt := repeat (case_decide || destruct (decide _)); lia.

(** A centre takes an event off its queue. *)
Lemma inv_take s h e t q :
  inv s → stacks s !! h = Some [] → queues s !! h = Some ((e, t) :: q) →
  inv (log (id_of t) (set_stack h (acts_of t ++ [Finish e]) (set_queue h q s))).
Proof.
  intros Hi Ek Eq. pose proof (inv_queue _ Hi _ _ Eq) as Hqf. apply Forall_cons in Hqf as [Hft Hqf]. cbn in Hft.
  destruct (queues_put s h _ q Hi Eq Hqf) as [Hl Hq']. assert (h < n)%nat as Hh by (rewrite <- (inv_queues _ Hi); by eapply lookup_lt_Some).
  eapply (inv_put s _ h _ (acts_of t ++ [Finish e]) Hi Ek); try done.
  - apply Forall_app. split; [by eapply acts_fit|by repeat constructor].
  - intros e'. rewrite waits_app, acts_no_waits. cbn. set_solver.
  - intros e'. rewrite <- (inv_total _ Hi). pose proof (total_queue e' s h _ q (set_queue h q s) Eq eq_refl eq_refl eq_refl) as H1.
    pose proof (total_stack e' (set_queue h q s) h [] (acts_of t ++ [Finish e]) (set_stack h (acts_of t ++ [Finish e]) (set_queue h q s)) Ek eq_refl eq_refl eq_refl) as H2.
    rewrite fins_app, acts_no_fins, app_nil_l in H2. change (fins [Finish e]) with [e] in H2. change (((e, t) :: q).*1) with ([e] ++ q.*1) in H1.
    rewrite occ_app in H1. change (total e' (log (id_of t) ?s)) with (total e' s). change (occ e' (fins [])) with 0%nat in H2. lia.
Qed.

(** A new event is queued; the thread goes on, or waits for it. *)
Lemma inv_dispatch s h i a t k k' q :
  inv s → stacks s !! h = Some (Call i a t :: k) → queues s !! i = Some q → fits i t → Forall (act_fits h) k' → fins k' = fins k →
  (∀ e, e ∈ waits k' → e ∈ waits k ∨ e = next_event s) → inv (set_stack h k' (dispatch i t q s)).
Proof.
  intros Hi Ek Eq Hft Hk Hfin Hw.
  destruct (queues_put s i _ (q ++ [(next_event s, t)]) Hi Eq) as [Hl Hq'].
  { apply Forall_app. split; [by eapply (inv_queue _ Hi)|by repeat constructor]. }
  eapply (inv_put s _ h _ k' Hi Ek); try done; [cbn; lia| |].
  - intros e He. destruct (Hw e He) as [H|H]; [by left|right; cbn; lia].
  - intros e. pose proof (total_stack e (dispatch i t q s) h _ k' (set_stack h k' (dispatch i t q s)) Ek eq_refl eq_refl eq_refl) as H1.
    rewrite (total_dispatch e s i t q Eq), (inv_total _ Hi) in H1. change (fins (Call i a t :: k)) with (fins k) in H1. rewrite Hfin in H1.
    cbn [set_stack dispatch next_event] in *. revert H1. deal_lt.
Qed.

Lemma inv_step s s' : inv s → step s s' → inv s'.
Proof.
  intros Hi Hstep. revert Hi. destruct Hstep as [h s1 s2 Ht]. intros Hi. apply turn_move in Ht. pose proof (inv_total _ Hi) as Htot.
  destruct Ht as [e t q Ek Eq|i t k q Ek Eq|t k q Ek Eq|i t k q Hne Ek Eq|e k Ek|e k Ek _]; [by eapply inv_take|..];
    pose proof (inv_fit _ Hi _ _ Ek) as Hfit; apply Forall_cons in Hfit as [Ha Hk].
  - eapply inv_dispatch; try done; [by apply Ha|]. intros e He. by left.
  - destruct Ha as (_&Hj&Hft). eapply (inv_put s1 _ h _ (acts_of t ++ k) Hi Ek); try done; [..|apply (inv_queues _ Hi)|apply (inv_queue _ Hi)|].
    + apply Forall_app. split; [by eapply acts_fit|done].
    + intros e'. rewrite waits_app, acts_no_waits. by left.
    + intros e'. rewrite <- Htot. pose proof (total_stack e' s1 h _ (acts_of t ++ k) (set_stack h (acts_of t ++ k) s1) Ek eq_refl eq_refl eq_refl) as H1.
      rewrite fins_app, acts_no_fins, app_nil_l in H1. change (fins (Call h false t :: k)) with (fins k) in H1.
      change (total e' (log (id_of t) ?s)) with (total e' s). lia.
  - destruct Ha as (Hc&Hj&Hft). eapply inv_dispatch; try done.
    + constructor; [|done]. cbn. destruct (decide (h < n)%nat) as [Hlt|]; [|lia]. by destruct (Hc Hlt).
    + intros e He. change (waits (Wait (next_event s1) :: k)) with (next_event s1 :: waits k) in He.
      apply elem_of_cons in He as [->|He]; [by right|by left].
  - eapply (inv_put s1 _ h _ k Hi Ek); try done; [intros e' He'; by left|apply (inv_queues _ Hi)|apply (inv_queue _ Hi)|].
    intros e'. rewrite <- Htot. pose proof (occ_insert e' fins _ h _ k Ek) as H1. change (fins (Finish e :: k)) with ([e] ++ fins k) in H1.
    rewrite occ_app in H1. unfold total. cbn [set_stack set_done stacks queues done_]. change (e :: done_ s1) with ([e] ++ done_ s1).
    rewrite occ_app. lia.
  - eapply (inv_put s1 _ h _ k Hi Ek); try done; [|apply (inv_queues _ Hi)|apply (inv_queue _ Hi)|].
    + intros e' He'. left. change (waits (Wait e :: k)) with (e :: waits k). by right.
    + intros e'. rewrite <- Htot. pose proof (total_stack e' s1 h _ k (set_stack h k s1) Ek eq_refl eq_refl eq_refl) as H1.
      change (fins (Wait e :: k)) with (fins k) in H1. lia.
Qed.

Definition program_ok (p : list (nat * bool * task)) : Prop := Forall (λ c, (c.1.1 < n)%nat ∧ fits c.1.1 c.2) p.

Lemma no_marks p : fins (acts p) = [] ∧ waits (acts p) = [].
Proof. induction p as [|[[j a] t] p [IH1 IH2]]; [done|]. by split. Qed.

Lemma inv_init programs : Forall program_ok programs → inv (init n programs).
Proof.
  intros Hp. split; cbn [init stacks queues next_event].
  - by rewrite length_replicate.
  - rewrite length_app, length_replicate. lia.
  - intros h k Hk. apply lookup_app_Some in Hk as [Hk|[Hge Hk]].
    + apply lookup_replicate in Hk as [-> _]. constructor.
    + rewrite length_replicate in Hge, Hk. rewrite list_lookup_fmap in Hk. destruct (programs !! _) as [p|] eqn:E; [|done]. injection Hk as <-.
      pose proof (Forall_lookup_1 _ _ _ _ Hp E) as Hok. apply Forall_fmap. eapply Forall_impl; [exact Hok|].
      intros [[j a] t] [H1 H2]. cbn in *. split_and!; try done. lia.
  - intros i q Hq. apply lookup_replicate in Hq as [-> _]. constructor.
  - intros e. unfold total. cbn [done_ queues stacks init]. destruct (decide (e < 0)%nat); [lia|].
    assert (∀ m, replicate m [] ≫= (fmap fst : list (nat * task) → list nat) = []) as E1 by (intros m; by induction m).
    assert (replicate n [] ≫= fins = []) as E2 by (by induction n).
    rewrite E1, bind_app, E2. assert ((acts <$> programs) ≫= fins = []) as ->; [|done].
    clear. induction programs as [|p l IH]; [done|]. cbn. rewrite IH, app_nil_r. apply no_marks.
  - intros h k e Hk He. apply lookup_app_Some in Hk as [Hk|[_ Hk]]; [apply lookup_replicate in Hk as [-> _]; by apply elem_of_nil in He|].
    rewrite list_lookup_fmap in Hk. destruct (programs !! _) as [p|]; [|done]. injection Hk as <-. destruct (no_marks p) as [_ E].
    rewrite E in He. by apply elem_of_nil in He.
Qed.
Lemma turn_defined h s o : inv s → turn h s = Some o → ∃ s', o = Ret s'.
Proof.
  intros Hi. unfold turn. destruct (stacks s !! h) as [[|[i a t|e|e] k]|] eqn:Ek; [| | | |done].
  - destruct (queues s !! h) as [[|[e t] q]|]; [done| |done]. intros [= <-]. by eexists.
  - intros [= <-]. pose proof (inv_fit _ Hi _ _ Ek) as Hf. apply Forall_cons in Hf as [(_&Hj&_) _].
    unfold submit_to. rewrite <- (inv_queues _ Hi) in Hj. apply lookup_lt_is_Some in Hj as [q ->]. cbn.
    destruct a; [by eexists|]. case_bool_decide; by eexists.
  - intros [= <-]. by eexists.
  - case_bool_decide; [|done]. intros [= <-]. by eexists.
Qed.

(** When nobody can move, there is nothing left to do. *)
Lemma stuck_finished s : inv s → (∀ h, turn h s = None) → Forall (.= []) (stacks s) ∧ Forall (.= []) (queues s).
Proof.
  intros Hi Hstuck.
  assert (∀ h k, (h < n)%nat → stacks s !! h = Some k → k = []) as Hcentre.
  { intros h k Hh Ek. specialize (Hstuck h). unfold turn in Hstuck. rewrite Ek in Hstuck. destruct k as [|[i a t|e|e] k]; try done.
    pose proof (inv_fit _ Hi _ _ Ek) as Hf. apply Forall_cons in Hf as [Hf _]. cbn in Hf. lia. }
  assert (Forall (.= []) (queues s)) as Hq.
  { apply Forall_lookup. intros i q Eq. pose proof (lookup_lt_Some _ _ _ Eq) as Hlt. rewrite (inv_queues _ Hi) in Hlt.
    pose proof (inv_stacks _ Hi). destruct (lookup_lt_is_Some_2 (stacks s) i) as [k Ek]; [lia|].
    pose proof (Hcentre i k Hlt Ek) as ->. specialize (Hstuck i). unfold turn in Hstuck. rewrite Ek, Eq in Hstuck. by destruct q as [|[]]. }
  split; [|done]. apply Forall_lookup. intros h k Ek. destruct (decide (h < n)%nat) as [|Hge]; [by eapply Hcentre|].
  assert (∀ e, (e < next_event s)%nat → e ∈ done_ s) as Hdone.
  { intros e He. pose proof (inv_total _ Hi e) as Ht. destruct (decide _) as [_|]; [|lia]. unfold total in Ht.
    assert (queues s ≫= fmap fst = []) as E1 by (clear -Hq; induction Hq as [|q l -> _ IH]; [done|exact IH]).
    assert (stacks s ≫= fins = []) as E2.
    { apply elem_of_nil_inv. intros x Hx. apply list_elem_of_bind in Hx as (k'&Hx&Hin). apply list_elem_of_lookup_1 in Hin as [h' Eh'].
      apply list_elem_of_bind in Hx as (a&Ha&Hin). destruct a as [| e'|]; [by apply elem_of_nil in Ha| |by apply elem_of_nil in Ha].
      pose proof (inv_fit _ Hi _ _ Eh') as Hf. rewrite Forall_forall in Hf. pose proof (Hf _ Hin) as Hlt. cbn in Hlt.
      rewrite (Hcentre h' k' Hlt Eh') in Hin. by apply elem_of_nil in Hin. }
    rewrite E1, E2 in Ht. cbn in Ht. apply list_elem_of_In. apply (count_occ_In Nat.eq_dec). unfold occ in Ht. lia. }
  destruct k as [|[i a t|e|e] k]; [done|..]; specialize (Hstuck h); unfold turn in Hstuck; rewrite Ek in Hstuck; try done.
  rewrite bool_decide_eq_true_2 in Hstuck; [done|]. apply Hdone. eapply (inv_wait _ Hi _ _ _ Ek). apply elem_of_cons. by left.
Qed.

End progress.

(** C8: When no function given to a centre waits for another centre, [submit_to]
    never blocks for good: a run never aborts, takes at most as many steps as
    there is work, and stops only when every thread has finished, every queue
    is empty and every function has run exactly once. *)
Theorem submits_complete n programs m s :
  Forall (program_ok n) programs → nsteps step m (init n programs) s →
  (m ≤ weight (init n programs))%nat ∧ (∀ h o, turn h s = Some o → ∃ s', o = Ret s') ∧
  ((∀ h, turn h s = None) →
    Forall (.= []) (stacks s) ∧ Forall (.= []) (queues s) ∧ ran s ≡ₚ pending (init n programs)).
Proof.
  intros Hp Hrun. pose proof (runs_bounded _ _ _ Hrun) as Hb. assert (rtc step (init n programs) s) as Hr by (apply rtc_nsteps; by exists m).
  assert (inv n s) as Hi by exact (rtc_invariant step (inv n) _ _ (inv_step n) (inv_init n programs Hp) Hr).
  assert (ran s ++ pending s ≡ₚ pending (init n programs)) as Hran.
  { refine (rtc_invariant step (λ s, ran s ++ pending s ≡ₚ pending (init n programs)) _ s _ _ Hr); [|done].
    intros s1 s2 H1 Hs. by rewrite (step_runs _ _ Hs). }
  split_and!; [lia|intros h o; by apply turn_defined with n|]. intros Hstuck. destruct (stuck_finished n s Hi Hstuck) as [H1 H2].
  split_and!; [done..|]. rewrite <- Hran. assert (pending s = []) as ->; [|by rewrite app_nil_r]. unfold pending.
  assert (∀ {A} (f : list A → list nat) l, f [] = [] → Forall (.= []) l → l ≫= f = []) as E.
  { intros A f l Hf Hl. induction Hl as [|x l -> _ IH]; [done|]. cbn. by rewrite Hf, IH. }
  by rewrite !E.
Qed.

(** Runs by computation *)
Definition run_turns (hs : list nat) (s : st) : option st :=
  foldl (λ o h, s ← o; match turn h s with Some (Ret s') => Some s' | _ => None end) (Some s) hs.
Lemma run_turns_steps hs s s' : run_turns hs s = Some s' → nsteps step (length hs) s s'.
Proof.
  unfold run_turns. revert s. induction hs as [|h hs IH]; intros s; cbn; [intros [= ->]; constructor|].
  destruct (turn h s) as [[s1|]|] eqn:E; cbn; intros H.
  1: { eapply nsteps_l; [by eapply step_turn|by apply IH]. }
  all: exfalso; clear -H; induction hs; [done|by apply IHhs].
Qed.

Definition demo_programs : list (list (nat * bool * task)) :=
  [[(0%nat, false, Task 7 [(0%nat, false, Task 8 []); (1%nat, true, Task 9 [])])]].
Lemma submits_complete_witness :
  ∃ s, run_turns [2; 0; 0; 0; 0; 1; 1; 2]%nat (init 2 demo_programs) = Some s ∧ ran s ≡ₚ [7; 8; 9]%nat.
Proof.
  eexists. split; [by vm_compute|]. eapply (submits_complete 2 demo_programs).
  - repeat match goal with
      | |- Forall _ _ => constructor | |- fits _ _ _ => constructor | |- _ ∧ _ => split | |- program_ok _ _ => constructor
      | |- _ ∨ _ => (by left) || (by right) | |- (_ < _)%nat => cbn; lia
      end.
  - apply (run_turns_steps [2; 0; 0; 0; 0; 1; 1; 2]%nat). by vm_compute.
  - intros [|[|[|h]]]; reflexivity.
Defined.

(** Two functions that each wait for the other's centre stop both. *)
Definition crossing : list (list (nat * bool * task)) :=
  [[(0%nat, true, Task 1 [(1%nat, false, Task 2 [])]); (1%nat, true, Task 3 [(0%nat, false, Task 4 [])])]].
Theorem crossing_submits_deadlock :
  ∃ s, rtc step (init 2 crossing) s ∧ (∀ h, turn h s = None) ∧ ¬ Forall (.= []) (stacks s).
Proof.
  eexists. split; [apply rtc_nsteps; eexists; apply (run_turns_steps [2; 2; 0; 1; 0; 1]%nat); vm_compute; reflexivity|]. split.
  - intros [|[|[|h]]]; reflexivity.
  - intros H. apply Forall_cons in H as [H _]. done.
Qed.

End submit.
