(* ===== verification/Double.v ===== *)
(** * Double precision numbers

    The conversions of common/common_time.h compute in [double]. This file is
    the arithmetic they use: the operations of the Standard Library's
    specification of IEEE 754 at 53 bits, the conversions from and to integers
    of C++, and what rounding does to a real number: it is within half a unit
    in the last place and it never passes a number that has a representation. *)

From Stdlib Require Import SpecFloat Reals Lra.
From S2P Require Import Prelude.

Module Double.

Abbreviation double := spec_float.

Definition add : double → double → double := SFadd 53 1024.
Definition sub : double → double → double := SFsub 53 1024.
Definition mul : double → double → double := SFmul 53 1024.
Definition div : double → double → double := SFdiv 53 1024.
Definition eqb : double → double → bool := SFeqb.
Definition ltb : double → double → bool := SFltb.

(** An integer rounded to the nearest double; a literal such as [1e6] *)
Definition of_Z (n : Z) : double := binary_normalize 53 1024 n 0 false.

(** The literal [0.5] *)
Definition half : double := S754_finite false 4503599627370496 (-53).

(** The integer part, towards 0 *)
Definition pos_to_Z (m : positive) (e : Z) : Z := if 0 <=? e then Zpos m * 2 ^ e else Zpos m / 2 ^ (- e).
Definition to_Z (d : double) : option Z :=
  match d with
  | S754_zero _ => Some 0
  | S754_finite s m e => Some (if s then - pos_to_Z m e else pos_to_Z m e)
  | _ => None
  end.

(** [trunc] *)
Definition trunc (d : double) : double :=
  match d with
  | S754_finite s m e => if 0 <=? e then d else if pos_to_Z m e =? 0 then S754_zero s else of_Z (if s then - pos_to_Z m e else pos_to_Z m e)
  | _ => d
  end.

(** A cast to an integer type is undefined when the integer part is outside it. *)
Definition cast (lo hi : Z) (d : double) : outcome Z :=
  match to_Z d with
  | Some n => if (lo <=? n) && (n <=? hi) then Ret n else Crash Undefined
  | None => Crash Undefined
  end.
Definition to_u64 : double → outcome Z := cast 0 18446744073709551615.
Definition to_u32 : double → outcome Z := cast 0 4294967295.
Definition to_long : double → outcome Z := cast (-9223372036854775808) 9223372036854775807.

End Double.

#[global] Arguments Double.add : simpl never.
#[global] Arguments Double.sub : simpl never.
#[global] Arguments Double.mul : simpl never.
#[global] Arguments Double.div : simpl never.
#[global] Arguments Double.of_Z : simpl never.
#[global] Arguments Double.eqb : simpl never.
#[global] Arguments Double.ltb : simpl never.

(** ** Powers of two *)

Infix "≤" := Rle : R_scope.
Notation "x ≤ y ≤ z" := (x <= y <= z)%R : R_scope.
Notation "x ≤ y < z" := (x <= y < z)%R : R_scope.
Notation "x < y ≤ z" := (x < y <= z)%R : R_scope.

Section rounding.
Local Open Scope R_scope.

Definition bpow (e : Z) : R := powerRZ 2 e.

Lemma bpow_pos e : 0 < bpow e.
Proof. apply powerRZ_lt. lra. Qed.
Lemma bpow_add a b : bpow (a + b) = bpow a * bpow b.
Proof. apply powerRZ_add. lra. Qed.
Lemma bpow_sub a b : bpow (a - b) * bpow b = bpow a.
Proof. rewrite <- bpow_add. f_equal. lia. Qed.
Lemma bpow_Z n : (0 ≤ n)%Z → bpow n = IZR (2 ^ n).
Proof.
  intros Hn. unfold bpow. destruct n as [|p|p]; [done| |lia]. cbn [powerRZ]. change 2 with (IZR 2). rewrite pow_IZR. f_equal.
  f_equal. lia.
Qed.
Lemma bpow_le a b : (a ≤ b)%Z → bpow a ≤ bpow b.
Proof.
  intros H. replace b with ((b - a) + a)%Z by lia. rewrite bpow_add, (bpow_Z (b - a)) by lia.
  assert (1 ≤ IZR (2 ^ (b - a))) by (apply IZR_le; pose proof (Z.pow_pos_nonneg 2 (b - a)); lia).
  pose proof (bpow_pos a). nra.
Qed.
Lemma bpow_m1 : bpow (-1) = / 2.
Proof. pose proof (bpow_sub 0 1) as H. change (bpow (0 - 1)) with (bpow (-1)) in H. change (bpow 0) with 1 in H. change (bpow 1) with (2 * 1) in H. lra. Qed.
Lemma bpow_inv n : (0 ≤ n)%Z → bpow (- n) = / IZR (2 ^ n).
Proof.
  intros Hn. rewrite <- bpow_Z by done. pose proof (bpow_pos n). assert (bpow (- n) * bpow n = 1) as E by (rewrite <- bpow_add; replace (- n + n)%Z with 0%Z by lia; done).
  apply (Rmult_eq_reg_r (bpow n)); [|lra]. rewrite E. field. lra.
Qed.
Lemma bpow_lt_inv a b : bpow a < bpow b → (a < b)%Z.
Proof. intros H. destruct (Z.lt_ge_cases a b) as [|Hge]; [done|]. pose proof (bpow_le _ _ Hge). lra. Qed.

(** ** The value of a double *)

Definition V (d : spec_float) : R :=
  match d with
  | S754_finite s m e => (if s then -1 else 1) * (IZR (Zpos m) * bpow e)
  | _ => 0
  end.
Definition finite (d : spec_float) : bool := match d with S754_zero _ | S754_finite _ _ _ => true | _ => false end.

(** [d] is a double with value [x]. *)
Definition isR (d : spec_float) (x : R) : Prop := valid_binary 53 1024 d = true ∧ finite d = true ∧ V d = x.

(** ** A real number between integers *)

Definition inb (m : Z) (x : R) (l : location) : Prop :=
  match l with
  | loc_Exact => x = IZR m
  | loc_Inexact c => IZR m < x < IZR m + 1 ∧ match c with Lt => x < IZR m + / 2 | Eq => x = IZR m + / 2 | Gt => x > IZR m + / 2 end
  end.

Lemma inb_bounds m x l : inb m x l → IZR m ≤ x < IZR m + 1.
Proof. destruct l; cbn; lra. Qed.

Definition shr_ok (r : shr_record) (x : R) : Prop := (0 ≤ shr_m r)%Z ∧ inb (shr_m r) x (loc_of_shr_record r).

Lemma shr_1_ok r x : shr_ok r x → shr_ok (shr_1 r) (x / 2).
Proof.
  destruct r as [m r s]. intros [Hm Hin]. unfold shr_ok in *. cbn [shr_m] in Hm.
  assert (∃ q (b : bool), m = (2 * q + if b then 1 else 0)%Z ∧ (0 ≤ q)%Z ∧ shr_1 (Build_shr_record m r s) = Build_shr_record q b (r || s)) as (q&b&->&Hq&->).
  { destruct m as [|[p|p|]|p]; cbn [shr_1]; [exists 0%Z, false|exists (Zpos p), true|exists (Zpos p), false|exists 0%Z, true|lia]; split_and!; try done; lia. }
  split; [done|]. cbn [shr_m loc_of_shr_record] in *.
  assert (IZR (2 * q + if b then 1 else 0) = 2 * IZR q + if b then 1 else 0) as E by (rewrite plus_IZR, mult_IZR; by destruct b).
  destruct r, s, b; cbn [orb inb loc_of_shr_record] in *; rewrite E in Hin; lra.
Qed.

Lemma iter_shr_ok p r x : shr_ok r x → shr_ok (SpecFloat.iter_pos shr_1 p r) (x / bpow (Zpos p)).
Proof.
  revert r x. induction p as [p IH|p IH|]; intros r x Hr; cbn [SpecFloat.iter_pos].
  - replace (x / bpow (Zpos p~1)) with (x / 2 / bpow (Zpos p) / bpow (Zpos p)); [by apply IH, IH, shr_1_ok|].
    replace (Zpos p~1) with (Zpos p + Zpos p + 1)%Z by lia. rewrite !bpow_add. change (bpow 1) with (2 * 1). pose proof (bpow_pos (Zpos p)). field. lra.
  - replace (x / bpow (Zpos p~0)) with (x / bpow (Zpos p) / bpow (Zpos p)); [by apply IH, IH|].
    replace (Zpos p~0) with (Zpos p + Zpos p)%Z by lia. rewrite !bpow_add. pose proof (bpow_pos (Zpos p)). field. lra.
  - replace (x / bpow 1) with (x / 2); [by apply shr_1_ok|]. change (bpow 1) with (2 * 1). field.
Qed.

Lemma shr_ok_loc m l x : (0 ≤ m)%Z → inb m x l → shr_ok (shr_record_of_loc m l) x.
Proof. intros Hm Hin. destruct l as [|[]]; done. Qed.

(** Shifting to an exponent at least as large *)
Lemma shr_to_ok m e l x e' r :
  (0 ≤ m)%Z → inb m (x / bpow e) l → (e ≤ e')%Z → shr (shr_record_of_loc m l) e (e' - e) = (r, e') → shr_ok r (x / bpow e').
Proof.
  intros Hm Hin He Hr. pose proof (shr_ok_loc _ _ _ Hm Hin) as Hok. unfold shr in Hr. destruct (e' - e)%Z as [|p|p] eqn:E; [| |lia].
  - injection Hr as <- ->. done.
  - injection Hr as <- _. replace (x / bpow e') with (x / bpow e / bpow (Zpos p)); [by apply iter_shr_ok|].
    replace e' with (e + Zpos p)%Z by lia. rewrite bpow_add. pose proof (bpow_pos e). pose proof (bpow_pos (Zpos p)). field. lra.
Qed.

(** ** Digits *)

Lemma digits_bounds m : (0 < m)%Z → (1 ≤ Zdigits2 m ∧ 2 ^ (Zdigits2 m - 1) ≤ m < 2 ^ Zdigits2 m)%Z.
Proof.
  intros Hm. destruct m as [|p|]; [lia| |lia]. cbn [Zdigits2]. change (digits2_pos p) with (Pos.size p).
  pose proof (Pos.size_le p) as Hle. pose proof (Pos.size_gt p) as Hgt.
  assert (2 * 2 ^ (Zpos (Pos.size p) - 1) = 2 ^ Zpos (Pos.size p))%Z as E by (rewrite <- Z.pow_succ_r by lia; f_equal; lia). lia.
Qed.
Lemma digits_unique m d : (1 ≤ d)%Z → (2 ^ (d - 1) ≤ m < 2 ^ d)%Z → Zdigits2 m = d.
Proof.
  intros Hd [Hlo Hhi]. assert (0 < m)%Z as Hm by (pose proof (Z.pow_pos_nonneg 2 (d - 1)); lia).
  destruct (digits_bounds m Hm) as (H1&H2&H3).
  assert (d - 1 < Zdigits2 m)%Z by (apply (Z.pow_lt_mono_r_iff 2); lia).
  assert (Zdigits2 m - 1 < d)%Z by (apply (Z.pow_lt_mono_r_iff 2); lia). lia.
Qed.
Lemma digits_le m d : (0 ≤ m < 2 ^ d)%Z → (0 ≤ d)%Z → (Zdigits2 m ≤ d)%Z.
Proof.
  intros [Hm Hd] H0. destruct (Z.eq_dec m 0%Z) as [->|]; [done|]. destruct (digits_bounds m) as (H1&H2&_); [lia|].
  assert (Zdigits2 m - 1 < d)%Z by (apply (Z.pow_lt_mono_r_iff 2); lia). lia.
Qed.

(** ** Rounding to the nearest *)

(** [y] is [x] rounded: close to it, and on the same side of every number that has a representation. *)
Definition near (x y : R) : Prop :=
  Rabs (y - x) ≤ bpow (-53) * Rabs x + bpow (-1075) ∧
  ∀ n k, (-1074 ≤ k)%Z → (Z.abs n ≤ 2 ^ 53)%Z →
    (IZR n * bpow k ≤ x → IZR n * bpow k ≤ y) ∧ (x ≤ IZR n * bpow k → y ≤ IZR n * bpow k).

Lemma near_opp x y : near x y → near (- x) (- y).
Proof.
  intros [H1 H2]. split.
  - rewrite Rabs_Ropp. replace (- y - - x) with (- (y - x)) by lra. by rewrite Rabs_Ropp.
  - intros n k Hk Hn. destruct (H2 (- n)%Z k Hk) as [Ha Hb]; [lia|]. rewrite opp_IZR in Ha, Hb. set (b := IZR n * bpow k) in *.
    replace (- IZR n * bpow k) with (- b) in Ha, Hb by (unfold b; lra). lra.
Qed.
Lemma near_exact n k y : near (IZR n * bpow k) y → (-1074 ≤ k)%Z → (Z.abs n ≤ 2 ^ 53)%Z → y = IZR n * bpow k.
Proof. intros [_ H] Hk Hn. destruct (H n k Hk Hn) as [Ha Hb]. specialize (Ha ltac:(lra)). specialize (Hb ltac:(lra)). lra. Qed.
Lemma near_0 y : near 0 y → y = 0.
Proof.
  intros H. assert (0 = IZR 0 * bpow 0) as E by (rewrite Rmult_0_l; done). rewrite E in H at 1. rewrite E at 1. by apply near_exact in H.
Qed.

Lemma rne_spec m x l : inb m x l →
  Rabs (IZR (round_nearest_even m l) - x) ≤ / 2 ∧
  (round_nearest_even m l = m ∨ round_nearest_even m l = (m + 1)%Z ∧ IZR m < x).
Proof.
  intros Hin. destruct l as [|[]]; cbn [inb round_nearest_even] in *;
    [|destruct (Z.even m)| |]; rewrite ?plus_IZR; (split; [unfold Rabs; destruct (Rcase_abs _); lra|]); [by left|by left|right|by left|right];
    try (split; [done|lra]).
Qed.

Lemma round_near m l x e :
  (-1074 ≤ e)%Z → 0 ≤ x → inb m (x / bpow e) l → e = (-1074)%Z ∨ bpow (52 + e) ≤ x → near x (IZR (round_nearest_even m l) * bpow e).
Proof.
  intros He Hx Hin Hlow. pose proof (bpow_pos e) as Hp. destruct (rne_spec _ _ _ Hin) as [Habs Hr]. pose proof (inb_bounds _ _ _ Hin) as [Hb1 Hb2].
  set (r := round_nearest_even m l) in *. set (t := x / bpow e) in *. assert (x = t * bpow e) as Ex by (unfold t; field; lra).
  assert (m ≤ r)%Z as Hmr by lia.
  split.
  - replace (IZR r * bpow e - x) with ((IZR r - t) * bpow e) by lra. rewrite Rabs_mult, (Rabs_right (bpow e)), (Rabs_right x) by lra.
    apply Rle_trans with (/ 2 * bpow e); [nra|]. destruct Hlow as [->|Hlow].
    + replace (/ 2 * bpow (-1074)) with (bpow (-1075)); [pose proof (bpow_pos (-53)); nra|].
      replace (-1075)%Z with (-1 + -1074)%Z by done. rewrite bpow_add. by rewrite bpow_m1.
    + pose proof (bpow_pos (-1075)). pose proof (bpow_pos (-53)). replace (/ 2 * bpow e) with (bpow (-53) * bpow (52 + e)); [nra|].
      rewrite <- bpow_add. replace (-53 + (52 + e))%Z with (-1 + e)%Z by lia. rewrite bpow_add. by rewrite bpow_m1.
  - intros n k Hk Hn. destruct (Z.le_gt_cases e k) as [Hek|Hek].
    + assert (IZR n * bpow k = IZR (n * 2 ^ (k - e)) * bpow e) as ->.
      { rewrite mult_IZR, <- bpow_Z by lia. rewrite Rmult_assoc, <- bpow_add. do 2 f_equal. lia. }
      set (g := (n * 2 ^ (k - e))%Z). split; intros Hg; apply Rmult_le_compat_r; try lra; apply IZR_le.
      * assert (IZR g ≤ t) as Hgt by nra. assert (g < m + 1)%Z by (apply lt_IZR; rewrite plus_IZR; lra). lia.
      * assert (t ≤ IZR g) as Hgt by nra. assert (m ≤ g)%Z by (apply le_IZR; lra).
        destruct Hr as [->|[-> Hlt]]; [done|]. assert (m < g)%Z by (apply lt_IZR; lra). lia.
    + destruct Hlow as [?|Hlow]; [lia|].
      assert (IZR n * bpow k ≤ bpow (52 + e)) as Hg.
      { apply Rle_trans with (bpow 53 * bpow k); [apply Rmult_le_compat_r; [pose proof (bpow_pos k); lra|rewrite bpow_Z by lia; apply IZR_le; lia]|].
        rewrite <- bpow_add. apply bpow_le. lia. }
      assert (2 ^ 52 ≤ m)%Z as Hm.
      { rewrite bpow_add, (bpow_Z 52) in Hlow by lia. assert (IZR (2 ^ 52) ≤ t) by nra.
        assert (2 ^ 52 < m + 1)%Z by (apply lt_IZR; rewrite plus_IZR; lra). lia. }
      assert (bpow (52 + e) ≤ IZR r * bpow e) as Hlow'.
      { rewrite bpow_add, (bpow_Z 52) by lia. apply Rmult_le_compat_r; [lra|]. apply IZR_le. lia. }
      split; intros Hgx; [lra|]. assert (x = bpow (52 + e)) as Heq by lra. rewrite bpow_add, (bpow_Z 52) in Heq by lia.
      assert (t = IZR (2 ^ 52)) as Et by nra. destruct Hr as [Hr|[Hr Hlt]].
      * assert (IZR r ≤ t) by (rewrite Hr; lra). nra.
      * assert (m < 2 ^ 52)%Z by (apply lt_IZR; lra). lia.
Qed.

Abbreviation Fexp := (fexp 53 1024).
Lemma Fexp_max e : Fexp e = Z.max (e - 53) (-1074).
Proof. done. Qed.

(** The second shift of [binary_round_aux]: it does nothing, or carries a full mantissa over. *)
Lemma finish_round (s : bool) (r e : Z) :
  (0 ≤ r ≤ 2 ^ 53)%Z → (-1074 ≤ e)%Z → e = (-1074)%Z ∨ (2 ^ 52 ≤ r)%Z → (if decide (r = 2 ^ 53) then e < 971 else e ≤ 971)%Z →
  ∃ d, isR d ((if s then -1 else 1) * (IZR r * bpow e)) ∧
    (let '(mrs, e'') := shr_fexp 53 1024 r e loc_Exact in
     match shr_m mrs with
     | Z0 => S754_zero s
     | Zpos m => if (e'' <=? 1024 - 53)%Z then S754_finite s m e'' else S754_infinity s
     | Zneg _ => S754_nan
     end) = d.
Proof.
  intros [H0 Hr] He Hcan Hmax. eexists. split; [|reflexivity]. destruct (decide (r = 2 ^ 53)%Z) as [->|Hne].
  - change (shr_fexp 53 1024 (2 ^ 53) e loc_Exact) with (shr (Build_shr_record (2 ^ 53) false false) e (Fexp (54 + e) - e)).
    replace (Fexp (54 + e) - e)%Z with 1%Z by (rewrite Fexp_max; lia). change (shr (Build_shr_record (2 ^ 53) false false) e 1) with (Build_shr_record (2 ^ 52) false false, (e + 1)%Z).
    cbn [shr_m]. change (2 ^ 52)%Z with (Zpos 4503599627370496) at 1. cbv iota. rewrite (proj2 (Z.leb_le _ _)) by lia.
    split_and!; [|done|].
    + cbn [valid_binary]. unfold SpecFloat.bounded, canonical_mantissa. change (Zpos (digits2_pos 4503599627370496)) with 53%Z.
      rewrite Fexp_max. apply andb_true_intro. split; [apply Z.eqb_eq; lia|apply Z.leb_le; lia].
    + cbn [V]. rewrite bpow_add. change (bpow 1) with (2 * 1). replace (IZR (2 ^ 53)) with (2 * IZR 4503599627370496) by (rewrite <- mult_IZR; done). lra.
  - pose proof (digits_le r 53) as Hd. specialize (Hd ltac:(lia) ltac:(lia)).
    assert (shr_fexp 53 1024 r e loc_Exact = (Build_shr_record r false false, e)) as ->.
    { unfold shr_fexp, shr. destruct (Fexp (Zdigits2 r + e) - e)%Z as [|p|p] eqn:E; [done| |done]. rewrite Fexp_max in E. lia. }
    cbn [shr_m]. destruct r as [|p|p]; [|rewrite (proj2 (Z.leb_le _ _)) by lia|lia]; split_and!; try done.
    + cbn [V]. lra.
    + cbn [valid_binary]. unfold SpecFloat.bounded, canonical_mantissa. change (Zpos (digits2_pos p)) with (Zdigits2 (Zpos p)).
      rewrite Fexp_max. apply andb_true_intro. split; [apply Z.eqb_eq|apply Z.leb_le; lia].
      destruct Hcan as [->|Hcan]; [lia|]. rewrite (digits_unique (Zpos p) 53); [lia|lia|]. change (53 - 1)%Z with 52%Z. lia.
Qed.

Lemma round_aux_spec s m e l x :
  (0 ≤ m)%Z → 0 ≤ x ≤ bpow 1023 → inb m (x / bpow e) l → (e ≤ Fexp (Zdigits2 m + e))%Z →
  ∃ y, isR (binary_round_aux 53 1024 s m e l) ((if s then -1 else 1) * y) ∧ near x y.
Proof.
  intros Hm [Hx Hmax] Hin He. set (d := Zdigits2 m) in *. set (e' := Fexp (d + e)) in *.
  assert (e' = Z.max (d + e - 53) (-1074)) as Ee' by done. pose proof (bpow_pos e) as Hpe. pose proof (bpow_pos e') as Hpe'.
  pose proof (inb_bounds _ _ _ Hin) as [Hb1 Hb2]. assert (x = x / bpow e * bpow e) as Ex by (field; lra). set (t := x / bpow e) in *.
  assert (m + 1 ≤ 2 ^ d)%Z as Hd. { destruct (Z.eq_dec m 0%Z) as [->|]; [done|]. destruct (digits_bounds m) as (_&_&?); [lia|]. unfold d. lia. }
  assert (0 ≤ d)%Z as Hd0 by (unfold d; destruct m; cbn; lia).
  assert (x < bpow (53 + e')) as Hup.
  { apply Rlt_le_trans with (bpow (d + e)); [|apply bpow_le; lia]. rewrite bpow_add, (bpow_Z d) by lia. apply IZR_le in Hd. rewrite plus_IZR in Hd. nra. }
  assert (e' = (-1074)%Z ∨ bpow (52 + e') ≤ x) as Hlow.
  { destruct (Z.eq_dec e' (-1074)%Z) as [|Hne]; [by left|right]. destruct (Z.eq_dec m 0%Z) as [E|]; [unfold d in *; rewrite E in *; cbn in *; lia|].
    destruct (digits_bounds m) as (?&Hlo&_); [lia|]. apply IZR_le in Hlo. rewrite <- bpow_Z in Hlo by lia.
    replace (52 + e')%Z with (d - 1 + e)%Z by lia. rewrite bpow_add. unfold d. nra. }
  assert (∃ r, shr_fexp 53 1024 m e l = (r, e')) as [r Hr].
  { unfold shr_fexp. fold d e'. unfold shr. destruct (e' - e)%Z as [|p|p] eqn:E; [| |lia]; eexists; f_equal; lia. }
  assert (shr_ok r (x / bpow e')) as [Hr0 Hrin] by (eapply shr_to_ok; [exact Hm|exact Hin|exact He|exact Hr]).
  unfold binary_round_aux. rewrite Hr. set (l' := loc_of_shr_record r) in *. set (m' := shr_m r) in *.
  pose proof (round_near m' l' x e' ltac:(lia) Hx Hrin Hlow) as Hnear. exists (IZR (round_nearest_even m' l') * bpow e'). split; [|done].
  destruct (rne_spec _ _ _ Hrin) as [Habs Hrn]. pose proof (inb_bounds _ _ _ Hrin) as [Hc1 Hc2]. set (rr := round_nearest_even m' l') in *.
  set (t' := x / bpow e') in *. assert (x = t' * bpow e') as Ex' by (unfold t'; field; lra).
  assert (m' < 2 ^ 53)%Z as Hm'. { apply lt_IZR. rewrite bpow_add, (bpow_Z 53) in Hup by lia. apply Rle_lt_trans with t'; nra. }
  destruct (finish_round s rr e') as [dd [Hdd <-]]; [lia|lia| | |exact Hdd].
  - destruct Hlow as [|Hlow]; [by left|right]. rewrite bpow_add, (bpow_Z 52) in Hlow by lia.
    assert (2 ^ 52 < m' + 1)%Z by (apply lt_IZR; rewrite plus_IZR; nra). lia.
  - destruct Hlow as [->|Hlow]; [case_decide; lia|]. case_decide as Hd53.
    + assert (m' = 2 ^ 53 - 1)%Z as Em by lia. assert (52 + e' < 1023)%Z; [|lia]. apply bpow_lt_inv. apply Rlt_le_trans with x; [|done].
      rewrite bpow_add, (bpow_Z 52) by lia. assert (IZR (2 ^ 52) < IZR m') by (apply IZR_lt; lia). nra.
    + assert (52 + e' < 1024)%Z; [|lia]. apply bpow_lt_inv. apply Rle_lt_trans with (bpow 1023); [lra|].
      change 1024%Z with (1 + 1023)%Z. rewrite bpow_add. change (bpow 1) with (2 * 1). pose proof (bpow_pos 1023). lra.
Qed.

(** ** The operations *)

Lemma near_refl x : near x x.
Proof.
  split; [|done]. replace (x - x) with 0 by lra. rewrite Rabs_R0. pose proof (bpow_pos (-53)). pose proof (bpow_pos (-1075)). pose proof (Rabs_pos x). nra.
Qed.
Lemma digits_shift m k : (0 < m)%Z → (0 ≤ k)%Z → Zdigits2 (m * 2 ^ k) = (Zdigits2 m + k)%Z.
Proof.
  intros Hm Hk. destruct (digits_bounds m Hm) as (H1&H2&H3). apply digits_unique; [lia|].
  replace (Zdigits2 m + k - 1)%Z with (Zdigits2 m - 1 + k)%Z by lia. rewrite !Z.pow_add_r by lia. pose proof (Z.pow_pos_nonneg 2 k). nia.
Qed.
Lemma iter_xO m (d : positive) : Zpos (Pos.iter xO m d) = (Zpos m * 2 ^ Zpos d)%Z.
Proof.
  induction d as [|d IH] using Pos.peano_ind; [cbn [Pos.iter]; lia|]. rewrite Pos.iter_succ, Pos2Z.inj_xO.
  rewrite IH, Pos2Z.inj_succ, Z.pow_succ_r by lia. lia.
Qed.
Lemma shl_align_down mx ex ez : (ez ≤ ex)%Z → ∃ mz, shl_align mx ex ez = (mz, ez) ∧ Zpos mz = (Zpos mx * 2 ^ (ex - ez))%Z.
Proof.
  intros Hle. unfold shl_align. destruct (ez - ex)%Z as [|d|d] eqn:E; [|lia|].
  - exists mx. replace ex with ez by lia. rewrite Z.sub_diag. split; [done|]. cbn; lia.
  - eexists. split; [done|]. rewrite iter_xO. do 2 f_equal. lia.
Qed.

Lemma scale_value m e e' : (e' ≤ e)%Z → IZR (m * 2 ^ (e - e')) * bpow e' = IZR m * bpow e.
Proof. intros H. rewrite mult_IZR, <- bpow_Z by lia. rewrite Rmult_assoc, bpow_sub. done. Qed.
Lemma inb_exact m e x : x = IZR m * bpow e → inb m (x / bpow e) loc_Exact.
Proof. intros ->. cbn. pose proof (bpow_pos e). field. lra. Qed.
Lemma pos_value m e : 0 < IZR (Zpos m) * bpow e.
Proof. pose proof (bpow_pos e). assert (0 < IZR (Zpos m)) by (apply IZR_lt; lia). nra. Qed.

Definition sgn (s : bool) : R := if s then -1 else 1.
Lemma near_sgn s x y : near x y → near (sgn s * x) (sgn s * y).
Proof. intros H. destruct s; cbn [sgn]; [replace (-1 * x) with (- x) by lra; replace (-1 * y) with (- y) by lra; by apply near_opp|by rewrite !Rmult_1_l]. Qed.

Lemma round_spec s m e : IZR (Zpos m) * bpow e ≤ bpow 1023 →
  ∃ y, isR (binary_round 53 1024 s m e) (sgn s * y) ∧ near (IZR (Zpos m) * bpow e) y.
Proof.
  intros Hmax. unfold binary_round. change (Zpos (digits2_pos m)) with (Zdigits2 (Zpos m)). set (e' := Fexp (Zdigits2 (Zpos m) + e)).
  pose proof (pos_value m e). destruct (Z.le_gt_cases e' e) as [Hle|Hlt].
  - destruct (shl_align_down m e e' Hle) as (mz&->&Hmz). apply round_aux_spec; [lia|lra| |].
    + apply inb_exact. by rewrite Hmz, scale_value.
    + rewrite Hmz, digits_shift by lia. replace (Zdigits2 (Zpos m) + (e - e') + e')%Z with (Zdigits2 (Zpos m) + e)%Z by lia. done.
  - unfold shl_align. destruct (e' - e)%Z as [|d|d] eqn:E; [lia| |lia]. apply round_aux_spec; [lia|lra|by apply inb_exact|].
    fold e'. lia.
Qed.

Lemma normalize_spec m e : Rabs (IZR m * bpow e) ≤ bpow 1023 →
  ∃ y, isR (binary_normalize 53 1024 m e false) y ∧ near (IZR m * bpow e) y.
Proof.
  intros Hmax. destruct m as [|p|p]; cbn [binary_normalize].
  - exists 0. split; [done|]. rewrite Rmult_0_l. apply near_refl.
  - rewrite Rabs_right in Hmax by (pose proof (pos_value p e); lra). destruct (round_spec false p e Hmax) as (y&H1&H2).
    exists (sgn false * y). split; [done|]. apply (near_sgn false) in H2. by rewrite Rmult_1_l in H2.
  - assert (IZR (Zneg p) * bpow e = sgn true * (IZR (Zpos p) * bpow e)) as E by (change (Zneg p) with (- Zpos p)%Z; rewrite opp_IZR; cbn; lra).
    rewrite E in *. destruct (round_spec true p e) as (y&H1&H2).
    + cbn [sgn] in Hmax. rewrite Rabs_left in Hmax by (pose proof (pos_value p e); lra). lra.
    + exists (sgn true * y). split; [done|]. by apply near_sgn.
Qed.

Lemma bpow_big n : (Z.abs n ≤ 2 ^ 1000)%Z → Rabs (IZR n) ≤ bpow 1023.
Proof.
  intros H. rewrite <- abs_IZR. apply Rle_trans with (bpow 1000); [|by apply bpow_le]. rewrite bpow_Z by lia. by apply IZR_le.
Qed.

Lemma of_Z_spec n : (Z.abs n ≤ 2 ^ 1000)%Z → ∃ y, isR (Double.of_Z n) y ∧ near (IZR n) y.
Proof.
  intros Hn. pose proof (normalize_spec n 0) as H. change (bpow 0) with 1 in H. rewrite Rmult_1_r in H. apply H. by apply bpow_big.
Qed.
Lemma near_int n y : near (IZR n) y → (Z.abs n ≤ 2 ^ 53)%Z → y = IZR n.
Proof. intros H Hn. pose proof (near_exact n 0 y) as E. change (bpow 0) with 1 in E. rewrite Rmult_1_r in E. by apply E. Qed.
Lemma of_Z_exact n : (Z.abs n ≤ 2 ^ 53)%Z → isR (Double.of_Z n) (IZR n).
Proof.
  intros Hn. destruct (of_Z_spec n) as (y&H1&H2); [lia|]. by rewrite (near_int _ _ H2 Hn) in H1.
Qed.

(** A double is 0, or a canonical mantissa and exponent. *)
Lemma isR_inv d x : isR d x →
  (x = 0 ∧ ∃ s, d = S754_zero s) ∨
  (∃ s m e, d = S754_finite s m e ∧ x = sgn s * (IZR (Zpos m) * bpow e) ∧
     e = Z.max (Zdigits2 (Zpos m) + e - 53) (-1074) ∧ (e ≤ 971)%Z).
Proof.
  intros (Hv&Hf&<-). destruct d as [s|s| |s m e]; [left; eauto|done|done|right]. exists s, m, e. split_and!; try done.
  - cbn in Hv. unfold SpecFloat.bounded, canonical_mantissa in Hv. apply andb_prop in Hv as [Hv _]. apply Z.eqb_eq in Hv. rewrite Fexp_max in Hv. by cbn [Zdigits2].
  - cbn in Hv. unfold SpecFloat.bounded in Hv. apply andb_prop in Hv as [_ Hv]. by apply Z.leb_le in Hv.
Qed.
Lemma isR_zero s : isR (S754_zero s) 0.
Proof. done. Qed.
#[local] Hint Resolve isR_zero near_refl : core.

Lemma sgn_xorb s t x y : sgn (xorb s t) * (x * y) = sgn s * x * (sgn t * y).
Proof. destruct s, t; cbn; lra. Qed.
Lemma Rabs_sgn s x : Rabs (sgn s * x) = Rabs x.
Proof. destruct s; cbn [sgn]; [replace (-1 * x) with (- x) by lra; apply Rabs_Ropp|by rewrite Rmult_1_l]. Qed.

Lemma mul_spec a b x y : isR a x → isR b y → Rabs (x * y) ≤ bpow 1023 → ∃ z, isR (Double.mul a b) z ∧ near (x * y) z.
Proof.
  intros Ha Hb Hmax.
  destruct (isR_inv _ _ Ha) as [(->&sa&->)|(sa&ma&ea&->&->&Hca&_)], (isR_inv _ _ Hb) as [(->&sb&->)|(sb&mb&eb&->&->&Hcb&_)];
    rewrite ?Rmult_0_l, ?Rmult_0_r; try by eexists.
  rewrite <- sgn_xorb in *. rewrite Rabs_sgn in Hmax. set (u := IZR (Zpos ma) * bpow ea) in *. set (v := IZR (Zpos mb) * bpow eb) in *.
  pose proof (pos_value ma ea) as Hu. pose proof (pos_value mb eb) as Hv. fold u in Hu. fold v in Hv.
  assert (u * v = IZR (Zpos (ma * mb)) * bpow (ea + eb)) as E by (unfold u, v; rewrite Pos2Z.inj_mul, mult_IZR, bpow_add; lra).
  rewrite Rabs_right in Hmax by nra.
  destruct (round_aux_spec (xorb sa sb) (Zpos (ma * mb)) (ea + eb) loc_Exact (u * v)) as (z&Hz1&Hz2); [lia|nra|by apply inb_exact| |].
  - rewrite Fexp_max. destruct (digits_bounds (Zpos ma)) as (Ha1&Ha2&_); [lia|]. destruct (digits_bounds (Zpos mb)) as (Hb1&Hb2&_); [lia|].
    destruct (digits_bounds (Zpos (ma * mb))) as (_&_&Hd); [lia|].
    assert (Zdigits2 (Zpos ma) - 1 + (Zdigits2 (Zpos mb) - 1) < Zdigits2 (Zpos (ma * mb)))%Z; [|lia].
    apply (Z.pow_lt_mono_r_iff 2); [lia|cbn; lia|]. rewrite Z.pow_add_r by lia. rewrite Pos2Z.inj_mul in Hd at 1.
    pose proof (Z.pow_pos_nonneg 2 (Zdigits2 (Zpos ma) - 1)). pose proof (Z.pow_pos_nonneg 2 (Zdigits2 (Zpos mb) - 1)). nia.
  - exists (sgn (xorb sa sb) * z). split; [done|by apply near_sgn].
Qed.

Lemma new_location_inb q r d : (0 < d)%Z → (0 ≤ r < d)%Z → inb q (IZR q + IZR r / IZR d) (new_location d r).
Proof.
  intros Hd Hr. set (t := IZR r / IZR d). assert (IZR r = t * IZR d) as E by (unfold t; field; apply not_0_IZR; lia).
  assert (0 < IZR d) as Hd' by by apply IZR_lt.
  assert ((0 < r)%Z → 0 < t) as H0 by (intros H; apply IZR_lt in H; nra). assert (t < 1) as H1 by (destruct Hr as [_ H]; apply IZR_lt in H; nra).
  assert ((2 * r < d)%Z → t < / 2) as Hlt by (intros H; apply IZR_lt in H; rewrite mult_IZR in H; nra).
  assert ((2 * r = d)%Z → t = / 2) as Heq by (intros H; apply (f_equal IZR) in H; rewrite mult_IZR in H; nra).
  assert ((d < 2 * r)%Z → / 2 < t) as Hgt by (intros H; apply IZR_lt in H; rewrite mult_IZR in H; nra).
  unfold new_location, new_location_even, new_location_odd. destruct (Z.eqb_spec r 0) as [->|Hne].
  - destruct (Z.even d); cbn; unfold t; lra.
  - specialize (H0 ltac:(lia)). destruct (Z.even d) eqn:Ev; rewrite (proj2 (Z.eqb_neq r 0) Hne); cbn [inb].
    + split; [lra|]. destruct (Z.compare_spec (2 * r) d) as [H|H|H]; [specialize (Heq H)|specialize (Hlt H)|specialize (Hgt H)]; lra.
    + split; [lra|]. assert (2 * r ≠ d)%Z by (intros <-; rewrite Z.even_mul in Ev; done).
      destruct (Z.compare_spec (2 * r + 1) d) as [H'|H'|H']; [specialize (Hlt ltac:(lia))|specialize (Hlt ltac:(lia))|specialize (Hgt ltac:(lia))]; lra.
Qed.

Lemma quotient_digits a b s q r :
  (0 < a)%Z → (0 < b)%Z → (0 ≤ s)%Z → (a * 2 ^ s = b * q + r)%Z → (0 ≤ r < b)%Z → (Zdigits2 a + s - Zdigits2 b ≤ Zdigits2 q)%Z.
Proof.
  intros Ha Hb Hs Hq Hr. destruct (digits_bounds a Ha) as (Ha1&Ha2&_), (digits_bounds b Hb) as (Hb1&_&Hb2).
  set (d1 := Zdigits2 a) in *. set (d2 := Zdigits2 b) in *. clearbody d1 d2.
  destruct (Z.le_gt_cases (d1 + s - d2) 0) as [Hneg|Hpos]; [transitivity 0%Z; [exact Hneg|clear; by destruct q]|].
  pose proof (Z.pow_pos_nonneg 2 (d1 + s - d2 - 1) ltac:(lia) ltac:(lia)). pose proof (Z.pow_pos_nonneg 2 s ltac:(lia) Hs).
  assert (2 ^ (d1 + s - d2 - 1) ≤ q)%Z as Hlow.
  { assert (2 ^ (d1 - 1) * 2 ^ s = 2 ^ (d1 + s - d2 - 1) * 2 ^ d2)%Z as Ep by (rewrite <- !Z.pow_add_r by lia; f_equal; lia).
    destruct (Z.le_gt_cases (2 ^ (d1 + s - d2 - 1)) q) as [|Hlt]; [done|exfalso].
    assert (2 ^ (d1 - 1) * 2 ^ s ≤ b * q + r)%Z by nia. nia. }
  destruct (digits_bounds q) as (?&_&Hq3); [lia|]. assert (d1 + s - d2 - 1 < Zdigits2 q)%Z; [|lia]. apply (Z.pow_lt_mono_r_iff 2); lia.
Qed.

Lemma div_spec a b x y : isR a x → isR b y → y ≠ 0 → Rabs (x / y) ≤ bpow 1023 → ∃ z, isR (Double.div a b) z ∧ near (x / y) z.
Proof.
  intros Ha Hb Hy Hmax.
  destruct (isR_inv _ _ Hb) as [(->&sb&->)|(sb&mb&eb&->&->&Hcb&_)]; [done|].
  destruct (isR_inv _ _ Ha) as [(->&sa&->)|(sa&ma&ea&->&->&Hca&_)]; [rewrite Rdiv_0_l; by eexists|].
  set (u := IZR (Zpos ma) * bpow ea) in *. set (v := IZR (Zpos mb) * bpow eb) in *.
  pose proof (pos_value ma ea) as Hu. pose proof (pos_value mb eb) as Hv. fold u in Hu. fold v in Hv.
  assert (sgn sa * u / (sgn sb * v) = sgn (xorb sa sb) * (u / v)) as E by (destruct sa, sb; cbn; field; lra).
  rewrite E in *. rewrite Rabs_sgn in Hmax. assert (0 < u / v) as Huv by (apply Rdiv_pos_pos; lra). rewrite Rabs_right in Hmax by lra.
  unfold Double.div, SFdiv, SFdiv_core_binary. set (d1 := Zdigits2 (Zpos ma)). set (d2 := Zdigits2 (Zpos mb)).
  set (e' := Z.min (Fexp (d1 + ea - (d2 + eb))) (ea - eb)). set (s := (ea - eb - e')%Z).
  assert (match s with Zpos _ => Z.shiftl (Zpos ma) s | Z0 => Zpos ma | Zneg _ => 0%Z end = (Zpos ma * 2 ^ s)%Z) as ->.
  { destruct s as [|p|p] eqn:Es; [cbn; lia|apply Z.shiftl_mul_pow2; lia|]. unfold s, e' in Es. lia. }
  assert (0 ≤ s)%Z as Hs by (unfold s, e'; lia). assert (e' ≤ Fexp (d1 + ea - (d2 + eb)))%Z as Hfe by (unfold e'; lia). pose proof (Z_div_mod (Zpos ma * 2 ^ s) (Zpos mb) ltac:(lia)) as Hdiv.
  destruct (Z.div_eucl (Zpos ma * 2 ^ s) (Zpos mb)) as [q r]. destruct Hdiv as [Hq Hr]. pose proof (Z.pow_pos_nonneg 2 s ltac:(lia) Hs) as Hps.
  assert (0 ≤ q)%Z as Hq0 by nia. pose proof (bpow_pos e') as Hpe.
  assert (0 < IZR (Zpos mb)) as Hmb by (apply IZR_lt; lia).
  assert (u / v / bpow e' = IZR q + IZR r / IZR (Zpos mb)) as Eq.
  { apply (f_equal IZR) in Hq. rewrite plus_IZR, !mult_IZR, <- bpow_Z in Hq by lia. pose proof (bpow_pos eb).
    assert (bpow ea = bpow s * bpow e' * bpow eb) as Eb by (unfold s; rewrite <- !bpow_add; f_equal; lia).
    unfold u, v. rewrite Eb. replace (IZR (Zpos ma) * (bpow s * bpow e' * bpow eb)) with (IZR (Zpos ma) * bpow s * (bpow e' * bpow eb)) by lra.
    rewrite Hq. field. lra. }
  destruct (round_aux_spec (xorb sa sb) q e' (new_location (Zpos mb) r) (u / v)) as (z&Hz1&Hz2); [done|lra| | |].
  - rewrite Eq. apply new_location_inb; lia.
  - pose proof (quotient_digits (Zpos ma) (Zpos mb) s q r ltac:(lia) ltac:(lia) Hs Hq Hr) as Hd. fold d1 d2 in Hd.
    clear - Hd Hfe. rewrite Fexp_max in *. unfold s in Hd. lia.
  - exists (sgn (xorb sa sb) * z). split; [done|by apply near_sgn].
Qed.

Lemma signed_shift s m e ez : (ez ≤ e)%Z →
  IZR (cond_Zopp s (Zpos (fst (shl_align m e ez)))) * bpow ez = sgn s * (IZR (Zpos m) * bpow e).
Proof.
  intros Hle. destruct (shl_align_down m e ez Hle) as (mz&->&Hmz). cbn [fst]. rewrite <- (scale_value (Zpos m) e ez Hle), <- Hmz.
  destruct s; cbn [cond_Zopp sgn]; rewrite ?opp_IZR; lra.
Qed.

Lemma add_spec a b x y : isR a x → isR b y → Rabs (x + y) ≤ bpow 1023 → ∃ z, isR (Double.add a b) z ∧ near (x + y) z.
Proof.
  intros Ha Hb Hmax.
  destruct (isR_inv _ _ Ha) as [(->&sa&->)|(sa&ma&ea&->&->&_&_)], (isR_inv _ _ Hb) as [(->&sb&->)|(sb&mb&eb&->&->&_&_)];
    rewrite ?Rplus_0_l, ?Rplus_0_r in *; try by eexists.
  - exists 0. split; [by destruct sa, sb|done].
  - unfold Double.add, SFadd. set (ez := Z.min ea eb). rewrite <- (signed_shift sa ma ea ez), <- (signed_shift sb mb eb ez) in * by lia.
    rewrite <- Rmult_plus_distr_r, <- plus_IZR in *. by apply normalize_spec.
Qed.

Lemma isR_opp s m e x : isR (S754_finite s m e) x → isR (S754_finite (negb s) m e) (- x).
Proof. intros (H1&H2&<-). split_and!; [done|done|]. destruct s; cbn; lra. Qed.

Lemma sub_spec a b x y : isR a x → isR b y → Rabs (x - y) ≤ bpow 1023 → ∃ z, isR (Double.sub a b) z ∧ near (x - y) z.
Proof.
  intros Ha Hb Hmax.
  destruct (isR_inv _ _ Ha) as [(->&sa&->)|(sa&ma&ea&->&->&_&_)], (isR_inv _ _ Hb) as [(->&sb&->)|(sb&mb&eb&->&->&_&_)].
  - exists 0. rewrite Rminus_0_r. split; [by destruct sa, sb|done].
  - eexists. split; [by apply isR_opp|]. rewrite Rminus_0_l. done.
  - eexists. split; [exact Ha|]. rewrite Rminus_0_r. done.
  - unfold Double.sub, SFsub. set (ez := Z.min ea eb). rewrite <- (signed_shift sa ma ea ez), <- (signed_shift sb mb eb ez) in * by lia.
    rewrite <- Rmult_minus_distr_r, <- minus_IZR in *. by apply normalize_spec.
Qed.

(** *** Comparison *)

Lemma canonical_lt m1 e1 m2 e2 :
  e1 = Z.max (Zdigits2 (Zpos m1) + e1 - 53) (-1074) → e2 = Z.max (Zdigits2 (Zpos m2) + e2 - 53) (-1074) → (e1 < e2)%Z →
  IZR (Zpos m1) * bpow e1 < IZR (Zpos m2) * bpow e2.
Proof.
  intros H1 H2 Hlt. destruct (digits_bounds (Zpos m1)) as (_&_&Hm1); [lia|]. destruct (digits_bounds (Zpos m2)) as (_&Hm2&_); [lia|].
  assert (Zdigits2 (Zpos m2) = 53)%Z as E by lia. rewrite E in Hm2.
  apply Rlt_le_trans with (bpow 53 * bpow e1).
  - apply Rmult_lt_compat_r; [apply bpow_pos|]. rewrite bpow_Z by lia. apply IZR_lt. eapply Z.lt_le_trans; [exact Hm1|]. apply Z.pow_le_mono_r; lia.
  - apply Rle_trans with (bpow 52 * bpow e2); [rewrite <- !bpow_add; apply bpow_le; lia|].
    apply Rmult_le_compat_r; [pose proof (bpow_pos e2); lra|]. rewrite bpow_Z by lia. by apply IZR_le.
Qed.

Lemma mantissa_lt (m1 m2 : positive) e : (m1 < m2)%positive → IZR (Zpos m1) * bpow e < IZR (Zpos m2) * bpow e.
Proof. intros H. apply Rmult_lt_compat_r; [apply bpow_pos|]. by apply IZR_lt. Qed.

Lemma compare_spec a b x y : isR a x → isR b y → ∃ c, SFcompare a b = Some c ∧ match c with Eq => x = y | Lt => x < y | Gt => y < x end.
Proof.
  intros Ha Hb. destruct (isR_inv _ _ Ha) as [(->&sa&->)|(sa&ma&ea&->&->&Hca&_)], (isR_inv _ _ Hb) as [(->&sb&->)|(sb&mb&eb&->&->&Hcb&_)];
    cbn [SFcompare]; (eexists; split; [reflexivity|]); try pose proof (pos_value ma ea); try pose proof (pos_value mb eb).
  - done.
  - destruct sb; cbn; lra.
  - destruct sa; cbn; lra.
  - destruct sa, sb; cbn [sgn]; try lra; destruct (Z.compare_spec ea eb) as [->|Hlt|Hlt];
      (change (Pos.compare_cont Eq ma mb) with (Pos.compare ma mb); destruct (Pos.compare_spec ma mb) as [->|Hm|Hm]; cbn;
        [lra|pose proof (mantissa_lt _ _ eb Hm); lra|pose proof (mantissa_lt _ _ eb Hm); lra])
      || (pose proof (canonical_lt _ _ _ _ Hca Hcb Hlt); lra) || (pose proof (canonical_lt _ _ _ _ Hcb Hca Hlt); lra).
Qed.

Lemma ltb_spec a b x y : isR a x → isR b y → Double.ltb a b = true ↔ x < y.
Proof.
  intros Ha Hb. destruct (compare_spec a b x y Ha Hb) as (c&E&Hc). unfold Double.ltb, SFltb. rewrite E. destruct c; split; intros; done || lra.
Qed.
Lemma eqb_spec a b x y : isR a x → isR b y → Double.eqb a b = true ↔ x = y.
Proof.
  intros Ha Hb. destruct (compare_spec a b x y Ha Hb) as (c&E&Hc). unfold Double.eqb, SFeqb. rewrite E. destruct c; split; intros; done || lra.
Qed.

Lemma isR_inj a b x : isR a x → isR b x → 0 < x → a = b.
Proof.
  intros Ha Hb Hx. destruct (compare_spec _ _ _ _ Ha Hb) as (c&Hc&Hv).
  destruct (isR_inv _ _ Ha) as [(->&_)|(sa&m1&e1&->&->&_)]; [lra|]. pose proof (pos_value m1 e1).
  destruct (isR_inv _ _ Hb) as [(?&_)|(sb&m2&e2&->&E&_)]; [lra|]. pose proof (pos_value m2 e2).
  destruct sa; cbn [sgn] in *; [lra|]. destruct sb; cbn [sgn] in *; [lra|]. cbn in Hc. destruct c; [|lra..].
  destruct (Z.compare_spec e1 e2) as [->|?|?]; [|done|done]. injection Hc as Hc. apply Pos.compare_eq in Hc. by subst.
Qed.

(** *** The integer part *)

Lemma pos_to_Z_spec m e : (0 ≤ Double.pos_to_Z m e)%Z ∧ IZR (Double.pos_to_Z m e) ≤ IZR (Zpos m) * bpow e < IZR (Double.pos_to_Z m e) + 1.
Proof.
  unfold Double.pos_to_Z. destruct (Z.leb_spec 0 e) as [He|He].
  - split; [pose proof (Z.pow_pos_nonneg 2 e); nia|]. rewrite mult_IZR, <- bpow_Z by lia. lra.
  - pose proof (Z.pow_pos_nonneg 2 (- e) ltac:(lia) ltac:(lia)) as Hp. pose proof (Z.div_mod (Zpos m) (2 ^ (- e)) ltac:(lia)) as Hdm.
    pose proof (Z.mod_pos_bound (Zpos m) (2 ^ (- e)) Hp) as Hmod. split; [apply Z.div_pos; lia|].
    set (q := (Zpos m / 2 ^ (- e))%Z) in *. set (r := (Zpos m mod 2 ^ (- e))%Z) in *.
    assert (bpow (- e) * bpow e = 1) as E by (rewrite <- bpow_add; replace (- e + e)%Z with 0%Z by lia; done).
    rewrite Hdm, plus_IZR, mult_IZR, <- bpow_Z by lia. rewrite Rmult_plus_distr_r. replace (bpow (- e) * IZR q * bpow e) with (IZR q) by (rewrite (Rmult_comm (bpow (- e))), Rmult_assoc, E; lra).
    destruct Hmod as [H1 H2]. apply IZR_le in H1. apply IZR_lt in H2. rewrite <- bpow_Z in H2 by lia. pose proof (bpow_pos e). nra.
Qed.

Lemma to_Z_spec d x : isR d x → 0 ≤ x → ∃ n, Double.to_Z d = Some n ∧ (0 ≤ n)%Z ∧ IZR n ≤ x < IZR n + 1.
Proof.
  intros Hd Hx. destruct (isR_inv _ _ Hd) as [(->&s&->)|(s&m&e&->&->&_&_)]; [exists 0%Z; split_and!; done || lra|].
  pose proof (pos_value m e). destruct s; cbn [sgn] in *; [lra|]. rewrite Rmult_1_l. exists (Double.pos_to_Z m e). split; [done|]. apply pos_to_Z_spec.
Qed.

Lemma floor_unique n n' x : IZR n ≤ x < IZR n + 1 → IZR n' ≤ x < IZR n' + 1 → n = n'.
Proof.
  intros H1 H2. assert (n < n' + 1)%Z by (apply lt_IZR; rewrite plus_IZR; lra). assert (n' < n + 1)%Z by (apply lt_IZR; rewrite plus_IZR; lra). lia.
Qed.

Lemma cast_spec lo hi d x n : isR d x → IZR n ≤ x < IZR n + 1 → (lo ≤ 0 ≤ n)%Z → (n ≤ hi)%Z → Double.cast lo hi d = Ret n.
Proof.
  intros Hd Hn Hlo Hhi. assert (0 ≤ x) as Hx by (apply Rle_trans with (IZR n); [apply IZR_le; lia|lra]).
  destruct (to_Z_spec d x Hd Hx) as (n'&E&_&Hn'). rewrite (floor_unique _ _ _ Hn Hn') in *. unfold Double.cast. rewrite E.
  rewrite (proj2 (Z.leb_le lo n')), (proj2 (Z.leb_le n' hi)) by lia. done.
Qed.

Lemma trunc_spec d x : isR d x → 0 ≤ x → ∃ n, isR (Double.trunc d) (IZR n) ∧ (0 ≤ n)%Z ∧ IZR n ≤ x < IZR n + 1.
Proof.
  intros Hd Hx. destruct (isR_inv _ _ Hd) as [(->&s&->)|(s&m&e&->&->&Hc&_)]; [exists 0%Z; split_and!; done || lra|].
  pose proof (pos_value m e). destruct s; cbn [sgn] in *; [lra|]. rewrite Rmult_1_l in *. destruct (pos_to_Z_spec m e) as [H0 Hfl].
  exists (Double.pos_to_Z m e). split; [|done]. cbn [Double.trunc]. destruct (Z.leb_spec 0 e) as [He|He].
  - replace (IZR (Double.pos_to_Z m e)) with (IZR (Zpos m) * bpow e); [done|].
    unfold Double.pos_to_Z. rewrite (proj2 (Z.leb_le 0 e) He), mult_IZR, <- bpow_Z by lia. done.
  - destruct (Z.eqb_spec (Double.pos_to_Z m e) 0) as [->|Hne]; [done|]. apply of_Z_exact.
    destruct (digits_bounds (Zpos m)) as (_&_&Hm); [lia|]. assert (Zpos m < 2 ^ 53)%Z by (eapply Z.lt_le_trans; [exact Hm|apply Z.pow_le_mono_r; lia]).
    assert (Double.pos_to_Z m e ≤ Zpos m)%Z; [|lia]. unfold Double.pos_to_Z. rewrite (proj2 (Z.leb_gt 0 e) He).
    apply Z.div_le_upper_bound; [apply Z.pow_pos_nonneg; lia|]. pose proof (Z.pow_pos_nonneg 2 (- e)). nia.
Qed.

(** The error on numbers up to [B] *)
Lemma near_abs B x y : near x y → Rabs x ≤ B → 1 ≤ B → Rabs (y - x) ≤ B * / IZR (2 ^ 52).
Proof.
  intros [H _] HB H1. assert (/ IZR (2 ^ 52) = bpow (-52)) as -> by (symmetry; apply (bpow_inv 52); lia).
  assert (bpow (-1075) ≤ bpow (-53)) by (apply bpow_le; lia). pose proof (bpow_pos (-53)).
  replace (bpow (-52)) with (2 * bpow (-53)) by (change (-52)%Z with (1 + -53)%Z; rewrite bpow_add; change (bpow 1) with (2 * 1); lra). nra.
Qed.
Lemma near_lo n x y : near x y → (Z.abs n ≤ 2 ^ 53)%Z → IZR n ≤ x → IZR n ≤ y.
Proof. intros [_ H] Hn Hx. destruct (H n 0%Z ltac:(lia) Hn) as [Ha _]. change (bpow 0) with 1 in Ha. rewrite Rmult_1_r in Ha. by apply Ha. Qed.
Lemma near_hi n x y : near x y → (Z.abs n ≤ 2 ^ 53)%Z → x ≤ IZR n → y ≤ IZR n.
Proof. intros [_ H] Hn Hx. destruct (H n 0%Z ltac:(lia) Hn) as [_ Ha]. change (bpow 0) with 1 in Ha. rewrite Rmult_1_r in Ha. by apply Ha. Qed.
Lemma bpow_1023 x : Rabs x ≤ IZR (2 ^ 200) → Rabs x ≤ bpow 1023.
Proof. intros H. eapply Rle_trans; [exact H|]. rewrite <- bpow_Z by lia. by apply bpow_le. Qed.

(** Integers below [2^53] are computed without error. *)
Lemma int_result (d : spec_float) y n : isR d y → near (IZR n) y → (Z.abs n ≤ 2 ^ 53)%Z → isR d (IZR n).
Proof. intros Hd Hn Hb. by rewrite (near_int _ _ Hn Hb) in Hd. Qed.
Lemma add_int a b m n : isR a (IZR m) → isR b (IZR n) → (Z.abs (m + n) ≤ 2 ^ 53)%Z → isR (Double.add a b) (IZR (m + n)).
Proof.
  intros Ha Hb Hs. destruct (add_spec a b _ _ Ha Hb) as (z&Hz&Hn); rewrite <- plus_IZR in *; [apply bpow_big; lia|by eapply int_result].
Qed.
Lemma sub_int a b m n : isR a (IZR m) → isR b (IZR n) → (Z.abs (m - n) ≤ 2 ^ 53)%Z → isR (Double.sub a b) (IZR (m - n)).
Proof.
  intros Ha Hb Hs. destruct (sub_spec a b _ _ Ha Hb) as (z&Hz&Hn); rewrite <- minus_IZR in *; [apply bpow_big; lia|by eapply int_result].
Qed.
Lemma mul_int a b m n : isR a (IZR m) → isR b (IZR n) → (Z.abs (m * n) ≤ 2 ^ 53)%Z → isR (Double.mul a b) (IZR (m * n)).
Proof.
  intros Ha Hb Hs. destruct (mul_spec a b _ _ Ha Hb) as (z&Hz&Hn); rewrite <- mult_IZR in *; [apply bpow_big; lia|by eapply int_result].
Qed.
Lemma div_int a b m n : isR a (IZR (m * n)) → isR b (IZR n) → n ≠ 0%Z → (Z.abs m ≤ 2 ^ 53)%Z → isR (Double.div a b) (IZR m).
Proof.
  intros Ha Hb Hne Hs. assert (IZR n ≠ 0) as Hn0 by by apply not_0_IZR. assert (IZR (m * n) / IZR n = IZR m) as E by (rewrite mult_IZR; by field).
  destruct (div_spec a b _ _ Ha Hb Hn0) as (z&Hz&Hn); rewrite E in *; [apply bpow_big; lia|by eapply int_result].
Qed.
Lemma half_spec : isR Double.half (/ 2).
Proof. split_and!; [done|done|]. cbn [Double.half V]. change (Zpos 4503599627370496) with (2 ^ 52)%Z. rewrite <- bpow_Z by lia. rewrite Rmult_1_l, <- bpow_add. apply bpow_m1. Qed.

End rounding.
