(* ===== verification/Cycles.v ===== *)
(** * Times through [double] (src/common/common_time.h)

    The class [Cycles], which turns the processor's cycle counter into times,
    and the conversions of [utime_t], the clocks and the spans from and to
    [double]. The readings of the counter and of the system clock are
    arguments. *)

From Stdlib Require Import SpecFloat Reals Lra.
From S2P Require Import Prelude Double Utime.
Import Double.

Module Cycles.

(** [rdtsc], given the two halves the instruction leaves *)
Definition rdtsc (lo hi : Z) : Z := Z.lor (u64 (Z.shiftl hi 32)) lo.

(** [cycles_per_sec] starts as 0; a function that is given 0 uses it. *)
Definition zero : double := of_Z 0.
Definition frequency (self cycles_per_sec : double) : double := if eqb cycles_per_sec zero then self else cycles_per_sec.

Definition per_second (self : double) : double := self.
Definition to_seconds (self : double) (cycles : Z) (cycles_per_sec : double) : double := div (of_Z cycles) (frequency self cycles_per_sec).
Definition from_seconds (self seconds cycles_per_sec : double) : outcome Z :=
  to_u64 (add (mul seconds (frequency self cycles_per_sec)) half).
Definition to_nanoseconds (self : double) (cycles : Z) (cycles_per_sec : double) : outcome Z :=
  to_u64 (add (div (mul (of_Z 1000000000) (of_Z cycles)) (frequency self cycles_per_sec)) half).
Definition to_microseconds (self : double) (cycles : Z) (cycles_per_sec : double) : outcome Z :=
  ns ← to_nanoseconds self cycles cycles_per_sec; Ret (ns / 1000).
Definition from_nanoseconds (self : double) (ns : Z) (cycles_per_sec : double) : outcome Z :=
  to_u64 (add (div (mul (of_Z ns) (frequency self cycles_per_sec)) (of_Z 1000000000)) half).

(** [get_soft_timestamp_us] and [get_soft_timestamp_ns], given what the system clock stored *)
Definition get_soft_timestamp_us (now_tv : Z * Z) : outcome Z :=
  to_u64 (add (mul (of_Z now_tv.1) (of_Z 1000000)) (of_Z now_tv.2)).
Definition get_soft_timestamp_ns (now_ts : Z * Z) : outcome Z :=
  to_u64 (add (mul (of_Z now_ts.1) (of_Z 1000000)) (div (of_Z now_ts.2) (of_Z 1000))).

(** [sleep], over the readings of the counter: those left when it returns *)
Fixpoint spin (stop : Z) (counter : list Z) : outcome (list Z) :=
  match counter with
  | [] => Crash NoFuel
  | c :: counter => if c <? stop then spin stop counter else Ret counter
  end.
Definition sleep (self : double) (us : Z) (counter : list Z) : outcome (list Z) :=
  match counter with
  | [] => Crash NoFuel
  | c :: counter => n ← from_nanoseconds self (u64 (1000 * us)) zero; spin (u64 (c + n)) counter
  end.

(** [init]: readings of [gettimeofday], which may fail, each followed by one of the counter *)
Record reading := Reading { tv : option (Z * Z); tsc : Z }.

(** A computation in [long] *)
Definition long (z : Z) : outcome Z := if (-9223372036854775808 <=? z) && (z <=? 9223372036854775807) then Ret z else Crash Undefined.
Definition elapsed (start stop : Z * Z) : outcome Z :=
  s ← long (stop.1 - start.1);
  s ← long (s * 1000000);
  us ← long (stop.2 - start.2);
  r ← long (us + s);
  Ret (u64 r).

(** The inner loop; the readings left *)
Fixpoint measure (start : Z * Z) (start_cycles : Z) (l : list reading) : outcome (double * list reading) :=
  match l with
  | [] => Crash NoFuel
  | r :: l =>
    match tv r with
    | None => Crash KAbort
    | Some stop =>
      micros ← elapsed start stop;
      if 10000 <? micros
      then Ret (div (mul (of_Z 1000000) (of_Z (u64 (tsc r - start_cycles)))) (of_Z micros), l)
      else measure start start_cycles l
    end
  end.

(** The outer loop; [fuel] bounds its rounds *)
Fixpoint calibrate (fuel : nat) (old_cycles : double) (l : list reading) : outcome double :=
  match fuel, l with
  | S fuel, r :: l =>
    match tv r with
    | None => Crash KAbort
    | Some start =>
      '(cps, l) ← measure start (tsc r) l;
      let delta := div cps (of_Z 1000) in
      if ltb (sub cps delta) old_cycles && ltb old_cycles (add cps delta) then Ret cps else calibrate fuel cps l
    end
  | _, _ => Crash NoFuel
  end.

Definition init (self : double) (counter : Z) (l : list reading) : outcome double :=
  if negb (eqb self zero) then Ret self else if counter =? 0 then Ret self else calibrate (length l) zero l.

End Cycles.

(** [utime_t] and [double] *)
Module utime_double.
Import utime Double.

Definition to_double (u : t) : double := add (of_Z (sec u)) (div (of_Z (nsec u)) (of_Z 1000000000)).
Definition set_from_double (d : double) : outcome t :=
  s ← to_u32 (trunc d);
  n ← to_u32 (mul (sub d (of_Z s)) (of_Z 1000000000));
  Ret (mk s n).
(** [operator+=(double)] and [operator-=(double)] *)
Definition add_assign (l : t) (f : double) : outcome t :=
  let fs := trunc f in
  let ns := mul (sub f fs) (of_Z 1000000000) in
  s ← to_u64 fs;
  n ← to_long ns;
  Ret (normalize (mk (cap_to_u32_max (u64 (sec l + s))) (u32 (tv_nsec l + n)))).
Definition sub_assign (l : t) (f : double) : outcome t :=
  let fs := trunc f in
  let ns := mul (sub f fs) (of_Z 1000000000) in
  s ← to_long fs;
  nsl ← to_long ns;
  let s := u32 (tv_sec l - s) in
  Ret (normalize (if nsl =? 0 then mk s (tv_nsec l) else mk (u32 (s - 1)) (u32 (1000000000 + tv_nsec l - nsl)))).

End utime_double.

(** The clocks and [make_timespan]: nanoseconds in a [uint64_t] *)
Module span_double.

Definition to_double (t : Z) : double := div (of_Z t) (of_Z 1000000000).
Definition from_double (d : double) : outcome Z := to_u64 (mul d (of_Z 1000000000)).
Definition make_timespan (d : double) : outcome Z := from_double d.
Definition maybe_timespan (d : double) : outcome (option Z) := if eqb d (of_Z 0) then Ret None else n ← make_timespan d; Ret (Some n).

End span_double.

(** ** The soft time stamps *)

Section proofs.
Local Open Scope R_scope.

Lemma to_u64_int d n : isR d (IZR n) → (0 ≤ n < 2 ^ 64)%Z → to_u64 d = Ret n.
Proof. intros Hd Hn. apply (cast_spec _ _ _ (IZR n)); [done|lra|lia|lia]. Qed.

(** The time stamp of the polling thread is exact: below [2^53] microseconds,
    until the year 2255, the double arithmetic makes no error. *)
Theorem soft_timestamp_us_exact sec usec :
  (0 ≤ sec)%Z → (0 ≤ usec)%Z → (sec * 1000000 + usec ≤ 2 ^ 53)%Z →
  Cycles.get_soft_timestamp_us (sec, usec) = Ret (sec * 1000000 + usec)%Z.
Proof.
  intros Hs Hu Hb. apply to_u64_int; [|lia]. cbn [fst snd]. apply add_int; [apply mul_int|apply of_Z_exact|]; try (apply of_Z_exact); lia.
Qed.

(** [get_soft_timestamp_ns] gives microseconds too, rounded down or up. *)
Theorem soft_timestamp_ns_microseconds sec nsec :
  (0 ≤ sec)%Z → (0 ≤ nsec < 1000000000)%Z → (sec * 1000000 + 1000000 ≤ 2 ^ 53)%Z →
  ∃ n, Cycles.get_soft_timestamp_ns (sec, nsec) = Ret n ∧ (sec * 1000000 + nsec / 1000 ≤ n ≤ sec * 1000000 + nsec / 1000 + 1)%Z.
Proof.
  intros Hs Hn Hb. unfold Cycles.get_soft_timestamp_ns. cbn [fst snd].
  assert (isR (mul (of_Z sec) (of_Z 1000000)) (IZR (sec * 1000000))) as Hm by (apply mul_int; try apply of_Z_exact; lia).
  set (q := (nsec / 1000)%Z). assert (1000 * q ≤ nsec < 1000 * q + 1000)%Z as Hq by (unfold q; Z.to_euclidean_division_equations; lia).
  assert (IZR q ≤ IZR nsec / 1000 ≤ IZR (q + 1)) as Hqr.
  { destruct Hq as [H1 H2]. apply IZR_le in H1. apply IZR_lt in H2. rewrite plus_IZR, mult_IZR in *. lra. }
  destruct (div_spec (of_Z nsec) (of_Z 1000) (IZR nsec) 1000) as (z&Hz&Hnz); [apply of_Z_exact; lia|apply of_Z_exact; lia|lra| |].
  { apply bpow_1023. rewrite Rabs_right; [|assert (0 ≤ IZR q) by (apply IZR_le; lia); lra]. apply Rle_trans with (IZR (q + 1)); [lra|]. apply IZR_le. lia. }
  assert (IZR q ≤ z ≤ IZR (q + 1)) as Hzb by (split; [apply (near_lo _ _ _ Hnz)|apply (near_hi _ _ _ Hnz)]; lra || lia).
  destruct (add_spec _ _ _ _ Hm Hz) as (w&Hw&Hnw).
  { apply bpow_1023. assert (0 ≤ IZR q) by (apply IZR_le; lia). assert (0 ≤ IZR (sec * 1000000)) by (apply IZR_le; lia). rewrite Rabs_right by lra.
    apply Rle_trans with (IZR (sec * 1000000 + (q + 1))); [rewrite plus_IZR; lra|]. apply IZR_le. lia. }
  set (b := (sec * 1000000)%Z) in *. assert (IZR (b + q) ≤ w ≤ IZR (b + (q + 1))) as Hwb.
  { split; [apply (near_lo _ _ _ Hnw)|apply (near_hi _ _ _ Hnw)]; rewrite ?plus_IZR in *; lra || lia. }
  destruct (to_Z_spec _ _ Hw) as (n&_&Hn0&Hfl). { apply Rle_trans with (IZR (b + q)); [apply IZR_le; lia|lra]. }
  exists n. assert (b + q < n + 1)%Z by (apply lt_IZR; rewrite (plus_IZR n); lra). assert (n ≤ b + (q + 1))%Z by (apply le_IZR; lra).
  split; [|lia]. apply (cast_spec _ _ _ w); [done|done|lia|lia].
Qed.

(** ** Calibration *)

(** The readings of a processor that runs at [f] cycles per microsecond *)
Definition at_us (f c0 us : Z) : Cycles.reading := Cycles.Reading (Some (us / 1000000, us mod 1000000))%Z (u64 (c0 + f * us)).

(** The microseconds of readings that are at most 10 ms apart, and the last of them *)
Inductive paced : Z → list Z → Prop :=
  | paced_nil u : paced u []
  | paced_cons u x l : (u ≤ x ≤ u + 10000)%Z → (x < 2 ^ 62)%Z → paced x l → paced u (x :: l).
Fixpoint final (u : Z) (l : list Z) : Z := match l with [] => u | x :: l => final x l end.

Lemma elapsed_us f c0 u v : (0 ≤ u ≤ v)%Z → (v < 2 ^ 62)%Z →
  Cycles.elapsed (u / 1000000, u mod 1000000)%Z (v / 1000000, v mod 1000000)%Z = Ret (v - u)%Z ∧
  u64 (u64 (c0 + f * v) - u64 (c0 + f * u)) = u64 (f * (v - u)).
Proof.
  intros Hu Hv. pose proof (Z.div_mod u 1000000 ltac:(lia)). pose proof (Z.div_mod v 1000000 ltac:(lia)).
  pose proof (Z.mod_pos_bound u 1000000 ltac:(lia)). pose proof (Z.mod_pos_bound v 1000000 ltac:(lia)).
  unfold Cycles.elapsed. cbn [fst snd]. set (a := (u / 1000000)%Z) in *. set (b := (v / 1000000)%Z) in *. set (c := (u mod 1000000)%Z) in *.
  set (d := (v mod 1000000)%Z) in *. assert (∀ z, (-9223372036854775808 ≤ z ≤ 9223372036854775807)%Z → Cycles.long z = Ret z) as Hl.
  { intros z Hz. unfold Cycles.long. rewrite (proj2 (Z.leb_le _ z)), (proj2 (Z.leb_le z _)) by lia. done. }
  split.
  - rewrite Hl by lia. cbn [mbind outcome_bind]. rewrite Hl by lia. cbn [mbind outcome_bind]. rewrite Hl by lia. cbn [mbind outcome_bind].
    rewrite Hl by lia. cbn [mbind outcome_bind]. f_equal. rewrite u64_small by (unfold is_u64; lia). lia.
  - unfold u64. rewrite Zminus_mod_idemp_l, Zminus_mod_idemp_r. f_equal. lia.
Qed.

(** A round of the inner loop gives the frequency without error. *)
Lemma measure_steady f c0 u0 u us :
  (1 ≤ f ≤ 100000)%Z → (0 ≤ u0 ≤ u)%Z → (u ≤ u0 + 10000)%Z → paced u us → (u0 + 10000 < final u us)%Z →
  ∃ d b rest, Cycles.measure (u0 / 1000000, u0 mod 1000000)%Z (u64 (c0 + f * u0)) (at_us f c0 <$> us) = Ret (d, at_us f c0 <$> rest) ∧
    isR d (IZR (f * 1000000)) ∧ (u0 ≤ b ≤ u0 + 20000)%Z ∧ paced b rest ∧ final b rest = final u us.
Proof.
  intros Hf H0 Hu Hp. revert H0 Hu. induction Hp as [u|u x l Hx Hlim Hp IH]; intros H0 Hu Hlast; [cbn in Hlast; lia|].
  destruct (elapsed_us f c0 u0 x) as [Hel Hcy]; [lia|lia|]. csimpl. rewrite Hel. cbn [mbind outcome_bind]. destruct (Z.ltb_spec 10000 (x - u0)) as [Hlt|Hge].
  - eexists _, x, l. split; [reflexivity|]. split_and!; [|lia|lia|done|done]. rewrite Hcy, u64_small by (unfold is_u64; nia).
    apply (div_int _ _ _ (x - u0)); [|apply of_Z_exact; lia|lia|lia].
    replace (f * 1000000 * (x - u0))%Z with (1000000 * (f * (x - u0)))%Z by lia.
    assert (0 ≤ f * (x - u0) ≤ 100000 * 20000)%Z by nia. apply mul_int; try apply of_Z_exact; lia.
  - cbn [final] in Hlast. apply IH; lia.
Qed.

(** The test of the outer loop: a frequency is within a thousandth of itself, and not of 0. *)
Lemma within_delta d F : isR d (IZR F) → (1000 ≤ F ≤ 2 ^ 50)%Z →
  let delta := div d (of_Z 1000) in
  ltb (sub d delta) Cycles.zero = false ∧ ltb (sub d delta) d = true ∧ ltb d (add d delta) = true.
Proof.
  intros Hd HF delta. assert (1000 ≤ IZR F ≤ IZR (2 ^ 50)) as HFr by (split; apply IZR_le; lia).
  destruct (div_spec d (of_Z 1000) (IZR F) 1000) as (z&Hz&Hnz); [done|apply of_Z_exact; lia|lra| |].
  { apply bpow_1023. rewrite Rabs_right by lra. apply Rle_trans with (IZR (2 ^ 50)); [lra|]. apply IZR_le. lia. }
  fold delta in Hz. assert (1 ≤ z ≤ IZR F) as Hzb by (split; [apply (near_lo 1 _ _ Hnz)|apply (near_hi _ _ _ Hnz)]; lra || lia).
  assert (∀ x, Rabs x ≤ 2 * IZR (2 ^ 50) → Rabs x ≤ bpow 1023) as Hbig.
  { intros x Hx. apply bpow_1023. eapply Rle_trans; [exact Hx|]. rewrite <- mult_IZR. by apply IZR_le. }
  destruct (sub_spec _ _ _ _ Hd Hz) as (w&Hw&Hnw); [apply Hbig; rewrite Rabs_right; lra|].
  destruct (add_spec _ _ _ _ Hd Hz) as (v&Hv&Hnv); [apply Hbig; rewrite Rabs_right; lra|].
  assert (0 ≤ w) by (apply (near_lo 0 _ _ Hnw); lra || lia). assert (w ≤ IZR (F - 1)) as Hw1 by (apply (near_hi _ _ _ Hnw); rewrite ?minus_IZR; lra || lia).
  assert (IZR (F + 1) ≤ v) as Hv1 by (apply (near_lo _ _ _ Hnv); rewrite ?plus_IZR; lra || lia). rewrite minus_IZR in Hw1. rewrite plus_IZR in Hv1.
  split_and!.
  - apply not_true_iff_false. intros Hlt. apply (ltb_spec _ _ w 0) in Hlt; [lra|done|]. by apply (of_Z_exact 0).
  - apply (ltb_spec _ _ w (IZR F)); [done|done|lra].
  - apply (ltb_spec _ _ (IZR F) v); [done|done|lra].
Qed.

Lemma init_steady f c0 c u us :
  (1 ≤ f ≤ 100000)%Z → (0 ≤ u)%Z → c ≠ 0%Z → paced u us → (u + 50000 < final u us)%Z →
  ∃ d, Cycles.init Cycles.zero c (at_us f c0 <$> u :: us) = Ret d ∧ isR d (IZR (f * 1000000)).
Proof.
  intros Hf Hu Hc Hp Hlast.
  destruct (measure_steady f c0 u u us) as (d1&b1&r1&E1&Hd1&Hb1&Hp1&Hf1); [done|lia|lia|done|lia|].
  destruct Hp1 as [|b1 u2 l Hu2 Hlim Hp2]; [cbn in Hf1; lia|]. cbn [final] in Hf1.
  destruct (measure_steady f c0 u2 u2 l) as (d2&b2&r2&E2&Hd2&_); [done|lia|lia|done|lia|].
  destruct (within_delta d1 (f * 1000000) Hd1) as (Hz&_); [lia|].
  destruct (within_delta d2 (f * 1000000) Hd2) as (_&Hlo&Hhi); [lia|].
  exists d2. split; [|done].
  assert (d1 = d2) as <- by (apply (isR_inj _ _ _ Hd1 Hd2); apply IZR_lt; lia).
  unfold Cycles.init. change (negb (eqb Cycles.zero Cycles.zero)) with false. cbv iota. rewrite (proj2 (Z.eqb_neq c 0) Hc).
  assert (∃ n, length us = S (S n)) as [n Hn].
  { destruct us as [|x1 [|x2 us]]; [cbn in Hlast; lia|cbn in Hlast; inversion Hp; lia|cbn; eauto]. }
  csimpl. rewrite length_fmap, Hn. cbn [Cycles.calibrate]. csimpl. rewrite E1. cbn [mbind outcome_bind]. rewrite Hz. cbv iota.
  csimpl. rewrite E2. cbn [mbind outcome_bind]. rewrite Hlo, Hhi. done.
Qed.

(** C28: On a processor with a constant number of cycles per microsecond, read at
    least every 10 ms for more than 50 ms, [init] returns and has found the
    exact frequency, also when the counter wraps around. *)
Theorem init_calibrates f c0 c u us :
  (1 ≤ f ≤ 100000)%Z → (0 ≤ u)%Z → c ≠ 0%Z → paced u us → (u + 50000 < final u us)%Z →
  ∃ d, Cycles.init Cycles.zero c (at_us f c0 <$> u :: us) = Ret d ∧ isR d (IZR (f * 1000000)).
Proof. apply init_steady. Qed.

(** ** Round trips *)

Lemma abs_between a b x : Rabs (a - b) ≤ x → b - x ≤ a ≤ b + x.
Proof. unfold Rabs. destruct (Rcase_abs _); lra. Qed.
Lemma div_error p x F e f : Rabs (p - x * F) ≤ e → f ≤ F → 0 < f → Rabs (p / F - x) ≤ e / f.
Proof.
  intros He Hf H0. assert (p = p / F * F) as Ep by (field; lra). set (y := p / F) in *. rewrite Ep in He.
  assert (Rabs (y - x) * F ≤ e) as H. { rewrite <- (Rabs_right F) by lra. rewrite <- Rabs_mult. by replace ((y - x) * F) with (y * F - x * F) by lra. }
  pose proof (Rabs_pos (y - x)). apply (Rmult_le_reg_r f); [done|]. replace (e / f * f) with e by (field; lra). nra.
Qed.

(** One multiplication, one division, and the half that is added before the cast *)
Lemma scaled a m k x y F f B C :
  isR a x → isR m y → isR k F → 0 ≤ x * y ≤ B → 1 ≤ f ≤ F → 1 ≤ B ≤ IZR (2 ^ 100) → B ≤ IZR (2 ^ 52) * f →
  x * y ≤ C * F → 0 ≤ C → C + 3 ≤ IZR (2 ^ 52) →
  ∃ s, isR (add (div (mul a m) k) half) s ∧ 0 ≤ s ∧
    Rabs (s - (x * y / F + / 2)) ≤ B * / IZR (2 ^ 52) / f + 2 * ((C + 3) * / IZR (2 ^ 52)).
Proof.
  intros Ha Hm Hk Hxy Hf HB HBf HC HC0 HCE. set (E := IZR (2 ^ 52)) in *. assert (1 ≤ E) as HE by (unfold E; apply IZR_le; lia).
  assert (IZR (2 ^ 100) ≤ IZR (2 ^ 200) ∧ E ≤ IZR (2 ^ 200)) as [Hbig HbigE] by (split; apply IZR_le; lia).
  destruct (mul_spec a m x y Ha Hm) as (p&Hp&Hnp); [apply bpow_1023; rewrite Rabs_right; lra|].
  pose proof (near_abs B _ _ Hnp ltac:(rewrite Rabs_right; lra) ltac:(lra)) as Ep. fold E in Ep.
  assert (0 ≤ p) as Hp0 by (apply (near_lo 0 _ _ Hnp); lra || lia).
  pose proof (div_error p (x * y / F) F (B * / E) f) as Ed.
  replace (x * y / F * F) with (x * y) in Ed by (field; lra). specialize (Ed Ep ltac:(lra) ltac:(lra)).
  assert (B * / E / f ≤ 1) as Hsmall.
  { apply (Rmult_le_reg_r (E * f)); [nra|]. replace (B * / E / f * (E * f)) with B by (field; lra). lra. }
  assert (0 ≤ p / F) as Hpos by (apply Rmult_le_pos; [lra|left; apply Rinv_0_lt_compat; lra]).
  assert (x * y / F ≤ C) as HxC by (apply (Rmult_le_reg_r F); [lra|]; replace (x * y / F * F) with (x * y) by (field; lra); lra).
  pose proof (abs_between _ _ _ Ed) as Ed'. destruct (div_spec _ _ _ _ Hp Hk) as (q&Hq&Hnq); [lra|apply bpow_1023; rewrite Rabs_right; lra|].
  pose proof (near_abs (C + 3) _ _ Hnq ltac:(rewrite Rabs_right; lra) ltac:(lra)) as Eq. fold E in Eq.
  assert ((C + 3) * / E ≤ 1) as Hsmall2 by (apply (Rmult_le_reg_r E); [lra|]; replace ((C + 3) * / E * E) with (C + 3) by (field; lra); lra).
  assert (0 ≤ q) by (apply (near_lo 0 _ _ Hnq); lra || lia). pose proof (abs_between _ _ _ Eq) as Eq'.
  destruct (add_spec _ _ _ _ Hq half_spec) as (s&Hs&Hns); [apply bpow_1023; rewrite Rabs_right; lra|].
  pose proof (near_abs (C + 3) _ _ Hns ltac:(rewrite Rabs_right; lra) ltac:(lra)) as Es. fold E in Es. apply abs_between in Es.
  exists s. split_and!; [done|apply (near_lo 0 _ _ Hns); lra || lia|]. apply Rabs_le. lra.
Qed.

Lemma to_u64_floor d s : isR d s → 0 ≤ s → s < IZR (2 ^ 64) → ∃ n, to_u64 d = Ret n ∧ (0 ≤ n < 2 ^ 64)%Z ∧ IZR n ≤ s < IZR n + 1.
Proof.
  intros Hd H0 H1. destruct (to_Z_spec d s Hd H0) as (n&_&Hn&Hfl). assert (n < 2 ^ 64)%Z by (apply lt_IZR; lra).
  exists n. split_and!; [|lia|lia|lra|lra]. apply (cast_spec _ _ _ s); [done|lra|lia|lia].
Qed.

(** Between 1.07 and 8.6 GHz a span of up to [2^40] nanoseconds, 18 minutes,
    is turned into cycles and back without loss. *)
Theorem nanoseconds_round_trip self F ns :
  isR self F → IZR (2 ^ 30) ≤ F ≤ IZR (2 ^ 33) → (0 ≤ ns ≤ 2 ^ 40)%Z →
  ∃ c, Cycles.from_nanoseconds self ns Cycles.zero = Ret c ∧ Cycles.to_nanoseconds self c Cycles.zero = Ret ns.
Proof.
  intros Hself HF Hns. unfold Cycles.from_nanoseconds, Cycles.to_nanoseconds, Cycles.frequency. change (eqb Cycles.zero Cycles.zero) with true. cbv iota.
  assert (0 ≤ IZR ns ≤ IZR (2 ^ 40)) as Hx by (split; apply IZR_le; lia). set (x := IZR ns) in *.
  destruct (scaled (of_Z ns) self (of_Z 1000000000) x F 1000000000 1000000000 (IZR (2 ^ 73)) (IZR (2 ^ 44))) as (s&Hs&Hs0&Es);
    [apply of_Z_exact; lia|done|apply of_Z_exact; lia|cbn in *; nra|lra|cbn; lra|cbn; lra|cbn in *; nra|cbn; lra|cbn; lra|].
  apply abs_between in Es. cbn in Es, HF, Hx.
  destruct (to_u64_floor _ _ Hs Hs0) as (c&->&Hc&Hfl); [cbn; nra|]. exists c. split; [done|].
  assert (c ≤ 2 ^ 44)%Z as Hc44 by (apply le_IZR; cbn; nra). assert (0 ≤ IZR c) as Hcr by (apply IZR_le; lia).
  assert (Rabs (1000000000 * IZR c - x * F) ≤ 510000000) as Ec by (apply Rabs_le; lra). pose proof (abs_between _ _ _ Ec) as Ec'.
  destruct (scaled (of_Z 1000000000) (of_Z c) self 1000000000 (IZR c) F (IZR (2 ^ 30)) (IZR (2 ^ 74)) (IZR (2 ^ 41))) as (t&Ht&Ht0&Et);
    [apply of_Z_exact; lia|apply of_Z_exact; lia|done|cbn; nra|cbn; lra|cbn; lra|cbn; lra|cbn; nra|cbn; lra|cbn; lra|].
  pose proof (div_error _ _ F _ (IZR (2 ^ 30)) Ec ltac:(cbn; lra) ltac:(cbn; lra)) as Ed. apply abs_between in Et, Ed. cbn in Et, Ed.
  apply (cast_spec _ _ _ t); [done| |lia|lia]. fold x. lra.
Qed.

(** [utime_t] to [double] and back is within half a microsecond; the last
    second of the range is excluded, see [utime_double_overflows]. *)
Theorem utime_double_round_trip u :
  (0 ≤ utime.tv_sec u < 4294967295)%Z → (0 ≤ utime.tv_nsec u < 1000000000)%Z →
  ∃ v, utime_double.set_from_double (utime_double.to_double u) = Ret v ∧
    (Z.abs (utime.tv_sec v * 1000000000 + utime.tv_nsec v - (utime.tv_sec u * 1000000000 + utime.tv_nsec u)) ≤ 480)%Z.
Proof.
  destruct u as [sec nsec]. cbn [utime.tv_sec utime.tv_nsec]. intros Hsec Hnsec. unfold utime_double.to_double, utime.sec, utime.nsec. cbn [utime.tv_sec utime.tv_nsec].
  assert (s32 nsec = nsec) as -> by (unfold s32; rewrite u32_small by (unfold is_u32; lia); rewrite (proj2 (Z.ltb_lt _ _)); lia).
  assert (0 ≤ IZR sec ≤ 4294967294) as Hs by (split; apply IZR_le; lia). assert (0 ≤ IZR nsec ≤ 999999999) as Hn by (split; apply IZR_le; lia).
  destruct (div_spec (of_Z nsec) (of_Z 1000000000) (IZR nsec) 1000000000) as (p&Hp&Hnp);
    [apply of_Z_exact; lia|apply of_Z_exact; lia|lra|apply bpow_1023; rewrite Rabs_right; cbn; lra|].
  pose proof (near_abs 1 _ _ Hnp ltac:(rewrite Rabs_right; lra) ltac:(lra)) as Ep.
  assert (0 ≤ p ≤ 1) as Hp01 by (split; [apply (near_lo 0 _ _ Hnp)|apply (near_hi 1 _ _ Hnp)]; lra || lia).
  destruct (add_spec (of_Z sec) _ (IZR sec) _ ltac:(apply of_Z_exact; lia) Hp) as (d&Hd&Hnd); [apply bpow_1023; rewrite Rabs_right; cbn; lra|].
  set (d' := add (of_Z sec) _) in *. assert (Rabs (d - (IZR sec + p)) ≤ 4294967296 * bpow (-53) + bpow (-1075)) as Ed.
  { destruct Hnd as [Hnd _]. rewrite (Rabs_right (IZR sec + p)) in Hnd by lra. pose proof (bpow_pos (-53)). nra. }
  assert (bpow (-53) = / IZR (2 ^ 53)) as B53 by (apply (bpow_inv 53); lia). pose proof (bpow_le (-1075) (-53) ltac:(lia)) as B1075. rewrite B53 in Ed, B1075. cbn in Ed, B1075.
  assert (0 ≤ d ≤ IZR (sec + 1)) as Hd01 by (split; [apply (near_lo 0 _ _ Hnd)|apply (near_hi _ _ _ Hnd)]; rewrite ?plus_IZR; lra || lia).
  destruct (trunc_spec d' d Hd (proj1 Hd01)) as (n&Hn1&Hn0&Hnfl). unfold utime_double.set_from_double.
  assert (n ≤ sec + 1)%Z by (apply le_IZR; lra). unfold to_u32. rewrite (cast_spec _ _ _ _ n Hn1) by (lra || lia). cbn [mbind outcome_bind].
  destruct (sub_spec _ (of_Z n) _ (IZR n) Hd ltac:(apply of_Z_exact; lia)) as (r&Hr&Hnr); [apply bpow_1023; rewrite Rabs_right; cbn; lra|].
  pose proof (near_abs 1 _ _ Hnr ltac:(rewrite Rabs_right; lra) ltac:(lra)) as Er.
  assert (0 ≤ r ≤ 1) as Hr01 by (split; [apply (near_lo 0 _ _ Hnr)|apply (near_hi 1 _ _ Hnr)]; lra || lia).
  destruct (mul_spec _ (of_Z 1000000000) _ 1000000000 Hr ltac:(apply of_Z_exact; lia)) as (m&Hm&Hnm); [apply bpow_1023; rewrite Rabs_right; cbn; lra|].
  pose proof (near_abs 1000000000 _ _ Hnm ltac:(rewrite Rabs_right; lra) ltac:(lra)) as Em.
  assert (0 ≤ m ≤ 1000000000) as Hm01 by (split; [apply (near_lo 0 _ _ Hnm)|apply (near_hi 1000000000 _ _ Hnm)]; lra || lia).
  destruct (to_Z_spec _ _ Hm (proj1 Hm01)) as (k&_&Hk0&Hkfl). assert (k ≤ 1000000000)%Z by (apply le_IZR; lra).
  rewrite (cast_spec _ _ _ _ k Hm) by (lra || lia). cbn [mbind outcome_bind]. eexists. split; [done|]. cbn [utime.tv_sec utime.tv_nsec].
  apply abs_between in Ep, Ed, Er, Em. cbn in Ep, Er, Em.
  apply Z.abs_le. split; apply le_IZR; rewrite ?opp_IZR, !minus_IZR, !plus_IZR, !mult_IZR; lra.
Qed.

(** A time point below [2^62] nanoseconds, the year 2116, goes through
    [double] with a relative error below [2^-50]. *)
Theorem span_double_round_trip t :
  (0 ≤ t < 2 ^ 62)%Z → ∃ n, span_double.from_double (span_double.to_double t) = Ret n ∧ (Z.abs (n - t) ≤ t / 2 ^ 50 + 2)%Z.
Proof.
  intros Ht. unfold span_double.from_double, span_double.to_double.
  assert (0 ≤ IZR t ≤ IZR (2 ^ 62)) as Htr by (split; apply IZR_le; lia). cbn in Htr.
  assert (∀ x y, near x y → 0 ≤ x → 0 ≤ y ∧ x - x * / IZR (2 ^ 53) - / IZR (2 ^ 53) ≤ y ≤ x + x * / IZR (2 ^ 53) + / IZR (2 ^ 53)) as Hrel.
  { intros x y Hn Hx. split; [apply (near_lo 0 _ _ Hn); lra || lia|]. destruct Hn as [Hn _]. rewrite (Rabs_right x) in Hn by lra.
    assert (bpow (-53) = / IZR (2 ^ 53)) as B53 by (apply (bpow_inv 53); lia). pose proof (bpow_le (-1075) (-53) ltac:(lia)). rewrite B53 in *.
    apply abs_between in Hn. lra. }
  destruct (of_Z_spec t) as (a&Ha&Hna); [lia|]. destruct (Hrel _ _ Hna) as [Ha0 Ha1]; [lra|]. cbn in Ha1.
  destruct (div_spec _ (of_Z 1000000000) _ 1000000000 Ha) as (b&Hb&Hnb); [apply of_Z_exact; lia|lra|apply bpow_1023; rewrite Rabs_right; cbn; lra|].
  destruct (Hrel _ _ Hnb) as [Hb0 Hb1]; [lra|]. cbn in Hb1.
  destruct (mul_spec _ (of_Z 1000000000) _ 1000000000 Hb) as (c&Hc&Hnc); [apply of_Z_exact; lia|apply bpow_1023; rewrite Rabs_right; cbn; lra|].
  destruct (Hrel _ _ Hnc) as [Hc0 Hc1]; [lra|]. cbn in Hc1.
  destruct (to_u64_floor _ _ Hc Hc0) as (n&->&Hn&Hfl); [cbn; lra|]. exists n. split; [done|].
  pose proof (Z.div_mod t (2 ^ 50) ltac:(lia)) as Hdm. pose proof (Z.mod_pos_bound t (2 ^ 50) ltac:(lia)) as Hmod.
  set (q := (t / 2 ^ 50)%Z) in *. assert (IZR t ≤ IZR (2 ^ 50) * (IZR q + 1)) as Hq.
  { rewrite <- (plus_IZR q 1), <- mult_IZR. apply IZR_le. lia. }
  cbn in Hq. assert (0 ≤ IZR q) by (apply IZR_le, Z.div_pos; lia).
  assert (n < t + q + 2)%Z by (apply lt_IZR; rewrite !plus_IZR; lra). assert (t - q - 2 < n)%Z by (apply lt_IZR; rewrite !minus_IZR; lra). lia.
Qed.

(** ** Before [init] *)

Lemma mul_zero d x : isR d x → ∃ s, mul d Cycles.zero = S754_zero s.
Proof. intros Hd. destruct (isR_inv _ _ Hd) as [(_&s&->)|(s&m&e&->&_)]; by eexists. Qed.

(** Without [init], or when the counter reads 0, the frequency stays 0: a
    conversion to nanoseconds casts an infinity or a NaN, which is undefined,
    and a conversion to cycles gives 0, so that [sleep] returns at the first
    reading. *)
Theorem uninitialised_cycles cycles ns us c l :
  (0 ≤ cycles < 2 ^ 64)%Z → (0 ≤ ns < 2 ^ 64)%Z → (0 ≤ c < 2 ^ 64)%Z →
  Cycles.to_nanoseconds Cycles.zero cycles Cycles.zero = Crash Undefined ∧
  Cycles.from_nanoseconds Cycles.zero ns Cycles.zero = Ret 0%Z ∧
  Cycles.sleep Cycles.zero us (c :: c :: l) = Ret l.
Proof.
  intros Hcy Hns Hc.
  assert (∀ n, (0 ≤ n < 2 ^ 64)%Z → Cycles.from_nanoseconds Cycles.zero n Cycles.zero = Ret 0%Z) as Hfrom.
  { intros n Hn. destruct (of_Z_spec n) as (y&Hy&_); [lia|]. unfold Cycles.from_nanoseconds, Cycles.frequency.
    change (eqb Cycles.zero Cycles.zero) with true. cbv iota. destruct (mul_zero _ _ Hy) as [s ->]. by destruct s. }
  split_and!; [|by apply Hfrom|].
  - unfold Cycles.to_nanoseconds, Cycles.frequency. change (eqb Cycles.zero Cycles.zero) with true. cbv iota.
    destruct (of_Z_spec cycles) as (y&Hy&Hny); [lia|].
    assert (0 ≤ y ≤ bpow 64) as Hyb.
    { destruct Hny as [_ H]. destruct (H 0%Z 0%Z) as [H1 _]; [lia|lia|]. destruct (H 1%Z 64%Z) as [_ H2]; [lia|lia|]. rewrite Rmult_0_l in H1. rewrite Rmult_1_l in H2.
      split; [apply H1, IZR_le; lia|apply H2]. rewrite bpow_Z by lia. apply IZR_le. lia. }
    destruct (mul_spec (of_Z 1000000000) _ 1000000000 _ ltac:(apply of_Z_exact; lia) Hy) as (z&Hz&_).
    { apply bpow_1023. rewrite (bpow_Z 64) in Hyb by lia. cbn in Hyb. rewrite Rabs_right; cbn; lra. }
    destruct (isR_inv _ _ Hz) as [(_&s&->)|(s&m&e&->&_)]; by destruct s.
  - cbn [Cycles.sleep]. rewrite Hfrom by (pose proof (u64_range (1000 * us)); unfold is_u64 in *; lia). cbn [mbind outcome_bind].
    rewrite Z.add_0_r, u64_small by (unfold is_u64; lia). cbn [Cycles.spin]. by rewrite Z.ltb_irrefl.
Qed.

(** [sleep] returns once the counter has passed the cycles of the span, as long as it does not wrap. *)
Lemma sleep_waits self us c n l rest :
  Cycles.from_nanoseconds self (u64 (1000 * us)) Cycles.zero = Ret n → (0 ≤ c)%Z → (0 ≤ n)%Z → (c + n < 2 ^ 64)%Z →
  Cycles.sleep self us (c :: l) = Ret rest → ∃ past last, l = past ++ last :: rest ∧ Forall (λ x, x < c + n)%Z past ∧ (c + n ≤ last)%Z.
Proof.
  intros Hn Hc Hn0 Hlim. cbn [Cycles.sleep]. rewrite Hn. cbn [mbind outcome_bind]. rewrite u64_small by (unfold is_u64; lia).
  induction l as [|x l IH]; cbn [Cycles.spin]; [done|]. destruct (Z.ltb_spec x (c + n)) as [Hlt|Hge].
  - intros H. destruct (IH H) as (past&last&->&Hp&Hl). exists (x :: past), last. split_and!; [done|by constructor|done].
  - intros [= <-]. by exists [], x.
Qed.

End proofs.

(** ** Concrete inputs *)

(** The last representable second rounds up to [2^32] seconds. *)
Example utime_double_overflows : utime_double.set_from_double (utime_double.to_double (utime.mk 4294967295 999999999)) = Crash Undefined.
Proof. by vm_compute. Qed.
(** 5.5 s less 0.5 s is left with a full second of nanoseconds. *)
Example sub_assign_not_normal : utime_double.sub_assign (utime.mk 5 500000000) half = Ret (utime.mk 4 1000000000).
Proof. by vm_compute. Qed.
(** A clock that is set back ends the measurement at once with a frequency near 0. *)
Example clock_step_back :
  match Cycles.measure (10, 0) 0 [Cycles.Reading (Some (9, 0)) 2900] with Ret (d, _) => ltb d (of_Z 1) | Crash _ => false end = true.
Proof. by vm_compute. Qed.

Lemma soft_timestamp_us_witness : Cycles.get_soft_timestamp_us (1700000000, 999999) = Ret 1700000000999999.
Proof. apply (soft_timestamp_us_exact 1700000000 999999); lia. Defined.
Lemma soft_timestamp_ns_witness : ∃ n, Cycles.get_soft_timestamp_ns (1700000000, 999999999) = Ret n ∧ 1700000000999999 ≤ n ≤ 1700000001000000.
Proof. apply (soft_timestamp_ns_microseconds 1700000000 999999999); lia. Defined.

(** A counter at 2.9 GHz that wraps around while it is read *)
Lemma init_calibrates_witness :
  ∃ d, Cycles.init Cycles.zero 1 (at_us 2900 18446744073700000000 <$> [0; 9000; 11000; 18000; 26000; 36000; 45000; 55000]) = Ret d ∧ isR d (IZR 2900000000).
Proof.
  apply (init_calibrates 2900 18446744073700000000 1 0 [9000; 11000; 18000; 26000; 36000; 45000; 55000]); [lia|lia|done| |cbn; lia].
  repeat (constructor; [lia|lia|]). constructor.
Defined.

Lemma nanoseconds_round_trip_witness :
  ∃ c, Cycles.from_nanoseconds (of_Z 2900000000) 123456789 Cycles.zero = Ret c ∧ Cycles.to_nanoseconds (of_Z 2900000000) c Cycles.zero = Ret 123456789.
Proof.
  apply (nanoseconds_round_trip (of_Z 2900000000) (IZR 2900000000)); [apply of_Z_exact; lia|split; apply IZR_le; lia|lia].
Defined.

Lemma utime_double_round_trip_witness :
  ∃ v, utime_double.set_from_double (utime_double.to_double (utime.mk 1700000000 123456789)) = Ret v ∧
    Z.abs (utime.tv_sec v * 1000000000 + utime.tv_nsec v - 1700000000123456789) ≤ 480.
Proof. apply (utime_double_round_trip (utime.mk 1700000000 123456789)); cbn; lia. Defined.

Lemma span_double_round_trip_witness :
  ∃ n, span_double.from_double (span_double.to_double 1700000000123456789) = Ret n ∧ Z.abs (n - 1700000000123456789) ≤ 1512.
Proof.
  destruct (span_double_round_trip 1700000000123456789) as (n&H1&H2); [lia|]. exists n. split; [exact H1|]. etrans; [exact H2|]. by vm_compute.
Defined.

Lemma uninitialised_cycles_witness : Cycles.to_nanoseconds Cycles.zero 5 Cycles.zero = Crash Undefined ∧
  Cycles.from_nanoseconds Cycles.zero 5 Cycles.zero = Ret 0 ∧ Cycles.sleep Cycles.zero 10 [7; 7] = Ret [].
Proof. apply (uninitialised_cycles 5 5 10 7 []); lia. Defined.
