(* ===== verification/Locked.v ===== *)
(** * Loggers that threads share (src/common/statistic.h)

    [Statistic.v] treats [Add] of a locked term as one step. Here the accesses
    to the term and to its stream are the steps, and any number of threads run
    lists of calls. Calls that all take the term's mutex are shown to do what
    the sequential functions of [Statistic.v] do, in the order in which the
    mutex was taken; the calls that take none ([Flush] of a locked term, the
    terms of [TimeAverageLoggerTerm]) lose values. *)

From S2P Require Import Prelude State Machine Wire Text Statistic.

(** ** Threads and a mutex *)

Module Threads.
Section threads.
(** The shared state, the calls, whether a call takes the mutex, and the accesses of its body *)
Context {S Call : Type} (takes_lock : Call → bool) (body : Call → list (S → outcome S)).

(** A thread is inside a call, with the accesses that are left, or between two calls. *)
Record thread := mkThread { inside : option (bool * list (S → outcome S)); program : list Call }.
Record st := mk { shared : S; owner : option nat; threads : list thread; entered : list (nat * Call) }.

Definition set_thread (h : nat) (t : thread) (s : st) : st := mk (shared s) (owner s) (<[h := t]> (threads s)) (entered s).

(** One step of thread [h]; [None] when it waits or has finished *)
Definition turn (h : nat) (s : st) : option (outcome st) :=
  match threads s !! h with
  | Some (mkThread (Some (l, a :: rest)) p) =>
    Some (x ← a (shared s); Ret (mk x (owner s) (<[h := mkThread (Some (l, rest)) p]> (threads s)) (entered s)))
  | Some (mkThread (Some (l, [])) p) =>
    Some (Ret (mk (shared s) (if l then None else owner s) (<[h := mkThread None p]> (threads s)) (entered s)))
  | Some (mkThread None (c :: p)) =>
    if takes_lock c then
      match owner s with
      | None => Some (Ret (mk (shared s) (Some h) (<[h := mkThread (Some (true, body c)) p]> (threads s)) (entered s ++ [(h, c)])))
      | Some _ => None
      end
    else Some (Ret (mk (shared s) (owner s) (<[h := mkThread (Some (false, body c)) p]> (threads s)) (entered s ++ [(h, c)])))
  | _ => None
  end.

Inductive step : st → st → Prop := step_turn h s s' : turn h s = Some (Ret s') → step s s'.

Definition init (x : S) (programs : list (list Call)) : st := mk x None (mkThread None <$> programs) [].

(** The accesses one after the other, and the calls one after the other *)
Definition run (l : list (S → outcome S)) (x : S) : outcome S := foldl (λ o a, x ← o; a x) (Ret x) l.
Definition run_calls (l : list Call) (x : S) : outcome S := run (l ≫= body) x.

End threads.
Arguments thread : clear implicits.
Arguments st : clear implicits.
End Threads.

(** ** Calls that take the mutex are atomic *)

Section atomic.
Context {S Call : Type} (takes_lock : Call → bool) (body : Call → list (S → outcome S)).
Import Threads.
Abbreviation turn := (Threads.turn takes_lock body).
Abbreviation step := (Threads.step takes_lock body).

Lemma run_cons a l (x : S) : run (a :: l) x = (y ← a x; run l y).
Proof.
  unfold run. cbn. destruct (a x) as [y|k]; [done|]. cbn. induction l as [|b l IH]; [done|]. exact IH.
Qed.
Lemma run_app l l' (x : S) : run (l ++ l') x = (y ← run l x; run l' y).
Proof. revert x. induction l as [|a l IH]; intros x; [done|]. rewrite <- app_comm_cons, !run_cons. destruct (a x) as [y|k]; [|done]. cbn. apply IH. Qed.

(** What the thread that holds the mutex has left *)
Definition rest_of (s : st S Call) : list (S → outcome S) :=
  match owner s with
  | Some h => match threads s !! h with Some (mkThread (Some (_, l)) _) => l | _ => [] end
  | None => []
  end.
Definition calls_of (h : nat) (l : list (nat * Call)) : list Call := (filter (λ e, e.1 = h) l).*2.

Context (x0 : S) (programs : list (list Call)) (Hlock : Forall (Forall (λ c, takes_lock c = true)) programs).

(** The shared state is on the way of the calls that have entered, and the
    only thread inside a call is the owner of the mutex. *)
Record inv (s : st S Call) : Prop := {
  inv_run : run_calls body (entered s).*2 x0 = run (rest_of s) (shared s);
  inv_inside : ∀ h t, threads s !! h = Some t → inside t ≠ None ↔ owner s = Some h;
  inv_locked : ∀ h l k p, threads s !! h = Some (mkThread (Some (l, k)) p) → l = true;
  inv_owner : ∀ h, owner s = Some h → is_Some (threads s !! h);
  inv_calls : ∀ h t, threads s !! h = Some t → programs !! h = Some (calls_of h (entered s) ++ program t);
  inv_length : length (threads s) = length programs;
  inv_range : Forall (λ e, e.1 < length programs)%nat (entered s);
}.

Lemma calls_of_app h l l' : calls_of h (l ++ l') = calls_of h l ++ calls_of h l'.
Proof. unfold calls_of. by rewrite filter_app, fmap_app. Qed.
Lemma calls_of_same h c : calls_of h [(h, c)] = [c].
Proof. unfold calls_of. rewrite filter_cons_True by done. done. Qed.
Lemma calls_of_other h h' c : h ≠ h' → calls_of h [(h', c)] = [].
Proof. intros Hne. unfold calls_of. rewrite filter_cons_False by (cbn; congruence). done. Qed.

Lemma atomic_init : inv (init x0 programs).
Proof using Hlock.
  split; cbn [init threads owner entered shared]; try done.
  - intros h t Ht. rewrite list_lookup_fmap in Ht. destruct (programs !! h); [|done]. injection Ht as <-. done.
  - intros h l k p Ht. rewrite list_lookup_fmap in Ht. by destruct (programs !! h).
  - intros h t Ht. rewrite list_lookup_fmap in Ht. destruct (programs !! h) as [p|]; [|done]. by injection Ht as <-.
  - by rewrite length_fmap.
Qed.

(** A thread is replaced by one with the same calls. *)
Lemma atomic_put s h t0 t o x :
  inv s → threads s !! h = Some t0 → program t = program t0 → (∀ l k, inside t = Some (l, k) → l = true) →
  (inside t ≠ None ↔ o = Some h) → (∀ h', h' ≠ h → o = Some h' ↔ owner s = Some h') →
  run (rest_of s) (shared s) = run (rest_of (mk x o (<[h := t]> (threads s)) (entered s))) x →
  inv (mk x o (<[h := t]> (threads s)) (entered s)).
Proof using Hlock.
  intros [Hr Hin Hl Ho Hc Hlen Hra] Ht Hp Htl Hto Hoo Hrun.
  assert (h < length (threads s))%nat as Hlt by by eapply lookup_lt_Some. split; cbn [threads owner entered shared].
  - by rewrite Hr.
  - intros h' t' Ht'. apply list_lookup_insert_Some in Ht' as [(<-&<-&_)|(Hne&Ht')]; [done|]. rewrite Hoo by done. by apply Hin.
  - intros h' l k p Ht'. apply list_lookup_insert_Some in Ht' as [(<-&->&_)|(Hne&Ht')]; [by eapply Htl|by eapply Hl].
  - intros h' Hh'. destruct (decide (h' = h)) as [->|Hne]; [rewrite list_lookup_insert_eq by done; eauto|].
    rewrite list_lookup_insert_ne by done. apply Ho. by apply Hoo.
  - intros h' t' Ht'. apply list_lookup_insert_Some in Ht' as [(<-&<-&_)|(Hne&Ht')]; [rewrite Hp; by apply Hc|by apply Hc].
  - by rewrite length_insert.
  - done.
Qed.

Lemma atomic_enter s h c p :
  inv s → threads s !! h = Some (mkThread None (c :: p)) → owner s = None →
  inv (mk (shared s) (Some h) (<[h := mkThread (Some (true, body c)) p]> (threads s)) (entered s ++ [(h, c)])).
Proof using Hlock.
  intros [Hr Hin Hl Ho Hc Hlen Hra] Ht Hown.
  assert (h < length (threads s))%nat as Hlt by by eapply lookup_lt_Some. split; cbn [threads owner entered shared].
  - unfold run_calls in *. unfold rest_of in *. rewrite Hown in Hr. cbn [owner threads]. rewrite list_lookup_insert_eq by done.
    rewrite fmap_app, bind_app, run_app, Hr. cbn. by rewrite app_nil_r.
  - intros h' t' Ht'. apply list_lookup_insert_Some in Ht' as [(<-&<-&_)|(Hne&Ht')]; [done|].
    rewrite (Hin h' t' Ht'), Hown. split; congruence.
  - intros h' l k q Ht'. apply list_lookup_insert_Some in Ht' as [(<-&Ht'&_)|(Hne&Ht')]; [by injection Ht' as ->|by eapply Hl].
  - intros h' [= <-]. rewrite list_lookup_insert_eq by done. eauto.
  - intros h' t' Ht'. rewrite calls_of_app. apply list_lookup_insert_Some in Ht' as [(<-&<-&_)|(Hne&Ht')].
    + rewrite calls_of_same. pose proof (Hc _ _ Ht) as ->. cbn. by rewrite <- app_assoc.
    + rewrite calls_of_other by done. rewrite app_nil_r. by apply Hc.
  - by rewrite length_insert.
  - apply Forall_app. split; [done|]. constructor; [|constructor]. cbn. by rewrite <-Hlen.
Qed.

Lemma next_takes_lock s h i c p : inv s → threads s !! h = Some (mkThread i (c :: p)) → takes_lock c = true.
Proof using Hlock.
  intros Hi E. pose proof (inv_calls _ Hi _ _ E) as Hp. rewrite Forall_lookup in Hlock. pose proof (Hlock _ _ Hp) as Hall.
  cbn in Hall. rewrite Forall_app, Forall_cons in Hall. naive_solver.
Qed.

(** A step keeps the invariant; one that crashes is a crash of the calls that have entered. *)
Lemma atomic_turn s h o : inv s → turn h s = Some o →
  match o with Ret s' => inv s' | Crash k => run_calls body (entered s).*2 x0 = Crash k end.
Proof using Hlock.
  intros Hi Ht. unfold Threads.turn in Ht. destruct (threads s !! h) as [[[[l [|a rest]]|] p]|] eqn:E; [| | |done].
  - injection Ht as <-. pose proof (inv_locked _ Hi _ _ _ _ E) as ->.
    pose proof (proj1 (inv_inside _ Hi _ _ E) ltac:(done)) as Hown. eapply (atomic_put s h _ _ _ _ Hi E); try done.
    + intros h' Hne. rewrite Hown. split; congruence.
    + unfold rest_of. by rewrite Hown, E.
  - injection Ht as <-. pose proof (inv_locked _ Hi _ _ _ _ E) as ->.
    pose proof (proj1 (inv_inside _ Hi _ _ E) ltac:(done)) as Hown.
    assert (run (rest_of s) (shared s) = (x ← a (shared s); run rest x)) as Hrun by (unfold rest_of; rewrite Hown, E; apply run_cons).
    destruct (a (shared s)) as [x|k] eqn:Ea; cbn [mbind outcome_bind] in *; [|by rewrite (inv_run _ Hi)].
    eapply (atomic_put s h _ _ _ _ Hi E); try done.
    + intros l k [= <- _]. done.
    + rewrite Hrun. unfold rest_of. cbn [owner threads]. rewrite Hown, list_lookup_insert_eq by (by eapply lookup_lt_Some). done.
  - destruct p as [|c p]; [done|]. rewrite (next_takes_lock _ _ _ _ _ Hi E) in Ht. destruct (owner s) eqn:Ho; [done|]. injection Ht as <-. by apply atomic_enter.
Qed.

Lemma atomic_steps s : rtc step (init x0 programs) s → inv s.
Proof using Hlock.
  intros Hr. refine (rtc_invariant step inv _ _ _ atomic_init Hr). intros s1 s2 H1 Hs. destruct Hs as [h s1 s2 Ht]. exact (atomic_turn _ _ _ H1 Ht).
Qed.

(** When no thread can move, all have finished. *)
Lemma stuck_done s : inv s → (∀ h, turn h s = None) → owner s = None ∧ Forall (λ t, t = mkThread None []) (threads s).
Proof using Hlock.
  intros Hi Hst. assert (owner s = None) as Ho.
  { destruct (owner s) as [h|] eqn:Ho; [|done]. destruct (inv_owner _ Hi h Ho) as [[[[l [|a k]]|] p] E]; specialize (Hst h); unfold Threads.turn in Hst; rewrite E in Hst; try done.
    pose proof (proj2 (inv_inside _ Hi _ _ E) Ho). done. }
  split; [done|]. apply Forall_lookup. intros h [[[l [|a k]]|] p] E; specialize (Hst h); unfold Threads.turn in Hst; rewrite E in Hst; try done.
  destruct p as [|c p]; [done|]. by rewrite (next_takes_lock _ _ _ _ _ Hi E), Ho in Hst.
Qed.

(** What has entered of each thread is the beginning of its calls. *)
Lemma entered_prefix s h : inv s → calls_of h (entered s) `prefix_of` default [] (programs !! h).
Proof using Hlock.
  intros Hi. destruct (threads s !! h) as [t|] eqn:E.
  - rewrite (inv_calls _ Hi _ _ E). by exists (program t).
  - apply lookup_ge_None in E. rewrite (inv_length _ Hi) in E. rewrite (lookup_ge_None_2 programs h E).
    assert (calls_of h (entered s) = []) as ->; [|done]. unfold calls_of. pose proof (inv_range _ Hi) as Hra.
    induction Hra as [|e l He _ IH]; [done|]. rewrite filter_cons_False by (intros Heq; cbn in Heq; lia). exact IH.
Qed.
(** Every call that has entered is one of a thread's. *)
Lemma entered_called s h c : inv s → (h, c) ∈ entered s → ∃ p, programs !! h = Some p ∧ c ∈ p.
Proof using Hlock.
  intros Hi Hin. pose proof (entered_prefix s h Hi) as [k Hk].
  assert (c ∈ default [] (programs !! h)) as Hc.
  { rewrite Hk. apply elem_of_app. left. unfold calls_of. apply list_elem_of_fmap. exists (h, c). split; [done|]. by apply list_elem_of_filter. }
  destruct (programs !! h) as [p|]; [by exists p|]. by apply not_elem_of_nil in Hc.
Qed.

(** Calls that all take the mutex never block for good; in every state that
    no thread can leave, each thread has made its calls, and the shared state
    is the one the calls leave when they run one after the other, in an order
    that keeps every thread's own. A step that crashes is a crash of such a run. *)
Lemma locked_calls_atomic s :
  rtc step (init x0 programs) s →
  (∀ h k, turn h s = Some (Crash k) → run_calls body (entered s).*2 x0 = Crash k) ∧
  ((∀ h, turn h s = None) →
    run_calls body (entered s).*2 x0 = Ret (shared s) ∧
    ∀ h, calls_of h (entered s) = default [] (programs !! h)).
Proof using Hlock.
  intros Hr. pose proof (atomic_steps s Hr) as Hi. split; [intros h k Ht; exact (atomic_turn _ _ _ Hi Ht)|].
  intros Hst. destruct (stuck_done s Hi Hst) as [Ho Hall]. split.
  - rewrite (inv_run _ Hi). unfold rest_of. by rewrite Ho.
  - intros h. destruct (threads s !! h) as [t|] eqn:E.
    + rewrite Forall_lookup in Hall. rewrite (inv_calls _ Hi _ _ E), (Hall _ _ E). cbn. by rewrite app_nil_r.
    + destruct (entered_prefix s h Hi) as [k Hk]. apply lookup_ge_None in E. rewrite (inv_length _ Hi) in E.
      rewrite (lookup_ge_None_2 programs h E) in *. by destruct (calls_of h (entered s)).
Qed.

End atomic.

(** ** The locked terms *)

Module LockedOriginalLoggerTerm.
Section term.
Context {C T} `{Container C T}.
Import OriginalLoggerTerm.

Inductive call := Add (value : T) | Flush | SetFlushTime (flush_time : Z).
Definition state : Type := t C * Logger.

(** [Flush] and [SetFlushTime] do not take [m_lock]. *)
Definition takes_lock (c : call) : bool := match c with Add _ => true | _ => false end.

Definition push (value : T) (s : state) : outcome state :=
  c ← c_push value (m_sum s.1); Ret (mk c (m_name s.1) (max_flushtime s.1), s.2).
Definition output (s : state) : outcome state := Ret (s.1, put (c_show (m_sum s.1) ++ [10]) s.2).
Definition clear (s : state) : outcome state := Ret (mk (c_clear (m_sum s.1)) (m_name s.1) (max_flushtime s.1), s.2).
Definition when_full (f : state → outcome state) (s : state) : outcome state := if should_flush s.1 then f s else Ret s.
Definition body (c : call) : list (state → outcome state) :=
  match c with
  | Add value => [push value; when_full output; when_full clear]
  | Flush => [output; clear]
  | SetFlushTime flush_time => [λ s, Ret (OriginalLoggerTerm.SetFlushTime flush_time s.1, s.2)]
  end.
End term.
Arguments call : clear implicits.
Arguments state : clear implicits.
End LockedOriginalLoggerTerm.

Module LockedAverageLoggerTerm.
Import AverageLoggerTerm.

Definition state : Type := t * Logger.
Definition add_sum (value : Z) (s : state) : outcome state :=
  Ret (mk (m_name s.1) (m_record_frequency s.1) (m_index s.1) (u64 (m_sum s.1 + value)), s.2).
Definition count (s : state) : outcome state := Ret (mk (m_name s.1) (m_record_frequency s.1) (u32 (m_index s.1 + 1)) (m_sum s.1), s.2).
Definition output (s : state) : outcome state :=
  if m_index s.1 =? 0 then Crash Undefined else Ret (s.1, put (line (m_name s.1) (m_sum s.1 / m_index s.1)) s.2).
Definition clear_sum (s : state) : outcome state := Ret (mk (m_name s.1) (m_record_frequency s.1) (m_index s.1) 0, s.2).
Definition clear_index (s : state) : outcome state := Ret (mk (m_name s.1) (m_record_frequency s.1) 0 (m_sum s.1), s.2).
Definition when_full (f : state → outcome state) (s : state) : outcome state := if m_index s.1 =? m_record_frequency s.1 then f s else Ret s.
(** [Add], whose first statement takes [m_lock] *)
Definition takes_lock (value : Z) : bool := true.
Definition body (value : Z) : list (state → outcome state) :=
  [add_sum value; count; when_full output; when_full clear_sum; when_full clear_index].
End LockedAverageLoggerTerm.

Module LockedNumericLoggerTerm.
Import NumericLoggerTerm.

Definition state : Type := t * Logger.
Definition body (value : Z) : list (state → outcome state) :=
  [λ s, Ret (mk (u64 (m_sum s.1 + value)) (m_name s.1), s.2);
   λ s, Ret (s.1, if should_flush s.1 then flush s.1 s.2 else s.2);
   λ s, Ret (mk 0 (m_name s.1), s.2)].
End LockedNumericLoggerTerm.

(** The averaging term of a time interval, which has no mutex: its [Add], and a round of its thread *)
Module SharedTimeAverage.
Import TimeAverageLoggerTerm.

Inductive call := Value (value : Z) | Round (now : Z).
Definition state : Type := t * Logger.
Section output.
Context (rate_text : Z → Z → list Z).
Definition body (c : call) : list (state → outcome state) :=
  match c with
  | Value value => [λ s, Ret (TimeAverageLoggerTerm.Add value s.1, s.2)]
  | Round now =>
    [λ s, Ret (s.1, put (m_name s.1 ++ [9] ++ rate_text (m_sum s.1) (u64 (now - last_cycle s.1)) ++ [10]) s.2);
     λ s, Ret (mk (m_name s.1) (m_record_duration s.1) 0 (last_cycle s.1), s.2);
     λ s, Ret (mk (m_name s.1) (m_record_duration s.1) (m_sum s.1) now, s.2)]
  end.
End output.
End SharedTimeAverage.

(** *** The accesses make up the functions of Statistic.v. *)

Lemma original_body {C T} `{Container C T} v o l :
  Threads.run (LockedOriginalLoggerTerm.body (LockedOriginalLoggerTerm.Add v)) (o, l) = OriginalLoggerTerm.Add v o l.
Proof.
  cbn [LockedOriginalLoggerTerm.body]. rewrite run_cons. unfold LockedOriginalLoggerTerm.push, OriginalLoggerTerm.Add. cbn [fst snd].
  destruct (c_push v (OriginalLoggerTerm.m_sum o)) as [c|k]; [|done]. cbn [mbind outcome_bind].
  unfold Threads.run. cbn [foldl mbind outcome_bind]. unfold LockedOriginalLoggerTerm.when_full. cbn [fst snd].
  destruct (OriginalLoggerTerm.should_flush _) eqn:E; cbn [mbind outcome_bind LockedOriginalLoggerTerm.output fst]; [|by rewrite E]. rewrite E. done.
Qed.

Lemma average_body v a l : Threads.run (LockedAverageLoggerTerm.body v) (a, l) = AverageLoggerTerm.Add v a l.
Proof.
  unfold Threads.run, LockedAverageLoggerTerm.body, AverageLoggerTerm.Add, LockedAverageLoggerTerm.when_full, LockedAverageLoggerTerm.output.
  cbn -[u32 u64 Z.eqb Z.div]. destruct (u32 (AverageLoggerTerm.m_index a + 1) =? AverageLoggerTerm.m_record_frequency a) eqn:E; cbn -[u32 u64 Z.eqb Z.div].
  - destruct (u32 (AverageLoggerTerm.m_index a + 1) =? 0) eqn:E0; cbn -[u32 u64 Z.eqb Z.div]; [done|].
    rewrite E. cbn -[u32 u64 Z.eqb Z.div]. by rewrite E.
  - rewrite E. cbn -[u32 u64 Z.eqb Z.div]. by rewrite E.
Qed.

Lemma numeric_body v n l : Threads.run (LockedNumericLoggerTerm.body v) (n, l) = Ret (NumericLoggerTerm.Add v n l).
Proof. done. Qed.

Lemma original_calls {C T} `{Container C T} vs o l :
  Threads.run_calls LockedOriginalLoggerTerm.body (LockedOriginalLoggerTerm.Add <$> vs) (o, l) = OriginalLoggerTerm.Adds vs o l.
Proof.
  unfold Threads.run_calls. revert o l. induction vs as [|v vs IH]; intros o l; [done|]. cbn [mbind list_bind fmap list_fmap].
  rewrite run_app, original_body. cbn [OriginalLoggerTerm.Adds]. destruct (OriginalLoggerTerm.Add v o l) as [[o' l']|]; [|done]. apply IH.
Qed.
Lemma average_calls vs a l : Threads.run_calls LockedAverageLoggerTerm.body vs (a, l) = Averages vs a l.
Proof.
  unfold Threads.run_calls. revert a l. induction vs as [|v vs IH]; intros a l; [done|]. cbn [mbind list_bind].
  rewrite run_app, average_body. cbn [Averages]. destruct (AverageLoggerTerm.Add v a l) as [[a' l']|]; [|done]. apply IH.
Qed.

(** Threads that only call [Add]: what has entered, as the values *)
Section adds.
Context {C T} `{Container C T} (programs : list (list T)).
Import LockedOriginalLoggerTerm.
Abbreviation adds := ((λ vs : list T, Add <$> vs) <$> programs).

Lemma adds_lock : Forall (Forall (λ c : call T, takes_lock c = true)) adds.
Proof using Type. apply Forall_fmap, Forall_true. intros vs. by apply Forall_fmap, Forall_true. Qed.
Lemma all_adds (l : list (nat * call T)) : (∀ h c, (h, c) ∈ l → ∃ p, adds !! h = Some p ∧ c ∈ p) →
  ∃ order : list (nat * T), l = (λ '(h, v), (h, Add v)) <$> order.
Proof using Type.
  induction l as [|[h c] l IH]; intros Hall; [by exists []|]. destruct IH as [order ->]; [intros; apply Hall; by right|].
  destruct (Hall h c ltac:(left)) as (p&Hp&Hc). rewrite list_lookup_fmap in Hp. destruct (programs !! h) as [vs|]; [|done]. cbn in Hp. simplify_eq.
  apply list_elem_of_fmap in Hc as (v&->&_). by exists ((h, v) :: order).
Qed.
Lemma calls_of_adds h (order : list (nat * T)) : calls_of h ((λ '(h, v), (h, Add v)) <$> order) = Add <$> calls_of h order.
Proof using Type.
  induction order as [|[h' v] order IH]; [done|]. rewrite fmap_cons. unfold calls_of in *. destruct (decide (h' = h)) as [->|Hne].
  - rewrite !filter_cons_True by done. rewrite !fmap_cons. cbn. by rewrite IH.
  - by rewrite !filter_cons_False by (cbn; congruence).
Qed.
Lemma adds_lookup h : default [] (adds !! h) = Add <$> default [] (programs !! h).
Proof using Type. rewrite list_lookup_fmap. by destruct (programs !! h). Qed.
Lemma adds_values (order : list (nat * T)) : ((λ '(h, v), (h, Add v)) <$> order).*2 = Add <$> order.*2.
Proof using Type. induction order as [|[h v] order IH]; [done|]. rewrite !fmap_cons. cbn. by rewrite IH. Qed.
#[local] Instance add_inj : Inj eq eq (@Add T).
Proof. by intros x y [= ->]. Qed.
Lemma adds_inj (l k : list T) : Add <$> l = Add <$> k → l = k.
Proof using Type. apply (inj (fmap Add)). Qed.
Lemma adds_prefix (l k : list T) : Add <$> l `prefix_of` Add <$> k → l `prefix_of` k.
Proof using Type.
  revert k. induction l as [|x l IH]; intros k Hp; [apply prefix_nil|]. destruct k as [|y k]; [by destruct Hp|].
  rewrite !fmap_cons in Hp. pose proof (prefix_cons_inv_1 _ _ _ _ Hp) as E. apply prefix_cons_inv_2 in Hp. simplify_eq. by apply prefix_cons, IH.
Qed.
End adds.

(** C35: Threads that add values to a locked term, each [Add] taking the term's
    mutex where the source has its [lock_guard], never block for good. When no
    thread can move, the term and its file are what [Add] leaves when it is
    called for all the values one after the other, in an order that keeps
    every thread's own. An access that is undefined is undefined in such a
    sequence of calls too, of the values that the threads have begun to add. *)
Theorem locked_term_atomic {C T} `{Container C T} (o : OriginalLoggerTerm.t C) l (programs : list (list T)) s :
  rtc (Threads.step LockedOriginalLoggerTerm.takes_lock LockedOriginalLoggerTerm.body)
    (Threads.init (o, l) ((λ vs : list T, LockedOriginalLoggerTerm.Add <$> vs) <$> programs)) s →
  (∀ h k, Threads.turn LockedOriginalLoggerTerm.takes_lock LockedOriginalLoggerTerm.body h s = Some (Crash k) →
    ∃ order, OriginalLoggerTerm.Adds order.*2 o l = Crash k ∧ ∀ h, calls_of h order `prefix_of` default [] (programs !! h)) ∧
  ((∀ h, Threads.turn LockedOriginalLoggerTerm.takes_lock LockedOriginalLoggerTerm.body h s = None) →
    ∃ order, OriginalLoggerTerm.Adds order.*2 o l = Ret (Threads.shared s) ∧ ∀ h, calls_of h order = default [] (programs !! h)).
Proof.
  intros Hr. pose proof (adds_lock programs) as Hl. pose proof (atomic_steps _ _ _ _ Hl s Hr) as Hi.
  destruct (locked_calls_atomic _ _ (o, l) _ Hl s Hr) as [Hc Hd].
  destruct (all_adds programs (Threads.entered s)) as [order Eo]; [intros h c Hin; by eapply entered_called|].
  assert (∀ x, Threads.run_calls LockedOriginalLoggerTerm.body (Threads.entered s).*2 (o, l) = x → OriginalLoggerTerm.Adds order.*2 o l = x) as Hx.
  { intros x <-. rewrite <-original_calls, <-adds_values. f_equal. f_equal. exact (eq_sym Eo). }
  assert (∀ h, calls_of h (Threads.entered s) = LockedOriginalLoggerTerm.Add <$> calls_of h order) as Hof by (intros h; rewrite <-calls_of_adds; f_equal; exact Eo).
  split.
  - intros h k Ht. exists order. split; [by eapply Hx, Hc|]. intros h'. apply adds_prefix. rewrite <-adds_lookup, <-Hof. by eapply entered_prefix.
  - intros Hst. destruct (Hd Hst) as [H1 H2]. exists order. split; [by apply Hx|]. intros h. specialize (H2 h).
    rewrite Hof, adds_lookup in H2. by apply adds_inj.
Qed.

(** The same for the averaging term *)
Theorem locked_average_atomic a l (programs : list (list Z)) s :
  rtc (Threads.step LockedAverageLoggerTerm.takes_lock LockedAverageLoggerTerm.body) (Threads.init (a, l) programs) s →
  (∀ h, Threads.turn LockedAverageLoggerTerm.takes_lock LockedAverageLoggerTerm.body h s = None) →
  ∃ order, Averages order.*2 a l = Ret (Threads.shared s) ∧ ∀ h, calls_of h order = default [] (programs !! h).
Proof.
  intros Hr Hst.
  assert (Forall (Forall (λ c, LockedAverageLoggerTerm.takes_lock c = true)) programs) as Hl by (apply Forall_true; intros p; by apply Forall_true).
  destruct (locked_calls_atomic _ _ (a, l) programs Hl s Hr) as [_ Hd]. destruct (Hd Hst) as [H1 H2].
  exists (Threads.entered s). split; [|done]. by rewrite <- average_calls.
Qed.

(** ** Races *)

(** A vector of numbers as a container *)
#[local] Instance vector_container : Container (list Z) Z :=
  {| c_new := []; c_push := λ v c, Ret (c ++ [v]); c_resize := λ _ c, c; c_size := λ c, Z.of_nat (length c); c_clear := λ _, [];
     c_show := λ c, c ≫= dec_u |}.

(** Runs by computation *)
Section runs.
Context {S Call : Type} (takes_lock : Call → bool) (body : Call → list (S → outcome S)).
Definition run_turns (hs : list nat) (s : Threads.st S Call) : option (Threads.st S Call) :=
  foldl (λ o h, s ← o; match Threads.turn takes_lock body h s with Some (Ret s') => Some s' | _ => None end) (Some s) hs.
Lemma run_turns_rtc hs s s' : run_turns hs s = Some s' → rtc (Threads.step takes_lock body) s s'.
Proof.
  unfold run_turns. revert s. induction hs as [|h hs IH]; intros s; cbn; [intros [= ->]; done|].
  destruct (Threads.turn takes_lock body h s) as [[s1|]|] eqn:E; cbn; intros Hr.
  1: { eapply rtc_l; [by eapply Threads.step_turn|by apply IH]. }
  all: exfalso; clear -Hr; induction hs; [done|by apply IHhs].
Qed.
End runs.

Definition log_file : Logger := mkLogger [1] true {[ [1] := [] ]}.

(** [Flush] of a locked term does not take the mutex: a value that is added
    between its output and its clearing is neither written nor kept. *)
Theorem flush_loses_values :
  ∃ s, rtc (Threads.step LockedOriginalLoggerTerm.takes_lock LockedOriginalLoggerTerm.body)
         (Threads.init (OriginalLoggerTerm.mk [] [65] 10, log_file) [[LockedOriginalLoggerTerm.Add 7]; [LockedOriginalLoggerTerm.Flush]]) s ∧
    (∀ h, Threads.turn LockedOriginalLoggerTerm.takes_lock LockedOriginalLoggerTerm.body h s = None) ∧
    OriginalLoggerTerm.m_sum (Threads.shared s).1 = [] ∧ logged (Threads.shared s).2 = [10].
Proof.
  eexists. split; [eapply (run_turns_rtc _ _ [1; 1; 0; 0; 0; 0; 0; 1; 1]%nat); vm_compute; reflexivity|].
  split_and!; [intros [|[|h]]; reflexivity|by vm_compute|by vm_compute].
Qed.

(** [TimeAverageLoggerTerm] has no mutex: a value that is added between the
    line and the reset of a round is in no line. *)
Theorem interval_values_lost :
  ∃ s, rtc (Threads.step (λ _, false) (SharedTimeAverage.body (λ sum _, dec_u sum)))
         (Threads.init (TimeAverageLoggerTerm.mk [65] 5 0 0, log_file) [[SharedTimeAverage.Value 7]; [SharedTimeAverage.Round 10; SharedTimeAverage.Round 20]]) s ∧
    (∀ h, Threads.turn (λ _, false) (SharedTimeAverage.body (λ sum _, dec_u sum)) h s = None) ∧
    TimeAverageLoggerTerm.m_sum (Threads.shared s).1 = 0 ∧ logged (Threads.shared s).2 = [65; 9; 48; 10; 65; 9; 48; 10].
Proof.
  eexists. split; [eapply (run_turns_rtc _ _ [1; 1; 0; 0; 0; 1; 1; 1; 1; 1; 1; 1; 1]%nat); vm_compute; reflexivity|].
  split_and!; [intros [|[|h]]; reflexivity|by vm_compute|by vm_compute].
Qed.

(** Two threads that add two values each, the second entering while the first waits *)
Definition two_adders : Threads.st (LockedOriginalLoggerTerm.state (list Z)) (LockedOriginalLoggerTerm.call Z) :=
  Threads.init (OriginalLoggerTerm.mk [] [65] 3, log_file) ((λ vs : list Z, LockedOriginalLoggerTerm.Add <$> vs) <$> [[7; 8]; [9; 1]]).
Lemma locked_term_atomic_witness :
  ∃ s, run_turns LockedOriginalLoggerTerm.takes_lock LockedOriginalLoggerTerm.body
         [0; 0; 0; 0; 0; 1; 1; 1; 1; 1; 0; 0; 0; 0; 0; 1; 1; 1; 1; 1]%nat two_adders = Some s ∧
    ∃ order, OriginalLoggerTerm.Adds order.*2 (OriginalLoggerTerm.mk [] [65] 3) log_file = Ret (Threads.shared s) ∧ calls_of 1 order = [9; 1].
Proof.
  eexists. split; [vm_compute; reflexivity|].
  edestruct (locked_term_atomic (OriginalLoggerTerm.mk [] [65] 3) log_file [[7; 8]; [9; 1]]) as [_ Hd];
    [eapply (run_turns_rtc _ _ [0; 0; 0; 0; 0; 1; 1; 1; 1; 1; 0; 0; 0; 0; 0; 1; 1; 1; 1; 1]%nat); vm_compute; reflexivity|].
  destruct Hd as (order&H1&H2); [intros [|[|h]]; reflexivity|]. exists order. split; [exact H1|]. by apply (H2 1%nat).
Defined.
