(* ===== verification/Collection.v ===== *)
(** * The collection of counters in use
      (src/common/perf_counters_collection.h, .cc, perf_counters.h)

    [PerfCountersCollection] forwards to the operations of PerfCounters.v
    under a mutex. Constructors register their counters, destructors and
    [PerfCountersDeleter] remove and delete them, and everybody else updates
    them through pointers. This file follows the collection through all of
    that: its pointers never dangle. Also [PerfGuard] and [avg_tracker]. *)

From S2P Require Import Prelude State Machine Utime Histogram PerfCounters Clock Statistic Locked.

Module PerfCountersCollection.
Section ops.
Context (show_ptr : Z → string).

(** The members, and [PerfCountersDeleter::operator()] with a context *)
Inductive call := Add (l : Z) | Remove (l : Z) | Clear | Reset (name : string).
Definition perform (c : call) (s : collection) : outcome collection :=
  match c with
  | Add l => collection_add show_ptr s l
  | Remove l => collection_remove s l
  | Clear => Ret (collection_clear s)
  | Reset name => Ret (collection_reset s name).2
  end.
(** Each takes [m_lock] for all it does. *)
Definition takes_lock (c : call) : bool := match c with Add _ | Remove _ | Clear | Reset _ => true end.
Definition body (c : call) : list (collection → outcome collection) := [perform c].
Definition with_counters {A} (fn : gmap string (Z * nat) → A) (s : collection) : A := fn (by_path s).

(** [new PerfCounters] by a builder at address [l], and [add] *)
Definition create (l : Z) (p : PerfCounters.t) (s : collection) : outcome collection :=
  perform (Add l) (mkCollection (<[l := p]> (objects s)) (m_loggers s) (by_path s)).
Definition deleter (l : Z) (s : collection) : outcome collection :=
  s ← perform (Remove l) s; Ret (mkCollection (delete l (objects s)) (m_loggers s) (by_path s)).

(** An update through a pointer *)
Definition update (l : Z) (f : PerfCounters.t → outcome PerfCounters.t) (s : collection) : outcome collection :=
  p ← deref (objects s !! l); p ← f p; Ret (mkCollection (<[l := p]> (objects s)) (m_loggers s) (by_path s)).
End ops.
End PerfCountersCollection.

(** [PerfGuard]: the clock is read by the constructor and by the destructor. *)
Module PerfGuard.
Record t := mk { start : Z; event : Z }.
Definition create (now event : Z) : t := mk now event.
Definition destroy (now : Z) (g : t) (p : PerfCounters.t) : outcome PerfCounters.t :=
  PerfCounters.tinc_ns p (event g) (u64 (difference now (start g))).
End PerfGuard.

(** [avg_tracker<uint64_t>]: pairs of a count and a sum *)
Module avg_tracker.
Record t := mk { last : Z * Z; cur : Z * Z }.
Definition create : t := mk (0, 0) (0, 0).
Definition current_avg (a : t) : Z :=
  if (cur a).1 =? (last a).1 then 0 else u64 ((cur a).2 - (last a).2) / u64 ((cur a).1 - (last a).1).
Definition consume_next (next : Z * Z) (a : t) : t := mk (cur a) next.
End avg_tracker.

(** ** No dangling pointers *)

Section dangling.
Context (show_ptr : Z → string).
Implicit Types c s : collection.

(** What is registered exists under its name, and a path leads to a counter of that name. *)
Record coll_ok (s : collection) : Prop := {
  ok_logger : ∀ name l, m_loggers s !! name = Some l → ∃ p, objects s !! l = Some p ∧ name_of p = name ∧ all_named p;
  ok_path : ∀ path l i, by_path s !! path = Some (l, i) →
    ∃ p d, objects s !! l = Some p ∧ m_loggers s !! name_of p = Some l ∧
      PerfCounters.m_data p !! i = Some d ∧ path_of (name_of p) d = Ret path;
}.
Definition registered (l : Z) (s : collection) : Prop := ∃ name, m_loggers s !! name = Some l.

Lemma add_paths_lookup name l ds : ∀ i m m' path x, add_paths name l i ds m = Ret m' → m' !! path = Some x →
  (∃ j d, ds !! j = Some d ∧ path_of name d = Ret path ∧ x = (l, i + j)%nat) ∨ m !! path = Some x.
Proof.
  induction ds as [|d ds IH]; intros i m m' path x; simpl; [intros [= ->]; by right|].
  destruct (path_of name d) as [q|k] eqn:Eq; [|done]. simpl. intros Hadd Hx. destruct (IH _ _ _ _ _ Hadd Hx) as [(j&d'&Hj&Hp&->)|Hm].
  - left. exists (S j), d'. split_and!; [done..|]. f_equal. lia.
  - apply lookup_insert_Some in Hm as [[<- <-]|[_ Hm]]; [left|by right]. exists 0%nat, d. split_and!; [done..|]. f_equal. lia.
Qed.

Lemma remove_paths_lookup name ds : ∀ m m' path x, remove_paths name ds m = Ret m' → m' !! path = Some x →
  m !! path = Some x ∧ Forall (λ d, path_of name d ≠ Ret path) ds.
Proof.
  induction ds as [|d ds IH]; intros m m' path x; simpl; [intros [= ->]; auto|].
  destruct (path_of name d) as [q|k] eqn:Eq; [|done]. simpl. intros Hr Hx. destruct (IH _ _ _ _ Hr Hx) as [Hm Hall].
  apply lookup_delete_Some in Hm as [Hne Hm]. split; [done|]. constructor; [|done]. rewrite Eq. congruence.
Qed.

Lemma remove_paths_total name ds : Forall (λ d, is_Some (c_name d)) ds → ∀ m, ∃ m', remove_paths name ds m = Ret m'.
Proof.
  induction 1 as [|d ds [n Hn] _ IH]; intros m; simpl; [eauto|]. unfold path_of. rewrite Hn. simpl. apply IH.
Qed.

Lemma name_of_set name p : name_of (PerfCounters.set_name name p) = name.
Proof. done. Qed.

(** A new object is registered. *)
Lemma create_ok l p s : coll_ok s → objects s !! l = None → all_named p →
  ∃ s', PerfCountersCollection.create show_ptr l p s = Ret s' ∧ coll_ok s' ∧ registered l s' ∧ ∀ l', registered l' s → registered l' s'.
Proof.
  intros [Hlog Hpath] Hnone Hnamed. unfold PerfCountersCollection.create. cbn [PerfCountersCollection.perform]. unfold collection_add.
  cbn [objects m_loggers by_path]. rewrite lookup_insert_eq. cbn [deref mbind outcome_bind].
  destruct (unique_name_total show_ptr (m_loggers s) l (size (m_loggers s)) (name_of p)) as (name&->&Hfree); [apply longer_size|]. cbn [mbind outcome_bind].
  destruct (add_paths_total name l (PerfCounters.m_data p) 0 (by_path s) Hnamed) as [bp Hbp]. rewrite Hbp. cbn [mbind outcome_bind].
  eexists. split; [reflexivity|]. split_and!; [split; cbn [objects m_loggers by_path]| |].
  - intros n l' Hn. apply lookup_insert_Some in Hn as [[<- <-]|[Hne Hn]].
    + exists (PerfCounters.set_name name p). rewrite lookup_insert_eq. done.
    + destruct (Hlog _ _ Hn) as (p'&Hp'&E&Hnm). exists p'. rewrite !lookup_insert_ne by congruence. done.
  - intros path l' i Hl'. destruct (add_paths_lookup _ _ _ _ _ _ _ _ Hbp Hl') as [(j&d&Hj&Hp&[= -> ->])|Hold].
    + exists (PerfCounters.set_name name p), d. rewrite lookup_insert_eq, name_of_set, lookup_insert_eq. done.
    + destruct (Hpath _ _ _ Hold) as (p'&d&Hp'&Hm&Hd&Hq). exists p', d. rewrite !lookup_insert_ne by congruence. done.
  - exists name. cbn. by rewrite lookup_insert_eq.
  - intros l' [n Hn]. exists n. cbn. rewrite lookup_insert_ne by congruence. done.
Qed.

(** A registered object is removed and deleted. *)
Lemma deleter_ok l s : coll_ok s → registered l s →
  ∃ s', PerfCountersCollection.deleter show_ptr l s = Ret s' ∧ coll_ok s' ∧ objects s' !! l = None ∧ ¬ registered l s' ∧
    (∀ path i, by_path s' !! path ≠ Some (l, i)) ∧ ∀ l', l' ≠ l → registered l' s → registered l' s'.
Proof.
  intros [Hlog Hpath] [name Hname]. destruct (Hlog _ _ Hname) as (p&Hp&<-&Hnamed).
  unfold PerfCountersCollection.deleter. cbn [PerfCountersCollection.perform]. unfold collection_remove. rewrite Hp. cbn [deref mbind outcome_bind].
  destruct (remove_paths_total (name_of p) _ Hnamed (by_path s)) as [bp Hbp]. rewrite Hbp. cbn [mbind outcome_bind].
  rewrite bool_decide_eq_true_2 by (by rewrite Hname). cbn [kassert mbind outcome_bind objects m_loggers by_path].
  assert (∀ path i, bp !! path ≠ Some (l, i)) as Hgone.
  { intros path i Hl. destruct (remove_paths_lookup _ _ _ _ _ _ Hbp Hl) as [Hold Hall]. destruct (Hpath _ _ _ Hold) as (p'&d&Hp'&_&Hd&Hq).
    assert (p' = p) as -> by congruence. rewrite Forall_lookup in Hall. by apply (Hall _ _ Hd). }
  assert (∀ n, delete (name_of p) (m_loggers s) !! n ≠ Some l) as Hunreg.
  { intros n Hn. apply lookup_delete_Some in Hn as [Hne Hn]. destruct (Hlog _ _ Hn) as (p'&Hp'&E&_). congruence. }
  eexists. split; [reflexivity|]. split_and!; [split; cbn [objects m_loggers by_path]|cbn; by rewrite lookup_delete_eq|by intros [n Hn]; eapply Hunreg|done|].
  - intros n l' Hn. assert (l ≠ l') as Hne by (intros <-; by eapply Hunreg). apply lookup_delete_Some in Hn as [_ Hn].
    destruct (Hlog _ _ Hn) as (p'&Hp'&E&Hnm). exists p'. by rewrite lookup_delete_ne.
  - intros path l' i Hl'. assert (l ≠ l') as Hne by (intros <-; by eapply Hgone).
    destruct (remove_paths_lookup _ _ _ _ _ _ Hbp Hl') as [Hold _]. destruct (Hpath _ _ _ Hold) as (p'&d&Hp'&Hm&Hd&Hq).
    exists p', d. rewrite !lookup_delete_ne by congruence. done.
  - intros l' Hne [n Hn]. exists n. cbn. rewrite lookup_delete_ne; [done|]. intros E. rewrite <- E in Hn. congruence.
Qed.

(** Updates keep the names. *)
Definition same_names (p p' : PerfCounters.t) : Prop :=
  name_of p' = name_of p ∧ c_name <$> PerfCounters.m_data p' = c_name <$> PerfCounters.m_data p.

Lemma all_named_names p : all_named p ↔ Forall is_Some (c_name <$> PerfCounters.m_data p).
Proof. unfold all_named. by rewrite Forall_fmap. Qed.
Lemma same_names_named p p' : same_names p p' → all_named p → all_named p'.
Proof. intros [_ E]. rewrite !all_named_names. by rewrite E. Qed.

Lemma update_ok l p p' s : coll_ok s → objects s !! l = Some p → same_names p p' →
  coll_ok (mkCollection (<[l := p']> (objects s)) (m_loggers s) (by_path s)).
Proof.
  intros [Hlog Hpath] Hp Hsame. pose proof (same_names_named _ _ Hsame) as Hnamed. destruct Hsame as [Hn Hd].
  assert (∀ i d, PerfCounters.m_data p !! i = Some d → ∃ d', PerfCounters.m_data p' !! i = Some d' ∧ c_name d' = c_name d) as Hdata.
  { intros i d Hi. pose proof (list_lookup_fmap c_name (PerfCounters.m_data p') i) as H1. rewrite Hd, list_lookup_fmap, Hi in H1. simpl in H1.
    destruct (PerfCounters.m_data p' !! i) as [d'|]; [|done]. simpl in H1. injection H1 as H1. eauto. }
  split; cbn [objects m_loggers by_path].
  - intros name l' Hl'. destruct (Hlog _ _ Hl') as (q&Hq&E&Hnm). destruct (decide (l = l')) as [<-|Hne].
    + assert (q = p) as -> by congruence. exists p'. rewrite lookup_insert_eq, Hn. auto.
    + exists q. by rewrite lookup_insert_ne.
  - intros path l' i Hl'. destruct (Hpath _ _ _ Hl') as (q&d&Hq&Hm&Hi&Hpq). destruct (decide (l = l')) as [<-|Hne].
    + assert (q = p) as -> by congruence. destruct (Hdata _ _ Hi) as (d'&Hi'&Ed). exists p', d'. rewrite lookup_insert_eq, Hn.
      split_and!; [done..|]. unfold path_of in *. by rewrite Ed.
    + exists q, d. by rewrite lookup_insert_ne.
Qed.

Lemma put_names p idx d d' : PerfCounters.m_data p !! PerfCounters.slot p idx = Some d → c_name d' = c_name d → same_names p (PerfCounters.put p idx d').
Proof.
  intros Hd E. split; [done|]. cbn. rewrite list_fmap_insert, E. apply list_insert_id. by rewrite list_lookup_fmap, Hd.
Qed.

(** The updates of a counter through its object *)
Inductive counter_op := Inc (idx amt : Z) | Dec (idx amt : Z) | Set_ (idx amt : Z) | Tinc (idx ns : Z) | Tset (idx : Z) (t : utime.t) | Hinc (idx x y : Z).
Definition count_op (o : counter_op) (p : PerfCounters.t) : outcome PerfCounters.t :=
  match o with
  | Inc i a => PerfCounters.inc p i a | Dec i a => PerfCounters.dec p i a | Set_ i a => PerfCounters.set p i a
  | Tinc i n => PerfCounters.tinc_ns p i n | Tset i t => PerfCounters.tset p i t | Hinc i x y => PerfCounters.hinc p i x y
  end.

Lemma data_at_inv p idx d : PerfCounters.data_at p idx = Ret d → PerfCounters.m_data p !! PerfCounters.slot p idx = Some d.
Proof.
  unfold PerfCounters.data_at, kassert. repeat case_match; cbn; try done. unfold deref. destruct (_ !! _); [|done]. by intros [= ->].
Qed.

Lemma count_op_names o p p' : count_op o p = Ret p' → same_names p p'.
Proof.
  assert (same_names p p) as Hrefl by done.
  intros H. destruct o; cbn in H; unfold PerfCounters.inc, PerfCounters.dec, PerfCounters.set, PerfCounters.tinc_ns, PerfCounters.tset, PerfCounters.hinc in H;
    destruct (PerfCounters.data_at p idx) as [d|] eqn:Ed; try done; apply data_at_inv in Ed; cbn [mbind outcome_bind] in H; unfold kassert in H;
    repeat (case_match; cbn [mbind outcome_bind] in H; try done); inv_ret; try done; try (by eapply put_names).
Qed.

Lemma counter_reset_name d : c_name (counter_reset d) = c_name d.
Proof. unfold counter_reset. by repeat case_match. Qed.
Lemma reset_names p : same_names p (PerfCounters.reset p).
Proof. split; [done|]. cbn. rewrite <- list_fmap_compose. apply list_fmap_ext. intros i d _. apply counter_reset_name. Qed.

(** ** The collection in every run *)

(** Objects come and go with their registration, counters are updated and reset. *)
Inductive coll_step (s : collection) : collection → Prop :=
  | step_create l p s' : objects s !! l = None → all_named p → PerfCountersCollection.create show_ptr l p s = Ret s' → coll_step s s'
  | step_delete l s' : registered l s → PerfCountersCollection.deleter show_ptr l s = Ret s' → coll_step s s'
  | step_count l o s' : PerfCountersCollection.update l (count_op o) s = Ret s' → coll_step s s'
  | step_reset name s' : PerfCountersCollection.perform show_ptr (PerfCountersCollection.Reset name) s = Ret s' → coll_step s s'.

Lemma reset_ok name s : coll_ok s → coll_ok (collection_reset s name).2.
Proof.
  intros Hok. unfold collection_reset. destruct (decide (name = "all"%string)); cbn [snd].
  - set (f := λ (l : Z) (p : PerfCounters.t), if decide (l ∈ (map_to_list (m_loggers s)).*2) then PerfCounters.reset p else p).
    assert (∀ l, map_imap (λ l p, Some (f l p)) (objects s) !! l = f l <$> objects s !! l) as Hlook by (intros l; rewrite map_lookup_imap; by destruct (objects s !! l)).
    assert (∀ l p, name_of (f l p) = name_of p) as Hname by (intros; unfold f; by case_decide).
    destruct Hok as [Hlog Hpath]. split; cbn [objects m_loggers by_path].
    + intros n l Hl. destruct (Hlog _ _ Hl) as (p&Hp&E&Hnm). exists (f l p). change (map_imap _ _ !! l) with (map_imap (λ l p, Some (f l p)) (objects s) !! l).
      rewrite Hlook, Hp, Hname. split_and!; [done..|]. unfold f. case_decide; [|done].
      by apply (same_names_named p); [apply reset_names|].
    + intros path l i Hl. destruct (Hpath _ _ _ Hl) as (p&d&Hp&Hm&Hi&Hq).
      assert (∃ d', PerfCounters.m_data (f l p) !! i = Some d' ∧ c_name d' = c_name d) as (d'&Hi'&Ed).
      { unfold f. case_decide; [|eauto]. exists (counter_reset d). cbn. rewrite list_lookup_fmap, Hi. split; [done|apply counter_reset_name]. }
      exists (f l p), d'. change (map_imap _ _ !! l) with (map_imap (λ l p, Some (f l p)) (objects s) !! l).
      rewrite Hlook, Hp, Hname. split_and!; [done..|]. unfold path_of in *. by rewrite Ed.
  - destruct (m_loggers s !! name) as [l|] eqn:El; [|done]. cbn [snd].
    destruct (ok_logger _ Hok _ _ El) as (p&Hp&_). assert (alter PerfCounters.reset l (objects s) = <[l := PerfCounters.reset p]> (objects s)) as ->.
    { apply map_eq. intros k. destruct (decide (l = k)) as [<-|Hne]; [by rewrite lookup_alter_eq, lookup_insert_eq, Hp|by rewrite lookup_alter_ne, lookup_insert_ne]. }
    apply (update_ok l p _ s Hok Hp). apply reset_names.
Qed.

Lemma coll_step_ok s s' : coll_ok s → coll_step s s' → coll_ok s'.
Proof.
  intros Hok [l p s1 Hnone Hnm Hc|l s1 Hreg Hd|l o s1 Hu|name s1 Hr].
  - destruct (create_ok l p s Hok Hnone Hnm) as (s2&E&?&_). congruence.
  - destruct (deleter_ok l s Hok Hreg) as (s2&E&?&_). congruence.
  - unfold PerfCountersCollection.update in Hu. destruct (objects s !! l) as [p|] eqn:Hp; [|done]. cbn [deref mbind outcome_bind] in Hu.
    destruct (count_op o p) as [p'|] eqn:Ep; [|done]. cbn in Hu. inv_ret. apply (update_ok l p _ s Hok Hp). by eapply count_op_names.
  - cbn in Hr. inv_ret. by apply reset_ok.
Qed.

(** C37: In every run that starts with an empty collection, whatever is registered
    exists under its name and every path leads to a counter of a registered
    object; creating an object registers it, and deleting a registered one
    leaves no pointer to it. Neither ever aborts. *)
Theorem collection_never_dangles s :
  rtc coll_step (mkCollection ∅ ∅ ∅) s →
  coll_ok s ∧
  (∀ l p, objects s !! l = None → all_named p → ∃ s', PerfCountersCollection.create show_ptr l p s = Ret s' ∧ registered l s') ∧
  (∀ l, registered l s → ∃ s', PerfCountersCollection.deleter show_ptr l s = Ret s' ∧ ¬ registered l s' ∧ ∀ path i, by_path s' !! path ≠ Some (l, i)).
Proof.
  intros Hr. assert (coll_ok s) as Hok by (refine (rtc_invariant coll_step coll_ok _ _ coll_step_ok _ Hr); split; intros; simplify_map_eq).
  split_and!; [done| |].
  - intros l p Hn Hnm. destruct (create_ok l p s Hok Hn Hnm) as (s'&?&_&?&_). eauto.
  - intros l Hl. destruct (deleter_ok l s Hok Hl) as (s'&?&_&_&?&?&_). eauto.
Qed.

End dangling.

Lemma collection_never_dangles_witness :
  ∃ s, PerfCountersCollection.create (λ _, "0x1"%string) 1 demo_counters (mkCollection ∅ ∅ ∅) = Ret s ∧
    ∃ s', PerfCountersCollection.deleter (λ _, "0x1"%string) 1 s = Ret s' ∧ ¬ registered 1 s'.
Proof.
  assert (all_named demo_counters) as Hn by by repeat constructor.
  destruct (create_ok (λ _, "0x1"%string) 1 demo_counters (mkCollection ∅ ∅ ∅)) as (s&E&_&Hreg&_); [split; intros; simplify_map_eq|done|done|].
  exists s. split; [exact E|]. destruct (collection_never_dangles (λ _, "0x1"%string) s) as (_&_&Hd).
  - eapply rtc_l; [|done]. by eapply step_create.
  - destruct (Hd 1 Hreg) as (s'&?&?&_). eauto.
Defined.

(** The destructor of the collection deletes what is still registered; a
    second [deleter] of such an object is undefined. *)
Lemma deleter_after_clear show_ptr l s : coll_ok s → registered l s →
  PerfCountersCollection.deleter show_ptr l (collection_clear s) = Crash Undefined.
Proof.
  intros Hok [name Hn]. unfold PerfCountersCollection.deleter. cbn. unfold collection_remove.
  assert (objects (collection_clear s) !! l = None) as ->; [|done]. cbn. apply map_lookup_filter_None. right. intros p _ Hni. apply Hni.
  apply list_elem_of_fmap. exists (name, l). split; [done|]. by apply elem_of_map_to_list.
Qed.

(** Threads that use the collection at the same time do what their calls do one after the other. *)
Lemma collection_atomic show_ptr c programs s :
  rtc (Threads.step PerfCountersCollection.takes_lock (PerfCountersCollection.body show_ptr)) (Threads.init c programs) s →
  (∀ h, Threads.turn PerfCountersCollection.takes_lock (PerfCountersCollection.body show_ptr) h s = None) →
  Threads.run_calls (PerfCountersCollection.body show_ptr) (Threads.entered s).*2 c = Ret (Threads.shared s) ∧
  ∀ h, calls_of h (Threads.entered s) = default [] (programs !! h).
Proof.
  intros Hr Hst. refine (proj2 (locked_calls_atomic _ _ c programs _ s Hr) Hst). apply Forall_true. intros p. apply Forall_true. by intros [].
Qed.

(** ** Guards and averages *)

(** A guard adds the time it lived to its counter, as long as the clock was not set back. *)
Theorem guard_adds_lifetime p idx d now later :
  PerfCounters.data_at p idx = Ret d → has (c_type d) PERFCOUNTER_TIME = true → has (c_type d) PERFCOUNTER_LONGRUNAVG = true →
  0 ≤ now ≤ later → later < 9223372036854775808 →
  ∃ p', PerfGuard.destroy later (PerfGuard.create now idx) p = Ret p' ∧
    PerfCounters.data_at p' idx = Ret (set_values d (u64 (c_u64 d + (later - now))) (u64 (c_avgcount d + 1)) (u64 (c_avgcount2 d + 1))).
Proof.
  intros Hd Ht Ha H0 H1. unfold PerfGuard.destroy, PerfCounters.tinc_ns. cbn [PerfGuard.event PerfGuard.start PerfGuard.create].
  rewrite difference_exact, u64_small, Hd by (unfold is_u64; lia). cbn [mbind outcome_bind]. rewrite Ht, Ha. cbn [negb]. eexists. split; [done|].
  pose proof (data_at_inv _ _ _ Hd) as Hs. revert Hd. unfold PerfCounters.data_at, kassert. cbn. repeat case_match; cbn; try done. intros _.
  rewrite list_lookup_insert_eq; [done|]. by eapply lookup_lt_Some.
Qed.
Lemma guard_adds_lifetime_witness :
  ∃ p', PerfGuard.destroy 1500 (PerfGuard.create 1000 1)
      (PerfCounters.mk 0 2 "w" 0 [mkCounter (Some "t"%string) None None 0 5 UNIT_NONE 7 2 2 None]) = Ret p' ∧
    PerfCounters.data_at p' 1 = Ret (mkCounter (Some "t"%string) None None 0 5 UNIT_NONE 507 3 3 None).
Proof.
  apply (guard_adds_lifetime (PerfCounters.mk 0 2 "w" 0 [mkCounter (Some "t"%string) None None 0 5 UNIT_NONE 7 2 2 None]) 1
    (mkCounter (Some "t"%string) None None 0 5 UNIT_NONE 7 2 2 None)); done || lia.
Defined.

(** Two readings of a growing average give the mean of what came between them. *)
Lemma tracker_mean a n s : avg_tracker.cur a = (n, s) → 0 ≤ n → 0 ≤ s → ∀ k t, 0 < k → 0 ≤ t → n + k < 18446744073709551616 → s + t < 18446744073709551616 →
  avg_tracker.current_avg (avg_tracker.consume_next (n + k, s + t) a) = t / k.
Proof.
  intros Hc Hn Hs k t Hk Ht Hnk Hst. unfold avg_tracker.current_avg, avg_tracker.consume_next. cbn. rewrite Hc. cbn.
  rewrite (proj2 (Z.eqb_neq _ _)) by lia. rewrite !u64_small by (unfold is_u64; lia). f_equal; lia.
Qed.
