(* ===== verification/Handles.v ===== *)
(** * Socket handles (src/network/Stack.h, [ConnectedSocket] and [ServerSocket])

    Both classes hold a [std::unique_ptr] to an implementation, forward their
    members to it, and end it in [close] (or [abort_accept]) and in the
    destructor. They are values that are moved around: from the worker into
    the caller's variable, from the processor into the server and from there
    into a connection. The state here is the variables that hold a handle and
    the implementations that exist, with a record of the virtual calls; what a
    call does is in Socket.v, Polling.v and Posix.v. *)

From S2P Require Import Prelude.

(** The virtual members of [ConnectedSocketImpl] and of [ServerSocketImpl] *)
Inductive csi_method := csi_set_txc_callback | csi_is_connected | csi_read | csi_drain | csi_send | csi_send_chunks | csi_write | csi_shutdown | csi_fd | csi_close.
Inductive ssi_method := ssi_accept | ssi_fd | ssi_addr | ssi_abort_accept.
#[global] Instance csi_method_eq_dec : EqDecision csi_method.
Proof. solve_decision. Defined.
#[global] Instance ssi_method_eq_dec : EqDecision ssi_method.
Proof. solve_decision. Defined.

Module Handle.
Section handle.
(** The members of the implementation, and the one that ends it *)
Context {method : Type} (closing : method).

Inductive event := Call (impl : nat) (m : method) | Delete (impl : nat).
Record st := mk { handles : gmap nat (option nat); live : gset nat; next : nat; events : list event }.

Definition set_handle (h : nat) (o : option nat) (s : st) : st := mk (<[h := o]> (handles s)) (live s) (next s) (events s).
Definition emit (e : event) (s : st) : st := mk (handles s) (live s) (next s) (events s ++ [e]).
(** The pointee of a [unique_ptr] that lets it go *)
Definition delete_impl (o : option nat) (s : st) : st :=
  match o with Some i => emit (Delete i) (mk (handles s) (live s ∖ {[i]}) (next s) (events s)) | None => s end.

(** The constructors: empty, from a new implementation, and by moving *)
Definition create (h : nat) (s : st) : st := set_handle h None s.
Definition create_from (h : nat) (s : st) : st :=
  mk (<[h := Some (next s)]> (handles s)) ({[next s]} ∪ live s) (S (next s)) (events s).
Definition move_from (h h' : nat) (s : st) : outcome st :=
  o ← deref (handles s !! h'); Ret (set_handle h o (set_handle h' None s)).
(** [operator=(ConnectedSocket &&)]: the old pointee is deleted. *)
Definition move_assign (h h' : nat) (s : st) : outcome st :=
  old ← deref (handles s !! h);
  o ← deref (handles s !! h');
  if bool_decide (h = h') then Ret s else Ret (delete_impl old (set_handle h o (set_handle h' None s))).
(** A forwarded member *)
Definition forward (h : nat) (m : method) (s : st) : outcome st :=
  o ← deref (handles s !! h);
  match o with Some i => Ret (emit (Call i m) s) | None => Crash Undefined end.
(** [close()], [abort_accept()] *)
Definition close (h : nat) (s : st) : outcome st :=
  o ← deref (handles s !! h);
  match o with Some i => Ret (delete_impl (Some i) (set_handle h None (emit (Call i closing) s))) | None => Crash Undefined end.
(** The destructor *)
Definition destroy (h : nat) (s : st) : outcome st :=
  o ← deref (handles s !! h);
  let s := match o with Some i => delete_impl (Some i) (emit (Call i closing) s) | None => s end in
  Ret (mk (delete h (handles s)) (live s) (next s) (events s)).

Definition as_bool (h : nat) (s : st) : outcome bool := o ← deref (handles s !! h); Ret (bool_decide (is_Some o)).

Definition init : st := mk ∅ ∅ 0 [].
End handle.
Arguments st : clear implicits.
Arguments event : clear implicits.
End Handle.

(** The two classes: each member of [ConnectedSocket] and [ServerSocket] as a
    use of the pointer it holds *)
Module ConnectedSocket.
Definition st := Handle.st csi_method.
Definition dtor (h : nat) (s : st) : outcome st := Handle.destroy csi_close h s.
Definition set_callback (h : nat) (s : st) : outcome st := Handle.forward h csi_set_txc_callback s.
Definition is_connected (h : nat) (s : st) : outcome st := Handle.forward h csi_is_connected s.
Definition read (h : nat) (s : st) : outcome st := Handle.forward h csi_read s.
Definition drain (h : nat) (s : st) : outcome st := Handle.forward h csi_drain s.
Definition send (h : nat) (s : st) : outcome st := Handle.forward h csi_send s.
Definition send_chunks (h : nat) (s : st) : outcome st := Handle.forward h csi_send_chunks s.
Definition write (h : nat) (s : st) : outcome st := Handle.forward h csi_write s.
Definition shutdown (h : nat) (s : st) : outcome st := Handle.forward h csi_shutdown s.
Definition close (h : nat) (s : st) : outcome st := Handle.close csi_close h s.
Definition fd (h : nat) (s : st) : outcome st := Handle.forward h csi_fd s.
End ConnectedSocket.

Module ServerSocket.
Definition st := Handle.st ssi_method.
Definition dtor (h : nat) (s : st) : outcome st := Handle.destroy ssi_abort_accept h s.
Definition accept (h : nat) (s : st) : outcome st := Handle.forward h ssi_accept s.
Definition abort_accept (h : nat) (s : st) : outcome st := Handle.close ssi_abort_accept h s.
Definition fd (h : nat) (s : st) : outcome st := Handle.forward h ssi_fd s.
Definition get_addr (h : nat) (s : st) : outcome st := Handle.forward h ssi_addr s.
End ServerSocket.

Section handles.
Import Handle.
Context {method : Type} (closing : method).
Implicit Types s : st method.

Definition impl_of (e : event method) : nat := match e with Call i _ | Delete i => i end.
Definition about (i : nat) (l : list (event method)) : list (event method) := filter (λ e, impl_of e = i) l.

(** What a program does with its handles: a variable is declared once and
    destroyed once, is assigned to only while it is empty, and is not closed
    through [forward]. *)
Inductive hstep s : st method → Prop :=
  | h_create h : handles s !! h = None → hstep s (create h s)
  | h_create_from h : handles s !! h = None → hstep s (create_from h s)
  | h_move_from h h' s' : handles s !! h = None → move_from h h' s = Ret s' → hstep s s'
  | h_move_assign h h' s' : handles s !! h = Some None → move_assign h h' s = Ret s' → hstep s s'
  | h_forward h m s' : m ≠ closing → forward h m s = Ret s' → hstep s s'
  | h_close h s' : close closing h s = Ret s' → hstep s s'
  | h_destroy h s' : destroy closing h s = Ret s' → hstep s s'.

Definition used (i : nat) (l : list (event method)) : Prop := Forall (λ e, ∃ m, m ≠ closing ∧ e = Call i m) l.

Record owned s : Prop := {
  own_live : ∀ h i, handles s !! h = Some (Some i) → i ∈ live s;
  own_one : ∀ h h' i, handles s !! h = Some (Some i) → handles s !! h' = Some (Some i) → h = h';
  own_some : ∀ i, i ∈ live s → ∃ h, handles s !! h = Some (Some i);
  own_next : ∀ i, i ∈ live s → (i < next s)%nat;
  own_events : ∀ i,
    if decide (i ∈ live s) then used i (about i (events s))
    else if decide (i < next s)%nat then ∃ l, used i l ∧ about i (events s) = l ++ [Call i closing; Delete i]
    else about i (events s) = [];
}.

Lemma about_app i l l' : about i (l ++ l') = about i l ++ about i l'.
Proof. apply filter_app. Qed.
Lemma about_cons_same i e l : impl_of e = i → about i (e :: l) = e :: about i l.
Proof. intros H. unfold about. by rewrite filter_cons_True. Qed.
Lemma about_cons_other i e l : impl_of e ≠ i → about i (e :: l) = about i l.
Proof. intros H. unfold about. by rewrite filter_cons_False. Qed.

(** Only the variables change. *)
Lemma owned_handles s hs : owned s →
  (∀ i, (∃ h, hs !! h = Some (Some i)) ↔ ∃ h, handles s !! h = Some (Some i)) →
  (∀ h h' i, hs !! h = Some (Some i) → hs !! h' = Some (Some i) → h = h') →
  owned (mk hs (live s) (next s) (events s)).
Proof.
  intros [H1 H2 H3 H4 H5] Hiff Hone. split; cbn [handles live next events]; try done.
  - intros h i Hh. destruct (proj1 (Hiff i)) as [h' Hh']; eauto.
  - intros i Hi. apply Hiff. eauto.
Qed.

(** The owner of an implementation calls it for the last time and lets it go. *)
Lemma owned_end s h i hs : owned s → handles s !! h = Some (Some i) →
  (∀ k j, hs !! k = Some (Some j) ↔ handles s !! k = Some (Some j) ∧ k ≠ h) →
  owned (mk hs (live s ∖ {[i]}) (next s) ((events s ++ [Call i closing]) ++ [Delete i])).
Proof.
  intros [H1 H2 H3 H4 H5] Hh Hhs. split; cbn [handles live next events].
  - intros k j Hk. apply Hhs in Hk as [Hk Hne]. apply elem_of_difference. split; [eauto|]. apply not_elem_of_singleton. intros ->. apply Hne. eauto.
  - intros k k' j Hk Hk'. apply Hhs in Hk as [Hk _]. apply Hhs in Hk' as [Hk' _]. eauto.
  - intros j Hj. apply elem_of_difference in Hj as [Hj Hne]. apply not_elem_of_singleton in Hne. destruct (H3 j Hj) as [k Hk]. exists k. apply Hhs. split; [done|].
    intros ->. congruence.
  - intros j Hj. apply elem_of_difference in Hj as [Hj _]. eauto.
  - intros j. specialize (H5 j). rewrite !about_app. destruct (decide (j = i)) as [->|Hne].
    + destruct (decide (i ∈ live s ∖ {[i]})) as [Hin|_]; [set_solver|]. rewrite decide_True in H5 by eauto. rewrite decide_True by eauto.
      exists (about i (events s)). split; [done|]. rewrite !about_cons_same by done. cbn. by rewrite <- app_assoc.
    + rewrite !about_cons_other by (cbn; congruence). cbn. rewrite !app_nil_r.
      destruct (decide (j ∈ live s)) as [Hj|Hj]; [rewrite decide_True by set_solver; done|rewrite decide_False by set_solver; done].
Qed.

Lemma owned_move s h h' o : owned s → handles s !! h' = Some o → (∀ i, handles s !! h ≠ Some (Some i)) → h ≠ h' →
  owned (mk (<[h := o]> (<[h' := None]> (handles s))) (live s) (next s) (events s)).
Proof.
  intros Ho Hh' Hh Hne.
  assert (∀ k i, <[h := o]> (<[h' := None]> (handles s)) !! k = Some (Some i) →
    (k = h ∧ o = Some i) ∨ (k ≠ h ∧ k ≠ h' ∧ handles s !! k = Some (Some i))) as Hinv.
  { intros k i Hk. apply lookup_insert_Some in Hk as [[<- ->]|[Hk1 Hk]]; [by left|right].
    apply lookup_insert_Some in Hk as [[_ ?]|[Hk2 Hk]]; [done|]. auto. }
  apply owned_handles; [done| |].
  - intros i. split; intros [k Hk].
    + destruct (Hinv _ _ Hk) as [[-> ->]|(_&_&Hk')]; eauto.
    + destruct (decide (k = h')) as [->|Hk'].
      * exists h. assert (o = Some i) as -> by congruence. by rewrite lookup_insert_eq.
      * exists k. rewrite !lookup_insert_ne; [done|congruence|]. intros <-. by eapply Hh.
  - intros k k' i Hk Hk'. destruct (Hinv _ _ Hk) as [[-> ->]|(Hk1&Hk2&Hk3)], (Hinv _ _ Hk') as [[-> E]|(Hk1'&Hk2'&Hk3')]; try done.
    + exfalso. apply Hk2'. by eapply (own_one _ Ho).
    + exfalso. subst o. apply Hk2. by eapply (own_one _ Ho).
    + by eapply (own_one _ Ho).
Qed.

Lemma owned_new s h : owned s → handles s !! h = None → owned (create_from h s).
Proof.
  intros [H1 H2 H3 H4 H5] Hn. unfold create_from. split; cbn [handles live next events].
  - intros k i Hk. apply lookup_insert_Some in Hk as [[_ [= <-]]|[_ Hk]]; [set_solver|]. apply elem_of_union_r. eauto.
  - assert (∀ k, handles s !! k ≠ Some (Some (next s))) as Hfresh by (intros k Hk; apply H1, H4 in Hk; lia).
    intros k k' i Hk Hk'. apply lookup_insert_Some in Hk as [[<- [= <-]]|[_ Hk]], Hk' as [[<- E]|[_ Hk']]; try done; [by apply Hfresh in Hk'| |eauto].
    injection E as <-. by apply Hfresh in Hk.
  - intros i Hi. apply elem_of_union in Hi as [Hi%elem_of_singleton|Hi]; [subst; exists h; by rewrite lookup_insert_eq|].
    destruct (H3 i Hi) as [k Hk]. exists k. rewrite lookup_insert_ne; [done|]. congruence.
  - intros i Hi. apply elem_of_union in Hi as [Hi%elem_of_singleton|Hi]; [lia|]. apply H4 in Hi. lia.
  - intros i. specialize (H5 i). destruct (decide (i = next s)) as [->|Hne].
    + rewrite decide_True by set_solver. rewrite decide_False in H5 by (intros Hi; apply H4 in Hi; lia). rewrite decide_False in H5 by lia. rewrite H5. constructor.
    + destruct (decide (i ∈ live s)) as [Hi|Hi]; [rewrite decide_True by set_solver; done|]. rewrite decide_False by set_solver.
      destruct (decide (i < next s)%nat); [rewrite decide_True by lia; done|rewrite decide_False by lia; done].
Qed.

Lemma owned_use s i m : owned s → i ∈ live s → m ≠ closing → owned (emit (Call i m) s).
Proof.
  intros [H1 H2 H3 H4 H5] Hi Hm. split; cbn [emit handles live next events]; try done. intros j. specialize (H5 j). rewrite about_app.
  destruct (decide (j = i)) as [->|Hne].
  - rewrite decide_True in * by done. rewrite about_cons_same by done. apply Forall_app. split; [done|]. repeat constructor. eauto.
  - rewrite about_cons_other by (cbn; congruence). cbn. by rewrite app_nil_r.
Qed.

Lemma owned_step s s' : owned s → hstep s s' → owned s'.
Proof.
  intros Ho Hs. destruct Hs as [h Hn|h Hn|h h' s' Hn Hm|h h' s' Hn Hm|h m s' Hm Hf|h s' Hc|h s' Hd].
  - assert (∀ k i, <[h := None]> (handles s) !! k = Some (Some i) ↔ handles s !! k = Some (Some i)) as Hiff.
    { intros k i. rewrite lookup_insert_Some. split; [naive_solver|]. intros Hk. right. split; [congruence|done]. }
    apply owned_handles; [done|by setoid_rewrite Hiff|]. intros k k' i Hk%Hiff Hk'%Hiff. by eapply (own_one _ Ho).
  - by apply owned_new.
  - unfold move_from in Hm. destruct (handles s !! h') as [o|] eqn:E; [|done]. cbn in Hm. injection Hm as <-.
    exact (owned_move s h h' o Ho E ltac:(congruence) ltac:(congruence)).
  - unfold move_assign in Hm. rewrite Hn in Hm. cbn in Hm. destruct (handles s !! h') as [o|] eqn:E; [|done]. cbn in Hm.
    case_bool_decide as Heq; injection Hm as <-; [done|]. exact (owned_move s h h' o Ho E ltac:(congruence) Heq).
  - unfold forward in Hf. destruct (handles s !! h) as [[i|]|] eqn:E; try done. cbn in Hf. injection Hf as <-.
    apply owned_use; [done| |done]. by eapply own_live.
  - unfold close in Hc. destruct (handles s !! h) as [[i|]|] eqn:E; try done. cbn in Hc. injection Hc as <-.
    apply (owned_end s h i (<[h := None]> (handles s)) Ho E). intros k j. rewrite lookup_insert_Some. naive_solver.
  - unfold destroy in Hd. destruct (handles s !! h) as [[i|]|] eqn:E; [| |done]; cbn in Hd; injection Hd as <-.
    + apply (owned_end s h i (delete h (handles s)) Ho E). intros k j. rewrite lookup_delete_Some. naive_solver.
    + assert (∀ k i, delete h (handles s) !! k = Some (Some i) ↔ handles s !! k = Some (Some i)) as Hiff.
      { intros k i. rewrite lookup_delete_Some. split; [naive_solver|]. intros Hk. split; [congruence|done]. }
      apply owned_handles; [done|by setoid_rewrite Hiff|]. intros k k' i Hk%Hiff Hk'%Hiff. by eapply (own_one _ Ho).
Qed.

(** C23: However the handles are moved, as long as a handle is assigned to only
    while it is empty, every implementation that exists has exactly one handle, so none is lost; it is used only while it exists; and
    each is closed once, as its last call, and then deleted once. When all
    variables are gone, so are the implementations. *)
Theorem handles_own s :
  rtc hstep init s →
  (∀ i, i ∈ live s → ∃ h, handles s !! h = Some (Some i) ∧ ∀ h', handles s !! h' = Some (Some i) → h' = h) ∧
  (∀ i, (i < next s)%nat → i ∉ live s → ∃ l, used i l ∧ about i (events s) = l ++ [Call i closing; Delete i]) ∧
  (handles s = ∅ → live s ≡ ∅).
Proof.
  intros Hr. assert (owned s) as Ho.
  { refine (rtc_invariant hstep owned _ _ owned_step _ Hr). split; cbn; try done; intros; set_solver. }
  split_and!.
  - intros i Hi. destruct (own_some _ Ho i Hi) as [h Hh]. exists h. split; [done|]. intros h' Hh'. by eapply (own_one _ Ho).
  - intros i Hlt Hni. pose proof (own_events _ Ho i) as He. rewrite decide_False in He by done. by rewrite decide_True in He.
  - intros He i. split; [|set_solver]. intros Hi. destruct (own_some _ Ho i Hi) as [h Hh]. rewrite He in Hh. done.
Qed.

(** Assigning over a handle that is not empty deletes its implementation without closing it. *)
Lemma assign_skips_close s h h' i : handles s !! h = Some (Some i) → h ≠ h' → is_Some (handles s !! h') →
  ∃ s', move_assign h h' s = Ret s' ∧ events s' = events s ++ [Delete i].
Proof.
  intros Hh Hne [o Ho]. unfold move_assign. rewrite Hh, Ho. cbn. rewrite bool_decide_eq_false_2 by done. by eexists.
Qed.

End handles.

(** A socket that is accepted into one variable, moved into a connection, used and destroyed with it *)
Lemma handles_own_witness :
  ∃ l, used csi_close 0 l ∧
    about 0 (Handle.events (Handle.mk (method := csi_method) ∅ ∅ 1 [Handle.Call 0 csi_read; Handle.Call 0 csi_close; Handle.Delete 0])) =
      l ++ [Handle.Call 0 csi_close; Handle.Delete 0].
Proof.
  refine (proj1 (proj2 (handles_own csi_close (Handle.mk ∅ ∅ 1 [Handle.Call 0 csi_read; Handle.Call 0 csi_close; Handle.Delete 0]) _)) 0%nat _ _);
    [|cbn; lia|set_solver].
  eapply rtc_l; [by apply (h_create_from csi_close Handle.init 1)|].
  eapply rtc_l; [by eapply (h_move_from csi_close _ 2 1)|].
  eapply rtc_l; [by eapply (h_destroy csi_close _ 1)|].
  eapply rtc_l; [by eapply (h_forward csi_close _ 2 csi_read)|].
  eapply rtc_l; [by eapply (h_destroy csi_close _ 2)|]. 
  match goal with |- rtc _ ?s ?t => replace s with t; [done|] end. vm_compute. done.
Defined.
