(* ===== verification/Startup.v ===== *)
(** * The RDMA stack as a whole: construction and destruction
      (src/core/RDMAStack.h and .cc, src/core/Infiniband.cc, src/network/Stack.h and Stack.cc)

    [NetworkStack::create] makes an [RDMAStack], whose constructor makes the
    [Infiniband] object and the dispatcher, and then its workers, each with the
    event centre that Event.v models. The
    dispatcher and the [Infiniband] object are shared: the stack and every
    worker hold a reference, and the last one that goes destroys them. Every
    constructor registers performance counters. This file joins the state of
    the RDMA core (Machine.v), the collection of counters (Collection.v) and
    the calibration of the clock (Cycles.v), and shows that construction
    leaves what the theorems on the dispatcher, the sockets and the memory
    start from, and what destruction leaves behind. Sockets are taken to be
    gone when the stack is destroyed. *)

From stdpp Require Import pretty.
From S2P Require Import Prelude Double Cycles State Event PerfCounters Machine Memory Infiniband Dispatcher Socket Collection.

(** Exporting a variable and preparing for fork succeed. *)
Class PrereqOk (W : Type) `{World W} : Prop := {
  setenv_ok : ∀ w : W, (sys_call c_setenv_hugepages w).1.1 = 0;
  fork_init_ok : ∀ w : W, (sys_call ibv_fork_init w).1.1 = 0;
}.

(** The descriptors a centre asks for are there. *)
Class CenterOk (K : Type) `{Kernel K} : Prop := {
  epoll_create_ok : ∀ w : K, (k_call e_epoll_create w).1.1.1 ≠ -1;
  cloexec_ok : ∀ fd (w : K), 0 ≤ (k_call (e_fcntl_cloexec fd) w).1.1.1;
  pipe_ok : ∀ w : K, (k_call e_pipe w).1.1.1 ≠ -1 ∧ (k_call e_pipe w).1.2 ≠ [];
  nonblock_ok : ∀ fd (w : K), (k_call (e_set_nonblock fd) w).1.1.1 = 0;
}.

(** A centre as [init] leaves it: a table of [n] free entries, a pipe, no
    timer, no poller and nothing dispatched *)
Record center_ready {K} (n id : Z) (c : center K) : Prop := {
  cr_nevent : nevent c = n;
  cr_table : file_events c = replicate (Z.to_nat n) file_event0;
  cr_id : center_id c = id;
  cr_epfd : epfd c ≠ -1 ∧ d_nevent c = n;
  cr_idle : time_events c = [] ∧ pollers c = [] ∧ external_events c = [] ∧ external_num_events c = 0;
}.

Section centers.
Context {K : Type} `{!Kernel K, !CenterOk K}.
Implicit Types s : center K.

Lemma kcall_run c s : ∃ r w, k_call c (kernel s) = (r, w) ∧ kcall c s = Ret (r, set_kernel w s).
Proof using Type. unfold kcall. destruct (k_call c (kernel s)) as [r w]. eauto. Qed.

Lemma driver_init_run n s : ∃ ep w, ep ≠ -1 ∧ EpollDriver.init n s = Ret (0, set_d_nevent n (set_kernel w (set_epfd ep s))).
Proof using All.
  unfold EpollDriver.init. destruct (kcall_run e_epoll_create s) as ([[ep e1] o1]&w1&E1&R1). rewrite (bind_run _ _ _ _ _ R1).
  pose proof (epoll_create_ok (kernel s)) as H1. rewrite E1 in H1. cbn in H1. rewrite (bind_run (modify _) _ _ tt _ eq_refl), (proj2 (Z.eqb_neq _ _) H1).
  destruct (kcall_run (e_fcntl_cloexec ep) (set_epfd ep (set_kernel w1 s))) as ([[r2 e2] o2]&w2&E2&R2). rewrite (bind_run _ _ _ _ _ R2).
  pose proof (cloexec_ok ep (kernel (set_epfd ep (set_kernel w1 s)))) as H2. rewrite E2 in H2. cbn in H2.
  destruct (Z.eqb_spec r2 (-1)); [lia|]. exists ep, w2. split; [done|]. by destruct s.
Qed.

Lemma pipe_cloexec_run s : ∃ fds w, EventCenter.pipe_cloexec s = Ret (0, 0, fds, set_kernel w s).
Proof using All.
  unfold EventCenter.pipe_cloexec. destruct (kcall_run e_pipe s) as ([[r1 e1] o1]&w1&E1&R1). rewrite (bind_run _ _ _ _ _ R1).
  pose proof (pipe_ok (kernel s)) as [H1 H1']. rewrite E1 in H1, H1'. cbn in H1, H1'. rewrite (proj2 (Z.eqb_neq _ _) H1).
  destruct o1 as [|fds o1]; [done|]. rewrite (bind_run (the (head (fds :: o1))) _ _ fds _ eq_refl). cbv zeta.
  destruct (kcall_run (e_fcntl_cloexec fds.1) (set_kernel w1 s)) as ([[r2 e2] o2]&w2&E2&R2). rewrite (bind_run _ _ _ _ _ R2).
  pose proof (cloexec_ok fds.1 (kernel (set_kernel w1 s))) as H2. rewrite E2 in H2. cbn in H2. destruct (Z.ltb_spec r2 0); [lia|].
  destruct (kcall_run (e_fcntl_cloexec fds.2) (set_kernel w2 (set_kernel w1 s))) as ([[r3 e3] o3]&w3&E3&R3). rewrite (bind_run _ _ _ _ _ R3).
  pose proof (cloexec_ok fds.2 (kernel (set_kernel w2 (set_kernel w1 s)))) as H3. rewrite E3 in H3. cbn in H3. destruct (Z.ltb_spec r3 0); [lia|].
  exists fds, w3. by destruct s.
Qed.

Lemma nonblock_run fd s : ∃ e o w, kcall (e_set_nonblock fd) s = Ret (0, e, o, set_kernel w s).
Proof using All.
  destruct (kcall_run (e_set_nonblock fd) s) as ([[r e] o]&w&E&R). pose proof (nonblock_ok fd (kernel s)) as H. rewrite E in H. cbn in H. subst r. eauto.
Qed.

Lemma center_init_ready n id (w : K) : ∃ c, EventCenter.init n id (EventCenter.create w) = Ret (0, c) ∧ center_ready n id c.
Proof using All.
  unfold EventCenter.init. set (s := EventCenter.create w). rewrite (bind_run (gets nevent) _ s 0 s eq_refl), (bind_run (assert (0 =? 0)) _ s tt s eq_refl).
  rewrite (bind_run (modify _) _ _ tt _ eq_refl). destruct (driver_init_run n (set_center_id id s)) as (ep&w1&Hep&R1).
  rewrite (bind_run _ _ _ _ _ R1). change (0 <? 0) with false. cbv iota. rewrite (bind_run (modify _) _ _ tt _ eq_refl).
  match goal with |- ∃ c, (EventCenter.pipe_cloexec ≫= _) ?x = _ ∧ _ => destruct (pipe_cloexec_run x) as (fds&w2&R2) end.
  rewrite (bind_run _ _ _ _ _ R2). change (0 <? 0) with false. cbv iota. rewrite (bind_run (modify _) _ _ tt _ eq_refl).
  match goal with |- ∃ c, (kcall (e_set_nonblock ?fd) ≫= _) ?x = _ ∧ _ => destruct (nonblock_run fd x) as (e3&o3&w3&R3) end.
  rewrite (bind_run _ _ _ _ _ R3). change (0 <? 0) with false. cbv iota.
  match goal with |- ∃ c, (kcall (e_set_nonblock ?fd) ≫= _) ?x = _ ∧ _ => destruct (nonblock_run fd x) as (e4&o4&w4&R4) end.
  rewrite (bind_run _ _ _ _ _ R4). eexists. split; [reflexivity|]. clear -Hep. split; cbn; try done. by rewrite take_nil, Nat.sub_0_r.
Qed.
End centers.

Section startup.
Context {W P K : Type} `{!World W, !BoostPool P, !Kernel K} (cfg : config) (show_ptr : Z → string).

(** A worker as the stack keeps it: its address, [Worker::perf_logger], and
    the [RDMAWorker::perf_logger] that hides it *)
Record stack_worker := mkSW { sw_addr : Z; sw_logger : Z; sw_rdma_logger : Z }.

Record process := mkProcess {
  pr_mach : mach W P;
  pr_coll : collection;
  init_prereq : bool;  (* the static of Infiniband.cc *)
  cycles_per_sec : Double.double;
  disp_refs : nat;  (* of shared_ptr<RDMADispatcher> *)
  ib_refs : nat;  (* of shared_ptr<Infiniband> *)
  pr_workers : list stack_worker;  (* NetworkStack::workers *)
  pr_kernel : K;  (* what the event centres call *)
  pr_centers : gmap Z (center K);  (* Worker::center, by the address of the worker *)
}.

Definition set_pr_mach v p := mkProcess v (pr_coll p) (init_prereq p) (cycles_per_sec p) (disp_refs p) (ib_refs p) (pr_workers p) (pr_kernel p) (pr_centers p).
Definition set_pr_coll v p := mkProcess (pr_mach p) v (init_prereq p) (cycles_per_sec p) (disp_refs p) (ib_refs p) (pr_workers p) (pr_kernel p) (pr_centers p).
Definition set_init_prereq v p := mkProcess (pr_mach p) (pr_coll p) v (cycles_per_sec p) (disp_refs p) (ib_refs p) (pr_workers p) (pr_kernel p) (pr_centers p).
Definition set_cycles_per_sec v p := mkProcess (pr_mach p) (pr_coll p) (init_prereq p) v (disp_refs p) (ib_refs p) (pr_workers p) (pr_kernel p) (pr_centers p).
Definition set_disp_refs v p := mkProcess (pr_mach p) (pr_coll p) (init_prereq p) (cycles_per_sec p) v (ib_refs p) (pr_workers p) (pr_kernel p) (pr_centers p).
Definition set_ib_refs v p := mkProcess (pr_mach p) (pr_coll p) (init_prereq p) (cycles_per_sec p) (disp_refs p) v (pr_workers p) (pr_kernel p) (pr_centers p).
Definition set_pr_workers v p := mkProcess (pr_mach p) (pr_coll p) (init_prereq p) (cycles_per_sec p) (disp_refs p) (ib_refs p) v (pr_kernel p) (pr_centers p).
Definition set_pr_kernel v p := mkProcess (pr_mach p) (pr_coll p) (init_prereq p) (cycles_per_sec p) (disp_refs p) (ib_refs p) (pr_workers p) v (pr_centers p).
Definition set_pr_centers v p := mkProcess (pr_mach p) (pr_coll p) (init_prereq p) (cycles_per_sec p) (disp_refs p) (ib_refs p) (pr_workers p) (pr_kernel p) v.

Abbreviation PR := (ST process).

(** An operation of the RDMA core, and one of the collection *)
Definition on_mach {A} (x : M W P A) : PR A := λ p,
  match x (pr_mach p) with Ret (a, m) => Ret (a, set_pr_mach m p) | Crash c => Crash c end.
Definition on_coll (f : collection → outcome collection) : PR unit := λ p,
  match f (pr_coll p) with Ret c => Ret (tt, set_pr_coll c p) | Crash c => Crash c end.

(** [create_perf_counters] and [add]: the object as it is registered *)
Definition new_logger (l : Z) (built : outcome PerfCounters.t) : PR PerfCounters.t :=
  q ← lift built;
  on_coll (PerfCountersCollection.create show_ptr l q) ;;
  c ← gets pr_coll;
  the (objects c !! l).

(** [Infiniband::Infiniband], in [make_shared] *)
Definition Infiniband_create : PR unit :=
  b ← gets init_prereq;
  (if b : bool then mret tt else on_mach (verify_prereq cfg) ;; modify (set_init_prereq true)) ;;
  on_mach (modify (set_ib ib0)) ;;
  modify (set_ib_refs 1).

(** [RDMADispatcher::RDMADispatcher], in [make_shared]; its logger is at [l], and
    [counter] and [readings] are what [Cycles::init] reads. *)
Definition RDMADispatcher_create (l counter : Z) (readings : list Cycles.reading) : PR unit :=
  modify (λ p, set_ib_refs (S (ib_refs p)) p) ;;
  on_mach (modify (set_disp disp0)) ;;
  q ← new_logger l RDMADispatcher_logger;
  on_mach (modify (set_perf q)) ;;
  d ← gets cycles_per_sec;
  d ← lift (Cycles.init d counter readings);
  modify (set_cycles_per_sec d) ;;
  modify (set_disp_refs 1).

Definition RDMAStack_create (l counter : Z) (readings : list Cycles.reading) : PR unit :=
  Infiniband_create ;; RDMADispatcher_create l counter readings.

(** [Worker::Worker] and [RDMAWorker::RDMAWorker] *)
Definition Worker_create (id : nat) (l : Z) : PR unit :=
  new_logger l (Worker_logger ("AsyncMessenger::Worker-" +:+ pretty (N.of_nat id))) ;; mret tt.
Definition RDMAWorker_create (id : nat) (k : stack_worker) : PR unit :=
  Worker_create id (sw_logger k) ;;
  q ← new_logger (sw_rdma_logger k) (RDMAWorker_logger ("AsyncMessenger::RDMAWorker-" +:+ pretty (N.of_nat id)));
  on_mach (modify (λ m, set_workers (<[sw_addr k := mkWorker [] q]> (workers m)) m)).

(** [RDMAStack::create_worker] with [set_dispatcher] and [set_ib] *)
Definition set_dispatcher : PR unit := modify (λ p, set_disp_refs (S (disp_refs p)) p).
Definition worker_set_ib : PR unit := modify (λ p, set_ib_refs (S (ib_refs p)) p).
Definition create_worker (id : nat) (k : stack_worker) : PR unit :=
  RDMAWorker_create id k ;; set_dispatcher ;; worker_set_ib.

(** A reference to the [Infiniband] object goes, or one to the dispatcher,
    which holds one to the former. *)
Definition drop_ib : PR unit :=
  n ← gets ib_refs;
  modify (set_ib_refs (n - 1)) ;;
  if (n =? 1)%nat then on_mach (Infiniband_delete cfg) else mret tt.
Definition drop_dispatcher : PR unit :=
  n ← gets disp_refs;
  modify (set_disp_refs (n - 1)) ;;
  if (n =? 1)%nat then on_mach Dispatcher.dispatcher_delete ;; drop_ib else mret tt.

(** [Worker::~Worker]; [RDMAWorker::~RDMAWorker] with its members in the
    reverse order of their declaration *)
Definition Worker_delete (k : stack_worker) : PR unit := on_coll (PerfCountersCollection.deleter show_ptr (sw_logger k)).
Definition RDMAWorker_delete (k : stack_worker) : PR unit :=
  drop_dispatcher ;;
  drop_ib ;;
  Worker_delete k ;;
  modify (λ p, set_pr_centers (delete (sw_addr k) (pr_centers p)) p) ;;
  on_mach (modify (λ m, set_workers (delete (sw_addr k) (workers m)) m)).

(** [NetworkStack::~NetworkStack]; [RDMAStack::~RDMAStack] and its members before it *)
Definition NetworkStack_delete : PR unit :=
  ws ← gets pr_workers;
  for_each ws RDMAWorker_delete ;;
  modify (set_pr_workers []).
Definition RDMAStack_delete : PR unit :=
  (if m_rdma_enable_hugepage_ cfg then on_mach (sysret c_unsetenv_hugepages) ;; mret tt else mret tt) ;;
  drop_dispatcher ;;
  drop_ib ;;
  NetworkStack_delete.

(** [w->center.init(InitEventNumber, worker_id, t)] *)
Definition InitEventNumber : Z := 5000.
Definition center_init (id : nat) (k : stack_worker) : PR Z := λ p,
  match EventCenter.init InitEventNumber (Z.of_nat id) (EventCenter.create (pr_kernel p)) with
  | Ret (r, c) => Ret (r, set_pr_centers (<[sw_addr k := c]> (pr_centers p)) (set_pr_kernel (kernel c) p))
  | Crash x => Crash x
  end.

(** The loop of [NetworkStack::create]; [alloc] is where the workers are made,
    and an error of a centre is thrown. *)
Fixpoint create_loop (alloc : nat → stack_worker) (id n : nat) : PR (option Z) :=
  match n with
  | O => mret None
  | S n =>
    create_worker id (alloc id) ;;
    ret ← center_init id (alloc id);
    if negb (ret =? 0) then mret (Some (- ret)) else
    modify (λ p, set_pr_workers (pr_workers p ++ [alloc id]) p) ;;
    create_loop alloc (S id) n
  end.

Definition MAX_EVENTCENTER : Z := 96.
(** [NetworkStack::create] for "rdma": what it throws, and the stack is
    destroyed on the way. [op_threads] is [m_op_threads_num_]. *)
Definition create_stack (op_threads : Z) (alloc : nat → stack_worker) (l counter : Z) (readings : list Cycles.reading) : PR (option Z) :=
  RDMAStack_create l counter readings ;;
  assert (op_threads >? 0) ;;
  let num_workers := if op_threads >=? MAX_EVENTCENTER then MAX_EVENTCENTER else op_threads in
  r ← create_loop alloc 0 (Z.to_nat num_workers);
  match r with
  | Some code => RDMAStack_delete ;; mret (Some code)
  | None => mret None
  end.

(** ** Lemmas *)

Implicit Types p : process.

Lemma on_mach_run {A} (x : M W P A) p a m : x (pr_mach p) = Ret (a, m) → on_mach x p = Ret (a, set_pr_mach m p).
Proof. intros H. unfold on_mach. by rewrite H. Qed.
Lemma on_coll_run f p c : f (pr_coll p) = Ret c → on_coll f p = Ret (tt, set_pr_coll c p).
Proof. intros H. unfold on_coll. by rewrite H. Qed.

Lemma create_objects l q c c' : PerfCountersCollection.create show_ptr l q c = Ret c' →
  ∃ name, objects c' = <[l := PerfCounters.set_name name q]> (objects c).
Proof.
  unfold PerfCountersCollection.create. cbn [PerfCountersCollection.perform]. unfold collection_add. cbn [objects m_loggers by_path].
  rewrite lookup_insert_eq. cbn [deref mbind outcome_bind]. destruct (unique_name _ _ _ _ _) as [name|]; [|done]. cbn [mbind outcome_bind].
  destruct (add_paths _ _ _ _ _) as [bp|]; [|done]. cbn. intros [= <-]. exists name. cbn. apply insert_insert_eq.
Qed.

(** What every registration keeps of a collection *)
Definition grows (ls : list Z) (c c' : collection) : Prop :=
  coll_ok c' ∧ (∀ l, l ∈ ls → registered l c') ∧ (∀ l, registered l c → registered l c') ∧
  (∀ l, l ∉ ls → objects c !! l = None → objects c' !! l = None).

Lemma grows_trans ls ls' c c' c'' : grows ls c c' → grows ls' c' c'' → grows (ls ++ ls') c c''.
Proof.
  intros (H1&H2&H3&H4) (K1&K2&K3&K4). split_and!; [done| |eauto|].
  - intros l [Hl|Hl]%elem_of_app; eauto.
  - intros l [Hl Hl']%not_elem_of_app Hn. eauto.
Qed.

Lemma new_logger_run l built q p : built = Ret q → all_named q → coll_ok (pr_coll p) → objects (pr_coll p) !! l = None →
  ∃ name c', new_logger l built p = Ret (PerfCounters.set_name name q, set_pr_coll c' p) ∧ grows [l] (pr_coll p) c'.
Proof.
  intros -> Hnm Hok Hn. destruct (create_ok show_ptr l q (pr_coll p) Hok Hn Hnm) as (c'&Hc&Hok'&Hreg&Hkeep).
  destruct (create_objects _ _ _ _ Hc) as [name Ho]. exists name, c'. unfold new_logger. split.
  - rewrite (bind_run (lift (Ret q)) _ p q p) by done. rewrite (bind_run _ _ _ _ _ (on_coll_run _ _ _ Hc)).
    rewrite (bind_run (gets pr_coll) _ _ c' (set_pr_coll c' p)) by done. by rewrite Ho, lookup_insert_eq.
  - split_and!; [done|by intros l' ->%list_elem_of_singleton|done|]. intros l' Hl'%not_elem_of_cons Hl. rewrite Ho, lookup_insert_ne; [done|]. naive_solver.
Qed.

Lemma loggers_named : (∃ q, RDMADispatcher_logger = Ret q ∧ all_named q ∧ u64_logger l_msgr_rdma_dispatcher_first l_msgr_rdma_dispatcher_last q) ∧
  (∀ name, ∃ q, Worker_logger name = Ret q ∧ all_named q) ∧
  (∀ name, ∃ q, RDMAWorker_logger name = Ret q ∧ all_named q ∧ u64_logger l_msgr_rdma_first l_msgr_rdma_last q).
Proof.
  split_and!.
  - destruct RDMADispatcher_logger_ok as (q&Hq&Hok). exists q. split_and!; [done| |done]. vm_compute in Hq. injection Hq as <-. repeat constructor; by eexists.
  - intros name. destruct (Worker_logger_ok name) as (q&Hq). exists q. split; [done|]. vm_compute in Hq. injection Hq as <-. repeat constructor; by eexists.
  - intros name. destruct (RDMAWorker_logger_ok name) as (q&Hq&Hok). exists q. split_and!; [done| |done]. vm_compute in Hq. injection Hq as <-. repeat constructor; by eexists.
Qed.

(** The addresses of the loggers of some workers *)
Definition loggers (ks : list stack_worker) : list Z := ks ≫= λ k, [sw_logger k; sw_rdma_logger k].

(** A state with the stack and the workers [ks] *)
Record standing (l : Z) (ks : list stack_worker) p : Prop := {
  sd_disp_refs : disp_refs p = S (length (pr_workers p));
  sd_ib_refs : ib_refs p = S (S (length (pr_workers p)));
  sd_workers : pr_workers p = ks;
  sd_coll : coll_ok (pr_coll p);
  sd_loggers : ∀ l', l' ∈ l :: loggers ks → registered l' (pr_coll p);
  sd_empty : qp_conns (disp (pr_mach p)) = ∅ ∧ num_qp_conn (disp (pr_mach p)) = 0 ∧ dead_queue_pairs (disp (pr_mach p)) = [];
  sd_perf : perf_ok (pr_mach p);
  sd_wperf : ∀ k, k ∈ ks → wperf_ok (pr_mach p) (sw_addr k);
  sd_centers : ∀ i k, ks !! i = Some k → ∃ c, pr_centers p !! sw_addr k = Some c ∧ center_ready InitEventNumber (Z.of_nat i) c;
}.

(** One worker more *)
Lemma create_worker_run id k p : coll_ok (pr_coll p) → NoDup (loggers [k]) →
  (∀ l, l ∈ loggers [k] → objects (pr_coll p) !! l = None) →
  ∃ q c, create_worker id k p = Ret (tt, mkProcess (set_workers (<[sw_addr k := mkWorker [] q]> (workers (pr_mach p))) (pr_mach p)) c
      (init_prereq p) (cycles_per_sec p) (S (disp_refs p)) (S (ib_refs p)) (pr_workers p) (pr_kernel p) (pr_centers p)) ∧
    u64_logger l_msgr_rdma_first l_msgr_rdma_last q ∧ grows (loggers [k]) (pr_coll p) c.
Proof.
  intros Hok Hnd Hfree. destruct loggers_named as (_&Hw&Hr). cbn in Hnd, Hfree. apply NoDup_cons in Hnd as [Hnd _].
  destruct (Hw ("AsyncMessenger::Worker-" +:+ pretty (N.of_nat id))) as (q1&E1&N1).
  destruct (Hr ("AsyncMessenger::RDMAWorker-" +:+ pretty (N.of_nat id))) as (q2&E2&N2&U2).
  destruct (new_logger_run (sw_logger k) _ q1 p E1 N1 Hok) as (n1&c1&R1&G1); [apply Hfree; left|].
  destruct (new_logger_run (sw_rdma_logger k) _ q2 (set_pr_coll c1 p) E2 N2) as (n2&c2&R2&G2); [apply G1| |].
  { apply G1; [|apply Hfree; by right; left]. intros H. apply Hnd. apply list_elem_of_singleton in H. rewrite H. by left. }
  exists (PerfCounters.set_name n2 q2), c2. split_and!; [|done|exact (grows_trans _ _ _ _ _ G1 G2)].
  assert (Worker_create id (sw_logger k) p = Ret (tt, set_pr_coll c1 p)) as Ew by (unfold Worker_create; by rewrite (bind_run _ _ _ _ _ R1)).
  assert (RDMAWorker_create id k p = Ret (tt, set_pr_mach (set_workers (<[sw_addr k := mkWorker [] (PerfCounters.set_name n2 q2)]> (workers (pr_mach p)))
    (pr_mach p)) (set_pr_coll c2 p))) as Ek.
  { unfold RDMAWorker_create. rewrite (bind_run _ _ _ _ _ Ew). by rewrite (bind_run _ _ _ _ _ R2). }
  unfold create_worker. by rewrite (bind_run _ _ _ _ _ Ek).
Qed.

(** Its centre *)
Lemma center_init_run `{!CenterOk K} id k p :
  ∃ c, center_init id k p = Ret (0, set_pr_centers (<[sw_addr k := c]> (pr_centers p)) (set_pr_kernel (kernel c) p)) ∧
    center_ready InitEventNumber (Z.of_nat id) c.
Proof. destruct (center_init_ready InitEventNumber (Z.of_nat id) (pr_kernel p)) as (c&E&Hc). exists c. unfold center_init. by rewrite E. Qed.

(** The stack with one worker more *)
Lemma standing_snoc l ks k p q c ce : standing l ks p → u64_logger l_msgr_rdma_first l_msgr_rdma_last q → grows (loggers [k]) (pr_coll p) c →
  center_ready InitEventNumber (Z.of_nat (length ks)) ce → sw_addr k ∉ sw_addr <$> ks →
  standing l (ks ++ [k]) (mkProcess (set_workers (<[sw_addr k := mkWorker [] q]> (workers (pr_mach p))) (pr_mach p)) c (init_prereq p)
    (cycles_per_sec p) (S (disp_refs p)) (S (ib_refs p)) (pr_workers p ++ [k]) (kernel ce) (<[sw_addr k := ce]> (pr_centers p))).
Proof.
  intros [S1 S2 S3 S4 S5 S6 S7 S8 S9] Hq (Hc1&Hc2&Hc3&Hc4) Hce Hfresh. split; cbn.
  - rewrite length_app, S1. cbn. lia.
  - rewrite length_app, S2. cbn. lia.
  - by rewrite S3.
  - done.
  - intros l' Hl'. unfold loggers in Hl'. rewrite bind_app in Hl'. apply elem_of_cons in Hl' as [->|[Hl'|Hl']%elem_of_app].
    + apply Hc3, S5. by left.
    + apply Hc3, S5. by right.
    + by apply Hc2.
  - done.
  - done.
  - intros k' Hk'. unfold wperf_ok. cbn. destruct (decide (sw_addr k' = sw_addr k)) as [E|Hne].
    + exists (mkWorker [] q). rewrite E, lookup_insert_eq. split; [reflexivity|exact Hq].
    + rewrite lookup_insert_ne by done. apply (S8 k'). apply elem_of_app in Hk' as [Hk'| ->%list_elem_of_singleton]; [done|by destruct Hne].
  - intros i k' Hk'. apply lookup_app_Some in Hk' as [Hk'|[Hge Hk']].
    + rewrite lookup_insert_ne; [by apply S9|]. intros E. apply Hfresh. rewrite E. apply list_elem_of_fmap. exists k'. split; [done|]. by eapply list_elem_of_lookup_2.
    + apply list_lookup_singleton_Some in Hk' as [Hi <-]. replace i with (length ks) by lia. exists ce. by rewrite lookup_insert_eq.
Qed.

(** [NetworkStack::create] adds the workers. *)
Lemma create_loop_run `{!CenterOk K} l alloc n : ∀ ks0 p, standing l ks0 p →
  let ks := alloc <$> seq (length ks0) n in
  NoDup (loggers ks) → NoDup (sw_addr <$> ks0 ++ ks) → (∀ l', l' ∈ loggers ks → objects (pr_coll p) !! l' = None) →
  ∃ p', create_loop alloc (length ks0) n p = Ret (None, p') ∧ standing l (ks0 ++ ks) p' ∧ cycles_per_sec p' = cycles_per_sec p.
Proof.
  induction n as [|n IH]; intros ks0 p Hst ks Hnd Hnda Hfree; subst ks; cbn [create_loop].
  { exists p. by rewrite app_nil_r. }
  cbn [seq] in *. rewrite fmap_cons in *. set (k := alloc (length ks0)) in *.
  assert (S (length ks0) = length (ks0 ++ [k])) as Hlen by (rewrite length_app; cbn; lia). rewrite Hlen in *. clear Hlen.
  set (ks := alloc <$> seq (length (ks0 ++ [k])) n) in *. change (loggers (k :: ks)) with (loggers [k] ++ loggers ks) in *. apply NoDup_app in Hnd as (Hnd1&Hdisj&Hnd2).
  destruct (create_worker_run (length ks0) k p (sd_coll _ _ _ Hst) Hnd1) as (q&c&Er&Hq&Hg); [intros l' Hl'; apply Hfree, elem_of_app; by left|].
  rewrite (bind_run _ _ _ _ _ Er). match goal with |- ∃ p', (center_init _ _ ≫= _) ?x = _ ∧ _ => destruct (center_init_run (length ks0) k x) as (ce&Ec&Hce) end.
  rewrite (bind_run _ _ _ _ _ Ec). change (negb (0 =? 0)) with false. cbv iota. rewrite (bind_run (modify _) _ _ tt _ eq_refl).
  assert (sw_addr k ∉ sw_addr <$> ks0) as Hfresh.
  { rewrite fmap_app, fmap_cons in Hnda. apply NoDup_app in Hnda as (_&Hd&_). intros Hin. apply (Hd _ Hin). left. }
  pose proof (standing_snoc l ks0 k p q c ce Hst Hq Hg Hce Hfresh) as Hst1.
  match goal with |- context [create_loop _ _ _ ?x] => destruct (IH (ks0 ++ [k]) x) as (p'&Ep&Hst'&Hcy) end.
  - exact Hst1.
  - exact Hnd2.
  - by rewrite <-app_assoc.
  - intros l' Hl'. cbn. apply Hg; [|apply Hfree, elem_of_app; by right]. intros Hin. by apply (Hdisj l').
  - exists p'. split_and!; [exact Ep|by rewrite <- app_assoc in Hst'|exact Hcy].
Qed.

Lemma verify_prereq_run `{!PrereqOk W} (m : mach W P) : ∃ w, verify_prereq cfg m = Ret (tt, set_world w m).
Proof.
  assert (∀ m : mach W P, ∃ w, (rc ← sysret ibv_fork_init; if negb (rc =? 0) then fail KAbort else sys c_getrlimit ;; mret tt) m = Ret (tt, set_world w m)) as Hf.
  { intros m1. pose proof (fork_init_ok (world m1)) as H. unfold mbind, ST_bind, sysret, sys, mbind, ST_bind.
    destruct (sys_call ibv_fork_init (world m1)) as [[r out] w]. cbn in H. subst r. cbn.
    destruct (sys_call c_getrlimit w) as [[r' out'] w']. cbn. by exists w'. }
  unfold verify_prereq. destruct (m_rdma_enable_hugepage_ cfg).
  - pose proof (setenv_ok (world m)) as H. unfold mbind at 1, ST_bind at 1. unfold sysret at 1, sys at 1, mbind at 1 2, ST_bind at 1 2.
    destruct (sys_call c_setenv_hugepages (world m)) as [[r out] w]. cbn in H. subst r. cbn [fst negb Z.eqb].
    destruct (Hf (set_world w m)) as [w' Hw']. exists w'. exact Hw'.
  - apply Hf.
Qed.

Lemma stack_create_run `{!PrereqOk W} l counter readings d p : pr_coll p = mkCollection ∅ ∅ ∅ → pr_workers p = [] →
  Cycles.init (cycles_per_sec p) counter readings = Ret d →
  ∃ p', RDMAStack_create l counter readings p = Ret (tt, p') ∧ standing l [] p' ∧ cycles_per_sec p' = d ∧ pr_kernel p' = pr_kernel p ∧
    ∀ l', l' ≠ l → objects (pr_coll p') !! l' = None.
Proof.
  intros Hcoll Hws Hcy. destruct loggers_named as ((q&Eq&Nq&Uq)&_).
  assert (∃ w b, Infiniband_create p = Ret (tt, mkProcess (set_ib ib0 (set_world w (pr_mach p))) (pr_coll p) b (cycles_per_sec p) (disp_refs p) 1 (pr_workers p) (pr_kernel p) (pr_centers p)))
    as (w&b&Ei).
  { unfold Infiniband_create. rewrite (bind_run (gets init_prereq) _ p _ p eq_refl). destruct (init_prereq p) eqn:Eb.
    - exists (world (pr_mach p)), true. cbn. destruct p, pr_mach0; cbn in *. by subst.
    - destruct (verify_prereq_run (pr_mach p)) as [w Hw]. exists w, true.
      assert ((on_mach (verify_prereq cfg) ;; modify (set_init_prereq true)) p = Ret (tt, set_init_prereq true (set_pr_mach (set_world w (pr_mach p)) p))) as E.
      { by rewrite (bind_run _ _ _ _ _ (on_mach_run _ _ _ _ Hw)). }
      by rewrite (bind_run _ _ _ _ _ E). }
  unfold RDMAStack_create. rewrite (bind_run _ _ _ _ _ Ei). unfold RDMADispatcher_create.
  rewrite (bind_run (modify _) _ _ tt _ eq_refl). rewrite (bind_run (on_mach _) _ _ _ _ (on_mach_run (modify (set_disp disp0)) _ _ _ eq_refl)).
  match goal with |- ∃ p', (?x ≫= ?k) ?p0 = _ ∧ _ => destruct (new_logger_run l _ q p0 Eq Nq) as (name&c&En&(Hc1&Hc2&Hc3&Hc4)) end;
    [cbn; rewrite Hcoll; split; intros; simplify_map_eq|cbn; by rewrite Hcoll|].
  rewrite (bind_run _ _ _ _ _ En). rewrite (bind_run (on_mach _) _ _ _ _ (on_mach_run (modify (set_perf _)) _ _ _ eq_refl)).
  rewrite (bind_run (gets cycles_per_sec) _ _ _ _ eq_refl).
  rewrite (bind_run (lift _) _ _ d _) by (unfold lift; cbn [cycles_per_sec set_pr_mach set_pr_coll]; cbn; by rewrite Hcy).
  clear Hcy Eq En Ei. eexists. split; [reflexivity|]. split_and!; [split; cbn|reflexivity|reflexivity|].
  - by rewrite Hws.
  - by rewrite Hws.
  - exact Hws.
  - exact Hc1.
  - exact Hc2.
  - done.
  - exact Uq.
  - intros k Hk. by apply elem_of_nil in Hk.
  - done.
  - intros l' Hne. cbn. apply Hc4; [by apply not_elem_of_cons; split; [|apply not_elem_of_nil]|]. cbn. by rewrite Hcoll.
Qed.

(** C36: [NetworkStack::create] for an RDMA stack returns, on a processor whose
    counter is steady and is read often enough, when setting the environment,
    preparing for fork and making the descriptors of the event centres
    succeed. The number of workers is the configured one, at least 1, cut to
    96. It leaves what the other theorems start from: an empty table of queue
    pairs, the loggers that the dispatcher and the workers count in, the
    frequency of the counter measured exactly, and for every worker an event
    centre under its number with a free table of 5000 descriptors. All loggers
    are registered, and the references of the shared objects are those of the
    stack, the dispatcher and the workers. *)
Theorem stack_starts `{!PrereqOk W, !CenterOk K} op_threads alloc l f c0 counter u us p :
  let ks := alloc <$> seq 0 (Z.to_nat (Z.min op_threads 96)) in
  0 < op_threads → NoDup (l :: loggers ks) → NoDup (sw_addr <$> ks) →
  pr_coll p = mkCollection ∅ ∅ ∅ → pr_workers p = [] → cycles_per_sec p = Cycles.zero →
  1 ≤ f ≤ 100000 → 0 ≤ u → counter ≠ 0 → paced u us → u + 50000 < final u us →
  ∃ p', create_stack op_threads alloc l counter (at_us f c0 <$> u :: us) p = Ret (None, p') ∧
    table_inv (pr_mach p') ∧ perf_ok (pr_mach p') ∧ (∀ k, k ∈ ks → wperf_ok (pr_mach p') (sw_addr k)) ∧
    (∀ i k, ks !! i = Some k → ∃ c, pr_centers p' !! sw_addr k = Some c ∧ center_ready 5000 (Z.of_nat i) c) ∧
    isR (cycles_per_sec p') (Rdefinitions.IZR (f * 1000000)) ∧ coll_ok (pr_coll p') ∧ (∀ l', l' ∈ l :: loggers ks → registered l' (pr_coll p')) ∧
    pr_workers p' = ks ∧ disp_refs p' = (1 + length ks)%nat ∧ ib_refs p' = (2 + length ks)%nat.
Proof.
  intros ks Hop [Hl Hnd]%NoDup_cons Hnda Hcoll Hws Hcy0 Hf Hu Hc Hp Hlast.
  destruct (init_steady f c0 counter u us Hf Hu Hc Hp Hlast) as (d&Hcy&Hd). rewrite <-Hcy0 in Hcy.
  destruct (stack_create_run l counter _ d p Hcoll Hws Hcy) as (p1&E1&S1&Hd1&_&Hfree). clear Hcy.
  destruct (create_loop_run l alloc (Z.to_nat (Z.min op_threads 96)) [] p1 S1 Hnd Hnda) as (p2&E2&S2&Hd2); [intros l' Hl'; apply Hfree; by intros ->|].
  exists p2. unfold create_stack, MAX_EVENTCENTER. rewrite (bind_run _ _ _ _ _ E1).
  rewrite (bind_run (assert _) _ _ tt p1) by (unfold assert; destruct (Z.gtb_spec op_threads 0); [done|lia]). cbv zeta.
  replace (if op_threads >=? 96 then 96 else op_threads) with (Z.min op_threads 96) by (destruct (Z.geb_spec op_threads 96); lia).
  rewrite (bind_run _ _ _ _ _ E2). change (standing l ks p2) in S2. destruct S2 as [Ha Hb Hw H4 H5 (H6&H6'&H6'') H7 H8 H9].
  rewrite Hw in Ha, Hb. split_and!; [reflexivity|by apply table_inv_empty|exact H7|exact H8|exact H9|by rewrite Hd2, Hd1|exact H4|exact H5|exact Hw|exact Ha|exact Hb].
Qed.

(** *** Destruction *)

Lemma drop_dispatcher_more p n : disp_refs p = S (S n) → drop_dispatcher p = Ret (tt, set_disp_refs (S n) p).
Proof. intros H. unfold drop_dispatcher. rewrite (bind_run (gets disp_refs) _ p _ p eq_refl), H. reflexivity. Qed.
Lemma drop_ib_more p n : ib_refs p = S (S n) → drop_ib p = Ret (tt, set_ib_refs (S n) p).
Proof. intros H. unfold drop_ib. rewrite (bind_run (gets ib_refs) _ p _ p eq_refl), H. reflexivity. Qed.

Lemma deleter_run l c : coll_ok c → registered l c →
  ∃ c', PerfCountersCollection.deleter show_ptr l c = Ret c' ∧ coll_ok c' ∧ ∀ l', registered l' c' ↔ registered l' c ∧ l' ≠ l.
Proof.
  intros Hok Hreg. destruct (deleter_ok show_ptr l c Hok Hreg) as (c'&E&Hok'&_&Hgone&_&Hkeep). exists c'. split_and!; [done..|].
  intros l'. split; [|intros [Hr Hne]; by apply Hkeep]. intros Hr. split; [|by intros ->]. destruct Hr as [name Hname]. exists name.
  revert E. unfold PerfCountersCollection.deleter. cbn [PerfCountersCollection.perform]. unfold collection_remove.
  destruct (objects c !! l) as [q|]; [|done]. cbn [deref mbind outcome_bind]. destruct (remove_paths _ _ _) as [bp|]; [|done]. cbn [mbind outcome_bind].
  destruct (bool_decide _); [|done]. cbn. intros [= <-]. cbn in Hname. by apply lookup_delete_Some in Hname as [_ ?].
Qed.

Section ends.
(** What the destructors of the dispatcher and of the [Infiniband] object do *)
Context (m0 m1 m2 : mach W P).
Hypothesis Hdisp : ∀ t, Dispatcher.dispatcher_delete (set_workers t m0) = Ret (tt, set_workers t m1).
Hypothesis Hib : ∀ t, Infiniband_delete cfg (set_workers t m1) = Ret (tt, set_workers t m2).

(** The last references: the dispatcher goes first. *)
Lemma drop_last p t : disp_refs p = 1%nat → ib_refs p = 2%nat → pr_mach p = set_workers t m0 →
  ∃ p1, drop_dispatcher p = Ret (tt, p1) ∧
    drop_ib p1 = Ret (tt, mkProcess (set_workers t m2) (pr_coll p) (init_prereq p) (cycles_per_sec p) 0 0 (pr_workers p) (pr_kernel p) (pr_centers p)).
Proof using Hdisp Hib.
  intros Hd Hi Hm. exists (mkProcess (set_workers t m1) (pr_coll p) (init_prereq p) (cycles_per_sec p) 0 1 (pr_workers p) (pr_kernel p) (pr_centers p)). split.
  - unfold drop_dispatcher. rewrite (bind_run (gets disp_refs) _ p _ p eq_refl), Hd. rewrite (bind_run (modify _) _ _ tt _ eq_refl). cbn [Nat.eqb Nat.sub].
    rewrite (bind_run (on_mach _) _ _ tt _ (on_mach_run _ (set_disp_refs 0 p) _ _ (eq_trans (f_equal _ Hm) (Hdisp t)))).
    erewrite drop_ib_more by (cbn; exact Hi). reflexivity.
  - unfold drop_ib. erewrite bind_run by reflexivity. cbn [ib_refs]. rewrite (bind_run (modify _) _ _ tt _ eq_refl). cbn [Nat.eqb Nat.sub].
    exact (on_mach_run (Infiniband_delete cfg) (set_ib_refs 0 (mkProcess (set_workers t m1) _ _ _ _ _ _ _ _)) _ _ (Hib t)).
Qed.

Lemma workers_delete_run ks : ∀ p t, ks ≠ [] → disp_refs p = length ks → ib_refs p = S (length ks) → pr_mach p = set_workers t m0 →
  coll_ok (pr_coll p) → NoDup (sw_logger <$> ks) → (∀ l, l ∈ sw_logger <$> ks → registered l (pr_coll p)) →
  ∃ p' t', for_each ks RDMAWorker_delete p = Ret (tt, p') ∧ disp_refs p' = 0%nat ∧ ib_refs p' = 0%nat ∧ pr_mach p' = set_workers t' m2 ∧
    coll_ok (pr_coll p') ∧ (∀ l, registered l (pr_coll p') ↔ registered l (pr_coll p) ∧ l ∉ sw_logger <$> ks).
Proof using Hdisp Hib.
  induction ks as [|k ks IH]; intros p t Hne Hd Hi Hm Hok Hnd Hreg; [done|]. cbn [for_each].
  rewrite fmap_cons in Hnd, Hreg. apply NoDup_cons in Hnd as [Hk Hnd].
  destruct (deleter_run (sw_logger k) (pr_coll p) Hok) as (c&Ec&Hok'&Hiff); [apply Hreg; by left|].
  destruct ks as [|k' ks].
  - destruct (drop_last p t Hd Hi Hm) as (p1&E1&E2). unfold RDMAWorker_delete, Worker_delete.
    eexists _, (delete (sw_addr k) t). split.
    { erewrite bind_run; [|rewrite (bind_run _ _ _ _ _ E1), (bind_run _ _ _ _ _ E2),
        (bind_run _ _ _ tt _ (on_coll_run (PerfCountersCollection.deleter show_ptr (sw_logger k)) (mkProcess _ (pr_coll p) _ _ _ _ _ _ _) c Ec)); reflexivity]. reflexivity. }
    cbn. split_and!; [done..|]. intros l. rewrite Hiff. by rewrite list_elem_of_singleton.
  - assert (RDMAWorker_delete k p = Ret (tt, mkProcess (set_workers (delete (sw_addr k) t) m0) c (init_prereq p) (cycles_per_sec p)
      (S (length ks)) (S (S (length ks))) (pr_workers p) (pr_kernel p) (delete (sw_addr k) (pr_centers p)))) as Ek.
    { unfold RDMAWorker_delete, Worker_delete. rewrite (bind_run _ _ _ _ _ (drop_dispatcher_more p (length ks) Hd)).
      rewrite (bind_run _ _ _ _ _ (drop_ib_more (set_disp_refs (S (length ks)) p) (S (length ks)) Hi)).
      rewrite (bind_run _ _ _ tt _ (on_coll_run (PerfCountersCollection.deleter show_ptr (sw_logger k)) (set_ib_refs _ (set_disp_refs _ p)) c Ec)).
      rewrite (bind_run (modify _) _ _ tt _ eq_refl). unfold on_mach, modify. cbn. by rewrite Hm. }
    rewrite (bind_run _ _ _ _ _ Ek).
    match goal with |- context [for_each _ _ ?x] => destruct (IH x (delete (sw_addr k) t)) as (p'&t'&E&H1&H2&H3&H4&H5) end; try done.
    { intros l Hl. apply Hiff. split; [apply Hreg; by right|by intros ->]. }
    exists p', t'. split_and!; [done..|]. intros l. rewrite H5. cbn [pr_coll]. rewrite Hiff, (fmap_cons _ k), not_elem_of_cons. tauto.
Qed.

(** The destructor of the stack destroys the dispatcher and then the
    [Infiniband] object, each once, when the last worker goes. It takes the
    loggers of the [Worker]s out of the collection; the loggers of the
    dispatcher and of the [RDMAWorker]s stay there. *)
Theorem stack_ends l ks p :
  standing l ks p → NoDup (l :: loggers ks) →
  (if m_rdma_enable_hugepage_ cfg then ∃ r, sysret c_unsetenv_hugepages (pr_mach p) = Ret (r, m0) else m0 = pr_mach p) →
  ∃ p', RDMAStack_delete p = Ret (tt, p') ∧ disp_refs p' = 0%nat ∧ ib_refs p' = 0%nat ∧
    pr_mach p' = set_workers (workers (pr_mach p')) m2 ∧ coll_ok (pr_coll p') ∧
    ∀ l', registered l' (pr_coll p') ↔ registered l' (pr_coll p) ∧ l' ∉ sw_logger <$> ks.
Proof using Hdisp Hib.
  intros [S1 S2 S3 S4 S5 _ _ _ _] [_ Hnd]%NoDup_cons Henv. rewrite S3 in S1, S2.
  assert ((if m_rdma_enable_hugepage_ cfg then on_mach (sysret c_unsetenv_hugepages) ;; mret tt else mret tt) p = Ret (tt, set_pr_mach m0 p)) as E0.
  { destruct (m_rdma_enable_hugepage_ cfg); [destruct Henv as [r Hr]; by rewrite (bind_run _ _ _ _ _ (on_mach_run _ _ _ _ Hr))|]. subst. by destruct p. }
  assert (NoDup (sw_logger <$> ks)) as Hndk.
  { clear -Hnd. induction ks as [|k ks IH]; [constructor|]. change (loggers (k :: ks)) with ([sw_logger k; sw_rdma_logger k] ++ loggers ks) in Hnd.
    apply NoDup_app in Hnd as (_&Hdisj&Hnd). constructor; [|by apply IH]. intros (k'&E&Hk')%list_elem_of_fmap. apply (Hdisj (sw_logger k)); [left|].
    apply list_elem_of_bind. exists k'. split; [rewrite E; left|done]. }
  assert (m0 = set_workers (workers m0) m0) as Hm0 by by destruct m0.
  unfold RDMAStack_delete, NetworkStack_delete. rewrite (bind_run _ _ _ _ _ E0). destruct ks as [|k ks].
  - destruct (drop_last (set_pr_mach m0 p) (workers m0)) as (p1&E1&E2); [done..|]. eexists. split.
    { rewrite (bind_run _ _ _ _ _ E1), (bind_run _ _ _ _ _ E2). erewrite bind_run by reflexivity. cbn [pr_workers set_pr_mach]. rewrite S3. reflexivity. }
    cbn. split_and!; [done..|]. intros l'. split; [|tauto]. intros H. split; [done|apply not_elem_of_nil].
  - rewrite (bind_run _ _ _ _ _ (drop_dispatcher_more (set_pr_mach m0 p) _ S1)).
    rewrite (bind_run _ _ _ _ _ (drop_ib_more (set_disp_refs (S (length ks)) (set_pr_mach m0 p)) (S (length ks)) S2)). erewrite bind_run by reflexivity.
    cbn [pr_workers set_ib_refs set_disp_refs set_pr_mach]. rewrite S3.
    match goal with |- ∃ p', (_ ≫= _) ?x = _ ∧ _ => destruct (workers_delete_run (k :: ks) x (workers m0)) as (p'&t'&E&H1&H2&H3&H4&H5) end; try done.
    { intros l' (k'&->&Hk')%list_elem_of_fmap. apply S5. right. apply list_elem_of_bind. exists k'. split; [left|done]. }
    rewrite (bind_run _ _ _ _ _ E). eexists. split; [reflexivity|]. cbn. rewrite H3. by split_and!.
Qed.
End ends.

(** When the event centre of a worker cannot be made, the exception destroys
    the stack, but that worker is in no list: it is not deleted, and the
    references it holds keep the dispatcher and the [Infiniband] object. *)
Lemma failed_create_leaks `{!PrereqOk W} op_threads alloc l counter readings r c d p :
  0 < op_threads → r ≠ 0 → EventCenter.init InitEventNumber 0 (EventCenter.create (pr_kernel p)) = Ret (r, c) →
  NoDup (l :: loggers [alloc 0%nat]) →
  pr_coll p = mkCollection ∅ ∅ ∅ → pr_workers p = [] → Cycles.init (cycles_per_sec p) counter readings = Ret d →
  ∃ p', create_stack op_threads alloc l counter readings p = Ret (Some (- r), p') ∧
    disp_refs p' = 1%nat ∧ ib_refs p' = 2%nat ∧ (∀ l', l' ∈ l :: loggers [alloc 0%nat] → registered l' (pr_coll p')).
Proof.
  intros Hop Hr Hinit [Hl Hnd]%NoDup_cons Hcoll Hws Hcy.
  destruct (stack_create_run l counter readings d p Hcoll Hws Hcy) as (p1&E1&S1&_&Hk&Hfree). clear Hcy. set (k := alloc 0%nat) in *.
  destruct S1 as [Hd Hi Hw Hok Hreg _ _ _ _]. rewrite Hw in Hd, Hi.
  destruct (create_worker_run 0 k p1 Hok Hnd) as (q&c1&E2&_&(_&Hc2&Hc3&_)); [intros l' Hl'; apply Hfree; by intros ->|].
  set (p1' := mkProcess _ c1 _ _ _ _ _ _ _) in E2. set (p2 := set_pr_centers (<[sw_addr k := c]> (pr_centers p1')) (set_pr_kernel (kernel c) p1')).
  assert (∀ n, create_loop alloc 0 (S n) p1 = Ret (Some (- r), p2)) as E3.
  { intros n. cbn [create_loop]. rewrite (bind_run _ _ _ _ _ E2). assert (center_init 0 k p1' = Ret (r, p2)) as Ec.
    { unfold center_init. change (pr_kernel p1') with (pr_kernel p1). change (Z.of_nat 0) with 0. by rewrite Hk, Hinit. }
    rewrite (bind_run _ _ _ _ _ Ec), (proj2 (Z.eqb_neq _ _) Hr). reflexivity. }
  assert (∃ m, (if m_rdma_enable_hugepage_ cfg then on_mach (sysret c_unsetenv_hugepages) ;; mret tt else mret tt) p2 = Ret (tt, set_pr_mach m p2)) as [m E4].
  { clear. destruct (m_rdma_enable_hugepage_ cfg); [|exists (pr_mach p2); reflexivity].
    unfold mbind, ST_bind, on_mach, sysret, sys, mbind, ST_bind. destruct (sys_call _ _) as [[r out] w]. eexists. reflexivity. }
  assert (disp_refs p2 = 2%nat ∧ ib_refs p2 = 3%nat) as [Hd2 Hi2] by (split; cbn; [rewrite Hd|rewrite Hi]; reflexivity).
  exists (set_pr_workers [] (set_ib_refs 2 (set_disp_refs 1 (set_pr_mach m p2)))). split_and!; [|reflexivity|reflexivity|].
  - unfold create_stack, MAX_EVENTCENTER. rewrite (bind_run _ _ _ _ _ E1).
    rewrite (bind_run (assert _) _ _ tt p1) by (unfold assert; destruct (Z.gtb_spec op_threads 0); [done|lia]). cbv zeta.
    assert (∃ n, Z.to_nat (if op_threads >=? 96 then 96 else op_threads) = S n) as [n ->].
    { exists (Z.to_nat (Z.min op_threads 96 - 1)). destruct (Z.geb_spec op_threads 96); lia. }
    rewrite (bind_run _ _ _ _ _ (E3 n)). erewrite bind_run; [reflexivity|].
    unfold RDMAStack_delete, NetworkStack_delete. rewrite (bind_run _ _ _ _ _ E4). rewrite (bind_run _ _ _ _ _ (drop_dispatcher_more (set_pr_mach m p2) 0 Hd2)).
    rewrite (bind_run _ _ _ _ _ (drop_ib_more (set_disp_refs 1 (set_pr_mach m p2)) 1 Hi2)). erewrite bind_run by reflexivity. cbn. rewrite Hw. reflexivity.
  - intros l' [->|Hl']%elem_of_cons; cbn; [apply Hc3, Hreg; left|by apply Hc2].
Qed.

End startup.

(** ** Witnesses: two workers, in a world whose calls return 0 *)

#[global] Instance zero_prereq : PrereqOk unit.
Proof. by split. Qed.

Definition demo_mach : mach unit list_pool :=
  mkMach tt ∅ ∅ ∅ 0 (mkMM None 0 false false (mkPool [] 184 4)) ib0 ∅ ∅ ∅ disp0 (logger_of RDMADispatcher_logger) ∅ ∅.
(** Descriptors are handed out one after the other. *)
Definition fd_call (c : ecall) (n : Z) : reply * Z :=
  match c with
  | e_epoll_create => (n, 0, [], n + 1)
  | e_pipe => (0, 0, [(n, n + 1)], n + 2)
  | _ => (0, 0, [], n)
  end.
Definition fds : Type := N.
#[global] Instance fd_kernel : Kernel fds := λ c n, let '(r, n') := fd_call c (Z.of_N n) in (r, Z.to_N n').
#[global] Instance fd_center : CenterOk fds.
Proof. split; intros; cbn; [lia|done|done|done]. Qed.

Definition demo_process : process (K := fds) := mkProcess demo_mach (mkCollection ∅ ∅ ∅) false Cycles.zero 0 0 [] 3%N ∅.
Definition demo_alloc (id : nat) : stack_worker := let a := Z.of_nat id + 1 in mkSW a (10 * a + 1) (10 * a + 2).

(** The counter of the processor wraps around while it is measured. *)
Lemma stack_starts_witness : ∃ p',
  create_stack config0 (λ _, "0x1"%string) 2 demo_alloc 9 1
    (at_us 2900 18446744073700000000 <$> [0; 9000; 11000; 18000; 26000; 36000; 45000; 55000]) demo_process = Ret (None, p') ∧
  table_inv (pr_mach p') ∧ wperf_ok (pr_mach p') 2 ∧ registered 22 (pr_coll p') ∧ disp_refs p' = 3%nat ∧
  (∃ c, pr_centers p' !! 2 = Some c ∧ center_ready 5000 1 c) ∧ isR (cycles_per_sec p') (Rdefinitions.IZR 2900000000).
Proof.
  destruct (stack_starts config0 (λ _, "0x1"%string) 2 demo_alloc 9 2900 18446744073700000000 1 0 [9000; 11000; 18000; 26000; 36000; 45000; 55000] demo_process)
    as (p'&E&H1&_&H3&H4&H5&_&H6&_&H8&_);
    [lia|refine (bool_decide_unpack _ _); by vm_compute|refine (bool_decide_unpack _ _); by vm_compute|reflexivity|reflexivity|reflexivity|lia|lia|done|
     repeat (constructor; [lia|lia|]); constructor|cbn; lia|].
  exists p'. split_and!; [exact E|exact H1|apply (H3 (mkSW 2 21 22)); by right; left|apply H6; cbn; by repeat (left || right)|exact H8|exact (H4 1%nat (mkSW 2 21 22) eq_refl)|exact H5].
Defined.

(** The stack of one worker is destroyed before anything was connected. *)
Lemma stack_ends_witness : ∃ p p' : process (W := unit) (P := list_pool) (K := fds),
  pr_workers p = [mkSW 1 11 12] ∧ RDMAStack_delete config0 (λ _, "0x1"%string) p = Ret (tt, p') ∧ disp_refs p' = 0%nat ∧ ib_refs p' = 0%nat ∧
    registered 9 (pr_coll p') ∧ registered 12 (pr_coll p') ∧ ¬ registered 11 (pr_coll p').
Proof.
  destruct (loggers_named) as ((q&_&Nq&Uq)&_). set (k := mkSW 1 11 12).
  destruct (create_ok (λ _, "0x1"%string) 9 q (mkCollection ∅ ∅ ∅)) as (c&Ec&Hok&Hreg&_); [split; intros; simplify_map_eq|done|done|].
  destruct (create_objects _ _ _ _ _ Ec) as [name Ho].
  destruct (create_worker_run (λ _, "0x1"%string) 0 k (mkProcess demo_mach c false Cycles.zero 1 2 [] (3%N : fds) ∅)) as (q'&c'&_&Uq'&(Hc1&Hc2&Hc3&_));
    [exact Hok|refine (bool_decide_unpack _ _); by vm_compute| |].
  { intros l Hl. cbn [pr_coll]. rewrite Ho, lookup_insert_ne; [done|]. intros <-. revert Hl. refine (bool_decide_unpack _ _). by vm_compute. }
  cbn [pr_coll] in Hc3.
  set (m := set_perf q (set_workers {[1 := mkWorker [] q']} demo_mach)).
  destruct (center_init_ready InitEventNumber 0 (3%N : fds)) as (ce&_&Hce).
  set (p := mkProcess m c' false Cycles.zero 2 3 [k] (kernel ce) {[1 := ce]} : process (W := unit) (P := list_pool) (K := fds)).
  assert (standing 9 [k] p) as Hst.
  { split; try reflexivity.
    - exact Hc1.
    - intros l [->|Hl]%elem_of_cons; [by apply Hc3|by apply Hc2].
    - done.
    - exact Uq.
    - intros k' ->%list_elem_of_singleton. exists (mkWorker [] q'). done.
    - intros i k' [-> <-]%list_lookup_singleton_Some. exists ce. split; [apply lookup_singleton_eq|exact Hce]. }
  destruct (stack_ends (K := fds) config0 (λ _, "0x1"%string) m (set_disp (set_d_done true disp0) m) (set_disp (set_d_done true disp0) m)) with (l := 9) (ks := [k]) (p := p)
    as (p'&E&H1&H2&_&_&H5); [reflexivity|reflexivity|exact Hst|refine (bool_decide_unpack _ _); by vm_compute|reflexivity|].
  exists p, p'. split_and!; [reflexivity|exact E|exact H1|exact H2| | |].
  - apply H5. split; [by apply Hc3|]. refine (bool_decide_unpack _ _). by vm_compute.
  - apply H5. split; [apply Hc2; right; left|]. refine (bool_decide_unpack _ _). by vm_compute.
  - rewrite H5. intros [_ Hn]. apply Hn. left.
Defined.
