(* ===== verification/Callbacks.v ===== *)
(** * The callbacks of connected sockets
      (src/core/RDMAConnectedSocketImpl.cc over src/network/Event.cc)

    A connected socket owns two callbacks, [established_handler] and
    [read_handler], and registers them with the event centre of its worker for
    the descriptor of its TCP connection. [cleanup] and the destructor delete
    them. Here the calls that Socket.v makes to an event centre are answered by
    the centre of Event.v, and the callbacks in its table are followed through
    the life of any number of sockets: none of them is ever left there after
    its socket or the callback is gone. All of this runs in the thread of the
    worker. *)

From S2P Require Import Prelude State Addr Buffers PerfCounters Machine Memory Wire QueuePair Net Infiniband Dispatcher Socket Event.

(** The rest of the environment, the centre, and the crash of a call to it *)
Record office (W K : Type) := mkOffice { of_world : W; of_center : center K; of_crash : option crash }.
Arguments mkOffice {W K} _ _ _.
Arguments of_world {W K} _.
Arguments of_center {W K} _.
Arguments of_crash {W K} _.

Section office.
Context {W K : Type} `{!World W, !Kernel K}.

(** A call to the centre by its owner *)
Definition ask {A} (x : ST (center K) A) (ret : A → Z) (o : office W K) : Z * list Z * office W K :=
  match x (of_center o) with
  | Ret (a, c) => (ret a, [], mkOffice (of_world o) c (of_crash o))
  | Crash e => (0, [], mkOffice (of_world o) (of_center o) (Some e))
  end.

Definition office_call (c : call) (o : office W K) : Z * list Z * office W K :=
  let self := owner (of_center o) in
  match c with
  | center_create_file_event _ fd mask h => ask (EventCenter.create_file_event self fd mask h) id o
  | center_delete_file_event _ fd mask => ask (EventCenter.delete_file_event self fd mask) (λ _, 0) o
  | center_dispatch_external _ h => ask (EventCenter.dispatch_event_external self h) (λ _, 0) o
  | center_in_thread _ => (1, [], o)
  | c => let '(r, out, w) := sys_call c (of_world o) in (r, out, mkOffice w (of_center o) (of_crash o))
  end.

#[global] Instance office_world : World (office W K) := {| sys_call := office_call; get_errno o := get_errno (of_world o) |}.
End office.

(** The pool uses the state of its allocator only through the allocator. *)
Class PoolFrame (P : Type) `{BoostPool P} : Prop :=
  pool_malloc_frame (S T : Type) (f : S → T) (alloc : Z → S → outcome (Z * S)) :
    (∀ z s a s', alloc z s = Ret (a, s') → f s' = f s) →
    ∀ p s a p' s', pool_malloc S alloc p s = Ret (a, p', s') → f s' = f s.

#[global] Instance list_pool_frame : PoolFrame list_pool.
Proof.
  intros S T f alloc Hf p s a p' s'. cbn. unfold list_pool_malloc. destruct (lp_free p); [|by intros [= _ _ <-]].
  destruct (alloc _ s) as [[b s1]|] eqn:E; [|done]. apply Hf in E. repeat case_match; by intros [= _ _ <-].
Qed.

Section view.
Context {W K P : Type} `{!World W, !Kernel K}.
Abbreviation mach := (mach (office W K) P).
Implicit Types m : mach.

(** What this file is about: the descriptor and the callbacks of each socket, and the centre *)
Definition handlers (k : socket) : Z * Z * Z := (tcp_fd k, read_handler k, established_handler k).
Definition view m : gmap Z (Z * Z * Z) * center K * option crash :=
  (handlers <$> socks m, of_center (world m), of_crash (world m)).

Definition of_centre (c : call) : bool :=
  match c with center_create_file_event _ _ _ _ | center_delete_file_event _ _ _ | center_dispatch_external _ _ => true | _ => false end.

Lemma frame_plain c : of_centre c = false → frame view (sys (P := P) c).
Proof.
  intros Hc m [r out] m'. unfold sys. destruct (sys_call c (world m)) as [[r' out'] o] eqn:E. intros [= <- <- <-].
  unfold view. cbn. destruct c; cbn in *; try discriminate Hc; try (destruct (sys_call _ (of_world (world m))) as [[? ?] ?] eqn:E'; injection E as <- <- <-; done).
  by injection E as <- <- <-.
Qed.

Lemma frame_on_sock s f : (∀ k, handlers (f k) = handlers k) → frame view (on_sock (W := office W K) (P := P) s f).
Proof.
  intros Hf m [] m'. unfold on_sock, get_sock, put_sock, mbind, ST_bind, gets, the, modify, mret, ST_ret, fail. destruct (socks m !! s) as [k|] eqn:E; [|done].
  intros [= <-]. unfold view. cbn. rewrite fmap_insert, Hf. f_equal. f_equal. apply insert_id. by rewrite lookup_fmap, E.
Qed.
Lemma frame_get_wc s : frame view (Socket.get_wc (W := office W K) (P := P) s).
Proof.
  intros m l m'. unfold Socket.get_wc, get_sock, put_sock, mbind, ST_bind, gets, the, modify, mret, ST_ret, fail. destruct (socks m !! s) as [k|] eqn:E; [|done].
  intros [= _ <-]. unfold view. cbn. rewrite fmap_insert. change (handlers (set_s_wc [] k)) with (handlers k). f_equal. f_equal. apply insert_id.
  by rewrite lookup_fmap, E.
Qed.
End view.

Ltac view_step :=
  first
  [ match goal with
    | |- frame view (sys _) => apply frame_plain; reflexivity
    | |- frame view (on_sock _ _) => apply frame_on_sock; intros; by repeat case_match
    | |- frame view (Socket.get_wc _) => apply frame_get_wc
    end
  | solve [auto with frames nocore]
  | match goal with |- frame _ (_ ≫= _) => apply frame_bind; [|intros] end
  | apply frame_modify; intros; reflexivity
  | match goal with
    | |- frame _ (if ?b then _ else _) => destruct b
    | |- frame _ (match ?x with _ => _ end) => destruct x
    | |- frame _ (when _ _) => apply frame_when
    | |- frame _ (for_each _ _) => apply frame_for_each; intros
    | |- frame _ ?x => let h := head_of x in progress unfold h
    end ].
Ltac solve_view := intros; repeat view_step.

Section frames.
Context {W K P : Type} `{!World W, !Kernel K, !BoostPool P, !PoolFrame P} (cfg : config).

(** *** Operations that leave the callbacks alone *)

Lemma send_wrs_view w cs : frame view (Socket.send_wrs (W := office W K) (P := P) w cs).
Proof using Type. induction cs; cbn [Socket.send_wrs]; solve_view. Qed.
Lemma tx_chunks_of_view l : frame view (Socket.tx_chunks_of (W := office W K) (P := P) l).
Proof using Type. induction l; cbn [Socket.tx_chunks_of]; solve_view. Qed.
#[local] Hint Resolve send_wrs_view tx_chunks_of_view : frames.
Lemma post_work_request_view s cs : frame view (Socket.post_work_request (W := office W K) (P := P) s cs).
Proof using Type. solve_view. Qed.
#[local] Hint Resolve post_work_request_view : frames.
Lemma submit_view s : frame view (Socket.submit (W := office W K) (P := P) s).
Proof using Type. solve_view. Qed.
#[local] Hint Resolve submit_view : frames.
Lemma send_view s bl : frame view (Socket.send (W := office W K) (P := P) s bl).
Proof using Type. solve_view. Qed.
Lemma send_chunks_view s cs : frame view (Socket.send_chunks (W := office W K) (P := P) s cs).
Proof using Type. solve_view. Qed.
Lemma fault_view s : frame view (Socket.fault (W := office W K) (P := P) s).
Proof using Type. solve_view. Qed.
Lemma shutdown_view s : frame view (Socket.shutdown (W := office W K) (P := P) s).
Proof using Type. solve_view. Qed.
Lemma send_cm_loop_view n fd text junk : frame view (QueuePair.send_cm_loop (W := office W K) (P := P) n fd text junk).
Proof using Type. revert text junk. induction n; intros; cbn [QueuePair.send_cm_loop]; solve_view. Qed.
#[local] Hint Resolve fault_view send_cm_loop_view : frames.
Lemma send_cm_meta_view q fd junk : frame view (QueuePair.send_cm_meta (W := office W K) (P := P) cfg q fd junk).
Proof using Type. solve_view. Qed.
Lemma recv_cm_meta_view q fd : frame view (QueuePair.recv_cm_meta (W := office W K) (P := P) q fd).
Proof using Type. solve_view. Qed.
#[local] Hint Resolve send_cm_meta_view recv_cm_meta_view : frames.
Lemma activate_view s : frame view (Socket.activate (W := office W K) (P := P) cfg s).
Proof using Type. solve_view. Qed.
#[local] Hint Resolve activate_view : frames.
Lemma handle_connection_view s junk : frame view (Socket.handle_connection (W := office W K) (P := P) cfg s junk).
Proof using Type. solve_view. Qed.

Lemma init_chunks_view n mr lkey bytes stride c : frame view (init_chunks (W := office W K) (P := P) n mr lkey bytes stride c).
Proof using Type. revert c. induction n; intros; cbn [init_chunks]; solve_view. Qed.
#[local] Hint Resolve init_chunks_view : frames.
Lemma PoolAllocator_malloc_view z : frame view (PoolAllocator_malloc (W := office W K) (P := P) cfg z).
Proof using Type. solve_view. Qed.
Lemma get_rx_buffer_view : frame view (get_rx_buffer (W := office W K) (P := P) cfg).
Proof using All.
  unfold get_rx_buffer, mem_pool_malloc. apply frame_bind; [solve_view|intros p0]. destruct (negb _); [solve_view|].
  unfold slow_malloc, with_context, scope_guard. apply frame_bind; [solve_view|intros _]. apply frame_bind; [|solve_view].
  apply frame_bind; [solve_view|intros p]. apply frame_bind; [|solve_view].
  intros m [c p'] m'. destruct (pool_malloc _ _ p m) as [[[c' p''] m1]|] eqn:E; [|done]. intros [= _ _ <-].
  revert E. apply (pool_malloc_frame _ _ view). intros z x a x'. apply PoolAllocator_malloc_view.
Qed.
#[local] Hint Resolve get_rx_buffer_view : frames.
Lemma collect_view n q acc : frame view (collect (W := office W K) (P := P) cfg n q acc).
Proof using All. revert acc. induction n; intros; cbn [collect]; solve_view. Qed.
#[local] Hint Resolve collect_view : frames.
Lemma post_chunks_view n q : frame view (post_chunks_to_rq (W := office W K) (P := P) cfg n q).
Proof using All. solve_view. Qed.
#[local] Hint Resolve post_chunks_view : frames.
Lemma update_post_backlog_view s : frame view (Socket.update_post_backlog (W := office W K) (P := P) cfg s).
Proof using All. solve_view. Qed.
#[local] Hint Resolve update_post_backlog_view : frames.
Lemma read_loop_view n s buf len l r : frame view (Socket.read_loop (W := office W K) (P := P) cfg n s buf len l r).
Proof using All. revert l r. induction n; intros; destruct l; cbn [Socket.read_loop]; solve_view. Qed.
#[local] Hint Resolve read_loop_view : frames.
Lemma read_buffers_view s buf len : frame view (Socket.read_buffers (W := office W K) (P := P) cfg s buf len).
Proof using All. solve_view. Qed.
Lemma drain_view s : frame view (Socket.drain (W := office W K) (P := P) cfg s).
Proof using All. solve_view. Qed.

(** *** The calls to the network and to the dispatcher in between *)

Lemma generic_connect_view addr baddr nb : frame view (NetHandler.generic_connect (W := office W K) (P := P) cfg addr baddr nb).
Proof using Type. solve_view. Qed.
Lemma set_socket_options_view fd b n : frame view (NetHandler.set_socket_options (W := office W K) (P := P) fd b n).
Proof using Type. solve_view. Qed.
Lemma set_priority_view fd p d : frame view (NetHandler.set_priority (W := office W K) (P := P) fd p d).
Proof using Type. solve_view. Qed.
Lemma schedule_qp_destroy_view n : frame view (Dispatcher.schedule_qp_destroy (W := office W K) (P := P) n).
Proof using Type. solve_view. Qed.
Lemma create_queue_pair_view tx rx ty id : frame view (create_queue_pair (W := office W K) (P := P) cfg tx rx ty id).
Proof using All. solve_view. Qed.

End frames.

(** ** The table of the centre *)

Section table_inv.
Context {K : Type} `{!Kernel K, !Epoll K}.
Implicit Types c : center K.
Abbreviation sockets := (gmap Z (Z * Z * Z)).
Implicit Types hs : sockets.

(** [cb] is called for [fd]. *)
Definition asked c (fd cb : Z) : Prop := (interest c fd).1 = Some cb ∨ (interest c fd).2 = Some cb.

(** [cb] exists and belongs there: it is the centre's own callback for its
    pipe, or one of the callbacks of a socket that exists and has [fd]. *)
Definition live hs c (fd cb : Z) : Prop :=
  cb ≠ 0 ∧ (fd = notify_receive_fd c ∧ cb = notify_handler c ∨ ∃ s rh eh, hs !! s = Some (fd, rh, eh) ∧ (cb = rh ∨ cb = eh)).

(** The centre never crashed, its table agrees with the kernel, and every
    callback in it is live; a socket that has no [read_handler] any more has
    no [established_handler] either. *)
Definition cinv (v : sockets * center K * option crash) : Prop :=
  let '(hs, c, cr) := v in
  cr = None ∧ agree c ∧ 1 ≤ nevent c ∧ (∀ s fd eh, hs !! s = Some (fd, 0, eh) → eh = 0) ∧ ∀ fd cb, asked c fd cb → live hs c fd cb.

Lemma kcall_view {T} (f : center K → T) x : (∀ w c, f (set_kernel w c) = f c) → frame f (kcall x).
Proof. intros Hf c r c'. unfold kcall. destruct (k_call _ _) as [? w]. intros [= _ <-]. apply Hf. Qed.

Definition pipe_of c : Z * Z := (notify_receive_fd c, notify_handler c).
Ltac frame_env_step ::= match goal with |- frame _ (kcall _) => apply kcall_view; intros; reflexivity end.
Lemma create_pipe self fd mask cb : frame pipe_of (EventCenter.create_file_event (W := K) self fd mask cb).
Proof using Type. solve_frame. Qed.
Lemma delete_pipe self fd mask : frame pipe_of (EventCenter.delete_file_event (W := K) self fd mask).
Proof using Type. solve_frame. Qed.

Lemma delete_nevent self fd mask : frame nevent (EventCenter.delete_file_event (W := K) self fd mask).
Proof using Type. solve_frame. Qed.

Lemma nevent_asked c fd cb : agree c → asked c fd cb → 1 ≤ nevent c.
Proof.
  intros (Hn&_) Ha. unfold asked, interest, entry in Ha. destruct (fd <? 0); [naive_solver|].
  destruct (file_events c !! Z.to_nat fd) as [e|] eqn:E; [|naive_solver]. apply lookup_lt_Some in E. lia.
Qed.

Lemma live_pipe hs c c' fd cb : pipe_of c' = pipe_of c → live hs c fd cb → live hs c' fd cb.
Proof. intros [= E1 E2]. unfold live. by rewrite E1, E2. Qed.

Lemma create_inv hs c fd mask cb : cinv (hs, c, None) → 0 ≤ fd < 268435456 → mask = 1 ∨ mask = 3 → live hs c fd cb →
  ∃ c', EventCenter.create_file_event (owner c) fd mask cb c = Ret (0, c') ∧ cinv (hs, c', None).
Proof.
  intros (_&Hag&Hn&Hh&Hl) Hfd Hmask Hcb.
  destruct (create_file_event_run c fd mask cb) as (c'&E&Hag'&Hother&Hthis); [done|lia|unfold mask_ok; lia|done|unfold INT_MAX; lia|].
  exists c'. split; [done|]. pose proof (create_pipe _ _ _ _ _ _ _ E) as Hp.
  assert (∀ x cb', asked c' x cb' → live hs c' x cb') as Hl'.
  { intros x cb' Ha. apply (live_pipe _ c); [done|]. destruct (decide (x = fd)) as [->|Hne]; [|apply Hl; unfold asked; by rewrite <- Hother].
    unfold asked in Ha. rewrite Hthis in Ha. destruct (_ =? mask); [by apply Hl|].
    destruct Hmask as [-> | ->]; cbn in Ha; destruct Ha as [Ha|Ha]; try (injection Ha as <-; exact Hcb); apply Hl; by right. }
  split_and!; try done. apply (nevent_asked c' fd (default 0 (interest c' fd).1)); [done|]. left. rewrite Hthis.
  destruct (Z.eqb_spec (fe_mask (default file_event0 (entry c fd))) mask) as [Em|_]; [|by destruct Hmask as [-> | ->]].
  unfold interest. destruct (entry c fd) as [e|]; cbn in *; [rewrite Em|]; by destruct Hmask as [-> | ->].
Qed.

Lemma delete_inv hs c fd : cinv (hs, c, None) → 0 ≤ fd →
  ∃ c', EventCenter.delete_file_event (owner c) fd (Z.lor EVENT_READABLE EVENT_WRITABLE) c = Ret (tt, c') ∧ cinv (hs, c', None) ∧ ∀ cb, ¬ asked c' fd cb.
Proof.
  intros (_&Hag&Hn&Hh&Hl) Hfd. destruct (delete_file_event_run c fd 3) as (c'&E&Hag'&Hother&Hthis); [done|done|unfold mask_ok; lia|].
  exists c'. pose proof (delete_pipe _ _ _ _ _ _ E) as Hp.
  assert (∀ cb, ¬ asked c' fd cb) as Hnone by (intros cb Ha; unfold asked in Ha; rewrite Hthis in Ha; cbn in Ha; naive_solver).
  split_and!; [done|split_and!; try done|done].
  - by rewrite (delete_nevent _ _ _ _ _ _ E).
  - intros x cb Ha. apply (live_pipe _ c); [done|]. destruct (decide (x = fd)) as [->|Hne]; [by apply Hnone in Ha|]. apply Hl. unfold asked. by rewrite <- Hother.
Qed.

(** A socket changes, comes or goes. *)
Lemma cinv_insert hs c s fd rh eh : cinv (hs, c, None) → (rh = 0 → eh = 0) →
  (∀ fd0 rh0 eh0 cb, hs !! s = Some (fd0, rh0, eh0) → asked c fd0 cb → cb ≠ 0 → cb = rh0 ∨ cb = eh0 → fd0 = fd ∧ (cb = rh ∨ cb = eh)) →
  cinv (<[s := (fd, rh, eh)]> hs, c, None).
Proof.
  intros (_&Hag&Hn&Hh&Hl) Hz Hkeep. split_and!; try done.
  - intros s' fd' eh' Hs. apply lookup_insert_Some in Hs as [[_ [= _ -> <-]]|[_ Hs]]; [by apply Hz|by eapply Hh].
  - intros x cb Ha. destruct (Hl x cb Ha) as [H0 [?|(s'&rh'&eh'&Hs&Hcb)]]; (split; [done|]); [by left|right].
    destruct (decide (s = s')) as [<-|Hne]; [|exists s', rh', eh'; by rewrite lookup_insert_ne].
    destruct (Hkeep _ _ _ cb Hs Ha H0 Hcb) as [-> Hcb']. exists s, rh, eh. by rewrite lookup_insert_eq.
Qed.
Lemma cinv_delete hs c s : cinv (hs, c, None) →
  (∀ fd rh eh cb, hs !! s = Some (fd, rh, eh) → asked c fd cb → cb ≠ 0 → cb ≠ rh ∧ cb ≠ eh) → cinv (delete s hs, c, None).
Proof.
  intros (_&Hag&Hn&Hh&Hl) Hgone. split_and!; try done.
  - intros s' fd' eh' Hs. apply lookup_delete_Some in Hs as [_ Hs]. by eapply Hh.
  - intros x cb Ha. destruct (Hl x cb Ha) as [H0 [?|(s'&rh'&eh'&Hs&Hcb)]]; (split; [done|]); [by left|right].
    exists s', rh', eh'. rewrite lookup_delete_ne; [done|]. intros <-. destruct (Hgone _ _ _ cb Hs Ha H0). tauto.
Qed.
Lemma asked_negative c fd cb : fd < 0 → ¬ asked c fd cb.
Proof. intros Hfd. unfold asked, interest, entry. rewrite (proj2 (Z.ltb_lt fd 0)) by done. cbn. naive_solver. Qed.
End table_inv.

(** ** The operations on the callbacks *)

Section life.
Context {W K P : Type} `{!World W, !Kernel K, !Epoll K, !BoostPool P, !PoolFrame P} (cfg : config).
Abbreviation mach := (mach (office W K) P).
Implicit Types m : mach.

Lemma wlp_view {A} (x : ST mach A) Q m : frame view x → (∀ a m', view m' = view m → Q a m') → wlp x Q m.
Proof. intros Hf HQ. unfold wlp. destruct (x m) as [[a m']|] eqn:E; [|done]. apply HQ. by apply (Hf _ _ _ E). Qed.
Lemma wlp_get_sock s Q m : (∀ k, socks m !! s = Some k → Q k m) → wlp (get_sock s) Q m.
Proof. intros H. unfold get_sock. wlp_step. wlp_step. wlp_step. by apply H. Qed.
Lemma wlp_on_sock s f Q m : (∀ k, socks m !! s = Some k → Q tt (set_socks (<[s := f k]> (socks m)) m)) → wlp (on_sock s f) Q m.
Proof. intros H. unfold on_sock. wlp_step. apply wlp_get_sock. intros k Hk. unfold put_sock. wlp_step. by apply H. Qed.

Lemma view_put s k m : view (set_socks (<[s := k]> (socks m)) m) = (<[s := handlers k]> (handlers <$> socks m), of_center (world m), of_crash (world m)).
Proof. unfold view. cbn. by rewrite fmap_insert. Qed.
Lemma view_sock s k m : socks m !! s = Some k → (view m).1.1 !! s = Some (handlers k).
Proof. intros H. cbn. by rewrite lookup_fmap, H. Qed.

(** A registration and a removal through the World *)
Lemma wlp_create w fd mask cb hs c Q m : view m = (hs, c, None) → cinv (hs, c, None) → 0 ≤ fd < 268435456 → mask = 1 ∨ mask = 3 → live hs c fd cb →
  (∀ a m' c', view m' = (hs, c', None) → cinv (hs, c', None) → Q a m') → wlp (sysret (center_create_file_event w fd mask cb)) Q m.
Proof.
  intros [= Hs Hc Hcr] Hinv Hfd Hmask Hl HQ. destruct (create_inv hs c fd mask cb Hinv Hfd Hmask Hl) as (c'&E&Hinv').
  unfold sysret. wlp_step. unfold wlp, sys. cbn. unfold ask. rewrite Hc, E. apply (HQ _ _ c'); [|done]. unfold view. cbn. by rewrite Hs, Hcr.
Qed.
Lemma wlp_delete w fd hs c Q m : view m = (hs, c, None) → cinv (hs, c, None) → 0 ≤ fd →
  (∀ a m' c', view m' = (hs, c', None) → cinv (hs, c', None) → (∀ cb, ¬ asked c' fd cb) → Q a m') →
  wlp (sysret (center_delete_file_event w fd (Z.lor EVENT_READABLE EVENT_WRITABLE))) Q m.
Proof.
  intros [= Hs Hc Hcr] Hinv Hfd HQ. destruct (delete_inv hs c fd Hinv Hfd) as (c'&E&Hinv'&Hnone).
  unfold sysret. wlp_step. unfold wlp, sys. cbn. unfold ask. rewrite Hc, E. apply (HQ _ _ c'); [|done..]. unfold view. cbn. by rewrite Hs, Hcr.
Qed.

(** [cleanup]: the socket keeps its descriptor, and no callback that can still be called *)
Lemma cleanup_inv s m hs c : view m = (hs, c, None) → cinv (hs, c, None) →
  wlp (Socket.cleanup s) (λ _ m', cinv (view m') ∧ ∀ k, socks m' !! s = Some k → established_handler k = 0 ∧ (0 ≤ tcp_fd k → read_handler k = 0)) m.
Proof using All.
  intros Hv Hinv. unfold Socket.cleanup. wlp_step. apply wlp_get_sock. intros k Hk.
  assert (hs !! s = Some (handlers k)) as Hhs by (apply view_sock in Hk; by rewrite Hv in Hk).
  wlp_step. destruct (negb (read_handler k =? 0) && (0 <=? tcp_fd k)) eqn:E.
  - apply andb_true_iff in E as [_ Hfd%Z.leb_le]. wlp_step.
    apply (wlp_delete _ _ hs c); [done..|]. intros _ m1 c1 Hv1 Hinv1 Hnone. apply wlp_on_sock. intros k1 Hk1. apply wlp_on_sock.
    intros k2 Hk2. cbn in Hk2. rewrite lookup_insert_eq in Hk2. injection Hk2 as <-.
    assert (handlers k1 = handlers k) as [= Ef Er Ee] by (apply view_sock in Hk1; rewrite Hv1 in Hk1; cbn in Hk1; congruence).
    split; [|intros k3; cbn; rewrite lookup_insert_eq; by intros [= <-]].
    rewrite view_put. cbn [socks set_socks world]. rewrite fmap_insert, insert_insert_eq. injection Hv1 as -> -> ->.
    apply cinv_insert; [done|done|]. intros fd0 rh0 eh0 cb H0 Ha. rewrite Hhs in H0. injection H0 as <- _ _. by apply Hnone in Ha.
  - wlp_step. apply wlp_on_sock. intros k1 Hk1. assert (k1 = k) as -> by congruence. rewrite view_put. injection Hv as -> -> ->. split.
    + unfold handlers at 1. cbn [tcp_fd read_handler established_handler set_established_handler]. apply cinv_insert; [done|done|].
      intros fd0 rh0 eh0 cb H0 Ha Hcb. rewrite Hhs in H0. injection H0 as <- <- <-. apply andb_false_iff in E as [E%negb_false_iff%Z.eqb_eq|E%Z.leb_gt].
      * destruct Hinv as (_&_&_&Hh&_). unfold handlers in Hhs. rewrite E in Hhs. apply Hh in Hhs. rewrite Hhs, E. naive_solver.
      * by apply asked_negative in Ha.
    + intros k3. cbn. rewrite lookup_insert_eq. intros [= <-]. cbn. split; [done|]. intros Hfd.
      apply andb_false_iff in E as [E%negb_false_iff%Z.eqb_eq|E%Z.leb_gt]; [done|lia].
Qed.

(** [handle_connection_established] *)
Lemma established_inv s flt junk m k hs c : view m = (hs, c, None) → cinv (hs, c, None) → socks m !! s = Some k →
  0 ≤ tcp_fd k < 268435456 → read_handler k ≠ 0 →
  wlp (Socket.handle_connection_established cfg s flt junk) (λ _ m', ∃ c', view m' = (hs, c', None) ∧ cinv (hs, c', None)) m.
Proof using All.
  intros Hv Hinv Hk Hfd Hrh. unfold Socket.handle_connection_established. wlp_step. apply wlp_get_sock. intros k' Hk'. assert (k' = k) as -> by congruence.
  assert (hs !! s = Some (handlers k)) as Hhs by (apply view_sock in Hk; by rewrite Hv in Hk).
  wlp_step. apply (wlp_delete _ _ hs c); [done..|lia|]. intros _ m1 c1 Hv1 Hinv1 _.
  assert (∀ b : bool, frame view (if b then Socket.fault (W := office W K) (P := P) s else mret tt)) as Hflt by (intros []; [apply fault_view|apply frame_ret]).
  destruct (connected k =? 1).
  { wlp_step. apply wlp_view; [apply Hflt|]. intros _ m2 Hv2. wlp_step. exists c1. by rewrite Hv2. }
  wlp_step. apply wlp_view; [solve_view|]. intros _ m2 Hv2. wlp_step. apply wlp_view; [apply send_cm_meta_view|]. intros r m3 Hv3. destruct (r <? 0).
  { wlp_step. apply wlp_view; [apply Hflt|]. intros _ m4 Hv4. wlp_step. exists c1. split; congruence. }
  wlp_step. apply (wlp_create _ _ _ _ hs c1); [congruence|done|done|by left| |].
  { split; [done|]. right. exists s, (read_handler k), (established_handler k). auto. }
  intros _ m4 c4 Hv4 Hinv4. wlp_step. eauto.
Qed.

(** It leaves the handlers of all sockets as they are, whatever the centre answers. *)
Definition all_handlers m : gmap Z (Z * Z * Z) := handlers <$> socks m.
Lemma all_handlers_sock s m x : all_handlers m !! s = Some x → ∃ k, socks m !! s = Some k ∧ handlers k = x.
Proof using Type. unfold all_handlers. rewrite lookup_fmap. destruct (socks m !! s) as [k|]; [|done]. intros [= <-]. eauto. Qed.
Lemma frame_weaken {A} (x : ST mach A) : frame view x → frame all_handlers x.
Proof using Type. intros H m a m' E. apply H in E. by injection E. Qed.
Lemma frame_any_sysret x : frame all_handlers (sysret (W := office W K) (P := P) x).
Proof using Type. unfold sysret. apply frame_bind; [|intros; apply frame_ret]. apply frame_sys. done. Qed.
Lemma established_handlers s flt junk : frame all_handlers (Socket.handle_connection_established (W := office W K) (P := P) cfg s flt junk).
Proof using Type.
  assert (∀ b : bool, frame all_handlers (if b then Socket.fault (W := office W K) (P := P) s else mret tt)) as Hflt
    by (intros []; [apply frame_weaken, fault_view|apply frame_ret]).
  unfold Socket.handle_connection_established. apply frame_bind; [apply frame_weaken; solve_view|intros k]. apply frame_bind; [apply frame_any_sysret|intros _].
  destruct (connected k =? 1); [apply frame_bind; [apply Hflt|intros; apply frame_ret]|]. apply frame_bind; [apply frame_weaken; solve_view|intros _].
  apply frame_bind; [apply frame_weaken, send_cm_meta_view|intros r]. destruct (r <? 0); [apply frame_bind; [apply Hflt|intros; apply frame_ret]|].
  apply frame_bind; [apply frame_any_sysret|intros; apply frame_ret].
Qed.

(** [try_connect] of a socket that has no descriptor yet *)
Lemma try_connect_inv s addr opts junk m k hs c : view m = (hs, c, None) → cinv (hs, c, None) → socks m !! s = Some k →
  tcp_fd k = -1 → established_handler k ≠ 0 →
  wlp (Socket.try_connect cfg s addr opts junk) (λ _ m', (∀ k', socks m' !! s = Some k' → tcp_fd k' < 268435456) → cinv (view m')) m.
Proof using All.
  intros Hv Hinv Hk Hfd Heh. assert (hs !! s = Some (handlers k)) as Hhs by (apply view_sock in Hk; by rewrite Hv in Hk).
  assert (read_handler k ≠ 0) as Hrh.
  { intros E. destruct Hinv as (_&_&_&Hh&_). unfold handlers in Hhs. rewrite E in Hhs. by apply Hh in Hhs. }
  assert (∀ fd, cinv (<[s := (fd, read_handler k, established_handler k)]> hs, c, None)) as Hset.
  { intros fd. apply cinv_insert; [done|done|]. intros fd0 rh0 eh0 cb H0 Ha. rewrite Hhs in H0. injection H0 as <- _ _. apply asked_negative in Ha; [done|lia]. }
  unfold Socket.try_connect. wlp_step. apply wlp_view; [destruct (o_nonblock opts); apply generic_connect_view|]. intros fd m1 Hv1. wlp_step.
  apply wlp_on_sock. intros k1 Hk1. set (m2 := set_socks _ m1).
  assert (handlers k1 = handlers k) as [= E1 E2 E3] by (apply view_sock in Hk1; rewrite Hv1, Hv in Hk1; cbn in Hk1; congruence).
  assert (view m2 = (<[s := (fd, read_handler k, established_handler k)]> hs, c, None)) as Hv2.
  { unfold m2. rewrite view_put. unfold handlers at 1. cbn [tcp_fd read_handler established_handler set_tcp_fd]. rewrite E2, E3. rewrite Hv in Hv1. by injection Hv1 as -> -> ->. }
  destruct (Z.ltb_spec fd 0) as [|Hfd0]. { wlp_auto. intros _. rewrite Hv2. apply Hset. }
  wlp_step. apply wlp_view; [apply set_socket_options_view|]. intros r m3 Hv3. destruct (r <? 0).
  { wlp_step. apply wlp_view; [solve_view|]. intros _ m4 Hv4. wlp_step. apply wlp_on_sock. intros k4 Hk4. wlp_auto. intros _. rewrite view_put.
    assert (handlers k4 = (fd, read_handler k, established_handler k)) as [= _ F2 F3].
    { apply view_sock in Hk4. rewrite Hv4, Hv3, Hv2 in Hk4. cbn in Hk4. rewrite lookup_insert_eq in Hk4. congruence. }
    rewrite Hv3, Hv2 in Hv4. injection Hv4 as -> -> ->. unfold handlers. cbn [tcp_fd read_handler established_handler set_tcp_fd].
    rewrite insert_insert_eq, F2, F3. apply Hset. }
  wlp_step. apply wlp_view; [apply set_priority_view|]. intros _ m4 Hv4. assert (view m4 = view m2) as Hv4' by congruence. rewrite Hv2 in Hv4'.
  assert (∀ m5, all_handlers m5 = all_handlers m4 → (∀ k', socks m5 !! s = Some k' → tcp_fd k' < 268435456) → fd < 268435456) as Hbig.
  { intros m5 E5 Hsmall. destruct (all_handlers_sock s m5 (fd, read_handler k, established_handler k)) as (k5&Hk5&[= <- _ _]); [|by apply Hsmall].
    rewrite E5. injection Hv4' as E _ _. unfold all_handlers. by rewrite E, lookup_insert_eq. }
  destruct (o_nonblock opts).
  - wlp_step. apply wlp_get_sock. intros k4 Hk4.
    assert (handlers k4 = (fd, read_handler k, established_handler k)) as [= F1 F2 F3].
    { apply view_sock in Hk4. rewrite Hv4' in Hk4. cbn in Hk4. rewrite lookup_insert_eq in Hk4. congruence. }
    wlp_step. destruct (decide (fd < 268435456)) as [Hs|Hs].
    + apply (wlp_create _ _ _ _ _ _ _ _ Hv4' (Hset fd)); [lia|by right| |].
      { split; [congruence|]. right. exists s, (read_handler k), (established_handler k). rewrite lookup_insert_eq. auto. }
      intros _ m5 c5 Hv5 Hinv5. wlp_step. intros _. by rewrite Hv5.
    + unfold wlp. destruct (sysret _ m4) as [[a m5]|] eqn:E5; [|done]. apply wlp_ret. intros Hsmall. exfalso. apply Hs.
      apply frame_any_sysret in E5. by apply (Hbig m5).
  - destruct (decide (fd < 268435456)) as [Hs|Hs].
    + assert (∃ k4, socks m4 !! s = Some k4 ∧ handlers k4 = (fd, read_handler k, established_handler k)) as (k4&Hk4&[= F1 F2 F3]).
      { apply all_handlers_sock. injection Hv4' as E _ _. unfold all_handlers. by rewrite E, lookup_insert_eq. }
      eapply wlp_mono; [apply (established_inv s false junk m4 k4 _ _ Hv4' (Hset fd) Hk4); [lia|congruence]|]. intros _ m5 (c5&Hv5&Hi5) _. by rewrite Hv5.
    + unfold wlp. destruct (Socket.handle_connection_established cfg s false junk m4) as [[a m5]|] eqn:E5; [|done]. intros Hsmall. exfalso. apply Hs.
      apply established_handlers in E5. by apply (Hbig m5).
Qed.

(** [set_accept_fd] and the function it gives to the centre *)
Lemma dispatch_inv hs c h : cinv (hs, c, None) →
  ∃ c', EventCenter.dispatch_event_external (owner c) h c = Ret (tt, c') ∧ cinv (hs, c', None).
Proof using Type.
  intros Hinv. unfold EventCenter.dispatch_event_external, EventCenter.enqueue_external, mbind, ST_bind, gets, modify, mret, ST_ret.
  destruct ((0 <? external_num_events c) && bool_decide (last (external_events c) = Some h)).
  - cbn [Z.eqb andb]. by exists c.
  - cbn [owner set_external_num_events set_external_events]. rewrite Z.eqb_refl, andb_false_r. eexists. split; [reflexivity|]. exact Hinv.
Qed.
Lemma set_accept_fd_inv s sd m k hs c : view m = (hs, c, None) → cinv (hs, c, None) → socks m !! s = Some k → tcp_fd k = -1 →
  wlp (Socket.set_accept_fd s sd) (λ _ m', cinv (view m')) m.
Proof using Type.
  intros Hv Hinv Hk Hfd. assert (hs !! s = Some (handlers k)) as Hhs by (apply view_sock in Hk; by rewrite Hv in Hk).
  unfold Socket.set_accept_fd. wlp_step. apply wlp_on_sock. intros k1 Hk1. assert (k1 = k) as -> by congruence. set (m1 := set_socks _ m).
  assert (view m1 = (<[s := (sd, read_handler k, established_handler k)]> hs, c, None)) as Hv1.
  { unfold m1. rewrite view_put. by injection Hv as -> -> ->. }
  assert (cinv (<[s := (sd, read_handler k, established_handler k)]> hs, c, None)) as Hinv1.
  { apply cinv_insert; [done| |].
    - intros E. destruct Hinv as (_&_&_&Hh&_). unfold handlers in Hhs. rewrite E in Hhs. by apply Hh in Hhs.
    - intros fd0 rh0 eh0 cb H0 Ha. rewrite Hhs in H0. injection H0 as <- _ _. apply asked_negative in Ha; [done|lia]. }
  wlp_step. apply wlp_get_sock. intros k2 _. wlp_step. unfold sysret. wlp_step. destruct (dispatch_inv _ _ s Hinv1) as (c'&Ec&Hinv').
  unfold wlp, sys. cbn. unfold ask. injection Hv1 as Hs Hc Hcr. cbn in Hc, Hcr. rewrite Hc, Ec. cbn. unfold view. cbn in *. by rewrite Hs, Hcr.
Qed.
Lemma accept_callback_inv s m k hs c : view m = (hs, c, None) → cinv (hs, c, None) → socks m !! s = Some k → 0 ≤ tcp_fd k < 268435456 → read_handler k ≠ 0 →
  wlp (Socket.accept_fd_callback s) (λ _ m', cinv (view m')) m.
Proof using Type.
  intros Hv Hinv Hk Hfd Hrh. assert (hs !! s = Some (handlers k)) as Hhs by (apply view_sock in Hk; by rewrite Hv in Hk).
  unfold Socket.accept_fd_callback. wlp_step. apply wlp_get_sock. intros k1 Hk1. assert (k1 = k) as -> by congruence. wlp_step.
  apply (wlp_create _ _ _ _ hs c); [done|done|done|by left| |intros _ m1 c1 Hv1 Hi1; wlp_step; by rewrite Hv1].
  split; [done|]. right. exists s, (read_handler k), (established_handler k). auto.
Qed.

(** [read] may clean up. *)
Lemma read_inv s buf len m : cinv (view m) → wlp (Socket.read cfg s buf len) (λ _ m', cinv (view m')) m.
Proof using All.
  intros Hinv. unfold Socket.read. wlp_step. apply wlp_get_sock. intros k _. destruct (negb _); [by wlp_step|]. destruct (_ && _); [by wlp_step|].
  wlp_step. apply wlp_view; [apply read_buffers_view|]. intros n m1 Hv1. wlp_step. apply wlp_get_sock. intros k1 _. wlp_step.
  rewrite <- Hv1 in Hinv. clear m Hv1. apply (wlp_mono _ (λ _ m', cinv (view m'))).
  - destruct (_ && _); [|by wlp_step]. wlp_step. apply wlp_view; [solve_view|]. intros _ m2 Hv2. rewrite <- Hv2 in Hinv. wlp_step.
    destruct (view m2) as [[hs c] cr] eqn:Ev. destruct (Hinv) as (->&_). eapply wlp_mono; [by apply (cleanup_inv s m2 hs c)|]. intros _ m3 [H3 _]. wlp_step.
    apply wlp_view; [apply submit_view|]. intros _ m4 Hv4. wlp_step. by rewrite Hv4.
  - intros _ m2 H2. wlp_step. apply wlp_get_sock. intros k2 _. wlp_step. apply wlp_view; [destruct (bool_decide _); solve_view|]. intros _ m3 Hv3.
    wlp_step. apply wlp_get_sock. intros k3 _. rewrite <- Hv3 in H2. destruct (_ && _); by wlp_step.
Qed.

(** The destructor *)
Lemma delete_socket_inv s m : cinv (view m) → wlp (Socket.delete_socket s) (λ _ m', cinv (view m') ∧ socks m' !! s = None) m.
Proof using All.
  intros Hinv. destruct (view m) as [[hs c] cr] eqn:Ev. destruct (Hinv) as (->&_). unfold Socket.delete_socket. wlp_step.
  eapply wlp_mono; [by apply (cleanup_inv s m hs c)|]. intros _ m1 [H1 Hgone]. wlp_step. apply wlp_get_sock. intros k Hk. destruct (Hgone _ Hk) as [He Hr].
  assert ((view m1).1.1 !! s = Some (handlers k)) as Hs by by apply view_sock. clear Ev Hinv Hgone Hk.
  repeat first [wlp_step; apply wlp_view; [solve_view|]; let Hv := fresh in intros ? ? Hv; rewrite <- Hv in H1, Hs; clear Hv].
  wlp_step. split; [|cbn; by rewrite lookup_delete_eq].
  match goal with |- cinv (view (set_socks _ ?x)) =>
    change (view (set_socks (delete s (socks x)) x)) with (handlers <$> delete s (socks x), of_center (world x), of_crash (world x)); destruct (H1) as (Hcr&_) end.
  rewrite fmap_delete, Hcr. unfold view in H1. rewrite Hcr in H1. apply cinv_delete; [done|]. intros fd rh eh cb H0 Ha Hcb.
  cbn in Hs. rewrite Hs in H0. injection H0 as <- <- <-. destruct (decide (0 ≤ tcp_fd k)) as [Hfd|Hfd]; [by rewrite He, Hr|].
  apply asked_negative in Ha; [done|lia].
Qed.

(** The constructor, when [new] returns an address that is not in use *)
Lemma create_socket_inv w m : cinv (view m) →
  wlp (Socket.create cfg w) (λ s m', socks m !! s = None → (∀ k, socks m' !! s = Some k → read_handler k ≠ 0) → cinv (view m')) m.
Proof using All.
  intros Hinv. destruct (view m) as [[hs c] cr] eqn:Ev. destruct (Hinv) as (->&_). unfold Socket.create.
  wlp_step. apply wlp_view; [solve_view|]. intros s m1 V1. wlp_step. apply wlp_view; [solve_view|]. intros rh m2 V2.
  wlp_step. apply wlp_view; [solve_view|]. intros eh m3 V3. wlp_step. unfold put_sock. wlp_step. set (m4 := set_socks _ m3).
  assert (view m4 = (<[s := (-1, rh, eh)]> hs, c, None)) as V4.
  { unfold m4. rewrite view_put. assert (view m3 = (hs, c, None)) as V by congruence. by injection V as -> -> ->. }
  apply (wlp_mono _ (λ a m', a = s ∧ view m' = view m4)).
  - clear -PoolFrame0. destruct (m_use_rdma_cm_ cfg); [by wlp_step|]. wlp_step. wlp_step. wlp_step. apply wlp_view; [apply create_queue_pair_view|]. intros q m5 V5.
    wlp_step. apply wlp_view; [solve_view|]. intros _ m6 V6. destruct (q =? 0); [wlp_step; split; congruence|].
    wlp_step. apply wlp_view; [solve_view|]. intros n m7 V7. wlp_step. apply wlp_view; [solve_view|]. intros _ m8 V8.
    wlp_step. apply wlp_view; [solve_view|]. intros fd m9 V9. wlp_step. apply wlp_view; [solve_view|]. intros _ m10 V10.
    wlp_step. apply wlp_view; [solve_view|]. intros _ m11 V11. wlp_step. apply wlp_view; [solve_view|]. intros _ m12 V12.
    wlp_step. apply wlp_view; [solve_view|]. intros _ m13 V13. wlp_step. split; congruence.
  - intros a m' [-> V'] Hnone Hrh. rewrite V', V4. destruct (all_handlers_sock s m' (-1, rh, eh)) as (k&Hk&[= _ E _]).
    { rewrite V4 in V'. injection V' as V' _ _. unfold all_handlers. by rewrite V', lookup_insert_eq. }
    apply cinv_insert; [done|intros E0; by destruct (Hrh k Hk); rewrite E|]. intros fd0 rh0 eh0 cb H0.
    injection Ev as <- _ _. by rewrite lookup_fmap, Hnone in H0.
Qed.

(** ** Every run *)

(** What the thread of the worker does with its sockets. A socket is connected
    or given a descriptor once, before it is cleaned up; the function that
    [set_accept_fd] gave to the centre and the callback for an established
    connection run while their socket has its callbacks; descriptors are
    below 2^28. The other operations need nothing. *)
Inductive cb_step m : mach → Prop :=
  | cb_create w s m' : Socket.create cfg w m = Ret (s, m') → socks m !! s = None →
      (∀ k, socks m' !! s = Some k → read_handler k ≠ 0) → cb_step m m'
  | cb_connect s k addr opts junk r m' : socks m !! s = Some k → tcp_fd k = -1 → established_handler k ≠ 0 →
      Socket.try_connect cfg s addr opts junk m = Ret (r, m') → (∀ k', socks m' !! s = Some k' → tcp_fd k' < 268435456) → cb_step m m'
  | cb_accept s k sd m' : socks m !! s = Some k → tcp_fd k = -1 → Socket.set_accept_fd s sd m = Ret (tt, m') → cb_step m m'
  | cb_accepted s k m' : socks m !! s = Some k → 0 ≤ tcp_fd k < 268435456 → read_handler k ≠ 0 →
      Socket.accept_fd_callback s m = Ret (tt, m') → cb_step m m'
  | cb_established s k junk r m' : socks m !! s = Some k → asked (of_center (world m)) (tcp_fd k) (established_handler k) →
      tcp_fd k < 268435456 → Socket.handle_connection_established cfg s true junk m = Ret (r, m') → cb_step m m'
  | cb_connection s junk m' : Socket.handle_connection cfg s junk m = Ret (tt, m') → cb_step m m'
  | cb_read s buf len r m' : Socket.read cfg s buf len m = Ret (r, m') → cb_step m m'
  | cb_send s bl r m' : Socket.send s bl m = Ret (r, m') → cb_step m m'
  | cb_send_chunks s cs r m' : Socket.send_chunks s cs m = Ret (r, m') → cb_step m m'
  | cb_drain s m' : Socket.drain cfg s m = Ret (tt, m') → cb_step m m'
  | cb_shutdown s m' : Socket.shutdown s m = Ret (tt, m') → cb_step m m'
  | cb_fault s m' : Socket.fault s m = Ret (tt, m') → cb_step m m'
  | cb_cleanup s m' : Socket.cleanup s m = Ret (tt, m') → cb_step m m'
  | cb_delete s m' : Socket.delete_socket s m = Ret (tt, m') → cb_step m m'.

Lemma cb_step_inv m m' : cinv (view m) → cb_step m m' → cinv (view m').
Proof using All.
  intros Hinv Hs. destruct (view m) as [[hs c] cr] eqn:Ev. destruct (Hinv) as (->&_).
  destruct Hs as [w s m' E Hn Hr|s k addr opts junk r m' Hk Hfd Heh E Hs|s k sd m' Hk Hfd E|s k m' Hk Hfd Hrh E|s k junk r m' Hk Ha Hfd E|
    s junk m' E|s buf len r m' E|s bl r m' E|s cs r m' E|s m' E|s m' E|s m' E|s m' E|s m' E].
  - rewrite <- Ev in Hinv. by apply (wlp_elim _ _ _ _ _ (create_socket_inv w m Hinv) E).
  - by apply (wlp_elim _ _ _ _ _ (try_connect_inv s addr opts junk m k hs c Ev Hinv Hk Hfd Heh) E).
  - by apply (wlp_elim _ _ _ _ _ (set_accept_fd_inv s sd m k hs c Ev Hinv Hk Hfd) E).
  - by apply (wlp_elim _ _ _ _ _ (accept_callback_inv s m k hs c Ev Hinv Hk Hfd Hrh) E).
  - assert (0 ≤ tcp_fd k) by (destruct (decide (0 ≤ tcp_fd k)) as [|Hneg]; [done|apply asked_negative in Ha; [done|lia]]).
    assert (read_handler k ≠ 0) as Hrh.
    { intros E0. injection Ev as Eh Ec Ecr. rewrite Ec in Ha. destruct Hinv as (_&_&_&Hh&Hl). destruct (Hl _ _ Ha) as [Hne _]. apply Hne.
      apply (Hh s (tcp_fd k)). rewrite <- Eh, lookup_fmap, Hk. cbn. unfold handlers. by rewrite E0. }
    destruct (wlp_elim _ _ _ _ _ (established_inv s true junk m k hs c Ev Hinv Hk (conj H Hfd) Hrh) E) as (c'&->&?). done.
  - apply handle_connection_view in E. by rewrite E, Ev.
  - rewrite <- Ev in Hinv. by apply (wlp_elim _ _ _ _ _ (read_inv s buf len m Hinv) E).
  - apply send_view in E. by rewrite E, Ev.
  - apply send_chunks_view in E. by rewrite E, Ev.
  - apply drain_view in E. by rewrite E, Ev.
  - apply shutdown_view in E. by rewrite E, Ev.
  - apply fault_view in E. by rewrite E, Ev.
  - by apply (wlp_elim _ _ _ _ _ (cleanup_inv s m hs c Ev Hinv) E).
  - rewrite <- Ev in Hinv. by apply (wlp_elim _ _ _ _ _ (delete_socket_inv s m Hinv) E).
Qed.

(** C11: In every run that starts with a centre that watches at most its own pipe,
    no call to the centre crashes, and every callback the centre would call
    for a descriptor is its own, or belongs to a socket that exists, has not
    deleted it, and has that descriptor. So no callback is used after it is
    deleted, and none of a socket that was destroyed. *)
Theorem callbacks_live m m' :
  socks m = ∅ → of_crash (world m) = None → agree (of_center (world m)) → 1 ≤ nevent (of_center (world m)) →
  (∀ fd cb, asked (of_center (world m)) fd cb →
    cb ≠ 0 ∧ fd = notify_receive_fd (of_center (world m)) ∧ cb = notify_handler (of_center (world m))) →
  rtc cb_step m m' →
  of_crash (world m') = None ∧ agree (of_center (world m')) ∧
  ∀ fd cb, asked (of_center (world m')) fd cb → cb ≠ 0 ∧
    (fd = notify_receive_fd (of_center (world m')) ∧ cb = notify_handler (of_center (world m')) ∨
     ∃ s k, socks m' !! s = Some k ∧ tcp_fd k = fd ∧ (cb = read_handler k ∨ cb = established_handler k)).
Proof using All.
  intros Hs Hcr Hag Hn Hasked Hr. assert (cinv (view m')) as (H1&H2&_&_&H5).
  { refine (rtc_invariant cb_step (λ m, cinv (view m)) _ _ cb_step_inv _ Hr). unfold view. rewrite Hs, fmap_empty. split_and!; [done..| |].
    - intros s fd eh He. by rewrite lookup_empty in He.
    - intros fd cb Ha. destruct (Hasked fd cb Ha) as (?&?&?). split; [done|]. by left. }
  split_and!; [done..|]. intros fd cb Ha. destruct (H5 fd cb Ha) as [H0 [?|(s&rh&eh&Hx&Hcb)]]; (split; [done|]); [by left|right].
  destruct (all_handlers_sock s m' _ Hx) as (k&Hk&[= <- <- <-]). eauto.
Qed.

End life.

(** ** Witness: a socket is made and connects *)

Definition demo_center : center (gmap Z Z) := set_notify_handler 40 (set_notify_receive_fd 0 center2).
Definition cm_config : config := mkConfig true false false [] 0 0 0 1 128 4 1024 8 128 true 0 false 0 0 0 0.
Definition demo_office : office script (gmap Z Z) :=
  mkOffice (mkScript [(900, [], 0); (901, [], 0); (902, [], 0); (7, [], 0)] 0 []) demo_center None.
Definition demo_start : mach (office script (gmap Z Z)) list_pool :=
  mkMach demo_office ∅ ∅ ∅ 0 (mkMM None 0 false false (mkPool [] 184 4)) ib0 ∅ ∅ ∅ disp0 (logger_of RDMADispatcher_logger) ∅ ∅.
Definition demo_created : mach (office script (gmap Z Z)) list_pool := run (Socket.create cm_config 1) demo_start.
Definition demo_peer : entity_addr_t := Addr.set_family AF_INET (mkAddr TYPE_ANY 0 (replicate 28 0) []).
Definition demo_connect : M (office script (gmap Z Z)) list_pool Z :=
  Socket.try_connect cm_config 900 demo_peer (mkOpts true true 0 (-1) demo_peer) [].


Lemma demo_asked fd cb : asked demo_center fd cb → cb ≠ 0 ∧ fd = notify_receive_fd demo_center ∧ cb = notify_handler demo_center.
Proof.
  intros Hcb. unfold asked, interest, entry in Hcb. destruct (Z.ltb_spec fd 0); [naive_solver|].
  destruct (Z.to_nat fd) as [|[|n]] eqn:En; cbn in Hcb; [|naive_solver..]. destruct Hcb as [[= <-]|?]; [|done]. cbn. split_and!; lia.
Qed.

Lemma callbacks_live_witness : ∃ m', demo_connect demo_created = Ret (0, m') ∧
  asked (of_center (world m')) 7 902 ∧ of_crash (world m') = None ∧ ∃ s k, socks m' !! s = Some k ∧ tcp_fd k = 7.
Proof.
  set (m' := run demo_connect demo_created).
  assert (demo_connect demo_created = Ret (0, m')) as E by (vm_compute; reflexivity).
  assert (asked (of_center (world m')) 7 902) as Ha by (left; vm_compute; reflexivity).
  assert (Socket.create cm_config 1 demo_start = Ret (900, demo_created)) as Ec by (vm_compute; reflexivity).
  destruct (callbacks_live cm_config demo_start m') as (H1&_&H3); [reflexivity|reflexivity|exact center2_agree|cbn; lia| | |].
  - exact demo_asked.
  - eapply rtc_l; [apply (cb_create cm_config demo_start 1 900 demo_created Ec); [reflexivity|intros k Hk; vm_compute in Hk; injection Hk as <-; vm_compute; discriminate]|].
    apply rtc_once. destruct (socks demo_created !! 900) as [k0|] eqn:Ek; [|vm_compute in Ek; discriminate Ek].
    pose proof Ek as Ek'. vm_compute in Ek'. injection Ek' as Ek'.
    apply (cb_connect cm_config demo_created 900 k0 demo_peer (mkOpts true true 0 (-1) demo_peer) [] 0 _ Ek); [rewrite <- Ek'; reflexivity|rewrite <- Ek'; vm_compute; discriminate|exact E|].
    intros k Hk. vm_compute in Hk. injection Hk as <-. vm_compute. reflexivity.
  - exists m'. split_and!; [exact E|exact Ha|exact H1|]. destruct (H3 7 902 Ha) as [_ [[Hp _]|(s&k&Hk&Hfd&_)]]; [vm_compute in Hp; discriminate Hp|]. exists s, k. split; [exact Hk|exact Hfd].
Defined.
