(* ===== verification/Progress.v ===== *)
(** * The daemon reaches its answer (src/multicast/multicast.cc)

    Multicast.v shows that a client is not answered too early. Here the other
    direction: once the connections to the members stand, and the members
    answer, the client is answered, in whatever order the events of the two
    members arrive. *)

From S2P Require Import Prelude State Addr Machine Memory Wire QueuePair Net Socket Connection Server Multicast.

(** ** Peers that answer

    What the theorem asks of the transport: a descriptor has messages waiting
    to be read and a record of what was written to it. A write is taken whole, a
    read gives the next message whole. *)

(** The calls that leave the sockets alone: uninitialised memory, the interpreter *)
Definition local_call (c : tcall) : Prop :=
  match c with
  | t_junk _ | Py_IsInitialized | Py_Initialize | PyImport_ImportModule _ | PyEval_CallObject _ _ => True
  | _ => False
  end.

Class Peers (W : Type) `{Transport W} := {
  inbox : W → Z → list (list Z);
  outbox : W → Z → list (list Z);
  peers_write fd b w :
    let '(r, _, w') := t_call (t_write fd b) w in
    r = Z.of_nat (length b) ∧ inbox w' = inbox w ∧ outbox w' fd = outbox w fd ++ [b] ∧ ∀ fd', fd' ≠ fd → outbox w' fd' = outbox w fd';
  peers_read fd n w b l : inbox w fd = b :: l → Z.of_nat (length b) ≤ n →
    let '(r, bytes, w') := t_call (t_read fd n) w in
    r = Z.of_nat (length b) ∧ bytes = b ∧ inbox w' fd = l ∧ (∀ fd', fd' ≠ fd → inbox w' fd' = inbox w fd') ∧ outbox w' = outbox w;
  peers_other c w : local_call c →
    inbox (t_call c w).2 = inbox w ∧ outbox (t_call c w).2 = outbox w;
  peers_junk n w : length (t_call (t_junk n) w).1 = n;
}.

(** ** Lengths of messages *)

Lemma length_hex_pad k n : length (hex_pad k n) = k.
Proof. revert n. induction k as [|k IH]; intros n; [done|]. cbn [hex_pad]. rewrite length_app, IH. cbn. lia. Qed.
Lemma length_wire_gid g : length (gid_to_wire_gid g) = 32%nat.
Proof. unfold gid_to_wire_gid. repeat (rewrite ?length_app, ?length_hex_pad; cbn [length]). lia. Qed.
Lemma length_print_mc x : length (msg_buffer (print_mc x) []) = 93%nat.
Proof.
  unfold msg_buffer, print_mc. rewrite length_take. cbn [join].
  repeat (rewrite ?length_app, ?length_hex_pad, ?length_wire_gid; cbn [length]). change (Z.to_nat TCP_MSG_LEN) with 93%nat. lia.
Qed.

Section steps.
Context {W : Type} `{!Transport W, !Peers W}.
Implicit Types s : app W daemon.
Abbreviation A := (ST (app W daemon)).

(** A message is written whole at the first attempt. *)
Lemma write_retry_run n c k fd b s : conn_heap s !! c = Some k → cs k = Some fd → length b = 93%nat →
  ∃ w, MulticastDaemon.write_retry n c b s = Ret (TCP_MSG_LEN, set_env w s) ∧ inbox w = inbox (env s) ∧
    outbox w fd = outbox (env s) fd ++ [b] ∧ ∀ fd', fd' ≠ fd → outbox w fd' = outbox (env s) fd'.
Proof.
  intros Hk Hfd Hb. pose proof (peers_write fd b (env s)) as Hw.
  assert (∃ e w, Connection.write c b s = Ret (93, e, set_env w s) ∧ inbox w = inbox (env s) ∧
    outbox w fd = outbox (env s) fd ++ [b] ∧ ∀ fd', fd' ≠ fd → outbox w fd' = outbox (env s) fd') as (e&w&E&H1&H2&H3).
  { unfold Connection.write, get_conn, mbind, ST_bind, gets. rewrite Hk. cbn [the]. unfold mret, ST_ret. rewrite Hfd. cbn [the]. unfold mret, ST_ret, ask.
    destruct (t_call (t_write fd b) (env s)) as [[r e] w] eqn:Ew. cbn in Hw. destruct Hw as (->&?&?&?). exists e, w. rewrite Hb. auto. }
  exists w. split_and!; try done. destruct n; cbn [MulticastDaemon.write_retry]; rewrite (bind_run _ _ _ _ _ E); reflexivity.
Qed.

(** A message that is there is read whole. *)
Lemma read_message_run conv fuel c k fd b l s : conn_heap s !! c = Some k → cs k = Some fd → length b = 93%nat → conv 93 = 93 →
  inbox (env s) fd = b :: l →
  ∃ w, MulticastDaemon.read_message conv (S fuel) c s = Ret (b, set_env w s) ∧ inbox w fd = l ∧ (∀ fd', fd' ≠ fd → inbox w fd' = inbox (env s) fd') ∧
    outbox w = outbox (env s).
Proof.
  intros Hk Hfd Hb Hconv Hin. unfold MulticastDaemon.read_message.
  destruct (t_call (t_junk (Z.to_nat TCP_MSG_LEN)) (env s)) as [junk w1] eqn:Ej.
  assert (length junk = 93%nat) as Hj by (pose proof (peers_junk (Z.to_nat TCP_MSG_LEN) (env s)) as H; by rewrite Ej in H).
  destruct (peers_other (t_junk (Z.to_nat TCP_MSG_LEN)) (env s) I) as [Hi1 Ho1]. rewrite Ej in Hi1, Ho1. cbn in Hi1, Ho1.
  assert (ask (t_junk (Z.to_nat TCP_MSG_LEN)) s = Ret (junk, set_env w1 s)) as E1 by (unfold ask; by rewrite Ej).
  rewrite (bind_run _ _ _ _ _ E1). cbn [MulticastDaemon.read_loop]. change (0 <? TCP_MSG_LEN) with true. cbv iota.
  pose proof (peers_read fd (TCP_MSG_LEN - 0) w1 b l) as Hr. rewrite Hi1, Hb in Hr. specialize (Hr Hin ltac:(done)).
  destruct (t_call (t_read fd (TCP_MSG_LEN - 0)) w1) as [[r bytes] w2] eqn:Er. cbn in Hr. destruct Hr as (->&->&H1&H2&H3).
  assert (Connection.Read c (TCP_MSG_LEN - 0) (set_env w1 s) = Ret (93, b, set_env w2 s)) as E2.
  { unfold Connection.Read, get_conn, mbind, ST_bind, gets. cbn [conn_heap set_env]. rewrite Hk. cbn [the]. unfold mret, ST_ret. rewrite Hfd. cbn [the].
    unfold mret, ST_ret, ask. cbn [env set_env]. by rewrite Er. }
  rewrite (bind_run _ _ _ _ _ E2), Hconv. change (u32 (0 + 93)) with 93. change (93 <? 0) with false. cbv iota beta zeta. cbn [andb].
  rewrite drop_ge by lia. rewrite app_nil_r. exists w2. split_and!; [by destruct fuel|done|done|by rewrite H3, Ho1].
Qed.

(** What one call writes: [b] to [fd] and nothing else *)
Definition wrote (fd : Z) (b : list Z) (e w : W) : Prop :=
  inbox w = inbox e ∧ outbox w fd = outbox e fd ++ [b] ∧ ∀ fd', fd' ≠ fd → outbox w fd' = outbox e fd'.

Lemma group_at_env s w id st m l : group_at s id st m l → group_at (set_env w s) id st m l.
Proof. intros [? ? ?]. by split. Qed.

Lemma send_server_run id i c k fd v st m l s : group_at s id st m l → l !! S i = Some c → conn_heap s !! c = Some k → cs k = Some fd →
  sv_state st !! i = Some v → v = SERVER_CONNECTED ∨ v = SERVER_HANDSHAKE_SENT →
  ∃ w, MulticastDaemon.send_handshake_to_server id i s = Ret (tt, set_env w s) ∧
    wrote fd (msg_buffer (print_mc (MulticastDaemon.server_msg m i)) []) (env s) w.
Proof.
  intros Hg Hc Hk Hfd Hv Hst. unfold MulticastDaemon.send_handshake_to_server.
  rewrite (bind_run _ _ _ _ _ (connections_of_eq _ _ _ _ _ Hg)), Hc. rewrite (bind_run (the (Some c)) _ s c s eq_refl).
  rewrite (bind_run _ _ _ _ _ (state_of_eq _ _ _ _ _ Hg)), (bind_run _ _ _ _ _ (meta_of_eq _ _ _ _ _ Hg)), Hv. rewrite (bind_run (the (Some v)) _ s v s eq_refl).
  rewrite (bind_run _ _ s tt s) by (destruct Hst as [-> | ->]; reflexivity).
  destruct (write_retry_run 3 c k fd _ s Hk Hfd (length_print_mc (MulticastDaemon.server_msg m i))) as (w&E&H1&H2&H3).
  exists w. rewrite (bind_run _ _ _ _ _ E). split; [reflexivity|]. by split_and!.
Qed.

(** The control plane is told of a group, or not, and the call returns. *)
Lemma call_python_run fn args s :
  ∃ b w, (SwitchTableWritter.call_python fn args : A bool) s = Ret (b, set_env w s) ∧ inbox w = inbox (env s) ∧ outbox w = outbox (env s).
Proof.
  assert (∀ c s, local_call c →
    ∃ a w, (ask c : A _) s = Ret (a, set_env w s) ∧ inbox w = inbox (env s) ∧ outbox w = outbox (env s)) as Hask.
  { intros c s1 Hc. pose proof (peers_other c (env s1) Hc) as H. unfold ask. destruct (t_call c (env s1)) as [a w]. by exists a, w. }
  unfold SwitchTableWritter.call_python. destruct (Hask Py_IsInitialized s I) as (a1&w1&E1&Hi1&Ho1). rewrite (bind_run _ _ _ _ _ E1).
  assert (∃ w, (when (a1 =? 0) (tell Py_Initialize) : A unit) (set_env w1 s) = Ret (tt, set_env w s) ∧ inbox w = inbox (env s) ∧ outbox w = outbox (env s))
    as (w2&E2&Hi2&Ho2).
  { destruct (a1 =? 0); cbn [when]; [|by exists w1]. destruct (Hask Py_Initialize (set_env w1 s) I) as (a&w&E&Hi&Ho). exists w. unfold tell.
    rewrite (bind_run _ _ _ _ _ E). split_and!; [done|by rewrite Hi|by rewrite Ho]. }
  rewrite (bind_run _ _ _ _ _ E2). destruct (Hask Py_IsInitialized (set_env w2 s) I) as (a3&w3&E3&Hi3&Ho3). rewrite (bind_run _ _ _ _ _ E3).
  cbn [answer] in a3. destruct (a3 =? 0); [exists false, w3; cbn [env set_env] in *; split; [done|split; congruence]|].
  destruct (Hask (PyImport_ImportModule "control_plane_funcs") (set_env w3 s) I) as (a4&w4&E4&Hi4&Ho4). rewrite (bind_run _ _ _ _ _ E4).
  cbn [answer] in a4. destruct (a4 =? 0); [exists false, w4; cbn [env set_env] in *; split; [done|split; congruence]|].
  destruct (Hask (PyEval_CallObject fn args) (set_env w4 s) I) as (a5&w5&E5&Hi5&Ho5). exists true, w5. unfold tell.
  cbn [env set_env] in *. split; [|split; congruence]. rewrite (bind_run _ _ _ tt (set_env w5 s)); [done|]. by rewrite (bind_run _ _ _ _ _ E5).
Qed.

Lemma group_add_run a b c d e f h s :
  ∃ r w, (SwitchTableWritter.multicast_group_add a b c d e f h : A Z) s = Ret (r, set_env w s) ∧ inbox w = inbox (env s) ∧ outbox w = outbox (env s).
Proof.
  unfold SwitchTableWritter.multicast_group_add. cbv zeta. destruct (b =? 2); [exists (u32 (-1)), (env s); by destruct s|].
  match goal with |- context [SwitchTableWritter.call_python ?x ?y] => destruct (call_python_run x y s) as (r&w&E&H) end.
  exists b, w. rewrite (bind_run _ _ _ _ _ E). by split.
Qed.
End steps.

(** ** A group whose connections stand *)

(** How far a member is: nothing sent, the client's meta data sent, its reply acknowledged *)
Inductive phase := Fresh | Greeted | Acked.
#[global] Instance phase_eq_dec : EqDecision phase.
Proof. solve_decision. Defined.
Definition state_at (p : phase) : server_state :=
  match p with Fresh => SERVER_INIT | Greeted => SERVER_HANDSHAKE_SENT | Acked => SERVER_HANDSHAKE_ACK_SENT end.
Definition upd {T} (f : nat → T) (i : nat) (v : T) (j : nat) : T := if (j =? i)%nat then v else f j.

(** What the daemon writes: to a member that told [r], and to the client *)
Definition to_member (snd r : peer_meta) : list Z := msg_buffer (print_mc (MulticastDaemon.server_msg (mkMeta snd [r; r]) 0)) [].
Definition to_client (id : Z) (snd r0 r1 : peer_meta) : list Z :=
  msg_buffer (print_mc (MulticastDaemon.client_msg id (mkMeta snd [r0; r1]))) [].

(** The group [id]: the client's connection and its descriptor, what the
    client told, and for each member its connection, its descriptor, the
    message it sends and what the message says *)
Record group := mkGroup {
  g_id : Z; g_client : Z; g_client_fd : Z; g_sender : peer_meta;
  g_conn : nat → Z; g_fd : nat → Z; g_msg : nat → list Z; g_reply : nat → cm_msg;
}.

Definition told (g : group) (p : nat → phase) (i : nat) : peer_meta :=
  match p i with Acked => MulticastDaemon.meta_of_msg (g_reply g i) | _ => peer_meta0 end.
Definition sent (g : group) (p : nat → phase) (i : nat) : list (list Z) :=
  match p i with
  | Fresh => []
  | Greeted => [to_member (g_sender g) peer_meta0]
  | Acked => [to_member (g_sender g) peer_meta0; to_member (g_sender g) (MulticastDaemon.meta_of_msg (g_reply g i))]
  end.
Definition both (p : nat → phase) : bool := bool_decide (p 0%nat = Acked) && bool_decide (p 1%nat = Acked).
Definition group_state (p : nat → phase) : MCState :=
  mkMC (if both p then CLIENT_HANDSHAKE_SENT else CLIENT_HANDSHAKE_RECEIVED) [state_at (p 0%nat); state_at (p 1%nat)].

Section group.
Context {W : Type} `{!Transport W, !Peers W}.
Implicit Types (s : app W daemon) (g : group).
Abbreviation A := (ST (app W daemon)).

(** Connections and descriptors are distinct, and the members' messages are whole. *)
Record group_wf g : Prop := {
  wf_conn : g_conn g 0 ≠ g_conn g 1;
  wf_fd : g_fd g 0 ≠ g_fd g 1;
  wf_client_fd : ∀ i, (i < 2)%nat → g_fd g i ≠ g_client_fd g;
  wf_length : ∀ i, (i < 2)%nat → length (g_msg g i) = 93%nat;
  wf_reply : ∀ i, (i < 2)%nat → parse_cm (g_msg g i) = Ret (g_reply g i);
}.

(** The daemon with the members at phases [p]. [out] is what was written before. *)
Record standing_at g (out : Z → list (list Z)) (p : nat → phase) s : Prop := {
  at_group : group_at s (g_id g) (group_state p) (mkMeta (g_sender g) [told g p 0; told g p 1]) [g_client g; g_conn g 0; g_conn g 1];
  at_addrs : ∃ a0 a1, multicast_addrs (data s) !! g_id g = Some [a0; a1];
  at_client : ∃ k, conn_heap s !! g_client g = Some k ∧ cs k = Some (g_client_fd g);
  at_member : ∀ i, (i < 2)%nat → ∃ k, conn_heap s !! g_conn g i = Some k ∧ mc_id k = g_id g ∧ cs k = Some (g_fd g i);
  at_inbox : ∀ i, (i < 2)%nat → p i ≠ Acked → ∃ l, inbox (env s) (g_fd g i) = g_msg g i :: l;
  at_outbox : ∀ i, (i < 2)%nat → outbox (env s) (g_fd g i) = out (g_fd g i) ++ sent g p i;
  at_answer : outbox (env s) (g_client_fd g) = out (g_client_fd g) ++ (if both p then [to_client (g_id g) (g_sender g) (told g p 0) (told g p 1)] else []);
}.

Lemma conn_index g i s st m : group_wf g → (i < 2)%nat → group_at s (g_id g) st m [g_client g; g_conn g 0; g_conn g 1] →
  (MulticastDaemon.get_mc_index (g_id g) (g_conn g i) : A nat) s = Ret (i, s).
Proof.
  intros Hwf Hi [_ _ Hc]. unfold MulticastDaemon.get_mc_index, mbind, ST_bind, gets. rewrite Hc. cbn.
  pose proof (wf_conn g Hwf). destruct i as [|[|]]; [| |lia].
  - by rewrite bool_decide_eq_true_2.
  - rewrite bool_decide_eq_false_2 by congruence. by rewrite bool_decide_eq_true_2.
Qed.

Lemma put_state_run id st st' m l s : group_at s id st m l →
  ∃ s', (MulticastDaemon.put_state id st' : A unit) s = Ret (tt, s') ∧ group_at s' id st' m l ∧ env s' = env s ∧ conn_heap s' = conn_heap s ∧
    multicast_addrs (data s') = multicast_addrs (data s).
Proof. intros Hg. eexists. split; [reflexivity|]. split; [by eapply put_state_at|done]. Qed.

Lemma put_meta_run id st m m' l s : group_at s id st m l →
  ∃ s', (MulticastDaemon.put_meta id m' : A unit) s = Ret (tt, s') ∧ group_at s' id st m' l ∧ env s' = env s ∧ conn_heap s' = conn_heap s ∧
    multicast_addrs (data s') = multicast_addrs (data s).
Proof. intros Hg. eexists. split; [reflexivity|]. split; [by eapply put_meta_at|done]. Qed.

Lemma get_conn_run c k s : conn_heap s !! c = Some k → (get_conn c : A _) s = Ret (k, s).
Proof. intros Hk. unfold get_conn, mbind, ST_bind, gets. by rewrite Hk. Qed.

(** Whether both members are served, when one of them advances *)
Lemma both_false p i : (i < 2)%nat → p i ≠ Acked → both p = false.
Proof.
  intros Hi Hp. unfold both. destruct i as [|[|]]; [| |lia].
  - by rewrite bool_decide_eq_false_2.
  - by rewrite (bool_decide_eq_false_2 (p 1%nat = Acked)), andb_false_r.
Qed.
Lemma upd_eq {T} (f : nat → T) i v : upd f i v i = v.
Proof. unfold upd. by rewrite Nat.eqb_refl. Qed.
Lemma upd_ne {T} (f : nat → T) i j v : j ≠ i → upd f i v j = f j.
Proof. intros H. unfold upd. by rewrite (proj2 (Nat.eqb_neq _ _)). Qed.

(** The state of a group whose member [i] advanced, the rest being as it was *)
Lemma advance g out p i v s s' : group_wf g → standing_at g out p s → (i < 2)%nat →
  group_at s' (g_id g) (group_state (upd p i v)) (mkMeta (g_sender g) [told g (upd p i v) 0; told g (upd p i v) 1]) [g_client g; g_conn g 0; g_conn g 1] →
  conn_heap s' = conn_heap s → multicast_addrs (data s') = multicast_addrs (data s) →
  (∀ fd, fd ≠ g_fd g i ∨ v ≠ Acked ∧ p i ≠ Acked → inbox (env s') fd = inbox (env s) fd) →
  outbox (env s') (g_fd g i) = out (g_fd g i) ++ sent g (upd p i v) i →
  (∀ fd, fd ≠ g_fd g i → fd ≠ g_client_fd g → outbox (env s') fd = outbox (env s) fd) →
  outbox (env s') (g_client_fd g) = out (g_client_fd g) ++
    (if both (upd p i v) then [to_client (g_id g) (g_sender g) (told g (upd p i v) 0) (told g (upd p i v) 1)] else []) →
  (p i = Acked → v = Acked) → standing_at g out (upd p i v) s'.
Proof.
  intros Hwf Hs Hi Hg Hc Ha Hin Hme Hout Hans Hmono. destruct Hs as [_ Ha0 Hcl Hm Hin0 Hout0 _].
  assert (∀ j, (j < 2)%nat → j ≠ i → g_fd g j ≠ g_fd g i) as Hne.
  { pose proof (wf_fd g Hwf). intros [|[|]] ? ?; destruct i as [|[|]]; try lia; congruence. }
  split; [done|by rewrite Ha|by rewrite Hc|intros j Hj; rewrite Hc; by apply Hm| | |done].
  - intros j Hj Hjq. destruct (decide (j = i)) as [->|Hji].
    + rewrite upd_eq in Hjq. assert (p i ≠ Acked) by tauto. rewrite Hin by tauto. by apply Hin0.
    + rewrite upd_ne in Hjq by done. rewrite Hin by (left; by apply Hne). by apply Hin0.
  - intros j Hj. destruct (decide (j = i)) as [->|Hji]; [done|].
    rewrite Hout by (first [by apply Hne|by apply wf_client_fd]). rewrite Hout0 by done. unfold sent. by rewrite upd_ne.
Qed.

(** The states and the meta data of a group, when a member advances *)
Lemma group_state_upd p i v : (i < 2)%nat → sv_state (group_state (upd p i v)) = <[i := state_at v]> (sv_state (group_state p)).
Proof. intros Hi. destruct i as [|[|]]; [done|done|lia]. Qed.
Lemma told_upd g p i v : (i < 2)%nat →
  [told g (upd p i v) 0; told g (upd p i v) 1] =
    <[i := match v with Acked => MulticastDaemon.meta_of_msg (g_reply g i) | _ => peer_meta0 end]> [told g p 0; told g p 1].
Proof. intros Hi. destruct i as [|[|]]; [done|done|lia]. Qed.
Lemma told_early g p i : p i ≠ Acked → told g p i = peer_meta0.
Proof. intros H. unfold told. by destruct (p i). Qed.
Lemma to_member_eq snd l i r : l !! i = Some r →
  msg_buffer (print_mc (MulticastDaemon.server_msg (mkMeta snd l) i)) [] = to_member snd r.
Proof. intros H. unfold to_member, MulticastDaemon.server_msg. cbn [receiver sender]. by rewrite H. Qed.
Lemma told_lookup g p i : (i < 2)%nat → [told g p 0; told g p 1] !! i = Some (told g p i).
Proof. intros Hi. destruct i as [|[|]]; [done|done|lia]. Qed.
Lemma state_lookup p i : (i < 2)%nat → sv_state (group_state p) !! i = Some (state_at (p i)).
Proof. intros Hi. destruct i as [|[|]]; [done|done|lia]. Qed.
Lemma conn_lookup g i : (i < 2)%nat → [g_client g; g_conn g 0; g_conn g 1] !! S i = Some (g_conn g i).
Proof. intros Hi. destruct i as [|[|]]; [done|done|lia]. Qed.

(** A member becomes writable. *)
Lemma writeable_run g out p i s : group_wf g → standing_at g out p s → (i < 2)%nat → p i = Fresh →
  ∃ s', MulticastDaemon.process_server_writeable (g_conn g i) s = Ret (tt, s') ∧ standing_at g out (upd p i Greeted) s'.
Proof.
  intros Hwf [Hg Ha Hcl Hm Hin Hout Hans] Hi Hp. destruct (Hm i Hi) as (k&Hk&Hid&Hfd).
  assert (both p = false) as Hb by (apply (both_false p i); [done|by rewrite Hp]).
  assert (both (upd p i Greeted) = false) as Hb' by (apply (both_false _ i); [done|by rewrite upd_eq]).
  unfold MulticastDaemon.process_server_writeable.
  rewrite (bind_run _ _ _ _ _ (get_conn_run _ _ _ Hk)). cbv zeta. rewrite Hid.
  rewrite (bind_run _ _ _ _ _ (state_of_eq _ _ _ _ _ Hg)), (bind_run _ _ _ _ _ (conn_index g i s _ _ Hwf Hi Hg)).
  rewrite (bind_run _ _ _ _ _ (meta_of_eq _ _ _ _ _ Hg)), (bind_run _ _ _ _ _ (state_of_eq _ _ _ _ _ Hg)).
  pose proof (state_lookup p i Hi) as Hv. rewrite Hp in Hv. rewrite Hv. rewrite (bind_run (the (Some (state_at Fresh))) _ s _ s eq_refl).
  destruct (put_state_run _ _ (set_sv_state i SERVER_CONNECTED (group_state p)) _ _ s Hg) as (s1&E1&Hg1&He1&Hc1&Ha1). rewrite (bind_run _ _ _ _ _ E1).
  rewrite bool_decide_eq_true_2 by (unfold group_state; by rewrite Hb).
  destruct (send_server_run (g_id g) i (g_conn g i) k (g_fd g i) SERVER_CONNECTED _ _ _ s1 Hg1) as (w&E2&Hw1&Hw2&Hw3);
    [by apply conn_lookup|by rewrite Hc1|done|by apply list_lookup_insert_eq|by left|].
  rewrite (bind_run _ _ _ _ _ E2). pose proof (group_at_env _ w _ _ _ _ Hg1) as Hg2. rewrite (bind_run _ _ _ _ _ (state_of_eq _ _ _ _ _ Hg2)).
  destruct (put_state_run _ _ (set_sv_state i SERVER_HANDSHAKE_SENT (set_sv_state i SERVER_CONNECTED (group_state p))) _ _ _ Hg2) as (s2&E3&Hg3&He3&Hc3&Ha3).
  exists s2. split; [exact E3|]. clear E1 E2 E3. cbn [conn_heap env data set_env] in *. rewrite He1 in *.
  rewrite (to_member_eq _ _ _ _ (told_lookup g p i Hi)), told_early in Hw2 by (by rewrite Hp).
  apply (advance g out p i Greeted s); [done|by split|done| |congruence|congruence| | | | |by rewrite Hp].
  - rewrite told_upd, list_insert_id by (rewrite ?told_lookup, ?told_early; by rewrite ?Hp).
    replace (group_state _) with (set_sv_state i SERVER_HANDSHAKE_SENT (set_sv_state i SERVER_CONNECTED (group_state p))); [done|].
    unfold set_sv_state. cbn [sv_state cl_state]. rewrite list_insert_insert_eq. unfold group_state at 1 3. rewrite Hb, Hb'. cbn [cl_state]. f_equal. exact (eq_sym (group_state_upd p i Greeted Hi)).
  - intros fd _. by rewrite He3, Hw1.
  - rewrite He3, Hw2, Hout by done. unfold sent. rewrite Hp, upd_eq. by rewrite app_nil_r.
  - intros fd H _. rewrite He3. by apply Hw3.
  - rewrite He3, Hw3, Hans, Hb, Hb' by (by apply not_eq_sym, wf_client_fd). done.
Qed.

(** The client is answered when the second member is served, and not before. *)
Lemma answer_client_run g p s k a0 a1 m : cl_state p = CLIENT_HANDSHAKE_RECEIVED →
  group_at s (g_id g) p m [g_client g; g_conn g 0; g_conn g 1] → conn_heap s !! g_client g = Some k → cs k = Some (g_client_fd g) →
  multicast_addrs (data s) !! g_id g = Some [a0; a1] →
  let b := bool_decide (sv_state p = replicate 2 SERVER_HANDSHAKE_ACK_SENT) in
  ∃ w, MulticastDaemon.answer_client (g_client g) (g_id g) s = Ret (b, set_env w s) ∧
    inbox w = inbox (env s) ∧ (∀ fd, fd ≠ g_client_fd g → outbox w fd = outbox (env s) fd) ∧
    outbox w (g_client_fd g) = outbox (env s) (g_client_fd g) ++
      (if b then [msg_buffer (print_mc (MulticastDaemon.client_msg (g_id g) m)) []] else []).
Proof.
  intros Hcl Hg Hk Hfd Ha. unfold MulticastDaemon.answer_client.
  rewrite (bind_run _ _ _ _ _ (state_of_eq _ _ _ _ _ Hg)), (bind_run _ _ _ _ _ (meta_of_eq _ _ _ _ _ Hg)), Hcl.
  change kNumMulticasts with 2%nat. cbn [bool_decide negb decide decide_rel]. rewrite bool_decide_eq_true_2 by done. cbn [negb]. cbv zeta.
  destruct (bool_decide (sv_state p = _)); cbn [negb]; [|exists (env s); rewrite app_nil_r; split_and!; [by destruct s|done..]].
  rewrite (bind_run _ _ _ _ _ (get_conn_run _ _ _ Hk)).
  rewrite (bind_run (MulticastDaemon.addrs_of _) _ s [a0; a1] s) by (unfold MulticastDaemon.addrs_of, mbind, ST_bind, gets; by rewrite Ha).
  change ([a0; a1] !! 0%nat) with (Some a0). change ([a0; a1] !! 1%nat) with (Some a1).
  rewrite (bind_run (the (Some a0)) _ s a0 s eq_refl), (bind_run (the (Some a1)) _ s a1 s eq_refl).
  match goal with |- context [SwitchTableWritter.multicast_group_add ?a ?b ?c ?d ?e ?f ?h] =>
    destruct (group_add_run a b c d e f h s) as (r&w&E1&Hi1&Ho1) end.
  rewrite (bind_run _ _ _ _ _ E1).
  destruct (write_retry_run 3 (g_client g) k (g_client_fd g) _ (set_env w s) Hk Hfd (length_print_mc (MulticastDaemon.client_msg (g_id g) m)))
    as (w2&E2&Hi2&Ho2&Ho3). rewrite (bind_run _ _ _ _ _ E2). change (TCP_MSG_LEN =? TCP_MSG_LEN) with true. cbv iota.
  exists w2. clear E1 E2. cbn [env set_env] in *. rewrite <-Ho1, <-Hi1. by split_and!.
Qed.

Lemma answer_run g p s k a0 a1 m : cl_state p = CLIENT_HANDSHAKE_RECEIVED →
  group_at s (g_id g) p m [g_client g; g_conn g 0; g_conn g 1] → conn_heap s !! g_client g = Some k → cs k = Some (g_client_fd g) →
  multicast_addrs (data s) !! g_id g = Some [a0; a1] →
  ∃ s', MulticastDaemon.check_and_send_handshake_to_client (g_client g) (g_id g) s = Ret (tt, s') ∧ conn_heap s' = conn_heap s ∧
    multicast_addrs (data s') = multicast_addrs (data s) ∧
    let b := bool_decide (sv_state p = replicate 2 SERVER_HANDSHAKE_ACK_SENT) in
    group_at s' (g_id g) (if b then set_cl_state CLIENT_HANDSHAKE_SENT p else p) m [g_client g; g_conn g 0; g_conn g 1] ∧
    inbox (env s') = inbox (env s) ∧ (∀ fd, fd ≠ g_client_fd g → outbox (env s') fd = outbox (env s) fd) ∧
    outbox (env s') (g_client_fd g) = outbox (env s) (g_client_fd g) ++
      (if b then [msg_buffer (print_mc (MulticastDaemon.client_msg (g_id g) m)) []] else []).
Proof.
  intros Hcl Hg Hk Hfd Ha. destruct (answer_client_run g p s k a0 a1 m Hcl Hg Hk Hfd Ha) as (w&E&Hi&Ho&Hc).
  unfold MulticastDaemon.check_and_send_handshake_to_client. rewrite (bind_run _ _ _ _ _ E). cbv zeta in *. clear E.
  pose proof (group_at_env s w _ _ _ _ Hg) as Hg1. destruct (bool_decide (sv_state p = _)); cbn [when].
  - unfold MulticastDaemon.client_sent. rewrite (bind_run _ _ _ _ _ (state_of_eq _ _ _ _ _ Hg1)).
    destruct (put_state_run _ _ (set_cl_state CLIENT_HANDSHAKE_SENT p) _ _ _ Hg1) as (s2&E3&Hg3&He3&Hc3&Ha3).
    exists s2. split; [exact E3|]. clear E3. rewrite He3. by split_and!.
  - exists (set_env w s). by split_and!.
Qed.

Lemma acked_states p : sv_state (group_state p) = replicate 2 SERVER_HANDSHAKE_ACK_SENT ↔ both p = true.
Proof.
  unfold group_state, both. cbn. rewrite andb_true_iff, !bool_decide_eq_true.
  destruct (p 0%nat), (p 1%nat); cbn; naive_solver.
Qed.

(** The state of the group after the acknowledgement, before and after the client's answer *)
Lemma group_state_acked p i : (i < 2)%nat → p i ≠ Acked →
  let st := set_sv_state i SERVER_HANDSHAKE_ACK_SENT (group_state p) in
  let b := bool_decide (sv_state st = replicate 2 SERVER_HANDSHAKE_ACK_SENT) in
  cl_state st = CLIENT_HANDSHAKE_RECEIVED ∧ b = both (upd p i Acked) ∧
  (if b then set_cl_state CLIENT_HANDSHAKE_SENT st else st) = group_state (upd p i Acked).
Proof.
  intros Hi Hp st b. assert (cl_state st = CLIENT_HANDSHAKE_RECEIVED) as Hcl by (unfold st, group_state; cbn; by rewrite (both_false p i)).
  assert (sv_state st = sv_state (group_state (upd p i Acked))) as Hsv by (symmetry; by apply (group_state_upd p i Acked)).
  assert (b = both (upd p i Acked)) as Hb.
  { unfold b. rewrite Hsv. apply eq_true_iff_eq. rewrite bool_decide_eq_true. apply acked_states. }
  split_and!; [done|done|]. rewrite Hb. revert Hcl Hsv. destruct st as [c v]. cbn [cl_state sv_state set_cl_state]. intros -> ->.
  unfold set_cl_state, group_state. cbn [sv_state]. by destruct (both _).
Qed.

(** The acknowledgement of a reply, and what it sets off *)
Lemma acknowledge_run g p i s k kc a0 a1 m : (i < 2)%nat → p i = Greeted →
  group_at s (g_id g) (group_state p) m [g_client g; g_conn g 0; g_conn g 1] →
  conn_heap s !! g_conn g i = Some k → cs k = Some (g_fd g i) → conn_heap s !! g_client g = Some kc → cs kc = Some (g_client_fd g) →
  g_fd g i ≠ g_client_fd g → multicast_addrs (data s) !! g_id g = Some [a0; a1] →
  ∃ s', (MulticastDaemon.send_handshake_to_server (g_id g) i ;;
    st ← MulticastDaemon.state_of (g_id g);
    MulticastDaemon.put_state (g_id g) (set_sv_state i SERVER_HANDSHAKE_ACK_SENT st) ;;
    l ← MulticastDaemon.connections_of (g_id g);
    cl ← the (l !! 0%nat);
    MulticastDaemon.check_and_send_handshake_to_client cl (g_id g)) s = Ret (tt, s') ∧
  conn_heap s' = conn_heap s ∧ multicast_addrs (data s') = multicast_addrs (data s) ∧
  group_at s' (g_id g) (group_state (upd p i Acked)) m [g_client g; g_conn g 0; g_conn g 1] ∧
  inbox (env s') = inbox (env s) ∧
  outbox (env s') (g_fd g i) = outbox (env s) (g_fd g i) ++ [msg_buffer (print_mc (MulticastDaemon.server_msg m i)) []] ∧
  (∀ fd, fd ≠ g_fd g i → fd ≠ g_client_fd g → outbox (env s') fd = outbox (env s) fd) ∧
  outbox (env s') (g_client_fd g) = outbox (env s) (g_client_fd g) ++
    (if both (upd p i Acked) then [msg_buffer (print_mc (MulticastDaemon.client_msg (g_id g) m)) []] else []).
Proof.
  intros Hi Hp Hg Hk Hfd Hkc Hfdc Hne Ha. assert (p i ≠ Acked) as Hp' by (by rewrite Hp).
  destruct (send_server_run (g_id g) i (g_conn g i) k (g_fd g i) SERVER_HANDSHAKE_SENT _ _ _ s Hg) as (w&E1&Hw1&Hw2&Hw3);
    [by apply conn_lookup|done|done|by rewrite (state_lookup p i Hi), Hp|by right|].
  rewrite (bind_run _ _ _ _ _ E1). pose proof (group_at_env _ w _ _ _ _ Hg) as Hg1. rewrite (bind_run _ _ _ _ _ (state_of_eq _ _ _ _ _ Hg1)).
  destruct (put_state_run _ _ (set_sv_state i SERVER_HANDSHAKE_ACK_SENT (group_state p)) _ _ _ Hg1) as (s2&E2&Hg2&He2&Hc2&Ha2).
  rewrite (bind_run _ _ _ _ _ E2), (bind_run _ _ _ _ _ (connections_of_eq _ _ _ _ _ Hg2)). cbn [lookup list_lookup].
  rewrite (bind_run (the (Some (g_client g))) _ s2 _ s2 eq_refl). destruct (group_state_acked p i Hi Hp') as (Hcl&Hb&Hst).
  cbn [conn_heap env data set_env] in *. clear E1 E2.
  destruct (answer_run g _ s2 kc a0 a1 m Hcl Hg2) as (s3&E3&Hc3&Ha3&Hg3&Hi3&Ho3&Ho4); [by rewrite Hc2|done|by rewrite Ha2|].
  exists s3. split; [exact E3|]. clear E3. rewrite Hst in Hg3. rewrite Hb in Ho4. rewrite He2 in *.
  split_and!; [congruence|congruence|done|congruence| | |].
  - by rewrite Ho3, Hw2.
  - intros fd ? ?. rewrite Ho3 by done. by apply Hw3.
  - by rewrite Ho4, Hw3.
Qed.

(** A member that has been greeted answers. *)
Lemma readable_run g out p i fuel s : group_wf g → standing_at g out p s → (i < 2)%nat → p i = Greeted →
  ∃ s', MulticastDaemon.process_server_readable (S fuel) (g_conn g i) s = Ret (tt, s') ∧ standing_at g out (upd p i Acked) s'.
Proof.
  intros Hwf Hs Hi Hp. pose proof Hs as [Hg (a0&a1&Ha) (kc&Hkc&Hfdc) Hm Hin Hout Hans]. destruct (Hm i Hi) as (k&Hk&Hid&Hfd).
  assert (both p = false) as Hb by (apply (both_false p i); [done|by rewrite Hp]). rewrite Hb, app_nil_r in Hans.
  assert (p i ≠ Acked) as Hp' by (by rewrite Hp). destruct (Hin i Hi Hp') as [l Hl].
  unfold MulticastDaemon.process_server_readable.
  destruct (read_message_run id fuel (g_conn g i) k (g_fd g i) _ l s Hk Hfd (wf_length g Hwf i Hi) eq_refl Hl) as (w&E1&Hr1&Hr2&Hr3).
  rewrite (bind_run _ _ _ _ _ E1), (bind_run _ _ (set_env w s) _ _ (get_conn_run _ k (set_env w s) Hk)). cbv zeta. rewrite Hid.
  pose proof (group_at_env _ w _ _ _ _ Hg) as Hg1.
  rewrite (bind_run _ _ _ _ _ (state_of_eq _ _ _ _ _ Hg1)), (bind_run _ _ _ _ _ (conn_index g i _ _ _ Hwf Hi Hg1)).
  rewrite (bind_run _ _ _ _ _ (meta_of_eq _ _ _ _ _ Hg1)).
  rewrite (bind_run (lift _) _ (set_env w s) (g_reply g i) (set_env w s)) by (unfold lift; by rewrite (wf_reply g Hwf i Hi)).
  cbn [receiver]. rewrite (told_lookup g p i Hi). rewrite (bind_run (the (Some (told g p i))) _ _ _ _ eq_refl).
  destruct (put_meta_run _ _ _ (set_receiver i (MulticastDaemon.meta_of_msg (g_reply g i)) (mkMeta (g_sender g) [told g p 0; told g p 1])) _ _ Hg1)
    as (s1&E2&Hg2&He2&Hc2&Ha2). rewrite (bind_run _ _ _ _ _ E2), (bind_run _ _ _ _ _ (state_of_eq _ _ _ _ _ Hg2)).
  rewrite (state_lookup p i Hi), Hp. rewrite (bind_run (the (Some (state_at Greeted))) _ s1 _ s1 eq_refl). cbn [state_at].
  clear E1 E2. cbn [conn_heap env data set_env] in *.
  destruct (acknowledge_run g p i s1 k kc a0 a1 _ Hi Hp Hg2) as (s2&E3&Hc3&Ha3&Hg3&Hi3&Ho3&Ho4&Ho5);
    [by rewrite Hc2|done|by rewrite Hc2|done|by apply wf_client_fd|by rewrite Ha2|].
  exists s2. split; [exact E3|]. clear E3. rewrite He2 in *. rewrite Hr3 in *.
  assert (set_receiver i (MulticastDaemon.meta_of_msg (g_reply g i)) (mkMeta (g_sender g) [told g p 0; told g p 1]) =
    mkMeta (g_sender g) [told g (upd p i Acked) 0; told g (upd p i Acked) 1]) as Em by (unfold set_receiver; by rewrite told_upd).
  rewrite Em in *. rewrite (to_member_eq _ _ _ _ (told_lookup g (upd p i Acked) i Hi)) in Ho3.
  apply (advance g out p i Acked s); [done|done|done|done|congruence|congruence| | |done| |done].
  - intros fd [Hne|[[] _]]; [|done]. rewrite Hi3. by apply Hr2.
  - rewrite Ho3, Hout by done. unfold sent, told. rewrite Hp, upd_eq. by rewrite <-app_assoc.
  - by rewrite Ho5, Hans.
Qed.
End group.

(** ** Events, in every order *)

(** The event of a member's connection, and its handling: the callback that
    [MulticastDaemon] registered for it *)
Inductive member_event := Writeable (i : nat) | Readable (i : nat).

(** The events a member at phase [p] has still to come *)
Definition to_come (p : phase) (i : nat) : list member_event :=
  match p with Fresh => [Writeable i; Readable i] | Greeted => [Readable i] | Acked => [] end.

(** [interleave l1 l2 l]: [l] is a merge of [l1] and [l2]. *)
Inductive interleave {T} : list T → list T → list T → Prop :=
| il_nil : interleave [] [] []
| il_left x l1 l2 l : interleave l1 l2 l → interleave (x :: l1) l2 (x :: l)
| il_right x l1 l2 l : interleave l1 l2 l → interleave l1 (x :: l2) (x :: l).

Section every_order.
Context {W : Type} `{!Transport W, !Peers W}.
Implicit Types (s : app W daemon) (g : group).

Definition deliver (g : group) (fuel : nat) (e : member_event) : ST (app W daemon) unit :=
  match e with
  | Writeable i => MulticastDaemon.invoke fuel mc_server_conn_write_callback (g_conn g i)
  | Readable i => MulticastDaemon.invoke fuel mc_server_conn_read_callback (g_conn g i)
  end.

(** The next event of a member is handled and brings it one phase further. *)
Lemma deliver_run g out p i e l fuel s : group_wf g → standing_at g out p s → (i < 2)%nat → to_come (p i) i = e :: l →
  ∃ s' v, deliver g (S fuel) e s = Ret (tt, s') ∧ standing_at g out (upd p i v) s' ∧ l = to_come v i.
Proof.
  intros Hwf Hs Hi He. destruct (p i) eqn:Hp; cbn in He; [| |done]; injection He as <- <-.
  - destruct (writeable_run g out p i s Hwf Hs Hi Hp) as (s'&E&H). by exists s', Greeted.
  - destruct (readable_run g out p i fuel s Hwf Hs Hi Hp) as (s'&E&H). by exists s', Acked.
Qed.

Lemma deliver_all g out fuel l p s : group_wf g → standing_at g out p s → interleave (to_come (p 0%nat) 0) (to_come (p 1%nat) 1) l →
  ∃ s' q, for_each l (deliver g (S fuel)) s = Ret (tt, s') ∧ standing_at g out q s' ∧ q 0%nat = Acked ∧ q 1%nat = Acked.
Proof.
  intros Hwf. revert p s. induction l as [|e l IH]; intros p s Hs Hl.
  - exists s, p. inversion Hl as [H0 H1| |]. destruct (p 0%nat), (p 1%nat); done.
  - assert (∃ i l', (i < 2)%nat ∧ to_come (p i) i = e :: l' ∧ ∀ v, l' = to_come v i → interleave (to_come (upd p i v 0%nat) 0) (to_come (upd p i v 1%nat) 1) l)
      as (i&l'&Hi&He&Hrest).
    { inversion Hl as [|x l1 l2 l0 H E1 E2 E3|x l1 l2 l0 H E1 E2 E3]; subst.
      - exists 0%nat, l1. split_and!; [lia|done|]. by intros v ->.
      - exists 1%nat, l2. split_and!; [lia|done|]. by intros v ->. }
    destruct (deliver_run g out p i e l' fuel s Hwf Hs Hi He) as (s1&v&E1&Hs1&Hv).
    destruct (IH _ _ Hs1 (Hrest v Hv)) as (s2&q&E2&H2). exists s2, q. split; [|done].
    cbn [for_each]. rewrite (bind_run _ _ _ _ _ E1). exact E2.
Qed.

(** C4: The daemon finishes a group. When its connections to the two members stand
    and the members' messages are there to be read, then in whatever order the
    events of the two connections are handled, every handler returns, each
    member is sent the client's data and then the acknowledgement that names
    its queue pair, and the client is sent exactly one message: the answer made
    from what both members told. *)
Theorem group_answered g out fuel l s : group_wf g → standing_at g out (λ _, Fresh) s →
  interleave [Writeable 0; Readable 0] [Writeable 1; Readable 1] l →
  ∃ s' st, for_each l (deliver g (S fuel)) s = Ret (tt, s') ∧
    multicast_state (data s') !! g_id g = Some st ∧ cl_state st = CLIENT_HANDSHAKE_SENT ∧
    (let r i := MulticastDaemon.meta_of_msg (g_reply g i) in
     outbox (env s') (g_client_fd g) = out (g_client_fd g) ++ [to_client (g_id g) (g_sender g) (r 0%nat) (r 1%nat)] ∧
     ∀ i, (i < 2)%nat → outbox (env s') (g_fd g i) = out (g_fd g i) ++ [to_member (g_sender g) peer_meta0; to_member (g_sender g) (r i)]).
Proof.
  intros Hwf Hs Hl. destruct (deliver_all g out fuel l _ s Hwf Hs Hl) as (s'&q&E&[Hg _ _ _ _ Hout Hans]&H0&H1).
  assert (both q = true) as Hb by (unfold both; by rewrite H0, H1). exists s', (group_state q). rewrite Hb in Hans. unfold told in Hans. rewrite H0, H1 in Hans.
  split_and!; [exact E|by destruct Hg|unfold group_state; by rewrite Hb|]. split; [exact Hans|].
  intros i Hi. rewrite Hout by done. unfold sent. destruct i as [|[|]]; [by rewrite H0|by rewrite H1|lia].
Qed.
End every_order.

(** ** A concrete transport: each descriptor with what waits at it *)

Record net := mkNet { net_in : gmap Z (list (list Z)); net_out : gmap Z (list (list Z)) }.
Definition waiting (m : gmap Z (list (list Z))) (fd : Z) : list (list Z) := default [] (m !! fd).

Definition net_call (c : tcall) (w : net) : answer c * net :=
  match c return answer c * net with
  | t_read fd n =>
    match waiting (net_in w) fd with
    | m :: l => ((Z.of_nat (length m), m), mkNet (<[fd := l]> (net_in w)) (net_out w))
    | [] => ((- EAGAIN, []), w)
    end
  | t_write fd b => ((Z.of_nat (length b), 0), mkNet (net_in w) (<[fd := waiting (net_out w) fd ++ [b]]> (net_out w)))
  | Py_IsInitialized => (1, w)
  | PyImport_ImportModule n => (1, w)
  | c => ((calm_call c []).1, w)
  end.
#[global] Instance net_transport : Transport net := net_call.

#[global] Instance net_peers : Peers net.
Proof.
  refine {| inbox w := waiting (net_in w); outbox w := waiting (net_out w) |}.
  - intros fd b w. cbn. split_and!; [done|done|unfold waiting at 1; by rewrite lookup_insert_eq|].
    intros fd' H. unfold waiting at 1. by rewrite lookup_insert_ne.
  - intros fd n w b l E _. unfold t_call, net_transport, net_call. rewrite E. cbn.
    split_and!; [done|done|unfold waiting; by rewrite lookup_insert_eq| |done].
    intros fd' H. unfold waiting at 1. by rewrite lookup_insert_ne.
  - by intros [] w [].
  - intros n w. apply length_replicate.
Defined.

(** The daemon after a client's request: group 7, two members connected *)
Definition net_conn (fd rd wr : Z) : connection :=
  mkConn 7 STATE_CONNECTION_ESTABLISHED (Some fd) addr0 addr0 0 (Some rd) (Some wr).
Definition net_sender : peer_meta := mkPM 1 17 3 0 (replicate 16 9).
Definition net_group : group :=
  mkGroup 7 1 5 net_sender (λ i, 2 + Z.of_nat i) (λ i, 6 + Z.of_nat i)
    (λ i, demo_msg (2 + Z.of_nat i) (18 + Z.of_nat i) 4 17)
    (λ i, mkMsg (2 + Z.of_nat i) (18 + Z.of_nat i) 4 17 1 5150 2 5150 (replicate 16 9)).
Definition net_app : app net daemon :=
  mkApp (mkNet {[6 := [g_msg net_group 0]; 7 := [g_msg net_group 1]]} ∅) [0; 0]
    {[1 := net_conn 5 1 2; 2 := net_conn 6 3 4; 3 := net_conn 7 3 4]} 4 server0
    (mkDaemon 8 {[7 := mkMeta net_sender [peer_meta0; peer_meta0]]} {[7 := group_state (λ _, Fresh)]} {[7 := [1; 2; 3]]} {[7 := [addr0; addr0]]}).

Lemma net_group_wf : group_wf net_group.
Proof. split; [done|done|intros [|[|]] ?|intros [|[|]] ?|intros [|[|]] ?]; (lia || (vm_compute; congruence)). Qed.
Lemma net_standing : standing_at net_group (λ _, []) (λ _, Fresh) net_app.
Proof.
  split; [by split|by exists addr0, addr0|by eexists| | | |done].
  - intros [|[|]] ?; [by exists (net_conn 6 3 4)|by exists (net_conn 7 3 4)|lia].
  - intros [|[|]] ? _; [by exists []|by exists []|lia].
  - intros [|[|]] ?; [done|done|lia].
Qed.

(** The second member is quicker than the first. *)
Lemma group_answered_witness :
  ∃ s' st, for_each [Writeable 1; Writeable 0; Readable 1; Readable 0] (deliver net_group 1) net_app = Ret (tt, s') ∧
    multicast_state (data s') !! 7 = Some st ∧ cl_state st = CLIENT_HANDSHAKE_SENT ∧
    outbox (env s') 5 = [to_client 7 net_sender (mkPM 2 18 4 17 (replicate 16 9)) (mkPM 3 19 4 17 (replicate 16 9))].
Proof.
  destruct (group_answered net_group (λ _, []) 0 [Writeable 1; Writeable 0; Readable 1; Readable 0] net_app net_group_wf net_standing)
    as (s'&st&E&Hst&Hcl&Hans&_).
  - apply il_right, il_left, il_right, il_left, il_nil.
  - exists s', st. split; [exact E|]. split; [exact Hst|]. split; [exact Hcl|exact Hans].
Defined.
