(* ===== verification/Threads.v ===== *)
(** * The polling thread beside the threads of the workers
      (src/core/RDMAStack.cc, [RDMADispatcher], and src/core/RDMAConnectedSocketImpl.cc)

    The polling thread hands completions to sockets that the threads of the
    workers use and destroy. Here their steps interleave at the level of the
    locks. [handle_rx_event] holds the dispatcher's lock from its first lookup
    to its last [pass_wc]; a step of a worker that takes this lock waits for
    it. The lock of a socket is taken by [pass_wc], [get_wc] and the sending
    functions and is never held while another lock is waited for, so what runs
    under it is one step. [handle_tx_event] looks sockets up without a lock.

    Each socket has a thread of its own here, which allows more orders than the
    program has, where a worker serves several sockets one after the other. *)

From Stdlib Require Import Sorting.Sorted.
From S2P Require Import Prelude State Addr Buffers PerfCounters Machine Memory Wire QueuePair Net Infiniband Dispatcher Socket Polling Callbacks.

(** ** The threads *)

(** Where the polling thread is. In [RxLoop] and [RxPass] it holds the
    dispatcher's lock. [TxFound conn w ..]: the socket of [w] has been looked
    up, its callback has not been called. *)
Inductive poller :=
| Between
| RxLoop (cqe : list wc) (polled : list (Z * list wc))
| RxPass (polled : list (Z * list wc))
| TxLoop (cqe : list wc) (tx_chunks : list Z)
| TxFound (conn : Z) (response : wc) (cqe : list wc) (tx_chunks : list Z).

(** Where the life of a socket is: in use; in the destructor, before
    [schedule_qp_destroy]; in the loops over [wc] and [buffers]; freed *)
Inductive stage := Using | Leaving | RecallWc (i : nat) | RecallBuffers (i : nat) | Freed.

(** What happened to a socket: the completions the polling thread took for it,
    those [get_wc] returned, and those the destructor gave back *)
Record life := mkLife { at_stage : stage; arrived : list wc; taken : list wc; recalled : list wc }.

Definition set_stage (v : stage) (l : life) : life := mkLife v (arrived l) (taken l) (recalled l).
Definition add_arrived (w : wc) (l : life) : life := mkLife (at_stage l) (arrived l ++ [w]) (taken l) (recalled l).
Definition add_taken (v : list wc) (l : life) : life := mkLife (at_stage l) (arrived l) (taken l ++ v) (recalled l).
Definition add_recalled (i : nat) (w : wc) (l : life) : life := mkLife (RecallWc (S i)) (arrived l) (taken l) (recalled l ++ [w]).

(** The socket may still be found in the dispatcher's table. *)
Definition findable (v : stage) : bool := match v with Using | Leaving => true | _ => false end.

(** The dispatcher's lock *)
Definition locked (p : poller) : bool := match p with RxLoop _ _ | RxPass _ => true | _ => false end.

Record threads (W P : Type) := mkThreads { t_mach : mach W P; t_poller : poller; t_lives : gmap Z life }.
Arguments mkThreads {W P} _ _ _.
Arguments t_mach {W P} _.
Arguments t_poller {W P} _.
Arguments t_lives {W P} _.

(** ** The pieces between the accesses *)

Section pieces.
Context {W P : Type} `{!World W, !BoostPool P} (cfg : config).
Abbreviation M := (M W P).

(** A successful send completion, after the lookup *)
Definition tx_after (conn : Z) (response : wc) : M (option Z) :=
  Polling.txc_callback conn (wr_id response) ;;
  valid ← is_valid_chunk (wr_id response);
  if valid : bool then mret (Some (wr_id response)) else
  n ← QueuePair.get_local_qp_number (wr_id response);
  if n =? wc_qp_num response then mret None else fail KAbort.

(** The destructor of a socket: before the queue pair is scheduled *)
Definition leave (s : Z) : M unit :=
  Socket.cleanup s ;;
  k ← get_sock s;
  Worker.remove_pending_conn (s_worker k) s.
(** [dispatcher->schedule_qp_destroy(local_qpn)] *)
Definition schedule (s : Z) : M unit := k ← get_sock s; Dispatcher.schedule_qp_destroy (local_qpn k).
(** One round of the loops over [wc] and over [buffers] *)
Definition recall_wc (s : Z) (i : nat) : M (option wc) :=
  k ← get_sock s;
  match s_wc k !! i with Some w => Dispatcher.recall_chunk (wr_id w) ;; mret (Some w) | None => mret None end.
Definition recall_buffer (s : Z) (i : nat) : M bool :=
  k ← get_sock s;
  match buffers k !! i with Some c => Dispatcher.recall_chunk c ;; mret true | None => mret false end.
(** The end of the destructor, and [operator delete] *)
Definition free_socket (s : Z) : M unit :=
  k ← get_sock s;
  (if 0 <=? notify_fd k then sysret (c_close (notify_fd k)) ;; mret tt else mret tt) ;;
  (if 0 <=? tcp_fd k then sysret (c_close (tcp_fd k)) ;; mret tt else mret tt) ;;
  modify (λ m, set_socks (delete s (socks m)) m).

(** What else the thread of a socket does with it *)
Inductive use :=
| use_prefetch (w : wc) | use_recall (c : Z) | use_update_post_backlog | use_buffers (l : list Z)
| use_send (bl : BufferList.t) | use_send_chunks (l : list Z) | use_submit | use_fault | use_shutdown | use_notify
| use_cleanup | use_handle_connection (junk : list Z) | use_established (need_set_fault : bool) (junk : list Z).

Definition run_use (s : Z) (u : use) : M unit :=
  match u with
  | use_prefetch w => Socket.prefetch_one s w
  | use_recall c => Dispatcher.recall_chunk c
  | use_update_post_backlog => Socket.update_post_backlog cfg s
  | use_buffers l => on_sock s (set_buffers l)
  | use_send bl => Socket.send s bl ;; mret tt
  | use_send_chunks l => Socket.send_chunks s l ;; mret tt
  | use_submit => Socket.submit s ;; mret tt
  | use_fault => Socket.fault s
  | use_shutdown => Socket.shutdown s
  | use_notify => Socket.notify s
  | use_cleanup => Socket.cleanup s
  | use_handle_connection junk => Socket.handle_connection cfg s junk
  | use_established flt junk => Socket.handle_connection_established cfg s flt junk ;; mret tt
  end.

(** ** Steps

    A step runs a piece of the program, and returns from it: a step that
    crashes ends the program. [ts_create]: the constructor makes the socket in
    memory that is free; only its last part, the registration, meets the
    polling thread. *)
Inductive t_step : threads W P → threads W P → Prop :=
| ts_rx cqe m ls : t_step (mkThreads m Between ls) (mkThreads m (RxLoop cqe []) ls)
| ts_rx_one w cqe polled polled' conn m m0 m' ls :
    Dispatcher.get_conn_lockless (wc_qp_num w) m = Ret (conn, m0) → Polling.rx_one cfg w polled m = Ret (polled', m') →
    t_step (mkThreads m (RxLoop (w :: cqe) polled) ls)
      (mkThreads m' (RxLoop cqe polled') (if conn =? 0 then ls else alter (add_arrived w) conn ls))
| ts_rx_pass polled m ls : t_step (mkThreads m (RxLoop [] polled) ls) (mkThreads m (RxPass polled) ls)
| ts_pass s v polled m m' ls : Socket.pass_wc s v m = Ret (tt, m') →
    t_step (mkThreads m (RxPass ((s, v) :: polled)) ls) (mkThreads m' (RxPass polled) ls)
| ts_rx_end m ls : t_step (mkThreads m (RxPass []) ls) (mkThreads m Between ls)
| ts_tx cqe m ls : t_step (mkThreads m Between ls) (mkThreads m (TxLoop cqe []) ls)
| ts_beacon w cqe l m m' ls : wr_id w = BEACON_WRID → Dispatcher.enqueue_dead_qp (wc_qp_num w) m = Ret (tt, m') →
    t_step (mkThreads m (TxLoop (w :: cqe) l) ls) (mkThreads m' (TxLoop cqe l) ls)
| ts_tx_find w cqe l conn m m' ls : wr_id w ≠ BEACON_WRID → wc_status w = IBV_WC_SUCCESS →
    Dispatcher.get_conn_lockless (wc_qp_num w) m = Ret (conn, m') →
    t_step (mkThreads m (TxLoop (w :: cqe) l) ls) (mkThreads m' (TxFound conn w cqe l) ls)
| ts_tx_one conn w cqe l o m m' ls : tx_after conn w m = Ret (o, m') →
    t_step (mkThreads m (TxFound conn w cqe l) ls)
      (mkThreads m' (TxLoop cqe (match o with Some c => l ++ [c] | None => l end)) ls)
| ts_tx_end l m m' ls : Dispatcher.post_tx_buffer l m = Ret (tt, m') →
    t_step (mkThreads m (TxLoop [] l) ls) (mkThreads m' Between ls)
| ts_idle b m m' ls : Dispatcher.poll_idle m = Ret (b, m') → t_step (mkThreads m Between ls) (mkThreads m' Between ls)
| ts_create w s m m' p ls : locked p = false → Socket.create cfg w m = Ret (s, m') → socks m !! s = None →
    t_step (mkThreads m p ls) (mkThreads m' p (<[s := mkLife Using [] [] []]> ls))
| ts_get_wc s l v m m' p ls : ls !! s = Some l → at_stage l = Using → Socket.get_wc s m = Ret (v, m') →
    t_step (mkThreads m p ls) (mkThreads m' p (<[s := add_taken v l]> ls))
| ts_use s l u m m' p ls : ls !! s = Some l → at_stage l = Using → run_use s u m = Ret (tt, m') →
    t_step (mkThreads m p ls) (mkThreads m' p ls)
| ts_leave s l m m' p ls : ls !! s = Some l → at_stage l = Using → leave s m = Ret (tt, m') →
    t_step (mkThreads m p ls) (mkThreads m' p (<[s := set_stage Leaving l]> ls))
| ts_schedule s l m m' p ls : locked p = false → ls !! s = Some l → at_stage l = Leaving → schedule s m = Ret (tt, m') →
    t_step (mkThreads m p ls) (mkThreads m' p (<[s := set_stage (RecallWc 0) l]> ls))
| ts_recall_wc s l i w m m' p ls : locked p = false → ls !! s = Some l → at_stage l = RecallWc i → recall_wc s i m = Ret (Some w, m') →
    t_step (mkThreads m p ls) (mkThreads m' p (<[s := add_recalled i w l]> ls))
| ts_recall_end s l i m m' p ls : ls !! s = Some l → at_stage l = RecallWc i → recall_wc s i m = Ret (None, m') →
    t_step (mkThreads m p ls) (mkThreads m' p (<[s := set_stage (RecallBuffers 0) l]> ls))
| ts_recall_buffer s l i m m' p ls : locked p = false → ls !! s = Some l → at_stage l = RecallBuffers i → recall_buffer s i m = Ret (true, m') →
    t_step (mkThreads m p ls) (mkThreads m' p (<[s := set_stage (RecallBuffers (S i)) l]> ls))
| ts_free s l i m m1 m' p ls : ls !! s = Some l → at_stage l = RecallBuffers i → recall_buffer s i m = Ret (false, m1) →
    free_socket s m1 = Ret (tt, m') →
    t_step (mkThreads m p ls) (mkThreads m' p (<[s := set_stage Freed l]> ls)).

End pieces.

(** ** What the threads share *)

(** The dispatcher's table, and of each socket its number and its completions *)
Definition key (k : socket) : Z * list wc := (local_qpn k, s_wc k).
Definition shared {W P} (m : mach W P) : gmap Z (Z * Z) * gmap Z (Z * list wc) := (qp_conns (disp m), key <$> socks m).

Section shared.
Context {W P : Type} `{!World W}.
Implicit Types m : mach W P.

Lemma shared_sys c : frame shared (sys (W := W) (P := P) c).
Proof. by apply frame_sys. Qed.
Lemma shared_on_sock s f : (∀ k, key (f k) = key k) → frame shared (on_sock (W := W) (P := P) s f).
Proof.
  intros Hf m [] m'. unfold on_sock, get_sock, put_sock, mbind, ST_bind, gets, the, modify, mret, ST_ret, fail.
  destruct (socks m !! s) as [k|] eqn:E; [|done]. intros [= <-]. unfold shared. cbn. rewrite fmap_insert, Hf. f_equal.
  apply insert_id. by rewrite lookup_fmap, E.
Qed.
End shared.

Ltac shared_step :=
  first
  [ match goal with
    | |- frame shared (sys _) => apply shared_sys
    | |- frame shared (on_sock _ _) => apply shared_on_sock; intros; by repeat case_match
    end
  | solve [auto with frames nocore]
  | match goal with |- frame _ (_ ≫= _) => apply frame_bind; [|intros] end
  | apply frame_modify; intros; reflexivity
  | match goal with
    | |- frame _ (if ?b then _ else _) => destruct b
    | |- frame _ (match ?x with _ => _ end) => destruct x
    | |- frame _ (when _ _) => apply frame_when
    | |- frame _ (for_each _ _) => apply frame_for_each; intros
    | |- frame _ ?x => let h := head_of x in progress unfold h
    end ].
Ltac solve_shared := intros; repeat shared_step.

Section frames.
Context {W P : Type} `{!World W, !BoostPool P, !PoolFrame P} (cfg : config).
Abbreviation leaves := (frame (S := mach W P) shared).

Lemma send_wrs_shared w cs : leaves (Socket.send_wrs w cs).
Proof using Type. induction cs; cbn [Socket.send_wrs]; solve_shared. Qed.
Lemma tx_chunks_of_shared l : leaves (Socket.tx_chunks_of l).
Proof using Type. induction l; cbn [Socket.tx_chunks_of]; solve_shared. Qed.
Lemma send_cm_loop_shared n fd text junk : leaves (QueuePair.send_cm_loop n fd text junk).
Proof using Type. revert text junk. induction n; intros; cbn [QueuePair.send_cm_loop]; solve_shared. Qed.
Lemma init_chunks_shared n mr lkey bytes stride c : leaves (init_chunks n mr lkey bytes stride c).
Proof using Type. revert c. induction n; intros; cbn [init_chunks]; solve_shared. Qed.
#[local] Hint Resolve send_wrs_shared tx_chunks_of_shared send_cm_loop_shared init_chunks_shared : frames.
Lemma submit_shared s : leaves (Socket.submit s).
Proof using Type. solve_shared. Qed.
#[local] Hint Resolve submit_shared : frames.
Lemma get_rx_buffer_shared : leaves (get_rx_buffer cfg).
Proof using All.
  unfold get_rx_buffer, mem_pool_malloc. apply frame_bind; [solve_shared|intros p0]. destruct (negb _); [solve_shared|].
  unfold slow_malloc, with_context, scope_guard. apply frame_bind; [solve_shared|intros _]. apply frame_bind; [|solve_shared].
  apply frame_bind; [solve_shared|intros p]. apply frame_bind; [|solve_shared].
  intros m [c p'] m'. destruct (pool_malloc _ _ p m) as [[[c' p''] m1]|] eqn:E; [|done]. intros [= _ _ <-].
  revert E. apply (pool_malloc_frame _ _ shared). intros z x a x'.
  assert (leaves (PoolAllocator_malloc cfg z)) as H by solve_shared. apply H.
Qed.
#[local] Hint Resolve get_rx_buffer_shared : frames.
Lemma collect_shared n q acc : leaves (collect cfg n q acc).
Proof using All. revert acc. induction n; intros; cbn [collect]; solve_shared. Qed.
#[local] Hint Resolve collect_shared : frames.
Lemma post_chunks_shared n q : leaves (post_chunks_to_rq cfg n q).
Proof using All. solve_shared. Qed.
#[local] Hint Resolve post_chunks_shared : frames.

Lemma run_use_shared s u : leaves (run_use cfg s u).
Proof using All. destruct u; solve_shared. Qed.
Lemma leave_shared s : leaves (leave s).
Proof using Type. solve_shared. Qed.
Lemma recall_wc_shared s i : leaves (recall_wc s i).
Proof using Type. solve_shared. Qed.
Lemma recall_buffer_shared s i : leaves (recall_buffer s i).
Proof using Type. solve_shared. Qed.
Lemma get_conn_shared n : leaves (Dispatcher.get_conn_lockless n).
Proof using Type. solve_shared. Qed.
Lemma tx_after_shared conn w : leaves (tx_after conn w).
Proof using Type. solve_shared. Qed.
Lemma take_back_shared l : leaves (Cluster_take_back l).
Proof using Type. induction l; cbn [Cluster_take_back]; solve_shared. Qed.
#[local] Hint Resolve take_back_shared : frames.
Lemma post_tx_buffer_shared l : leaves (Dispatcher.post_tx_buffer l).
Proof using Type. solve_shared. Qed.
Lemma poll_idle_shared : leaves Dispatcher.poll_idle.
Proof using Type. solve_shared. Qed.
Lemma create_queue_pair_shared tx rx ty id : leaves (create_queue_pair cfg tx rx ty id).
Proof using All. solve_shared. Qed.
Lemma find_dead_shared l n : leaves (Dispatcher.find_dead l n).
Proof using Type. induction l; cbn [Dispatcher.find_dead]; solve_shared. Qed.
#[local] Hint Resolve find_dead_shared get_conn_shared : frames.
Lemma rx_one_shared w polled : leaves (Polling.rx_one cfg w polled).
Proof using All. solve_shared. Qed.
End frames.

(** ** Completions grouped by socket *)

Abbreviation sorted := (StronglySorted (λ a b : Z * list wc, a.1 < b.1)).

(** What [polled] holds for [s] *)
Definition pending (s : Z) (polled : list (Z * list wc)) : list wc :=
  concat ((filter (λ e, e.1 = s) polled).*2).

Lemma pending_cons s e polled : pending s (e :: polled) = (if decide (e.1 = s) then e.2 else []) ++ pending s polled.
Proof. unfold pending. rewrite filter_cons. by destruct (decide (e.1 = s)). Qed.
Lemma pending_none s polled : Forall (λ e, e.1 ≠ s) polled → pending s polled = [].
Proof. induction 1 as [|e polled H _ IH]; [done|]. by rewrite pending_cons, decide_False, IH. Qed.

Lemma polled_add_Forall (Q : Z → Prop) polled conn w :
  Forall (λ e, Q e.1) polled → Q conn → Forall (λ e, Q e.1) (Polling.polled_add polled conn w).
Proof.
  intros H Hc. induction H as [|[s l] polled Hs H IH]; cbn [Polling.polled_add]; [by repeat constructor|].
  destruct (conn =? s); [by constructor|]. destruct (conn <? s); [by repeat constructor|]. by constructor.
Qed.

Lemma polled_add_sorted polled conn w : sorted polled → sorted (Polling.polled_add polled conn w).
Proof.
  induction 1 as [|[s l] polled H IH Hall]; cbn [Polling.polled_add]; [by repeat constructor|].
  destruct (Z.eqb_spec conn s) as [->|Hne]; [by constructor|]. destruct (Z.ltb_spec conn s) as [Hlt|Hge].
  - constructor; [by constructor|]. constructor; [exact Hlt|]. eapply Forall_impl; [exact Hall|]. cbn. intros e He. lia.
  - constructor; [exact IH|]. apply (polled_add_Forall (λ x, s < x)); [exact Hall|lia].
Qed.

Lemma pending_add polled conn w s : sorted polled →
  pending s (Polling.polled_add polled conn w) = pending s polled ++ (if decide (conn = s) then [w] else []).
Proof.
  induction 1 as [|[s' l] polled H IH Hall]; cbn [Polling.polled_add].
  { rewrite pending_cons. cbn [fst snd]. by rewrite app_nil_r. }
  destruct (Z.eqb_spec conn s') as [->|Hne].
  - rewrite !pending_cons. cbn [fst snd]. destruct (decide (s' = s)) as [->|]; [|by rewrite app_nil_r].
    rewrite (pending_none s polled); [by rewrite !app_nil_r|]. eapply Forall_impl; [exact Hall|]. cbn. lia.
  - destruct (Z.ltb_spec conn s') as [Hlt|Hge].
    + rewrite (pending_cons s (conn, [w])). cbn [fst snd]. destruct (decide (conn = s)) as [->|]; [|by rewrite app_nil_r].
      rewrite (pending_none s ((s', l) :: polled)); [done|]. constructor; [cbn; lia|]. eapply Forall_impl; [exact Hall|]. cbn. lia.
    + rewrite !pending_cons, IH. by rewrite app_assoc.
Qed.

(** ** The invariant *)

Definition polled_of (p : poller) : list (Z * list wc) :=
  match p with RxLoop _ polled | RxPass polled => polled | _ => [] end.

Section invariant.
Implicit Types (T : gmap Z (Z * Z)) (K : gmap Z (Z * list wc)) (p : poller) (ls : gmap Z life).

(** The books of one socket: whatever arrived has been taken, or is in [wc],
    or is about to be passed; what the destructor gave back is from [wc]. *)
Definition life_ok K (polled : list (Z * list wc)) (s : Z) (l : life) : Prop :=
  match at_stage l with
  | Freed => arrived l = taken l ++ recalled l
  | v => ∃ n wcs, K !! s = Some (n, wcs) ∧ arrived l = taken l ++ wcs ++ pending s polled ∧
      recalled l = match v with RecallWc i => take i wcs | RecallBuffers _ => wcs | _ => [] end
  end.

Definition can_find ls (s : Z) : Prop := ∃ l, ls !! s = Some l ∧ findable (at_stage l) = true.

Record tinv T K (polled : list (Z * list wc)) ls : Prop := {
  ti_table : ∀ qpn q s, T !! qpn = Some (q, s) → s ≠ 0 → can_find ls s ∧ ∃ wcs, K !! s = Some (qpn, wcs);
  ti_polled : Forall (λ e, can_find ls e.1) polled;
  ti_sorted : sorted polled;
  ti_life : ∀ s l, ls !! s = Some l → life_ok K polled s l;
}.

Lemma life_alive K polled s l : life_ok K polled s l → at_stage l ≠ Freed → ∃ n wcs, K !! s = Some (n, wcs).
Proof. unfold life_ok. destruct (at_stage l); naive_solver. Qed.
Lemma can_find_alive T K polled ls s : tinv T K polled ls → can_find ls s → ∃ n wcs, K !! s = Some (n, wcs).
Proof. intros H (l&Hl&Hf). eapply life_alive; [by eapply ti_life|]. by destruct (at_stage l). Qed.

(** Entries leave the table. *)
Lemma tinv_table T T' K polled ls : (∀ qpn q s, T' !! qpn = Some (q, s) → s ≠ 0 → T !! qpn = Some (q, s)) →
  tinv T K polled ls → tinv T' K polled ls.
Proof. intros Hsub [H1 H2 H3 H4]. split; [|done..]. intros qpn q s Hs Hne. eapply H1; [by apply Hsub|done]. Qed.

(** Neither the table nor the polling thread has the socket. *)
Definition unfound T (polled : list (Z * list wc)) (s : Z) : Prop :=
  Forall (λ e, e.1 ≠ s) polled ∧ ∀ qpn q, T !! qpn = Some (q, s) → s = 0.
Lemma not_findable T K polled ls s l : tinv T K polled ls → ls !! s = Some l → findable (at_stage l) = false → unfound T polled s.
Proof.
  intros [H1 H2 _ _] Hl Hf. assert (¬ can_find ls s) as Hno by (intros (l'&?&?); simplify_eq; congruence). split.
  - eapply Forall_impl; [exact H2|]. intros e He E. apply Hno. by rewrite <-E.
  - intros qpn q Hq. destruct (decide (s = 0)) as [|Hs]; [done|]. by destruct (H1 _ _ _ Hq Hs).
Qed.

(** A socket goes from one stage to the next, no further than before. *)
Lemma can_find_insert ls s l s' : (findable (at_stage l) = true ∨ s' ≠ s) → can_find ls s' → can_find (<[s := l]> ls) s'.
Proof.
  intros Hor (l'&Hl'&Hf). destruct (decide (s' = s)) as [->|].
  - exists l. rewrite lookup_insert_eq. by destruct Hor.
  - exists l'. by rewrite lookup_insert_ne.
Qed.
Lemma tinv_life T K polled ls s l : tinv T K polled ls → life_ok K polled s l →
  (findable (at_stage l) = false → unfound T polled s) →
  tinv T K polled (<[s := l]> ls).
Proof.
  intros [H1 H2 H3 H4] Hl Hf. split; [| |done|].
  - intros qpn q s' Hs Hne. destruct (H1 _ _ _ Hs Hne) as [Hc Hw]. split; [|done]. apply can_find_insert; [|done].
    destruct (findable (at_stage l)) eqn:E; [by left|right]. intros ->. destruct (Hf eq_refl) as [_ Hno]. by apply Hne, (Hno qpn q).
  - destruct (findable (at_stage l)) eqn:E.
    + eapply Forall_impl; [exact H2|]. intros e He. apply can_find_insert; [by left|done].
    + destruct (Hf eq_refl) as [Hno _]. eapply Forall_impl; [exact (proj2 (Forall_and _ _) (conj H2 Hno))|]. intros e [He ?]. apply can_find_insert; [by right|done].
  - intros s' l' [[<- <-]|[Hne Hs']]%lookup_insert_Some; [done|]. by apply H4.
Qed.
End invariant.

(** ** What the pieces do to it *)

Section effects.
Context {W P : Type} `{!World W, !BoostPool P, !PoolFrame P} (cfg : config).
Implicit Types m : mach W P.

Lemma shared_lookup m T K s n wcs : shared m = (T, K) → K !! s = Some (n, wcs) → ∃ k, socks m !! s = Some k ∧ local_qpn k = n ∧ s_wc k = wcs.
Proof. intros [= <- <-]. rewrite lookup_fmap. intros (k&Hk&[= -> ->])%fmap_Some. eauto. Qed.
Lemma shared_socks m T K s k : shared m = (T, K) → socks m !! s = Some k → K !! s = Some (local_qpn k, s_wc k).
Proof. intros [= <- <-] Hk. by rewrite lookup_fmap, Hk. Qed.

(** The lookup finds what is in the table and not dead. *)
Lemma get_conn_found m n conn m' : Dispatcher.get_conn_lockless n m = Ret (conn, m') → conn ≠ 0 → ∃ q, qp_conns (disp m) !! n = Some (q, conn).
Proof.
  intros H Hne. revert H. unfold Dispatcher.get_conn_lockless, mbind, ST_bind, gets.
  destruct (qp_conns (disp m) !! n) as [[q s]|]; [|by intros [= <- _]].
  destruct (QueuePair.is_dead q m) as [[[] m1]|]; [| |done]; intros [= <- _]; [done|eauto].
Qed.

Lemma wlp_any {A B} (x : M W P A) (k : A → M W P B) Q m : (∀ a m', wlp (k a) Q m') → wlp (x ≫= k) Q m.
Proof using Type. intros Hk. apply wlp_bind. unfold wlp at 1. destruct (x m) as [[a m2]|]; [apply Hk|done]. Qed.
Lemma wlp_shared {A} (x : M W P A) Q m : frame shared x → (∀ a m', shared m' = shared m → Q a m') → wlp x Q m.
Proof using Type. intros Hf HQ. unfold wlp. destruct (x m) as [[a m']|] eqn:E; [|done]. apply HQ. by eapply Hf. Qed.
Lemma rx_one_polled m w polled polled' conn m0 m' :
  Dispatcher.get_conn_lockless (wc_qp_num w) m = Ret (conn, m0) → Polling.rx_one cfg w polled m = Ret (polled', m') →
  polled' = if conn =? 0 then polled else Polling.polled_add polled conn w.
Proof using Type.
  intros E H. refine (wlp_elim _ (λ r _, r = if conn =? 0 then polled else Polling.polled_add polled conn w) m polled' m' _ H).
  unfold Polling.rx_one. cbv zeta. apply wlp_bind. unfold wlp at 1. rewrite E. apply wlp_any. intros q m1. destruct (wc_status w =? _).
  - apply wlp_any. intros _ m2. destruct (conn =? 0); [by apply wlp_any|]. apply wlp_any. intros _ m3. by apply wlp_any.
  - unfold Polling.rx_error. do 4 (apply wlp_any; intros ? ?). by apply wlp_fail.
Qed.

Lemma on_sock_shared m T K s f n wcs m' : shared m = (T, K) → K !! s = Some (n, wcs) → on_sock s f m = Ret (tt, m') →
  ∃ k, local_qpn k = n ∧ s_wc k = wcs ∧ shared m' = (T, <[s := key (f k)]> K).
Proof using Type.
  intros Hsh Hk. destruct (shared_lookup m T K s n wcs Hsh Hk) as (k&Ek&E1&E2).
  unfold on_sock, get_sock, put_sock, mbind, ST_bind, gets. rewrite Ek. intros [= <-]. exists k. split_and!; [done|done|].
  injection Hsh as <- <-. unfold shared. cbn. by rewrite fmap_insert.
Qed.
Lemma pass_wc_shared m T K s v n wcs m' : shared m = (T, K) → K !! s = Some (n, wcs) → Socket.pass_wc s v m = Ret (tt, m') →
  shared m' = (T, <[s := (n, wcs ++ v)]> K).
Proof using Type. intros Hsh Hk H. by destruct (on_sock_shared m T K s _ n wcs m' Hsh Hk H) as (k&<-&<-&->). Qed.
Lemma get_wc_shared m T K s v n wcs m' : shared m = (T, K) → K !! s = Some (n, wcs) → Socket.get_wc s m = Ret (v, m') →
  v = wcs ∧ shared m' = (T, <[s := (n, [])]> K).
Proof using Type.
  intros Hsh Hk. destruct (shared_lookup m T K s n wcs Hsh Hk) as (k&Ek&<-&<-).
  unfold Socket.get_wc, get_sock, put_sock, mbind, ST_bind, gets. rewrite Ek. intros [= <- <-]. split; [done|].
  injection Hsh as <- <-. unfold shared. cbn. by rewrite fmap_insert.
Qed.
Lemma free_shared m T K s m' : shared m = (T, K) → free_socket s m = Ret (tt, m') → shared m' = (T, delete s K).
Proof using Type.
  intros Hsh H. refine (wlp_elim _ (λ _ m', shared m' = (T, delete s K)) m tt m' _ H). unfold free_socket.
  apply wlp_bind, wlp_shared; [solve_shared|]. intros k m1 E1. apply wlp_bind, wlp_shared; [solve_shared|]. intros _ m2 E2.
  apply wlp_bind, wlp_shared; [solve_shared|]. intros _ m3 E3. apply wlp_modify.
  assert (shared m3 = (T, K)) as E by congruence. injection E as <- <-. unfold shared. cbn. by rewrite fmap_delete.
Qed.
Lemma enqueue_shared m T K n m' : shared m = (T, K) → Dispatcher.enqueue_dead_qp n m = Ret (tt, m') →
  ∃ T', shared m' = (T', K) ∧ ∀ qpn q s, T' !! qpn = Some (q, s) → s ≠ 0 → T !! qpn = Some (q, s).
Proof using Type.
  intros [= <- <-]. unfold Dispatcher.enqueue_dead_qp, Dispatcher.enqueue_dead_qp_lockless, mbind, ST_bind, gets.
  destruct (qp_conns (disp m) !! n) as [[q0 s0]|]; intros [= <-]; eexists; (split; [reflexivity|]); [|done].
  cbn. intros qpn q s [_ H]%lookup_delete_Some _. exact H.
Qed.
Lemma schedule_shared m T K s n wcs m' : shared m = (T, K) → K !! s = Some (n, wcs) → schedule s m = Ret (tt, m') →
  ∃ T', shared m' = (T', K) ∧ (∀ qpn q s, T' !! qpn = Some (q, s) → s ≠ 0 → T !! qpn = Some (q, s)) ∧ ∀ q s', T' !! n = Some (q, s') → s' = 0.
Proof using Type.
  intros Hsh Hk. destruct (shared_lookup m T K s n wcs Hsh Hk) as (k&Ek&<-&_). injection Hsh as <- <-.
  unfold schedule, get_sock, mbind, ST_bind, gets. rewrite Ek. cbn [the]. unfold mret, ST_ret, Dispatcher.schedule_qp_destroy, mbind, ST_bind, gets.
  destruct (qp_conns (disp m) !! local_qpn k) as [[q0 s0]|] eqn:Eq; [|intros [= <-]; eexists; split_and!; [reflexivity|done|congruence]].
  destruct (QueuePair.to_dead q0 m) as [[r m1]|] eqn:Ed; [|done].
  assert (shared m1 = shared m) as Hs1 by (assert (frame shared (QueuePair.to_dead (W := W) (P := P) q0)) as Hf by solve_shared; by apply Hf in Ed).
  injection Hs1 as E1 E2. unfold on_disp, modify. destruct (negb (r =? 0)); intros [= <-]; unfold shared; cbn; rewrite E1, E2; eexists; split_and!; [reflexivity| | |reflexivity| |].
  - intros qpn q s1 [_ H]%lookup_delete_Some _. exact H.
  - intros q s1. by rewrite lookup_delete_eq.
  - intros qpn q s1 [[_ [= _ <-]]|[_ H]]%lookup_insert_Some Hne; [done|exact H].
  - intros q s1. rewrite lookup_insert_eq. by intros [= _ <-].
Qed.

(** The constructor adds a socket without completions, and perhaps its entry. *)
Lemma create_shared m T K w s m' : shared m = (T, K) → Socket.create cfg w m = Ret (s, m') →
  ∃ T' n, shared m' = (T', <[s := (n, [])]> K) ∧ (T' = T ∨ ∃ q, T !! n = None ∧ T' = <[n := (q, s)]> T).
Proof using All.
  intros Hsh H. refine (wlp_elim _ (λ s m', ∃ T' n, shared m' = (T', <[s := (n, [])]> K) ∧ (T' = T ∨ ∃ q, T !! n = None ∧ T' = <[n := (q, s)]> T)) m s m' _ H).
  clear H s m'. unfold Socket.create.
  apply wlp_bind, wlp_shared; [solve_shared|]. intros s m1 V1. apply wlp_bind, wlp_shared; [solve_shared|]. intros rh m2 V2.
  apply wlp_bind, wlp_shared; [solve_shared|]. intros eh m3 V3. apply wlp_bind. unfold put_sock. apply wlp_modify. set (m4 := set_socks _ m3).
  assert (shared m4 = (T, <[s := (0, [])]> K)) as V4.
  { assert (shared m3 = (T, K)) as E by congruence. injection E as <- <-. unfold shared, m4. cbn. by rewrite fmap_insert. }
  destruct (m_use_rdma_cm_ cfg); [apply wlp_ret; exists T, 0; auto|]. apply wlp_bind, wlp_gets, wlp_bind, wlp_shared; [apply create_queue_pair_shared|].
  intros q m5 V5. apply wlp_bind, wlp_shared; [solve_shared|]. intros _ m6 V6.
  destruct (q =? 0); [apply wlp_ret; exists T, 0; split; [congruence|by left]|].
  assert (shared m6 = (T, <[s := (0, [])]> K)) as E by congruence. clear -E.
  apply wlp_bind. unfold QueuePair.get_local_qp_number at 1. unfold get_qp. wlp_auto; try done.
  cbn in *. rewrite lookup_insert_eq in *. simplify_eq/=.
  match goal with H : bool_decide _ = true |- _ => apply bool_decide_eq_true in H end.
  injection E as E1 E2. assert (s_wc a0 = []) as Hwc.
  { assert ((key <$> socks m6) !! s = Some (0, [])) as Hl by (by rewrite E2, lookup_insert_eq).
    match goal with H : socks m6 !! s = Some a0 |- _ => rewrite lookup_fmap, H in Hl end. by injection Hl. }
  exists (<[qp_num a := (q, s)]> T), (qp_num a). split; [|right; exists q; by rewrite <-E1].
  unfold shared. cbn. rewrite insert_insert_eq, fmap_insert, E1, E2, insert_insert_eq. unfold key. cbn. by rewrite Hwc.
Qed.
End effects.

(** ** Every run *)

Section every_run.
Context {W P : Type} `{!World W, !BoostPool P, !PoolFrame P} (cfg : config).
Implicit Types (m : mach W P) (x y : threads W P).

Definition tok x : Prop := tinv (shared (t_mach x)).1 (shared (t_mach x)).2 (polled_of (t_poller x)) (t_lives x).

Lemma tok_shared m m' p p' ls : shared m' = shared m → polled_of p' = polled_of p → tok (mkThreads m p ls) → tok (mkThreads m' p' ls).
Proof. unfold tok. cbn [t_mach t_poller t_lives]. by intros -> ->. Qed.

(** The polling thread takes a completion for a socket it found. *)
Lemma tinv_arrive T K polled ls conn w qpn q : tinv T K polled ls → T !! qpn = Some (q, conn) → conn ≠ 0 →
  tinv T K (Polling.polled_add polled conn w) (alter (add_arrived w) conn ls).
Proof.
  intros [H1 H2 H3 H4] Hc Hne. destruct (H1 _ _ _ Hc Hne) as [(l0&Hl0&Hf0) _].
  assert (∀ s, can_find ls s → can_find (alter (add_arrived w) conn ls) s) as Hcf.
  { intros s (l&Hl&Hf). destruct (decide (s = conn)) as [->|Hs]; [exists (add_arrived w l)|exists l].
    - by rewrite lookup_alter_eq, Hl.
    - by rewrite lookup_alter_ne. }
  split.
  - intros n q' s Hs Hs0. destruct (H1 _ _ _ Hs Hs0) as [? ?]. auto.
  - apply (polled_add_Forall (can_find (alter (add_arrived w) conn ls))); [eapply Forall_impl; [exact H2|auto]|]. apply Hcf. by exists l0.
  - by apply polled_add_sorted.
  - intros s l Hl. destruct (decide (s = conn)) as [->|Hs].
    + rewrite lookup_alter_eq, Hl0 in Hl. injection Hl as <-. specialize (H4 _ _ Hl0). unfold life_ok in *. cbn [at_stage add_arrived].
      destruct (at_stage l0); try discriminate Hf0; destruct H4 as (n&wcs&Hk&Ha&Hr); exists n, wcs; (split_and!; [done| |done]);
        rewrite pending_add, decide_True by done; cbn [arrived taken add_arrived]; rewrite Ha; by rewrite <-!app_assoc.
    + rewrite lookup_alter_ne in Hl by done. specialize (H4 _ _ Hl). unfold life_ok in *. rewrite pending_add, decide_False, app_nil_r by done. exact H4.
Qed.

(** The completions of one socket change hands. *)
Lemma life_ok_other K K' polled polled' s l : K' !! s = K !! s → pending s polled' = pending s polled → life_ok K polled s l → life_ok K' polled' s l.
Proof. unfold life_ok. by intros -> ->. Qed.

Lemma tinv_pass T K s v polled ls n wcs : tinv T K ((s, v) :: polled) ls → K !! s = Some (n, wcs) →
  tinv T (<[s := (n, wcs ++ v)]> K) polled ls.
Proof.
  intros [H1 H2 H3 H4] Hk. apply Forall_cons in H2 as [(l0&Hl0&Hf0) H2]. cbn [fst] in Hl0. apply StronglySorted_inv in H3 as [H3 _]. split; [|done|done|].
  - intros qpn q s' Hs Hne. destruct (H1 _ _ _ Hs Hne) as (Hc&wcs'&Hw). split; [done|].
    destruct (decide (s' = s)) as [->|]; [|exists wcs'; by rewrite lookup_insert_ne].
    rewrite Hk in Hw. injection Hw as -> ->. eexists. by rewrite lookup_insert_eq.
  - intros s' l Hl. specialize (H4 _ _ Hl). destruct (decide (s' = s)) as [->|Hs].
    + rewrite Hl0 in Hl. injection Hl as <-. unfold life_ok in *. rewrite pending_cons, decide_True in H4 by done. cbn [snd] in H4.
      destruct (at_stage l0); try discriminate Hf0; destruct H4 as (n'&wcs'&Hk'&Ha&Hr); rewrite Hk in Hk'; injection Hk' as <- <-;
        eexists _, _; (split_and!; [apply lookup_insert_eq| |done]); by rewrite <-app_assoc.
    + eapply life_ok_other; [by rewrite lookup_insert_ne| |exact H4]. rewrite pending_cons. by rewrite decide_False.
Qed.

Lemma tinv_take T K s l polled ls n wcs : tinv T K polled ls → ls !! s = Some l → at_stage l = Using → K !! s = Some (n, wcs) →
  tinv T (<[s := (n, [])]> K) polled (<[s := add_taken wcs l]> ls).
Proof.
  intros [H1 H2 H3 H4] Hl Hst Hk. assert (∀ s', can_find ls s' → can_find (<[s := add_taken wcs l]> ls) s') as Hcf.
  { intros s'. apply can_find_insert. left. cbn. by rewrite Hst. }
  split; [|eapply Forall_impl; [exact H2|auto]|done|].
  - intros qpn q s' Hs Hne. destruct (H1 _ _ _ Hs Hne) as (Hc&wcs'&Hw). split; [by apply Hcf|].
    destruct (decide (s' = s)) as [->|]; [|exists wcs'; by rewrite lookup_insert_ne].
    rewrite Hk in Hw. injection Hw as -> ->. eexists. by rewrite lookup_insert_eq.
  - intros s' l' [[<- <-]|[Hs Hl']]%lookup_insert_Some.
    + specialize (H4 _ _ Hl). unfold life_ok in *. cbn [at_stage add_taken]. rewrite Hst in *. destruct H4 as (n'&wcs'&Hk'&Ha&Hr).
      rewrite Hk in Hk'. injection Hk' as <- <-. eexists _, _. split_and!; [apply lookup_insert_eq| |done]. cbn. by rewrite <-app_assoc.
    + eapply life_ok_other; [by rewrite lookup_insert_ne|done|by apply H4].
Qed.

Lemma tinv_create T T' K s n ls : tinv T K [] ls → K !! s = None → T' = T ∨ (∃ q, T !! n = None ∧ T' = <[n := (q, s)]> T) →
  tinv T' (<[s := (n, [])]> K) [] (<[s := mkLife Using [] [] []]> ls).
Proof.
  intros Hinv Hk HT. pose proof Hinv as [H1 _ _ H4]. split; [|constructor|constructor|].
  - intros qpn q s' Hs Hne. assert (T !! qpn = Some (q, s') ∨ (qpn = n ∧ s' = s)) as [Ht|[-> ->]].
    { destruct HT as [->|(q'&_&->)]; [by left|]. apply lookup_insert_Some in Hs as [[-> [= -> ->]]|[_ ?]]; [by right|by left]. }
    + destruct (H1 _ _ _ Ht Hne) as (Hc&wcs&Hw). split; [by apply can_find_insert; [left|]|].
      exists wcs. rewrite lookup_insert_ne by congruence. done.
    + split; [|exists []; by rewrite lookup_insert_eq]. eexists. by rewrite lookup_insert_eq.
  - intros s' l [[<- <-]|[Hs Hl]]%lookup_insert_Some.
    + exists n, []. by rewrite lookup_insert_eq.
    + eapply life_ok_other; [by rewrite lookup_insert_ne|done|by apply H4].
Qed.

Lemma tinv_free T K s polled ls l : tinv T K polled ls → ls !! s = Some l → findable (at_stage l) = false →
  life_ok (delete s K) polled s (set_stage Freed l) → tinv T (delete s K) polled (<[s := set_stage Freed l]> ls).
Proof.
  intros Hinv Hl Hf Hok. destruct (not_findable T K polled ls s l Hinv Hl Hf) as [Hp Ht]. destruct Hinv as [H1 H2 H3 H4]. split; [| |done|].
  - intros qpn q s' Hs Hne. assert (s' ≠ s) as Hs' by (intros ->; by apply Hne, (Ht qpn q)). destruct (H1 _ _ _ Hs Hne) as (Hc&wcs&Hw).
    split; [by apply can_find_insert; [right|]|]. exists wcs. by rewrite lookup_delete_ne.
  - eapply Forall_impl; [exact (proj2 (Forall_and _ _) (conj H2 Hp))|]. intros e [He ?]. by apply can_find_insert; [right|].
  - intros s' l' [[<- <-]|[Hs Hl']]%lookup_insert_Some; [done|]. eapply life_ok_other; [by rewrite lookup_delete_ne|done|by apply H4].
Qed.

Lemma unlocked_polled p : locked p = false → polled_of p = [].
Proof. by destruct p. Qed.

(** Only the stage of a socket that is not freed changes. *)
Lemma tok_stage m m' p ls s l l' : tok (mkThreads m p ls) → shared m' = shared m → ls !! s = Some l →
  life_ok (shared m).2 (polled_of p) s l' → (findable (at_stage l') = false → findable (at_stage l) = false) →
  tok (mkThreads m' p (<[s := l']> ls)).
Proof.
  unfold tok. cbn [t_mach t_poller t_lives]. intros H -> Hl Hok Hf. apply tinv_life; [done|done|].
  intros Hf'. by eapply not_findable; [|done|auto].
Qed.

Lemma recall_wc_found m s i o m' T K n wcs : shared m = (T, K) → K !! s = Some (n, wcs) → recall_wc s i m = Ret (o, m') → o = wcs !! i.
Proof.
  intros Hsh Hk. destruct (shared_lookup m T K s n wcs Hsh Hk) as (k&Ek&_&<-). unfold recall_wc, mbind, ST_bind. rewrite (get_sock_eq _ _ _ Ek).
  destruct (s_wc k !! i) as [w|]; [|by intros [= <- _]]. destruct (Dispatcher.recall_chunk (wr_id w) m) as [[[] m1]|]; [|done]. by intros [= <- _].
Qed.

Lemma tok_schedule m m' p ls s l : tok (mkThreads m p ls) → locked p = false → ls !! s = Some l → at_stage l = Leaving → schedule s m = Ret (tt, m') →
  tok (mkThreads m' p (<[s := set_stage (RecallWc 0) l]> ls)).
Proof.
  unfold tok. cbn [t_mach t_poller t_lives]. intros H Hp Hl Hst Hs. pose proof (ti_life _ _ _ _ H _ _ Hl) as Hok. unfold life_ok in Hok. rewrite Hst in Hok.
  destruct Hok as (n&wcs&Hk&Ha&Hr). destruct (shared m) as [T K] eqn:Hsh. cbn [fst snd] in *.
  destruct (schedule_shared m T K s n wcs m' Hsh Hk Hs) as (T'&->&Hsub&Hgone). cbn [fst snd]. rewrite (unlocked_polled p Hp) in *.
  pose proof (tinv_table T T' K [] ls Hsub H) as H'. apply tinv_life; [done| |].
  - exists n, wcs. split_and!; [done|done|]. cbn. by rewrite Hr.
  - intros _. split; [constructor|]. intros qpn q Hq. destruct (decide (s = 0)) as [|Hne]; [done|].
    destruct (ti_table _ _ _ _ H' _ _ _ Hq Hne) as (_&wcs'&Hk'). rewrite Hk in Hk'. injection Hk' as -> _. by apply (Hgone q).
Qed.

Lemma tok_rx_one w cqe polled polled' conn m m0 m' ls : tok (mkThreads m (RxLoop (w :: cqe) polled) ls) →
  Dispatcher.get_conn_lockless (wc_qp_num w) m = Ret (conn, m0) → Polling.rx_one cfg w polled m = Ret (polled', m') →
  tok (mkThreads m' (RxLoop cqe polled') (if conn =? 0 then ls else alter (add_arrived w) conn ls)).
Proof using All.
  unfold tok. cbn [t_mach t_poller t_lives polled_of]. intros H Hc Hx. rewrite (rx_one_polled cfg m w polled polled' conn m0 m' Hc Hx).
  rewrite (rx_one_shared cfg w polled _ _ _ Hx). destruct (Z.eqb_spec conn 0) as [|Hne]; [done|].
  destruct (get_conn_found m _ _ _ Hc Hne) as [q Hq]. by eapply tinv_arrive.
Qed.

Lemma t_step_ok x y : tok x → t_step cfg x y → tok y.
Proof using All.
  intros H Hstep. destruct Hstep.
  - by apply (tok_shared m _ Between).
  - by eapply tok_rx_one.
  - by apply (tok_shared m _ (RxLoop [] polled)).
  - (* pass_wc *) pose proof H as H'. unfold tok in H, H' |- *. cbn [t_mach t_poller t_lives polled_of] in *.
    destruct (can_find_alive _ _ _ _ s H') as (n&wcs&Hk); [by apply ti_polled, Forall_cons in H' as [??]|].
    destruct (shared m) as [T K] eqn:Hsh. rewrite (pass_wc_shared m T K s v n wcs m' Hsh Hk) by done. by apply (tinv_pass _ _ s v).
  - by apply (tok_shared m _ (RxPass [])).
  - by apply (tok_shared m _ Between).
  - (* beacon *) unfold tok in *. cbn [t_mach t_poller t_lives polled_of] in *. destruct (shared m) as [T K] eqn:Hsh.
    destruct (enqueue_shared m T K _ _ Hsh H1) as (T'&->&Hsub). by eapply tinv_table.
  - apply (tok_shared m _ (TxLoop (w :: cqe) l)); [by eapply get_conn_shared|done|done].
  - apply (tok_shared m _ (TxFound conn w cqe l)); [by eapply tx_after_shared|done|done].
  - apply (tok_shared m _ (TxLoop [] l)); [by eapply post_tx_buffer_shared|done|done].
  - apply (tok_shared m _ Between); [by eapply poll_idle_shared|done|done].
  - (* create *) unfold tok in *. cbn [t_mach t_poller t_lives] in *. rewrite (unlocked_polled p) in * by done. destruct (shared m) as [T K] eqn:Hsh.
    destruct (create_shared cfg m T K _ _ _ Hsh H1) as (T'&n&->&HT). apply (tinv_create T); [done| |done].
    injection Hsh as _ <-. by rewrite lookup_fmap, H2.
  - (* get_wc *) unfold tok in *. cbn [t_mach t_poller t_lives] in *. destruct (shared m) as [T K] eqn:Hsh.
    destruct (life_alive _ _ _ _ (ti_life _ _ _ _ H _ _ H0)) as (n&wcs&Hk); [by rewrite H1|].
    destruct (get_wc_shared m T K s v n wcs m' Hsh Hk H2) as [-> ->]. by apply tinv_take.
  - apply (tok_shared m _ p); [by eapply run_use_shared|done|done].
  - pose proof (ti_life _ _ _ _ H _ _ H0) as Hok. eapply tok_stage; [done|by eapply leave_shared|done| |done].
    unfold life_ok in *. cbn [at_stage set_stage]. by rewrite H1 in Hok.
  - by apply (tok_schedule m).
  - (* recall_wc *) pose proof (ti_life _ _ _ _ H _ _ H1) as Hok. eapply tok_stage; [done|by eapply recall_wc_shared|done| |by rewrite H2].
    cbn [t_mach t_poller t_lives] in Hok. unfold life_ok in *. cbn [at_stage add_recalled]. rewrite H2 in Hok. destruct Hok as (n&wcs&Hk&Ha&Hr).
    exists n, wcs. split_and!; [done|done|]. cbn [recalled add_recalled]. rewrite Hr. symmetry. apply take_S_r.
    destruct (shared m) as [T K] eqn:Hsh. symmetry. by eapply recall_wc_found.
  - pose proof (ti_life _ _ _ _ H _ _ H0) as Hok. eapply tok_stage; [done|by eapply recall_wc_shared|done| |by rewrite H1].
    cbn [t_mach t_poller t_lives] in Hok. unfold life_ok in *. cbn [at_stage set_stage]. rewrite H1 in Hok. destruct Hok as (n&wcs&Hk&Ha&Hr).
    exists n, wcs. split_and!; [done|done|]. cbn [recalled set_stage]. rewrite Hr. apply take_ge, lookup_ge_None.
    destruct (shared m) as [T K] eqn:Hsh. symmetry. by eapply recall_wc_found.
  - pose proof (ti_life _ _ _ _ H _ _ H1) as Hok. eapply tok_stage; [done|by eapply recall_buffer_shared|done| |by rewrite H2].
    unfold life_ok in *. cbn [at_stage set_stage]. by rewrite H2 in Hok.
  - (* free *) unfold tok in *. cbn [t_mach t_poller t_lives] in *. destruct (shared m) as [T K] eqn:Hsh.
    assert (shared m1 = (T, K)) as Hsh1 by (rewrite <-Hsh; by eapply recall_buffer_shared). rewrite (free_shared m1 T K s m' Hsh1) by done.
    assert (findable (at_stage l) = false) as Hf by (by rewrite H1). apply tinv_free; [done|done|done|].
    pose proof (ti_life _ _ _ _ H _ _ H0) as Hok. destruct (not_findable T K _ ls s l H H0 Hf) as [Hp _].
    unfold life_ok in *. cbn [at_stage set_stage]. rewrite H1 in Hok. destruct Hok as (n&wcs&Hk&Ha&Hr).
    cbn [fst snd arrived taken recalled set_stage]. rewrite Ha, Hr, (pending_none s _ Hp). by rewrite app_nil_r.
Qed.

(** The start: the polling thread between two events, every socket in use and
    without completions, and the table made of such sockets. No sockets at all
    is a start. *)
Record quiescent m (ls : gmap Z life) : Prop := {
  qt_table : ∀ qpn q s, qp_conns (disp m) !! qpn = Some (q, s) → s ≠ 0 →
    is_Some (ls !! s) ∧ ∃ k, socks m !! s = Some k ∧ local_qpn k = qpn;
  qt_lives : ∀ s l, ls !! s = Some l → l = mkLife Using [] [] [] ∧ ∃ k, socks m !! s = Some k ∧ s_wc k = [];
}.

Lemma tok_reachable m ls x : quiescent m ls → rtc (t_step cfg) (mkThreads m Between ls) x → tok x.
Proof using All.
  intros [H1 H2] Hrun. apply (rtc_invariant (t_step cfg) tok (mkThreads m Between ls) x); [apply t_step_ok| |done].
  split; cbn [t_mach t_poller t_lives polled_of]; [|constructor|constructor|].
  - intros qpn q s Hs Hne. destruct (H1 _ _ _ Hs Hne) as ((l&Hl)&k&Hk&<-). split; [|exists (s_wc k); exact (shared_socks m _ _ s k eq_refl Hk)].
    exists l. split; [done|]. by destruct (H2 _ _ Hl) as [-> _].
  - intros s l Hl. destruct (H2 _ _ Hl) as (->&k&Hk&Hw). exists (local_qpn k), []. rewrite <-Hw at 1. by rewrite <-(shared_socks m _ _ s k eq_refl Hk).
Qed.

(** C5: The polling thread never touches a socket that is gone. In every run of
    the polling thread beside the threads of the sockets, whoever is in the
    middle of a destructor: what the lookup of a receive completion returns is
    null or a socket that exists, and every socket that completions are being
    passed to exists, so that [pass_wc] does not fail. *)
Theorem receive_never_dangles m0 ls x : quiescent m0 ls → rtc (t_step cfg) (mkThreads m0 Between ls) x →
  (∀ w cqe polled conn m', t_poller x = RxLoop (w :: cqe) polled →
    Dispatcher.get_conn_lockless (wc_qp_num w) (t_mach x) = Ret (conn, m') → conn = 0 ∨ is_Some (socks (t_mach x) !! conn)) ∧
  (∀ s v polled, (s, v) ∈ polled → (∃ cqe, t_poller x = RxLoop cqe polled) ∨ t_poller x = RxPass polled →
    is_Some (socks (t_mach x) !! s) ∧ ∃ m', Socket.pass_wc s v (t_mach x) = Ret (tt, m')).
Proof using All.
  intros Hq Hrun. pose proof (tok_reachable m0 ls x Hq Hrun) as H.
  assert (∀ s, can_find (t_lives x) s → is_Some (socks (t_mach x) !! s)) as Halive.
  { intros s Hc. destruct (can_find_alive _ _ _ _ s H Hc) as (n&wcs&Hk). destruct (shared_lookup (t_mach x) _ _ s n wcs eq_refl Hk) as (k&->&_). eauto. }
  split.
  - intros w cqe polled conn m' _ Hc. destruct (decide (conn = 0)) as [|Hne]; [by left|right]. destruct (get_conn_found _ _ _ _ Hc Hne) as [q Eq].
    apply Halive. by destruct (ti_table _ _ _ _ H _ _ _ Eq Hne).
  - intros s v polled Hin Hp. assert (is_Some (socks (t_mach x) !! s)) as [k Hk].
    { apply Halive. pose proof (ti_polled _ _ _ _ H) as Hall. destruct Hp as [[cqe Hp]|Hp]; rewrite Hp in Hall; cbn in Hall;
        rewrite Forall_forall in Hall; by apply (Hall (s, v)). }
    split; [eauto|]. unfold Socket.pass_wc. rewrite (on_sock_eq _ _ _ _ Hk). eauto.
Qed.

(** C12: No completion of a socket is lost, repeated or reordered. In every run of
    the polling thread beside the threads of the sockets: the completions it
    took for a socket, in the order they came, are those the socket's thread
    has got from [get_wc], then those that wait in [wc], then those it is about
    to pass. When the socket is freed nothing waits any more: what was not
    taken has been given back, once and in order, by the destructor. *)
Theorem completions_conserved m0 ls x s l : quiescent m0 ls → rtc (t_step cfg) (mkThreads m0 Between ls) x →
  t_lives x !! s = Some l →
  match at_stage l with
  | Freed => arrived l = taken l ++ recalled l
  | v => ∃ k, socks (t_mach x) !! s = Some k ∧ arrived l = taken l ++ s_wc k ++ pending s (polled_of (t_poller x)) ∧
      (findable v = false → pending s (polled_of (t_poller x)) = [])
  end.
Proof using All.
  intros Hq Hrun Hl. pose proof (tok_reachable m0 ls x Hq Hrun) as H.
  pose proof (ti_life _ _ _ _ H _ _ Hl) as Hok.
  assert (findable (at_stage l) = false → pending s (polled_of (t_poller x)) = []) as Hno.
  { intros Hf. apply pending_none. by eapply not_findable. }
  unfold life_ok in Hok. destruct (at_stage l); try exact Hok; destruct Hok as (n&wcs&Hk&Ha&_);
    destruct (shared_lookup (t_mach x) _ _ s n wcs eq_refl Hk) as (k&Ek&_&<-); exists k; auto.
Qed.
End every_run.

(** ** The pieces make up the program *)

Section whole.
Context {W P : Type} `{!World W, !BoostPool P} (cfg : config).
Implicit Types m : mach W P.

Lemma tx_one_pieces w m : wr_id w ≠ BEACON_WRID → wc_status w = IBV_WC_SUCCESS →
  Polling.tx_one w m = (conn ← Dispatcher.get_conn_lockless (wc_qp_num w); tx_after conn w) m.
Proof. intros Hb Hs. unfold Polling.tx_one. by rewrite (proj2 (Z.eqb_neq _ _) Hb), Hs. Qed.

Lemma tx_one_beacon w m : wr_id w = BEACON_WRID → Polling.tx_one w m = (Dispatcher.enqueue_dead_qp (wc_qp_num w) ;; mret None) m.
Proof. intros Hb. unfold Polling.tx_one. by rewrite Hb. Qed.

(** The destructor, run without interruption, is a run of the steps. *)
Lemma recall_rest s k p n : ∀ i m m' ls l, locked p = false → socks m !! s = Some k → ls !! s = Some l → at_stage l = RecallWc i →
  (n + i = length (s_wc k))%nat → for_each (drop i (s_wc k)) (λ w, Dispatcher.recall_chunk (wr_id w)) m = Ret (tt, m') →
  ∃ l', rtc (t_step cfg) (mkThreads m p ls) (mkThreads m' p (<[s := l']> ls)) ∧ at_stage l' = RecallBuffers 0 ∧ socks m' = socks m.
Proof.
  induction n as [|n IH]; intros i m m' ls l Hp Hk Hl Hst Hn Hrun.
  - rewrite drop_ge in Hrun by lia. injection Hrun as <-. exists (set_stage (RecallBuffers 0) l). split_and!; [|done|done].
    apply rtc_once, (ts_recall_end _ _ _ i); [done|done|]. unfold recall_wc, mbind, ST_bind. rewrite (get_sock_eq _ _ _ Hk).
    by rewrite (proj2 (lookup_ge_None _ _)) by lia.
  - destruct (lookup_lt_is_Some_2 (s_wc k) i) as [w Hw]; [lia|]. rewrite (drop_S _ _ _ Hw) in Hrun. cbn [for_each] in Hrun.
    unfold mbind, ST_bind in Hrun. destruct (Dispatcher.recall_chunk (wr_id w) m) as [[[] m1]|] eqn:E; [|done].
    assert (socks m1 = socks m) as Hs1 by (assert (frame socks (Dispatcher.recall_chunk (W := W) (P := P) (wr_id w))) as Hf by solve_frame; by apply Hf in E).
    destruct (IH (S i) m1 m' (<[s := add_recalled i w l]> ls) (add_recalled i w l)) as (l'&Hr&Hst'&Hs'); [done|by rewrite Hs1|apply lookup_insert_eq|done|lia|done|].
    rewrite insert_insert_eq in Hr. exists l'. split_and!; [|done|congruence]. eapply rtc_l; [|exact Hr]. apply ts_recall_wc; [done|done|done|].
    unfold recall_wc, mbind, ST_bind. rewrite (get_sock_eq _ _ _ Hk), Hw. by rewrite E.
Qed.

Lemma recall_buffers_rest s k p n : ∀ i m m' ls l, locked p = false → socks m !! s = Some k → ls !! s = Some l → at_stage l = RecallBuffers i →
  (n + i = length (buffers k))%nat → for_each (drop i (buffers k)) Dispatcher.recall_chunk m = Ret (tt, m') →
  rtc (t_step cfg) (mkThreads m p ls) (mkThreads m' p (<[s := set_stage (RecallBuffers (length (buffers k))) l]> ls)) ∧ socks m' = socks m.
Proof.
  induction n as [|n IH]; intros i m m' ls l Hp Hk Hl Hst Hn Hrun.
  - rewrite drop_ge in Hrun by lia. injection Hrun as <-. split; [|done]. replace (length (buffers k)) with i by lia.
    rewrite insert_id; [done|]. rewrite Hl. destruct l; cbn in *. by rewrite Hst.
  - destruct (lookup_lt_is_Some_2 (buffers k) i) as [c Hc]; [lia|]. rewrite (drop_S _ _ _ Hc) in Hrun. cbn [for_each] in Hrun.
    unfold mbind, ST_bind in Hrun. destruct (Dispatcher.recall_chunk c m) as [[[] m1]|] eqn:E; [|done].
    assert (socks m1 = socks m) as Hs1 by (assert (frame socks (Dispatcher.recall_chunk (W := W) (P := P) c)) as Hf by solve_frame; by apply Hf in E).
    destruct (IH (S i) m1 m' (<[s := set_stage (RecallBuffers (S i)) l]> ls) (set_stage (RecallBuffers (S i)) l)) as (Hr&Hs');
      [done|by rewrite Hs1|apply lookup_insert_eq|done|lia|done|].
    rewrite insert_insert_eq in Hr. split; [|congruence]. eapply rtc_l; [|exact Hr]. apply ts_recall_buffer; [done|done|done|].
    unfold recall_buffer, mbind, ST_bind. rewrite (get_sock_eq _ _ _ Hk), Hc. by rewrite E.
Qed.

Lemma delete_socket_run s m m' p ls l : Socket.delete_socket s m = Ret (tt, m') → locked p = false → ls !! s = Some l → at_stage l = Using →
  ∃ l', rtc (t_step cfg) (mkThreads m p ls) (mkThreads m' p (<[s := l']> ls)) ∧ at_stage l' = Freed.
Proof.
  intros H Hp Hl Hst. unfold Socket.delete_socket, mbind, ST_bind in H.
  destruct (Socket.cleanup s m) as [[[] m1]|] eqn:E1; [|done]. destruct (get_sock s m1) as [[k m1']|] eqn:E2; [|done].
  assert (socks m1 !! s = Some k ∧ m1' = m1) as [Hk ->].
  { revert E2. unfold get_sock, mbind, ST_bind, gets. by destruct (socks m1 !! s); [intros [= -> ->]|]. }
  destruct (Worker.remove_pending_conn (s_worker k) s m1) as [[[] m2]|] eqn:E3; [|done].
  assert (socks m2 = socks m1) as S2 by (assert (frame socks (Worker.remove_pending_conn (W := W) (P := P) (s_worker k) s)) as Hf by solve_frame; by apply Hf in E3).
  destruct (Dispatcher.schedule_qp_destroy (local_qpn k) m2) as [[[] m3]|] eqn:E4; [|done].
  assert (socks m3 = socks m2) as S3 by (assert (frame socks (Dispatcher.schedule_qp_destroy (W := W) (P := P) (local_qpn k))) as Hf by solve_frame; by apply Hf in E4).
  destruct (for_each (s_wc k) _ m3) as [[[] m4]|] eqn:E5; [|done]. destruct (for_each (buffers k) _ m4) as [[[] m5]|] eqn:E6; [|done].
  destruct (recall_rest s k p (length (s_wc k)) 0 m3 m4 (<[s := set_stage (RecallWc 0) l]> ls) (set_stage (RecallWc 0) l)) as (l4&R4&St4&S4);
    [done|congruence|apply lookup_insert_eq|done|lia|done|]. rewrite insert_insert_eq in R4.
  destruct (recall_buffers_rest s k p (length (buffers k)) 0 m4 m5 (<[s := l4]> ls) l4) as (R5&S5); [done|congruence|apply lookup_insert_eq|done|lia|done|].
  rewrite insert_insert_eq in R5. set (l5 := set_stage (RecallBuffers (length (buffers k))) l4) in *. exists (set_stage Freed l5). split; [|done].
  eapply rtc_l; [apply (ts_leave _ s l m m2); [done|done|]|].
  { unfold leave, mbind, ST_bind. by rewrite E1, E2. }
  eapply rtc_l; [apply (ts_schedule _ s (set_stage Leaving l) m2 m3); [done|apply lookup_insert_eq|done|]|].
  { unfold schedule, mbind, ST_bind. rewrite (get_sock_eq m2 s k) by congruence. exact E4. }
  rewrite insert_insert_eq. etrans; [exact R4|]. etrans; [exact R5|]. rewrite <-(insert_insert_eq ls s (set_stage Freed l5) l5).
  apply rtc_once, (ts_free _ s l5 (length (buffers k)) m5 m5 m'); [apply lookup_insert_eq|done| |].
  - unfold recall_buffer, mbind, ST_bind. rewrite (get_sock_eq m5 s k) by congruence. by rewrite (proj2 (lookup_ge_None _ _)) by lia.
  - unfold free_socket, mbind, ST_bind. rewrite (get_sock_eq m5 s k) by congruence. exact H.
Qed.

(** So is a batch of receive completions. *)
Lemma rx_loop_run cqe : ∀ polled polled' m m' ls, Polling.rx_loop cfg cqe polled m = Ret (polled', m') →
  ∃ ls', rtc (t_step cfg) (mkThreads m (RxLoop cqe polled) ls) (mkThreads m' (RxLoop [] polled') ls').
Proof.
  induction cqe as [|w cqe IH]; intros polled polled' m m' ls H; cbn [Polling.rx_loop] in H.
  { injection H as <- <-. eexists. done. }
  unfold mbind, ST_bind in H. destruct (Polling.rx_one cfg w polled m) as [[polled1 m1]|] eqn:E1; [|done].
  destruct (Dispatcher.get_conn_lockless (wc_qp_num w) m) as [[conn m0]|] eqn:E0;
    [|revert E1; unfold Polling.rx_one, mbind, ST_bind; by rewrite E0].
  destruct (IH polled1 polled' m1 m' (if conn =? 0 then ls else alter (add_arrived w) conn ls) H) as [ls' Hr].
  exists ls'. eapply rtc_l; [|exact Hr]. by eapply ts_rx_one.
Qed.
Lemma handle_rx_event_run cqe m m' ls : Polling.handle_rx_event cfg cqe m = Ret (tt, m') →
  ∃ ls', rtc (t_step cfg) (mkThreads m Between ls) (mkThreads m' Between ls').
Proof.
  unfold Polling.handle_rx_event, mbind, ST_bind. destruct (Polling.rx_loop cfg cqe [] m) as [[polled m1]|] eqn:E; [|done]. intros H.
  destruct (rx_loop_run cqe [] polled m m1 ls E) as [ls' Hr]. exists ls'. eapply rtc_l; [apply (ts_rx _ cqe)|]. etrans; [exact Hr|].
  eapply rtc_l; [apply ts_rx_pass|]. clear E Hr ls. revert m1 H. induction polled as [|[s v] polled IH]; intros m1 H; cbn [for_each] in H.
  - injection H as <-. apply rtc_once, ts_rx_end.
  - unfold mbind, ST_bind in H. destruct (Socket.pass_wc s v m1) as [[[] m2]|] eqn:E; [|done]. eapply rtc_l; [by apply ts_pass|]. by apply IH.
Qed.
End whole.

(** ** Runs *)

(** A destructor begins while the polling thread has a completion for its
    socket: the completion is passed on, and given back by the destructor. *)
Definition threads_w : wc := mkWC 6000 0 128 32 17.
Definition threads_mach : mach script list_pool :=
  set_workers {[ 1 := mkWorker [] (logger_of (RDMAWorker_logger "w")) ]}
    (set_world (mkScript [(0, [], 0); (0, [], 0); (1, [], 0)] 0 []) demo_arrival).
Definition one_life (v : stage) (a r : list wc) : gmap Z life := {[ 900 := mkLife v a [] r ]}.

Lemma threads_quiescent : quiescent threads_mach (one_life Using [] []).
Proof.
  split.
  - intros qpn q s H _. change (({[ 17 := (100, 900) ]} : gmap Z (Z * Z)) !! qpn = Some (q, s)) in H.
    apply lookup_singleton_Some in H as [<- [= <- <-]]. split; [by eexists|]. by exists demo_rx_sock.
  - unfold one_life. intros s l [<- <-]%lookup_singleton_Some. split; [done|]. by exists demo_rx_sock.
Qed.

Definition threads_found := Eval vm_compute in run (Polling.rx_one config0 threads_w []) threads_mach.
Definition threads_left := Eval vm_compute in run (leave 900) threads_found.
Definition threads_passed := Eval vm_compute in run (Socket.pass_wc 900 [threads_w]) threads_left.
Definition threads_scheduled := Eval vm_compute in run (schedule 900) threads_passed.
Definition threads_recalled := Eval vm_compute in run (recall_wc 900 0) threads_scheduled.
Definition threads_freed := Eval vm_compute in run (free_socket 900) threads_recalled.

Lemma threads_run1 : rtc (t_step config0) (mkThreads threads_mach Between (one_life Using [] []))
  (mkThreads threads_left (RxPass [(900, [threads_w])]) (one_life Leaving [threads_w] [])).
Proof.
  eapply rtc_l; [apply (ts_rx _ [threads_w])|].
  eapply rtc_l; [apply (ts_rx_one _ _ _ _ [(900, [threads_w])] 900 _ threads_mach threads_found); vm_compute; reflexivity|].
  eapply rtc_l; [apply ts_rx_pass|].
  apply rtc_once. refine (ts_leave _ 900 (mkLife Using [threads_w] [] []) _ threads_left _ _ _ _ _); vm_compute; reflexivity.
Qed.
Lemma threads_run2 : rtc (t_step config0) (mkThreads threads_left (RxPass [(900, [threads_w])]) (one_life Leaving [threads_w] []))
  (mkThreads threads_freed Between (one_life Freed [threads_w] [threads_w])).
Proof.
  eapply rtc_l; [apply (ts_pass _ _ _ _ _ threads_passed); vm_compute; reflexivity|]. eapply rtc_l; [apply ts_rx_end|].
  eapply rtc_l; [apply (ts_schedule _ 900 (mkLife Leaving [threads_w] [] []) _ threads_scheduled); vm_compute; reflexivity|].
  eapply rtc_l; [apply (ts_recall_wc _ 900 (mkLife (RecallWc 0) [threads_w] [] []) 0 threads_w _ threads_recalled); vm_compute; reflexivity|].
  eapply rtc_l; [apply (ts_recall_end _ 900 (mkLife (RecallWc 1) [threads_w] [] [threads_w]) 1 _ threads_recalled); vm_compute; reflexivity|].
  apply rtc_once. refine (ts_free _ 900 (mkLife (RecallBuffers 0) [threads_w] [] [threads_w]) 0 _ threads_recalled threads_freed _ _ _ _ _ _); vm_compute; reflexivity.
Qed.

Lemma receive_never_dangles_witness :
  is_Some (socks threads_left !! 900) ∧ ∃ m', Socket.pass_wc 900 [threads_w] threads_left = Ret (tt, m').
Proof.
  apply (proj2 (receive_never_dangles config0 threads_mach (one_life Using [] []) _ threads_quiescent threads_run1) 900 [threads_w] [(900, [threads_w])]).
  - apply list_elem_of_here.
  - by right.
Defined.

Lemma completions_conserved_witness :
  (∃ k, socks threads_left !! 900 = Some k ∧ [threads_w] = [] ++ s_wc k ++ [threads_w]) ∧ [threads_w] = [] ++ [threads_w].
Proof.
  split.
  - destruct (completions_conserved config0 threads_mach (one_life Using [] []) _ 900 (mkLife Leaving [threads_w] [] []) threads_quiescent threads_run1 eq_refl)
      as (k&Hk&Ha&_). exists k. split; [exact Hk|exact Ha].
  - exact (completions_conserved config0 threads_mach (one_life Using [] []) _ 900 (mkLife Freed [threads_w] [] [threads_w]) threads_quiescent
      (transitivity threads_run1 threads_run2) eq_refl).
Defined.

(** ** The lookup without a lock *)

Definition racing_w : wc := mkWC 8192 0 0 9 17.
Definition racing_mach : mach script list_pool := set_world (mkScript [(0, [], 0); (1, [], 0)] 0 []) demo_tx.
Definition racing_left := Eval vm_compute in run (leave 900) racing_mach.
Definition racing_scheduled := Eval vm_compute in run (schedule 900) racing_left.
Definition racing_freed := Eval vm_compute in run (free_socket 900) racing_scheduled.

(** C38: The lookup of a send completion takes no lock, so the thread of the socket
    can destroy it between the lookup and the call of its callback: a run
    exists in which the polling thread calls through a socket that is freed,
    although the socket was in use when it was looked up. *)
Theorem send_callback_dangles :
  ∃ x : threads script list_pool, rtc (t_step config0) (mkThreads racing_mach Between (one_life Using [] [])) x ∧
    t_poller x = TxFound 900 racing_w [] [] ∧ socks racing_mach !! 900 ≠ None ∧ socks (t_mach x) !! 900 = None ∧
    tx_after 900 racing_w (t_mach x) = Crash Undefined ∧
    Polling.handle_tx_event [racing_w] racing_mach ≠ Crash Undefined.
Proof.
  exists (mkThreads racing_freed (TxFound 900 racing_w [] []) (one_life Freed [] [])). split_and!; [|done|done|done|done|done].
  eapply rtc_l; [apply (ts_tx _ [racing_w])|].
  eapply rtc_l; [apply (ts_tx_find _ _ _ _ 900 _ racing_mach); vm_compute; congruence|].
  eapply rtc_l; [refine (ts_leave _ 900 (mkLife Using [] [] []) _ racing_left _ _ _ _ _); vm_compute; reflexivity|].
  eapply rtc_l; [apply (ts_schedule _ 900 (mkLife Leaving [] [] []) _ racing_scheduled); vm_compute; reflexivity|].
  eapply rtc_l; [apply (ts_recall_end _ 900 (mkLife (RecallWc 0) [] [] []) 0 _ racing_scheduled); vm_compute; reflexivity|].
  apply rtc_once. refine (ts_free _ 900 (mkLife (RecallBuffers 0) [] [] []) 0 _ racing_scheduled racing_freed _ _ _ _ _ _); vm_compute; reflexivity.
Qed.
