(* ===== verification/Chain.v ===== *)
(** * Chain replication over the library (src/test/cr_daemon.cc)

    Three nodes in a ring. The client of the head keeps a window of requests in
    flight to the middle node; the middle node forwards every request to the
    tail; the tail answers every request with an acknowledgement to the head,
    which then moves its window. Each node counts the bytes it reads and knows
    a request by its length. The nodes' threads, the completions of their sends
    and the segments in which a connection delivers its bytes interleave in
    every way.

    Every node has its pool of send chunks, which aborts when it is short, and
    a queue of sends of a certain depth: what does not fit is not posted, nobody
    looks at the result, and the chunks are gone. The dispatcher polls at most
    eight completions, runs the callback for each and then returns their chunks.
    A connection delivers the bytes that were posted (Socket.v, SocketRead.v).

    The counters [inflight_size] and [num_inflight_chunk] are atomic, and a
    step is a load of one with the update that follows it. A step of another
    thread between the two moves the counter away from the bound that was
    tested, and the two updates commute: the state they reach is that of the
    update first and the other thread's step after it. So it is with the chunks
    of a message of the head, fetched and posted in one step: the completions
    that come in between can as well come before. *)

From S2P Require Import Prelude.

Definition ACK_SIZE : Z := 64.
Definition TX_QUEUE_LEN : Z := 128.
Definition MAX_COMPLETIONS : Z := 8.
Definition EAGAIN_ : Z := 11.
Definition INT_MAX : Z := 2147483647.
(** [char recv_buffer[kMaxRequestSize][kMaxNumRequest]]. A read forms pointers
    into it as far as it goes, and beyond the array that is undefined (nothing
    is stored through them: [zero_read] does not copy). *)
Definition RECV_BUFFER : Z := 32768 * 8.

(** ** The send chunks of a node *)

(** Chunks in the pool; posted and not polled; polled and waiting for their
    callback; called back and waiting to be returned *)
Record tx := mkTx { tx_free : Z; tx_posted : Z; tx_polled : Z; tx_done : Z }.

(** [Cluster::get_chunks] and [get_buffers] *)
Definition tx_get (n : Z) (t : tx) : outcome tx :=
  if n >? tx_free t then Crash KAbort else Ret (mkTx (tx_free t - n) (tx_posted t) (tx_polled t) (tx_done t)).

(** [ibv_post_send] of a list of [n] chunks: those before the first that does
    not fit are posted. *)
Definition tx_post (depth n : Z) (t : tx) : Z * tx :=
  let j := Z.min n (depth - tx_posted t) in (j, mkTx (tx_free t) (tx_posted t + j) (tx_polled t) (tx_done t)).

(** The dispatcher: [poll_cq], one [txc_callback], [return_tx] *)
Inductive tx_op := TPoll (k : Z) | TCallback | TReturn.
#[global] Instance tx_op_eq_dec : EqDecision tx_op.
Proof. solve_decision. Defined.
Definition tx_enabled (o : tx_op) (t : tx) : bool :=
  match o with
  | TPoll k => (tx_polled t =? 0) && (tx_done t =? 0) && (0 <? k) && (k <=? Z.min MAX_COMPLETIONS (tx_posted t))
  | TCallback => 0 <? tx_polled t
  | TReturn => (tx_polled t =? 0) && (0 <? tx_done t)
  end.
Definition tx_exec (o : tx_op) (t : tx) : tx :=
  match o with
  | TPoll k => mkTx (tx_free t) (tx_posted t - k) k (tx_done t)
  | TCallback => mkTx (tx_free t) (tx_posted t) (tx_polled t - 1) (tx_done t + 1)
  | TReturn => mkTx (tx_free t + tx_done t) (tx_posted t) (tx_polled t) 0
  end.

(** ** The client's parts *)

Module ChainReplicationClient.

(** The window of [SendSmallRequestsHead] and [SendBigRequestsHead] *)
Definition inflight_threshold (kNumRequest kRequestSize : Z) : Z := u64 (kNumRequest / 2 * kRequestSize).
Definition sending_data_num (kNumRequest kRequestSize inflight : Z) : Z :=
  u64 (u64 (kNumRequest * kRequestSize) - inflight) / kRequestSize.

Definition InflightRelease (kRequestSize inflight : Z) : outcome Z :=
  if inflight >=? kRequestSize then Ret (u64 (inflight - kRequestSize)) else Crash KAbort.

Definition OnSendCompletion (num_inflight_chunk : Z) : outcome Z :=
  if num_inflight_chunk >=? 1 then Ret (u64 (num_inflight_chunk - 1)) else Crash KAbort.

(** [GetBuffersBySize]: the number of chunks of [cb] bytes *)
Definition buffers_for (cb bytes : Z) : Z := u32 (u64 (u64 (bytes + cb) - 1) / cb).

(** One round of the loop of [SendRequests] with [rem] bytes to fill and
    [index] chunks filled; a round that finds the queue full does nothing. *)
Definition fill_round (cb buffers rem index num_inflight_chunk : Z) : outcome (Z * Z * Z) :=
  if num_inflight_chunk <? TX_QUEUE_LEN then
    if index <? buffers then Ret (u32 (rem - Z.min cb rem), index + 1, u64 (num_inflight_chunk + 1)) else Crash KAbort
  else Ret (rem, index, num_inflight_chunk).

(** The loop of [SendBigRequestsHead] that fills the chunks of one request;
    [remainingSize] is an int, [zero_fill] takes an unsigned. *)
Fixpoint fill_big (fuel : nat) (cb buffers remainingSize buffer_index : Z) : outcome unit :=
  match fuel with
  | O => Crash NoFuel
  | S fuel =>
    if negb (buffer_index <? buffers) then Crash KAbort else
    let remainingSize := s32 (u32 (remainingSize - Z.min cb (u32 remainingSize))) in
    let buffer_index := buffer_index + 1 in
    if remainingSize =? 0 then if buffer_index =? buffers then Ret tt else Crash KAbort
    else fill_big fuel cb buffers remainingSize buffer_index
  end.

End ChainReplicationClient.

(** ** A node that forwards: [MidPoll] and [TailPoll] with [SendRequests] *)

(** Where the thread of a forwarding node is: before [read]; before the test
    of the inner loop; in the loop of [SendRequests] *)
Inductive fw_pc := Reading | Draining | Filling (rem index : Z).

(** [fw_in]: the bytes under way to the node; [has_cb]: the completion callback
    is set, which [ReadyToSend] does after it has set [ready]. *)
Record forwarder := mkFw { fw_in : Z; read_len : Z; pc : fw_pc; ready : bool; has_cb : bool; num_inflight_chunk : Z; fw_tx : tx }.

Definition set_pc (v : fw_pc) (f : forwarder) : forwarder := mkFw (fw_in f) (read_len f) v (ready f) (has_cb f) (num_inflight_chunk f) (fw_tx f).
Definition set_fw_tx (v : tx) (f : forwarder) : forwarder := mkFw (fw_in f) (read_len f) (pc f) (ready f) (has_cb f) (num_inflight_chunk f) v.

Inductive fw_op := FRead (rs : Z) | FTest | FFill | FSend | FReady | FSetCallback | FTx (o : tx_op).
#[global] Instance fw_op_eq_dec : EqDecision fw_op.
Proof. solve_decision. Defined.

Section forwarder.
(** [out]: what is sent for a request, [kRequestSize] or [ACK_SIZE] *)
Context (kRequestSize cb depth out : Z).

Definition fw_enabled (o : fw_op) (f : forwarder) : bool :=
  match o, pc f with
  | FRead rs, Reading => (0 <? rs) && (rs <=? fw_in f) || (rs =? - EAGAIN_)
  | FTest, Draining => true
  | FFill, Filling rem _ => negb (rem =? 0)
  | FSend, Filling rem _ => rem =? 0
  | FReady, _ => true
  | FSetCallback, _ => ready f
  | FTx o, _ => tx_enabled o (fw_tx f)
  | _, _ => false
  end.

(** The result and the bytes the operation sends. [read_len] is an int that
    is compared with an unsigned. Calling an empty function throws. *)
Definition fw_exec (o : fw_op) (f : forwarder) : outcome (forwarder * Z) :=
  match o, pc f with
  | FRead rs, _ =>
    if rs >? 0 then
      if (rs <=? RECV_BUFFER) && (read_len f + rs <=? INT_MAX) then
        Ret (mkFw (fw_in f - rs) (read_len f + rs) Draining (ready f) (has_cb f) (num_inflight_chunk f) (fw_tx f), 0)
      else Crash Undefined
    else if (rs =? - EAGAIN_) || (rs =? -104) then Ret (f, 0) else Crash KAbort
  | FTest, _ =>
    if (u32 (read_len f) >=? kRequestSize) && ready f then
      t ← tx_get (ChainReplicationClient.buffers_for cb out) (fw_tx f);
      Ret (set_pc (Filling out 0) (set_fw_tx t f), 0)
    else Ret (set_pc Reading f, 0)
  | FFill, Filling rem index =>
    '(rem, index, n) ← ChainReplicationClient.fill_round cb (ChainReplicationClient.buffers_for cb out) rem index (num_inflight_chunk f);
    Ret (mkFw (fw_in f) (read_len f) (Filling rem index) (ready f) (has_cb f) n (fw_tx f), 0)
  | FSend, Filling _ index =>
    if index =? ChainReplicationClient.buffers_for cb out then
      let '(j, t) := tx_post depth index (fw_tx f) in
      Ret (mkFw (fw_in f) (s32 (u32 (read_len f - kRequestSize))) Draining (ready f) (has_cb f) (num_inflight_chunk f) t, Z.min out (j * cb))
    else Crash KAbort
  | FReady, _ => Ret (mkFw (fw_in f) (read_len f) (pc f) true (has_cb f) (num_inflight_chunk f) (fw_tx f), 0)
  | FSetCallback, _ => Ret (mkFw (fw_in f) (read_len f) (pc f) (ready f) true (num_inflight_chunk f) (fw_tx f), 0)
  | FTx TCallback, _ =>
    if negb (has_cb f) then Crash KAbort else
    n ← ChainReplicationClient.OnSendCompletion (num_inflight_chunk f);
    Ret (mkFw (fw_in f) (read_len f) (pc f) (ready f) (has_cb f) n (tx_exec TCallback (fw_tx f)), 0)
  | FTx o, _ => Ret (set_fw_tx (tx_exec o (fw_tx f)) f, 0)
  | _, _ => Crash Undefined
  end.
End forwarder.

(** ** The ring *)

(** The thread that sends, and the one in [HeadPoll] *)
Inductive head_pc := Window | Sending (n : Z).
Inductive poll_pc := PollRead | PollTest.

Record ring := mkRing {
  inflight_size : Z; send_pc : head_pc; m_request_id : Z; head_tx : tx;
  head_in : Z; head_len : Z; head_poll : poll_pc; m_receive_id : Z;
  mid : forwarder; tail : forwarder;
}.

Inductive ring_op := HWindow | HSend | HTx (o : tx_op) | HRead (rs : Z) | HTest | Mid (o : fw_op) | Tail (o : fw_op).

Definition add_in (n : Z) (f : forwarder) : forwarder := mkFw (fw_in f + n) (read_len f) (pc f) (ready f) (has_cb f) (num_inflight_chunk f) (fw_tx f).

Section ring.
(** [depth]: the depth of the queues of sends *)
Context (kRequestSize kNumRequest cb depth : Z).
(** [kRequestSize > m_rdma_buffer_size_bytes_]: requests are sent one by one *)
Definition big : bool := kRequestSize >? cb.

Definition enabled (o : ring_op) (r : ring) : bool :=
  match o with
  | HWindow => match send_pc r with Window => true | _ => false end
  | HSend => match send_pc r with Sending n => 0 <? n | _ => false end
  | HTx o => tx_enabled o (head_tx r)
  | HRead rs => match head_poll r with PollRead => (0 <? rs) && (rs <=? head_in r) || (rs =? - EAGAIN_) | _ => false end
  | HTest => match head_poll r with PollTest => true | _ => false end
  | Mid o => fw_enabled o (mid r)
  | Tail o => fw_enabled o (tail r)
  end.

(** The test of the window: within it the requests to send are counted in
    flight. A batch of no request has no last buffer. *)
Definition SendRequestsHead_window (r : ring) : outcome ring :=
  if inflight_size r <=? ChainReplicationClient.inflight_threshold kNumRequest kRequestSize then
    let n := ChainReplicationClient.sending_data_num kNumRequest kRequestSize (inflight_size r) in
    if n =? 0 then if big then Ret r else Crash Undefined else
    Ret (mkRing (u64 (inflight_size r + u64 (n * kRequestSize))) (Sending n) (m_request_id r) (head_tx r) (head_in r) (head_len r) (head_poll r)
           (m_receive_id r) (mid r) (tail r))
  else Ret r.

(** The chunks of the next [server.send], the requests they hold, and the
    bytes of the first [j] of them *)
Definition send_chunks (n : Z) : Z := if big then ChainReplicationClient.buffers_for cb kRequestSize else n.
Definition send_requests (n : Z) : Z := if big then 1 else n.
Definition send_bytes (j : Z) : Z := if big then Z.min kRequestSize (j * cb) else j * kRequestSize.

(** The chunks are fetched and filled, and [server.send] posts them. *)
Definition SendRequestsHead_send (r : ring) : outcome ring :=
  match send_pc r with
  | Sending n =>
    t ← tx_get (send_chunks n) (head_tx r);
    (if big then ChainReplicationClient.fill_big (S (Z.to_nat (send_chunks n))) cb (send_chunks n) (s32 (u32 kRequestSize)) 0 else Ret tt) ≫= λ _,
    let '(j, t) := tx_post depth (send_chunks n) t in
    let n' := n - send_requests n in
    Ret (mkRing (inflight_size r) (if n' =? 0 then Window else Sending n') (u64 (m_request_id r + send_requests n)) t (head_in r) (head_len r)
           (head_poll r) (m_receive_id r) (add_in (send_bytes j) (mid r)) (tail r))
  | Window => Crash Undefined
  end.

(** A completion at the head: [OnSendCompletionHead] changes nothing. *)
Definition OnSendCompletionHead (o : tx_op) (r : ring) : outcome ring :=
  Ret (mkRing (inflight_size r) (send_pc r) (m_request_id r) (tx_exec o (head_tx r)) (head_in r) (head_len r) (head_poll r) (m_receive_id r) (mid r) (tail r)).

(** [HeadPoll]: a read, and one round of the inner loop *)
Definition HeadPoll_read (rs : Z) (r : ring) : outcome ring :=
  if rs >? 0 then
    if (rs <=? RECV_BUFFER) && (head_len r + rs <=? INT_MAX) then
      Ret (mkRing (inflight_size r) (send_pc r) (m_request_id r) (head_tx r) (head_in r - rs) (head_len r + rs) PollTest (m_receive_id r) (mid r) (tail r))
    else Crash Undefined
  else if (rs =? - EAGAIN_) || (rs =? -104) then Ret r else Crash KAbort.
Definition HeadPoll_test (r : ring) : outcome ring :=
  if head_len r >=? ACK_SIZE then
    v ← ChainReplicationClient.InflightRelease kRequestSize (inflight_size r);
    Ret (mkRing v (send_pc r) (m_request_id r) (head_tx r) (head_in r) (head_len r - ACK_SIZE) PollTest (u64 (m_receive_id r + 1)) (mid r) (tail r))
  else Ret (mkRing (inflight_size r) (send_pc r) (m_request_id r) (head_tx r) (head_in r) (head_len r) PollRead (m_receive_id r) (mid r) (tail r)).

(** The middle node forwards the request, the tail sends an acknowledgement. *)
Definition MidPoll (o : fw_op) (r : ring) : outcome ring :=
  '(f, n) ← fw_exec kRequestSize cb depth kRequestSize o (mid r);
  Ret (mkRing (inflight_size r) (send_pc r) (m_request_id r) (head_tx r) (head_in r) (head_len r) (head_poll r) (m_receive_id r) f (add_in n (tail r))).
Definition TailPoll (o : fw_op) (r : ring) : outcome ring :=
  '(f, n) ← fw_exec kRequestSize cb depth ACK_SIZE o (tail r);
  Ret (mkRing (inflight_size r) (send_pc r) (m_request_id r) (head_tx r) (head_in r + n) (head_len r) (head_poll r) (m_receive_id r) (mid r) f).

Definition exec (o : ring_op) (r : ring) : outcome ring :=
  match o with
  | HWindow => SendRequestsHead_window r
  | HSend => SendRequestsHead_send r
  | HTx o => OnSendCompletionHead o r
  | HRead rs => HeadPoll_read rs r
  | HTest => HeadPoll_test r
  | Mid o => MidPoll o r
  | Tail o => TailPoll o r
  end.

Definition r_step (r r' : ring) : Prop := ∃ o, enabled o r = true ∧ exec o r = Ret r'.

End ring.

Arguments SendRequestsHead_window _ _ _ _ /.
Arguments HeadPoll_read _ _ /.
Arguments HeadPoll_test _ _ /.
Arguments MidPoll _ _ _ _ _ /.
Arguments TailPoll _ _ _ _ _ /.
Ltac unfold_exec := unfold exec, SendRequestsHead_window, SendRequestsHead_send, OnSendCompletionHead, HeadPoll_read, HeadPoll_test, MidPoll, TailPoll.
Ltac unfold_exec_in H := unfold exec, SendRequestsHead_window, SendRequestsHead_send, OnSendCompletionHead, HeadPoll_read, HeadPoll_test, MidPoll, TailPoll in H.

(** A node with [pool] chunks, before its connection is made *)
Definition fw0 (pool : Z) : forwarder := mkFw 0 0 Reading false false 0 (mkTx pool 0 0 0).
(** The ring before the connections are made; [server.m_receive_id] and the rest are 0. *)
Definition ring0 (pool : Z) : ring := mkRing 0 Window 0 (mkTx pool 0 0 0) 0 0 PollRead 0 (fw0 pool) (fw0 pool).

(** ** What can fail, and what cannot *)

(** The counts of a node's chunks; [pool] chunks with those that are out *)
Record tx_ok (t : tx) : Prop := {
  to_nonneg : 0 ≤ tx_free t ∧ 0 ≤ tx_posted t ∧ 0 ≤ tx_polled t ∧ 0 ≤ tx_done t;
  to_batch : tx_polled t + tx_done t ≤ MAX_COMPLETIONS;
}.
Definition tx_total (t : tx) : Z := tx_free t + tx_posted t + tx_polled t + tx_done t.

Lemma tx_exec_ok o t : tx_ok t → tx_enabled o t = true →
  tx_ok (tx_exec o t) ∧ tx_total (tx_exec o t) = tx_total t ∧ tx_posted (tx_exec o t) ≤ tx_posted t ∧
  tx_posted (tx_exec o t) + tx_polled (tx_exec o t) = tx_posted t + tx_polled t - (match o with TCallback => 1 | _ => 0 end).
Proof.
  intros [(?&?&?&?) Hb] He. unfold MAX_COMPLETIONS in *. destruct o; cbn in He; unfold MAX_COMPLETIONS in *.
  - repeat match goal with H : _ && _ = true |- _ => apply andb_true_iff in H as [? ?] end.
    repeat match goal with H : (_ =? _) = true |- _ => apply Z.eqb_eq in H | H : (_ <? _) = true |- _ => apply Z.ltb_lt in H | H : (_ <=? _) = true |- _ => apply Z.leb_le in H end.
    split_and!; [split|..]; cbn; unfold tx_total, MAX_COMPLETIONS; cbn; lia.
  - apply Z.ltb_lt in He. split_and!; [split|..]; cbn; unfold tx_total, MAX_COMPLETIONS; cbn; lia.
  - apply andb_true_iff in He as [E1%Z.eqb_eq E2%Z.ltb_lt]. split_and!; [split|..]; cbn; unfold tx_total, MAX_COMPLETIONS; cbn; lia.
Qed.

(** What the completions still have to do *)
Definition tx_work (t : tx) : Z := 3 * tx_posted t + 2 * tx_polled t + tx_done t.
Lemma tx_next t : tx_ok t → 0 < tx_work t → ∃ o, tx_enabled o t = true ∧ tx_work (tx_exec o t) < tx_work t.
Proof.
  intros [(?&?&?&?) Hb] Hw. unfold tx_work, MAX_COMPLETIONS in *.
  destruct (Z.eqb_spec (tx_polled t) 0) as [E1|]; [destruct (Z.eqb_spec (tx_done t) 0) as [E2|]|].
  - exists (TPoll 1). cbn. rewrite E1, E2. unfold MAX_COMPLETIONS. split; [|lia]. cbn. apply Z.leb_le. lia.
  - exists TReturn. cbn. rewrite E1. split; [|lia]. cbn. apply Z.ltb_lt. lia.
  - exists TCallback. cbn. split; [apply Z.ltb_lt; lia|lia].
Qed.

Section forwarder_facts.
Context (size cb pool depth out : Z) (Hsize : 0 < size) (Hcb : 0 < cb ≤ INT_MAX) (Hout : 0 < out ≤ INT_MAX).
Implicit Types f : forwarder.

(** The chunks a message takes *)
Definition chunks : Z := (out + cb - 1) / cb.

Lemma chunks_bounds : 1 ≤ chunks ≤ out.
Proof using Hcb Hout.
  unfold chunks, INT_MAX in *. split; [apply Z.div_le_lower_bound; lia|]. apply Z.lt_succ_r, Z.div_lt_upper_bound; nia.
Qed.

Lemma buffers_for_eq : ChainReplicationClient.buffers_for cb out = chunks.
Proof using Hcb Hout.
  unfold INT_MAX in *. unfold ChainReplicationClient.buffers_for, chunks. rewrite (u64_small (out + cb)) by (unfold is_u64; lia).
  rewrite (u64_small (out + cb - 1)) by (unfold is_u64; lia). apply u32_small. unfold is_u32. split; [apply Z.div_pos; lia|].
  apply Z.div_lt_upper_bound; nia.
Qed.

Lemma fill_last k : k * cb < out ≤ (k + 1) * cb → chunks = k + 1.
Proof using Hcb Hout. intros H. unfold chunks. symmetry. apply (Z.div_unique _ _ _ (out - 1 - k * cb)); nia. Qed.
Lemma fill_more k : 0 ≤ k → k * cb < out → k < chunks.
Proof using Hcb Hout. intros Hk H. unfold chunks. apply Z.lt_le_pred. apply Z.lt_le_pred. assert (k + 1 ≤ (out + cb - 1) / cb); [|lia]. apply Z.div_le_lower_bound; nia. Qed.
Lemma chunks_cover k : chunks ≤ k → out ≤ k * cb.
Proof using Hcb Hout. intros H. destruct (Z.le_gt_cases out (k * cb)); [done|]. pose proof chunks_bounds. pose proof (fill_more k ltac:(lia)). lia. Qed.
(** A message that is cut loses at least a byte for every chunk. *)
Lemma chunks_cut j : 0 ≤ j < chunks → chunks - j ≤ out - j * cb.
Proof using Hcb Hout.
  intros Hj. assert ((chunks - 1) * cb < out).
  { destruct (Z.lt_ge_cases ((chunks - 1) * cb) out); [done|]. assert (chunks ≤ chunks - 1); [|lia].
    unfold chunks at 1. apply Z.lt_succ_r, Z.div_lt_upper_bound; [lia|]. unfold INT_MAX in *. nia. }
  nia.
Qed.

(** The loop that fills the chunks of a big request fills as many as were fetched. *)
Lemma fill_big_run (n : nat) : ∀ k, 0 ≤ k → k * cb < out → chunks - k ≤ Z.of_nat n →
  ChainReplicationClient.fill_big n cb chunks (out - k * cb) k = Ret tt.
Proof using Hcb Hout.
  induction n as [|n IH]; intros k Hk Hlt Hn; pose proof (fill_more k Hk Hlt) as Hmore; [lia|]. cbn [ChainReplicationClient.fill_big].
  destruct (Z.ltb_spec k chunks); [|lia]. cbn [negb]. unfold INT_MAX in *. assert (0 ≤ k * cb) by nia. rewrite (u32_small (out - k * cb)) by (unfold is_u32; lia).
  assert (s32 (u32 (out - k * cb - Z.min cb (out - k * cb))) = out - k * cb - Z.min cb (out - k * cb)) as ->.
  { rewrite u32_small by (unfold is_u32; lia). unfold s32. rewrite u32_small by (unfold is_u32; lia). destruct (Z.ltb_spec (out - k * cb - Z.min cb (out - k * cb)) 2147483648); [done|lia]. }
  destruct (Z.le_gt_cases (out - k * cb) cb) as [Hle|Hgt].
  - rewrite Z.min_r by lia. rewrite Z.sub_diag. change (0 =? 0) with true. cbv iota. rewrite (fill_last k) by lia. by rewrite Z.eqb_refl.
  - rewrite Z.min_l by lia. destruct (Z.eqb_spec (out - k * cb - cb) 0); [lia|]. replace (out - k * cb - cb) with (out - (k + 1) * cb) by ring. apply IH; lia.
Qed.

Definition filled f : Z := match pc f with Filling _ k => k | _ => 0 end.
Definition fetched f : Z := match pc f with Filling _ _ => chunks | _ => 0 end.
(** The bytes at a node or under way to it *)
Definition bytes f : Z := fw_in f + read_len f.

Record fw_ok f : Prop := {
  fo_bytes : 0 ≤ fw_in f ∧ 0 ≤ read_len f;
  fo_tx : tx_ok (fw_tx f) ∧ tx_total (fw_tx f) + fetched f = pool;
  fo_chunks : 0 ≤ filled f ∧ num_inflight_chunk f = tx_posted (fw_tx f) + tx_polled (fw_tx f) + filled f ∧ num_inflight_chunk f ≤ TX_QUEUE_LEN;
  fo_pc : match pc f with
    | Filling rem k => size ≤ read_len f ∧ 0 ≤ k ∧ (rem = out - k * cb ∧ 0 < rem ∨ rem = 0 ∧ k = chunks)
    | Draining | Reading => True
    end;
}.

Context (Hpool : TX_QUEUE_LEN + MAX_COMPLETIONS + chunks ≤ pool) (Hdepth : TX_QUEUE_LEN ≤ depth).

(** An operation that can happen returns, and sends a message for one request
    or nothing; but a completion that comes before the callback is set throws. *)
Lemma fw_exec_ok o f : fw_ok f → bytes f ≤ RECV_BUFFER → fw_enabled o f = true → (o = FTx TCallback → has_cb f = true) →
  ∃ f' n, fw_exec size cb depth out o f = Ret (f', n) ∧ fw_ok f' ∧ (n = 0 ∧ bytes f' = bytes f ∨ n = out ∧ bytes f' = bytes f - size ∧ size ≤ bytes f).
Proof using All.
  intros [(Hi&Hr) (Ht&Htot) (Hf&Hn&Hq) Hpc] Hmax He Hcbk. unfold bytes in *. assert (RECV_BUFFER ≤ INT_MAX) as HRI by done.
  unfold fw_enabled in He. destruct o; cbn [fw_exec].
  - destruct (pc f) eqn:E; try done. unfold filled, fetched in *. rewrite E in *.
    apply orb_true_iff in He as [[H1%Z.ltb_lt H2%Z.leb_le]%andb_true_iff|Hrs%Z.eqb_eq].
    + destruct (Z.gtb_spec rs 0); [|lia]. rewrite (proj2 (Z.leb_le _ _)), (proj2 (Z.leb_le (read_len f + rs) _)) by lia. cbn [andb].
      eexists _, _. split; [reflexivity|]. split; [split; unfold filled, fetched; cbn; try done; lia|]. left. cbn. lia.
    + subst rs. eexists _, _. split; [reflexivity|]. split; [split; unfold filled, fetched; rewrite ?E; try done; lia|by left].
  - destruct (pc f) eqn:E; try done. unfold INT_MAX in *. rewrite u32_small by (unfold is_u32; lia). unfold filled, fetched in *. rewrite E in *.
    destruct ((read_len f >=? size) && ready f) eqn:Et.
    + apply andb_true_iff in Et as [Et _]. apply Z.geb_le in Et. rewrite buffers_for_eq. destruct Ht as [(?&?&?&?) Hb].
      unfold tx_total, TX_QUEUE_LEN, MAX_COMPLETIONS in *. pose proof chunks_bounds. unfold tx_get. destruct (Z.gtb_spec chunks (tx_free (fw_tx f))); [lia|].
      cbn [mbind outcome_bind]. eexists _, _. split; [reflexivity|]. split; [|left; cbn; lia].
      split; unfold filled, fetched; cbn; [lia|split; [split; unfold MAX_COMPLETIONS; cbn; lia|unfold tx_total; cbn; lia]|unfold TX_QUEUE_LEN; lia|lia].
    + eexists _, _. split; [reflexivity|]. split; [|by left]. split; unfold filled, fetched; cbn; try done; lia.
  - destruct (pc f) as [| |rem k] eqn:E; try done. unfold filled, fetched in *. rewrite E in *.
    apply negb_true_iff, Z.eqb_neq in He. destruct Hpc as (Hl&Hk&[[Hrem Hpos]|[? _]]); [|done].
    unfold ChainReplicationClient.fill_round, TX_QUEUE_LEN in *. rewrite buffers_for_eq. destruct Ht as [(?&?&?&?) Hb].
    destruct (Z.ltb_spec (num_inflight_chunk f) 128).
    + pose proof (fill_more k Hk ltac:(lia)) as Hmore. destruct (Z.ltb_spec k chunks); [|lia]. unfold INT_MAX in *. rewrite u32_small by (unfold is_u32; nia).
      rewrite u64_small by (unfold is_u64; lia). cbn [mbind outcome_bind]. eexists _, _. split; [reflexivity|]. split; [|by left].
      split; unfold filled, fetched; cbn; [done|by split; [split|]|unfold TX_QUEUE_LEN; lia|]. split_and!; [done|lia|]. destruct (Z.le_gt_cases rem cb).
      * right. split; [lia|]. symmetry. apply fill_last. lia.
      * left. lia.
    + cbn [mbind outcome_bind]. eexists _, _. split; [reflexivity|]. split; [|by left].
      split; unfold filled, fetched; cbn; [done|by split; [split|]|unfold TX_QUEUE_LEN; lia|]. split_and!; [done|done|by left].
  - destruct (pc f) as [| |rem k] eqn:E; try done. unfold filled, fetched in *. rewrite E in *. apply Z.eqb_eq in He. destruct Hpc as (Hl&Hk&[[? ?]|[_ ->]]); [lia|].
    rewrite buffers_for_eq, Z.eqb_refl. destruct Ht as [(?&?&?&?) Hb]. unfold TX_QUEUE_LEN, INT_MAX, RECV_BUFFER in *. unfold tx_post. rewrite Z.min_l by lia.
    rewrite (Z.min_l out) by (apply chunks_cover; lia). rewrite u32_small by (unfold is_u32; lia). unfold s32. rewrite u32_small by (unfold is_u32; lia).
    destruct (Z.ltb_spec (read_len f - size) 2147483648); [|lia]. eexists _, _. split; [reflexivity|]. unfold tx_total in *. split; [|right; cbn; lia].
    split; unfold filled, fetched; cbn; [lia|split; [split; cbn; lia|unfold tx_total; cbn; lia]|unfold TX_QUEUE_LEN; lia|done].
  - eexists _, _. split; [reflexivity|]. split; [|by left]. by split.
  - eexists _, _. split; [reflexivity|]. split; [|by left]. by split.
  - destruct (tx_exec_ok o (fw_tx f) Ht He) as (Ht'&Htot'&_&Hpp). destruct o as [k| |].
    + eexists _, _. split; [reflexivity|]. split; [|by left]. unfold filled, fetched in *. split; unfold filled, fetched; cbn in *; [done|split; [done|lia]|lia|done].
    + rewrite (Hcbk eq_refl). cbn [negb]. apply Z.ltb_lt in He. destruct Ht as [(?&?&?&?) Hb]. unfold ChainReplicationClient.OnSendCompletion, TX_QUEUE_LEN in *.
      destruct (Z.geb_spec (num_inflight_chunk f) 1); [|lia]. rewrite u64_small by (unfold is_u64; lia). cbn [mbind outcome_bind].
      eexists _, _. split; [reflexivity|]. split; [|by left]. unfold filled, fetched in *. split; unfold filled, fetched; cbn in *; [done|split; [done|lia]|unfold TX_QUEUE_LEN; lia|done].
    + eexists _, _. split; [reflexivity|]. split; [|by left]. unfold filled, fetched in *. split; unfold filled, fetched; cbn in *; [done|split; [done|lia]|lia|done].
Qed.

(** *** A node that is connected delivers *)

Context (Hchunks : chunks ≤ TX_QUEUE_LEN).

(** The node can send, and waits for bytes only when it has no whole request. *)
Definition live f : Prop := ready f = true ∧ has_cb f = true ∧ (pc f = Reading → read_len f < size).
Definition fw_quiet f f' : Prop := ∃ o, fw_enabled o f = true ∧ fw_exec size cb depth out o f = Ret (f', 0).
Definition fw_emits f f' : Prop := ∃ o, fw_enabled o f = true ∧ fw_exec size cb depth out o f = Ret (f', out).

Lemma live_step o f f' n : live f → fw_exec size cb depth out o f = Ret (f', n) → is_u32 (read_len f) → live f'.
Proof using Type.
  intros (Hr&Hc&Hl) E Hu. revert E. destruct o as [rs| | | | | |o]; cbn [fw_exec].
  - destruct (rs >? 0); [destruct (_ && _); [|done]; intros [= <- _]; by split|]. destruct (_ || _); [|done]. intros [= <- _]. by split.
  - rewrite Hr, andb_true_r, u32_small by done. destruct (Z.geb_spec (read_len f) size); [|intros [= <- _]; split_and!; cbn; (done || lia)].
    destruct (tx_get _ _); [|done]. cbn. intros [= <- _]. by split_and!.
  - destruct (pc f); try done. destruct (ChainReplicationClient.fill_round _ _ _ _ _) as [[[? ?] ?]|]; [|done]. cbn. intros [= <- _]. by split_and!.
  - destruct (pc f); try done. destruct (_ =? _); [|done]. cbn. intros [= <- _]. by split_and!.
  - intros [= <- _]. by split_and!.
  - intros [= <- _]. by split_and!.
  - destruct o; [intros [= <- _]; by split_and!| |intros [= <- _]; by split_and!].
    rewrite Hc. cbn [negb]. destruct (ChainReplicationClient.OnSendCompletion _); [|done]. cbn. intros [= <- _]. by split_and!.
Qed.

(** Only [FSend] sends. *)
Lemma exec_sends o f f' n : fw_exec size cb depth out o f = Ret (f', n) → o ≠ FSend → n = 0.
Proof using Type.
  destruct o as [rs| | | | | |o]; cbn [fw_exec]; intros E Hne; revert E.
  - destruct (rs >? 0); [destruct (_ && _)|destruct (_ || _)]; by intros [=].
  - destruct (_ && _); [|by intros [=]]. destruct (tx_get _ _); [|done]. by intros [=].
  - destruct (pc f); try done. destruct (ChainReplicationClient.fill_round _ _ _ _ _) as [[[? ?] ?]|]; [|done]. by intros [=].
  - done.
  - by intros [=].
  - by intros [=].
  - destruct o; [by intros [=]| |by intros [=]]. destruct (has_cb f); [|done]. destruct (ChainReplicationClient.OnSendCompletion _); [|done]. by intros [=].
Qed.

Lemma quiet_step o f : fw_ok f → live f → bytes f ≤ RECV_BUFFER → fw_enabled o f = true → o ≠ FSend →
  ∃ f', fw_exec size cb depth out o f = Ret (f', 0) ∧ fw_quiet f f' ∧ fw_ok f' ∧ live f' ∧ bytes f' = bytes f.
Proof using Hsize Hcb Hout Hpool Hdepth.
  intros Hok Hl Hmax He Hne. destruct (fw_exec_ok o f Hok Hmax He ltac:(intros _; apply Hl)) as (f'&n&E&Hok'&Hn).
  pose proof (exec_sends o f f' n E Hne) as ->. exists f'. destruct Hok as [(?&?) _ _ _]. unfold bytes in *.
  split_and!; [done|by exists o|done|eapply live_step; [done|done|unfold is_u32, RECV_BUFFER in *; lia]|lia].
Qed.

(** The loop of [SendRequests] ends, waiting for completions where it must. *)
Lemma fill_ends (n : nat) : ∀ f rem k, fw_ok f → live f → bytes f ≤ RECV_BUFFER → pc f = Filling rem k →
  chunks - k + tx_work (fw_tx f) ≤ Z.of_nat n → ∃ f' k', rtc fw_quiet f f' ∧ fw_ok f' ∧ live f' ∧ bytes f' = bytes f ∧ pc f' = Filling 0 k'.
Proof using All.
  induction n as [|n IH]; intros f rem k Hok Hl Hmax Hpc Hn; pose proof Hok as [_ (Ht&_) (_&Hq&Hlim) Hst]; rewrite Hpc in Hst; unfold filled in Hq; rewrite Hpc in Hq;
    destruct Hst as (_&Hk&[[Hrem Hpos]|[-> ->]]); try (by exists f, chunks); pose proof (fill_more k Hk ltac:(lia)) as Hmore;
    pose proof Ht as [(?&?&?&?) _]; [unfold tx_work in Hn; lia|].
  assert (∃ o, fw_enabled o f = true ∧ o ≠ FSend ∧ ∀ f', fw_exec size cb depth out o f = Ret (f', 0) →
    ∃ rem' k', pc f' = Filling rem' k' ∧ chunks - k' + tx_work (fw_tx f') ≤ Z.of_nat n) as (o&He&Hne&Hnext).
  { unfold TX_QUEUE_LEN in *. destruct (Z.lt_ge_cases (num_inflight_chunk f) 128) as [Hlt|Hge].
    - exists FFill. split_and!; [cbn; rewrite Hpc; by apply negb_true_iff, Z.eqb_neq; lia|done|]. intros f'. cbn [fw_exec]. rewrite Hpc.
      unfold ChainReplicationClient.fill_round, TX_QUEUE_LEN. rewrite (proj2 (Z.ltb_lt _ _) Hlt), buffers_for_eq, (proj2 (Z.ltb_lt _ _) Hmore). cbn [mbind outcome_bind].
      intros [= <-]. eexists _, _. split; [reflexivity|]. cbn [fw_tx]. lia.
    - destruct (tx_next (fw_tx f) Ht) as (o&He&Hw); [unfold tx_work; lia|]. exists (FTx o). split_and!; [exact He|done|]. intros f' E.
      exists rem, k. revert E. cbn [fw_exec]. destruct o; [intros [= <-]; cbn; split; [done|cbn in Hw; lia]| |intros [= <-]; cbn; split; [done|cbn in Hw; lia]].
      destruct (has_cb f); [|done]. cbn [negb]. destruct (ChainReplicationClient.OnSendCompletion _); [|done]. cbn [mbind outcome_bind]. intros [= <-]. cbn. split; [done|cbn in Hw; lia]. }
  destruct (quiet_step o f Hok Hl Hmax He Hne) as (f1&E1&Hq1&Hok1&Hl1&Hb1). destruct (Hnext f1 E1) as (rem1&k1&Hpc1&Hn1).
  destruct (IH f1 rem1 k1 Hok1 Hl1 ltac:(lia) Hpc1 Hn1) as (f2&k2&Hr2&Hok2&Hl2&Hb2&Hpc2). exists f2, k2. split_and!; [by eapply rtc_l|done|done|lia|done].
Qed.

Lemma emit_step f k : fw_ok f → live f → bytes f ≤ RECV_BUFFER → pc f = Filling 0 k →
  ∃ f', fw_emits f f' ∧ fw_ok f' ∧ live f' ∧ bytes f' = bytes f - size.
Proof using All.
  intros Hok Hl Hmax Hpc. assert (fw_enabled FSend f = true) as He by (cbn; by rewrite Hpc).
  destruct (fw_exec_ok FSend f Hok Hmax He ltac:(done)) as (f'&n&E&Hok'&Hn). pose proof Hok as [(?&?) _ (_&Hq&Hlim) Hst]. rewrite Hpc in Hst.
  assert (n = out ∧ bytes f' = bytes f - size) as [-> Hb].
  { destruct Hn as [[-> _]|(->&Hb&_)]; [|done]. exfalso. revert E. cbn. rewrite Hpc. destruct (_ =? _) eqn:Ek; [|done]. apply Z.eqb_eq in Ek.
    rewrite buffers_for_eq in Ek. intros [= _ E0]. destruct Hok as [_ ([(?&?&?&?) _]&_) _ _]. unfold filled in Hq. rewrite Hpc in Hq. pose proof chunks_bounds.
    unfold TX_QUEUE_LEN in *. rewrite (Z.min_l k) in E0 by lia. pose proof (chunks_cover k ltac:(lia)). lia. }
  exists f'. split_and!; [by exists FSend|done|eapply live_step; [done|done|unfold is_u32, RECV_BUFFER, bytes in *; lia]|done].
Qed.

Definition delivers f : Prop := ∃ f1 f2, rtc fw_quiet f f1 ∧ fw_emits f1 f2 ∧ fw_ok f2 ∧ live f2 ∧ bytes f2 = bytes f - size.

Lemma delivers_l f f' : fw_quiet f f' → bytes f' = bytes f → delivers f' → delivers f.
Proof using Type. intros Hq Hb (f1&f2&Hr&He&Hok&Hl&Hb'). exists f1, f2. split_and!; [by eapply rtc_l|done|done|done|lia]. Qed.

Lemma fill_delivers f rem k : fw_ok f → live f → bytes f ≤ RECV_BUFFER → pc f = Filling rem k → delivers f.
Proof using All.
  intros Hok Hl Hmax Hpc. destruct (fill_ends (Z.to_nat (chunks - k + tx_work (fw_tx f))) f rem k Hok Hl Hmax Hpc) as (f1&k1&Hr&Hok1&Hl1&Hb1&Hpc1).
  { pose proof Hok as [_ ([(?&?&?&?) _]&_) _ Hst]. rewrite Hpc in Hst. unfold tx_work. pose proof (fill_more k) as Hm. destruct Hst as (_&Hk&[[? ?]|[_ ->]]); [|lia]. specialize (Hm Hk). lia. }
  destruct (emit_step f1 k1 Hok1 Hl1 ltac:(lia) Hpc1) as (f2&He&Hok2&Hl2&Hb2). exists f1, f2. split_and!; [done|done|done|done|lia].
Qed.

Lemma drain_delivers f : fw_ok f → live f → bytes f ≤ RECV_BUFFER → pc f = Draining → size ≤ read_len f → delivers f.
Proof using All.
  intros Hok Hl Hmax Hpc Hlen. destruct (quiet_step FTest f Hok Hl Hmax ltac:(cbn; by rewrite Hpc) ltac:(done)) as (f1&E1&Hq1&Hok1&Hl1&Hb1).
  apply (delivers_l f f1 Hq1 Hb1). apply (fill_delivers f1 out 0 Hok1 Hl1); [lia|]. revert E1. cbn. pose proof Hok as [(?&?) _ _ _]. unfold bytes, RECV_BUFFER in *.
  rewrite u32_small by (unfold is_u32; lia). destruct Hl as [-> _]. destruct (Z.geb_spec (read_len f) size); [|lia]. cbn [andb]. destruct (tx_get _ _); [|done]. cbn. by intros [= <-].
Qed.

Lemma read_delivers f : fw_ok f → live f → bytes f ≤ RECV_BUFFER → pc f = Reading → size ≤ bytes f → delivers f.
Proof using All.
  intros Hok Hl Hmax Hpc Hlen. pose proof (proj2 (proj2 Hl) Hpc) as Hlt. pose proof Hok as [(?&?) _ _ _]. unfold bytes in Hlen, Hmax.
  destruct (quiet_step (FRead (fw_in f)) f Hok Hl Hmax) as (f1&E1&Hq1&Hok1&Hl1&Hb1);
    [cbn; rewrite Hpc; apply orb_true_iff; left; apply andb_true_iff; split; [apply Z.ltb_lt; lia|apply Z.leb_refl]|done|].
  apply (delivers_l f f1 Hq1 Hb1). revert E1. cbn. destruct (Z.gtb_spec (fw_in f) 0); [|lia]. destruct (_ && _); [|done]. intros [= <-].
  apply drain_delivers; [done|done|unfold bytes in *; cbn in *; lia|done|cbn; lia].
Qed.

Lemma fw_delivers f : fw_ok f → live f → bytes f ≤ RECV_BUFFER → size ≤ bytes f → delivers f.
Proof using All.
  intros Hok Hl Hmax Hlen. destruct (pc f) as [| |rem k] eqn:Hpc; [by apply read_delivers| |by eapply fill_delivers].
  destruct (Z.le_gt_cases size (read_len f)); [by apply drain_delivers|].
  destruct (quiet_step FTest f Hok Hl Hmax ltac:(cbn; by rewrite Hpc) ltac:(done)) as (f1&E1&Hq1&Hok1&Hl1&Hb1).
  apply (delivers_l f f1 Hq1 Hb1). apply read_delivers; [done|done|lia| |lia].
  revert E1. cbn. pose proof Hok as [(?&?) _ _ _]. unfold bytes, RECV_BUFFER in *. rewrite u32_small by (unfold is_u32; lia).
  destruct (Z.geb_spec (read_len f) size); [lia|]. by intros [= <-].
Qed.
End forwarder_facts.

Section ring_facts.
Context (size num cb pool depth : Z) (Hsize : 0 < size) (Hnum : 0 < num) (Hcb : 0 < cb ≤ INT_MAX).
Context (Hbytes : num * size ≤ RECV_BUFFER) (Hacks : num * ACK_SIZE ≤ RECV_BUFFER).
Context (Hpool : TX_QUEUE_LEN + MAX_COMPLETIONS + chunks cb size ≤ pool) (Hpool' : TX_QUEUE_LEN + MAX_COMPLETIONS + ACK_SIZE ≤ pool) (Hdepth : TX_QUEUE_LEN ≤ depth).
Implicit Types r : ring.

Abbreviation step := (r_step size num cb depth).

Lemma size_int : 0 < size ≤ INT_MAX.
Proof using Hsize Hnum Hbytes. clear -Hsize Hnum Hbytes. unfold RECV_BUFFER, INT_MAX in *. nia. Qed.
Lemma ack_int : 0 < ACK_SIZE ≤ INT_MAX.
Proof using Type. done. Qed.
Lemma ack_pool : TX_QUEUE_LEN + MAX_COMPLETIONS + chunks cb ACK_SIZE ≤ pool.
Proof using Hcb Hpool'. clear -Hcb Hpool'. pose proof (chunks_bounds cb ACK_SIZE Hcb ack_int). lia. Qed.

(** The requests counted in flight that are not sent yet *)
Definition unsent r : Z := match send_pc r with Sending n => n | Window => 0 end.
(** The bytes counted in flight that no node has: those of the requests that
    found the queue of the head full. [c] is the number of acknowledgements
    at the head or under way to it. *)
Definition lost r (c : Z) : Z := inflight_size r - size * unsent r - bytes (mid r) - bytes (tail r) - size * c.

(** [q] requests are counted in flight. *)
Record ring_ok r (q c : Z) : Prop := {
  ro_mid : fw_ok size cb pool size (mid r);
  ro_tail : fw_ok size cb pool ACK_SIZE (tail r);
  ro_head : 0 ≤ head_in r ∧ 0 ≤ head_len r ∧ head_in r + head_len r = ACK_SIZE * c;
  ro_tx : tx_ok (head_tx r) ∧ tx_posted (head_tx r) ≤ depth ∧ tx_total (head_tx r) ≤ pool ≤ tx_total (head_tx r) + lost r c;
  ro_counts : 0 ≤ c ∧ match send_pc r with Sending n => 1 ≤ n | Window => True end ∧ unsent r ≤ q ≤ num;
  ro_inflight : inflight_size r = size * q ∧ 0 ≤ lost r c;
  ro_ids : is_u64 (m_receive_id r) ∧ m_request_id r = u64 (m_receive_id r + (q - unsent r));
  ro_whole : lost r c = 0 → ∃ a b, bytes (mid r) = size * a ∧ bytes (tail r) = size * b;
}.

Lemma unsent_nonneg r q c : ring_ok r q c → 0 ≤ unsent r.
Proof using Type. intros [_ _ _ _ (_&H&_) _ _ _]. unfold unsent. destruct (send_pc r); lia. Qed.

Lemma fw_start (b : bool) out : 0 ≤ pool → fw_ok size cb pool out (mkFw 0 0 Reading b b 0 (mkTx pool 0 0 0)).
Proof using Type. intros H. split; unfold filled, fetched, tx_total, TX_QUEUE_LEN; cbn; [lia|split; [split; unfold MAX_COMPLETIONS; cbn; lia|lia]|lia|done]. Qed.
Definition ring_start (b : bool) : ring :=
  mkRing 0 Window 0 (mkTx pool 0 0 0) 0 0 PollRead 0 (mkFw 0 0 Reading b b 0 (mkTx pool 0 0 0)) (mkFw 0 0 Reading b b 0 (mkTx pool 0 0 0)).
Lemma pool_nonneg : 0 ≤ pool.
Proof using Hpool'. clear -Hpool'. unfold TX_QUEUE_LEN, MAX_COMPLETIONS, ACK_SIZE in *. lia. Qed.
Lemma ring_start_ok b : ring_ok (ring_start b) 0 0.
Proof using Hsize Hnum Hpool' Hdepth.
  pose proof pool_nonneg as Hp. assert (lost (ring_start b) 0 = 0) as El by (unfold lost, unsent, bytes; cbn; lia). split.
  - by apply fw_start.
  - by apply fw_start.
  - cbn. lia.
  - rewrite El. unfold tx_total. cbn. split_and!; [split; unfold MAX_COMPLETIONS; cbn; lia|unfold TX_QUEUE_LEN in *; lia|lia|lia].
  - unfold unsent. cbn. lia.
  - rewrite El. cbn. lia.
  - done.
  - intros _. exists 0, 0. unfold bytes. cbn. lia.
Qed.

(** No node has more bytes than the window. *)
Lemma node_bytes r q c : ring_ok r q c → bytes (mid r) ≤ RECV_BUFFER ∧ bytes (tail r) ≤ RECV_BUFFER ∧ size * c ≤ inflight_size r ≤ num * size ∧ c ≤ num.
Proof using Hsize Hnum Hbytes.
  intros Hok. pose proof (unsent_nonneg r q c Hok) as Hu. destruct Hok as [[(?&?) _ _ _] [(?&?) _ _ _] _ _ (Hc&_&Hq) (Hin&Hl) _ _].
  unfold lost, bytes in *. assert (0 ≤ size * unsent r) by nia. assert (0 ≤ size * c) by nia. assert (size * q ≤ num * size) by nia.
  assert (size * c ≤ size * q) by lia. assert (c ≤ q) by nia. lia.
Qed.

Lemma window_opens r q c : ring_ok r q c → send_pc r = Window →
  inflight_size r ≤ ChainReplicationClient.inflight_threshold num size →
  ChainReplicationClient.sending_data_num num size (inflight_size r) = num - q ∧ 0 < num - q.
Proof using Hsize Hnum Hbytes.
  intros Hok Hpc Hw. pose proof Hok as [_ _ _ _ (_&_&Hq) (Hin&_) _ _]. unfold unsent in Hq. rewrite Hpc in Hq. unfold RECV_BUFFER in *. clear Hok.
  unfold ChainReplicationClient.inflight_threshold in Hw. rewrite u64_small in Hw by (unfold is_u64; split; [apply Z.mul_nonneg_nonneg; [apply Z.div_pos|]; lia|];
    assert (num / 2 ≤ num) by (apply Z.div_le_upper_bound; lia); nia).
  unfold ChainReplicationClient.sending_data_num. rewrite (u64_small (num * size)) by (unfold is_u64; nia).
  rewrite u64_small by (unfold is_u64; nia). rewrite Hin. replace (num * size - size * q) with ((num - q) * size) by ring.
  rewrite Z.div_mul by lia. split; [done|]. assert (num / 2 < num) by (apply Z.div_lt; lia). nia.
Qed.

Lemma ids_send i j n k : is_u64 i → j = u64 (i + n) → u64 (j + k) = u64 (i + (n + k)).
Proof using Type. intros Hi ->. unfold u64. rewrite Zplus_mod_idemp_l. f_equal. lia. Qed.
Lemma ids_receive i j n : is_u64 i → j = u64 (i + n) → is_u64 (u64 (i + 1)) ∧ j = u64 (u64 (i + 1) + (n - 1)).
Proof using Type. intros Hi ->. split; [apply Z.mod_pos_bound; lia|]. unfold u64. rewrite Zplus_mod_idemp_l. f_equal. lia. Qed.

Lemma add_in_ok out f n : 0 ≤ n → fw_ok size cb pool out f → fw_ok size cb pool out (add_in n f).
Proof using Type. intros Hn [(?&?) H2 H3 H4]. split; [cbn; lia|done|done|done]. Qed.
Lemma add_in_bytes f n : bytes (add_in n f) = bytes f + n.
Proof using Type. unfold bytes. cbn. lia. Qed.
Lemma add_in_0 f : add_in 0 f = f.
Proof using Type. unfold add_in. rewrite Z.add_0_r. by destruct f. Qed.

(** What the head's next message is, and what a full queue takes of it *)
Lemma send_counts n j : 1 ≤ n → 0 ≤ j ≤ send_chunks size cb n →
  1 ≤ send_requests size cb n ≤ n ∧ 0 ≤ send_bytes size cb j ≤ send_requests size cb n * size ∧
  send_chunks size cb n - j ≤ send_requests size cb n * size - send_bytes size cb j ∧
  (j = send_chunks size cb n → send_bytes size cb j = send_requests size cb n * size).
Proof using Hsize Hnum Hcb Hbytes.
  intros Hn. unfold send_chunks, send_requests, send_bytes. destruct (big size cb).
  - rewrite (buffers_for_eq cb size Hcb size_int). intros Hj. assert (0 ≤ j * cb) by nia. split_and!; [lia|lia|lia|lia| |].
    + destruct (decide (j = chunks cb size)) as [->|Hne]; [pose proof (chunks_cover cb size Hcb size_int (chunks cb size) ltac:(lia)); lia|].
      pose proof (chunks_cut cb size Hcb size_int j ltac:(lia)). lia.
    + intros ->. pose proof (chunks_cover cb size Hcb size_int (chunks cb size) ltac:(lia)). lia.
  - intros Hj. split_and!; [lia|lia|nia|nia|nia|]. by intros ->.
Qed.

(** Sending at the head *)
Lemma head_send_ok r q c n : ring_ok r q c → send_pc r = Sending n → send_chunks size cb n ≤ tx_free (head_tx r) →
  ∃ r', exec size num cb depth HSend r = Ret r' ∧ ring_ok r' q c ∧
    lost r c ≤ lost r' c ∧ (tx_posted (head_tx r) + send_chunks size cb n ≤ depth → lost r' c = lost r c) ∧ unsent r' = unsent r - send_requests size cb n ∧
    mid r' = add_in (send_bytes size cb (Z.min (send_chunks size cb n) (depth - tx_posted (head_tx r)))) (mid r) ∧ tail r' = tail r ∧
    head_poll r' = head_poll r ∧ head_len r' = head_len r ∧ inflight_size r' = inflight_size r.
Proof using All.
  intros Hok Hpc Hfree. pose proof Hok as [Hm Ht Hh (Htx&Hdep&Htot) (Hc&Hpos&Hq) (Hin&Hl) (Hid&Hids) Hwh]. rewrite Hpc in Hpos.
  set (w := send_chunks size cb n) in *. set (j := Z.min w (depth - tx_posted (head_tx r))).
  assert (0 ≤ w) as Hw.
  { unfold w, send_chunks. destruct (big size cb); [|lia]. rewrite (buffers_for_eq cb size Hcb size_int). pose proof (chunks_bounds cb size Hcb size_int). lia. }
  assert (0 ≤ j ≤ w) as Hj by (unfold j; lia). destruct (send_counts n j Hpos Hj) as (Hk&Hb&Hcut&Hfull). set (k := send_requests size cb n) in *.
  assert ((if big size cb then ChainReplicationClient.fill_big (S (Z.to_nat w)) cb w (s32 (u32 size)) 0 else Ret tt) = Ret tt) as Efill.
  { unfold w, send_chunks. destruct (big size cb); [|done]. rewrite (buffers_for_eq cb size Hcb size_int). pose proof size_int as Hsi. unfold INT_MAX in Hsi.
    rewrite u32_small by (unfold is_u32; lia). unfold s32. rewrite u32_small by (unfold is_u32; lia). destruct (Z.ltb_spec size 2147483648); [|lia].
    pose proof (fill_big_run cb size Hcb size_int (S (Z.to_nat (chunks cb size))) 0) as Hf. rewrite Z.mul_0_l, !Z.sub_0_r in Hf. apply Hf; lia. }
  cbn [exec]. unfold SendRequestsHead_send. rewrite Hpc. fold w k. unfold tx_get. destruct (Z.gtb_spec w (tx_free (head_tx r))); [lia|].
  cbn [mbind outcome_bind]. rewrite Efill. cbn [outcome_bind]. unfold tx_post. cbn [tx_posted]. fold j.
  eexists. split; [reflexivity|]. set (r' := mkRing _ _ _ _ _ _ _ _ _ _).
  assert (unsent r' = unsent r - k) as Hu by (unfold unsent; cbn; rewrite Hpc; destruct (Z.eqb_spec (n - k) 0); lia).
  assert (lost r' c = lost r c + (k * size - send_bytes size cb j)) as El.
  { unfold lost. rewrite Hu. change (mid r') with (add_in (send_bytes size cb j) (mid r)). rewrite add_in_bytes. change (tail r') with (tail r). change (inflight_size r') with (inflight_size r). ring. }
  split_and!; try done; [|lia|intros Hroom; rewrite El, Hfull by (unfold j; lia); lia].
  destruct Htx as [(?&?&?&?) Hbt]. split.
  - apply add_in_ok; [lia|done].
  - done.
  - done.
  - rewrite El. unfold tx_total in *. cbn. split_and!; [split; cbn; lia|unfold j; lia|lia|lia].
  - rewrite Hu. unfold unsent in *. rewrite Hpc in *. cbn. split_and!; [lia|destruct (Z.eqb_spec (n - k) 0); lia|lia|lia].
  - rewrite El. cbn. split; [done|lia].
  - cbn. rewrite Hu. split; [done|]. rewrite (ids_send _ _ _ k Hid Hids). f_equal. lia.
  - intros E0. rewrite El in E0. destruct Hwh as (a&b&Ha&Hb'); [lia|]. exists (a + k), b. change (mid r') with (add_in (send_bytes size cb j) (mid r)). rewrite add_in_bytes, Ha.
    split; [lia|exact Hb'].
Qed.

(** What an operation leaves when the node and the head keep their bytes *)
Lemma ring_ok_mid r q c f n : ring_ok r q c → fw_ok size cb pool size f → 0 ≤ n → bytes f + n = bytes (mid r) → (n = 0 ∨ n = size) →
  ring_ok (mkRing (inflight_size r) (send_pc r) (m_request_id r) (head_tx r) (head_in r) (head_len r) (head_poll r) (m_receive_id r) f (add_in n (tail r))) q c ∧
  lost (mkRing (inflight_size r) (send_pc r) (m_request_id r) (head_tx r) (head_in r) (head_len r) (head_poll r) (m_receive_id r) f (add_in n (tail r))) c = lost r c.
Proof using Hsize Hnum.
  intros [Hm Ht Hh Htx Hc Hin Hid Hwh] Hf Hn Hb Hn'. set (r' := mkRing _ _ _ _ _ _ _ _ _ _).
  assert (bytes (tail r') = bytes (tail r) + n) as Hbt by apply add_in_bytes.
  assert (lost r' c = lost r c) as El by (unfold lost in *; rewrite Hbt; unfold unsent; cbn; lia). split; [|done].
  split; [done|by apply add_in_ok|done|by rewrite El|done|by rewrite El|done|]. rewrite El. intros E. destruct (Hwh E) as (a&b&Ha&Hb'). rewrite Hbt.
  change (mid r') with f. destruct Hn' as [->| ->]; [exists a, b; lia|exists (a - 1), (b + 1); lia].
Qed.
Lemma ring_ok_tail r q c f n : ring_ok r q c → fw_ok size cb pool ACK_SIZE f →
  (n = 0 ∧ bytes f = bytes (tail r) ∨ n = ACK_SIZE ∧ bytes f = bytes (tail r) - size) →
  ∃ c', ring_ok (mkRing (inflight_size r) (send_pc r) (m_request_id r) (head_tx r) (head_in r + n) (head_len r) (head_poll r) (m_receive_id r) (mid r) f) q c' ∧
    lost (mkRing (inflight_size r) (send_pc r) (m_request_id r) (head_tx r) (head_in r + n) (head_len r) (head_poll r) (m_receive_id r) (mid r) f) c' = lost r c ∧
    ACK_SIZE * c' = ACK_SIZE * c + n.
Proof using Hsize Hnum.
  intros [Hm Ht Hh Htx Hc Hin Hid Hwh] Hf Hn. set (r' := mkRing _ _ _ _ _ _ _ _ _ _). unfold ACK_SIZE in *.
  assert (∃ c', 64 * c' = 64 * c + n ∧ lost r' c' = lost r c ∧ 0 ≤ c' ∧ 0 ≤ n ∧ (bytes f = bytes (tail r) ∨ bytes f = bytes (tail r) - size)) as (c'&Ec&El&Hc'&Hn'&Hbf).
  { destruct Hn as [[-> Hb]|[-> Hb]]; [exists c|exists (c + 1)]; (split_and!; [lia| |lia|lia|by (left + right)]); unfold lost, unsent in *; change (tail r') with f; cbn; lia. }
  exists c'. split_and!; [|done|done]. split; [done|done|cbn; unfold ACK_SIZE; lia|by rewrite El|by destruct Hc as (_&?&?)|by rewrite El|done|].
  rewrite El. intros E. destruct (Hwh E) as (a&b&Ha&Hb'). change (tail r') with f. destruct Hbf as [->| ->]; [by exists a, b|exists a, (b - 1)]. split; [done|lia].
Qed.


(** What can fail: the head fetches more chunks than its pool has left, or a
    send completes before [ReadyToSend] has set the callback. *)
Definition may_abort (o : ring_op) r : Prop :=
  match o with
  | HSend => ∃ n, send_pc r = Sending n ∧ tx_free (head_tx r) < send_chunks size cb n
  | Mid (FTx TCallback) => has_cb (mid r) = false
  | Tail (FTx TCallback) => has_cb (tail r) = false
  | _ => False
  end.

Lemma may_abort_dec o r : may_abort o r ∨ ¬ may_abort o r.
Proof using All.
  destruct o as [| | | | |[]|[]]; cbn; try tauto; try (destruct o as [| |]; [tauto| |tauto]).
  - destruct (send_pc r) as [|n]; [right; by intros (n&[=]&_)|]. destruct (Z.lt_ge_cases (tx_free (head_tx r)) (send_chunks size cb n)) as [H|H]; [left; by exists n|].
    right. intros (m&[= <-]&?). lia.
  - destruct (has_cb (mid r)); auto.
  - destruct (has_cb (tail r)); auto.
Qed.

Lemma aborts o r : enabled o r = true → may_abort o r → exec size num cb depth o r = Crash KAbort.
Proof using All.
  intros He. destruct o as [| | | | |[]|[]]; cbn [may_abort]; try done; try (destruct o as [| |]; [done| |done]).
  - intros (n&Hpc&Hlt). cbn [exec]. unfold SendRequestsHead_send. rewrite Hpc. unfold tx_get. by destruct (Z.gtb_spec (send_chunks size cb n) (tx_free (head_tx r))); [|lia].
  - intros H. cbn. by rewrite H.
  - intros H. cbn. by rewrite H.
Qed.

(** Whatever else can happen returns and keeps the books. *)
Lemma exec_ok o r q c : ring_ok r q c → enabled o r = true → ¬ may_abort o r → ∃ r' q' c', exec size num cb depth o r = Ret r' ∧ ring_ok r' q' c' ∧ lost r c ≤ lost r' c'.
Proof using All.
  intros Hok He Hsafe. pose proof Hok as [Hm Ht (Hh1&Hh2&Hh3) (Htx&Hdep&Htot) (Hc&Hpos&Hq) (Hin&Hl) (Hid&Hids) Hwh].
  pose proof (unsent_nonneg r q c Hok) as Hu. destruct (node_bytes r q c Hok) as (Hbm&Hbt&Hbc&Hcn).
  assert (RECV_BUFFER ≤ INT_MAX) as HRI by done. destruct o; cbn [enabled] in He.
  - destruct (send_pc r) eqn:E; [|done]. cbn [exec]. unfold SendRequestsHead_window.
    destruct (Z.leb_spec (inflight_size r) (ChainReplicationClient.inflight_threshold num size)) as [Hw|]; [|by exists r, q, c].
    destruct (window_opens r q c Hok E Hw) as [-> Hn]. destruct (Z.eqb_spec (num - q) 0); [lia|]. unfold RECV_BUFFER in *. assert (0 ≤ (num - q) * size ≤ num * size) by nia.
    rewrite (u64_small ((num - q) * size)) by (unfold is_u64; lia). rewrite u64_small by (unfold is_u64; lia).
    eexists _, num, c. split; [reflexivity|]. set (r' := mkRing _ _ _ _ _ _ _ _ _ _).
    assert (lost r' c = lost r c) as El by (unfold lost, unsent; rewrite E; cbn; lia). rewrite El. split; [|done]. unfold unsent in *. rewrite E in *.
    split; [done|done|done|by rewrite El|cbn; lia|rewrite El; cbn; split; lia| |rewrite El; done]. cbn. split; [done|]. rewrite Hids. f_equal. lia.
  - destruct (send_pc r) as [|n] eqn:E; [done|]. destruct (head_send_ok r q c n Hok E) as (r'&E'&Hok'&Hl'&_).
    { destruct (Z.le_gt_cases (send_chunks size cb n) (tx_free (head_tx r))); [done|]. exfalso. apply Hsafe. by exists n. }
    by exists r', q, c.
  - destruct (tx_exec_ok o (head_tx r) Htx He) as (Ht1&Ht2&Ht3&_). cbn [exec]. unfold OnSendCompletionHead. eexists _, q, c. split; [reflexivity|]. split; [|done].
    split; [done|done|done| |done|done|done|done]. cbn. rewrite Ht2. split_and!; [done|lia|lia|]. by destruct Htot.
  - destruct (head_poll r); [|done]. cbn [exec]. unfold HeadPoll_read.
    apply orb_true_iff in He as [[H1%Z.ltb_lt H2%Z.leb_le]%andb_true_iff|Hrs%Z.eqb_eq]; [|subst rs; by exists r, q, c].
    assert (ACK_SIZE * c ≤ RECV_BUFFER) as Hack by (unfold ACK_SIZE in *; lia).
    destruct (Z.gtb_spec rs 0); [|lia]. rewrite (proj2 (Z.leb_le _ _)), (proj2 (Z.leb_le (head_len r + rs) _)) by lia. cbn [andb].
    eexists _, q, c. split; [reflexivity|]. split; [|done]. split; [done|done|cbn; lia|done|done|done|done|done].
  - destruct (head_poll r); [done|]. cbn [exec]. unfold HeadPoll_test.
    destruct (Z.geb_spec (head_len r) ACK_SIZE) as [Hlen|]; [|eexists _, q, c; split; [reflexivity|]; split; [by split|done]].
    assert (1 ≤ c) as Hc1 by (unfold ACK_SIZE in *; lia). unfold ChainReplicationClient.InflightRelease.
    assert (size ≤ inflight_size r) as Hge by (clear -Hbc Hc1 Hsize; nia).
    destruct (Z.geb_spec (inflight_size r) size) as [_|Hlt]; [|lia]. unfold RECV_BUFFER in *. rewrite (u64_small (inflight_size r - size)) by (unfold is_u64; lia).
    cbn [mbind outcome_bind]. eexists _, (q - 1), (c - 1). split; [reflexivity|]. set (r' := mkRing _ _ _ _ _ _ _ _ _ _).
    assert (lost r' (c - 1) = lost r c) as El by (unfold lost, unsent; cbn; lia). rewrite El. split; [|done].
    assert (unsent r ≤ q - 1) as Huq.
    { destruct Hm as [(?&?) _ _ _], Ht as [(?&?) _ _ _]. unfold lost, bytes in Hl. clear -Hl Hc1 Hsize Hin H H0 H1 H2. nia. }
    destruct (ids_receive _ _ _ Hid Hids) as [Hid' Hids'].
    split; [done|done|cbn; unfold ACK_SIZE in *; lia|by rewrite El|unfold unsent in *; cbn; split_and!; [lia|done|lia|lia]|rewrite El; cbn; split; lia| |by rewrite El].
    cbn. split; [done|]. rewrite Hids'. f_equal. unfold unsent. cbn. lia.
  - destruct (fw_exec_ok size cb pool depth size Hsize Hcb size_int Hpool Hdepth o (mid r) Hm Hbm He) as (f&n&E&Hf&Hn).
    { intros ->. cbn in Hsafe. by destruct (has_cb (mid r)). }
    cbn [exec]. unfold MidPoll. rewrite E. cbn [mbind outcome_bind]. destruct (ring_ok_mid r q c f n Hok Hf) as [Hok' El]; [lia|lia|lia|]. eexists _, q, c. split; [reflexivity|]. by rewrite El.
  - destruct (fw_exec_ok size cb pool depth ACK_SIZE Hsize Hcb ack_int ack_pool Hdepth o (tail r) Ht Hbt He) as (f&n&E&Hf&Hn).
    { intros ->. cbn in Hsafe. by destruct (has_cb (tail r)). }
    cbn [exec]. unfold TailPoll. rewrite E. cbn [mbind outcome_bind]. destruct (ring_ok_tail r q c f n Hok Hf) as (c'&Hok'&El&_); [lia|]. eexists _, q, c'. split; [reflexivity|]. by rewrite El.
Qed.

Lemma r_step_ok r r' q c : ring_ok r q c → step r r' → ∃ q' c', ring_ok r' q' c' ∧ lost r c ≤ lost r' c'.
Proof using All.
  intros Hok (o&He&Ho). destruct (may_abort_dec o r) as [Ha|Ha]; [by rewrite (aborts o r He Ha) in Ho|].
  destruct (exec_ok o r q c Hok He Ha) as (r1&q1&c1&E&H1). rewrite Ho in E. injection E as ->. by exists q1, c1.
Qed.
Lemma reachable_ok r0 r q c : ring_ok r0 q c → rtc step r0 r → ∃ q c, ring_ok r q c.
Proof using All.
  intros H0 Hrun. apply (rtc_invariant step (λ r, ∃ q c, ring_ok r q c) r0 r); [|by exists q, c|done].
  intros x y (q1&c1&H1) Hs. destruct (r_step_ok x y q1 c1 H1 Hs) as (q2&c2&H2&_). by exists q2, c2.
Qed.

Lemma acks_count r q c : ring_ok r q c → (head_in r + head_len r) / ACK_SIZE = c.
Proof using Type. intros [_ _ (_&_&->) _ _ _ _ _]. unfold ACK_SIZE. rewrite Z.mul_comm. by apply Z.div_mul. Qed.

(** The bytes of the requests that found the queue of the head full *)
Definition lost_bytes r : Z := lost r ((head_in r + head_len r) / ACK_SIZE).

(** C21: In every interleaving of the three nodes, with a window that fits into
    the receive buffer, a queue of sends of at least 128 entries and a pool
    of at least 200 chunks and 136 more than a message takes, only two things
    fail: the head aborts when it fetches more chunks than its pool has left, and a send
    that completes before the node's [ReadyToSend] has set the callback calls
    an empty function. No other assertion fails, no counter overflows, no
    pointer leaves the receive buffer. The window counts exactly the requests
    that were sent and not acknowledged with those about to be sent, never more
    than [kNumRequest]; the bytes it counts are at the nodes or under way to
    them, acknowledged, or those of requests that found the queue of the head
    full, each of which cost the pool its chunks. *)
Theorem chain_safe r : rtc step (ring0 pool) r →
  (∀ o, enabled o r = true → (∃ r', exec size num cb depth o r = Ret r') ∨ may_abort o r ∧ exec size num cb depth o r = Crash KAbort) ∧
  (∃ n, 0 ≤ n ∧ unsent r + n ≤ num ∧ inflight_size r = size * (unsent r + n) ∧ m_request_id r = u64 (m_receive_id r + n)) ∧
  0 ≤ lost_bytes r ∧ tx_total (head_tx r) ≤ pool ≤ tx_total (head_tx r) + lost_bytes r.
Proof using All.
  intros Hrun. destruct (reachable_ok (ring0 pool) r 0 0 (ring_start_ok false) Hrun) as (q&c&Hok). split_and!.
  - intros o He. destruct (may_abort_dec o r) as [Ha|Ha]; [right; split; [done|by apply aborts]|]. left.
    destruct (exec_ok o r q c Hok He Ha) as (r'&_&_&E&_). by exists r'.
  - pose proof (unsent_nonneg r q c Hok). destruct Hok as [_ _ _ _ (_&_&Hq) (Hin&_) (_&Hids) _].
    exists (q - unsent r). split_and!; [lia|lia|rewrite Hin; f_equal; lia|done].
  - unfold lost_bytes. rewrite (acks_count r q c Hok). apply Hok.
  - apply Hok.
  - unfold lost_bytes. rewrite (acks_count r q c Hok). apply Hok.
Qed.

(** A request that found the queue full is never acknowledged: the window
    counts it for ever. *)
Theorem lost_for_ever r r' : rtc step (ring0 pool) r → rtc step r r' → lost_bytes r ≤ lost_bytes r' ≤ inflight_size r'.
Proof using All.
  intros H0 Hrun. destruct (reachable_ok (ring0 pool) r 0 0 (ring_start_ok false) H0) as (q&c&Hok).
  assert (∃ q' c', ring_ok r' q' c' ∧ lost r c ≤ lost r' c') as (q'&c'&Hok'&Hl).
  { apply (rtc_invariant step (λ x, ∃ q' c', ring_ok x q' c' ∧ lost r c ≤ lost x c') r r'); [|by exists q, c|done].
    intros x y (q1&c1&Hx&Hle) Hs. destruct (r_step_ok x y q1 c1 Hx Hs) as (q2&c2&Hy&Hle2). exists q2, c2. split; [done|lia]. }
  unfold lost_bytes. rewrite (acks_count r q c Hok), (acks_count r' q' c' Hok'). split; [done|]. pose proof (unsent_nonneg r' q' c' Hok').
  destruct Hok' as [[(?&?) _ _ _] [(?&?) _ _ _] _ _ (?&_) _ _ _]. unfold lost, bytes. nia.
Qed.

(** *** Progress *)

Context (Hfit : chunks cb size ≤ TX_QUEUE_LEN) (Hwin : num ≤ depth ∧ num ≤ pool).

Lemma ack_fits : chunks cb ACK_SIZE ≤ TX_QUEUE_LEN.
Proof using Hcb. clear -Hcb. pose proof (chunks_bounds cb ACK_SIZE Hcb ack_int). unfold ACK_SIZE, TX_QUEUE_LEN in *. lia. Qed.

Definition with_mid (f : forwarder) r : ring :=
  mkRing (inflight_size r) (send_pc r) (m_request_id r) (head_tx r) (head_in r) (head_len r) (head_poll r) (m_receive_id r) f (tail r).
Definition with_tail (f : forwarder) r : ring :=
  mkRing (inflight_size r) (send_pc r) (m_request_id r) (head_tx r) (head_in r) (head_len r) (head_poll r) (m_receive_id r) (mid r) f.

Lemma mid_quiet r f : rtc (fw_quiet size cb depth size) (mid r) f → rtc step r (with_mid f r).
Proof using Type.
  remember (mid r) as f0 eqn:E. intros H. revert r E. induction H as [f0|f0 f1 f2 (o&He&Ho) _ IH]; intros r ->; [by destruct r|].
  eapply rtc_l; [exists (Mid o)|apply (IH (with_mid f1 r)); done]. split; [done|]. unfold_exec. rewrite Ho. cbn. by rewrite add_in_0.
Qed.
Lemma tail_quiet r f : rtc (fw_quiet size cb depth ACK_SIZE) (tail r) f → rtc step r (with_tail f r).
Proof using Type.
  remember (tail r) as f0 eqn:E. intros H. revert r E. induction H as [f0|f0 f1 f2 (o&He&Ho) _ IH]; intros r ->; [by destruct r|].
  eapply rtc_l; [exists (Tail o)|apply (IH (with_tail f1 r)); done]. split; [done|]. unfold_exec. rewrite Ho. cbn. by rewrite Z.add_0_r.
Qed.

Definition ring_live r : Prop := live size (mid r) ∧ live size (tail r) ∧ (head_poll r = PollRead → head_len r < ACK_SIZE).
(** A connected ring that has lost nothing *)
Definition ring_full r (q c : Z) : Prop := ring_ok r q c ∧ lost r c = 0 ∧ ring_live r.

Lemma ring_live_step r r' q c : ring_ok r q c → ring_live r → step r r' → ring_live r'.
Proof using All.
  intros Hok (Hm&Ht&Hh) (o&He&Ho). destruct (node_bytes r q c Hok) as (Hbm&Hbt&_). pose proof Hok as [[(?&?) _ _ _] [(?&?) _ _ _] _ _ _ _ _ _].
  assert (is_u32 (read_len (mid r)) ∧ is_u32 (read_len (tail r))) as [Hum Hut] by (unfold is_u32, bytes, RECV_BUFFER in *; lia).
  destruct o; unfold_exec_in Ho.
  - destruct (_ <=? _); [|injection Ho as <-; by split_and!]. destruct (_ =? 0); [destruct (big _ _); [injection Ho as <-; by split_and!|done]|]. injection Ho as <-. by split_and!.
  - destruct (send_pc r); [done|]. destruct (tx_get _ _); [|done]. cbn [mbind outcome_bind] in Ho. destruct (if big _ _ then _ else _); [|done]. cbn in Ho. injection Ho as <-. by split_and!.
  - injection Ho as <-. by split_and!.
  - destruct (rs >? 0); [destruct (_ && _); [injection Ho as <-; by split_and!|done]|]. destruct (_ || _); [by injection Ho as <-|done].
  - destruct (Z.geb_spec (head_len r) ACK_SIZE); [|injection Ho as <-; by split_and!]. destruct (ChainReplicationClient.InflightRelease _ _); [|done]. cbn in Ho. injection Ho as <-. by split_and!.
  - destruct (fw_exec size cb depth size o (mid r)) as [[f n]|] eqn:E; [|done]. cbn in Ho. injection Ho as <-. split; [exact (live_step size cb depth size o (mid r) f n Hm E Hum)|by split].
  - destruct (fw_exec size cb depth ACK_SIZE o (tail r)) as [[f n]|] eqn:E; [|done]. cbn in Ho. injection Ho as <-. split; [done|split; [exact (live_step size cb depth ACK_SIZE o (tail r) f n Ht E Hut)|done]].
Qed.

(** A run of the middle node up to its next message, and of the tail *)
Lemma mid_delivers r q c : ring_full r q c → size ≤ bytes (mid r) →
  ∃ r', rtc step r r' ∧ ring_full r' q c ∧ send_pc r' = send_pc r ∧ bytes (mid r') = bytes (mid r) - size ∧ bytes (tail r') = bytes (tail r) + size.
Proof using All.
  intros (Hok&Hl&(Hm&Ht&Hh)) Hb. destruct (node_bytes r q c Hok) as (Hbm&_).
  destruct (fw_delivers size cb pool depth size Hsize Hcb size_int Hpool Hdepth Hfit (mid r) (ro_mid _ _ _ Hok) Hm Hbm Hb) as (f1&f2&Hr&(o&He&Ho)&Hok2&Hl2&Hb2).
  pose proof (mid_quiet r f1 Hr) as R1. destruct (ring_ok_mid r q c f2 size Hok Hok2) as [Hok' El]; [lia|lia|by right|]. eexists. split_and!.
  - eapply rtc_r; [exact R1|]. exists (Mid o). split; [done|]. unfold_exec. cbn [mid with_mid]. rewrite Ho. reflexivity.
  - split_and!; [exact Hok'|exact (eq_trans El Hl)|by split_and!].
  - done.
  - done.
  - apply add_in_bytes.
Qed.
Lemma tail_delivers r q c : ring_full r q c → size ≤ bytes (tail r) →
  ∃ r', rtc step r r' ∧ ring_full r' q (c + 1) ∧ send_pc r' = send_pc r ∧ bytes (mid r') = bytes (mid r) ∧ bytes (tail r') = bytes (tail r) - size.
Proof using All.
  intros (Hok&Hl&(Hm&Ht&Hh)) Hb. destruct (node_bytes r q c Hok) as (_&Hbt&_).
  destruct (fw_delivers size cb pool depth ACK_SIZE Hsize Hcb ack_int ack_pool Hdepth ack_fits (tail r) (ro_tail _ _ _ Hok) Ht Hbt Hb) as (f1&f2&Hr&(o&He&Ho)&Hok2&Hl2&Hb2).
  pose proof (tail_quiet r f1 Hr) as R1. destruct (ring_ok_tail r q c f2 ACK_SIZE Hok Hok2) as (c'&Hok'&El&Hc'); [by right|].
  replace c' with (c + 1) in * by (unfold ACK_SIZE in *; lia). eexists. split_and!.
  - eapply rtc_r; [exact R1|]. exists (Tail o). split; [done|]. unfold_exec. cbn [tail with_tail]. rewrite Ho. reflexivity.
  - split_and!; [exact Hok'|exact (eq_trans El Hl)|by split_and!].
  - done.
  - done.
  - done.
Qed.

(** A step of the head that loses nothing *)
Lemma full_step o r q c : ring_full r q c → enabled o r = true → ¬ may_abort o r → o ≠ HSend →
  ∃ r' q' c', exec size num cb depth o r = Ret r' ∧ step r r' ∧ ring_ok r' q' c' ∧ ring_live r'.
Proof using All.
  intros (Hok&_&Hlv) He Ha _. destruct (exec_ok o r q c Hok He Ha) as (r'&q'&c'&E&Hok'&_). assert (step r r') as Hs by (by exists o).
  exists r', q', c'. split_and!; [done|done|done|]. by apply (ring_live_step r r' q c).
Qed.

(** The head takes one acknowledgement. *)
Lemma head_test r q c : ring_full r q c → head_poll r = PollTest → ACK_SIZE ≤ head_len r →
  ∃ r', rtc step r r' ∧ ring_full r' (q - 1) (c - 1) ∧ send_pc r' = send_pc r ∧ mid r' = mid r ∧ tail r' = tail r.
Proof using All.
  intros Hfull Hpc Hlen. pose proof Hfull as (Hok&Hl&_). destruct (full_step HTest r q c Hfull) as (r'&q'&c'&E&Hs&Hok'&Hlv'); [cbn; by rewrite Hpc|by intros []|done|].
  revert E. cbn [exec]. unfold HeadPoll_test, ChainReplicationClient.InflightRelease. destruct (Z.geb_spec (head_len r) ACK_SIZE); [|lia].
  destruct (Z.geb_spec (inflight_size r) size) as [Hge|]; [|done]. destruct (node_bytes r q c Hok) as (_&_&Hin&_). unfold RECV_BUFFER in *.
  rewrite (u64_small (inflight_size r - size)) by (unfold is_u64; lia). cbn [mbind outcome_bind]. intros [= Er']. pose proof Hok as [_ _ (_&_&Hh) _ _ (Hi&_) _ _]. pose proof Hok' as [_ _ (_&_&Hh') _ _ (Hi'&_) _ _].
  rewrite <-Er' in Hh', Hi'. cbn in Hh', Hi'. unfold ACK_SIZE in *. replace (c - 1) with c' by lia. replace (q - 1) with q' by nia.
  exists r'. split_and!; [by apply rtc_once| |by rewrite <-Er'..]. split_and!; [done| |done]. rewrite <-Er'. unfold lost, unsent in *. cbn. lia.
Qed.
Lemma head_reads r q c : ring_full r q c → head_poll r = PollRead → 1 ≤ c →
  ∃ r', rtc step r r' ∧ ring_full r' (q - 1) (c - 1) ∧ send_pc r' = send_pc r ∧ mid r' = mid r ∧ tail r' = tail r.
Proof using All.
  intros Hfull Hpc Hc. pose proof Hfull as (Hok&Hl&(_&_&Hlen)). specialize (Hlen Hpc). pose proof Hok as [_ _ (Hh1&Hh2&Hh3) _ _ _ _ _].
  destruct (full_step (HRead (head_in r)) r q c Hfull) as (r'&q'&c'&E&Hs&Hok'&Hlv');
    [cbn; rewrite Hpc; apply orb_true_iff; left; apply andb_true_iff; split; [apply Z.ltb_lt; unfold ACK_SIZE in *; lia|apply Z.leb_refl]|by intros []|done|].
  revert E. cbn [exec]. unfold HeadPoll_read. destruct (Z.gtb_spec (head_in r) 0); [|unfold ACK_SIZE in *; lia]. destruct (_ && _); [|done]. intros [= Er'].
  pose proof Hok as [_ _ _ _ _ (Hi&_) _ _]. pose proof Hok' as [_ _ (_&_&Hh') _ _ (Hi'&_) _ _]. rewrite <-Er' in Hh', Hi'. cbn in Hh', Hi'.
  assert (c' = c) as -> by (unfold ACK_SIZE in *; lia). assert (q' = q) as -> by (clear -Hi Hi' Hsize; nia).
  destruct (head_test r' q c) as (r2&R2&Hf2&Hp2&Hm2&Ht2); [|by rewrite <-Er'|rewrite <-Er'; cbn; unfold ACK_SIZE in *; lia|].
  { split_and!; [done| |done]. rewrite <-Er'. exact Hl. }
  exists r2. split_and!; [by eapply rtc_l|done|rewrite Hp2; by rewrite <-Er'|rewrite Hm2; by rewrite <-Er'|rewrite Ht2; by rewrite <-Er'].
Qed.
Lemma head_takes r q c : ring_full r q c → 1 ≤ c →
  ∃ r', rtc step r r' ∧ ring_full r' (q - 1) (c - 1) ∧ send_pc r' = send_pc r ∧ mid r' = mid r ∧ tail r' = tail r.
Proof using All.
  intros Hfull Hc. destruct (head_poll r) eqn:Hpc; [by apply (head_reads r)|].
  destruct (Z.le_gt_cases ACK_SIZE (head_len r)) as [|Hlt]; [by apply (head_test r)|].
  set (r1 := mkRing (inflight_size r) (send_pc r) (m_request_id r) (head_tx r) (head_in r) (head_len r) PollRead (m_receive_id r) (mid r) (tail r)).
  assert (step r r1) as R1.
  { exists HTest. split; cbn; [by rewrite Hpc|]. destruct (Z.geb_spec (head_len r) ACK_SIZE); [lia|done]. }
  destruct Hfull as (Hok&Hl&Hlv). destruct (head_reads r1 q c) as (r2&R2&Hrest); [|done|done|].
  - split_and!; [by destruct Hok|done|by apply (ring_live_step r r1 q c)].
  - exists r2. split; [by eapply rtc_l|done].
Qed.

(** The completions of the head's sends, and then its next message *)
Lemma head_completes (n : nat) : ∀ r q c, ring_full r q c → tx_work (head_tx r) ≤ Z.of_nat n →
  ∃ r', rtc step r r' ∧ ring_full r' q c ∧ send_pc r' = send_pc r ∧ tx_work (head_tx r') = 0.
Proof using All.
  induction n as [|n IH]; intros r q c Hfull Hn; pose proof Hfull as (Hok&Hl&Hlv); pose proof Hok as [_ _ _ (Htx&_) _ _ _ _];
    destruct (decide (tx_work (head_tx r) = 0)) as [|Hne]; try (by exists r); pose proof Htx as [(?&?&?&?) _]; [unfold tx_work in *; lia|].
  destruct (tx_next _ Htx) as (o&He&Hw); [unfold tx_work in *; lia|].
  destruct (full_step (HTx o) r q c Hfull He) as (r1&q1&c1&E&Hs&Hok1&Hlv1); [by intros []|done|]. revert E. cbn [exec]. unfold OnSendCompletionHead. intros [= Er].
  assert (ring_full r1 q c) as Hfull1.
  { pose proof Hok as [_ _ (_&_&Hh) _ _ (Hi&_) _ _]. pose proof Hok1 as [_ _ (_&_&Hh') _ _ (Hi'&_) _ _]. rewrite <-Er in Hh', Hi'. cbn in Hh', Hi'.
    assert (c1 = c) as -> by (unfold ACK_SIZE in *; lia). assert (q1 = q) as -> by (clear -Hi Hi' Hsize; nia). split_and!; [done|rewrite <-Er; exact Hl|done]. }
  destruct (IH r1 q c Hfull1) as (r2&R2&Hf2&Hp2&Hw2); [rewrite <-Er; cbn; lia|]. exists r2. split_and!; [by eapply rtc_l|done|rewrite Hp2; by rewrite <-Er|done].
Qed.

Lemma head_sends (n : nat) : ∀ r q c, ring_full r q c → unsent r ≤ Z.of_nat n → ∃ r', rtc step r r' ∧ ring_full r' q c ∧ send_pc r' = Window.
Proof using All.
  induction n as [|n IH]; intros r q c Hfull Hn; destruct (send_pc r) as [|k] eqn:Hpc; try (by exists r);
    pose proof Hfull as (Hok&_&_); pose proof Hok as [_ _ _ _ (_&Hpos&_) _ _ _]; rewrite Hpc in Hpos; [unfold unsent in Hn; rewrite Hpc in Hn; lia|].
  destruct (head_completes (Z.to_nat (tx_work (head_tx r))) r q c Hfull) as (r1&R1&Hf1&Hp1&Hw1).
  { pose proof Hok as [_ _ _ ([(?&?&?&?) _]&_) _ _ _ _]. unfold tx_work. lia. }
  pose proof Hf1 as (Hok1&Hl1&Hlv1). pose proof Hok1 as [_ _ _ ([(?&?&?&?) _]&_&Htot) (_&_&Hq) _ _ _]. rewrite Hpc in Hp1. unfold unsent in Hq, Hn. rewrite Hp1 in Hq. rewrite Hpc in Hn.
  assert (send_chunks size cb k ≤ pool ∧ send_chunks size cb k ≤ depth) as [Hc1 Hc2].
  { unfold send_chunks. destruct (big size cb); [|lia]. rewrite (buffers_for_eq cb size Hcb size_int). unfold TX_QUEUE_LEN, MAX_COMPLETIONS in *. lia. }
  unfold tx_work, tx_total in *. destruct (head_send_ok r1 q c k Hok1 Hp1) as (r2&E2&Hok2&_&Hl2&Hu2&_); [lia|].
  destruct (send_counts k 0 Hpos) as (Hk&_); [split; [lia|]; unfold send_chunks; destruct (big size cb); [rewrite (buffers_for_eq cb size Hcb size_int); pose proof (chunks_bounds cb size Hcb size_int); lia|lia]|].
  assert (step r1 r2) as R2 by (exists HSend; split; [cbn; rewrite Hp1; apply Z.ltb_lt; lia|done]).
  destruct (IH r2 q c) as (r3&R3&Hf3&Hp3).
  - split_and!; [done|rewrite Hl2; [done|lia]|by apply (ring_live_step r1 r2 q c)].
  - rewrite Hu2. unfold unsent. rewrite Hp1. lia.
  - exists r3. split_and!; [by etrans; [exact R1|]; eapply rtc_l|done|done].
Qed.

(** Nothing is left under way. *)
Lemma all_arrive (n : nat) : ∀ r q c, ring_full r q c → send_pc r = Window → 3 * bytes (mid r) + 2 * bytes (tail r) + size * c ≤ Z.of_nat n →
  ∃ r', rtc step r r' ∧ ring_full r' 0 0 ∧ send_pc r' = Window.
Proof using All.
  induction n as [|n IH]; intros r q c Hfull Hpc Hn; pose proof Hfull as (Hok&Hl&_); pose proof Hok as [[(?&?) _ _ _] [(?&?) _ _ _] _ _ (Hc&_&_) (Hin&_) _ Hwh];
    destruct (Hwh Hl) as (a&b&Ha&Hb); assert (0 ≤ bytes (mid r) ∧ 0 ≤ bytes (tail r)) as [Hbm Hbt] by (unfold bytes; lia); assert (0 ≤ size * c) as Hsc by nia.
  all: assert (bytes (mid r) = 0 ∨ size ≤ bytes (mid r)) as [Em|Em] by (rewrite Ha in *; assert (0 ≤ a) by nia; destruct (decide (a = 0)); [left; nia|right; nia]).
  all: assert (bytes (tail r) = 0 ∨ size ≤ bytes (tail r)) as [Et|Et] by (rewrite Hb in *; assert (0 ≤ b) by nia; destruct (decide (b = 0)); [left; nia|right; nia]); try lia.
  all: destruct (decide (c = 0)) as [->|Hc0]; try (assert (q = 0) as -> by (unfold lost, unsent in Hl; rewrite Hpc in Hl; nia); by exists r).
  all: try (clear -Hn Hc0 Hc Hsize Em Et; nia).
  1: destruct (head_takes r q c Hfull) as (r1&R1&Hf1&Hp1&Hm1&Ht1); [lia|]; destruct (IH r1 _ _ Hf1) as (r2&R2&Hrest); [congruence|rewrite Hm1, Ht1; lia|].
  2,3: destruct (tail_delivers r q _ Hfull Et) as (r1&R1&Hf1&Hp1&Hm1&Ht1); destruct (IH r1 _ _ Hf1) as (r2&R2&Hrest); [congruence|rewrite Hm1, Ht1; lia|].
  4,5,6,7: destruct (mid_delivers r q _ Hfull Em) as (r1&R1&Hf1&Hp1&Hm1&Ht1); destruct (IH r1 _ _ Hf1) as (r2&R2&Hrest); [congruence|rewrite Hm1, Ht1; lia|].
  all: exists r2; split; [by etrans|done].
Qed.

End ring_facts.

(** ** Where the chain stands still *)

Definition with_head_tx (t : tx) (r : ring) : ring :=
  mkRing (inflight_size r) (send_pc r) (m_request_id r) t (head_in r) (head_len r) (head_poll r) (m_receive_id r) (mid r) (tail r).

(** All sends of the head complete. *)
Lemma head_tx_drains size num cb depth (n : nat) : ∀ r, tx_ok (head_tx r) → tx_work (head_tx r) ≤ Z.of_nat n →
  rtc (r_step size num cb depth) r (with_head_tx (mkTx (tx_total (head_tx r)) 0 0 0) r).
Proof.
  assert (∀ r, tx_ok (head_tx r) → tx_work (head_tx r) = 0 → r = with_head_tx (mkTx (tx_total (head_tx r)) 0 0 0) r) as Hstop.
  { intros r [(?&?&?&?) _] Hw. unfold tx_work, tx_total, with_head_tx in *. destruct r as [? ? ? [] ? ? ? ? ? ?]. cbn in *. f_equal. f_equal; lia. }
  induction n as [|n IH]; intros r Ht Hn; pose proof Ht as [(?&?&?&?) _].
  - rewrite <-Hstop by (done || unfold tx_work in *; lia). apply rtc_refl.
  - destruct (decide (tx_work (head_tx r) = 0)) as [Hw|Hw]; [rewrite <-Hstop by done; apply rtc_refl|].
    destruct (tx_next _ Ht) as (o&He&Hlt); [unfold tx_work in *; lia|]. destruct (tx_exec_ok o _ Ht He) as (Ht'&Htot&_).
    eapply rtc_l; [exists (HTx o); split; [exact He|reflexivity]|].
    pose proof (IH (with_head_tx (tx_exec o (head_tx r)) r) Ht' ltac:(cbn; lia)) as R. cbn [head_tx with_head_tx] in R. rewrite Htot in R. exact R.
Qed.

(** A node that is not ready reads what comes and keeps it. *)
Lemma unready_reads size num cb depth (n : nat) : ∀ r len t, mid r = mkFw (Z.of_nat n) len Reading false false 0 t → 0 ≤ len → len + Z.of_nat n ≤ INT_MAX →
  rtc (r_step size num cb depth) r (with_mid (mkFw 0 (len + Z.of_nat n) Reading false false 0 t) r).
Proof.
  induction n as [|n IH]; intros r len t Hm Hlen Hmax.
  { replace (with_mid _ r) with r; [apply rtc_refl|]. unfold with_mid. change (Z.of_nat 0) with 0 in *. rewrite Z.add_0_r. destruct r. cbn in Hm. by subst. }
  eapply (rtc_l _ _ (with_mid (mkFw (Z.of_nat n) (len + 1) Draining false false 0 t) r)).
  { exists (Mid (FRead 1)). split; [cbn; rewrite Hm; cbn; apply orb_true_iff; left; apply Z.leb_le; lia|]. cbn [exec]. unfold MidPoll. rewrite Hm.
    assert (fw_exec size cb depth size (FRead 1) (mkFw (Z.of_nat (S n)) len Reading false false 0 t) = Ret (mkFw (Z.of_nat n) (len + 1) Draining false false 0 t, 0)) as ->.
    { cbn. destruct (Z.leb_spec (len + 1) INT_MAX); [|lia]. do 3 f_equal. lia. }
    cbn [mbind outcome_bind]. by rewrite add_in_0. }
  eapply (rtc_l _ _ (with_mid (mkFw (Z.of_nat n) (len + 1) Reading false false 0 t) r)).
  { exists (Mid FTest). split; [done|]. cbn [exec]. unfold MidPoll. cbn [mid with_mid fw_exec ready]. rewrite andb_false_r. cbn [mbind outcome_bind]. by rewrite add_in_0. }
  pose proof (IH (with_mid (mkFw (Z.of_nat n) (len + 1) Reading false false 0 t) r) (len + 1) t eq_refl ltac:(lia) ltac:(lia)) as R.
  replace (len + 1 + Z.of_nat n) with (len + Z.of_nat (S n)) in R by lia. exact R.
Qed.

(** A connected node that waits for bytes, with nothing under way and no send
    of its own, does not move. *)
Lemma fw_idle size cb depth out p n o f k : fw_enabled o (mkFw 0 n Reading true true 0 (mkTx p 0 0 0)) = true →
  fw_exec size cb depth out o (mkFw 0 n Reading true true 0 (mkTx p 0 0 0)) = Ret (f, k) → f = mkFw 0 n Reading true true 0 (mkTx p 0 0 0) ∧ k = 0.
Proof.
  intros He E. destruct o as [rs| | | | | |o]; cbn in He; try discriminate He.
  - apply orb_true_iff in He as [[H1%Z.ltb_lt H2%Z.leb_le]%andb_true_iff|Hrs%Z.eqb_eq]; [lia|]. subst rs. by injection E as <- <-.
  - by injection E as <- <-.
  - by injection E as <- <-.
  - destruct o as [j| |]; cbn in He; try discriminate He. apply andb_true_iff in He as [H1%Z.ltb_lt H2%Z.leb_le]. unfold MAX_COMPLETIONS in *. lia.
Qed.

(** C39: A node that learns too late that its own connection stands keeps the
    requests it has read: the inner loop is left while the node is not ready,
    and entered again only after new bytes have come, which the head does not
    send while its window is full. The chain reaches a state in which every
    node is connected and no byte is under way, and which it never leaves: the
    requests are never acknowledged. *)
Theorem chain_stalls size num cb pool depth : 0 < size ≤ cb → 1 < num → num * size ≤ INT_MAX → num ≤ pool → num ≤ depth →
  ∃ r, rtc (r_step size num cb depth) (ring0 pool) r ∧ ready (mid r) = true ∧ ready (tail r) = true ∧ inflight_size r = num * size ∧ m_receive_id r = 0 ∧
    ∀ r', rtc (r_step size num cb depth) r r' → r' = r.
Proof.
  intros Hsize Hnum Hmax Hpool Hdepth.
  assert (inflight_size (ring0 pool) ≤ ChainReplicationClient.inflight_threshold num size) as Hw.
  { unfold ChainReplicationClient.inflight_threshold. cbn. apply Z.mod_pos_bound. lia. }
  assert (0 ≤ num / 2 * size < num * size) as Hhalf by (assert (0 ≤ num / 2 < num) by (split; [apply Z.div_pos; lia|apply Z.div_lt; lia]); nia).
  assert (ChainReplicationClient.sending_data_num num size 0 = num) as Hn.
  { unfold INT_MAX in *. unfold ChainReplicationClient.sending_data_num. rewrite Z.sub_0_r, !u64_small by (unfold is_u64; rewrite ?u64_small; unfold is_u64; lia). by rewrite Z.div_mul by lia. }
  set (t := mkTx pool 0 0 0). set (r := mkRing (num * size) Window (u64 num) t 0 0 PollRead 0 (mkFw 0 (num * size) Reading true true 0 t) (mkFw 0 0 Reading true true 0 t)).
  exists r. split_and!; [|done..|].
  - eapply (rtc_l _ _ (mkRing (num * size) (Sending num) 0 t 0 0 PollRead 0 (fw0 pool) (fw0 pool))).
    { exists HWindow. split; [done|]. cbn. cbn in Hw. rewrite (proj2 (Z.leb_le _ _) Hw), Hn, (proj2 (Z.eqb_neq num 0)) by lia.
      unfold INT_MAX in *. by rewrite Z.add_0_l, !(u64_small (num * size)) by (unfold is_u64; lia). }
    set (r1 := mkRing (num * size) Window (u64 num) (mkTx (pool - num) num 0 0) 0 0 PollRead 0 (mkFw (num * size) 0 Reading false false 0 t) (fw0 pool)).
    eapply (rtc_l _ _ r1).
    { exists HSend. split; [cbn; apply Z.ltb_lt; lia|]. cbn [exec]. unfold SendRequestsHead_send, send_chunks, send_requests, send_bytes, big. cbn [send_pc head_tx].
      destruct (Z.gtb_spec size cb); [lia|]. unfold tx_get, t. cbn [tx_free]. destruct (Z.gtb_spec num pool); [lia|]. cbn [mbind outcome_bind tx_posted tx_polled tx_done]. unfold tx_post. cbn [tx_posted].
      rewrite Z.sub_0_r, Z.min_l, Z.sub_diag by lia. cbn. unfold add_in, r1. cbn. by rewrite !Z.add_0_l. }
    etrans; [apply (head_tx_drains size num cb depth (Z.to_nat (tx_work (head_tx r1)))); [split; cbn; unfold MAX_COMPLETIONS; lia|unfold tx_work; cbn; lia]|].
    set (r2 := with_head_tx _ r1). etrans; [apply (unready_reads size num cb depth (Z.to_nat (num * size)) r2 0 t); [|lia|lia]|]; [by rewrite Z2Nat.id by lia|].
    assert (with_mid (mkFw 0 (0 + Z.of_nat (Z.to_nat (num * size))) Reading false false 0 t) r2 =
      mkRing (num * size) Window (u64 num) t 0 0 PollRead 0 (mkFw 0 (num * size) Reading false false 0 t) (fw0 pool)) as ->.
    { unfold with_mid, r2, t, tx_total. cbn. rewrite Z2Nat.id by lia. do 2 f_equal. lia. }
    eapply rtc_l; [exists (Mid FReady); split; [done|]; reflexivity|]. eapply rtc_l; [exists (Mid FSetCallback); split; [done|]; reflexivity|].
    eapply rtc_l; [exists (Tail FReady); split; [done|]; reflexivity|]. apply rtc_once. exists (Tail FSetCallback). split; [done|]. reflexivity.
  - intros r' Hrun. apply (rtc_invariant (r_step size num cb depth) (λ x, x = r) r r'); [|done|done].
    intros x y -> (o&He&Ho). unfold r in He, Ho |- *. clear r Hrun. destruct o as [| |o|rs| |o|o]; cbn in He; try discriminate He.
    + revert Ho. unfold_exec. cbn. unfold ChainReplicationClient.inflight_threshold. unfold INT_MAX in *. rewrite (u64_small (num / 2 * size)) by (unfold is_u64; lia).
      destruct (Z.leb_spec (num * size) (num / 2 * size)); [lia|]. by intros [= <-].
    + destruct o as [k| |]; cbn in He; try discriminate He. apply andb_true_iff in He as [H1%Z.ltb_lt H2%Z.leb_le]. unfold MAX_COMPLETIONS in *. lia.
    + apply orb_true_iff in He as [[H1%Z.ltb_lt H2%Z.leb_le]%andb_true_iff|Hrs%Z.eqb_eq]; [lia|]. subst rs. by injection Ho as <-.
    + revert Ho. cbn [exec]. unfold MidPoll. destruct (fw_exec size cb depth size o _) as [[f k]|] eqn:E; [|done]. cbn [mbind outcome_bind]. intros [= <-].
      destruct (fw_idle _ _ _ _ _ _ _ _ _ He E) as [-> ->]. by rewrite add_in_0.
    + revert Ho. cbn [exec]. unfold TailPoll. destruct (fw_exec size cb depth ACK_SIZE o _) as [[f k]|] eqn:E; [|done]. cbn [mbind outcome_bind]. intros [= <-].
      destruct (fw_idle _ _ _ _ _ _ _ _ _ He E) as [-> ->]. by rewrite Z.add_0_r.
Qed.

Section oversized.
Context (size num cb pool depth : Z) (Hsize : 0 < size) (Hnum : 0 < num) (Hcb : 0 < cb ≤ INT_MAX).
Context (Hbytes : num * size ≤ RECV_BUFFER) (Hacks : num * ACK_SIZE ≤ RECV_BUFFER).
Context (Hpool : TX_QUEUE_LEN + MAX_COMPLETIONS + chunks cb size ≤ pool) (Hpool' : TX_QUEUE_LEN + MAX_COMPLETIONS + ACK_SIZE ≤ pool) (Hdepth : TX_QUEUE_LEN ≤ depth).
Context (Hbig : TX_QUEUE_LEN < chunks cb size).

(** The loop of [SendRequests] is never left. *)
Lemma oversized_quiet o f f' n : fw_ok size cb pool size f → fw_enabled o f = true → fw_exec size cb depth size o f = Ret (f', n) → n = 0.
Proof using Hbig.
  intros [_ ([(?&?&?&?) _]&_) (_&Hq&Hlim) Hst] He E. destruct (decide (o = FSend)) as [->|Hne]; [|by apply (exec_sends size cb depth size o f f')].
  exfalso. unfold filled in Hq. cbn in He. destruct (pc f) as [| |rem k]; try done. apply Z.eqb_eq in He as ->. destruct Hst as (_&Hk&[[_ ?]|[_ ->]]); lia.
Qed.

(** A request of more than 128 chunks is never forwarded: [SendRequests] counts
    its chunks in flight before it posts any of them, and waits for completions
    that cannot come. No request is ever acknowledged. *)
Theorem oversized_never_acknowledged r : rtc (r_step size num cb depth) (ring0 pool) r → m_receive_id r = 0 ∧ head_in r = 0 ∧ fw_in (tail r) = 0.
Proof using All.
  intros Hrun. assert ((∃ q, ring_ok size num cb pool depth r q 0) ∧ bytes (tail r) = 0 ∧ m_receive_id r = 0) as ((q&[_ [(?&?) _ _ _] (?&?&?) _ _ _ _ _])&Hb&Hid);
    [|unfold bytes in Hb; split_and!; [done|lia|lia]].
  apply (rtc_invariant (r_step size num cb depth) (λ r, (∃ q, ring_ok size num cb pool depth r q 0) ∧ bytes (tail r) = 0 ∧ m_receive_id r = 0) (ring0 pool) r); [| |done];
    [|split; [exists 0; by apply (ring_start_ok size num cb pool depth Hsize Hnum Hpool' Hdepth false)|done]].
  clear r Hrun. intros x y ((q&Hok)&Hb&Hid) Hs. destruct (r_step_ok size num cb pool depth Hsize Hnum Hcb Hbytes Hacks Hpool Hpool' Hdepth x y q 0 Hok Hs) as (q'&c'&Hok'&_).
  destruct Hs as (o&He&Ho). pose proof Hok as [Hm Ht (Hh1&Hh2&Hh3) _ _ _ _ _]. destruct (node_bytes size num cb pool depth Hsize Hnum Hbytes x q 0 Hok) as (_&Hbt&_).
  assert (bytes (tail y) = 0 ∧ head_in y + head_len y = 0 ∧ m_receive_id y = 0) as (Hb'&Hh'&Hid').
  { unfold ACK_SIZE in Hh3. destruct o; unfold_exec_in Ho.
    - destruct (_ <=? _); [|injection Ho as <-; by split_and!; [| lia |]]. destruct (_ =? 0); [destruct (big _ _); [injection Ho as <-; by split_and!; [|lia|]|done]|]. injection Ho as <-. cbn. by split_and!; [|lia|].
    - destruct (send_pc x); [done|]. destruct (tx_get _ _); [|done]. cbn [mbind outcome_bind] in Ho. destruct (if big _ _ then _ else _); [|done]. cbn in Ho. injection Ho as <-. cbn. by split_and!; [|lia|].
    - injection Ho as <-. cbn. by split_and!; [|lia|].
    - destruct (rs >? 0); [destruct (_ && _); [injection Ho as <-|done]|destruct (_ || _); [injection Ho as <-|done]]; cbn; split_and!; try done; lia.
    - destruct (Z.geb_spec (head_len x) ACK_SIZE); [unfold ACK_SIZE in *; lia|]. injection Ho as <-. cbn. by split_and!; [|lia|].
    - destruct (fw_exec size cb depth size o (mid x)) as [[f n]|] eqn:E; [|done]. cbn [mbind outcome_bind] in Ho. injection Ho as <-.
      rewrite (oversized_quiet o (mid x) f n Hm He E). cbn [tail head_in head_len m_receive_id]. rewrite add_in_0. by split_and!; [|lia|].
    - destruct (fw_exec size cb depth ACK_SIZE o (tail x)) as [[f n]|] eqn:E; [|done]. cbn [mbind outcome_bind] in Ho. injection Ho as <-. cbn [tail head_in head_len m_receive_id].
      destruct (decide (o = FTx TCallback ∧ has_cb (tail x) = false)) as [[-> Hcb0]|Hne]; [cbn in E; by rewrite Hcb0 in E|].
      destruct (fw_exec_ok size cb pool depth ACK_SIZE Hsize Hcb ltac:(done) (ack_pool cb pool Hcb Hpool') Hdepth o (tail x) Ht Hbt He) as (f1&n1&E1&_&Hn);
        [intros ->; destruct (has_cb (tail x)); [done|by destruct Hne]|]. rewrite E in E1. injection E1 as <- <-. destruct Hn as [[-> Hn]|(_&_&?)]; [|lia].
      split_and!; [by rewrite Hn|lia|done]. }
  split_and!; [|done|done]. exists q'. pose proof Hok' as [_ _ (_&_&Hh3') _ _ _ _ _]. assert (c' = 0) as <- by (unfold ACK_SIZE in *; lia). exact Hok'.
Qed.
End oversized.

(** ** Witnesses: requests of 100 bytes, a window of 4, chunks of 64 bytes; a
    pool of 1024 chunks and a queue of 129 *)

Fixpoint runs (size num cb depth : Z) (l : list ring_op) (r : ring) : option ring :=
  match l with
  | [] => Some r
  | o :: l => if enabled o r then match exec size num cb depth o r with Ret r => runs size num cb depth l r | Crash _ => None end else None
  end.
Lemma runs_rtc size num cb depth l : ∀ r r', runs size num cb depth l r = Some r' → rtc (r_step size num cb depth) r r'.
Proof.
  induction l as [|o l IH]; intros r r'; cbn [runs]; [by intros [= ->]|]. destruct (enabled o r) eqn:He; [|done].
  destruct (exec size num cb depth o r) as [r1|] eqn:E; [|done]. intros H. eapply rtc_l; [by exists o|]. by apply IH.
Qed.

Definition demo_run : list ring_op :=
  [HWindow; HSend; HSend; HTx (TPoll 2); Mid FReady; Mid FSetCallback; Tail FReady; Tail FSetCallback; Mid (FRead 150); Mid FTest; Mid FFill; Mid FFill; Mid FSend;
   HTx TCallback; HSend; Mid FTest; Mid (FTx (TPoll 1)); Mid (FTx TCallback); Mid (FTx TReturn); Tail (FRead 100); Tail FTest; Tail FFill; Tail FSend; HRead 64; HTest].
Definition demo_ring : ring := Eval vm_compute in default (ring0 1024) (runs 100 4 64 129 demo_run (ring0 1024)).

Lemma chain_safe_witness :
  (∃ n, 0 ≤ n ∧ unsent demo_ring + n ≤ 4 ∧ inflight_size demo_ring = 100 * (unsent demo_ring + n) ∧ m_request_id demo_ring = u64 (1 + n)) ∧
  tx_total (head_tx demo_ring) ≤ 1024.
Proof.
  destruct (chain_safe 100 4 64 1024 129) with (r := demo_ring) as (_&H1&_&H2&_); [done|done|done|done|done|done|done|done| |by split].
  apply (runs_rtc 100 4 64 129 demo_run). vm_compute. reflexivity.
Defined.

Definition busy_ring : ring := Eval vm_compute in default (ring0 1024) (runs 100 4 64 129 demo_run (ring_start 1024 true)).

Lemma chain_stalls_witness : ∃ r, rtc (r_step 64 4 64 129) (ring0 1024) r ∧ inflight_size r = 256 ∧ ∀ r', rtc (r_step 64 4 64 129) r r' → r' = r.
Proof. destruct (chain_stalls 64 4 64 1024 129) as (r&H1&_&_&H2&_&H3); [done|done|done|done|done|]. by exists r. Defined.

Lemma oversized_never_acknowledged_witness : m_receive_id (ring0 1024) = 0 ∧ head_in (ring0 1024) = 0 ∧ fw_in (tail (ring0 1024)) = 0.
Proof. apply (oversized_never_acknowledged 300 4 2 1024 129); [done|done|done|done|done|done|done|done|done|apply rtc_refl]. Defined.

(** [ReadyToSend] sets [ready] before it sets the callback: a request that is
    forwarded in between completes into an empty function. *)
Example early_completion_throws : ∃ r, rtc (r_step 64 2 64 129) (ring0 1024) r ∧ has_cb (mid r) = false ∧ enabled (Mid (FTx TCallback)) r = true ∧
  exec 64 2 64 129 (Mid (FTx TCallback)) r = Crash KAbort.
Proof.
  destruct (runs 64 2 64 129 [HWindow; HSend; Mid FReady; Mid (FRead 128); Mid FTest; Mid FFill; Mid FSend; Mid (FTx (TPoll 1))] (ring0 1024)) as [r|] eqn:E; [|by vm_compute in E].
  exists r. split; [by apply (runs_rtc _ _ _ _ _ _ _ E)|]. vm_compute in E. injection E as <-. done.
Qed.

(** A window of 100 requests and a queue of 129: acknowledgements that overtake
    the completions of the head let it send into a full queue, and the requests
    that do not fit are lost. *)
Definition forward_one : list ring_op := [Mid FTest; Mid FFill; Mid FSend; Mid (FTx (TPoll 1)); Mid (FTx TCallback); Mid (FTx TReturn)].
Definition answer_one : list ring_op := [Tail FTest; Tail FFill; Tail FSend; Tail (FTx (TPoll 1)); Tail (FTx TCallback); Tail (FTx TReturn)].
Definition overrun : list ring_op :=
  [HWindow; HSend; Mid FReady; Mid FSetCallback; Tail FReady; Tail FSetCallback; Mid (FRead 6400)] ++ concat (replicate 100 forward_one) ++
  [Tail (FRead 6400)] ++ concat (replicate 100 answer_one) ++ [HRead 6400] ++ replicate 100 HTest ++ [HWindow; HSend].
Example full_queue_loses : ∃ r, rtc (r_step 64 100 64 129) (ring0 1024) r ∧ lost_bytes 64 r = 71 * 64 ∧ tx_total (head_tx r) = 1024 - 71.
Proof.
  destruct (runs 64 100 64 129 overrun (ring0 1024)) as [r|] eqn:E; [|by vm_compute in E].
  exists r. split; [by apply (runs_rtc _ _ _ _ _ _ _ E)|]. vm_compute in E. injection E as <-. done.
Qed.
