(* ===== verification/Contexts.v ===== *)
(** * [Context] and those who own its parts (src/common/context.h)

    A context points to a configuration, which its destructor deletes, and
    holds a collection of counters and a table of event centres. The objects
    are kept in maps by address; [delete] of an address that holds no object is
    undefined. Also [cpp_strerror] (src/common/common.h). *)

From S2P Require Import Prelude State Addr Machine Wire Text Utime Histogram PerfCounters Config.

(** [strerror_r] is a parameter. The negation is of an [int]. *)
Definition cpp_strerror (strerror_r : Z → list Z) (err : Z) : outcome (list Z) :=
  let err := if err <? 0 then - err else err in
  if err <=? 2147483647 then Ret (txt "(" ++ dec_s err ++ txt ") " ++ strerror_r err) else Crash Undefined.

(** The code is in the message, without its sign, and can be read from it. *)
Lemma cpp_strerror_code strerror_r err : -2147483648 < err ≤ 2147483647 →
  ∃ msg, cpp_strerror strerror_r err = Ret msg ∧ cpp_strerror strerror_r (- err) = Ret msg ∧
    scan_dec 0 (drop 1 msg) = (Z.abs err, txt ") " ++ strerror_r (Z.abs err)).
Proof.
  intros He. unfold cpp_strerror.
  assert (∀ e, (if e <? 0 then - e else e) = Z.abs e) as Habs by (intros e; destruct (Z.ltb_spec e 0); lia).
  rewrite !Habs, Z.abs_opp. destruct (Z.leb_spec (Z.abs err) 2147483647); [|lia]. eexists. split_and!; [done..|].
  unfold dec_s. destruct (Z.ltb_spec (Z.abs err) 0); [lia|]. cbn [txt String.list_ascii_of_string fmap list_fmap app drop].
  by apply scan_dec_u; [lia|].
Qed.
Lemma cpp_strerror_min strerror_r : cpp_strerror strerror_r (-2147483648) = Crash Undefined.
Proof. done. Qed.

(** ** The objects *)

Definition MAX_EVENTCENTER : nat := 96.

(** The counters themselves belong to those who registered them. *)
Record context := mkContext {
  m_rdma_config_ : Z;
  m_counter_collection_ : gmap string Z * gmap string (Z * nat);
  m_associateCenters : list Z;
}.
Record objs := mkObjs { configs : gmap Z Config; contexts : gmap Z context; counters : gmap Z PerfCounters.t }.

Definition set_configs (v : gmap Z Config) (h : objs) : objs := mkObjs v (contexts h) (counters h).
Definition set_contexts (v : gmap Z context) (h : objs) : objs := mkObjs (configs h) v (counters h).
Definition set_counters (v : gmap Z PerfCounters.t) (h : objs) : objs := mkObjs (configs h) (contexts h) v.

(** An operation returns, or lets the exception of [std::stoi] through. *)
Inductive result (A : Type) := Done (x : A) | Thrown (e : stoi_result).
Arguments Done {A} _.
Arguments Thrown {A} _.

Section context.
Context (pton : list Z → option (list Z)) (junks : nat → list Z).
Implicit Types h : objs.

(** [new Config(filename)] in the free memory at [a], which held [raw] *)
Definition new_Config (a : Z) (file : list Z) (raw : Config) h : outcome (result objs) :=
  match configs h !! a with
  | Some _ => Crash Undefined
  | None =>
    r ← load pton junks file raw;
    match r with
    | Parsed c => Ret (Done (set_configs (<[a := c]> (configs h)) h))
    | Threw e => Ret (Thrown e)
    end
  end.
(** [delete] of a null pointer does nothing. *)
Definition delete_Config (a : Z) h : outcome objs :=
  if a =? 0 then Ret h else
  match configs h !! a with Some _ => Ret (set_configs (delete a (configs h)) h) | None => Crash Undefined end.

(** [new Context(config)] at [b] *)
Definition new_Context (b config : Z) h : outcome objs :=
  match contexts h !! b with
  | Some _ => Crash Undefined
  | None => Ret (set_contexts (<[b := mkContext config (∅, ∅) (replicate MAX_EVENTCENTER 0)]> (contexts h)) h)
  end.
(** [new Context(config_file)] at [b] *)
Definition new_Context_from_file (b a : Z) (file : list Z) (raw : Config) h : outcome (result objs) :=
  r ← new_Config a file raw h;
  match r with
  | Done h => h ← new_Context b a h; Ret (Done h)
  | Thrown e => Ret (Thrown e)
  end.

(** The collection as its own operations see it *)
Definition get_perfcounters_collection (b : Z) h : outcome collection :=
  c ← deref (contexts h !! b); Ret (mkCollection (counters h) (m_counter_collection_ c).1 (m_counter_collection_ c).2).
(** The destructor deletes the configuration; then the collection goes, whose
    destructor clears it. *)
Definition delete_Context (b : Z) h : outcome objs :=
  if b =? 0 then Ret h else
  c ← deref (contexts h !! b);
  h ← delete_Config (m_rdma_config_ c) h;
  k ← get_perfcounters_collection b h;
  Ret (set_contexts (delete b (contexts h)) (set_counters (objects (collection_clear k)) h)).

(** ** The programs

    [MulticastDaemonApp], [RDMAPingPongServer] and [ChainReplicationServer]
    make a configuration and a context over it, and delete both. *)
Definition App_create (a b : Z) (file : list Z) (raw : Config) h : outcome (result objs) :=
  r ← new_Config a file raw h;
  match r with
  | Done h => h ← new_Context b a h; Ret (Done h)
  | Thrown e => Ret (Thrown e)
  end.
Definition App_delete (a b : Z) h : outcome objs := h ← delete_Config a h; delete_Context b h.

(** ** Who owns the configuration *)

#[local] Arguments load : simpl never.
#[local] Arguments collection_clear : simpl never.
#[local] Arguments replicate : simpl never.

Lemma new_Config_done a file raw h h' : new_Config a file raw h = Ret (Done h') →
  configs h !! a = None ∧ ∃ c, load pton junks file raw = Ret (Parsed c) ∧ h' = set_configs (<[a := c]> (configs h)) h.
Proof using Type.
  unfold new_Config. destruct (configs h !! a); [done|]. destruct (load pton junks file raw) as [[c|e]|] eqn:E; cbn; [|done..].
  intros [= <-]. eauto.
Qed.
Lemma new_Context_done b a h h' : new_Context b a h = Ret h' →
  contexts h !! b = None ∧ h' = set_contexts (<[b := mkContext a (∅, ∅) (replicate MAX_EVENTCENTER 0)]> (contexts h)) h.
Proof using Type. unfold new_Context. destruct (contexts h !! b); [done|]. intros [= <-]. done. Qed.

Lemma clear_empty (objs : gmap Z PerfCounters.t) : objects (collection_clear (mkCollection objs ∅ ∅)) = objs.
Proof using Type. unfold collection_clear. cbn. rewrite map_to_list_empty. apply map_filter_id. intros i x _. set_solver. Qed.

(** A context made from a file owns its configuration: its destructor deletes
    both and leaves every other object, and the counters, as they were. *)
Theorem context_owns_config b a file raw h h' : a ≠ 0 → b ≠ 0 →
  new_Context_from_file b a file raw h = Ret (Done h') →
  (∃ c, configs h' !! a = Some c ∧ load pton junks file raw = Ret (Parsed c)) ∧
  get_perfcounters_collection b h' = Ret (mkCollection (counters h) ∅ ∅) ∧
  delete_Context b h' = Ret h.
Proof using Type.
  intros Ha Hb. unfold new_Context_from_file. destruct (new_Config a file raw h) as [[h1|]|] eqn:E1; cbn; [|done..].
  destruct (new_Context b a h1) as [h2|] eqn:E2; cbn; [|done]. intros [= <-].
  apply new_Config_done in E1 as (Ha0&c&Hl&->). apply new_Context_done in E2 as (Hb0&->).
  unfold get_perfcounters_collection, delete_Context, delete_Config. cbn in *. rewrite !lookup_insert_eq. cbn.
  split_and!; [eauto|done|]. rewrite (proj2 (Z.eqb_neq a 0) Ha), (proj2 (Z.eqb_neq b 0) Hb). cbn. rewrite !lookup_insert_eq. cbn.
  unfold get_perfcounters_collection. cbn. rewrite lookup_insert_eq. cbn. rewrite clear_empty. unfold set_contexts, set_counters, set_configs. cbn.
  rewrite !delete_insert_id by done. by destruct h.
Qed.

(** The programs delete their configuration twice: what their constructors
    made, their destructors cannot delete, while deleting the context alone
    would have been right. *)
Theorem app_deletes_twice a b file raw h h' : a ≠ 0 → b ≠ 0 → App_create a b file raw h = Ret (Done h') →
  App_delete a b h' = Crash Undefined ∧ delete_Context b h' = Ret h.
Proof using Type.
  intros Ha Hb Hc. destruct (context_owns_config b a file raw h h' Ha Hb Hc) as (_&_&Hd). split; [|done].
  revert Hc. unfold App_create, App_delete. destruct (new_Config a file raw h) as [[h1|]|] eqn:E1; cbn; [|done..].
  destruct (new_Context b a h1) as [h2|] eqn:E2; cbn; [|done]. intros [= <-].
  apply new_Config_done in E1 as (Ha0&c&_&->). apply new_Context_done in E2 as (_&->).
  unfold delete_Context, delete_Config. cbn. rewrite (proj2 (Z.eqb_neq a 0) Ha), (proj2 (Z.eqb_neq b 0) Hb). cbn. rewrite !lookup_insert_eq. cbn.
  rewrite lookup_insert_eq. cbn. by rewrite (proj2 (Z.eqb_neq a 0) Ha), lookup_delete_eq.
Qed.
End context.

(** The daemon with a file that sets the port it listens on *)
Example app_deletes_twice_example : ∃ h c,
  App_create no_address demo_junks 8 16 (txt "LISTEN_PORT 30001") raw0 (mkObjs ∅ ∅ ∅) = Ret (Done h) ∧
  configs h !! 8 = Some c ∧ m_listen_port c = 30001 ∧ App_delete 8 16 h = Crash Undefined.
Proof. do 2 eexists. split_and!; [vm_compute; reflexivity| vm_compute; reflexivity | vm_compute; reflexivity | vm_compute; reflexivity]. Qed.
